(* ===== verification/_CoqProject ===== *)
-Q . S2P
Prelude.v
Memory.v
Kalloc.v
Paging.v
PageTree.v
Ring.v
IntrusiveList.v
LinkedList.v
LinkedListOps.v
LinkedListSpec.v
StrUtils.v
Printf.v
Templates.v
Percpu.v
Spinlock.v
Tty.v
Serial.v
Reports.v
PrintVm.v
Halt.v
KernelOutput.v
Threads.v
Context.v
SmpSched.v
SchedRound.v
Switching.v
DemoRun.v
Proc.v
Mutex.v
Acpi.v
Madt.v
Lapic.v
Ioapic.v
Idt.v
Legacy.v
Handlers.v
SchedTypes.v
ApStartup.v
Boot.v
SelfTests.v
KernelMain.v
DemoThreads.v
ProcInit.v
KernelSched.v
KernelRun.v
