(* ===== verification/Prelude.v ===== *)
(** * ShipOS: a verification of the kernel's core

    ShipOS is a small x86-64 kernel in C ([src/kernel]).  A boot processor
    parses the ACPI tables, sets up memory, page tables and per-CPU data, starts
    the other processors, and all of them run a scheduler of kernel threads;
    output goes to text terminals and to serial ports.  This library translates
    the C code into executable Rocq functions and proves what makes each part
    correct.  Where the code does not do what it means to, the theorem states
    what it does.

    ** Conventions

    Machine words are [Z]; every conversion or wrap-around of the C code is
    written out ([u8], [u16], [u32], [u64], [s8] ... below).  Stateful code is in
    the monad [M S A = S → outcome (A * S)].  An [outcome] is a result ([Ret]), a
    kernel panic with its message ([Panic]), an undefined access ([Undef]), or
    [OutOfFuel] for a loop whose fuel is used up; every theorem that says that a
    function returns also says that the fuel given in its definition is enough.
    Physical memory is a finite map from addresses to bytes, with little-endian
    loads and stores; structures in allocated pages are read and written field
    by field at the offsets of the C layout.  Log output is left out of the
    functions whose result does not depend on it.

    ** Files

    Memory and data structures:

    - [Prelude.v]: words, outcomes, the state monad and its notations, tactics.
    - [Memory.v]: memory, [memset], [memcmp], the memory layout
      ([memlayout.h], [lib/src/memset.c], [memcmp.c]).
    - [Kalloc.v]: the page allocator ([kalloc/kalloc.c]): the free list threaded
      through the free pages.  [kalloc], [kfree] and [kinit] refine operations on
      the list of free pages; pages handed out are distinct.  The class
      [Allocator] states what the rest relies on.
    - [Paging.v], [PageTree.v]: page tables ([paging/paging.c]).  The first has
      the code, the second its meaning: a well-formed tree of tables, in which
      [map_page], [unmap_page] and [map_pages] are updates of a page map, proved
      against the interface of the allocator.
    - [Ring.v]: circular doubly linked lists, shared by the list users.
    - [IntrusiveList.v]: the list whose nodes are embedded in the elements
      ([list/list.c]), as a mathematical list.
    - [LinkedList.v], [LinkedListOps.v], [LinkedListSpec.v]: the list that the
      macros of [list/linkedlist.h] generate.  The first file has the code and
      the invariant, the second runs each operation symbolically, the third
      proves that any sequence of operations behaves as on a mathematical list,
      for any [malloc] that keeps its contract, and that a freed list gives all
      its pages back; two operations on neighbours break the list.

    Output:

    - [StrUtils.v], [Printf.v]: number formatting ([lib/src/str_utils.c]) and
      the format interpreter that [printf] and [serial_printf] contain; the
      latter is a function of a [sink] that receives characters, so that both
      share one proof.
    - [Templates.v]: formats as sequences of literal text and conversions, with
      the text they give; it carries the proofs about fixed formats.
    - [Tty.v], [Serial.v]: terminals and screen ([tty/tty.c], [vga/vga.c]), and
      the serial driver ([serial/serial.c]) over a device interface with a
      model of the UART as an instance.
    - [Reports.v]: [LOG_SERIAL] ([lib/include/logging.h]), and the functions
      that only report ([percpu_log_cpu_info], [percpu_log_timer_ticks],
      [sched_log_state]): what they send, line by line.
    - [PrintVm.v]: [print_vm] ([paging/paging.c]) types one line for every
      present entry of a tree of tables; those of the last level are its
      mappings.
    - [Halt.v]: [panic] and [shutdown] ([lib/src/panic.c], [shutdown.c]) on both
      outputs: what they report, when a panic reports nothing, and which ports
      are tried to switch the machine off.

    Processors, threads and locks:

    - [Percpu.v]: per-CPU structures, GDT and TSS, [mycpu], [pushcli] and
      [popcli] ([sched/percpu.c]).
    - [Spinlock.v]: spinlocks ([sync/spinlock.c]), as one processor runs them
      and as a step relation that interleaves any number of processors: mutual
      exclusion and freedom from deadlock by induction on the steps.
    - [Threads.v], [Context.v]: threads and thread lists ([sched/threads.c]),
      and the context switch ([lib/src/swtch.asm]).
    - [SmpSched.v]: the scheduler ([sched/smp_sched.c]).  The invariant [queues]
      ties the rings in memory and the counters of all CPUs to lists of threads;
      adding, removing, picking and balancing are operations on these lists.
    - [SchedTypes.v]: a type discipline for the per-CPU and scheduler state: sizes
      of arrays, ranges of indices and counters.  A small Hoare logic ([Keeps])
      with a hint database follows the code of every operation; no sequence of
      operations accesses an array out of range.
    - [SchedRound.v]: what one round of [sched_run], [sched_yield] and [sched_exit]
      do to the queues up to their switch of contexts.
    - [Switching.v]: the scheduler's loop, the idle thread and [demo_thread_func]
      ([main.c]) as code that runs on stacks of its own and hands the CPU over with
      [switch_context]: a step is the code up to the next switch.  [reaches] says
      that a run gets somewhere, [safe] that it never faults or panics, whatever
      the compiled code does with its own stacks and registers.
    - [DemoRun.v]: the threads in the queue of a CPU run in turn until all have
      exited, and the CPU idles: invariants of the states between steps, and
      induction over threads and rounds.
    - [Proc.v]: processes and their older scheduler ([sched/proc.c],
      [scheduler.c]), which never gets past the first process.
    - [Mutex.v]: mutexes ([sync/mutex.c]); its theorems are about the two ways
      in which they fail.

    Hardware:

    - [Acpi.v], [Madt.v]: ACPI tables ([desc/acpi.c], [rsdp.c], [rsdt.c],
      [madt.c]): the searches, over an interface to the page tables that
      [map_mmio] is proved to implement, and the parser of the table of
      processors and interrupt controllers with its inverse.
    - [Lapic.v], [Ioapic.v]: the drivers of the local APIC ([apic/lapic.c]) and
      of the I/O APICs ([apic/ioapic.c]) over interfaces to the chips.
    - [Idt.v], [Handlers.v]: the interrupt descriptor table and the keyboard
      controller ([idt/idt.c]), and the interrupt handlers
      ([idt/interrupt_handlers.c]): the keyboard handler refines an abstract
      console, the timer handler counts.
    - [Legacy.v]: the interrupt controllers and the timer of older machines
      ([pic/pic.c], [pit/pit.asm]), which nothing calls any more.
    - [ApStartup.v]: starting the other processors ([apic/ap_startup.c]): who
      is sent which interrupts, and what the cleared stacks overwrite.

    Composition:

    - [Boot.v]: the tables of [x86_64/boot/boot.asm], and [kinit] and [kvminit]
      on them.
    - [SelfTests.v]: the kernel's own tests ([lib/src/test.c]), all of which
      pass on every well-formed state.
    - [KernelOutput.v]: the first lines of [kernel_main] ([main.c]): the serial
      ports and the terminals, which are written to before they are set up; and
      what [thread_function] prints.
    - [KernelMain.v]: the memory phase of [kernel_main] ([main.c]), from the
      first page to the mapped interrupt controllers.
    - [DemoThreads.v], [ProcInit.v], [KernelSched.v]: the rest of it: the CPUs,
      the first process, the first threads, and the first switch of the
      scheduler, which goes to the first of them.
    - [KernelRun.v]: all of it up to the idle loop: after [kernel_main] has entered
      the scheduler, the demo threads of the bootstrap processor run to their ends,
      with the log they should write, and the processor idles for ever.

    ** Parameters

    What is not code of the kernel is an argument of the definitions that use
    it.  Symbols that the linker or the assembler decides: [Linker] (the end of
    the image and the boot tables in it), [PercpuSymbol] (the per-CPU array), [IdtSymbols] (the assembly stubs of the handlers), [ApSymbols] (the
    trampoline), [RunSymbols] (where threads start, and the return addresses of
    the calls of [switch_context]).  A [frame] is what the compiler decides about
    such a call: the registers, the depth of the stack, and what has been written
    to it; the theorems hold for all frames that stay on the stack.
    [WideShift] is what the compiled code does for shifts that C leaves undefined.
    Hardware, each as the accesses the driver makes and, in a
    class of its own, what the driver relies on: [UartDev] and [Uart] (serial
    ports), [LapicBus] and [LapicChip], [IoapicBus] and [IoapicChips], [PortBus]
    with [Ps2] (keyboard controller), [Pics] and [PitChip] (legacy chips);
    [PowerPorts] is what a machine does about a write that may switch it off.
    Interfaces between parts: [Allocator] (pages), [Mmio] and [MmioSpec] (the mapping of tables), [Malloc] and
    [MallocSpec] (which the kernel leaves undefined), [Console] (what a [sink]
    does with characters).  Each has an instance that the witnesses of the
    theorems use.

    ** Fuel

    Loops over memory of unknown contents have fuel: [kinit_fuel], [count_fuel]
    and [ring_fuel] are the number of pages of physical memory plus one or two, a
    bound for a list of distinct pages; [range_fuel] (page ranges) is the number
    of pages in the range; the scan for the root pointer has the number of its
    steps; a table parser the length of the table, since every entry takes at
    least two bytes, and the loops over its I/O APICs the number of its entries;
    [list_free] and [lst_print] the number of nodes.  A loop that waits for a
    device (the serial port, the keyboard controller, the command register of
    the local APIC) has the number of times it looks, and its theorems say how
    many are enough for a device that keeps its contract.  A busy-waiting lock
    has the number of attempts, since only another processor can end the wait.

    ** What is not modelled

    The endless loops at the end of [panic] and [shutdown].  A panic inside
    other functions is an outcome with its message (given without its final
    newline): what [panic] itself then does is in [Halt.v].  Also not modelled
    are delays ([microdelay]); the calls of [kernel_main] that
    only log, and its calls of [setup_idt], [start_all_aps] and of the reports,
    which are proved where they are defined; assembly other than
    [switch_context] and the boot tables: the stubs around the handlers, the
    trampoline, the switch to 64-bit mode.  The runs of [Switching.v] are those of
    one CPU: what other CPUs do to the shared memory in the meantime is not
    interleaved (only the spinlock is, in [Spinlock.v]), and [hlt] waits for an
    interrupt that comes.  Of the machine: the TLB ([invlpg]), weak memory, and
    interrupts that arrive in the middle of the modelled code. *)

From stdpp Require Export base tactics list gmap strings.
From Stdlib Require Export ZArith Lia.

#[export] Set Default Proof Using "Type*".
Open Scope Z_scope.

Declare Scope kernel_scope.
Delimit Scope kernel_scope with K.
Open Scope kernel_scope.

(** ** Machine integers

    A [w]-bit unsigned C integer is a [Z] in [0, 2^w); the conversions below
    are the C conversions to the type. *)

Definition u8 (x : Z) : Z := x mod 256.
Definition u16 (x : Z) : Z := x mod 65536.
Definition u32 (x : Z) : Z := x mod 4294967296.
Definition u64 (x : Z) : Z := x mod 18446744073709551616.

(** Conversions to the signed types [signed char], [short], [int], [int64_t]
    (two's complement). *)
Definition s8 (x : Z) : Z := (x + 128) mod 256 - 128.
Definition s16 (x : Z) : Z := (x + 32768) mod 65536 - 32768.
Definition s32 (x : Z) : Z := (x + 2147483648) mod 4294967296 - 2147483648.
Definition s64 (x : Z) : Z :=
  (x + 9223372036854775808) mod 18446744073709551616 - 9223372036854775808.

Definition UINT32_MAX : Z := 4294967295.

(** ** Outcomes of kernel code

    A call either returns, or reaches [panic] (which prints its message and
    spins, [kernel/lib/src/panic.c]), or makes an access that C leaves undefined
    (an array index outside the array, a variadic argument that was not
    passed), or is still looping when the fuel of the model's loop is used up. *)

Inductive outcome (A : Type) : Type :=
| Ret (a : A)
| Panic (msg : string)
| Undef
| OutOfFuel.
Arguments Ret {A} _.
Arguments Panic {A} _.
Arguments Undef {A}.
Arguments OutOfFuel {A}.

#[export] Instance outcome_ret : MRet outcome := @Ret.
#[export] Instance outcome_bind : MBind outcome := λ A B f c,
  match c with
  | Ret a => f a
  | Panic msg => Panic msg
  | Undef => Undef
  | OutOfFuel => OutOfFuel
  end.

(** Stateful kernel code over a state [S]. *)
Definition M (S A : Type) : Type := S → outcome (A * S).

Definition ret {S A} (a : A) : M S A := λ s, Ret (a, s).
Definition bind {S A B} (c : M S A) (f : A → M S B) : M S B := λ s,
  match c s with
  | Ret (a, s') => f a s'
  | Panic msg => Panic msg
  | Undef => Undef
  | OutOfFuel => OutOfFuel
  end.
Definition panic {S A} (msg : string) : M S A := λ _, Panic msg.
Definition undef {S A} : M S A := λ _, Undef.
Definition out_of_fuel {S A} : M S A := λ _, OutOfFuel.
Definition get {S} : M S S := λ s, Ret (s, s).
Definition gets {S A} (f : S → A) : M S A := λ s, Ret (f s, s).
Definition modify {S} (f : S → S) : M S () := λ s, Ret ((), f s).

Notation "'let*' x ':=' c 'in' k" := (bind c (λ x, k))
  (at level 10, x pattern, c at level 100, k at level 200,
   format "'[v' 'let*'  x  ':='  c  'in' '/' k ']'") : kernel_scope.
Notation "'do*' c 'in' k" := (bind c (λ _, k))
  (at level 10, c at level 100, k at level 200,
   format "'[v' 'do*'  c  'in' '/' k ']'") : kernel_scope.

Lemma bind_ret {S A B} (c : M S A) (f : A → M S B) s a s' :
  c s = Ret (a, s') → bind c f s = f a s'.
Proof. unfold bind. by intros ->. Qed.

Lemma bind_panic {S A B} (c : M S A) (f : A → M S B) s msg :
  c s = Panic msg → bind c f s = Panic msg.
Proof. unfold bind. by intros ->. Qed.

Lemma bind_Ret_inv {S A B} (c : M S A) (f : A → M S B) s b s'' :
  bind c f s = Ret (b, s'') → ∃ a s', c s = Ret (a, s') ∧ f a s' = Ret (b, s'').
Proof. unfold bind. destruct (c s) as [[a s']| | |]; naive_solver. Qed.

Lemma bind_get {S A} (k : S → M S A) s : bind get k s = k s s.
Proof. done. Qed.

Lemma bind_assoc {S A B C} (c : M S A) (f : A → M S B) (g : B → M S C) s :
  bind (bind c f) g s = bind c (λ a, bind (f a) g) s.
Proof. unfold bind. by destruct (c s) as [[a s']| | |]. Qed.

(** ** Automation *)

Create HintDb kernel discriminated.
Create Rewrite HintDb kernel.

(** Turns boolean tests of the code into propositions. *)
Ltac zbool :=
  repeat match goal with
  | H : (_ =? _) = true |- _ => apply Z.eqb_eq in H
  | H : (_ =? _) = false |- _ => apply Z.eqb_neq in H
  | H : (_ <? _) = true |- _ => apply Z.ltb_lt in H
  | H : (_ <? _) = false |- _ => apply Z.ltb_ge in H
  | H : (_ <=? _) = true |- _ => apply Z.leb_le in H
  | H : (_ <=? _) = false |- _ => apply Z.leb_gt in H
  | H : (_ && _) = true |- _ => apply andb_true_iff in H as [? ?]
  | H : (_ || _) = false |- _ => apply orb_false_iff in H as [? ?]
  | H : negb _ = true |- _ => apply negb_true_iff in H
  | H : negb _ = false |- _ => apply negb_false_iff in H
  end.

(** Case analysis on the first boolean test of the goal. *)
Ltac case_test :=
  match goal with
  | |- context [if ?b then _ else _] =>
      let E := fresh "E" in destruct b eqn:E; zbool
  end.

(** [lia] with the machine-integer conversions unfolded. *)
Ltac zlia := unfold u8, u16, u32, u64, s8, s16, s32, s64 in *;
  Z.to_euclidean_division_equations; lia.

(** ** Conversions *)

Lemma u8_range x : 0 ≤ u8 x < 256.
Proof. apply Z.mod_pos_bound; lia. Qed.
Lemma u16_range x : 0 ≤ u16 x < 65536.
Proof. apply Z.mod_pos_bound; lia. Qed.
Lemma u32_range x : 0 ≤ u32 x < 4294967296.
Proof. apply Z.mod_pos_bound; lia. Qed.
Lemma u64_range x : 0 ≤ u64 x < 18446744073709551616.
Proof. apply Z.mod_pos_bound; lia. Qed.

Lemma u8_small x : 0 ≤ x < 256 → u8 x = x.
Proof. apply Z.mod_small. Qed.
Lemma u16_small x : 0 ≤ x < 65536 → u16 x = x.
Proof. apply Z.mod_small. Qed.
Lemma u32_small x : 0 ≤ x < 4294967296 → u32 x = x.
Proof. apply Z.mod_small. Qed.
Lemma u64_small x : 0 ≤ x < 18446744073709551616 → u64 x = x.
Proof. apply Z.mod_small. Qed.

#[export] Hint Resolve u8_range u16_range u32_range u64_range : kernel.
#[export] Hint Rewrite u8_small u16_small u32_small u64_small using lia : kernel.

(** Masks with [2^k - 1] are remainders, right shifts are quotients. *)
Lemma land_mask x k : 0 ≤ k → Z.land x (2 ^ k - 1) = x mod 2 ^ k.
Proof. intros. rewrite <- Z.land_ones by done. by rewrite Z.ones_equiv, Z.sub_1_r. Qed.

Lemma lor_range x y k : 0 ≤ k → 0 ≤ x < 2 ^ k → 0 ≤ y < 2 ^ k → 0 ≤ Z.lor x y < 2 ^ k.
Proof.
  intros Hk Hx Hy. assert (0 ≤ Z.lor x y) as Hn by (apply Z.lor_nonneg; lia).
  split; [done|]. rewrite <- (Z.mod_small x (2 ^ k)), <- (Z.mod_small y (2 ^ k)) by done.
  rewrite <- !Z.land_ones by done. rewrite <- Z.land_lor_distr_l, Z.land_ones by done.
  apply Z.mod_pos_bound. lia.
Qed.

Lemma lor_disjoint_add x y k :
  0 ≤ k → 0 ≤ x < 2 ^ k → Z.lor x (Z.shiftl y k) = x + y * 2 ^ k.
Proof.
  intros Hk Hx. rewrite <- Z.shiftl_mul_pow2 by done.
  symmetry. rewrite <- Z.lxor_lor; [apply Z.add_nocarry_lxor|];
  (apply Z.bits_inj'; intros n Hn; rewrite Z.land_spec, Z.bits_0;
   destruct (Z.ltb_spec n k);
   [rewrite (Z.shiftl_spec_low y k n) by done; apply andb_false_r
   |rewrite <- (Z.mod_small x (2 ^ k)) by done;
    rewrite Z.mod_pow2_bits_high by lia; done]).
Qed.
