(* ===== verification/Memory.v ===== *)
(** * Physical memory, [memset], [memcmp] and the memory layout

    Memory is the identity-mapped physical memory the kernel works on: a byte
    per address, read and written through little-endian loads and stores of
    1, 2, 4 or 8 bytes.  On top of it this file models
    [kernel/lib/src/memset.c], [kernel/lib/src/memcmp.c] and the constants and
    rounding macros of [kernel/memlayout.h]. *)

From S2P Require Import Prelude.

Abbreviation mem := (gmap Z Z).

(** ** [kernel/memlayout.h] *)

Definition KSTART : Z := 0x100000.
Definition INIT_PHYSTOP : Z := 2 * 1024 * 1024.
Definition PHYSTOP : Z := 128 * 1024 * 1024.
Definition PGSIZE : Z := 4096.
Definition PGSHIFT : Z := 12.

(** The macros at their use on [uint64_t] operands. *)
Definition PGROUNDUP (sz : Z) : Z :=
  Z.land (u64 (sz + PGSIZE - 1)) (Z.lnot (PGSIZE - 1)).
Definition PGROUNDDOWN (a : Z) : Z := Z.land a (Z.lnot (PGSIZE - 1)).

(** The linker script places the symbol [end] after the kernel image, and the
    four page tables of the boot code ([p4_table] and those behind it) in it. *)
Class Linker := {
  KEND : Z;
  KEND_range : KSTART ≤ KEND < PHYSTOP;
  p4_table : Z;
  p4_aligned : p4_table mod PGSIZE = 0;
  p4_range : KSTART ≤ p4_table ∧ p4_table + 4 * PGSIZE ≤ KEND
}.

(** An image that starts with the tables and ends at 0x150000. *)
Definition demo_linker : Linker.
Proof. refine {| KEND := 0x150000; p4_table := 0x100000 |}; [split; [vm_compute; discriminate|reflexivity]|reflexivity|split; vm_compute; discriminate]. Defined.

(** ** Loads and stores *)

Definition byte_at (m : mem) (a : Z) : Z := u8 (default 0 (m !! a)).

(** [load m a n] is the [n]-byte little-endian number at [a]. *)
Fixpoint load (m : mem) (a : Z) (n : nat) : Z :=
  match n with
  | O => 0
  | S n' => byte_at m a + 256 * load m (a + 1) n'
  end.

Fixpoint store (m : mem) (a : Z) (n : nat) (v : Z) : mem :=
  match n with
  | O => m
  | S n' => store (<[a := v mod 256]> m) (a + 1) n' (v / 256)
  end.

Definition load16 (m : mem) (a : Z) : Z := load m a 2.
Definition load32 (m : mem) (a : Z) : Z := load m a 4.
Definition load64 (m : mem) (a : Z) : Z := load m a 8.
Definition store8 (m : mem) (a v : Z) : mem := store m a 1 v.
Definition store16 (m : mem) (a v : Z) : mem := store m a 2 v.
Definition store32 (m : mem) (a v : Z) : mem := store m a 4 v.
Definition store64 (m : mem) (a v : Z) : mem := store m a 8 v.

(** ** [memset] and [memcmp] *)

(** [memset.c]: [for (i = 0; i < num; i++) *byte_ptr++ = byte_value;] *)
Fixpoint memset_loop (m : mem) (byte_ptr byte_value : Z) (num : nat) : mem :=
  match num with
  | O => m
  | S num' => memset_loop (<[byte_ptr := byte_value]> m) (byte_ptr + 1) byte_value num'
  end.

Definition memset (m : mem) (ptr value num : Z) : mem :=
  memset_loop m ptr (u8 value) (Z.to_nat num).

(** [memcmp.c], with the loop index [i] as the advance of both pointers. *)
Fixpoint memcmp_loop (m : mem) (p1 p2 : Z) (n : nat) : Z :=
  match n with
  | O => 0
  | S n' =>
      if byte_at m p1 =? byte_at m p2 then memcmp_loop m (p1 + 1) (p2 + 1) n'
      else byte_at m p1 - byte_at m p2
  end.

Definition memcmp (m : mem) (a b n : Z) : Z := memcmp_loop m a b (Z.to_nat n).

(** [memcmp(p, "literal", n)]: the second operand is a string constant. *)
Fixpoint memcmp_lit (m : mem) (p : Z) (lit : list Z) : Z :=
  match lit with
  | [] => 0
  | c :: lit' =>
      if byte_at m p =? u8 c then memcmp_lit m (p + 1) lit'
      else byte_at m p - u8 c
  end.

(** The [n] bytes at [a]. *)
Fixpoint bytes_at (m : mem) (a : Z) (n : nat) : list Z :=
  match n with
  | O => []
  | S n' => byte_at m a :: bytes_at m (a + 1) n'
  end.

(** ** Agreement of two memories on a range *)

Definition agree (m m' : mem) (a n : Z) : Prop :=
  ∀ b, a ≤ b < a + n → byte_at m' b = byte_at m b.

(** [m'] differs from [m] at most on [n] bytes at [a]. *)
Definition only_changes (m m' : mem) (a n : Z) : Prop :=
  ∀ b, b < a ∨ a + n ≤ b → byte_at m' b = byte_at m b.

(** Memories that read the same everywhere. *)
Definition mem_equiv (m m' : mem) : Prop := ∀ b, byte_at m' b = byte_at m b.

(** * Lemmas *)

Lemma byte_at_range m a : 0 ≤ byte_at m a < 256.
Proof. apply u8_range. Qed.

Lemma byte_at_insert m a b v :
  byte_at (<[a := v]> m) b = if decide (a = b) then u8 v else byte_at m b.
Proof. unfold byte_at. rewrite lookup_insert. by case_decide. Qed.

Lemma load_range m a n : 0 ≤ load m a n < 256 ^ Z.of_nat n.
Proof.
  revert a. induction n as [|n IH]; intros a; [done|].
  rewrite Nat2Z.inj_succ, Z.pow_succ_r by lia. simpl.
  pose proof (byte_at_range m a). specialize (IH (a + 1)). lia.
Qed.

Lemma load_agree m m' a n :
  agree m m' a (Z.of_nat n) → load m' a n = load m a n.
Proof.
  revert a. induction n as [|n IH]; intros a Ha; [done|]. simpl.
  rewrite Ha by lia. rewrite IH; [done|]. intros b Hb. apply Ha. lia.
Qed.

Lemma store_changes m a n v : only_changes m (store m a n v) a (Z.of_nat n).
Proof.
  revert m a v. induction n as [|n IH]; intros m a v b Hb; [done|]. simpl.
  rewrite IH by lia. rewrite byte_at_insert. case_decide; [lia|done].
Qed.

Lemma only_changes_agree m m' a n b k :
  only_changes m m' a n → b + k ≤ a ∨ a + n ≤ b → agree m m' b k.
Proof. intros H Hd c Hc. apply H. lia. Qed.

Lemma load_store_other m a n v b k :
  b + Z.of_nat k ≤ a ∨ a + Z.of_nat n ≤ b → load (store m a n v) b k = load m b k.
Proof. intros. eapply load_agree, only_changes_agree; [apply store_changes|lia]. Qed.

Lemma load_store_same m a n v : load (store m a n v) a n = v mod 256 ^ Z.of_nat n.
Proof.
  revert m a v. induction n as [|n IH]; intros m a v.
  { simpl. by rewrite Z.mod_1_r. }
  cbn [load store]. rewrite IH.
  rewrite (store_changes _ (a + 1) n (v / 256) a) by lia.
  rewrite byte_at_insert, decide_True by done. unfold u8.
  rewrite Nat2Z.inj_succ, Z.pow_succ_r by lia.
  rewrite Z.mod_mod by lia. rewrite Z.rem_mul_r by lia. lia.
Qed.

Lemma load64_range m a : 0 ≤ load64 m a < 2 ^ 64.
Proof. apply (load_range m a 8). Qed.
Lemma load32_range m a : 0 ≤ load32 m a < 2 ^ 32.
Proof. apply (load_range m a 4). Qed.

Lemma load64_store64 m a v : 0 ≤ v < 2 ^ 64 → load64 (store64 m a v) a = v.
Proof. intros. unfold load64, store64. rewrite load_store_same. by apply Z.mod_small. Qed.

Lemma load64_store64_other m a v b :
  b + 8 ≤ a ∨ a + 8 ≤ b → load64 (store64 m a v) b = load64 m b.
Proof. intros. by apply load_store_other. Qed.

(** Fields of equal or disjoint structures of [sz] bytes. *)
Lemma field_store m a off v c off' sz :
  0 ≤ v < 2 ^ 64 → a = c ∨ a + sz ≤ c ∨ c + sz ≤ a →
  0 ≤ off → off + 8 ≤ sz → 0 ≤ off' → off' + 8 ≤ sz →
  off = off' ∨ off + 8 ≤ off' ∨ off' + 8 ≤ off →
  load64 (store64 m (a + off) v) (c + off') =
  if decide (a = c ∧ off = off') then v else load64 m (c + off').
Proof.
  intros. case_decide as Hd.
  - destruct Hd as [-> ->]. by apply load64_store64.
  - apply load64_store64_other. lia.
Qed.

Lemma load64_agree m m' a : agree m m' a 8 → load64 m' a = load64 m a.
Proof. apply (load_agree m m' a 8). Qed.

Lemma store64_changes m a v : only_changes m (store64 m a v) a 8.
Proof. apply (store_changes m a 8 v). Qed.

Lemma memset_loop_byte m p v n b :
  byte_at (memset_loop m p v n) b =
  if decide (p ≤ b < p + Z.of_nat n) then u8 v else byte_at m b.
Proof.
  revert m p. induction n as [|n IH]; intros m p.
  { simpl. case_decide; [lia|done]. }
  cbn [memset_loop]. rewrite IH, byte_at_insert.
  repeat case_decide; try done; lia.
Qed.

Lemma memset_byte m p v n b :
  0 ≤ n →
  byte_at (memset m p v n) b = if decide (p ≤ b < p + n) then u8 v else byte_at m b.
Proof.
  intros. unfold memset. rewrite memset_loop_byte, Z2Nat.id by done.
  case_decide; [apply u8_small, u8_range|done].
Qed.

Lemma memset_changes m p v n : 0 ≤ n → only_changes m (memset m p v n) p n.
Proof. intros ? b ?. rewrite memset_byte by done. case_decide; [lia|done]. Qed.

Lemma memset_inside m p v n b :
  p ≤ b < p + n → byte_at (memset m p v n) b = u8 v.
Proof. intros. rewrite memset_byte by lia. by rewrite decide_True. Qed.

Lemma load_zeros m a n :
  (∀ b, a ≤ b < a + Z.of_nat n → byte_at m b = 0) → load m a n = 0.
Proof.
  revert a. induction n as [|n IH]; intros a H; [done|]. simpl.
  rewrite H by lia. rewrite IH; [lia|]. intros b Hb. apply H. lia.
Qed.

Lemma agree_refl m a n : agree m m a n.
Proof. by intros b ?. Qed.
Lemma agree_trans m1 m2 m3 a n : agree m1 m2 a n → agree m2 m3 a n → agree m1 m3 a n.
Proof. intros H1 H2 b Hb. by rewrite H2, H1. Qed.
Lemma agree_sub m m' a n b k : agree m m' a n → a ≤ b → b + k ≤ a + n → agree m m' b k.
Proof. intros H ?? c ?. apply H. lia. Qed.

Lemma only_changes_refl m a n : only_changes m m a n.
Proof. by intros b ?. Qed.
Lemma only_changes_trans m1 m2 m3 a n :
  only_changes m1 m2 a n → only_changes m2 m3 a n → only_changes m1 m3 a n.
Proof. intros H1 H2 b Hb. by rewrite H2, H1. Qed.
Lemma only_changes_sub m m' a n b k :
  only_changes m m' a n → b ≤ a → a + n ≤ b + k → only_changes m m' b k.
Proof. intros H ?? c ?. apply H. lia. Qed.

#[export] Hint Resolve agree_refl only_changes_refl store64_changes : kernel.

#[export] Instance mem_equiv_equivalence : Equivalence mem_equiv.
Proof. split; repeat intro; unfold mem_equiv in *; congruence. Qed.
#[export] Instance byte_at_proper : Proper (mem_equiv ==> eq ==> eq) byte_at.
Proof. intros m m' H a ? <-. symmetry. apply H. Qed.
#[export] Instance load_proper : Proper (mem_equiv ==> eq ==> eq ==> eq) load.
Proof. intros m m' H a ? <- n ? <-. symmetry. apply load_agree. intros b _. apply H. Qed.

(** ** [memcmp] *)

Lemma memcmp_loop_zero m p1 p2 n :
  memcmp_loop m p1 p2 n = 0 ↔ bytes_at m p1 n = bytes_at m p2 n.
Proof.
  revert p1 p2. induction n as [|n IH]; intros p1 p2; [done|]. cbn [memcmp_loop bytes_at].
  case_test.
  - rewrite IH, E. split; congruence.
  - split; [lia|]. congruence.
Qed.

(** ** Rounding *)

Lemma land_page_mask a : Z.land a (Z.lnot (PGSIZE - 1)) = a / PGSIZE * PGSIZE.
Proof.
  change (PGSIZE - 1) with (Z.ones 12).
  rewrite <- Z.ldiff_land, Z.ldiff_ones_r by lia.
  rewrite Z.shiftl_mul_pow2, Z.shiftr_div_pow2 by lia. done.
Qed.

Lemma PGROUNDDOWN_eq a : PGROUNDDOWN a = a / PGSIZE * PGSIZE.
Proof. apply land_page_mask. Qed.

Lemma PGROUNDUP_eq a :
  0 ≤ a → a + PGSIZE ≤ 2 ^ 64 → PGROUNDUP a = (a + PGSIZE - 1) / PGSIZE * PGSIZE.
Proof.
  intros. unfold PGROUNDUP. rewrite u64_small by (unfold PGSIZE in *; lia).
  apply land_page_mask.
Qed.
