(* ===== verification/Kalloc.v ===== *)
(** * The physical page allocator

    Models [kernel/kalloc/kalloc.c].  A free page holds in its first eight
    bytes the address of the next free page ([struct run]); [kmem.freelist] is
    the head of the chain.  The spinlock of [kmem] is never taken by the code
    (its calls are commented out), so it is not part of the state. *)

From S2P Require Import Prelude Memory.

(** Memory together with the allocator's global [kmem.freelist]. *)
Record kmem := Kmem {
  km_mem : mem;
  km_freelist : Z
}.

Definition set_mem (m : mem) (s : kmem) : kmem := Kmem m (km_freelist s).

(** Memory access of code that runs on a [kmem] state. *)
Definition rd64 (a : Z) : M kmem Z := λ s, Ret (load64 (km_mem s) a, s).
Definition wr64 (a v : Z) : M kmem () := λ s, Ret ((), set_mem (store64 (km_mem s) a v) s).
Definition kmemset (ptr value num : Z) : M kmem () := λ s,
  Ret ((), set_mem (memset (km_mem s) ptr value num) s).

Section kalloc.
Context {LK : Linker}.

Definition kfree (pa : Z) : M kmem () := λ s,
  if negb (pa mod PGSIZE =? 0) || (pa <? KEND) || (PHYSTOP <=? pa) then
    Panic "kfree"
  else
    let m := memset (km_mem s) pa 0 PGSIZE in
    let m := store64 m pa (km_freelist s) in
    Ret ((), Kmem m pa).

Definition kalloc : M kmem Z := λ s,
  let r := km_freelist s in
  let s := if r =? 0 then s else Kmem (km_mem s) (load64 (km_mem s) r) in
  let s := if r =? 0 then s else set_mem (memset (km_mem s) r 5 PGSIZE) s in
  Ret (r, s).

(** The loop of [kinit]; [fuel] bounds its iterations. *)
Fixpoint kinit_loop (fuel : nat) (p stop : Z) : M kmem () :=
  match fuel with
  | O => out_of_fuel
  | S fuel' =>
      if u64 (p + PGSIZE) <? stop then
        do* kfree p in kinit_loop fuel' (u64 (p + PGSIZE)) stop
      else ret ()
  end.

(** [kfree] panics at the first page at or above [PHYSTOP], so the loop body
    runs at most [PHYSTOP / PGSIZE] times. *)
Definition kinit_fuel : nat := Z.to_nat (PHYSTOP / PGSIZE + 2).

Definition kinit (start stop : Z) : M kmem () :=
  kinit_loop kinit_fuel (PGROUNDUP start) stop.

(** [while (r != 0) { res++; r = r->next; }] *)
Fixpoint count_pages_loop (fuel : nat) (m : mem) (r res : Z) : outcome Z :=
  match fuel with
  | O => OutOfFuel
  | S fuel' =>
      if r =? 0 then Ret res
      else count_pages_loop fuel' m (load64 m r) (u64 (res + 1))
  end.

(** There are fewer than [PHYSTOP / PGSIZE] distinct pages to count. *)
Definition count_fuel : nat := Z.to_nat (PHYSTOP / PGSIZE + 1).

Definition count_pages (s : kmem) : outcome Z :=
  count_pages_loop count_fuel (km_mem s) (km_freelist s) 0.

(** ** The chain of free pages *)

(** A page the allocator may manage. *)
Definition page_ok (p : Z) : Prop := p mod PGSIZE = 0 ∧ KEND ≤ p < PHYSTOP.

#[global] Instance page_ok_dec p : Decision (page_ok p).
Proof. unfold page_ok. apply _. Defined.

Fixpoint chain (m : mem) (head : Z) (l : list Z) : Prop :=
  match l with
  | [] => head = 0
  | p :: l' => head = p ∧ chain m (load64 m p) l'
  end.

(** The free list of [s] is the chain of the distinct pages [l]. *)
Definition free_list (s : kmem) (l : list Z) : Prop :=
  chain (km_mem s) (km_freelist s) l ∧ NoDup l ∧ Forall page_ok l.

(** [m'] leaves the pages of [l] as they are in [m]. *)
Definition pages_kept (m m' : mem) (l : list Z) : Prop :=
  Forall (λ p, agree m m' p PGSIZE) l.

(** The [n] pages from [p] on. *)
Fixpoint page_range (p : Z) (n : nat) : list Z :=
  match n with
  | O => []
  | S n' => p :: page_range (p + PGSIZE) n'
  end.

(** The number of pages [kinit] frees from the page [p] on: those that end
    strictly before [stop]. *)
Definition kinit_count (p stop : Z) : nat := Z.to_nat ((stop - p - 1) / PGSIZE).

(** [n] calls of [kalloc] in a row. *)
Fixpoint alloc_n (n : nat) : M kmem (list Z) :=
  match n with
  | O => ret []
  | S n' => let* p := kalloc in let* l := alloc_n n' in ret (p :: l)
  end.

End kalloc.

(** ** The allocator's contract

    What the rest of the kernel relies on: [rep s l] says that [l] are the
    free pages of [s], in the order in which they will be handed out. *)
Class Allocator {LK : Linker} (alloc : M kmem Z) (free : Z → M kmem ())
    (rep : kmem → list Z → Prop) := {
  rep_pages s l : rep s l → NoDup l ∧ Forall page_ok l;
  rep_frame s l m' : rep s l → pages_kept (km_mem s) m' l → rep (set_mem m' s) l;
  alloc_empty s : rep s [] → alloc s = Ret (0, s);
  alloc_page s p l : rep s (p :: l) →
    ∃ s', alloc s = Ret (p, s') ∧ rep s' l ∧
      only_changes (km_mem s) (km_mem s') p PGSIZE ∧
      (∀ b, p ≤ b < p + PGSIZE → byte_at (km_mem s') b = 5);
  free_page s p l : rep s l → page_ok p → p ∉ l →
    ∃ s', free p s = Ret ((), s') ∧ rep s' (p :: l) ∧
      only_changes (km_mem s) (km_mem s') p PGSIZE;
  free_invalid s p : ¬ page_ok p → free p s = Panic "kfree"
}.

Section kalloc_facts.
Context {LK : Linker}.

Lemma page_ok_pos p : page_ok p → 0 < p.
Proof. intros [_ ?]. pose proof KEND_range. unfold KSTART in *. lia. Qed.

Lemma page_ok_nonzero p : page_ok p → p ≠ 0.
Proof. intros ?%page_ok_pos. lia. Qed.

(** Distinct pages do not overlap. *)
Lemma pages_disjoint p q :
  p mod PGSIZE = 0 → q mod PGSIZE = 0 → p ≠ q → p + PGSIZE ≤ q ∨ q + PGSIZE ≤ p.
Proof. unfold PGSIZE. intros. Z.to_euclidean_division_equations. lia. Qed.

Lemma chain_agree m m' h l :
  Forall (λ p, agree m m' p 8) l → chain m h l → chain m' h l.
Proof.
  intros Hl. revert h. induction Hl as [|p l Hp Hl IH]; intros h; [done|].
  intros [-> ?]. simpl. rewrite (load64_agree m m' p) by done. auto.
Qed.

Lemma pages_kept_only_changes m m' p l :
  only_changes m m' p PGSIZE → p mod PGSIZE = 0 → Forall page_ok l → p ∉ l →
  pages_kept m m' l.
Proof.
  intros Hm Hp Hl Hnin. apply Forall_forall. intros q Hq.
  eapply only_changes_agree; [done|].
  rewrite Forall_forall in Hl. destruct (Hl q Hq) as [Hqm _].
  apply pages_disjoint; [done..|]. set_solver.
Qed.

Lemma chain_kept m m' h l : pages_kept m m' l → chain m h l → chain m' h l.
Proof.
  intros Hk. apply chain_agree. eapply Forall_impl; [done|]. simpl.
  intros q Hq. eapply agree_sub; [done|lia|unfold PGSIZE; lia].
Qed.

Lemma free_list_frame s l m' :
  free_list s l → pages_kept (km_mem s) m' l → free_list (set_mem m' s) l.
Proof.
  intros (Hc & Hnd & Hp) Hk. split_and!; [|done..]. simpl.
  by eapply chain_kept.
Qed.

Lemma kfree_valid s p : page_ok p → kfree p s =
  Ret ((), Kmem (store64 (memset (km_mem s) p 0 PGSIZE) p (km_freelist s)) p).
Proof.
  intros [Hm [Hlo Hhi]]. unfold kfree. case_test; [exfalso|done].
  apply orb_true_iff in E as [[E|E]%orb_true_iff|E]; zbool; lia.
Qed.

Lemma kfree_invalid s p : ¬ page_ok p → kfree p s = Panic "kfree".
Proof.
  intros Hp. unfold kfree. case_test; [done|]. exfalso. apply Hp. split; lia.
Qed.

Lemma kfree_changes m p v :
  only_changes m (store64 (memset m p 0 PGSIZE) p v) p PGSIZE.
Proof.
  eapply only_changes_trans; [by apply memset_changes|].
  eapply only_changes_sub; [apply store64_changes|lia|unfold PGSIZE; lia].
Qed.

Lemma free_list_head_range s l : free_list s l → 0 ≤ km_freelist s < 2 ^ 64.
Proof.
  intros (Hc & _ & Hp). destruct l as [|p l]; simpl in Hc; [lia|].
  destruct Hc as [-> _]. inversion Hp as [|?? Hok]; subst.
  pose proof (page_ok_pos _ Hok). destruct Hok as [_ ?]. unfold PHYSTOP in *. lia.
Qed.

Lemma kfree_rep s p l : free_list s l → page_ok p → p ∉ l →
  ∃ s', kfree p s = Ret ((), s') ∧ free_list s' (p :: l) ∧
    only_changes (km_mem s) (km_mem s') p PGSIZE.
Proof.
  intros Hf Hp Hnin. eexists. split; [by apply kfree_valid|].
  pose proof (free_list_head_range _ _ Hf). destruct Hf as (Hc & Hnd & Hl).
  simpl. split; [|apply kfree_changes]. repeat split; simpl.
  - rewrite load64_store64 by done. eapply chain_kept; [|done].
    eapply pages_kept_only_changes; [apply kfree_changes|apply Hp|done..].
  - by apply NoDup_cons.
  - by apply Forall_cons.
Qed.

Lemma kalloc_rep s p l : free_list s (p :: l) →
  ∃ s', kalloc s = Ret (p, s') ∧ free_list s' l ∧
    only_changes (km_mem s) (km_mem s') p PGSIZE ∧
    (∀ b, p ≤ b < p + PGSIZE → byte_at (km_mem s') b = 5).
Proof.
  intros ([Hh Hc] & [Hnin Hnd]%NoDup_cons & [Hp Hl]%Forall_cons).
  unfold kalloc. rewrite Hh. pose proof (page_ok_nonzero _ Hp) as Hnz.
  apply Z.eqb_neq in Hnz. rewrite Hnz. eexists. split; [done|].
  assert (only_changes (km_mem s) (memset (km_mem s) p 5 PGSIZE) p PGSIZE)
    by (by apply memset_changes).
  split_and!; simpl; [..|done|].
  - split_and!; [|done..]. eapply chain_kept; [|done].
    eapply pages_kept_only_changes; [done|apply Hp|done..].
  - intros b Hb. by rewrite memset_inside.
Qed.

Lemma kalloc_empty s : free_list s [] → kalloc s = Ret (0, s).
Proof. intros [Hc _]. unfold kalloc. simpl in Hc. by rewrite Hc. Qed.

#[global] Instance kalloc_allocator : Allocator kalloc kfree free_list.
Proof.
  split.
  - by intros s l (_ & ? & ?).
  - apply free_list_frame.
  - apply kalloc_empty.
  - apply kalloc_rep.
  - apply kfree_rep.
  - apply kfree_invalid.
Qed.
End kalloc_facts.

(** ** [kinit] and [count_pages] *)

Section kinit_facts.
Context {LK : Linker}.

Lemma page_range_elem p n q :
  q ∈ page_range p n ↔ ∃ i, 0 ≤ i < Z.of_nat n ∧ q = p + PGSIZE * i.
Proof.
  revert p. induction n as [|n IH]; intros p; simpl.
  - split; [by intros ?%not_elem_of_nil|]. intros (i & ? & _). lia.
  - rewrite elem_of_cons, IH. split.
    + intros [->|(i & Hi & ->)]; [exists 0; lia|exists (i + 1); lia].
    + intros (i & Hi & ->). destruct (decide (i = 0)) as [->|]; [left; lia|].
      right. exists (i - 1). lia.
Qed.

Lemma page_range_length p n : length (page_range p n) = n.
Proof. revert p. induction n; intros p; simpl; auto. Qed.

(** One turn of the loop is possible exactly when a page is left. *)
Lemma kinit_count_step p stop :
  p + PGSIZE < stop → kinit_count p stop = S (kinit_count (p + PGSIZE) stop).
Proof. unfold kinit_count, PGSIZE. intros. zlia. Qed.

Lemma kinit_count_done p stop : stop ≤ p + PGSIZE → kinit_count p stop = O.
Proof. unfold kinit_count, PGSIZE. intros. zlia. Qed.

(** [m'] differs from [m] on the pages of [l] only. *)
Definition changes_pages (m m' : mem) (l : list Z) : Prop :=
  ∀ b, (∀ q, q ∈ l → ¬ q ≤ b < q + PGSIZE) → byte_at m' b = byte_at m b.

Lemma kinit_loop_rep n fuel p stop s l :
  n = kinit_count p stop → (n < fuel)%nat →
  free_list s l → p mod PGSIZE = 0 → KEND ≤ p ≤ PHYSTOP → stop ≤ PHYSTOP →
  (∀ q, q ∈ page_range p n → q ∉ l) →
  ∃ s', kinit_loop fuel p stop s = Ret ((), s') ∧
    free_list s' (rev (page_range p n) ++ l) ∧
    changes_pages (km_mem s) (km_mem s') (page_range p n).
Proof.
  revert fuel p s l. induction n as [|n IH]; intros fuel p s l Hn Hfuel Hf Hp Hlo Hstop Hdis;
    (destruct fuel as [|fuel]; [lia|]); cbn [kinit_loop];
    pose proof KEND_range; unfold KSTART, PHYSTOP, PGSIZE in *;
    rewrite u64_small by lia.
  - case_test; [|by eexists]. exfalso.
    rewrite kinit_count_step in Hn by done. lia.
  - assert (p + 4096 < stop).
    { destruct (decide (p + 4096 < stop)); [done|].
      rewrite kinit_count_done in Hn by (unfold PGSIZE; lia). lia. }
    rewrite (proj2 (Z.ltb_lt _ _)) by done.
    destruct (kfree_rep s p l) as (s1 & Hs1 & Hf1 & Hc1);
      [done|split; unfold PHYSTOP, PGSIZE; lia|apply Hdis; simpl; left|].
    erewrite bind_ret by exact Hs1.
    destruct (IH fuel (p + 4096) s1 (p :: l)) as (s2 & Hs2 & Hf2 & Hc2); try lia; [..|done|zlia| |].
    + rewrite kinit_count_step in Hn by done. unfold PGSIZE in *. lia.
    + intros q Hq. rewrite not_elem_of_cons. split; [|apply Hdis; simpl; by right].
      apply page_range_elem in Hq as (i & ? & ->). unfold PGSIZE. lia.
    + exists s2. split; [done|]. cbn [page_range rev]. rewrite <- app_assoc. split; [done|].
      intros b Hb. rewrite (Hc2 b) by (intros q Hq; apply Hb; by right).
      apply Hc1. pose proof (Hb p (list_elem_of_here _ _)). unfold PGSIZE in *. lia.
Qed.

Lemma kinit_result s l start stop (p := PGROUNDUP start) (n := kinit_count p stop) :
  free_list s l → KEND ≤ start → p ≤ PHYSTOP → start ≤ stop ≤ PHYSTOP →
  (∀ q, q ∈ page_range p n → q ∉ l) →
  ∃ s', kinit start stop s = Ret ((), s') ∧ free_list s' (rev (page_range p n) ++ l) ∧
    changes_pages (km_mem s) (km_mem s') (page_range p n).
Proof.
  intros Hf Hstart Hp Hstop Hdis. pose proof KEND_range. unfold kinit.
  assert (p mod PGSIZE = 0 ∧ start ≤ p).
  { subst p. rewrite PGROUNDUP_eq by (unfold KSTART, PHYSTOP, PGSIZE in *; lia).
    unfold KSTART, PHYSTOP, PGSIZE in *. zlia. }
  apply kinit_loop_rep; [done| |done|tauto|lia|lia|done].
  unfold kinit_fuel, n, kinit_count, KSTART, PHYSTOP, PGSIZE in *. zlia.
Qed.

Lemma kinit_loop_returns_or_panics fuel p stop s :
  0 ≤ p → p mod PGSIZE = 0 → (Z.to_nat ((PHYSTOP - p) / PGSIZE) + 1 < fuel)%nat →
  kinit_loop fuel p stop s ≠ OutOfFuel.
Proof.
  revert p s. induction fuel as [|fuel IH]; intros p s Hp Hm Hfuel; [lia|].
  cbn [kinit_loop]. case_test; [|done].
  destruct (decide (page_ok p)) as [Hok|Hok].
  - erewrite bind_ret by (by apply kfree_valid).
    destruct Hok as [_ Hr]. unfold PHYSTOP, PGSIZE in *. rewrite u64_small by lia.
    apply IH; zlia.
  - erewrite bind_panic by (by apply kfree_invalid). done.
Qed.

Lemma count_pages_loop_chain fuel m h l res :
  chain m h l → Forall page_ok l → (length l < fuel)%nat → 0 ≤ res →
  res + Z.of_nat (length l) < 2 ^ 64 →
  count_pages_loop fuel m h res = Ret (res + Z.of_nat (length l)).
Proof.
  revert fuel h res. induction l as [|p l IH]; intros fuel h res Hc Hl Hfuel Hres Hb;
    (destruct fuel as [|fuel]; [simpl in *; lia|]); simpl in Hc; cbn [count_pages_loop].
  - subst h. simpl. f_equal. lia.
  - destruct Hc as [-> Hc]. inversion_clear Hl as [|?? Hp Hl'].
    rewrite (proj2 (Z.eqb_neq _ _)) by (by apply page_ok_nonzero).
    simpl in *. rewrite u64_small by lia.
    rewrite IH; [f_equal; lia|done|done|lia..].
Qed.

Lemma pages_bound l :
  NoDup l → Forall page_ok l → (length l ≤ Z.to_nat (PHYSTOP / PGSIZE))%nat.
Proof.
  intros Hnd Hl.
  assert (l ⊆+ ((λ i, i * PGSIZE) <$> seqZ 0 (PHYSTOP / PGSIZE))) as Hsub.
  { apply NoDup_submseteq; [done|]. intros q Hq. rewrite Forall_forall in Hl.
    destruct (Hl q Hq) as [Hm Hr]. apply list_elem_of_fmap.
    exists (q / PGSIZE). rewrite elem_of_seqZ. pose proof KEND_range.
    unfold KSTART, PHYSTOP, PGSIZE in *. zlia. }
  apply submseteq_length in Hsub. rewrite length_fmap, length_seqZ in Hsub. done.
Qed.

Lemma alloc_n_rep n s l :
  free_list s l → (n ≤ length l)%nat →
  ∃ s', alloc_n n s = Ret (take n l, s') ∧ free_list s' (drop n l).
Proof.
  revert s l. induction n as [|n IH]; intros s l Hf Hn.
  - exists s. by rewrite drop_0.
  - destruct l as [|p l]; simpl in Hn; [lia|].
    destruct (kalloc_rep s p l Hf) as (s1 & Hs1 & Hf1 & _).
    destruct (IH s1 l Hf1) as (s2 & Hs2 & Hf2); [lia|].
    exists s2. split; [|done]. simpl. erewrite bind_ret by done.
    by erewrite bind_ret by done.
Qed.
End kinit_facts.

(** ** Properties *)

Section kalloc_properties.
Context {LK : Linker}.

(** C1.  [kalloc] on a well-formed free list: with no free page it returns
    NULL and changes nothing; otherwise it hands out the first free page,
    page-aligned, inside the managed memory and no longer on the list, filled
    with the byte 5, and changes no byte outside that page. *)
Theorem kalloc_spec s l (Hf : free_list s l) :
  match l with
  | [] => kalloc s = Ret (0, s)
  | p :: l' => ∃ s', kalloc s = Ret (p, s') ∧ free_list s' l' ∧
      page_ok p ∧ (p ∉ l') ∧
      only_changes (km_mem s) (km_mem s') p PGSIZE ∧
      ∀ b, p ≤ b < p + PGSIZE → byte_at (km_mem s') b = 5
  end.
Proof.
  destruct l as [|p l']; [by apply kalloc_empty|].
  destruct (kalloc_rep s p l' Hf) as (s' & ? & ? & ? & ?).
  destruct Hf as (_ & [? _]%NoDup_cons & [? _]%Forall_cons).
  exists s'. auto 10.
Qed.

(** C2.  [kfree] panics exactly on addresses that are not pages of the managed
    memory; for a page that is not already free it puts the page at the head
    of the free list, zeroes it after the link word, and changes no byte
    outside it. *)
Theorem kfree_spec s p l (Hf : free_list s l) (Hnin : p ∉ l) :
  (¬ page_ok p ∧ kfree p s = Panic "kfree") ∨
  (page_ok p ∧ ∃ s', kfree p s = Ret ((), s') ∧ free_list s' (p :: l) ∧
     only_changes (km_mem s) (km_mem s') p PGSIZE ∧
     ∀ b, p + 8 ≤ b < p + PGSIZE → byte_at (km_mem s') b = 0).
Proof.
  destruct (decide (page_ok p)) as [Hok|Hok]; [right|left; auto using kfree_invalid].
  split; [done|]. destruct (kfree_rep s p l Hf Hok Hnin) as (s' & Hs' & ? & ?).
  exists s'. split_and!; [done..|]. rewrite kfree_valid in Hs' by done.
  injection Hs' as <-. intros b Hb. simpl.
  rewrite store64_changes by lia. rewrite memset_inside by lia. done.
Qed.

(** C3.  [kinit start stop] on a range inside the managed memory frees, in
    descending order at the head of the list, exactly the pages at or after
    [start] that end strictly before [stop]. *)
Theorem kinit_spec s l start stop (p := PGROUNDUP start) (n := kinit_count p stop)
    (Hf : free_list s l) (Hstart : KEND ≤ start) (Hp : p ≤ PHYSTOP)
    (Hstop : start ≤ stop ≤ PHYSTOP) (Hdis : ∀ q, q ∈ page_range p n → q ∉ l) :
  ∃ s', kinit start stop s = Ret ((), s') ∧ free_list s' (rev (page_range p n) ++ l).
Proof.
  destruct (kinit_result s l start stop Hf Hstart Hp Hstop Hdis) as (s' & E & Hf' & _). by exists s'.
Qed.

(** [kinit] terminates on every range: it returns or reaches the panic of
    [kfree], and never loops forever. *)
Theorem kinit_terminates s start stop : kinit start stop s ≠ OutOfFuel.
Proof.
  unfold kinit. pose proof (u64_range (start + PGSIZE - 1)).
  apply kinit_loop_returns_or_panics; unfold PGROUNDUP;
    rewrite land_page_mask; unfold kinit_fuel, PHYSTOP, PGSIZE in *; zlia.
Qed.

(** [count_pages] terminates on a well-formed free list and returns the
    number of free pages. *)
Theorem count_pages_spec s l (Hf : free_list s l) :
  count_pages s = Ret (Z.of_nat (length l)).
Proof.
  destruct Hf as (Hc & Hnd & Hl). pose proof (pages_bound l Hnd Hl).
  unfold count_pages. change (Z.of_nat (length l)) with (0 + Z.of_nat (length l)).
  apply count_pages_loop_chain; [done|done| |done|];
    unfold count_fuel, PHYSTOP, PGSIZE in *; zlia.
Qed.

(** As long as pages are left, successive calls of [kalloc] return
    pairwise distinct, non-NULL, page-aligned pages of the managed memory. *)
Theorem allocations_distinct s l n (Hf : free_list s l) (Hn : (n ≤ length l)%nat) :
  ∃ ps s', alloc_n n s = Ret (ps, s') ∧ length ps = n ∧ NoDup ps ∧
    Forall (λ p, p ≠ 0 ∧ page_ok p) ps ∧ free_list s' (drop n l).
Proof.
  destruct (alloc_n_rep n s l Hf Hn) as (s' & Hs' & Hf').
  exists (take n l), s'. destruct Hf as (_ & Hnd & Hl).
  split_and!; [done|by rewrite length_take_le| | |exact Hf'].
  - eapply sublist_NoDup; [exact Hnd|apply sublist_take].
  - eapply Forall_impl; [apply Forall_take, Hl|]. intros p Hp. split; [by apply page_ok_nonzero|done].
Qed.
End kalloc_properties.

(** ** Witnesses *)

(** Two free pages, at 0x300000 and 0x200000. *)
Definition demo_kmem : kmem := Kmem (<[0x300002 := 0x20]> ∅) 0x300000.

Lemma demo_kmem_free : free_list (LK := demo_linker) demo_kmem [0x300000; 0x200000].
Proof.
  split_and!; [vm_compute; done|by apply (bool_decide_unpack _)|].
  repeat constructor; vm_compute; done.
Qed.

Lemma kalloc_spec_witness : ∃ s', kalloc demo_kmem = Ret (0x300000, s').
Proof.
  destruct (kalloc_spec (LK := demo_linker) demo_kmem [0x300000; 0x200000] demo_kmem_free)
    as (s' & Hs' & _). by exists s'.
Defined.

Lemma kfree_spec_witness :
  ∃ s', kfree (LK := demo_linker) 0x400000 demo_kmem = Ret ((), s') ∧
    free_list (LK := demo_linker) s' [0x400000; 0x300000; 0x200000].
Proof.
  destruct (kfree_spec (LK := demo_linker) demo_kmem 0x400000 [0x300000; 0x200000]
    demo_kmem_free) as [[Hno _]|(_ & s' & ? & ? & _)].
  - by apply (bool_decide_unpack _).
  - exfalso. apply Hno. split; vm_compute; done.
  - by exists s'.
Defined.

Lemma kinit_spec_witness :
  ∃ s', kinit (LK := demo_linker) 0x150001 0x153000 demo_kmem = Ret ((), s') ∧
    free_list (LK := demo_linker) s' [0x151000; 0x300000; 0x200000].
Proof.
  apply (kinit_spec (LK := demo_linker) demo_kmem [0x300000; 0x200000] 0x150001 0x153000
    demo_kmem_free); [vm_compute; done..|].
  intros q Hq. apply list_elem_of_singleton in Hq as ->. by apply (bool_decide_unpack _).
Defined.

Lemma count_pages_spec_witness : count_pages demo_kmem = Ret 2.
Proof.
  apply (count_pages_spec (LK := demo_linker) demo_kmem [0x300000; 0x200000] demo_kmem_free).
Defined.

Lemma allocations_distinct_witness :
  ∃ ps s', alloc_n 2 demo_kmem = Ret (ps, s') ∧ NoDup ps.
Proof.
  destruct (allocations_distinct (LK := demo_linker) demo_kmem [0x300000; 0x200000] 2
    demo_kmem_free) as (ps & s' & ? & _ & ? & _); [simpl; lia|]. eauto.
Defined.
