(* ===== verification/Paging.v ===== *)
(** * Page tables

    Models [kernel/paging/paging.c] and [paging.h]: the encoding of page-table
    entries, the four-level walk, and mapping, unmapping and translating pages
    through it.  Tables live in physical memory and are allocated with
    [kalloc].  [invlpg] only touches the TLB, which is not modelled. *)

From S2P Require Import Prelude Memory Kalloc.

(** ** Page-table entries *)

(** [struct page_entry]; the C [bool] members are [bool]. *)
Record page_entry := PageEntry {
  pe_p : bool; pe_rw : bool; pe_us : bool; pe_pwt : bool; pe_pcd : bool;
  pe_a : bool; pe_d : bool; pe_rsvd : bool;
  pe_ign1 : Z;      (* uint8_t, 4 bits used *)
  pe_address : Z;   (* uintptr_t, 36 bits used *)
  pe_ign2 : Z;      (* uint32_t, 15 bits used *)
  pe_xd : bool
}.

#[export] Instance page_entry_eq_dec : EqDecision page_entry.
Proof. solve_decision. Defined.

(** [encode_page_entry] shifts two 32-bit operands by 48 and by 63 positions,
    which C leaves undefined.  What the compiled code computes for such a
    shift is a parameter, of which the kernel only needs that shifting zero
    gives zero. *)
Class WideShift := {
  wide_shl : Z → Z → Z;
  wide_shl_zero n : wide_shl 0 n = 0
}.

(** The x86 instruction on 32-bit operands masks the count to five bits. *)
Program Definition x86_shl : WideShift :=
  {| wide_shl v n := u32 (Z.shiftl v (n mod 32)) |}.
Next Obligation. intros n. simpl. by rewrite Z.shiftl_0_l. Qed.

(** Page flags of [paging.h]. *)
Definition PTE_W : Z := 0x002.
Definition PTE_U : Z := 0x004.
Definition PTE_PWT : Z := 0x008.
Definition PTE_PCD : Z := 0x010.

Section encoding.
Context {WS : WideShift}.

Definition encode_page_entry (entry : page_entry) : Z :=
  let raw := 0 in
  let raw := Z.lor raw (Z.land (Z.b2z (pe_p entry)) 0x1) in
  let raw := Z.lor raw (Z.shiftl (Z.land (Z.b2z (pe_rw entry)) 0x1) 1) in
  let raw := Z.lor raw (Z.shiftl (Z.land (Z.b2z (pe_us entry)) 0x1) 2) in
  let raw := Z.lor raw (Z.shiftl (Z.land (Z.b2z (pe_pwt entry)) 0x1) 3) in
  let raw := Z.lor raw (Z.shiftl (Z.land (Z.b2z (pe_pcd entry)) 0x1) 4) in
  let raw := Z.lor raw (Z.shiftl (Z.land (Z.b2z (pe_a entry)) 0x1) 5) in
  let raw := Z.lor raw (Z.shiftl (Z.land (Z.b2z (pe_d entry)) 0x1) 6) in
  let raw := Z.lor raw (Z.shiftl (Z.land (Z.b2z (pe_rsvd entry)) 0x1) 7) in
  let raw := Z.lor raw (Z.shiftl (Z.land (pe_ign1 entry) 0xF) 8) in
  let raw := Z.lor raw (Z.shiftl (Z.land (pe_address entry) 0xFFFFFFFFF) 12) in
  (* unsigned int << 48 *)
  let raw := Z.lor raw (u32 (wide_shl (Z.land (pe_ign2 entry) 0x7FFF) 48)) in
  (* int << 63, sign-extended to 64 bits *)
  let raw := Z.lor raw (u64 (s32 (wide_shl (Z.land (Z.b2z (pe_xd entry)) 0x1) 63))) in
  raw.
End encoding.

Definition bit_set (x : Z) : bool := negb (x =? 0).

Definition decode_page_entry (raw : Z) : page_entry := {|
  pe_p := bit_set (Z.land raw 0x1);
  pe_rw := bit_set (Z.land (Z.shiftr raw 1) 0x1);
  pe_us := bit_set (Z.land (Z.shiftr raw 2) 0x1);
  pe_pwt := bit_set (Z.land (Z.shiftr raw 3) 0x1);
  pe_pcd := bit_set (Z.land (Z.shiftr raw 4) 0x1);
  pe_a := bit_set (Z.land (Z.shiftr raw 5) 0x1);
  pe_d := bit_set (Z.land (Z.shiftr raw 6) 0x1);
  pe_rsvd := bit_set (Z.land (Z.shiftr raw 7) 0x1);
  pe_ign1 := Z.land (Z.shiftr raw 8) 0xF;
  pe_address := Z.land (Z.shiftr raw 12) 0xFFFFFFFFF;
  pe_ign2 := Z.land (Z.shiftr raw 48) 0x7FFF;
  pe_xd := bit_set (Z.land (Z.shiftr raw 63) 0x1)
|}.

(** [entry.address << 12] on a [uintptr_t]. *)
Definition entry_target (entry : page_entry) : Z := u64 (Z.shiftl (pe_address entry) 12).

(** The entry [init_entry] builds: present, writable, supervisor. *)
Definition table_entry (addr : Z) : page_entry :=
  PageEntry true true false false false false false false 0
    (Z.land (Z.shiftr addr 12) 0xFFFFFFFFF) 0 false.

(** The entry [map_page] stores for its [flags]. *)
Definition flags_entry (pa flags : Z) : page_entry :=
  PageEntry true (bit_set (Z.land flags PTE_W)) (bit_set (Z.land flags PTE_U))
    (bit_set (Z.land flags PTE_PWT)) (bit_set (Z.land flags PTE_PCD))
    false false false 0 (Z.land (Z.shiftr pa 12) 0xFFFFFFFFF) 0 false.

(** The entry of an MMIO page in [map_apic_region] (cache disabled). *)
Definition apic_entry (addr : Z) : page_entry :=
  PageEntry true true false false true false false false 0
    (Z.land (Z.shiftr addr 12) 0xFFFFFFFFF) 0 false.

(** [(va >> (12 + level * 9)) & 0x1FF] *)
Definition level_index (va : Z) (level : nat) : Z :=
  Z.land (Z.shiftr va (12 + Z.of_nat level * 9)) 0x1FF.

Section paging.
Context {LK : Linker} {WS : WideShift}.

Definition init_entry (raw_entry addr : Z) : M kmem () :=
  wr64 raw_entry (encode_page_entry (table_entry addr)).

(** The loop of [walk] at [level] = 3, 2, 1; returns the address of the
    last-level entry, or 0. *)
Fixpoint walk_loop (level : nat) (tbl va : Z) (alloc : bool) : M kmem Z :=
  match level with
  | O => ret (tbl + 8 * level_index va 0)
  | S level' =>
      let entry_raw := tbl + 8 * level_index va level in
      let* raw := rd64 entry_raw in
      let entry := decode_page_entry raw in
      if pe_p entry then walk_loop level' (entry_target entry) va alloc
      else if negb alloc then ret 0
      else
        let* new := kalloc in
        if new =? 0 then ret 0
        else
          do* kmemset new 0 PGSIZE in
          do* init_entry entry_raw new in
          walk_loop level' new va alloc
  end.

Definition walk (tbl va : Z) (alloc : bool) : M kmem Z := walk_loop 3 tbl va alloc.

Definition map_page (tbl va pa flags : Z) : M kmem Z :=
  let va := PGROUNDDOWN va in
  let pa := PGROUNDDOWN pa in
  let* pte := walk tbl va true in
  if pte =? 0 then ret (-1)
  else
    let* raw := rd64 pte in
    let entry := decode_page_entry raw in
    if pe_p entry && negb (entry_target entry =? pa) then ret (-1)
    else
      do* wr64 pte (encode_page_entry (flags_entry pa flags)) in
      ret 0.

Definition unmap_page (tbl va : Z) : M kmem () :=
  let va := PGROUNDDOWN va in
  let* pte := walk tbl va false in
  if pte =? 0 then ret ()
  else
    let* raw := rd64 pte in
    if negb (pe_p (decode_page_entry raw)) then ret ()
    else wr64 pte 0.

(** [for (a = from; a < to; a += PGSIZE) unmap_page(tbl, a);] with the number
    of turns bounded by [fuel]. *)
Fixpoint unmap_loop (fuel : nat) (tbl addr stop : Z) : M kmem () :=
  match fuel with
  | O => out_of_fuel
  | S fuel' =>
      if addr <? stop then
        do* unmap_page tbl addr in unmap_loop fuel' tbl (u64 (addr + PGSIZE)) stop
      else ret ()
  end.

(** Turns of a loop over the pages of [start, stop), plus the final test. *)
Definition range_fuel (start stop : Z) : nat := S (Z.to_nat ((stop - start + PGSIZE - 1) / PGSIZE)).

Fixpoint map_loop (fuel : nat) (tbl va_start addr va_end pa_cur flags : Z) : M kmem Z :=
  match fuel with
  | O => out_of_fuel
  | S fuel' =>
      if addr <? va_end then
        let* r := map_page tbl addr pa_cur flags in
        if negb (r =? 0) then
          do* unmap_loop (range_fuel va_start addr) tbl va_start addr in
          ret (-1)
        else
          map_loop fuel' tbl va_start (u64 (addr + PGSIZE)) va_end
            (u64 (pa_cur + PGSIZE)) flags
      else ret 0
  end.

Definition map_pages (tbl va pa size flags : Z) : M kmem Z :=
  let va_start := PGROUNDDOWN va in
  let va_end := PGROUNDUP (u64 (va + size)) in
  let pa_cur := PGROUNDDOWN pa in
  map_loop (range_fuel va_start va_end) tbl va_start va_start va_end pa_cur flags.

Definition unmap_pages (tbl va size : Z) : M kmem () :=
  let va_start := PGROUNDDOWN va in
  let va_end := PGROUNDUP (u64 (va + size)) in
  unmap_loop (range_fuel va_start va_end) tbl va_start va_end.

(** [cr3] is the value [rcr3()] reads. *)
Definition map_mmio (cr3 pa size : Z) : M kmem Z :=
  let pa_aligned := PGROUNDDOWN pa in
  let offset := u64 (pa - pa_aligned) in
  let map_size := u64 (size + offset) in
  let* r := map_pages cr3 pa_aligned pa_aligned map_size (Z.lor PTE_W PTE_PCD) in
  if negb (r =? 0) then ret 0 else ret pa.

Definition va_to_pa (tbl va : Z) : M kmem Z :=
  let* pte := walk tbl va false in
  if pte =? 0 then ret 0
  else
    let* raw := rd64 pte in
    let entry := decode_page_entry raw in
    if negb (pe_p entry) then ret 0
    else ret (Z.lor (entry_target entry) (Z.land va (PGSIZE - 1))).

(** The mapping loops of [map_apic_region] and [map_low_memory]: a page whose
    walk fails is skipped. *)
Fixpoint identity_loop (fuel : nat) (mk : Z → page_entry) (tbl addr stop : Z) : M kmem () :=
  match fuel with
  | O => out_of_fuel
  | S fuel' =>
      if addr <? stop then
        let* entry_raw := walk tbl addr true in
        do* (if entry_raw =? 0 then ret ()
             else wr64 entry_raw (encode_page_entry (mk addr))) in
        identity_loop fuel' mk tbl (u64 (addr + PGSIZE)) stop
      else ret ()
  end.

Definition map_apic_region (tbl apic_base size : Z) : M kmem () :=
  let stop := u64 (apic_base + size) in
  identity_loop (range_fuel apic_base stop) apic_entry tbl apic_base stop.

Definition map_low_memory (tbl start size : Z) : M kmem () :=
  let stop := u64 (start + size) in
  identity_loop (range_fuel start stop) table_entry tbl start stop.

(** [kvminit]: a failed walk spins forever ([while (entry_raw == 0) {}]). *)
Fixpoint kvm_loop (fuel : nat) (tbl4 addr stop : Z) : M kmem () :=
  match fuel with
  | O => out_of_fuel
  | S fuel' =>
      if u64 (addr + PGSIZE) <? stop then
        let* entry_raw := walk tbl4 addr true in
        if entry_raw =? 0 then out_of_fuel
        else
          do* init_entry entry_raw addr in
          kvm_loop fuel' tbl4 (u64 (addr + PGSIZE)) stop
      else ret ()
  end.

Definition kvminit (cr3 start stop : Z) : M kmem Z :=
  let addr := PGROUNDUP start in
  do* kvm_loop (range_fuel addr stop) cr3 addr stop in
  ret cr3.

End paging.

(** ** Encoding and decoding are inverse on the bits the kernel uses *)

(** The entries the kernel builds: [ign2] and [xd] clear. *)
Definition entry_wf (e : page_entry) : Prop :=
  0 ≤ pe_ign1 e < 16 ∧ 0 ≤ pe_address e < 2 ^ 36 ∧ pe_ign2 e = 0 ∧ pe_xd e = false.

Lemma b2z_land b : Z.land (Z.b2z b) 1 = Z.b2z b.
Proof. by destruct b. Qed.

Lemma b2z_range b : 0 ≤ Z.b2z b < 2.
Proof. destruct b; simpl; lia. Qed.

Section encoding_facts.
Context {WS : WideShift}.

Lemma encode_sum e : entry_wf e →
  encode_page_entry e =
  Z.b2z (pe_p e) + Z.b2z (pe_rw e) * 2 + Z.b2z (pe_us e) * 4 + Z.b2z (pe_pwt e) * 8 +
  Z.b2z (pe_pcd e) * 16 + Z.b2z (pe_a e) * 32 + Z.b2z (pe_d e) * 64 +
  Z.b2z (pe_rsvd e) * 128 + pe_ign1 e * 256 + pe_address e * 4096.
Proof.
  intros (Hi & Ha & H2 & Hx). unfold encode_page_entry. rewrite H2, Hx.
  change (Z.land 0 32767) with 0. change (Z.land (Z.b2z false) 1) with 0.
  rewrite !wide_shl_zero. change (u32 0) with 0. change (u64 (s32 0)) with 0.
  rewrite !Z.lor_0_r, !Z.lor_0_l, !b2z_land.
  change 0xF with (2 ^ 4 - 1). change 0xFFFFFFFFF with (2 ^ 36 - 1).
  rewrite !land_mask, !Z.mod_small by lia.
  destruct (b2z_range (pe_p e)), (b2z_range (pe_rw e)), (b2z_range (pe_us e)),
    (b2z_range (pe_pwt e)), (b2z_range (pe_pcd e)), (b2z_range (pe_a e)),
    (b2z_range (pe_d e)), (b2z_range (pe_rsvd e)).
  rewrite (lor_disjoint_add _ (Z.b2z (pe_rw e)) 1) by lia.
  rewrite (lor_disjoint_add _ (Z.b2z (pe_us e)) 2) by lia.
  rewrite (lor_disjoint_add _ (Z.b2z (pe_pwt e)) 3) by lia.
  rewrite (lor_disjoint_add _ (Z.b2z (pe_pcd e)) 4) by lia.
  rewrite (lor_disjoint_add _ (Z.b2z (pe_a e)) 5) by lia.
  rewrite (lor_disjoint_add _ (Z.b2z (pe_d e)) 6) by lia.
  rewrite (lor_disjoint_add _ (Z.b2z (pe_rsvd e)) 7) by lia.
  rewrite (lor_disjoint_add _ (pe_ign1 e) 8), (lor_disjoint_add _ (pe_address e) 12) by lia.
  lia.
Qed.

Lemma bit_set_eq x b : x = Z.b2z b → bit_set x = b.
Proof. intros ->. by destruct b. Qed.

Lemma decode_encode e : entry_wf e → decode_page_entry (encode_page_entry e) = e.
Proof.
  intros Hwf. pose proof Hwf as (Hi & Ha & H2 & Hx). rewrite encode_sum by done.
  destruct (b2z_range (pe_p e)), (b2z_range (pe_rw e)), (b2z_range (pe_us e)),
    (b2z_range (pe_pwt e)), (b2z_range (pe_pcd e)), (b2z_range (pe_a e)),
    (b2z_range (pe_d e)), (b2z_range (pe_rsvd e)).
  unfold decode_page_entry. rewrite !Z.shiftr_div_pow2 by lia.
  change 0xF with (2 ^ 4 - 1). change 0xFFFFFFFFF with (2 ^ 36 - 1).
  change 0x7FFF with (2 ^ 15 - 1). change (Z.land ?x 1) with (Z.land x (2 ^ 1 - 1)).
  rewrite !land_mask by lia.
  destruct e as [p rw us pwt pcd a d rsvd ign1 addr ign2 xd]. simpl in *. subst.
  f_equal.
  all: try apply bit_set_eq; try change (Z.b2z false) with 0.
  all: Z.to_euclidean_division_equations; lia.
Qed.

Lemma decode_wf raw : 0 ≤ raw < 2 ^ 48 → entry_wf (decode_page_entry raw).
Proof.
  intros Hr. unfold entry_wf, decode_page_entry. cbn.
  rewrite !Z.shiftr_div_pow2 by lia. change 15 with (2 ^ 4 - 1).
  change 68719476735 with (2 ^ 36 - 1). change 32767 with (2 ^ 15 - 1).
  change 1 with (2 ^ 1 - 1) at 2.
  rewrite !land_mask by lia. rewrite (Z.div_small raw (2 ^ 48)), (Z.div_small raw (2 ^ 63)) by lia.
  split_and!; try done; apply Z.mod_pos_bound; lia.
Qed.

Lemma b2z_bit_set x : Z.b2z (bit_set (x mod 2)) = x mod 2.
Proof.
  unfold bit_set. pose proof (Z.mod_pos_bound x 2).
  destruct (Z.eqb_spec (x mod 2) 0); simpl; lia.
Qed.

Lemma encode_decode raw : 0 ≤ raw < 2 ^ 48 → encode_page_entry (decode_page_entry raw) = raw.
Proof.
  intros Hr. rewrite encode_sum by (by apply decode_wf).
  unfold decode_page_entry;
    cbn [pe_p pe_rw pe_us pe_pwt pe_pcd pe_a pe_d pe_rsvd pe_ign1 pe_address].
  rewrite !Z.shiftr_div_pow2 by lia.
  change 0xF with (2 ^ 4 - 1). change 0xFFFFFFFFF with (2 ^ 36 - 1).
  change (Z.land ?x 1) with (Z.land x (2 ^ 1 - 1)).
  rewrite !land_mask by lia. change (2 ^ 1) with 2.
  rewrite !b2z_bit_set.
  Z.to_euclidean_division_equations; lia.
Qed.
End encoding_facts.

(** ** Entries for pages below 2^48 *)

Section entries.
Context {WS : WideShift}.

Lemma pe_address_mask a : Z.land (Z.shiftr a 12) 0xFFFFFFFFF = (a / PGSIZE) mod 2 ^ 36.
Proof.
  change 0xFFFFFFFFF with (2 ^ 36 - 1). rewrite land_mask, Z.shiftr_div_pow2 by lia. done.
Qed.

Lemma flags_entry_wf pa flags : entry_wf (flags_entry pa flags).
Proof.
  split_and!; simpl; [lia|lia|rewrite pe_address_mask; apply Z.mod_pos_bound; lia..|done|done].
Qed.

Lemma table_entry_flags a : table_entry a = flags_entry a PTE_W.
Proof. done. Qed.
Lemma apic_entry_flags a : apic_entry a = flags_entry a (Z.lor PTE_W PTE_PCD).
Proof. done. Qed.

Lemma encode_range e : entry_wf e → 0 ≤ encode_page_entry e < 2 ^ 48.
Proof.
  intros Hwf. rewrite encode_sum by done. destruct Hwf as (? & ? & _).
  destruct (b2z_range (pe_p e)), (b2z_range (pe_rw e)), (b2z_range (pe_us e)),
    (b2z_range (pe_pwt e)), (b2z_range (pe_pcd e)), (b2z_range (pe_a e)),
    (b2z_range (pe_d e)), (b2z_range (pe_rsvd e)). lia.
Qed.

Lemma entry_target_flags pa flags :
  0 ≤ pa < 2 ^ 48 → entry_target (flags_entry pa flags) = PGROUNDDOWN pa.
Proof.
  intros. unfold entry_target. rewrite PGROUNDDOWN_eq. simpl pe_address.
  rewrite pe_address_mask, Z.shiftl_mul_pow2 by lia. unfold PGSIZE.
  rewrite (Z.mod_small (pa / 4096)) by zlia. rewrite u64_small by zlia. lia.
Qed.

Lemma decode_target_range raw :
  0 ≤ entry_target (decode_page_entry raw) < 2 ^ 48 ∧
  entry_target (decode_page_entry raw) mod PGSIZE = 0.
Proof.
  unfold entry_target. simpl pe_address. rewrite pe_address_mask, Z.shiftl_mul_pow2 by lia.
  pose proof (Z.mod_pos_bound (raw / PGSIZE) (2 ^ 36)).
  unfold PGSIZE in *. rewrite u64_small by lia. zlia.
Qed.

Lemma decode_zero : pe_p (decode_page_entry 0) = false.
Proof. done. Qed.
End entries.
