(* ===== verification/PageTree.v ===== *)
(** * The page-table tree and the mapping it implements

    The tables reachable from a root form a tree of distinct pages that are
    not on the allocator's free list.  On such a tree this file proves what
    [walk], [map_page], [unmap_page] and [va_to_pa] of
    [kernel/paging/paging.c] do to the mapping from virtual pages to entries.
    The proofs use the allocator only through its contract [Allocator]. *)

From S2P Require Import Prelude Memory Kalloc Paging.

(** ** Reading the tree *)

(** The table entry [i] of table [t] points to, if it is present. *)
Definition child (m : mem) (t i : Z) : option Z :=
  let entry := decode_page_entry (load64 m (t + 8 * i)) in
  if pe_p entry then Some (entry_target entry) else None.

(** The table reached from [t] by a path of indices. *)
Fixpoint table_at (m : mem) (t : Z) (path : list Z) : option Z :=
  match path with
  | [] => Some t
  | i :: path' => child m t i ≫= λ t', table_at m t' path'
  end.

Definition index_ok (i : Z) : Prop := 0 ≤ i < 512.
Definition path_ok (path : list Z) : Prop :=
  Forall index_ok path ∧ (length path ≤ 3)%nat.

(** The indices of a virtual address, root first. *)
Definition va_path (va : Z) : list Z :=
  [level_index va 3; level_index va 2; level_index va 1].

#[global] Arguments va_path : simpl never.
#[global] Arguments level_index : simpl never.
#[global] Arguments decode_page_entry : simpl never.

(** The address of the last-level entry of [va]. *)
Definition pte_of (m : mem) (root va : Z) : option Z :=
  t ← table_at m root (va_path va); Some (t + 8 * level_index va 0).

(** The entry that maps [va], if its page is mapped. *)
Definition mapping (m : mem) (root va : Z) : option page_entry :=
  pte ← pte_of m root va;
  let entry := decode_page_entry (load64 m pte) in
  if pe_p entry then Some entry else None.

(** The virtual page number: the 36 bits the walk uses. *)
Definition vpn (va : Z) : Z := (va / PGSIZE) mod 2 ^ 36.

(** ** The invariant *)

Record tree_ok (m : mem) (root : Z) (free : list Z) : Prop := {
  tree_pages path t : path_ok path → table_at m root path = Some t →
    0 < t < 2 ^ 48 ∧ t mod PGSIZE = 0;
  tree_inj path path' t : path_ok path → path_ok path' →
    table_at m root path = Some t → table_at m root path' = Some t → path = path';
  tree_free path t : path_ok path → table_at m root path = Some t → t ∉ free
}.

(** ** Indices *)

Lemma level_index_eq va level :
  level_index va level = (va / 2 ^ (12 + Z.of_nat level * 9)) mod 512.
Proof.
  unfold level_index. change 0x1FF with (2 ^ 9 - 1).
  rewrite land_mask, Z.shiftr_div_pow2 by lia. done.
Qed.

Lemma level_index_ok va level : index_ok (level_index va level).
Proof. rewrite level_index_eq. apply Z.mod_pos_bound. lia. Qed.

Lemma va_path_ok va : path_ok (va_path va).
Proof. split; [|simpl; lia]. repeat constructor; apply level_index_ok. Qed.

Lemma vpn_indices va va' :
  vpn va = vpn va' ↔
  va_path va = va_path va' ∧ level_index va 0 = level_index va' 0.
Proof.
  unfold va_path, vpn. rewrite !level_index_eq.
  change (2 ^ (12 + Z.of_nat 3 * 9)) with (PGSIZE * 134217728).
  change (2 ^ (12 + Z.of_nat 2 * 9)) with (PGSIZE * 262144).
  change (2 ^ (12 + Z.of_nat 1 * 9)) with (PGSIZE * 512).
  change (2 ^ (12 + Z.of_nat 0 * 9)) with PGSIZE.
  rewrite <- !Z.div_div by (unfold PGSIZE; lia).
  generalize (va / PGSIZE), (va' / PGSIZE). clear. intros x y. change (2 ^ 36) with 68719476736.
  split.
  - intros Hxy. split; [|zlia]. repeat apply (f_equal2 cons); [zlia..|done].
  - intros [[= H3 H2 H1] H0]. zlia.
Qed.

Lemma PGROUNDDOWN_vpn va : vpn (PGROUNDDOWN va) = vpn va.
Proof. unfold vpn. rewrite PGROUNDDOWN_eq, Z.div_mul by done. done. Qed.

Lemma mapping_vpn m root va va' : vpn va = vpn va' → mapping m root va = mapping m root va'.
Proof.
  intros [Hp H0]%vpn_indices. unfold mapping, pte_of. by rewrite Hp, H0.
Qed.

Lemma pte_of_vpn m root va va' : vpn va = vpn va' → pte_of m root va = pte_of m root va'.
Proof. intros [Hp H0]%vpn_indices. unfold pte_of. by rewrite Hp, H0. Qed.

(** ** Tables under memory updates *)

Lemma table_at_snoc m t path i :
  table_at m t (path ++ [i]) = table_at m t path ≫= λ t', child m t' i.
Proof.
  revert t. induction path as [|j path IH]; intros t; simpl.
  - by destruct (child m t i).
  - destruct (child m t j); simpl; [apply IH|done].
Qed.

Lemma child_agree m m' t i : agree m m' (t + 8 * i) 8 → child m' t i = child m t i.
Proof. intros Ha. unfold child. by rewrite (load64_agree m m'). Qed.

Lemma child_range m t i t' : child m t i = Some t' → 0 ≤ t' < 2 ^ 48 ∧ t' mod PGSIZE = 0.
Proof.
  unfold child. intros Hc. case_match; [|done]. injection Hc as <-.
  apply decode_target_range.
Qed.

Lemma path_ok_snoc path i : path_ok (path ++ [i]) ↔
  path_ok path ∧ index_ok i ∧ (length path < 3)%nat.
Proof.
  unfold path_ok. rewrite Forall_app, Forall_singleton, length_app. simpl.
  intuition lia.
Qed.

(** Entries of one table are disjoint words of its page. *)
Lemma entry_in_page t i : index_ok i → t ≤ t + 8 * i ∧ t + 8 * i + 8 ≤ t + PGSIZE.
Proof. unfold index_ok, PGSIZE. lia. Qed.

Section tree.
Context (m m' : mem) (root : Z) (free : list Z) (Htree : tree_ok m root free).

(** An update that leaves the entries of the upper three levels alone leaves
    every table where it is. *)
Lemma table_at_unchanged :
  (∀ path t j, path_ok (path ++ [j]) → table_at m root path = Some t →
    child m' t j = child m t j) →
  ∀ path, path_ok path → table_at m' root path = table_at m root path.
Proof.
  intros Hsame path. induction path as [|j path IH] using rev_ind; intros Hok; [done|].
  rewrite !table_at_snoc. pose proof Hok as (Hp & _)%path_ok_snoc.
  rewrite IH by done. destruct (table_at m root path) as [t|] eqn:E; [|done].
  simpl. by eapply Hsame.
Qed.

(** An update that fills one absent entry with a fresh, empty table adds that
    table and nothing else. *)
Lemma table_at_extended pi t i new :
  path_ok (pi ++ [i]) → table_at m root pi = Some t → child m t i = None →
  child m' t i = Some new → (∀ j, index_ok j → child m' new j = None) →
  (∀ path t' j, path_ok (path ++ [j]) → table_at m root path = Some t' →
    path ++ [j] ≠ pi ++ [i] → child m' t' j = child m t' j) →
  ∀ path, path_ok path → table_at m' root path =
    if decide (path = pi ++ [i]) then Some new else table_at m root path.
Proof.
  intros Hpi Ht Hnone Hnew Hempty Hsame path.
  induction path as [|j path IH] using rev_ind; intros Hok.
  { rewrite decide_False; [done|]. by destruct pi. }
  rewrite !table_at_snoc. pose proof Hok as (Hp & Hj & _)%path_ok_snoc.
  rewrite IH by done. destruct (decide (path = pi ++ [i])) as [->|Hne].
  - simpl. rewrite Hempty by done. rewrite decide_False.
    + by rewrite table_at_snoc, Ht; simpl; rewrite Hnone.
    + intros [? _]%app_inj_tail. apply (f_equal length) in H. rewrite length_app in H.
      simpl in H. lia.
  - case_decide as Heq.
    + apply app_inj_tail in Heq as [-> ->]. by rewrite Ht.
    + destruct (table_at m root path) as [t'|] eqn:E; [|done]. simpl. by eapply Hsame.
Qed.
End tree.

(** ** Installing a table *)

Section install.
Context {WS : WideShift}.
Context (m m2 : mem) (root : Z) (l : list Z) (new : Z).
Context (Htree : tree_ok m root (new :: l)) (Hnd : NoDup (new :: l)).
Context (Hnew : 0 < new < 2 ^ 48 ∧ new mod PGSIZE = 0).
Context (Hm2 : only_changes m m2 new PGSIZE).
Context (Hzero : ∀ b, new ≤ b < new + PGSIZE → byte_at m2 b = 0).
Context (pi : list Z) (t i : Z) (Hpi : path_ok (pi ++ [i])).
Context (Ht : table_at m root pi = Some t) (Hnone : child m t i = None).

Let m3 := store64 m2 (t + 8 * i) (encode_page_entry (table_entry new)).

Lemma install_path : path_ok pi ∧ index_ok i ∧ (length pi < 3)%nat.
Proof using All. by apply path_ok_snoc. Qed.

(** A table of the old tree is a page apart from the fresh one. *)
Lemma install_apart path t' : path_ok path → table_at m root path = Some t' →
  t' ≠ new ∧ t' mod PGSIZE = 0.
Proof using All.
  intros Hp E. split.
  - intros ->. apply (tree_free _ _ _ Htree _ _ Hp E). left.
  - by apply (tree_pages _ _ _ Htree _ _ Hp E).
Qed.

Lemma install_agree path t' j : path_ok path → table_at m root path = Some t' →
  index_ok j → (t', j) ≠ (t, i) → agree m m3 (t' + 8 * j) 8.
Proof using All.
  intros Hp E Hj Hne. destruct install_path as (Hpp & Hi & _).
  destruct (install_apart _ _ Hp E) as [Hn1 Hmod], (install_apart _ _ Hpp Ht) as [_ Hmodt].
  pose proof (entry_in_page t' j Hj). pose proof (entry_in_page t i Hi).
  eapply agree_trans.
  - eapply only_changes_agree; [exact Hm2|].
    destruct (pages_disjoint t' new); [done|tauto|done|lia..].
  - eapply only_changes_agree; [apply store64_changes|].
    destruct (decide (t' = t)) as [->|Hd]; [assert (i ≠ j) by congruence; lia|].
    destruct (pages_disjoint t' t); [done..|lia|lia].
Qed.

Lemma install_entry : child m3 t i = Some new.
Proof using All.
  unfold child, m3. pose proof (encode_range _ (flags_entry_wf new PTE_W)).
  rewrite table_entry_flags, load64_store64 by lia.
  rewrite decode_encode by apply flags_entry_wf.
  rewrite entry_target_flags, PGROUNDDOWN_eq by lia. simpl. f_equal.
  destruct Hnew. unfold PGSIZE in *. zlia.
Qed.

Lemma install_empty j : index_ok j → load64 m3 (new + 8 * j) = 0.
Proof using All.
  intros Hj. destruct install_path as (Hpp & Hi & _).
  destruct (install_apart _ _ Hpp Ht) as [Hn1 Hmodt].
  pose proof (entry_in_page new j Hj). pose proof (entry_in_page t i Hi).
  unfold m3. rewrite load64_store64_other.
  - apply load_zeros. intros b Hb. apply Hzero. lia.
  - destruct (pages_disjoint t new); [done|tauto|done|lia..].
Qed.

Lemma install_tables path : path_ok path → table_at m3 root path =
  if decide (path = pi ++ [i]) then Some new else table_at m root path.
Proof using All.
  intros Hp. eapply table_at_extended; eauto using install_entry.
  - intros j Hj. unfold child. by rewrite install_empty.
  - intros path' t' j (Hpo & Hj & _)%path_ok_snoc E Hne.
    apply child_agree. eapply install_agree; [done..|]. intros [= -> ->].
    apply Hne. f_equal. destruct install_path as (Hpp & _).
    by eapply (tree_inj _ _ _ Htree).
Qed.

Lemma install_tree_ok : tree_ok m3 root l.
Proof using All.
  pose proof Hnd as [Hnin _]%NoDup_cons. split.
  - intros path t' Hp. rewrite install_tables by done. case_decide.
    + by intros [= <-].
    + by apply (tree_pages _ _ _ Htree).
  - intros path path' t' Hp Hp'. rewrite !install_tables by done.
    repeat case_decide; subst; [done|..].
    + intros [= <-] E. by destruct (install_apart _ _ Hp' E).
    + intros E [= <-]. by destruct (install_apart _ _ Hp E).
    + by apply (tree_inj _ _ _ Htree).
  - intros path t' Hp. rewrite install_tables by done. case_decide.
    + by intros [= <-].
    + intros E Hin. apply (tree_free _ _ _ Htree _ _ Hp E). by right.
Qed.

Lemma install_mapping va : mapping m3 root va = mapping m root va.
Proof using All.
  unfold mapping, pte_of. rewrite install_tables by apply va_path_ok.
  case_decide as Hva.
  - rewrite Hva, table_at_snoc, Ht. cbn [mbind option_bind].
    by rewrite Hnone, install_empty by apply level_index_ok.
  - destruct (table_at m root (va_path va)) as [t'|] eqn:E; [|done].
    cbn [mbind option_bind]. rewrite (load64_agree m m3); [done|].
    eapply install_agree; [apply va_path_ok|done|apply level_index_ok|].
    intros [= -> _]. destruct install_path as (Hpp & _ & Hlen).
    pose proof (tree_inj _ _ _ Htree _ _ _ (va_path_ok va) Hpp E Ht) as <-.
    simpl in Hlen. lia.
Qed.
End install.

(** ** Walking with allocation *)

(** The indices of [va] for the levels [level], ..., 1. *)
Fixpoint level_indices (va : Z) (level : nat) : list Z :=
  match level with
  | O => []
  | S level' => level_index va level :: level_indices va level'
  end.

(** Addresses outside the tables of [root] and the free pages [l]. *)
Definition unowned (m : mem) (root : Z) (l : list Z) (b : Z) : Prop :=
  (∀ p, p ∈ l → ¬ p ≤ b < p + PGSIZE) ∧
  (∀ path t, path_ok path → table_at m root path = Some t → ¬ t ≤ b < t + PGSIZE).

(** From [m] to [m'] tables stay where they are, and no page is lost: what was
    free is free or a table. *)
Definition tables_grow (m m' : mem) (root : Z) (l l' : list Z) : Prop :=
  (∀ path t, path_ok path → table_at m root path = Some t → table_at m' root path = Some t) ∧
  ∀ p, p ∈ l → p ∈ l' ∨ ∃ path, path_ok path ∧ table_at m' root path = Some p.

Lemma tables_grow_refl m root l : tables_grow m m root l l.
Proof. split; [done|]. intros p Hp. by left. Qed.

Lemma tables_grow_trans m1 m2 m3 root l1 l2 l3 :
  tables_grow m1 m2 root l1 l2 → tables_grow m2 m3 root l2 l3 → tables_grow m1 m3 root l1 l3.
Proof.
  intros [T1 A1] [T2 A2]. split; [by eauto|]. intros p Hp.
  destruct (A1 p Hp) as [?|(path & Hpath & Ht)]; [by apply A2|]. right. eauto.
Qed.

(** From [s] to [s'] tables were added, taken from the front of the free
    pages: the mapping is the same, tables stay where they are, all pages taken
    are tables, and memory that is neither a table nor free is not touched. *)
Record tree_grows (rep : kmem → list Z → Prop) (s s' : kmem) (root : Z) (l l' : list Z) : Prop := {
  grows_rep : rep s' l';
  grows_tree : tree_ok (km_mem s') root l';
  grows_used : ∃ used, l = used ++ l';
  grows_mapping va : mapping (km_mem s') root va = mapping (km_mem s) root va;
  grows_tables path t : path_ok path → table_at (km_mem s) root path = Some t →
    table_at (km_mem s') root path = Some t;
  grows_unowned b : unowned (km_mem s) root l b →
    byte_at (km_mem s') b = byte_at (km_mem s) b ∧ unowned (km_mem s') root l' b;
  grows_account : tables_grow (km_mem s) (km_mem s') root l l'
}.

Section walk.
Context {LK : Linker} {WS : WideShift} {rep : kmem → list Z → Prop}.
Context `{!Allocator kalloc kfree rep}.

Lemma tree_grows_refl s root l :
  rep s l → tree_ok (km_mem s) root l → tree_grows rep s s root l l.
Proof. intros. split; try done; [by exists []|apply tables_grow_refl]. Qed.

Lemma tree_grows_trans s1 s2 s3 root l1 l2 l3 :
  tree_grows rep s1 s2 root l1 l2 → tree_grows rep s2 s3 root l2 l3 →
  tree_grows rep s1 s3 root l1 l3.
Proof.
  intros [R1 T1 [u1 ->] M1 P1 U1 A1] [R2 T2 [u2 ->] M2 P2 U2 A2]. split; try done.
  - exists (u1 ++ u2). by rewrite app_assoc.
  - intros va. by rewrite M2, M1.
  - eauto.
  - intros b Hb. destruct (U1 b Hb) as [E1 Hb2]. destruct (U2 b Hb2) as [E2 ?].
    split; [congruence|done].
  - by eapply tables_grow_trans.
Qed.

(** Writing inside a page that is not free keeps the allocator's state. *)
Lemma rep_write s l p m' :
  rep s l → p mod PGSIZE = 0 → p ∉ l → only_changes (km_mem s) m' p PGSIZE →
  rep (set_mem m' s) l.
Proof.
  intros Hr Hp Hnin Hm. apply rep_frame; [done|].
  destruct (rep_pages _ _ Hr). by eapply pages_kept_only_changes.
Qed.

(** Writing one entry of a table only changes that table's page. *)
Lemma entry_store_changes m t i v :
  index_ok i → only_changes m (store64 m (t + 8 * i) v) t PGSIZE.
Proof.
  intros Hi. pose proof (entry_in_page t i Hi).
  eapply only_changes_sub; [apply store64_changes|lia..].
Qed.

(** One level of the walk that finds no table: a page is taken and linked. *)
Lemma walk_install s root new l pi t i :
  rep s (new :: l) → tree_ok (km_mem s) root (new :: l) → path_ok (pi ++ [i]) →
  table_at (km_mem s) root pi = Some t → child (km_mem s) t i = None →
  ∃ s1 s', kalloc s = Ret (new, s1) ∧ new ≠ 0 ∧
    bind (kmemset new 0 PGSIZE) (λ _, init_entry (t + 8 * i) new) s1 = Ret ((), s') ∧
    tree_grows rep s s' root (new :: l) l ∧
    table_at (km_mem s') root (pi ++ [i]) = Some new.
Proof.
  intros Hr Htree Hpi Ht Hnone.
  destruct (rep_pages _ _ Hr) as [Hnd [Hok Hl]%Forall_cons].
  destruct (alloc_page s new l Hr) as (s1 & Ha & Hr1 & Hm1 & _).
  set (m2 := memset (km_mem s1) new 0 PGSIZE).
  assert (only_changes (km_mem s1) m2 new PGSIZE) as Hm12 by (by apply memset_changes).
  assert (only_changes (km_mem s) m2 new PGSIZE) as Hm2 by (by eapply only_changes_trans).
  assert (∀ b, new ≤ b < new + PGSIZE → byte_at m2 b = 0) as Hz.
  { intros b Hb. unfold m2. by rewrite memset_inside. }
  assert (0 < new < 2 ^ 48 ∧ new mod PGSIZE = 0) as Hnew.
  { pose proof (page_ok_pos _ Hok). destruct Hok. unfold PHYSTOP in *. lia. }
  pose proof Hpi as (Hpp & Hi & _)%path_ok_snoc.
  destruct (tree_pages _ _ _ Htree _ _ Hpp Ht) as [_ Htm].
  pose proof (tree_free _ _ _ Htree _ _ Hpp Ht) as [Htn Htl]%not_elem_of_cons.
  pose proof Hnd as [Hnl _]%NoDup_cons.
  set (m3 := store64 m2 (t + 8 * i) (encode_page_entry (table_entry new))).
  assert (only_changes m2 m3 t PGSIZE) as Hm3 by (by apply entry_store_changes).
  pose proof (install_tables _ m2 root l new Htree Hnd Hnew Hm2 Hz pi t i Hpi Ht Hnone) as Htab.
  fold m3 in Htab.
  assert (∀ path t', path_ok path → table_at (km_mem s) root path = Some t' → table_at m3 root path = Some t') as Hstay.
  { intros path t' Hp E. rewrite Htab by done. case_decide as Hd; [|done].
    exfalso. subst path. rewrite table_at_snoc, Ht in E. simpl in E. congruence. }
  exists s1, (set_mem m3 s1).
  split_and!; [done|lia|done|split|by rewrite Htab, decide_True]; simpl.
  - apply (rep_write (set_mem m2 s1) l t); [apply (rep_write s1 l new); tauto|done..].
  - by apply (install_tree_ok (km_mem s) m2 root l new Htree Hnd Hnew Hm2 Hz pi t i).
  - by exists [new].
  - intros va. by apply (install_mapping (km_mem s) m2 root l new Htree Hnd Hnew Hm2 Hz pi t i).
  - exact Hstay.
  - intros b [Hb1 Hb2]. split.
    + rewrite Hm3, Hm2; [done|..].
      * specialize (Hb1 new ltac:(left)). lia.
      * specialize (Hb2 _ _ Hpp Ht). lia.
    + split; [intros p ?; apply Hb1; by right|]. intros path t' Hp.
      rewrite Htab by done. case_decide; [|by apply Hb2].
      intros [= <-]. apply Hb1. left.
  - split; [exact Hstay|]. intros p [->|Hp]%elem_of_cons; [right|by left].
    exists (pi ++ [i]). split; [done|]. by rewrite Htab, decide_True.
Qed.

(** The walk with allocation returns the address of the last-level entry, or
    0 after having used up the free pages. *)
Lemma walk_loop_alloc level s root l pi t va :
  rep s l → tree_ok (km_mem s) root l → table_at (km_mem s) root pi = Some t →
  pi ++ level_indices va level = va_path va →
  ∃ r s' l', walk_loop level t va true s = Ret (r, s') ∧
    tree_grows rep s s' root l l' ∧ (length l ≤ length l' + level)%nat ∧
    ((r = 0 ∧ l' = [] ∧ (length l < level)%nat) ∨
     (0 < r ∧ pte_of (km_mem s') root va = Some r)).
Proof.
  revert s l pi t. induction level as [|level IH]; intros s l pi t Hr Htree Ht Hva.
  { exists (t + 8 * level_index va 0), s, l. split; [done|].
    split; [by apply tree_grows_refl|]. split; [lia|]. right. simpl in Hva. rewrite app_nil_r in Hva. subst pi.
    destruct (tree_pages _ _ _ Htree _ _ (va_path_ok va) Ht) as [? _].
    pose proof (level_index_ok va 0) as Hi0. unfold index_ok in Hi0.
    split; [lia|]. unfold pte_of. by rewrite Ht. }
  cbn [level_indices] in Hva. set (i := level_index va (S level)) in *.
  assert ((pi ++ [i]) ++ level_indices va level = va_path va) as Hva'
    by (by rewrite <- app_assoc).
  assert (path_ok (pi ++ [i])) as Hpi.
  { destruct (va_path_ok va) as [Hf Hlen]. rewrite <- Hva' in Hf, Hlen.
    apply Forall_app in Hf as [? _]. rewrite length_app in Hlen. split; [done|lia]. }
  cbn [walk_loop]. fold i. erewrite bind_ret by done.
  destruct (child (km_mem s) t i) as [t'|] eqn:Hc.
  - pose proof Hc as Hc'. unfold child in Hc'. destruct (pe_p _); [|done].
    injection Hc' as ->.
    destruct (IH s l (pi ++ [i]) t') as (r & s' & l' & ? & ? & ? & Hres); [done|done| |done|].
    { rewrite table_at_snoc, Ht. done. }
    exists r, s', l'. split_and!; [done|done|lia|].
    destruct Hres as [(? & ? & ?)|?]; [left; split_and!; [done|done|lia]|by right].
  - pose proof Hc as Hc'. unfold child in Hc'. destruct (pe_p _); [done|]. clear Hc'. cbn [negb].
    destruct l as [|new l].
    + erewrite bind_ret by (by apply alloc_empty).
      exists 0, s, []. simpl. split; [done|]. split; [by apply tree_grows_refl|].
      split; [lia|]. left. split_and!; [done|done|lia].
    + destruct (walk_install s root new l pi t i) as (s1 & s2 & Ha & Hnz & Hs2 & Hg & Hnew);
        [done..|].
      erewrite bind_ret by exact Ha. rewrite (proj2 (Z.eqb_neq _ _)) by done.
      rewrite <- (bind_assoc (kmemset new 0 PGSIZE) (λ _, init_entry (t + 8 * i) new)).
      erewrite bind_ret by exact Hs2.
      destruct (IH s2 l (pi ++ [i]) new) as (r & s' & l' & Hw & Hg' & Hlen & Hres);
        [apply Hg|apply Hg|done|done|].
      exists r, s', l'. split; [done|]. split; [by eapply tree_grows_trans|].
      split; [simpl; lia|].
      destruct Hres as [(? & ? & ?)|?]; [left; simpl; split_and!; [done|done|lia]|by right].
Qed.

Lemma walk_alloc s root l va :
  rep s l → tree_ok (km_mem s) root l →
  ∃ r s' l', walk root va true s = Ret (r, s') ∧ tree_grows rep s s' root l l' ∧
    (length l ≤ length l' + 3)%nat ∧
    ((r = 0 ∧ l' = [] ∧ (length l < 3)%nat) ∨
     (0 < r ∧ pte_of (km_mem s') root va = Some r)).
Proof. intros. by apply (walk_loop_alloc 3 s root l []). Qed.

(** The walk without allocation reads the tree and changes nothing. *)
Lemma walk_loop_pure level s t va :
  walk_loop level t va false s =
  Ret (match table_at (km_mem s) t (level_indices va level) with
       | Some t' => t' + 8 * level_index va 0
       | None => 0
       end, s).
Proof.
  revert t. induction level as [|level IH]; intros t; [done|].
  cbn [walk_loop level_indices table_at]. erewrite bind_ret by done.
  unfold child. destruct (pe_p _); [by rewrite IH|done].
Qed.

Lemma walk_pure s root va :
  walk root va false s = Ret (default 0 (pte_of (km_mem s) root va), s).
Proof.
  unfold walk. rewrite walk_loop_pure. unfold pte_of.
  change (level_indices va 3) with (va_path va).
  by destruct (table_at (km_mem s) root (va_path va)).
Qed.
End walk.

(** ** Writing a last-level entry *)

Section leaf.
Context (m : mem) (root : Z) (l : list Z) (Htree : tree_ok m root l).
Context (va pte v : Z) (Hpte : pte_of m root va = Some pte) (Hv : 0 ≤ v < 2 ^ 64).

Let m' := store64 m pte v.

(** The entry lies in the page of a table at depth three. *)
Lemma leaf_table : ∃ t, table_at m root (va_path va) = Some t ∧
  pte = t + 8 * level_index va 0 ∧ t mod PGSIZE = 0 ∧ 0 < t < 2 ^ 48 ∧ (t ∉ l) ∧
  only_changes m m' t PGSIZE.
Proof.
  unfold pte_of in Hpte. destruct (table_at m root (va_path va)) as [t|] eqn:E; [|done].
  simpl in Hpte. injection Hpte as <-. exists t.
  destruct (tree_pages _ _ _ Htree _ _ (va_path_ok va) E).
  split_and!; try done; try tauto.
  - by apply (tree_free _ _ _ Htree _ _ (va_path_ok va)).
  - apply entry_store_changes, level_index_ok.
Qed.

Lemma leaf_tables path : path_ok path → table_at m' root path = table_at m root path.
Proof.
  intros Hp. destruct leaf_table as (t & Ht & _ & Htm & _ & _ & Hch).
  eapply table_at_unchanged; [done| |done].
  intros path' t' j (Hp' & Hj & Hlen)%path_ok_snoc E. apply child_agree.
  destruct (tree_pages _ _ _ Htree _ _ Hp' E). pose proof (entry_in_page t' j Hj).
  eapply only_changes_agree; [exact Hch|].
  assert (t' ≠ t) as Hne.
  { intros ->. pose proof (tree_inj _ _ _ Htree _ _ _ Hp' (va_path_ok va) E Ht). subst path'.
    by vm_compute in Hlen; lia. }
  destruct (pages_disjoint t' t); [done..|lia|lia].
Qed.

Lemma leaf_tree_ok : tree_ok m' root l.
Proof.
  split; intros *; intros; rewrite ?leaf_tables in * by done.
  - by eapply (tree_pages _ _ _ Htree).
  - by eapply (tree_inj _ _ _ Htree path path').
  - by eapply (tree_free _ _ _ Htree).
Qed.

Lemma leaf_mapping va' : mapping m' root va' =
  if decide (vpn va' = vpn va) then
    (if pe_p (decode_page_entry v) then Some (decode_page_entry v) else None)
  else mapping m root va'.
Proof.
  destruct leaf_table as (t & Ht & Hpt & Htm & _ & _ & Hch).
  case_decide as Hvpn.
  - rewrite (mapping_vpn _ _ _ _ Hvpn). unfold mapping, pte_of.
    rewrite leaf_tables, Ht by apply va_path_ok. cbn [mbind option_bind].
    rewrite <- Hpt. unfold m'. by rewrite load64_store64.
  - unfold mapping, pte_of. rewrite leaf_tables by apply va_path_ok.
    destruct (table_at m root (va_path va')) as [t'|] eqn:E; [|done]. cbn [mbind option_bind].
    rewrite (load64_agree m m'); [done|].
    destruct (tree_pages _ _ _ Htree _ _ (va_path_ok va') E).
    destruct (decide (t' = t)) as [->|Hne].
    + pose proof (tree_inj _ _ _ Htree _ _ _ (va_path_ok va') (va_path_ok va) E Ht).
      eapply only_changes_agree; [apply store64_changes|].
      assert (level_index va' 0 ≠ level_index va 0) by (intros ?; apply Hvpn; by apply vpn_indices).
      lia.
    + pose proof (entry_in_page t' _ (level_index_ok va' 0)).
      eapply only_changes_agree; [exact Hch|].
      destruct (pages_disjoint t' t); [done..|lia|lia].
Qed.
End leaf.

(** ** Operations on the mapping *)

(** A page of [va] is mapped to a frame other than that of [pa]. *)
Definition conflicts (m : mem) (root va pa : Z) : Prop :=
  ∃ e, mapping m root va = Some e ∧ entry_target e ≠ PGROUNDDOWN pa.

(** The mapping of [s'] is that of [s] with the page of [va] set to [o]. *)
Definition remapped (s s' : kmem) (root va : Z) (o : option page_entry) : Prop :=
  ∀ va', mapping (km_mem s') root va' =
    if decide (vpn va' = vpn va) then o else mapping (km_mem s) root va'.

Section operations.
Context {LK : Linker} {WS : WideShift} {rep : kmem → list Z → Prop}.
Context `{!Allocator kalloc kfree rep}.

(** From [s] to [s'] the tree stays well formed and memory that is neither a
    table nor free is not touched. *)
Definition tree_frame (s s' : kmem) (root : Z) (l l' : list Z) : Prop :=
  tree_ok (km_mem s') root l' ∧
  ∀ b, unowned (km_mem s) root l b →
    byte_at (km_mem s') b = byte_at (km_mem s) b ∧ unowned (km_mem s') root l' b.

(** ... and, besides, tables stay and no page is lost. *)
Definition tree_step (s s' : kmem) (root : Z) (l l' : list Z) : Prop :=
  tree_ok (km_mem s') root l' ∧
  (∀ b, unowned (km_mem s) root l b →
    byte_at (km_mem s') b = byte_at (km_mem s) b ∧ unowned (km_mem s') root l' b) ∧
  tables_grow (km_mem s) (km_mem s') root l l'.

Lemma tree_step_frame s s' root l l' : tree_step s s' root l l' → tree_frame s s' root l l'.
Proof. intros (Ht & Hu & _). by split. Qed.

Lemma tree_step_refl s root l : tree_ok (km_mem s) root l → tree_step s s root l l.
Proof. intros H. split; [exact H|]. split; [done|apply tables_grow_refl]. Qed.
#[local] Hint Extern 0 (tree_step ?s ?s _ _ _) => apply tree_step_refl; assumption : core.

Lemma tree_step_trans s1 s2 s3 root l1 l2 l3 :
  tree_step s1 s2 root l1 l2 → tree_step s2 s3 root l2 l3 → tree_step s1 s3 root l1 l3.
Proof.
  intros (_ & U1 & A1) (T2 & U2 & A2). split; [done|]. split; [|by eapply tables_grow_trans].
  intros b Hb. destruct (U1 b Hb) as [E1 Hb2]. destruct (U2 b Hb2) as [E2 ?]. split; [congruence|done].
Qed.

(** A last-level entry is written through its address. *)
Lemma write_pte s l root va pte v :
  rep s l → tree_ok (km_mem s) root l → pte_of (km_mem s) root va = Some pte →
  0 ≤ v < 2 ^ 64 →
  ∃ s', wr64 pte v s = Ret ((), s') ∧ rep s' l ∧ tree_step s s' root l l ∧
    remapped s s' root va
      (if pe_p (decode_page_entry v) then Some (decode_page_entry v) else None).
Proof.
  intros Hr Htree Hpte Hv. eexists. split; [done|].
  destruct (leaf_table _ root l Htree va pte v Hpte Hv) as (t & Ht & _ & ? & _ & ? & Hch).
  split; [by eapply rep_write|]. split; [split; [by eapply leaf_tree_ok|split]|].
  - intros b [Hb1 Hb2]. pose proof (Hb2 _ _ (va_path_ok va) Ht) as Hbt.
    split; [apply Hch; lia|]. split; [done|]. intros path t' Hp. cbn [km_mem set_mem].
    rewrite (leaf_tables _ root l Htree va pte v Hpte) by done. by apply Hb2.
  - split; [|intros p Hp; by left]. intros path t' Hp E. cbn [km_mem set_mem].
    by rewrite (leaf_tables _ root l Htree va pte v Hpte).
  - intros va'. by eapply leaf_mapping.
Qed.

Lemma walk_loop_existing level s t t' va alloc :
  table_at (km_mem s) t (level_indices va level) = Some t' →
  walk_loop level t va alloc s = Ret (t' + 8 * level_index va 0, s).
Proof.
  revert t. induction level as [|level IH]; intros t.
  { intros [= ->]. done. }
  cbn [walk_loop level_indices table_at]. erewrite bind_ret by done.
  unfold child. destruct (pe_p _); [apply IH|done].
Qed.

(** Where the tables exist, [walk] allocates nothing. *)
Lemma walk_existing s root va pte alloc :
  pte_of (km_mem s) root va = Some pte → walk root va alloc s = Ret (pte, s).
Proof.
  unfold pte_of. intros Hp.
  destruct (table_at (km_mem s) root (va_path va)) as [t|] eqn:E; [|done].
  injection Hp as <-. by apply walk_loop_existing.
Qed.

Lemma mapping_pte m root va e : mapping m root va = Some e →
  ∃ pte, pte_of m root va = Some pte ∧ decode_page_entry (load64 m pte) = e ∧ pe_p e = true.
Proof.
  unfold mapping. destruct (pte_of m root va) as [pte|]; [|done].
  cbn [mbind option_bind]. intros Hm. exists pte. destruct (pe_p (decode_page_entry _)) eqn:E; [|done].
  by injection Hm as <-.
Qed.

Lemma pte_mapping m root va pte : pte_of m root va = Some pte →
  mapping m root va = if pe_p (decode_page_entry (load64 m pte))
    then Some (decode_page_entry (load64 m pte)) else None.
Proof. unfold mapping. by intros ->. Qed.

Lemma pte_pos s l root va pte :
  tree_ok (km_mem s) root l → pte_of (km_mem s) root va = Some pte → 0 < pte.
Proof.
  intros Htree Hpte. destruct (leaf_table _ root l Htree va pte 0 Hpte) as (t & _ & -> & _ & ? & _);
    [lia|]. pose proof (level_index_ok va 0) as Hi. unfold index_ok in Hi. lia.
Qed.

(** A page that is mapped to the frame already gets new flags, and nothing is
    allocated. *)
Lemma remap_page_rep s l root va pa flags e :
  rep s l → tree_ok (km_mem s) root l → mapping (km_mem s) root va = Some e →
  entry_target e = PGROUNDDOWN pa →
  ∃ s', map_page root va pa flags s = Ret (0, s') ∧ rep s' l ∧ tree_step s s' root l l ∧
    remapped s s' root va (Some (flags_entry (PGROUNDDOWN pa) flags)).
Proof.
  intros Hr Htree Hmap He. unfold map_page. pose proof (PGROUNDDOWN_vpn va) as Hvpn.
  destruct (mapping_pte _ _ _ _ Hmap) as (pte & Hpte & Hdec & Hpe).
  rewrite (pte_of_vpn _ _ va (PGROUNDDOWN va)) in Hpte by done.
  pose proof (pte_pos _ _ _ _ _ Htree Hpte) as Hpos.
  erewrite bind_ret by (by apply walk_existing).
  rewrite (proj2 (Z.eqb_neq _ _)) by lia. erewrite bind_ret by done.
  rewrite Hdec, Hpe, He, Z.eqb_refl. cbn [andb negb].
  pose proof (flags_entry_wf (PGROUNDDOWN pa) flags) as Hwf. pose proof (encode_range _ Hwf) as Henc.
  destruct (write_pte s l root (PGROUNDDOWN va) pte (encode_page_entry (flags_entry (PGROUNDDOWN pa) flags)))
    as (s' & Hs' & Hr' & Ht' & Hm'); [done..|lia|].
  rewrite decode_encode in Hm' by done. erewrite bind_ret by exact Hs'.
  exists s'. split_and!; [done..|]. intros va'. rewrite Hm', Hvpn. done.
Qed.

Lemma map_page_rep s l root va pa flags :
  rep s l → tree_ok (km_mem s) root l →
  0 ≤ pa < 2 ^ 48 →
  ∃ r s' l', map_page root va pa flags s = Ret (r, s') ∧
    rep s' l' ∧ tree_step s s' root l l' ∧ (length l ≤ length l' + 3)%nat ∧
    ((r = 0 ∧ ¬ conflicts (km_mem s) root va pa ∧
        remapped s s' root va (Some (flags_entry (PGROUNDDOWN pa) flags))) ∨
     (r = -1 ∧ conflicts (km_mem s) root va pa ∧ s' = s) ∨
     (r = -1 ∧ (length l < 3)%nat ∧ mapping (km_mem s) root va = None ∧
        ∀ va', mapping (km_mem s') root va' = mapping (km_mem s) root va')).
Proof.
  intros Hr Htree Hpa.
  pose proof (PGROUNDDOWN_vpn va) as Hvpn.
  set (va0 := PGROUNDDOWN va) in *. set (pa0 := PGROUNDDOWN pa).
  assert (0 ≤ pa0 < 2 ^ 48 ∧ PGROUNDDOWN pa0 = pa0) as [Hpa0 Hpa00].
  { unfold pa0. rewrite !PGROUNDDOWN_eq. unfold PGSIZE. zlia. }
  pose proof (flags_entry_wf pa0 flags) as Hwf.
  pose proof (encode_range _ Hwf) as Henc.
  destruct (mapping (km_mem s) root va) as [e|] eqn:Hmap.
  - destruct (decide (entry_target e = pa0)) as [He|He].
    + destruct (remap_page_rep s l root va pa flags e) as (s' & Hs' & Hr' & Ht' & Hm'); [done..|].
      exists 0, s', l. split_and!; [done..|lia|]. left. split_and!; [done| |done].
      intros (e' & He' & Hne). fold pa0 in Hne. congruence.
    + destruct (mapping_pte _ _ _ _ Hmap) as (pte & Hpte & Hdec & Hpe).
      rewrite (pte_of_vpn _ _ va va0) in Hpte by done.
      pose proof (pte_pos _ _ _ _ _ Htree Hpte) as Hpos. unfold map_page. fold va0 pa0.
      erewrite bind_ret by (by apply walk_existing).
      rewrite (proj2 (Z.eqb_neq _ _)) by lia. erewrite bind_ret by done.
      rewrite Hdec, Hpe, (proj2 (Z.eqb_neq _ _)) by done. cbn [andb negb].
      exists (-1), s, l. split_and!; [done..|lia|]. right. left. split_and!; [done| |done]. by exists e.
  - unfold map_page. fold va0 pa0.
    destruct (walk_alloc s root l va0) as (r & s1 & l' & Hw & Hg & Hu & Hres); [done..|].
    erewrite bind_ret by exact Hw. destruct Hg as [Hr1 Ht1 _ Hm1 _ Hu1 Ha1].
    assert (tree_step s s1 root l l') as Hst1 by done.
    destruct Hres as [(-> & -> & Hlen)|[Hpos Hpte]].
    + exists (-1), s1, []. split_and!; [done..|]. right. right. auto.
    + rewrite (proj2 (Z.eqb_neq _ _)) by lia. erewrite bind_ret by done.
      pose proof (pte_mapping _ _ _ _ Hpte) as Hmp. rewrite Hm1, (mapping_vpn _ _ va0 va), Hmap in Hmp by done.
      destruct (pe_p (decode_page_entry (load64 (km_mem s1) r))) eqn:E; [done|]. cbn [andb].
      destruct (write_pte s1 l' root va0 r (encode_page_entry (flags_entry pa0 flags)))
        as (s' & Hs' & Hr' & Ht' & Hm'); [done..|lia|].
      rewrite decode_encode in Hm' by done.
      erewrite bind_ret by exact Hs'. exists 0, s', l'.
      split_and!; [done|done|by eapply tree_step_trans|done|]. left. split_and!; [done| |].
      * intros (e' & He' & Hne). congruence.
      * intros va'. rewrite Hm', Hvpn, Hm1. done.
Qed.

Lemma unmap_page_rep s l root va :
  rep s l → tree_ok (km_mem s) root l →
  ∃ s', unmap_page root va s = Ret ((), s') ∧ rep s' l ∧ tree_step s s' root l l ∧
    remapped s s' root va None.
Proof.
  intros Hr Htree. unfold unmap_page. pose proof (PGROUNDDOWN_vpn va) as Hvpn.
  set (va0 := PGROUNDDOWN va) in *.
  erewrite bind_ret by apply walk_pure.
  assert (∀ va', vpn va' = vpn va → mapping (km_mem s) root va' = mapping (km_mem s) root va0) as Hsame.
  { intros va' E. apply mapping_vpn. congruence. }
  destruct (pte_of (km_mem s) root va0) as [pte|] eqn:Hpte; cbn [from_option id].
  - pose proof (pte_pos _ _ _ _ _ Htree Hpte) as Hpos.
    rewrite (proj2 (Z.eqb_neq _ _)) by lia. erewrite bind_ret by done.
    pose proof (pte_mapping _ _ _ _ Hpte) as Hmp.
    destruct (pe_p _) eqn:E; cbn [negb].
    + destruct (write_pte s l root va0 pte 0) as (s' & Hs' & Hr' & Ht' & Hm'); [done..|lia|].
      exists s'. split_and!; [done..|]. intros va'. rewrite Hm', Hvpn. done.
    + exists s. split_and!; [done..|]. intros va'. case_decide as Hd; [|done].
      by rewrite Hsame, Hmp.
  - exists s. split_and!; [done..|]. intros va'. case_decide as Hd; [|done].
    rewrite Hsame by done. unfold mapping. by rewrite Hpte.
Qed.

(** *** Ranges of pages *)

(** [va] lies on one of the pages [from], ..., [to - PGSIZE]. *)
Definition on_pages (va from to : Z) : Prop := from / PGSIZE ≤ vpn va < to / PGSIZE.

#[global] Instance on_pages_dec va from to : Decision (on_pages va from to).
Proof. unfold on_pages. apply _. Defined.

Lemma on_pages_first va addr to :
  addr mod PGSIZE = 0 → 0 ≤ addr < to → to ≤ 2 ^ 48 → to mod PGSIZE = 0 →
  on_pages va addr to ↔ vpn va = vpn addr ∨ on_pages va (addr + PGSIZE) to.
Proof.
  intros. unfold on_pages. assert (vpn addr = addr / PGSIZE) as ->.
  { unfold vpn. apply Z.mod_small. unfold PGSIZE in *. zlia. }
  unfold PGSIZE in *. zlia.
Qed.

Lemma unmap_loop_rep n fuel s l root addr stop :
  rep s l → tree_ok (km_mem s) root l →
  addr mod PGSIZE = 0 → stop mod PGSIZE = 0 → 0 ≤ addr ≤ stop → stop ≤ 2 ^ 48 →
  stop = addr + PGSIZE * Z.of_nat n → (n < fuel)%nat →
  ∃ s', unmap_loop fuel root addr stop s = Ret ((), s') ∧ rep s' l ∧
    tree_step s s' root l l ∧
    ∀ va, mapping (km_mem s') root va =
      if decide (on_pages va addr stop) then None else mapping (km_mem s) root va.
Proof.
  revert fuel s addr. induction n as [|n IH]; intros fuel s addr Hr Ht Ha Hst Hle Hmax Hn Hfuel;
    (destruct fuel as [|fuel]; [lia|]); cbn [unmap_loop].
  - rewrite (proj2 (Z.ltb_ge _ _)) by lia. exists s. split_and!; [done..|].
    intros va. rewrite decide_False; [done|]. unfold on_pages. unfold PGSIZE in *. zlia.
  - rewrite (proj2 (Z.ltb_lt _ _)) by (unfold PGSIZE in *; lia).
    destruct (unmap_page_rep s l root addr) as (s1 & Hs1 & Hr1 & Ht1 & Hm1); [done..|].
    pose proof (proj1 Ht1) as Htok.
    erewrite bind_ret by exact Hs1.
    rewrite u64_small by (unfold PGSIZE in *; lia).
    destruct (IH fuel s1 (addr + PGSIZE)) as (s' & Hs' & Hr' & Ht' & Hm');
      [done..|unfold PGSIZE in *; zlia|done|unfold PGSIZE in *; lia|done|lia|lia|].
    exists s'. split_and!; [done|done|by eapply tree_step_trans|]. intros va. rewrite Hm', Hm1.
    pose proof (on_pages_first va addr stop ltac:(done) ltac:(unfold PGSIZE in *; lia)
      ltac:(done) ltac:(done)) as Hfirst.
    repeat case_decide; tauto.
Qed.

(** The frame that [map_pages] gives the page of [va] when [from] is mapped
    to [pa]. *)
Definition frame_in (va from pa : Z) : Z := pa + (vpn va - from / PGSIZE) * PGSIZE.

(** The mapping of [s'] maps the pages [from], ..., [to - PGSIZE] to the
    frames from [pa] on and is that of [s] elsewhere. *)
Definition range_mapped (s s' : kmem) (root from to pa flags : Z) : Prop :=
  ∀ va, mapping (km_mem s') root va =
    if decide (on_pages va from to) then Some (flags_entry (frame_in va from pa) flags)
    else mapping (km_mem s) root va.

(** The pages [from], ..., [to - PGSIZE] are unmapped in [s'], the mapping is
    that of [s] elsewhere. *)
Definition range_unmapped (s s' : kmem) (root from to : Z) : Prop :=
  ∀ va, mapping (km_mem s') root va =
    if decide (on_pages va from to) then None else mapping (km_mem s) root va.

Lemma range_mapped_step s s1 s' root addr to pa flags :
  addr mod PGSIZE = 0 → 0 ≤ addr < to → to ≤ 2 ^ 48 → to mod PGSIZE = 0 →
  remapped s s1 root addr (Some (flags_entry pa flags)) →
  range_mapped s1 s' root (addr + PGSIZE) to (pa + PGSIZE) flags →
  range_mapped s s' root addr to pa flags.
Proof.
  intros Ha Hlt Hmax Hto H1 H2 va. rewrite H2, H1.
  pose proof (on_pages_first va addr to Ha Hlt Hmax Hto) as Hfirst.
  assert (vpn addr = addr / PGSIZE) as Hv.
  { unfold vpn. apply Z.mod_small. unfold PGSIZE in *. zlia. }
  assert ((addr + PGSIZE) / PGSIZE = addr / PGSIZE + 1) as Hd by (unfold PGSIZE in *; zlia).
  unfold frame_in. repeat case_decide; try tauto; do 2 f_equal.
  - rewrite Hd. unfold PGSIZE. lia.
  - rewrite <- Hv. unfold PGSIZE. lia.
Qed.

Lemma map_loop_rep n fuel s l root va_start addr va_end pa_cur flags :
  rep s l → tree_ok (km_mem s) root l →
  va_start mod PGSIZE = 0 → addr mod PGSIZE = 0 → va_end mod PGSIZE = 0 →
  pa_cur mod PGSIZE = 0 → 0 ≤ va_start ≤ addr → va_end ≤ 2 ^ 48 →
  0 ≤ pa_cur → pa_cur + (va_end - addr) ≤ 2 ^ 48 →
  va_end = addr + PGSIZE * Z.of_nat n → (n < fuel)%nat →
  ∃ r s' l', map_loop fuel root va_start addr va_end pa_cur flags s = Ret (r, s') ∧
    rep s' l' ∧ tree_step s s' root l l' ∧
    ((r = 0 ∧ range_mapped s s' root addr va_end pa_cur flags) ∨
     (r = -1 ∧ ∃ f, addr ≤ f < va_end ∧ f mod PGSIZE = 0 ∧
        range_unmapped s s' root va_start f ∧
        (conflicts (km_mem s) root f (pa_cur + (f - addr)) ∨ (length l < 3 * n)%nat))).
Proof.
  revert fuel s l addr pa_cur. induction n as [|n IH];
    intros fuel s l addr pa_cur Hr Ht Hs Ha He Hp Hle Hmax Hp0 Hpmax Hn Hfuel;
    (destruct fuel as [|fuel]; [lia|]); cbn [map_loop].
  - rewrite (proj2 (Z.ltb_ge _ _)) by lia. exists 0, s, l. split_and!; [done..|].
    left. split; [done|]. intros va. rewrite decide_False; [done|].
    unfold on_pages. unfold PGSIZE in *. zlia.
  - rewrite (proj2 (Z.ltb_lt _ _)) by (unfold PGSIZE in *; lia).
    assert (PGROUNDDOWN pa_cur = pa_cur) as Hround.
    { rewrite PGROUNDDOWN_eq. unfold PGSIZE in *. zlia. }
    destruct (map_page_rep s l root addr pa_cur flags) as (r & s1 & l1 & Hm & Hr1 & Ht1 & Hl1 & Hres);
      [done..|unfold PGSIZE in *; lia|].
    pose proof (proj1 Ht1) as Htok.
    erewrite bind_ret by exact Hm.
    destruct Hres as [(-> & _ & Hmap)|Hfail].
    + cbn [Z.eqb negb]. rewrite !u64_small by (unfold PGSIZE in *; lia).
      rewrite Hround in Hmap.
      destruct (IH fuel s1 l1 (addr + PGSIZE) (pa_cur + PGSIZE))
        as (r & s' & l' & Hs' & Hr' & Ht' & Hres);
        [try done; unfold PGSIZE in *; zlia..|].
      exists r, s', l'. split_and!; [done|done|by eapply tree_step_trans|].
      destruct Hres as [[-> Hok]|(-> & f & Hf & Hfm & Hun & Hwhy)].
      * left. split; [done|]. eapply range_mapped_step; [done|unfold PGSIZE in *; lia|done|done| |done].
          done.
      * right. split; [done|]. exists f. split_and!; [unfold PGSIZE in *; lia..|done| |].
        -- intros va. rewrite Hun, Hmap. case_decide as Hd1; [done|].
           rewrite decide_False; [done|]. intros Hv. apply Hd1. unfold on_pages.
           rewrite Hv. unfold vpn. rewrite Z.mod_small; unfold PGSIZE in *; zlia.
        -- destruct Hwhy as [(e & Hem & Hne)|?]; [left|right; lia].
           exists e. rewrite Hmap, decide_False in Hem.
           ++ split; [done|]. replace (pa_cur + (f - addr))
                with (pa_cur + PGSIZE + (f - (addr + PGSIZE))) by lia. done.
           ++ unfold vpn. rewrite !Z.mod_small; unfold PGSIZE in *; zlia.
    + assert (r = -1 ∧ (conflicts (km_mem s) root addr pa_cur ∨ (length l < 3)%nat) ∧
        ∀ va, mapping (km_mem s1) root va = mapping (km_mem s) root va) as (-> & Hwhy & Hsame).
      { destruct Hfail as [(-> & ? & ->)|(-> & ? & _ & ?)]; auto. }
      cbn [Z.eqb negb].
      destruct (unmap_loop_rep (Z.to_nat ((addr - va_start) / PGSIZE))
        (range_fuel va_start addr) s1 l1 root va_start addr)
        as (s' & Hs' & Hr' & Ht' & Hm'); [done..|lia| |unfold PGSIZE in *; zlia| |].
      { unfold PGSIZE in *. lia. }
      { unfold range_fuel, PGSIZE in *. zlia. }
      erewrite bind_ret by exact Hs'. exists (-1), s', l1.
      split_and!; [done|done|by eapply tree_step_trans|]. right.
      split; [done|]. exists addr. split_and!; [lia|unfold PGSIZE in *; lia|done| |].
      * intros va. rewrite Hm', Hsame. done.
      * destruct Hwhy as [?|?]; [left|right; lia].
        by replace (pa_cur + (addr - addr)) with pa_cur by lia.
Qed.

(** A range of pages that are mapped to themselves gets new flags. *)
Lemma remap_loop_rep n flags : ∀ fuel s l root start addr stop,
  rep s l → tree_ok (km_mem s) root l → addr mod PGSIZE = 0 → 0 ≤ addr →
  stop = addr + PGSIZE * Z.of_nat n → stop ≤ 2 ^ 48 → (n < fuel)%nat →
  (∀ va, on_pages va addr stop → ∃ f, mapping (km_mem s) root va = Some (flags_entry (vpn va * PGSIZE) f)) →
  ∃ s', map_loop fuel root start addr stop addr flags s = Ret (0, s') ∧ rep s' l ∧
    tree_step s s' root l l ∧ range_mapped s s' root addr stop addr flags.
Proof.
  induction n as [|n IH]; intros [|fuel] s l root start addr stop Hr Ht Ha H0 Hn Hmax Hf Hid; try lia;
    cbn [map_loop].
  - rewrite (proj2 (Z.ltb_ge _ _)) by lia. exists s. split_and!; [done..|].
    intros va. rewrite decide_False; [done|]. unfold on_pages, PGSIZE in *. zlia.
  - rewrite (proj2 (Z.ltb_lt _ _)) by (unfold PGSIZE in *; lia).
    assert (vpn addr = addr / PGSIZE) as Hv by (unfold vpn; apply Z.mod_small; unfold PGSIZE in *; zlia).
    assert (PGROUNDDOWN addr = addr) as Hround by (rewrite PGROUNDDOWN_eq; unfold PGSIZE in *; zlia).
    destruct (Hid addr) as [f Hm]; [unfold on_pages; rewrite Hv; unfold PGSIZE in *; zlia|].
    destruct (remap_page_rep s l root addr addr flags _ Hr Ht Hm) as (s1 & E1 & Hr1 & Ht1 & Hm1).
    { rewrite Hv. replace (addr / PGSIZE * PGSIZE) with addr by (unfold PGSIZE in *; zlia).
      apply entry_target_flags. unfold PGSIZE in *. lia. }
    rewrite (bind_ret _ _ _ _ _ E1), Hround in *. cbn [Z.eqb negb].
    rewrite !u64_small by (unfold PGSIZE in *; lia).
    destruct (IH fuel s1 l root start (addr + PGSIZE) stop) as (s' & E & Hr' & Ht' & Hm');
      [done|apply Ht1|unfold PGSIZE in *; zlia|unfold PGSIZE in *; lia|unfold PGSIZE in *; lia|done|lia| |].
    { intros va Hon. rewrite Hm1. case_decide as Hva; [|apply Hid; unfold on_pages, PGSIZE in *; zlia].
      exists flags. rewrite Hva, Hv. do 2 f_equal. unfold PGSIZE in *. zlia. }
    exists s'. split_and!; [done|done|by eapply tree_step_trans|].
    eapply range_mapped_step; [done|unfold PGSIZE in *; lia|done|unfold PGSIZE in *; zlia|exact Hm1|exact Hm'].
Qed.

(** The loops that map pages to themselves, with enough free pages for the
    tables. *)
Lemma identity_loop_rep flags mk n : ∀ fuel s l root addr stop,
  (∀ a, mk a = flags_entry a flags) → rep s l → tree_ok (km_mem s) root l →
  addr mod PGSIZE = 0 → 0 ≤ addr → stop = addr + PGSIZE * Z.of_nat n → stop ≤ 2 ^ 48 →
  (n < fuel)%nat → (3 * n ≤ length l)%nat →
  ∃ s' l', identity_loop fuel mk root addr stop s = Ret ((), s') ∧ rep s' l' ∧
    tree_step s s' root l l' ∧ (length l ≤ length l' + 3 * n)%nat ∧ (∃ used, l = used ++ l') ∧
    range_mapped s s' root addr stop addr flags.
Proof.
  induction n as [|n IH]; intros [|fuel] s l root addr stop Hmk Hr Ht Ha H0 Hn Hmax Hf Hl; try lia;
    cbn [identity_loop].
  - rewrite (proj2 (Z.ltb_ge _ _)) by lia. exists s, l. split_and!; [done..|lia|by exists []|].
    intros va. rewrite decide_False; [done|]. unfold on_pages. unfold PGSIZE in *. zlia.
  - rewrite (proj2 (Z.ltb_lt _ _)) by (unfold PGSIZE in *; lia).
    destruct (walk_alloc s root l addr) as (r & s1 & l1 & Hw & Hg & Hu & Hres); [done..|].
    erewrite bind_ret by exact Hw. destruct Hg as [Hr1 Ht1 [used1 ->] Hm1 _ Hu1 Ha1].
    assert (tree_step s s1 root (used1 ++ l1) l1) as Hst1 by done.
    destruct Hres as [(_ & _ & Hlen)|[Hpos Hpte]]; [lia|].
    rewrite (proj2 (Z.eqb_neq _ _)) by lia. rewrite Hmk.
    pose proof (flags_entry_wf addr flags) as Hwf. pose proof (encode_range _ Hwf) as Henc.
    destruct (write_pte s1 l1 root addr r (encode_page_entry (flags_entry addr flags)))
      as (s2 & Hs2 & Hr2 & Ht2 & Hm2); [done..|lia|].
    rewrite decode_encode in Hm2 by done. erewrite bind_ret by exact Hs2.
    rewrite u64_small by (unfold PGSIZE in *; lia).
    destruct (IH fuel s2 l1 root (addr + PGSIZE) stop) as (s' & l' & Hs' & Hr' & Ht' & Hl' & [used ->] & Hmap);
      [done|done|apply Ht2|unfold PGSIZE in *; zlia|unfold PGSIZE in *; lia|unfold PGSIZE in *; lia|done|lia|lia|].
    exists s', l'. split; [done|]. split; [done|].
    split; [exact (tree_step_trans _ _ _ _ _ _ _ Hst1 (tree_step_trans _ _ _ _ _ _ _ Ht2 Ht'))|].
    split; [lia|]. split; [exists (used1 ++ used); by rewrite app_assoc|].
    eapply range_mapped_step; [done|unfold PGSIZE in *; lia|done|unfold PGSIZE in *; zlia| |exact Hmap].
    intros va. rewrite Hm2, Hm1. done.
Qed.

Lemma map_low_memory_rep s l root start size n :
  rep s l → tree_ok (km_mem s) root l → start mod PGSIZE = 0 → 0 ≤ start →
  size = PGSIZE * Z.of_nat n → start + size ≤ 2 ^ 48 → (3 * n ≤ length l)%nat →
  ∃ s' l', map_low_memory root start size s = Ret ((), s') ∧ rep s' l' ∧
    tree_step s s' root l l' ∧ (length l ≤ length l' + 3 * n)%nat ∧ (∃ used, l = used ++ l') ∧
    range_mapped s s' root start (start + size) start PTE_W.
Proof.
  intros Hr Ht Hs H0 Hsize Hmax Hl. unfold map_low_memory. rewrite u64_small by (unfold PGSIZE in *; lia).
  apply (identity_loop_rep PTE_W _ n); try done; try lia.
  unfold range_fuel, PGSIZE in *. zlia.
Qed.

Lemma map_apic_region_rep s l root start size n :
  rep s l → tree_ok (km_mem s) root l → start mod PGSIZE = 0 → 0 ≤ start →
  size = PGSIZE * Z.of_nat n → start + size ≤ 2 ^ 48 → (3 * n ≤ length l)%nat →
  ∃ s' l', map_apic_region root start size s = Ret ((), s') ∧ rep s' l' ∧
    tree_step s s' root l l' ∧ (length l ≤ length l' + 3 * n)%nat ∧ (∃ used, l = used ++ l') ∧
    range_mapped s s' root start (start + size) start (Z.lor PTE_W PTE_PCD).
Proof.
  intros Hr Ht Hs H0 Hsize Hmax Hl. unfold map_apic_region. rewrite u64_small by (unfold PGSIZE in *; lia).
  apply (identity_loop_rep (Z.lor PTE_W PTE_PCD) _ n); try done; try lia.
  unfold range_fuel, PGSIZE in *. zlia.
Qed.

(** The translation of [va]: the frame of its entry and the page offset. *)
Definition translate (m : mem) (root va : Z) : Z :=
  match mapping m root va with
  | Some e => Z.lor (entry_target e) (Z.land va (PGSIZE - 1))
  | None => 0
  end.

Lemma va_to_pa_rep s l root va :
  tree_ok (km_mem s) root l → va_to_pa root va s = Ret (translate (km_mem s) root va, s).
Proof.
  intros Htree. unfold va_to_pa, translate. erewrite bind_ret by apply walk_pure.
  destruct (pte_of (km_mem s) root va) as [pte|] eqn:Hpte; cbn [from_option id].
  - pose proof (pte_pos _ _ _ _ _ Htree Hpte). rewrite (proj2 (Z.eqb_neq _ _)) by lia.
    erewrite bind_ret by done. rewrite (pte_mapping _ _ _ _ Hpte).
    by destruct (pe_p _).
  - unfold mapping. by rewrite Hpte.
Qed.

(** A frame address and a page offset do not overlap. *)
Lemma frame_offset pa va :
  0 ≤ pa → Z.lor (PGROUNDDOWN pa) (Z.land va (PGSIZE - 1)) = PGROUNDDOWN pa + va mod PGSIZE.
Proof.
  intros. rewrite PGROUNDDOWN_eq. change (PGSIZE - 1) with (2 ^ 12 - 1).
  rewrite land_mask by lia. change (2 ^ 12) with PGSIZE. rewrite Z.lor_comm.
  replace (pa / PGSIZE * PGSIZE) with (Z.shiftl (pa / PGSIZE) 12)
    by (by rewrite Z.shiftl_mul_pow2).
  rewrite lor_disjoint_add by (try apply Z.mod_pos_bound; lia).
  rewrite Z.shiftl_mul_pow2 by lia. change (2 ^ 12) with PGSIZE. lia.
Qed.
End operations.

(** ** Properties *)

Section paging_properties.
Context {LK : Linker} {WS : WideShift}.

(** Encoding and decoding of page-table entries are inverse to each
    other on entries with clear [ign2] and [xd] and 36-bit frame numbers, the
    only ones the kernel stores, and on raw entries below 2^48. *)
Theorem page_entry_roundtrip :
  (∀ e, entry_wf e → decode_page_entry (encode_page_entry e) = e) ∧
  (∀ raw, 0 ≤ raw < 2 ^ 48 → encode_page_entry (decode_page_entry raw) = raw).
Proof. split; [apply decode_encode|apply encode_decode]. Qed.

(** C4.  [walk] with allocation, on a page-table tree that shares no page with
    the free list: it returns; the address it returns is that of the
    last-level entry of [va], or 0 when fewer than three free pages were left;
    the tables added keep the tree well formed, change no existing mapping,
    and no byte outside the tables and the free pages is written.  A second
    walk finds the same entry without changing anything. *)
Theorem walk_spec s l root va (Hf : free_list s l) (Ht : tree_ok (km_mem s) root l) :
  ∃ r s' l', walk root va true s = Ret (r, s') ∧
    tree_grows free_list s s' root l l' ∧
    ((r = 0 ∧ (length l < 3)%nat) ∨
     (r ≠ 0 ∧ pte_of (km_mem s') root va = Some r ∧
      ∀ alloc, walk root va alloc s' = Ret (r, s'))).
Proof.
  destruct (walk_alloc s root l va Hf Ht) as (r & s' & l' & Hw & Hg & _ & Hres).
  exists r, s', l'. split_and!; [done..|].
  destruct Hres as [(? & _ & ?)|[? ?]]; [by left|right].
  split_and!; [lia|done|]. intros alloc. by apply walk_existing.
Qed.

(** C5.  [map_page] refines an update of the page map.  Without conflict and
    with three free pages it returns 0 and maps exactly the page of [va], to
    the frame of [pa] with the given flags; if the page is mapped to another
    frame it returns -1 and changes nothing; if it runs out of memory it
    returns -1 and leaves every mapping as it was. *)
Theorem map_page_spec s l root va pa flags (Hf : free_list s l)
    (Ht : tree_ok (km_mem s) root l) (Hpa : 0 ≤ pa < 2 ^ 48) :
  ∃ r s' l', map_page root va pa flags s = Ret (r, s') ∧
    free_list s' l' ∧ tree_ok (km_mem s') root l' ∧
    ((r = 0 ∧ ¬ conflicts (km_mem s) root va pa ∧
        remapped s s' root va (Some (flags_entry (PGROUNDDOWN pa) flags))) ∨
     (r = -1 ∧ conflicts (km_mem s) root va pa ∧ s' = s) ∨
     (r = -1 ∧ (length l < 3)%nat ∧
        ∀ va', mapping (km_mem s') root va' = mapping (km_mem s) root va')).
Proof.
  destruct (map_page_rep s l root va pa flags Hf Ht Hpa)
    as (r & s' & l' & ? & ? & [? _] & _ & Hres).
  exists r, s', l'. split_and!; [done..|]. destruct Hres as [?|[?|(? & ? & _ & ?)]]; auto.
Qed.

(** Round trip: after a successful [map_page], [va_to_pa] translates
    every address of the page of [va] to the frame of [pa] plus the offset in
    the page, and every other address as before. *)
Theorem map_page_va_to_pa s l root va pa flags s' (Hf : free_list s l)
    (Ht : tree_ok (km_mem s) root l) (Hpa : 0 ≤ pa < 2 ^ 48)
    (Hmap : map_page root va pa flags s = Ret (0, s')) (va' : Z) :
  va_to_pa root va' s' =
  if decide (vpn va' = vpn va) then Ret (PGROUNDDOWN pa + va' mod PGSIZE, s')
  else Ret (translate (km_mem s) root va', s').
Proof.
  destruct (map_page_rep s l root va pa flags Hf Ht Hpa)
    as (r & s1 & l' & Hm & Hr & [Ht' _] & _ & Hres).
  rewrite Hmap in Hm. injection Hm as <- <-.
  destruct Hres as [(_ & _ & Hre)|[(? & _)|(? & _)]]; [|done..].
  rewrite (va_to_pa_rep s' l') by done. unfold translate. rewrite Hre.
  case_decide; [|done].
  assert (0 ≤ PGROUNDDOWN pa < 2 ^ 48 ∧ PGROUNDDOWN (PGROUNDDOWN pa) = PGROUNDDOWN pa) as [? ?].
  { rewrite !PGROUNDDOWN_eq. unfold PGSIZE. zlia. }
  rewrite entry_target_flags, frame_offset by lia. by do 2 f_equal; lia.
Qed.

(** C6.  [unmap_page] removes exactly the page of [va] from the page map:
    afterwards its addresses translate to 0 and all others as before; the
    tables and the free list stay well formed and no page is freed. *)
Theorem unmap_page_spec s l root va (Hf : free_list s l) (Ht : tree_ok (km_mem s) root l) :
  ∃ s', unmap_page root va s = Ret ((), s') ∧ free_list s' l ∧
    tree_ok (km_mem s') root l ∧
    ∀ va', va_to_pa root va' s' =
      Ret (if decide (vpn va' = vpn va) then 0 else translate (km_mem s) root va', s').
Proof.
  destruct (unmap_page_rep s l root va Hf Ht) as (s' & ? & ? & [? _] & Hre).
  exists s'. split_and!; [done..|]. intros va'. rewrite (va_to_pa_rep s' l) by done.
  unfold translate. rewrite Hre. by case_decide.
Qed.

Lemma map_pages_rep s l root va pa size flags
    (first := PGROUNDDOWN va) (stop := PGROUNDUP (u64 (va + size)))
    (Hf : free_list s l) (Ht : tree_ok (km_mem s) root l)
    (Hva : 0 ≤ va) (Hsize : 0 ≤ size) (Hpa : 0 ≤ pa)
    (Hva' : va + size + PGSIZE ≤ 2 ^ 48) (Hpa' : pa + size + 2 * PGSIZE ≤ 2 ^ 48) :
  ∃ r s' l', map_pages root va pa size flags s = Ret (r, s') ∧
    free_list s' l' ∧ tree_step s s' root l l' ∧
    ((r = 0 ∧ range_mapped s s' root first stop (PGROUNDDOWN pa) flags) ∨
     (r = -1 ∧ ∃ f, first ≤ f < stop ∧ range_unmapped s s' root first f ∧
        (conflicts (km_mem s) root f (PGROUNDDOWN pa + (f - first)) ∨
         Z.of_nat (length l) < 3 * ((stop - first) / PGSIZE)))).
Proof.
  unfold map_pages. fold first stop.
  assert (stop = (va + size + PGSIZE - 1) / PGSIZE * PGSIZE) as Hstop.
  { subst stop. rewrite u64_small by (unfold PGSIZE in *; lia).
    apply PGROUNDUP_eq; unfold PGSIZE in *; lia. }
  assert (first = va / PGSIZE * PGSIZE) as Hfirst by apply PGROUNDDOWN_eq.
  pose proof (PGROUNDDOWN_eq pa) as Hround.
  destruct (map_loop_rep (Z.to_nat ((stop - first) / PGSIZE)) (range_fuel first stop)
    s l root first first stop (PGROUNDDOWN pa) flags)
    as (r & s' & l' & Hm & ? & ? & Hres);
    [try done; clearbody first stop; unfold range_fuel, PGSIZE in *; zlia..|].
  exists r, s', l'. split_and!; [done..|].
  destruct Hres as [?|(? & f & ? & ? & ? & Hwhy)]; [by left|right].
  split; [done|]. exists f. split; [done|]. split; [done|].
  destruct Hwhy as [?|?]; [by left|right; lia].
Qed.

(** C7.  [map_pages] on a range below 2^48: it terminates; it either maps
    every page of the range to consecutive frames from [pa] on and changes
    nothing else, or returns -1 after a conflict or for lack of memory at some
    page [f].  In the second case the pages before [f] end up unmapped,
    including those that were mapped before the call. *)
Theorem map_pages_spec s l root va pa size flags
    (first := PGROUNDDOWN va) (stop := PGROUNDUP (u64 (va + size)))
    (Hf : free_list s l) (Ht : tree_ok (km_mem s) root l)
    (Hva : 0 ≤ va) (Hsize : 0 ≤ size) (Hpa : 0 ≤ pa)
    (Hva' : va + size + PGSIZE ≤ 2 ^ 48) (Hpa' : pa + size + 2 * PGSIZE ≤ 2 ^ 48) :
  ∃ r s' l', map_pages root va pa size flags s = Ret (r, s') ∧
    free_list s' l' ∧ tree_ok (km_mem s') root l' ∧
    ((r = 0 ∧ range_mapped s s' root first stop (PGROUNDDOWN pa) flags) ∨
     (r = -1 ∧ ∃ f, first ≤ f < stop ∧ range_unmapped s s' root first f ∧
        (conflicts (km_mem s) root f (PGROUNDDOWN pa + (f - first)) ∨
         Z.of_nat (length l) < 3 * ((stop - first) / PGSIZE)))).
Proof.
  destruct (map_pages_rep s l root va pa size flags Hf Ht Hva Hsize Hpa Hva' Hpa')
    as (r & s' & l' & ? & ? & [? _] & ?).
  by exists r, s', l'.
Qed.
End paging_properties.

(** ** Witnesses *)

(** A root table whose page is all zero and that is not on the free list is
    a well-formed tree. *)
Lemma empty_root_tables m root path t :
  (∀ i, index_ok i → load64 m (root + 8 * i) = 0) →
  path_ok path → table_at m root path = Some t → path = [] ∧ t = root.
Proof.
  intros Hz. destruct path as [|i path]; intros [Hp _]; [by intros [= <-]|].
  apply Forall_cons in Hp as [Hi _]. simpl. unfold child. rewrite Hz by done. done.
Qed.

Lemma empty_root_ok m root l :
  0 < root < 2 ^ 48 → root mod PGSIZE = 0 → root ∉ l →
  (∀ i, index_ok i → load64 m (root + 8 * i) = 0) → tree_ok m root l.
Proof.
  intros Hr Hm Hnin Hz.
  pose proof (λ path t, empty_root_tables m root path t Hz) as Hall.
  split.
  - intros path t Hp [_ ->]%Hall; done.
  - intros path path' t Hp Hp' [-> _]%Hall [-> _]%Hall; done.
  - intros path t Hp [_ ->]%Hall; done.
Qed.

(** Four free pages and an empty root table at 0x10000. *)
Definition demo_pages : list Z := [0x500000; 0x400000; 0x300000; 0x200000].
Definition demo_paging : kmem :=
  Kmem (<[0x500002 := 0x40]> (<[0x400002 := 0x30]> (<[0x300002 := 0x20]> ∅))) 0x500000.
Definition demo_root : Z := 0x10000.

Lemma demo_paging_free : free_list (LK := demo_linker) demo_paging demo_pages.
Proof.
  split_and!; [vm_compute; done|by apply (bool_decide_unpack _)|].
  repeat constructor; vm_compute; done.
Qed.

Lemma demo_paging_tree : tree_ok (km_mem demo_paging) demo_root demo_pages.
Proof.
  apply empty_root_ok; [vm_compute; done..|by apply (bool_decide_unpack _)|].
  intros i Hi. apply load_zeros. intros b Hb. unfold byte_at, demo_paging. simpl.
  unfold index_ok, demo_root in *. rewrite !lookup_insert_ne by lia. done.
Qed.

Lemma page_entry_roundtrip_witness :
  let _ := x86_shl in
  decode_page_entry (encode_page_entry (flags_entry 0x12345000 PTE_W)) =
    flags_entry 0x12345000 PTE_W.
Proof.
  intros ?. apply (proj1 (page_entry_roundtrip (WS := x86_shl))). vm_compute. done.
Defined.

Lemma walk_spec_witness : ∃ r s',
  walk (WS := x86_shl) demo_root 0x8000201000 true demo_paging = Ret (r, s') ∧
  r = 0x300008.
Proof.
  destruct (walk_spec (LK := demo_linker) (WS := x86_shl) demo_paging demo_pages demo_root
    0x8000201000 demo_paging_free demo_paging_tree) as (r & s' & l' & Hw & _ & _).
  exists r, s'. split; [exact Hw|].
  apply (f_equal (λ o, match o with Ret (r, _) => r | _ => 0 end)) in Hw.
  vm_compute in Hw. congruence.
Defined.

Lemma map_page_spec_witness : ∃ s',
  map_page (WS := x86_shl) demo_root 0x401234 0x5000000 PTE_W demo_paging
    = Ret (0, s') ∧
  remapped demo_paging s' demo_root 0x401234 (Some (flags_entry 0x5000000 PTE_W)).
Proof.
  destruct (map_page_spec (LK := demo_linker) (WS := x86_shl) demo_paging demo_pages demo_root
    0x401234 0x5000000 PTE_W demo_paging_free demo_paging_tree)
    as (r & s' & l' & Hm & _ & _ & [(-> & _ & Hre)|[(-> & (e & He & _) & _)|(_ & Hlen & _)]]).
  - lia.
  - exists s'. split; [exact Hm|exact Hre].
  - vm_compute in He. discriminate.
  - simpl in Hlen. lia.
Defined.

(** The state after mapping the page of 0x401234 to 0x5000000. *)
Definition demo_mapped : kmem :=
  match map_page (WS := x86_shl) demo_root 0x401234 0x5000000 PTE_W
    demo_paging with
  | Ret (_, s) => s
  | _ => demo_paging
  end.

Lemma demo_mapped_eq :
  map_page (WS := x86_shl) demo_root 0x401234 0x5000000 PTE_W demo_paging = Ret (0, demo_mapped).
Proof. vm_cast_no_check (@eq_refl (outcome (Z * kmem)) (Ret (0, demo_mapped))). Qed.

Lemma map_page_va_to_pa_witness :
  va_to_pa (WS := x86_shl) demo_root 0x401010 demo_mapped = Ret (0x5000010, demo_mapped).
Proof.
  assert (vpn 0x401010 = vpn 0x401234) as Hvpn by reflexivity.
  assert (PGROUNDDOWN 0x5000000 + 0x401010 mod PGSIZE = 0x5000010) as Hpa by reflexivity.
  pose proof (map_page_va_to_pa (LK := demo_linker) (WS := x86_shl) demo_paging demo_pages
    demo_root 0x401234 0x5000000 PTE_W demo_mapped demo_paging_free demo_paging_tree
    ltac:(lia) demo_mapped_eq 0x401010) as Hva.
  rewrite decide_True, Hpa in Hva by exact Hvpn. exact Hva.
Defined.

Lemma unmap_page_spec_witness : ∃ s',
  unmap_page (WS := x86_shl) demo_root 0x401000 demo_paging = Ret ((), s') ∧
  va_to_pa (WS := x86_shl) demo_root 0x401010 s' = Ret (0, s').
Proof.
  destruct (unmap_page_spec (LK := demo_linker) (WS := x86_shl) demo_paging demo_pages demo_root
    0x401000 demo_paging_free demo_paging_tree) as (s' & Hu & _ & _ & Hva).
  exists s'. split; [exact Hu|]. rewrite Hva. reflexivity.
Defined.

Lemma map_pages_spec_witness : ∃ r s',
  map_pages (WS := x86_shl) demo_root 0x400800 0x5000000 0x1000 PTE_W
    demo_paging = Ret (r, s').
Proof.
  destruct (map_pages_spec (LK := demo_linker) (WS := x86_shl) demo_paging demo_pages demo_root
    0x400800 0x5000000 0x1000 PTE_W demo_paging_free demo_paging_tree) as (r & s' & l' & Hm & _);
    [unfold PGSIZE; lia..|]. exists r, s'. exact Hm.
Defined.

(** ** Two defects *)

(** Setting the execute-disable bit corrupts the entry on x86: the 32-bit
    shift by 63 sets bits 31 to 63, among them 17 bits of the frame number. *)
Theorem encode_xd_corrupts :
  let e := PageEntry true true false false false false false false 0 0x12345 0 true in
  pe_address (decode_page_entry (encode_page_entry (WS := x86_shl) e)) = 0xFFFF92345.
Proof. vm_compute. reflexivity. Qed.

(** The rollback of [map_pages] removes a mapping the call did not create:
    two pages are mapped by separate calls; a [map_pages] over both that
    conflicts on the second one fails and leaves the first one unmapped. *)
Theorem map_pages_rollback_unmaps :
  let map va pa := map_page (WS := x86_shl) demo_root va pa PTE_W in
  let run :=
    let* r1 := map 0x401000 0x5000000 in
    let* r2 := map 0x402000 0x7000000 in
    let* before := va_to_pa (WS := x86_shl) demo_root 0x401000 in
    let* r3 := map_pages (WS := x86_shl) demo_root 0x401000 0x5000000
      0x2000 PTE_W in
    let* after := va_to_pa (WS := x86_shl) demo_root 0x401000 in
    ret (r1, r2, before, r3, after) in
  match run demo_paging with
  | Ret (x, _) => x = (0, 0, 0x5000000, -1, 0)
  | _ => False
  end.
Proof. vm_compute. reflexivity. Qed.
