(* ===== verification/Ring.v ===== *)
(** * Circular doubly linked lists, as next and previous functions

    The list of [kernel/list/list.c] and the thread and process lists of
    [kernel/sched] are circular and doubly linked.  This file holds what they
    share: a ring is described by the functions that give the successor and
    the predecessor of a node, whatever memory they are read from. *)

From S2P Require Import Prelude.

(** [b] follows [a]. *)
Definition linked (nx pv : Z → Z) (a b : Z) : Prop := nx a = b ∧ pv b = a.

(** The nodes [l] lead from [a] to [z]. *)
Fixpoint segment (nx pv : Z → Z) (a : Z) (l : list Z) (z : Z) : Prop :=
  match l with
  | [] => linked nx pv a z
  | b :: l' => linked nx pv a b ∧ segment nx pv b l' z
  end.

(** The nodes [l], in order, form a ring. *)
Definition ring (nx pv : Z → Z) (l : list Z) : Prop :=
  match l with
  | [] => True
  | h :: l' => segment nx pv h l' h
  end.

(** The last node of the non-empty ring [h :: l]. *)
Definition last_of (h : Z) (l : list Z) : Z := default h (last l).

Lemma last_of_cons h x l : last_of h (x :: l) = last_of x l.
Proof. unfold last_of. rewrite last_cons. by destruct (last l). Qed.

Lemma last_of_snoc h l x : last_of h (l ++ [x]) = x.
Proof. unfold last_of. by rewrite last_snoc. Qed.

Lemma last_of_elem h l : last_of h l ∈ h :: l.
Proof.
  unfold last_of. destruct (last l) as [x|] eqn:E; simpl; [|left].
  right. by apply last_Some_elem_of.
Qed.

Section ring.
Context (nx pv : Z → Z).

Lemma segment_app a l1 b l2 z :
  segment nx pv a (l1 ++ b :: l2) z ↔ segment nx pv a l1 b ∧ segment nx pv b l2 z.
Proof.
  revert a. induction l1 as [|c l1 IH]; intros a; simpl; [done|].
  rewrite IH. tauto.
Qed.

(** A ring may be entered at any of its nodes. *)
Lemma ring_rotate l1 l2 : ring nx pv (l1 ++ l2) → ring nx pv (l2 ++ l1).
Proof.
  destruct l1 as [|a l1], l2 as [|b l2]; rewrite ?app_nil_r; try done.
  simpl. rewrite !segment_app. tauto.
Qed.

Lemma segment_first a l z : segment nx pv a l z → nx a = default z (head l).
Proof. destruct l; [by intros [? _]|by intros [[? _] _]]. Qed.

Lemma segment_last a l z : segment nx pv a l z → pv z = last_of a l.
Proof.
  revert a. induction l as [|b l IH]; intros a; [by intros [_ ?]|].
  intros [_ Hs]. rewrite last_of_cons. by apply IH.
Qed.

Lemma ring_next h l : ring nx pv (h :: l) → nx h = default h (head l).
Proof. apply segment_first. Qed.

Lemma ring_prev h l : ring nx pv (h :: l) → pv h = last_of h l.
Proof. apply segment_last. Qed.

Lemma ring_single h : ring nx pv [h] ↔ nx h = h ∧ pv h = h.
Proof. done. Qed.

(** In a ring only the single node is its own successor. *)
Lemma ring_next_self h l : ring nx pv (h :: l) → NoDup (h :: l) → nx h = h ↔ l = [].
Proof.
  intros Hr [Hnin _]%NoDup_cons. rewrite (ring_next h l Hr).
  destruct l as [|x l]; simpl; [done|]. split; [|done]. intros ->. exfalso. apply Hnin. left.
Qed.
End ring.

Lemma segment_update nx pv nx' pv' a l z :
  (∀ c, c ∈ a :: l → nx' c = nx c) → (∀ c, c ∈ l ++ [z] → pv' c = pv c) →
  segment nx pv a l z → segment nx' pv' a l z.
Proof.
  revert a. induction l as [|b l IH]; intros a Hn Hp; simpl.
  - intros [? ?]. split; [rewrite Hn by left|rewrite Hp by left]; done.
  - intros [[? ?] Hs]. split; [split; [rewrite Hn by left|rewrite Hp by left]; done|].
    apply IH; [..|done]; intros c Hc; [apply Hn|apply Hp]; by right.
Qed.

Lemma ring_update nx pv nx' pv' l :
  (∀ c, c ∈ l → nx' c = nx c) → (∀ c, c ∈ l → pv' c = pv c) →
  ring nx pv l → ring nx' pv' l.
Proof.
  destruct l as [|h l]; [done|]. intros Hn Hp. apply segment_update; [done|].
  intros c. rewrite elem_of_app, list_elem_of_singleton.
  intros [?| ->]; apply Hp; [by right|by left].
Qed.

(** Redirecting the end of a segment to another node. *)
Lemma segment_redirect nx pv nx' pv' a l e z :
  NoDup (a :: l) → segment nx pv a l e → linked nx' pv' (last_of a l) z →
  (∀ c, c ∈ a :: l → c ≠ last_of a l → nx' c = nx c) →
  (∀ c, c ∈ l → pv' c = pv c) →
  segment nx' pv' a l z.
Proof.
  intros Hnd Hs Hl Hnx Hpv. destruct l as [|x l _] using rev_ind; [done|].
  rewrite last_of_snoc in *. rewrite segment_app in Hs |- *.
  destruct Hs as [Hs _]. split; [|done].
  rewrite app_comm_cons in Hnd. apply NoDup_app in Hnd as (_ & Hd & _).
  eapply segment_update; [..|exact Hs]; [|intros c Hc; by apply Hpv].
  intros c Hc. apply Hnx.
  - rewrite app_comm_cons, elem_of_app. by left.
  - intros ->. eapply Hd; [done|left].
Qed.

(** Linking a new node in front of [h]: between the last node and [h]. *)
Lemma ring_insert nx pv nx' pv' h l new :
  ring nx pv (h :: l) → NoDup (h :: l) →
  linked nx' pv' (last_of h l) new → linked nx' pv' new h →
  (∀ c, c ∈ h :: l → c ≠ last_of h l → nx' c = nx c) →
  (∀ c, c ∈ l → pv' c = pv c) →
  ring nx' pv' (h :: l ++ [new]).
Proof.
  intros Hr Hnd H1 H2 Hnx Hpv. simpl. rewrite segment_app. split; [|done].
  by eapply segment_redirect.
Qed.

(** Linking a new node after [h]. *)
Lemma ring_insert_after nx pv nx' pv' h l new :
  ring nx pv (h :: l) → NoDup (h :: l) →
  linked nx' pv' h new → linked nx' pv' new (default h (head l)) →
  (∀ c, c ∈ l → nx' c = nx c) →
  (∀ c, c ∈ h :: l → c ≠ default h (head l) → pv' c = pv c) →
  ring nx' pv' (h :: new :: l).
Proof.
  intros Hr Hnd H1 H2 Hnx Hpv. split; [done|].
  destruct l as [|f l]; simpl in *; [done|]. split; [done|].
  apply NoDup_cons in Hnd as [Hh [Hf _]%NoDup_cons].
  eapply segment_update; [done| |apply Hr].
  intros c. rewrite elem_of_app, list_elem_of_singleton. intros Hc. apply Hpv.
  - rewrite !elem_of_cons. tauto.
  - intros ->. destruct Hc as [?| ->]; [done|]. apply Hh. left.
Qed.

(** Linking a new node between the segments [l1] and [l2]. *)
Lemma ring_insert_at nx pv nx' pv' h l1 new l2 :
  ring nx pv (h :: l1 ++ l2) → NoDup (h :: l1 ++ l2) →
  linked nx' pv' (last_of h l1) new → linked nx' pv' new (default h (head l2)) →
  (∀ c, c ∈ h :: l1 ++ l2 → c ≠ last_of h l1 → nx' c = nx c) →
  (∀ c, c ∈ h :: l1 ++ l2 → c ≠ default h (head l2) → pv' c = pv c) →
  ring nx' pv' (h :: l1 ++ new :: l2).
Proof.
  intros Hr Hnd H1 H2 Hnx Hpv. destruct l2 as [|b l2]; simpl in *.
  - rewrite app_nil_r in *. eapply (ring_insert nx pv); [done|done|done|done|done|].
    intros c Hc. apply Hpv; [by right|]. intros ->. by apply NoDup_cons in Hnd as [? _].
  - apply segment_app in Hr as [S1 S2]. rewrite app_comm_cons in Hnd. apply NoDup_app in Hnd as (Hnd1 & Hd & Hnd2).
    rewrite segment_app. split; [|split; [done|]].
    + eapply segment_redirect; [exact Hnd1|exact S1|exact H1|..].
      * intros c Hc. apply Hnx. rewrite app_comm_cons, elem_of_app. by left.
      * intros c Hc. apply Hpv; [rewrite !elem_of_cons, elem_of_app; tauto|].
        intros ->. apply (Hd b); [by right|left].
    + apply NoDup_cons in Hnd2 as [Hb _]. eapply segment_update; [..|exact S2]; intros c.
      * intros Hc. apply Hnx; [rewrite elem_of_cons, elem_of_app; tauto|].
        intros ->. apply (Hd (last_of h l1)); [apply last_of_elem|done].
      * rewrite elem_of_app, list_elem_of_singleton. intros Hc.
        apply Hpv; [rewrite !elem_of_cons, elem_of_app, elem_of_cons; tauto|].
        intros ->. destruct Hc as [?| ->]; [done|]. apply (Hd h); left.
Qed.

(** Unlinking the node [e]. *)
Lemma ring_remove nx pv nx' pv' h l1 e l2 :
  ring nx pv (h :: l1 ++ e :: l2) → NoDup (h :: l1 ++ e :: l2) →
  linked nx' pv' (last_of h l1) (default h (head l2)) →
  (∀ c, c ∈ h :: l1 ++ l2 → c ≠ last_of h l1 → nx' c = nx c) →
  (∀ c, c ∈ h :: l1 ++ l2 → c ≠ default h (head l2) → pv' c = pv c) →
  ring nx' pv' (h :: l1 ++ l2).
Proof.
  intros Hr Hnd Hl Hnx Hpv. simpl in Hr. apply segment_app in Hr as [H1 H2].
  rewrite app_comm_cons in Hnd. apply NoDup_app in Hnd as (Hnd1 & Hd & Hnd2).
  apply NoDup_cons in Hnd2 as [_ Hnd2].
  assert (∀ c, c ∈ l1 → c ≠ default h (head l2)) as Hne.
  { intros c Hc ->. destruct l2 as [|b l2]; simpl in Hc.
    - by apply NoDup_cons in Hnd1 as [? _].
    - eapply (Hd b); [by right|right; left]. }
  assert (segment nx' pv' h l1 (default h (head l2))) as Hs1.
  { eapply segment_redirect; [done|done|done|..].
    - intros c Hc. apply Hnx. rewrite app_comm_cons, elem_of_app. by left.
    - intros c Hc. apply Hpv; [|by apply Hne]. right. apply elem_of_app. by left. }
  destruct l2 as [|b l2]; simpl in *; [by rewrite app_nil_r|].
  rewrite segment_app. split; [done|].
  apply NoDup_cons in Hnd2 as [Hb _].
  eapply segment_update; [..|apply H2].
  - intros c Hc. apply Hnx.
    + right. apply elem_of_app. by right.
    + intros ->. eapply Hd; [apply last_of_elem|by right].
  - intros c. rewrite elem_of_app, list_elem_of_singleton. intros [Hc| ->].
    + apply Hpv; [|by intros ->]. right. apply elem_of_app. right. by right.
    + apply Hpv; [by left|]. intros ->. eapply Hd; [by left|right; left].
Qed.

(** Unlinking the head of a ring with at least two nodes. *)
Lemma ring_unlink nx pv nx' pv' x y l :
  ring nx pv (x :: y :: l) → NoDup (x :: y :: l) →
  linked nx' pv' (last_of y l) y →
  (∀ c, c ∈ y :: l → c ≠ last_of y l → nx' c = nx c) →
  (∀ c, c ∈ l → pv' c = pv c) →
  ring nx' pv' (y :: l).
Proof.
  intros [_ Hs] Hnd Hl Hnx Hpv. apply NoDup_cons in Hnd as [_ Hnd].
  by eapply segment_redirect.
Qed.
