(* ===== verification/IntrusiveList.v ===== *)
(** * The intrusive list ([kernel/list/list.c])

    A circular list through a head: the nodes are two pointers embedded in the
    elements.  The operations are proved to be those of a mathematical list. *)

From S2P Require Import Prelude Memory Kalloc Ring.

(** [struct list] *)
Definition LST_PREV : Z := 0.
Definition LST_NEXT : Z := 8.
Definition LST_SIZE : Z := 16.

Definition lst_init (lst : Z) : M kmem () :=
  do* wr64 (lst + LST_NEXT) lst in
  wr64 (lst + LST_PREV) lst.

Definition lst_empty (lst : Z) : M kmem bool :=
  let* n := rd64 (lst + LST_NEXT) in
  ret (n =? lst).

Definition lst_remove (e : Z) : M kmem () :=
  let* p := rd64 (e + LST_PREV) in
  let* n := rd64 (e + LST_NEXT) in
  do* wr64 (p + LST_NEXT) n in
  let* n := rd64 (e + LST_NEXT) in
  let* p := rd64 (e + LST_PREV) in
  wr64 (n + LST_PREV) p.

Definition lst_pop (lst : Z) : M kmem Z :=
  let* n := rd64 (lst + LST_NEXT) in
  if n =? lst then panic "lst_pop"
  else
    let* p := rd64 (lst + LST_NEXT) in
    do* lst_remove p in
    ret p.

Definition lst_push (lst e : Z) : M kmem () :=
  let* n := rd64 (lst + LST_NEXT) in
  do* wr64 (e + LST_NEXT) n in
  do* wr64 (e + LST_PREV) lst in
  let* n := rd64 (lst + LST_NEXT) in
  do* wr64 (n + LST_PREV) e in
  wr64 (lst + LST_NEXT) e.

(** The addresses that [lst_print] prints. *)
Fixpoint print_loop (fuel : nat) (m : mem) (lst p : Z) : outcome (list Z) :=
  match fuel with
  | O => OutOfFuel
  | S fuel =>
      if p =? lst then Ret []
      else
        match print_loop fuel m lst (load64 m (p + LST_NEXT)) with
        | Ret l => Ret (p :: l)
        | o => o
        end
  end.
Definition lst_print (fuel : nat) (m : mem) (lst : Z) : outcome (list Z) :=
  print_loop fuel m lst (load64 m (lst + LST_NEXT)).

(** ** Meaning *)

Definition lnx (m : mem) (n : Z) : Z := load64 m (n + LST_NEXT).
Definition lpv (m : mem) (n : Z) : Z := load64 m (n + LST_PREV).

(** Nodes do not overlap. *)
Definition apart_nodes (l : list Z) : Prop :=
  Forall (λ a, 0 ≤ a < 2 ^ 64) l ∧
  ∀ a b, a ∈ l → b ∈ l → a ≠ b → a + LST_SIZE ≤ b ∨ b + LST_SIZE ≤ a.

(** The list at the head [lst] holds the elements [l]. *)
Definition lst_rep (m : mem) (lst : Z) (l : list Z) : Prop :=
  ring (lnx m) (lpv m) (lst :: l) ∧ NoDup (lst :: l) ∧ apart_nodes (lst :: l).

Lemma lnode_store m ns a off v c off' :
  apart_nodes ns → a ∈ ns → c ∈ ns → 0 ≤ v < 2 ^ 64 →
  (off = LST_NEXT ∨ off = LST_PREV) → (off' = LST_NEXT ∨ off' = LST_PREV) →
  load64 (store64 m (a + off) v) (c + off') =
  if decide (a = c ∧ off = off') then v else load64 m (c + off').
Proof.
  intros [_ Hd] Ha Hc Hv Ho Ho'. unfold LST_NEXT, LST_PREV, LST_SIZE in *.
  apply (field_store m a off v c off' 16); try done; try lia.
  destruct (decide (a = c)); [by left|right]. specialize (Hd a c Ha Hc n). lia.
Qed.

Lemma apart_nodes_sub l l' : apart_nodes l' → (∀ x, x ∈ l → x ∈ l') → apart_nodes l.
Proof.
  intros [Hr Hd] Hsub. split.
  - apply Forall_forall. intros x Hx. apply (proj1 (Forall_forall _ _) Hr). by apply Hsub.
  - intros a b Ha Hb. apply Hd; by apply Hsub.
Qed.

Lemma apart_nodes_range l a : apart_nodes l → a ∈ l → 0 ≤ a < 2 ^ 64.
Proof. intros [Hr _] Ha. by apply (proj1 (Forall_forall _ _) Hr). Qed.

Lemma lst_next_in m lst l : lst_rep m lst l → lnx m lst = default lst (head l) ∧ lnx m lst ∈ lst :: l.
Proof.
  intros (Hr & _). apply ring_next in Hr. split; [done|]. rewrite Hr.
  destruct l; simpl; [left|right; left].
Qed.

Lemma lst_push_result s lst l e :
  lst_rep (km_mem s) lst l → (e ∉ lst :: l) → apart_nodes (e :: lst :: l) →
  ∃ s', lst_push lst e s = Ret ((), s') ∧ lst_rep (km_mem s') lst (e :: l) ∧
    km_freelist s' = km_freelist s.
Proof.
  intros Hrep He Hap. pose proof (lst_next_in _ _ _ Hrep) as [Hn0 Hin].
  pose proof Hrep as (Hr & Hnd & _). set (m := km_mem s) in *. set (n0 := lnx m lst) in *.
  assert (e ≠ lst ∧ e ≠ n0) as [Hel Hen] by (split; intros ->; apply He; [left|done]).
  assert (∀ x, x ∈ e :: lst :: l → 0 ≤ x < 2 ^ 64) as Hrange by (intros x; by apply apart_nodes_range).
  assert (n0 ∈ e :: lst :: l) as Hin' by (by right).
  assert (e ∈ e :: lst :: l) as He' by left. assert (lst ∈ e :: lst :: l) as Hl' by (right; left).
  unfold lst_push, bind, rd64, wr64. cbn [km_mem set_mem km_freelist]. fold m. fold (lnx m lst). fold n0.
  assert (load64 (store64 (store64 m (e + LST_NEXT) n0) (e + LST_PREV) lst) (lst + LST_NEXT) = n0) as ->.
  { rewrite !(lnode_store _ _ _ _ _ _ _ Hap) by (done || tauto || by apply Hrange).
    rewrite !decide_False by tauto. done. }
  eexists. split; [reflexivity|]. split; [|done]. cbn [km_mem set_mem].
  set (m' := store64 _ (lst + LST_NEXT) e).
  assert (∀ c, c ∈ e :: lst :: l →
    lnx m' c = (if decide (lst = c) then e else if decide (e = c) then n0 else lnx m c) ∧
    lpv m' c = (if decide (n0 = c) then e else if decide (e = c) then lst else lpv m c)) as Hf.
  { intros c Hc. subst m'. unfold lnx, lpv.
    rewrite !(lnode_store _ _ _ _ _ _ _ Hap) by (done || tauto || by apply Hrange).
    unfold LST_NEXT, LST_PREV. split; repeat case_decide; try done; lia. }
  split; [|split].
  - apply (ring_insert_after (lnx m) (lpv m)); [done|done|..].
    + split; [destruct (Hf lst Hl') as [-> _]|destruct (Hf e He') as [_ ->]]; by repeat (case_decide; try congruence).
    + rewrite <- Hn0. split; [destruct (Hf e He') as [-> _]|destruct (Hf n0 Hin') as [_ ->]];
        by repeat (case_decide; try congruence).
    + intros c Hc. destruct (Hf c ltac:(by right; right)) as [-> _]. apply NoDup_cons in Hnd as [Hnl _].
      rewrite !decide_False; [done|intros ->; apply He; by right|by intros ->].
    + intros c Hc Hne. destruct (Hf c ltac:(by right)) as [_ ->]. rewrite <- Hn0 in Hne.
      rewrite !decide_False; [done|by intros ->|congruence].
  - apply NoDup_cons in Hnd as [Hnl Hnd]. rewrite not_elem_of_cons in He.
    apply NoDup_cons. split; [|apply NoDup_cons; tauto]. rewrite not_elem_of_cons. split; [congruence|done].
  - eapply apart_nodes_sub; [exact Hap|]. intros x. rewrite !elem_of_cons. tauto.
Qed.

Lemma lst_remove_result s lst l1 e l2 :
  lst_rep (km_mem s) lst (l1 ++ e :: l2) →
  ∃ s', lst_remove e s = Ret ((), s') ∧ lst_rep (km_mem s') lst (l1 ++ l2) ∧
    km_freelist s' = km_freelist s.
Proof.
  intros (Hr & Hnd & Hap). set (m := km_mem s) in *. set (ns := lst :: l1 ++ e :: l2) in *.
  assert (∀ x, x ∈ ns → 0 ≤ x < 2 ^ 64) as Hrange by (intros x; by apply apart_nodes_range).
  pose proof Hr as Hrot. unfold ns in Hrot. rewrite app_comm_cons in Hrot. apply ring_rotate in Hrot.
  simpl in Hrot. pose proof (ring_next _ _ _ _ Hrot) as Hn. pose proof (ring_prev _ _ _ _ Hrot) as Hp.
  assert (lnx m e = default lst (head l2)) as Hn' by (rewrite Hn; by destruct l2).
  assert (lpv m e = last_of lst l1) as Hp'.
  { rewrite Hp. unfold last_of. rewrite last_app, last_cons. by destruct (last l1). }
  assert (lpv m e ∈ lst :: l1 ++ l2) as Hpin.
  { rewrite Hp'. pose proof (last_of_elem lst l1) as H. rewrite app_comm_cons, elem_of_app. by left. }
  assert (lnx m e ∈ lst :: l1 ++ l2) as Hnin.
  { rewrite Hn'. destruct l2; simpl; [left|right]. apply elem_of_app. right. left. }
  assert (∀ x, x ∈ lst :: l1 ++ l2 → x ∈ ns) as Hsub.
  { intros x. unfold ns. rewrite !elem_of_cons, !elem_of_app, elem_of_cons. tauto. }
  assert (e ∉ lst :: l1 ++ l2) as Hne.
  { unfold ns in Hnd. rewrite app_comm_cons in Hnd. rewrite <- Permutation_middle in Hnd.
    by apply NoDup_cons in Hnd as [? _]. }
  assert (e ∈ ns) as Hein by (unfold ns; right; apply elem_of_app; right; left).
  set (p := lpv m e) in *. set (n := lnx m e) in *.
  unfold lst_remove, bind, rd64, wr64. cbn [km_mem set_mem]. fold m.
  change (load64 m (e + LST_PREV)) with p. change (load64 m (e + LST_NEXT)) with n.
  rewrite !(lnode_store _ _ _ _ _ _ _ Hap) by (done || tauto || by apply Hrange, Hsub || by apply Hsub).
  assert (p ≠ e) as Hpe by (intros E; apply Hne; rewrite <- E; exact Hpin).
  rewrite !decide_False by tauto.
  change (load64 m (e + LST_PREV)) with p. change (load64 m (e + LST_NEXT)) with n.
  eexists. split; [reflexivity|]. split; [|done]. cbn [km_mem set_mem].
  set (m' := store64 _ (n + LST_PREV) p).
  assert (∀ c, c ∈ lst :: l1 ++ l2 →
    lnx m' c = (if decide (p = c) then n else lnx m c) ∧
    lpv m' c = (if decide (n = c) then p else lpv m c)) as Hf.
  { intros c Hc. subst m'. unfold lnx, lpv.
    rewrite !(lnode_store _ _ _ _ _ _ _ Hap) by (done || tauto || by apply Hrange, Hsub || by apply Hsub).
    unfold LST_NEXT, LST_PREV. split; repeat case_decide; try done; lia. }
  split; [|split].
  - apply (ring_remove (lnx m) (lpv m) _ _ lst l1 e l2); [done|done|..]; rewrite <- ?Hp', <- ?Hn'.
    + split; [destruct (Hf p Hpin) as [-> _]|destruct (Hf n Hnin) as [_ ->]]; by rewrite decide_True.
    + intros c Hc Hcp. destruct (Hf c Hc) as [-> _]. by rewrite decide_False by congruence.
    + intros c Hc Hcn. destruct (Hf c Hc) as [_ ->]. by rewrite decide_False by congruence.
  - unfold ns in Hnd. rewrite app_comm_cons in Hnd. rewrite <- Permutation_middle in Hnd.
    by apply NoDup_cons in Hnd as [_ ?].
  - by eapply apart_nodes_sub.
Qed.

Lemma lst_init_result s lst :
  0 ≤ lst < 2 ^ 64 → ∃ s', lst_init lst s = Ret ((), s') ∧ lst_rep (km_mem s') lst [].
Proof.
  intros Hl. assert (apart_nodes [lst]) as Hap.
  { split; [by apply Forall_singleton|]. intros a b ->%list_elem_of_singleton ->%list_elem_of_singleton. done. }
  eexists. split; [reflexivity|]. split; [|split; [apply NoDup_singleton|exact Hap]].
  apply ring_single. unfold lnx, lpv. cbn [km_mem set_mem].
    assert (lst ∈ [lst]) as Hin by left.
    rewrite !(lnode_store _ _ _ _ _ _ _ Hap) by (done || tauto).
    unfold LST_NEXT, LST_PREV. by repeat (case_decide; try lia).
Qed.

Lemma lst_print_result m lst l fuel :
  lst_rep m lst l → (length l < fuel)%nat → lst_print fuel m lst = Ret l.
Proof.
  intros (Hr & Hnd & _) Hf. unfold lst_print. change (load64 m (lst + LST_NEXT)) with (lnx m lst).
  assert (∀ a l fuel, segment (lnx m) (lpv m) a l lst → (lst ∉ l) → (length l < fuel)%nat →
    print_loop fuel m lst (lnx m a) = Ret l) as Hgen.
  { clear. intros a l. revert a. induction l as [|b l IH]; intros a [|fuel] Hs Hn Hf; simpl in Hf; try lia;
      cbn [print_loop].
    - destruct Hs as [-> _]. by rewrite Z.eqb_refl.
    - destruct Hs as [[-> _] Hs]. rewrite not_elem_of_cons in Hn. destruct Hn as [Hb Hn].
      destruct (Z.eqb_spec b lst); [congruence|].
      change (load64 m (b + LST_NEXT)) with (lnx m b). rewrite IH by (done || lia). done. }
  apply Hgen; [done|by apply NoDup_cons in Hnd as [? _]|done].
Qed.

(** C27. The intrusive list behaves as a list of its elements: [lst_init] makes it
    empty, [lst_push] adds an element in front, [lst_pop] returns and removes
    the first one (and panics exactly when there is none), [lst_remove] removes
    an element wherever it is, [lst_empty] tests and [lst_print] enumerates. *)
Theorem lst_spec s lst l :
  lst_rep (km_mem s) lst l →
  lst_empty lst s = Ret (bool_decide (l = []), s) ∧
  lst_print (S (length l)) (km_mem s) lst = Ret l ∧
  (∃ s', lst_init lst s = Ret ((), s') ∧ lst_rep (km_mem s') lst []) ∧
  (∀ e, (e ∉ lst :: l) → apart_nodes (e :: lst :: l) →
     ∃ s', lst_push lst e s = Ret ((), s') ∧ lst_rep (km_mem s') lst (e :: l)) ∧
  (∀ l1 e l2, l = l1 ++ e :: l2 →
     ∃ s', lst_remove e s = Ret ((), s') ∧ lst_rep (km_mem s') lst (l1 ++ l2)) ∧
  match l with
  | [] => lst_pop lst s = Panic "lst_pop"
  | e :: l' => ∃ s', lst_pop lst s = Ret (e, s') ∧ lst_rep (km_mem s') lst l'
  end.
Proof.
  intros Hrep. pose proof Hrep as (_ & Hnd & Hap). pose proof (lst_next_in _ _ _ Hrep) as [Hn _].
  assert (lnx (km_mem s) lst = lst ↔ l = []) as Hself.
  { rewrite Hn. destruct l as [|e l]; simpl; [done|]. split; [|done]. intros ->.
    apply NoDup_cons in Hnd as [Hx _]. destruct Hx. left. }
  split; [|split; [|split; [|split; [|split]]]].
  - unfold lst_empty, bind, rd64, ret. change (load64 _ _) with (lnx (km_mem s) lst).
    f_equal. f_equal. destruct (Z.eqb_spec (lnx (km_mem s) lst) lst) as [E|E].
    + rewrite bool_decide_eq_true_2 by tauto. done.
    + rewrite bool_decide_eq_false_2 by tauto. done.
  - apply lst_print_result; [done|lia].
  - apply lst_init_result. apply (apart_nodes_range _ _ Hap). left.
  - intros e He Hape. destruct (lst_push_result s lst l e Hrep He Hape) as (s' & ? & ? & _). by exists s'.
  - intros l1 e l2 ->. destruct (lst_remove_result s lst l1 e l2 Hrep) as (s' & ? & ? & _). by exists s'.
  - assert (∀ A (k : Z → M kmem A), bind (rd64 (lst + LST_NEXT)) k s = k (lnx (km_mem s) lst) s) as Hrd by done.
    unfold lst_pop. destruct l as [|e l]; simpl in Hn; rewrite Hrd.
    + by rewrite Hn, Z.eqb_refl.
    + rewrite Hn in Hself |- *. destruct (Z.eqb_spec e lst) as [E|_]; [by apply Hself in E|].
      rewrite Hrd, Hn.
      destruct (lst_remove_result s lst [] e l Hrep) as (s' & E & Hr' & _).
      exists s'. split; [by rewrite (bind_ret _ _ _ _ _ E)|done].
Qed.

(** A list with one element. *)
Definition demo_lst : kmem :=
  Kmem (store64 (store64 (store64 (store64 ∅ (0x1000 + LST_NEXT) 0x2000) (0x1000 + LST_PREV) 0x2000)
    (0x2000 + LST_NEXT) 0x1000) (0x2000 + LST_PREV) 0x1000) 0.

Lemma demo_lst_rep : lst_rep (km_mem demo_lst) 0x1000 [0x2000].
Proof.
  split; [repeat split; vm_compute; reflexivity|].
  split; [apply (bool_decide_unpack _); vm_compute; exact I|].
  split; [repeat (constructor; [lia|]); constructor|]. intros a b. rewrite !elem_of_cons, !elem_of_nil. unfold LST_SIZE. lia.
Qed.

Lemma lst_spec_witness : ∃ s', lst_pop 0x1000 demo_lst = Ret (0x2000, s') ∧ lst_rep (km_mem s') 0x1000 [].
Proof. apply (lst_spec demo_lst 0x1000 [0x2000] demo_lst_rep). Defined.
