(* ===== verification/LinkedList.v ===== *)
(** * The generic linked list ([kernel/list/linkedlist.h])

    The macros of [linkedlist.h] generate a doubly linked list with a header
    (first node, last node, number of nodes) for a type of elements; here the
    elements are 64-bit words.  The nodes come from [malloc] and go back to
    [free], which the kernel does not define: they are a parameter, the class
    [Malloc], with the contract [MallocSpec]; the page allocator of [Kalloc.v] is
    an instance of it. *)

From S2P Require Import Prelude Memory Kalloc Ring.

(** [struct NAME_s] *)
Definition L_HEAD : Z := 0.
Definition L_TAIL : Z := 8.
Definition L_COUNT : Z := 16.
Definition LIST_SIZE : Z := 24.

(** [struct NAME_node_s] *)
Definition N_DATA : Z := 0.
Definition N_OWNER : Z := 8.
Definition N_NEXT : Z := 16.
Definition N_PREV : Z := 24.
Definition NODE_SIZE : Z := 32.

(** [struct NAME_iter_s] *)
Record iter := Iter { target : Z; cursor : Z; index : Z; start : bool; at_end : bool }.

Class Malloc := { malloc : Z → M kmem Z; free : Z → M kmem () }.

Definition list_new : M kmem Z :=
  let* new_list := kalloc in
  if new_list =? 0 then ret 0
  else
    do* wr64 (new_list + L_COUNT) 0 in
    do* wr64 (new_list + L_HEAD) 0 in
    do* wr64 (new_list + L_TAIL) 0 in
    ret new_list.

(** [while (list->head != NULL)] *)
Fixpoint free_loop {LK : Linker} (fuel : nat) (lst scan : Z) : M kmem () :=
  match fuel with
  | O => out_of_fuel
  | S fuel =>
      let* h := rd64 (lst + L_HEAD) in
      if h =? 0 then ret ()
      else
        let* n := rd64 (h + N_NEXT) in
        do* wr64 (lst + L_HEAD) n in
        do* kfree scan in
        let* scan := rd64 (lst + L_HEAD) in
        free_loop fuel lst scan
  end.

Definition list_free {LK : Linker} (fuel : nat) (lst : Z) : M kmem () :=
  let* scan := rd64 (lst + L_HEAD) in
  do* free_loop fuel lst scan in
  kfree lst.

Definition empty (lst : Z) : M kmem bool :=
  let* c := rd64 (lst + L_COUNT) in
  ret (c =? 0).

Definition count (lst : Z) : M kmem Z := rd64 (lst + L_COUNT).

(** [count++] and [count--] *)
Definition add_count (lst k : Z) : M kmem () :=
  let* c := rd64 (lst + L_COUNT) in
  wr64 (lst + L_COUNT) (u64 (c + k)).

(** [for (size_t i = 0; i < n; i++) scan = scan->f] *)
Fixpoint follow (n : nat) (field scan : Z) : M kmem Z :=
  match n with
  | O => ret scan
  | S n => let* scan := rd64 (scan + field) in follow n field scan
  end.

Definition front_node (lst : Z) : M kmem Z := rd64 (lst + L_HEAD).
Definition back_node (lst : Z) : M kmem Z := rd64 (lst + L_TAIL).
Definition next_node (node : Z) : M kmem Z := rd64 (node + N_NEXT).
Definition prev_node (node : Z) : M kmem Z := rd64 (node + N_PREV).

Definition get_node (lst idx : Z) : M kmem Z :=
  let* c := rd64 (lst + L_COUNT) in
  if c <=? idx then ret 0
  else
    let* e := empty lst in
    if e then ret 0
    else if idx <=? c / 2 then
      let* scan := rd64 (lst + L_HEAD) in
      follow (Z.to_nat idx) N_NEXT scan
    else
      let* scan := rd64 (lst + L_TAIL) in
      follow (Z.to_nat (c - 1 - idx)) N_PREV scan.

Definition front (lst : Z) : M kmem Z :=
  let* e := empty lst in
  if e then ret 0 else let* h := rd64 (lst + L_HEAD) in rd64 (h + N_DATA).

Definition back (lst : Z) : M kmem Z :=
  let* e := empty lst in
  if e then ret 0 else let* t := rd64 (lst + L_TAIL) in rd64 (t + N_DATA).

Definition get_at (lst idx : Z) : M kmem Z :=
  let* c := rd64 (lst + L_COUNT) in
  if c <=? idx then ret 0
  else
    let* e := empty lst in
    if e then ret 0
    else
      let* scan := get_node lst idx in
      if scan =? 0 then ret 0 else rd64 (scan + N_DATA).

Section ops.
Context {MA : Malloc}.

Definition new_node (owner element : Z) : M kmem Z :=
  let* node := malloc NODE_SIZE in
  if node =? 0 then ret 0
  else
    do* wr64 (node + N_OWNER) owner in
    do* wr64 (node + N_DATA) element in
    do* wr64 (node + N_NEXT) 0 in
    do* wr64 (node + N_PREV) 0 in
    ret node.

Definition push_front (lst element : Z) : M kmem bool :=
  let* node := new_node lst element in
  if node =? 0 then ret false
  else
    let* e := empty lst in
    do* (if e then
           do* wr64 (lst + L_HEAD) node in
           wr64 (lst + L_TAIL) node
         else
           let* h := rd64 (lst + L_HEAD) in
           do* wr64 (node + N_NEXT) h in
           let* h := rd64 (lst + L_HEAD) in
           do* wr64 (h + N_PREV) node in
           wr64 (lst + L_HEAD) node) in
    do* add_count lst 1 in
    ret true.

Definition push_back (lst element : Z) : M kmem bool :=
  let* node := new_node lst element in
  if node =? 0 then ret false
  else
    let* e := empty lst in
    do* (if e then
           do* wr64 (lst + L_HEAD) node in
           wr64 (lst + L_TAIL) node
         else
           let* t := rd64 (lst + L_TAIL) in
           do* wr64 (node + N_PREV) t in
           let* t := rd64 (lst + L_TAIL) in
           do* wr64 (t + N_NEXT) node in
           wr64 (lst + L_TAIL) node) in
    do* add_count lst 1 in
    ret true.

Definition push (lst element idx : Z) : M kmem bool :=
  let* c := rd64 (lst + L_COUNT) in
  if c <? idx then ret false
  else if idx =? 0 then push_front lst element
  else if idx =? c then push_back lst element
  else
    let* node := new_node lst element in
    if node =? 0 then ret false
    else
      let* scan := get_node lst (idx - 1) in
      let* n := rd64 (scan + N_NEXT) in
      do* wr64 (node + N_NEXT) n in
      do* wr64 (node + N_PREV) scan in
      let* n := rd64 (node + N_NEXT) in
      do* wr64 (n + N_PREV) node in
      let* p := rd64 (node + N_PREV) in
      do* wr64 (p + N_NEXT) node in
      do* add_count lst 1 in
      ret true.

Definition pop_front (lst : Z) : M kmem bool :=
  let* e := empty lst in
  if e then ret false
  else
    let* node := rd64 (lst + L_HEAD) in
    let* h := rd64 (lst + L_HEAD) in
    let* n := rd64 (h + N_NEXT) in
    do* wr64 (lst + L_HEAD) n in
    do* free node in
    let* h := rd64 (lst + L_HEAD) in
    do* (if h =? 0 then wr64 (lst + L_TAIL) 0
         else wr64 (h + N_PREV) 0) in
    do* add_count lst (-1) in
    ret true.

Definition pop_back (lst : Z) : M kmem bool :=
  let* e := empty lst in
  if e then ret false
  else
    let* node := rd64 (lst + L_TAIL) in
    let* t := rd64 (lst + L_TAIL) in
    let* p := rd64 (t + N_PREV) in
    do* wr64 (lst + L_TAIL) p in
    do* free node in
    let* t := rd64 (lst + L_TAIL) in
    do* (if t =? 0 then wr64 (lst + L_HEAD) 0
         else wr64 (t + N_NEXT) 0) in
    do* add_count lst (-1) in
    ret true.

Definition pop (lst idx : Z) : M kmem bool :=
  let* e := empty lst in
  if e then ret false
  else
    let* c := rd64 (lst + L_COUNT) in
    if c <=? idx then ret false
    else if idx =? 0 then pop_front lst
    else if idx =? u64 (c - 1) then pop_back lst
    else
      let* node := get_node lst idx in
      if node =? 0 then ret false
      else
        let* n := rd64 (node + N_NEXT) in
        let* p := rd64 (node + N_PREV) in
        do* wr64 (n + N_PREV) p in
        let* p := rd64 (node + N_PREV) in
        let* n := rd64 (node + N_NEXT) in
        do* wr64 (p + N_NEXT) n in
        do* free node in
        do* add_count lst (-1) in
        ret true.

Definition push_if (lst element idx : Z) (condition : bool) : M kmem bool :=
  if condition then push lst element idx else ret false.

Definition pop_if (lst idx : Z) (condition : bool) : M kmem bool :=
  if condition then pop lst idx else ret false.

Definition insert_nxt (node element : Z) : M kmem bool :=
  let* owner := rd64 (node + N_OWNER) in
  let* new_node := new_node owner element in
  if new_node =? 0 then ret false
  else
    let* n := rd64 (node + N_NEXT) in
    do* wr64 (new_node + N_NEXT) n in
    let* n := rd64 (node + N_NEXT) in
    do* (if n =? 0 then let* o := rd64 (node + N_OWNER) in wr64 (o + L_TAIL) new_node
         else wr64 (n + N_PREV) new_node) in
    do* wr64 (new_node + N_PREV) node in
    do* wr64 (node + N_NEXT) new_node in
    let* o := rd64 (node + N_OWNER) in
    do* add_count o 1 in
    ret true.

Definition insert_prv (node element : Z) : M kmem bool :=
  let* owner := rd64 (node + N_OWNER) in
  let* new_node := new_node owner element in
  if new_node =? 0 then ret false
  else
    let* p := rd64 (node + N_PREV) in
    do* wr64 (new_node + N_PREV) p in
    let* p := rd64 (node + N_PREV) in
    do* (if p =? 0 then let* o := rd64 (node + N_OWNER) in wr64 (o + L_HEAD) new_node
         else wr64 (p + N_NEXT) new_node) in
    do* wr64 (new_node + N_NEXT) node in
    do* wr64 (node + N_PREV) new_node in
    let* o := rd64 (node + N_OWNER) in
    do* add_count o 1 in
    ret true.

(** The second test of [next] is the same as the first. *)
Definition remove_nxt (node : Z) : M kmem bool :=
  let* n := rd64 (node + N_NEXT) in
  if n =? 0 then ret false
  else
    let* tmp := rd64 (node + N_NEXT) in
    let* n := rd64 (node + N_NEXT) in
    do* (if n =? 0 then let* o := rd64 (node + N_OWNER) in wr64 (o + L_TAIL) node
         else
           let* nn := rd64 (n + N_NEXT) in
           do* wr64 (node + N_NEXT) nn in
           let* n := rd64 (node + N_NEXT) in
           wr64 (n + N_PREV) node) in
    let* o := rd64 (node + N_OWNER) in
    do* add_count o (-1) in
    do* free tmp in
    ret true.

Definition remove_cur (node : Z) : M kmem bool :=
  let* p := rd64 (node + N_PREV) in
  let* n := rd64 (node + N_NEXT) in
  do* (if p =? 0 then let* o := rd64 (node + N_OWNER) in wr64 (o + L_HEAD) n
       else wr64 (p + N_NEXT) n) in
  let* n := rd64 (node + N_NEXT) in
  let* p := rd64 (node + N_PREV) in
  do* (if n =? 0 then let* o := rd64 (node + N_OWNER) in wr64 (o + L_TAIL) p
       else wr64 (n + N_PREV) p) in
  let* o := rd64 (node + N_OWNER) in
  do* add_count o (-1) in
  do* free node in
  ret true.

Definition remove_prv (node : Z) : M kmem bool :=
  let* p := rd64 (node + N_PREV) in
  if p =? 0 then ret false
  else
    let* tmp := rd64 (node + N_PREV) in
    let* p := rd64 (node + N_PREV) in
    do* (if p =? 0 then let* o := rd64 (node + N_OWNER) in wr64 (o + L_HEAD) node
         else
           let* pp := rd64 (p + N_PREV) in
           do* wr64 (node + N_PREV) pp in
           let* p := rd64 (node + N_PREV) in
           wr64 (p + N_NEXT) node) in
    do* free tmp in
    ret true.
End ops.

(** ** Iterators *)

Definition iter_new (tgt : Z) : M kmem iter :=
  let* c := rd64 (tgt + L_HEAD) in
  let* e := empty tgt in
  ret (Iter tgt c 0 true e).

Definition iter_start (i : iter) : M kmem bool :=
  let* p := rd64 (cursor i + N_PREV) in
  ret ((p =? 0) && start i).

Definition iter_end (i : iter) : M kmem bool :=
  let* n := rd64 (cursor i + N_NEXT) in
  ret ((n =? 0) && at_end i).

Definition iter_tostart (i : iter) : M kmem iter := iter_new (target i).

Definition iter_toend (i : iter) : M kmem iter :=
  let* c := rd64 (target i + L_TAIL) in
  let* n := rd64 (target i + L_COUNT) in
  let* e := empty (target i) in
  ret (Iter (target i) c (u64 (n - 1)) e true).

(** [None] is the result false; [Some] holds what is written to [result] and
    [index]. *)
Definition iter_next (i : iter) : M kmem (option (Z * Z) * iter) :=
  if at_end i then ret (None, i)
  else
    let* d := rd64 (cursor i + N_DATA) in
    let* n := rd64 (cursor i + N_NEXT) in
    ret (Some (d, index i),
         if n =? 0 then Iter (target i) (cursor i) (index i) false true
         else Iter (target i) n (u64 (index i + 1)) false (at_end i)).

Definition iter_prev (i : iter) : M kmem (option (Z * Z) * iter) :=
  if start i then ret (None, i)
  else
    let* d := rd64 (cursor i + N_DATA) in
    let* p := rd64 (cursor i + N_PREV) in
    ret (Some (d, index i),
         if p =? 0 then Iter (target i) (cursor i) (index i) true false
         else Iter (target i) p (u64 (index i - 1)) (start i) false).

(** * Properties *)

(** ** The contract of [malloc] and [free] *)

Definition apart (x y : Z * Z) : Prop := x.1 + x.2 ≤ y.1 ∨ y.1 + y.2 ≤ x.1.

(** The memory of the blocks [bs] is the same. *)
Definition blocks_kept (m m' : mem) (bs : list (Z * Z)) : Prop := Forall (λ x, agree m m' x.1 x.2) bs.

(** [heap s bs]: the blocks [bs] (address and size) are allocated.  They do not
    overlap, their owners may write to them, [malloc] finds a new one or
    returns 0, and [free] takes one back; both leave the others alone. *)
Class MallocSpec {MA : Malloc} := {
  heap : kmem → list (Z * Z) → Prop;
  heap_perm s bs bs' : bs ≡ₚ bs' → heap s bs → heap s bs';
  heap_range s bs x : heap s bs → x ∈ bs → 0 < x.1 ∧ x.1 + x.2 ≤ 2 ^ 64;
  heap_apart s x y bs : heap s (x :: y :: bs) → apart x y;
  heap_write s bs x m' : heap s bs → x ∈ bs → only_changes (km_mem s) m' x.1 x.2 → heap (set_mem m' s) bs;
  malloc_ok s bs : heap s bs →
    ∃ p s', malloc NODE_SIZE s = Ret (p, s') ∧ blocks_kept (km_mem s) (km_mem s') bs ∧
      (p = 0 ∧ heap s' bs ∨ p ≠ 0 ∧ heap s' ((p, NODE_SIZE) :: bs));
  free_ok s p bs : heap s ((p, NODE_SIZE) :: bs) →
    ∃ s', free p s = Ret ((), s') ∧ heap s' bs ∧ blocks_kept (km_mem s) (km_mem s') bs
}.

Lemma blocks_kept_refl m bs : blocks_kept m m bs.
Proof. apply Forall_forall. intros x _ b _. done. Qed.

Lemma blocks_kept_trans m1 m2 m3 bs : blocks_kept m1 m2 bs → blocks_kept m2 m3 bs → blocks_kept m1 m3 bs.
Proof.
  unfold blocks_kept. rewrite !Forall_forall. intros H1 H2 x Hx. eapply agree_trans; [by apply H1|by apply H2].
Qed.

Lemma blocks_kept_sub m m' bs bs' : (∀ x, x ∈ bs' → x ∈ bs) → blocks_kept m m' bs → blocks_kept m m' bs'.
Proof. unfold blocks_kept. rewrite !Forall_forall. auto. Qed.

Section heap_facts.
Context `{MS : MallocSpec}.

Lemma heap_two s bs i j x y : heap s bs → bs !! i = Some x → bs !! j = Some y → i ≠ j → apart x y.
Proof.
  intros Hh Hi Hj Hne.
  assert (∃ l, bs ≡ₚ x :: y :: l) as [l Hp]; [|by eapply heap_apart, heap_perm].
  assert (y ∈ take i bs ++ drop (S i) bs) as Hy.
  { apply elem_of_app. destruct (decide (j < i)%nat).
    - left. apply (list_elem_of_lookup_2 _ j). by rewrite lookup_take_lt by lia.
    - right. apply (list_elem_of_lookup_2 _ (j - S i)). rewrite lookup_drop, <- Hj. f_equal. lia. }
  apply elem_of_Permutation in Hy as [l Hl]. exists l.
  rewrite <- Hl, Permutation_middle. by rewrite take_drop_middle.
Qed.

(** The field at the offset [off] of the block at [a]. *)
Definition field_of (bs : list (Z * Z)) (a off : Z) : Prop := ∃ k, (a, k) ∈ bs ∧ 0 ≤ off ∧ off + 8 ≤ k.

Lemma fields_apart s bs a off c off' :
  heap s bs → field_of bs a off → field_of bs c off' →
  a ≠ c ∨ off + 8 ≤ off' ∨ off' + 8 ≤ off → c + off' + 8 ≤ a + off ∨ a + off + 8 ≤ c + off'.
Proof.
  intros Hh (k & Hk & Ho1 & Ho2) (k' & Hk' & Ho1' & Ho2') Hd.
  destruct (decide (a = c)) as [->|Hne]; [lia|].
  apply list_elem_of_lookup in Hk as [i Hi]. apply list_elem_of_lookup in Hk' as [j Hj].
  assert (i ≠ j) as Hij by (intros ->; congruence).
  pose proof (heap_two _ _ _ _ _ _ Hh Hi Hj Hij) as Ha. unfold apart in Ha. simpl in Ha. lia.
Qed.

(** A store to a field, seen from the same field and from the others. *)
Lemma field_same s bs a c off v m :
  heap s bs → field_of bs a off → field_of bs c off → 0 ≤ v < 2 ^ 64 →
  load64 (store64 m (a + off) v) (c + off) = if decide (a = c) then v else load64 m (c + off).
Proof.
  intros Hh Ha Hc Hv. case_decide as Hd; [subst c; by apply load64_store64|].
  apply load64_store64_other. eapply fields_apart; [done..|]. by left.
Qed.

Lemma field_diff s bs a off c off' v m :
  heap s bs → field_of bs a off → field_of bs c off' → off + 8 ≤ off' ∨ off' + 8 ≤ off →
  load64 (store64 m (a + off) v) (c + off') = load64 m (c + off').
Proof.
  intros Hh Ha Hc Ho. apply load64_store64_other. eapply fields_apart; [done..|]. by right.
Qed.

Lemma heap_field s bs a off v :
  heap s bs → field_of bs a off → heap (set_mem (store64 (km_mem s) (a + off) v) s) bs.
Proof.
  intros Hh (k & Hk & Ho). eapply heap_write; [exact Hh|exact Hk|]. simpl.
  eapply only_changes_sub; [apply store64_changes|lia..].
Qed.

Lemma store_blocks_kept s bs fr a off v m :
  heap s (bs ++ fr) → field_of bs a off → blocks_kept m (store64 m (a + off) v) fr.
Proof.
  intros Hh (k & Hk & Ho). apply Forall_forall. intros x Hx.
  eapply only_changes_agree; [apply store64_changes|].
  apply list_elem_of_lookup in Hk as [i Hi]. apply list_elem_of_lookup in Hx as [j Hj].
  pose proof (lookup_lt_Some _ _ _ Hi) as Hlt.
  assert (apart (a, k) x) as Hap.
  { apply (heap_two s (bs ++ fr) i (length bs + j)); [done|by rewrite lookup_app_l| |lia].
    rewrite lookup_app_r by lia. rewrite <- Hj. f_equal. lia. }
  unfold apart in Hap. simpl in Hap. lia.
Qed.

Lemma kept_field m m' bs a off : blocks_kept m m' bs → field_of bs a off → load64 m' (a + off) = load64 m (a + off).
Proof.
  intros Hk (k & Hin & Ho). apply load64_agree. pose proof (proj1 (Forall_forall _ _) Hk _ Hin) as Ha.
  eapply agree_sub; [exact Ha|simpl; lia..].
Qed.
End heap_facts.

(** ** The list in memory

    With the header in the place of NULL, the list is a ring: the header's
    successor is the first node, and its predecessor the last. *)

Definition raw_next (m : mem) (lst c : Z) : Z := load64 m (c + if decide (c = lst) then L_HEAD else N_NEXT).
Definition raw_prev (m : mem) (lst c : Z) : Z := load64 m (c + if decide (c = lst) then L_TAIL else N_PREV).
Definition of_null (lst v : Z) : Z := if decide (v = 0) then lst else v.
Definition to_null (lst v : Z) : Z := if decide (v = lst) then 0 else v.
Definition lnext (m : mem) (lst c : Z) : Z := of_null lst (raw_next m lst c).
Definition lprev (m : mem) (lst c : Z) : Z := of_null lst (raw_prev m lst c).

(** The header [lst] holds the nodes and elements [l]. *)
Record rep (m : mem) (lst : Z) (l : list (Z * Z)) : Prop := {
  rep_ring : ring (lnext m lst) (lprev m lst) (lst :: l.*1);
  rep_null c : c ∈ lst :: l.*1 → raw_next m lst c ≠ lst ∧ raw_prev m lst c ≠ lst;
  rep_count : load64 m (lst + L_COUNT) = Z.of_nat (length l);
  rep_node n d : (n, d) ∈ l → load64 m (n + N_DATA) = d ∧ load64 m (n + N_OWNER) = lst
}.

(** The blocks of a list. *)
Definition blocks (lst : Z) (l : list (Z * Z)) : list (Z * Z) :=
  (lst, LIST_SIZE) :: ((λ x, (x.1, NODE_SIZE)) <$> l).

(** The nodes before and after a place in the list, the header standing for
    none. *)
Abbreviation before lst l1 := (last_of lst l1.*1).
Abbreviation after lst l2 := (default lst (head l2.*1)).

Lemma to_of_null lst v : v ≠ lst → to_null lst (of_null lst v) = v.
Proof. unfold to_null, of_null. intros. repeat case_decide; congruence. Qed.

Lemma of_to_null lst v : v ≠ 0 → of_null lst (to_null lst v) = v.
Proof. unfold to_null, of_null. intros. repeat case_decide; congruence. Qed.

Lemma to_null_ne lst v : lst ≠ 0 → to_null lst v ≠ lst.
Proof. unfold to_null. intros. case_decide; congruence. Qed.

(** What a pointer at a place of the list is. *)
Lemma rep_at m lst l1 l2 :
  rep m lst (l1 ++ l2) →
  raw_next m lst (before lst l1) = to_null lst (after lst l2) ∧
  raw_prev m lst (after lst l2) = to_null lst (before lst l1).
Proof.
  intros [Hr Hn _ _]. rewrite fmap_app in *.
  assert (before lst l1 ∈ lst :: l1.*1 ++ l2.*1 ∧ after lst l2 ∈ lst :: l1.*1 ++ l2.*1) as [Ha Hb].
  { split; [rewrite app_comm_cons, elem_of_app; left; apply last_of_elem|].
    destruct (l2.*1); simpl; [left|]. right. apply elem_of_app. right. left. }
  assert (linked (lnext m lst) (lprev m lst) (before lst l1) (after lst l2)) as [H1 H2].
  { change (ring (lnext m lst) (lprev m lst) ((lst :: l1.*1) ++ l2.*1)) in Hr.
    destruct l2 as [|[b e] l2]; simpl.
    - simpl in Hr. rewrite app_nil_r in Hr. split; [|by apply (segment_last _ _ _ _ _ Hr)].
      destruct l1 as [|x l1 _] using rev_ind; [apply Hr|]. rewrite fmap_app in Hr |- *. simpl in Hr |- *.
      rewrite last_of_snoc. apply segment_app in Hr as [_ [? _]]. done.
    - simpl in Hr. apply segment_app in Hr as [Hr _].
      destruct l1 as [|x l1 _] using rev_ind; [apply Hr|]. rewrite fmap_app in Hr |- *. simpl in Hr |- *.
      rewrite last_of_snoc. apply segment_app in Hr as [_ ?]. done. }
  unfold lnext, lprev in *. split.
  - rewrite <- H1. symmetry. apply to_of_null. by apply Hn.
  - rewrite <- H2. symmetry. apply to_of_null. by apply Hn.
Qed.

Section rep_change.
Context (m m' : mem) (lst : Z) (l1 l2 : list (Z * Z)) (n d : Z).
Context (Hnd : NoDup (n :: lst :: (l1 ++ l2).*1)) (Hnz : Forall (λ c, c ≠ 0) (n :: lst :: (l1 ++ l2).*1)).

Lemma place_in c : c = before lst l1 ∨ c = after lst l2 → c ∈ lst :: (l1 ++ l2).*1.
Proof using Type.
  rewrite fmap_app. intros [-> | ->].
  - rewrite app_comm_cons, elem_of_app. left. apply last_of_elem.
  - destruct (l2.*1); simpl; [left|]. right. apply elem_of_app. right. left.
Qed.

Lemma data_kept :
  (∀ c, c ∈ (l1 ++ l2).*1 → load64 m' (c + N_DATA) = load64 m (c + N_DATA) ∧
    load64 m' (c + N_OWNER) = load64 m (c + N_OWNER)) →
  (∀ c e, (c, e) ∈ l1 ++ l2 → load64 m (c + N_DATA) = e ∧ load64 m (c + N_OWNER) = lst) →
  ∀ c e, (c, e) ∈ l1 ++ l2 → load64 m' (c + N_DATA) = e ∧ load64 m' (c + N_OWNER) = lst.
Proof using Type.
  intros Hk Hold c e Hc. destruct (Hk c) as [-> ->]; [by apply (list_elem_of_fmap_2' fst _ (c, e))|by apply Hold].
Qed.

(** The fields after the node [n] has been linked in at a place of the list. *)
Definition linked_in : Prop :=
  (∀ c, c ∈ lst :: (l1 ++ l2).*1 →
     raw_next m' lst c = (if decide (c = before lst l1) then n else raw_next m lst c) ∧
     raw_prev m' lst c = (if decide (c = after lst l2) then n else raw_prev m lst c)) ∧
  raw_next m' lst n = to_null lst (after lst l2) ∧ raw_prev m' lst n = to_null lst (before lst l1) ∧
  load64 m' (lst + L_COUNT) = load64 m (lst + L_COUNT) + 1 ∧
  (∀ c, c ∈ (l1 ++ l2).*1 → load64 m' (c + N_DATA) = load64 m (c + N_DATA) ∧
    load64 m' (c + N_OWNER) = load64 m (c + N_OWNER)) ∧
  load64 m' (n + N_DATA) = d ∧ load64 m' (n + N_OWNER) = lst.

(** The same, with the header and the nodes apart. *)
Lemma linked_in_fields a b :
  before lst l1 = a → after lst l2 = b →
  load64 m' (lst + L_HEAD) = (if decide (lst = a) then n else load64 m (lst + L_HEAD)) →
  load64 m' (lst + L_TAIL) = (if decide (lst = b) then n else load64 m (lst + L_TAIL)) →
  load64 m' (lst + L_COUNT) = load64 m (lst + L_COUNT) + 1 →
  (∀ c, c ∈ n :: (l1 ++ l2).*1 → c ≠ n → c ≠ lst →
     load64 m' (c + N_NEXT) = (if decide (c = a) then n else load64 m (c + N_NEXT)) ∧
     load64 m' (c + N_PREV) = (if decide (c = b) then n else load64 m (c + N_PREV)) ∧
     load64 m' (c + N_DATA) = load64 m (c + N_DATA) ∧ load64 m' (c + N_OWNER) = load64 m (c + N_OWNER)) →
  load64 m' (n + N_NEXT) = to_null lst (b) → load64 m' (n + N_PREV) = to_null lst (a) →
  load64 m' (n + N_DATA) = d → load64 m' (n + N_OWNER) = lst → linked_in.
Proof using Hnd.
  intros <- <- Hh Ht Hc Hf Hn Hp Hd Ho. pose proof Hnd as Hx.
  rewrite !NoDup_cons, not_elem_of_cons in Hx. destruct Hx as ((N1 & N2) & N3 & _).
  assert (∀ c, c ∈ (l1 ++ l2).*1 → c ∈ n :: (l1 ++ l2).*1 ∧ c ≠ n ∧ c ≠ lst) as Hcs.
  { intros c Hcin. split; [by right|]. split; intros ->; done. }
  unfold linked_in, raw_next, raw_prev. rewrite !(decide_False (P := n = lst)) by done.
  split; [|split; [done|split; [done|split; [done|split; [|done]]]]].
  - intros c [->|Hcin]%elem_of_cons; [by rewrite !(decide_True (P := lst = lst))|].
    destruct (Hcs c Hcin) as (C1 & C2 & C3). rewrite !(decide_False (P := c = lst)) by done.
    by destruct (Hf c C1 C2 C3) as (-> & -> & _).
  - intros c Hcin. destruct (Hcs c Hcin) as (C1 & C2 & C3). by destruct (Hf c C1 C2 C3) as (_ & _ & -> & ->).
Qed.

Lemma rep_insert : rep m lst (l1 ++ l2) → linked_in → rep m' lst (l1 ++ (n, d) :: l2).
Proof using Hnd Hnz.
  intros Hrep (Hf & Hn1 & Hn2 & Hc & Hk & Hd & Ho). pose proof place_in as Hin.
  destruct Hrep as [Hr Hnull Hcount Hdata].
  apply Forall_cons in Hnz as [Hn0 Hz]. pose proof (proj1 (Forall_forall _ _) Hz) as Hz'.
  apply NoDup_cons in Hnd as [Hnin Hnd'].
  assert (n ≠ lst) as Hnl by (intros ->; apply Hnin; left).
  assert (∀ c, c ∈ lst :: (l1 ++ l2).*1 → c ≠ 0) as Hc0 by (intros; by apply Hz').
  split.
  - rewrite fmap_app. cbn [fmap list_fmap fst]. rewrite fmap_app in *.
    eapply (ring_insert_at (lnext m lst) (lprev m lst)); [exact Hr|exact Hnd'|..].
    + unfold linked, lnext, lprev. destruct (Hf (before lst l1)) as [-> _]; [apply Hin; by left|].
      rewrite decide_True, Hn2 by done. unfold of_null at 1. rewrite decide_False by done.
      split; [done|]. apply of_to_null, Hc0, Hin. by left.
    + unfold linked, lnext, lprev. destruct (Hf (after lst l2)) as [_ ->]; [apply Hin; by right|].
      rewrite decide_True, Hn1 by done. unfold of_null at 2. rewrite decide_False by done.
      split; [|done]. apply of_to_null, Hc0, Hin. by right.
    + intros c Hcin Hne. unfold lnext. destruct (Hf c Hcin) as [-> _]. by rewrite decide_False.
    + intros c Hcin Hne. unfold lprev. destruct (Hf c Hcin) as [_ ->]. by rewrite decide_False.
  - intros c. rewrite fmap_app. cbn [fmap list_fmap fst]. intros Hcin.
    assert (c = n ∨ c ∈ lst :: (l1 ++ l2).*1) as [-> |Hc'].
    { rewrite fmap_app. rewrite !elem_of_cons, !elem_of_app, !elem_of_cons in *. tauto. }
    + rewrite Hn1, Hn2. split; apply to_null_ne, Hc0; left.
    + destruct (Hf c Hc') as [-> ->]. destruct (Hnull c Hc'). split; by case_decide.
  - rewrite Hc, Hcount. rewrite !length_app. simpl. lia.
  - intros c e. rewrite elem_of_app, elem_of_cons. intros Hce.
    assert ((c, e) = (n, d) ∨ (c, e) ∈ l1 ++ l2) as [[= -> ->]|Hce'] by (rewrite elem_of_app; tauto); [done|].
    by eapply data_kept.
Qed.

(** The fields after the node [n] has been taken out. *)
Definition linked_out : Prop :=
  (∀ c, c ∈ lst :: (l1 ++ l2).*1 →
     raw_next m' lst c = (if decide (c = before lst l1) then to_null lst (after lst l2) else raw_next m lst c) ∧
     raw_prev m' lst c = (if decide (c = after lst l2) then to_null lst (before lst l1) else raw_prev m lst c)) ∧
  load64 m' (lst + L_COUNT) = load64 m (lst + L_COUNT) - 1 ∧
  (∀ c, c ∈ (l1 ++ l2).*1 → load64 m' (c + N_DATA) = load64 m (c + N_DATA) ∧
    load64 m' (c + N_OWNER) = load64 m (c + N_OWNER)).

Lemma linked_out_fields a b :
  before lst l1 = a → after lst l2 = b →
  load64 m' (lst + L_HEAD) = (if decide (lst = a) then to_null lst b else load64 m (lst + L_HEAD)) →
  load64 m' (lst + L_TAIL) = (if decide (lst = b) then to_null lst a else load64 m (lst + L_TAIL)) →
  load64 m' (lst + L_COUNT) = load64 m (lst + L_COUNT) - 1 →
  (∀ c, c ∈ n :: (l1 ++ l2).*1 → c ≠ n → c ≠ lst → c ∈ (l1 ++ l2).*1 →
     load64 m' (c + N_NEXT) = (if decide (c = a) then to_null lst b else load64 m (c + N_NEXT)) ∧
     load64 m' (c + N_PREV) = (if decide (c = b) then to_null lst a else load64 m (c + N_PREV)) ∧
     load64 m' (c + N_DATA) = load64 m (c + N_DATA) ∧ load64 m' (c + N_OWNER) = load64 m (c + N_OWNER)) →
  linked_out.
Proof using Hnd.
  intros <- <- Hh Ht Hc Hf. pose proof Hnd as Hx.
  rewrite !NoDup_cons, not_elem_of_cons in Hx. destruct Hx as ((N1 & N2) & N3 & _).
  assert (∀ c, c ∈ (l1 ++ l2).*1 → c ∈ n :: (l1 ++ l2).*1 ∧ c ≠ n ∧ c ≠ lst) as Hcs.
  { intros c Hcin. split; [by right|]. split; intros ->; done. }
  unfold linked_out, raw_next, raw_prev. split; [|split; [done|]].
  - intros c [->|Hcin]%elem_of_cons; [by rewrite !(decide_True (P := lst = lst))|].
    destruct (Hcs c Hcin) as (C1 & C2 & C3). rewrite !(decide_False (P := c = lst)) by done.
    by destruct (Hf c C1 C2 C3 Hcin) as (-> & -> & _).
  - intros c Hcin. destruct (Hcs c Hcin) as (C1 & C2 & C3). by destruct (Hf c C1 C2 C3 Hcin) as (_ & _ & -> & ->).
Qed.

Lemma rep_remove : rep m lst (l1 ++ (n, d) :: l2) → linked_out → rep m' lst (l1 ++ l2).
Proof using Hnd Hnz.
  intros [Hr Hnull Hcount Hdata] (Hf & Hc & Hk). pose proof place_in as Hin.
  apply Forall_cons in Hnz as [Hn0 Hz]. pose proof (proj1 (Forall_forall _ _) Hz) as Hc0. simpl in Hc0.
  assert (NoDup (lst :: (l1 ++ (n, d) :: l2).*1)) as Hnd'.
  { rewrite fmap_app in *. cbn [fmap list_fmap fst]. rewrite app_comm_cons, <- Permutation_middle, <- app_comm_cons. done. }
  assert (∀ c, c ∈ lst :: (l1 ++ l2).*1 → c ∈ lst :: (l1 ++ (n, d) :: l2).*1) as Hsub.
  { intros c. rewrite !fmap_app. cbn [fmap list_fmap fst]. rewrite !elem_of_cons, !elem_of_app, elem_of_cons. tauto. }
  assert (∀ c, c ∈ l1 ++ l2 → c ∈ l1 ++ (n, d) :: l2) as Hsub'.
  { intros c. rewrite !elem_of_app, elem_of_cons. tauto. }
  split.
  - rewrite fmap_app in Hr, Hnd', Hin, Hc0, Hf |- *. cbn [fmap list_fmap fst] in Hr, Hnd'.
    eapply (ring_remove (lnext m lst) (lprev m lst)); [exact Hr|exact Hnd'|..].
    + unfold linked, lnext, lprev. destruct (Hf (before lst l1)) as [-> _]; [apply Hin; by left|].
      destruct (Hf (after lst l2)) as [_ ->]; [apply Hin; by right|].
      rewrite !decide_True by done. split; apply of_to_null, Hc0, Hin; tauto.
    + intros c Hcin Hne. unfold lnext. destruct (Hf c Hcin) as [-> _]. by rewrite decide_False.
    + intros c Hcin Hne. unfold lprev. destruct (Hf c Hcin) as [_ ->]. by rewrite decide_False.
  - intros c Hcin. destruct (Hf c Hcin) as [-> ->]. destruct (Hnull c (Hsub c Hcin)).
    split; case_decide; try done; apply to_null_ne, Hc0; left.
  - rewrite Hc, Hcount. rewrite !length_app. simpl. lia.
  - eapply data_kept; [done|]. intros c e Hce. by apply Hdata, Hsub'.
Qed.
End rep_change.

Definition list_field (off : Z) : Prop := off = L_HEAD ∨ off = L_TAIL ∨ off = L_COUNT.
Definition node_field (off : Z) : Prop := off = N_DATA ∨ off = N_OWNER ∨ off = N_NEXT ∨ off = N_PREV.

(** The header and the nodes [ns] are among the blocks. *)
Definition owns (bs : list (Z * Z)) (lst : Z) (ns : list Z) : Prop :=
  (lst, LIST_SIZE) ∈ bs ∧ ∀ c, c ∈ ns → (c, NODE_SIZE) ∈ bs.

Section owned.
Context `{MS : MallocSpec}.

Lemma own_list bs lst ns off : owns bs lst ns → list_field off → field_of bs lst off.
Proof using Type.
  intros [H _] Ho. exists LIST_SIZE. split; [done|].
  unfold list_field, LIST_SIZE, L_HEAD, L_TAIL, L_COUNT in *. lia.
Qed.

Lemma own_node bs lst ns c off : owns bs lst ns → c ∈ ns → node_field off → field_of bs c off.
Proof using Type.
  intros [_ H] Hc Ho. exists NODE_SIZE. split; [by apply H|].
  unfold node_field, NODE_SIZE, N_DATA, N_OWNER, N_NEXT, N_PREV in *. lia.
Qed.

Lemma owns_blocks lst l fr : owns (blocks lst l ++ fr) lst l.*1.
Proof using Type.
  split; [left|]. intros c Hc. apply elem_of_app. left. right.
  apply list_elem_of_fmap in Hc as ([n d] & -> & Hin). by apply (list_elem_of_fmap_2 (λ x, (x.1, NODE_SIZE)) l (n, d)).
Qed.

Lemma owns_new lst l n fr : owns ((n, NODE_SIZE) :: blocks lst l ++ fr) lst (n :: l.*1).
Proof using Type.
  destruct (owns_blocks lst l fr) as [H1 H2]. split; [by right|].
  intros c [->|Hc]%elem_of_cons; [left|right; by apply H2].
Qed.

Lemma owns_sub bs lst ns ns' : owns bs lst ns → (∀ c, c ∈ ns' → c ∈ ns) → owns bs lst ns'.
Proof using Type. intros [H1 H2] Hs. split; [done|]. auto. Qed.

Lemma owns_positive s bs lst ns c : heap s bs → owns bs lst ns → c ∈ lst :: ns → 0 < c < 2 ^ 64.
Proof using Type.
  intros Hh [H1 H2] [->|Hc]%elem_of_cons.
  - pose proof (heap_range _ _ _ Hh H1) as Hr. unfold LIST_SIZE in Hr. simpl in Hr. lia.
  - pose proof (heap_range _ _ _ Hh (H2 c Hc)) as Hr. unfold NODE_SIZE in Hr. simpl in Hr. lia.
Qed.

Lemma blocks_fst lst l : (blocks lst l).*1 = lst :: l.*1.
Proof using Type. unfold blocks. simpl. f_equal. rewrite <- list_fmap_compose. done. Qed.

(** Nodes have different addresses, whatever the other blocks are. *)
Lemma nodes_nodup s bs fr : heap s (bs ++ fr) → Forall (λ x, 0 < x.2) bs → NoDup bs.*1.
Proof using Type.
  intros Hh Hp. apply NoDup_alt. intros i j a Hi Hj. destruct (decide (i = j)) as [|Hne]; [done|]. exfalso.
  rewrite list_lookup_fmap in Hi, Hj. apply fmap_Some in Hi as ([x k] & Hi & ->). apply fmap_Some in Hj as ([y k'] & Hj & E).
  simpl in E. subst y.
  pose proof (heap_two _ _ _ _ _ _ Hh (lookup_app_l_Some _ fr _ _ Hi) (lookup_app_l_Some _ fr _ _ Hj) Hne) as Ha.
  unfold apart in Ha. simpl in Ha.
  pose proof (proj1 (Forall_lookup _ _) Hp i _ Hi). pose proof (proj1 (Forall_lookup _ _) Hp j _ Hj). simpl in *. lia.
Qed.

Lemma blocks_positive lst l : Forall (λ x : Z * Z, 0 < x.2) (blocks lst l).
Proof using Type.
  apply Forall_cons. split; [done|]. apply Forall_forall. intros x (y & -> & _)%list_elem_of_fmap. done.
Qed.

Lemma blocks_nodup s lst l fr : heap s (blocks lst l ++ fr) → NoDup (lst :: l.*1).
Proof using Type. intros Hh. rewrite <- blocks_fst. eapply nodes_nodup; [done|apply blocks_positive]. Qed.

Lemma new_nodup s lst l n fr : heap s ((n, NODE_SIZE) :: blocks lst l ++ fr) → NoDup (n :: lst :: l.*1).
Proof using Type.
  intros Hh. rewrite <- blocks_fst. change (n :: _) with (((n, NODE_SIZE) :: blocks lst l).*1).
  eapply (nodes_nodup s _ fr); [done|]. apply Forall_cons. split; [done|apply blocks_positive].
Qed.

(** A store to a block, in a chain of stores. *)
Lemma heap_stored s m bs a off v :
  heap (set_mem m s) bs → field_of bs a off → heap (set_mem (store64 m (a + off) v) s) bs.
Proof using Type. intros Hh Hf. exact (heap_field (set_mem m s) bs a off v Hh Hf). Qed.

Lemma kept_stored s bs fr m0 m a off v :
  heap s (bs ++ fr) → field_of bs a off → blocks_kept m0 m fr → blocks_kept m0 (store64 m (a + off) v) fr.
Proof using Type. intros Hh Hf Hk. eapply blocks_kept_trans; [exact Hk|]. by eapply store_blocks_kept. Qed.

Lemma rep_kept m m' lst l : blocks_kept m m' (blocks lst l) → rep m lst l → rep m' lst l.
Proof using Type.
  intros Hk [Hr Hn Hc Hd]. pose proof (owns_blocks lst l []) as Ho. rewrite app_nil_r in Ho.
  assert (∀ c, c ∈ lst :: l.*1 → raw_next m' lst c = raw_next m lst c ∧ raw_prev m' lst c = raw_prev m lst c) as Hf.
  { intros c Hc'. unfold raw_next, raw_prev. split; apply (kept_field _ _ _ _ _ Hk); case_decide; subst.
    1, 3: eapply own_list; [exact Ho|unfold list_field; tauto].
    all: apply elem_of_cons in Hc' as [?|Hc']; [done|]; eapply own_node; [exact Ho|done|unfold node_field; tauto]. }
  split.
  - eapply ring_update; [..|exact Hr]; intros c Hc'; unfold lnext, lprev;
      destruct (Hf c Hc') as [E1 E2]; by rewrite ?E1, ?E2.
  - intros c Hc'. destruct (Hf c Hc') as [-> ->]. by apply Hn.
  - rewrite (kept_field _ _ _ _ _ Hk); [done|]. eapply own_list; [exact Ho|unfold list_field; tauto].
  - intros n d Hin. assert (n ∈ l.*1) as Hn' by (by apply (list_elem_of_fmap_2' fst _ (n, d))).
    rewrite !(kept_field _ _ _ _ _ Hk); [by apply Hd|..]; eapply own_node; try exact Ho; try done; unfold node_field; tauto.
Qed.
End owned.
