(* ===== verification/LinkedListOps.v ===== *)
(** * The operations of the linked list

    Each operation of [LinkedList.v], run symbolically on a list in memory: the
    stores it makes are to fields of the list's blocks, and the fields it leaves
    are those of the list with one node more or less. *)

From S2P Require Import Prelude Memory Kalloc Ring LinkedList.

(** ** Symbolic execution *)

Lemma run_rd64 {A} a (k : Z → M kmem A) s : bind (rd64 a) k s = k (load64 (km_mem s) a) s.
Proof. done. Qed.
Lemma run_wr64 {A} a v (k : () → M kmem A) s m : bind (wr64 a v) k (set_mem m s) = k () (set_mem (store64 m a v) s).
Proof. done. Qed.
Lemma wr64_set a v s m : wr64 a v (set_mem m s) = Ret ((), set_mem (store64 m a v) s).
Proof. done. Qed.
Lemma set_mem_self s : set_mem (km_mem s) s = s.
Proof. by destruct s. Qed.
Lemma km_set_mem m s : km_mem (set_mem m s) = m.
Proof. done. Qed.

Lemma bind_retv {S A B} (a : A) (k : A → M S B) s : bind (ret a) k s = k a s.
Proof. done. Qed.

(** Runs the code up to the next test. *)
Ltac run := repeat first
  [ rewrite bind_assoc | rewrite run_rd64, km_set_mem | rewrite run_wr64 | rewrite bind_retv | rewrite wr64_set ].

(** Closes the goals on blocks that the rewriting below leaves. *)
Ltac own :=
  lazymatch goal with
  | |- heap _ _ => eassumption
  | |- owns _ _ _ => eassumption
  | |- field_of _ _ _ =>
      first
        [ eapply own_list; [eassumption|unfold list_field; tauto]
        | eapply own_node; [eassumption|eassumption|unfold node_field; tauto] ]
  | |- _ => unfold L_HEAD, L_TAIL, L_COUNT, N_DATA, N_OWNER, N_NEXT, N_PREV; lia
  end.

(** Reads fields through the stores to others. *)
Ltac fields :=
  repeat (progress (
  repeat first [ erewrite field_same by own | erewrite field_diff by own ];
  repeat match goal with
  | |- context [decide (?a = ?b)] => rewrite (decide_False (P := a = b)) by congruence
  | |- context [decide (?a = ?b)] => rewrite (decide_True (P := a = b)) by congruence
  end)).

(** Distinct addresses are fewer than there are words. *)
Lemma nodup_words (l : list Z) : NoDup l → Forall (λ c, 0 < c < 2 ^ 64) l → Z.of_nat (length l) < 2 ^ 64.
Proof.
  intros Hnd Hl. assert (l ⊆+ seqZ 1 (2 ^ 64 - 1)) as Hsub.
  { apply NoDup_submseteq; [done|]. intros c Hc. rewrite elem_of_seqZ.
    pose proof (proj1 (Forall_forall _ _) Hl c Hc). simpl in *. lia. }
  apply submseteq_length in Hsub. rewrite length_seqZ in Hsub. lia.
Qed.

Section refine.
Context `{MS : MallocSpec} (lst : Z) (fr : list (Z * Z)).

(** The list [l] at [lst], with other allocated blocks [fr]. *)
Definition list_at (s : kmem) (l : list (Z * Z)) : Prop := heap s (blocks lst l ++ fr) ∧ rep (km_mem s) lst l.

(** The node [n] has been allocated for the list [l], and not yet linked. *)
Record fresh (s : kmem) (l : list (Z * Z)) (n d : Z) : Prop := {
  fresh_heap : heap s (((n, NODE_SIZE) :: blocks lst l) ++ fr);
  fresh_rep : rep (km_mem s) lst l;
  fresh_data : load64 (km_mem s) (n + N_DATA) = d;
  fresh_owner : load64 (km_mem s) (n + N_OWNER) = lst;
  fresh_next : load64 (km_mem s) (n + N_NEXT) = 0;
  fresh_prev : load64 (km_mem s) (n + N_PREV) = 0
}.

(** [malloc] returns NULL in the state [s]. *)
Definition no_memory (s : kmem) : bool :=
  match malloc NODE_SIZE s with Ret (p, _) => p =? 0 | _ => false end.

Lemma no_memory_ret s p s' : malloc NODE_SIZE s = Ret (p, s') → no_memory s = (p =? 0).
Proof using Type. intros E. unfold no_memory. by rewrite E. Qed.

Lemma new_node_result s l d : list_at s l → 0 ≤ d < 2 ^ 64 →
  ∃ n s', new_node lst d s = Ret (n, s') ∧ blocks_kept (km_mem s) (km_mem s') fr ∧
    if no_memory s then n = 0 ∧ list_at s' l else n ≠ 0 ∧ fresh s' l n d.
Proof.
  intros [Hh Hrep] Hd. destruct (malloc_ok s _ Hh) as (n & s1 & E & Hk & Hn).
  assert (rep (km_mem s1) lst l) as Hrep1.
  { eapply rep_kept; [|exact Hrep]. eapply blocks_kept_sub; [|exact Hk]. intros x Hx. apply elem_of_app. by left. }
  assert (blocks_kept (km_mem s) (km_mem s1) fr) as Hkf.
  { eapply blocks_kept_sub; [|exact Hk]. intros x Hx. apply elem_of_app. by right. }
  unfold new_node. rewrite (bind_ret _ _ _ _ _ E), (no_memory_ret _ _ _ E). destruct Hn as [[-> Hh1]|[Hn0 Hh1]].
  { exists 0, s1. by split_and!. }
  exists n. rewrite (proj2 (Z.eqb_neq _ _)) by done. rewrite <- (set_mem_self s1), !run_wr64.
  change (heap s1 (((n, NODE_SIZE) :: blocks lst l) ++ fr)) in Hh1.
  assert (owns ((n, NODE_SIZE) :: blocks lst l ++ fr) lst (n :: l.*1)) as Ho by apply owns_new.
  assert (owns ((n, NODE_SIZE) :: blocks lst l) lst (n :: l.*1)) as Ho'.
  { pose proof (owns_new lst l n []) as H. by rewrite app_nil_r in H. }
  assert (n ∈ n :: l.*1) as Hnin by left.
  pose proof (owns_positive _ _ _ _ n Hh1 Ho ltac:(by right)) as Hnr.
  pose proof (owns_positive _ _ _ _ lst Hh1 Ho ltac:(by left)) as Hlr.
  eexists. split; [reflexivity|]. rewrite km_set_mem. split.
  { repeat (eapply kept_stored; [exact Hh1|own|]). exact Hkf. }
  split; [done|]. split.
  - repeat (apply heap_stored; [|own]). by rewrite set_mem_self.
  - rewrite km_set_mem. eapply rep_kept; [|exact Hrep1].
    assert (heap s1 ([(n, NODE_SIZE)] ++ (blocks lst l ++ fr))) as Hh2 by exact Hh1.
    assert (∀ off, node_field off → field_of [(n, NODE_SIZE)] n off) as Hnf.
    { intros off Hoff. exists NODE_SIZE. split; [left|].
      unfold node_field, NODE_SIZE, N_DATA, N_OWNER, N_NEXT, N_PREV in *. lia. }
    eapply blocks_kept_sub with (bs := blocks lst l ++ fr); [intros x Hx; apply elem_of_app; by left|].
    repeat (eapply kept_stored; [exact Hh2|apply Hnf; unfold node_field; tauto|]). apply blocks_kept_refl.
  - rewrite km_set_mem. by fields.
  - rewrite km_set_mem. by fields.
  - rewrite km_set_mem. by fields.
  - rewrite km_set_mem. by fields.
Qed.

Lemma nodes_few s l : heap s (blocks lst l ++ fr) → Z.of_nat (length l) + 1 < 2 ^ 64.
Proof.
  intros Hh. pose proof (nodup_words (lst :: l.*1) (blocks_nodup _ _ _ _ Hh)) as Hw.
  simpl in Hw. rewrite length_fmap, Nat2Z.inj_succ in Hw.
  assert (Forall (λ c, 0 < c < 2 ^ 64) (lst :: l.*1)) as Hp; [|specialize (Hw Hp); lia].
  apply Forall_forall. intros c Hc. eapply owns_positive; [exact Hh|apply owns_blocks|done].
Qed.

Lemma insert_done s l1 l2 n d m' :
  fresh s (l1 ++ l2) n d → heap (set_mem m' s) (((n, NODE_SIZE) :: blocks lst (l1 ++ l2)) ++ fr) →
  linked_in (km_mem s) m' lst l1 l2 n d → list_at (set_mem m' s) (l1 ++ (n, d) :: l2).
Proof.
  intros Hfr Hh Hl. split.
  - eapply heap_perm; [|exact Hh]. unfold blocks. rewrite !fmap_app. cbn [fmap list_fmap fst].
    rewrite <- Permutation_middle. simpl. apply Permutation_swap.
  - pose proof (new_nodup _ _ _ _ _ (fresh_heap _ _ _ _ Hfr)) as Hnd.
    eapply rep_insert; [exact Hnd| |apply Hfr|exact Hl].
    apply Forall_forall. intros c Hc.
    pose proof (owns_positive _ _ _ _ c (fresh_heap _ _ _ _ Hfr) (owns_new lst (l1 ++ l2) n fr)) as Hp.
    rewrite !elem_of_cons in Hc, Hp. cut (0 < c < 2 ^ 64); [lia|]. apply Hp. tauto.
Qed.

Lemma rep_ends m l : rep m lst l →
  load64 m (lst + L_HEAD) = to_null lst (after lst l) ∧ load64 m (lst + L_TAIL) = to_null lst (before lst l).
Proof using Type.
  intros Hr. destruct (rep_at m lst [] l Hr) as [H1 _]. unfold raw_next in H1. simpl in H1.
  rewrite <- (app_nil_r l) in Hr. destruct (rep_at m lst l [] Hr) as [_ H2]. unfold raw_prev in H2. simpl in H2.
  unfold last_of in H1. simpl in H1. rewrite decide_True in H1, H2 by done. by split.
Qed.

Lemma rep_fields m l1 c e l2 : rep m lst (l1 ++ (c, e) :: l2) → c ≠ lst →
  load64 m (c + N_NEXT) = to_null lst (after lst l2) ∧ load64 m (c + N_PREV) = to_null lst (before lst l1) ∧
  load64 m (c + N_DATA) = e ∧ load64 m (c + N_OWNER) = lst.
Proof using Type.
  intros Hr Hc. destruct (rep_at m lst l1 ((c, e) :: l2) Hr) as [_ H1].
  assert (load64 m (c + N_DATA) = e ∧ load64 m (c + N_OWNER) = lst) as Hd.
  { apply (rep_node _ _ _ Hr). apply elem_of_app. right. left. }
  rewrite cons_middle, app_assoc in Hr. destruct (rep_at m lst (l1 ++ [(c, e)]) l2 Hr) as [H2 _].
  rewrite fmap_app in H2. simpl in H1, H2. rewrite last_of_snoc in H2. unfold raw_next, raw_prev in *.
  rewrite decide_False in H1, H2 by done. tauto.
Qed.

(** [m'] is [m] after stores to fields of the blocks [bs]. *)
Inductive written (bs : list (Z * Z)) (m : mem) : mem → Prop :=
| written_none : written bs m m
| written_store m' a off v : written bs m m' → field_of bs a off → written bs m (store64 m' (a + off) v).

Lemma written_heap s bs m' : heap s (bs ++ fr) → written bs (km_mem s) m' →
  heap (set_mem m' s) (bs ++ fr) ∧ blocks_kept (km_mem s) m' fr.
Proof.
  intros Hh Hw. induction Hw as [|m' a off v Hw [IH1 IH2] Hf].
  - rewrite set_mem_self. split; [done|apply blocks_kept_refl].
  - destruct Hf as (k & Hk & Ho). split.
    + apply heap_stored; [done|]. exists k. split; [apply elem_of_app; by left|done].
    + eapply kept_stored; [exact Hh| |done]. by exists k.
Qed.

(** The outcome of an operation that inserts an element at a place: it fails just
    when there is no memory. *)
Definition inserts (s : kmem) (l1 l2 : list (Z * Z)) (d : Z) (o : outcome (bool * kmem)) : Prop :=
  ∃ s', blocks_kept (km_mem s) (km_mem s') fr ∧
    if no_memory s then o = Ret (false, s') ∧ list_at s' (l1 ++ l2)
    else ∃ n, o = Ret (true, s') ∧ list_at s' (l1 ++ (n, d) :: l2).

(** Every insertion starts with [new_node]; what is left is to link the node. *)
Lemma inserts_new s l1 l2 d (k : Z → M kmem bool) :
  list_at s (l1 ++ l2) → 0 ≤ d < 2 ^ 64 → (∀ s, k 0 s = Ret (false, s)) →
  (∀ s n, n ≠ 0 → fresh s (l1 ++ l2) n d → ∃ m', k n (set_mem (km_mem s) s) = Ret (true, set_mem m' s) ∧
     written ((n, NODE_SIZE) :: blocks lst (l1 ++ l2)) (km_mem s) m' ∧
     linked_in (km_mem s) m' lst l1 l2 n d) →
  inserts s l1 l2 d (bind (new_node lst d) k s).
Proof.
  intros Hl Hd Hk0 Hk. destruct (new_node_result s _ d Hl Hd) as (n & s1 & E & Hkept & Hn).
  unfold inserts. rewrite (bind_ret _ _ _ _ _ E). destruct (no_memory s); [destruct Hn as [-> Hl1]|destruct Hn as [Hn Hfr]].
  - exists s1. split; [done|]. by rewrite Hk0.
  - destruct (Hk s1 n Hn Hfr) as (m' & Ek & Hw & Hin). exists (set_mem m' s1).
    rewrite set_mem_self in Ek. destruct (written_heap _ _ _ (fresh_heap _ _ _ _ Hfr) Hw) as [Hh Hk'].
    split; [by eapply blocks_kept_trans|]. exists n. split; [done|]. by apply insert_done.
Qed.

(** What the code that links the node [n] may use. *)
Lemma fresh_facts s l n d : fresh s l n d →
  owns (((n, NODE_SIZE) :: blocks lst l) ++ fr) lst (n :: l.*1) ∧
  owns ((n, NODE_SIZE) :: blocks lst l) lst (n :: l.*1) ∧
  NoDup (n :: lst :: l.*1) ∧ (∀ c, c ∈ n :: lst :: l.*1 → 0 < c < 2 ^ 64) ∧
  (∀ c, c ∈ l.*1 → c ≠ n ∧ c ≠ lst) ∧ n ≠ lst ∧ n ∈ n :: l.*1 ∧
  load64 (km_mem s) (lst + L_COUNT) = Z.of_nat (length l) ∧ Z.of_nat (length l) + 1 < 2 ^ 64.
Proof.
  intros [Hh Hr _ _ _ _]. pose proof (new_nodup _ _ _ _ _ Hh) as Hnd.
  split; [apply owns_new|]. split.
  { pose proof (owns_new lst l n []) as H. by rewrite app_nil_r in H. }
  assert (∀ c, c ∈ n :: lst :: l.*1 → 0 < c < 2 ^ 64) as Hp.
  { intros c Hc. eapply owns_positive; [exact Hh|apply owns_new|]. rewrite !elem_of_cons in *. tauto. }
  pose proof (nodup_words _ Hnd (proj2 (Forall_forall _ _) Hp)) as Hw. simpl in Hw. rewrite length_fmap in Hw.
  split; [done|]. split; [done|].
  rewrite !NoDup_cons, not_elem_of_cons in Hnd. destruct Hnd as ((Hnl & Hn) & Hl & _).
  split; [intros c Hc; split; intros ->; done|]. split; [done|]. split; [left|].
  split; [apply Hr|lia].
Qed.


(** Shows that all stores were to fields of the list. *)
Ltac stores := repeat (apply written_store; [|own]); apply written_none.

(** Reads a field and compares addresses. *)
Ltac read :=
  fields;
  try match goal with
  | H : ∀ a off, field_of _ a off → load64 (km_mem ?s) (a + off) = _ |- context [load64 (km_mem ?s) _] =>
      rewrite !H by own; fields
  end;
  unfold to_null; repeat (case_decide; try congruence); try (congruence || lia).

(** Shows [linked_in] field by field. *)
Ltac links_in :=
  eexists; split; [reflexivity|]; split; [stores|];
  eapply linked_in_fields;
    [eassumption|eassumption|eassumption|read|read|read|intros c Hcin Hcn Hcl; split_and!; read|read..].

(** The last node of a list that is not empty. *)
Lemma before_snoc (l1 : list (Z * Z)) c e : before lst (l1 ++ [(c, e)]) = c.
Proof using Type. rewrite fmap_app. simpl. apply last_of_snoc. Qed.

Lemma to_null_node c : c ≠ lst → to_null lst c = c.
Proof using Type. intros. unfold to_null. by rewrite decide_False. Qed.

Lemma to_null_list : to_null lst lst = 0.
Proof using Type. unfold to_null. by rewrite decide_True. Qed.

Lemma push_front_result s l d : list_at s l → 0 ≤ d < 2 ^ 64 → inserts s [] l d (push_front lst d s).
Proof.
  intros Hl Hd. apply (inserts_new s [] l d); [exact Hl|exact Hd|done|].
  clear s Hl. intros s n Hn0 Hfr. simpl (_ ++ _) in *.
  destruct (fresh_facts _ _ _ _ Hfr) as (Ho & Ho' & Hnd & Hp & Hne & Hnl & Hnin & Hcount & Hw).
  destruct Hfr as [Hh Hrep Fd Fo Fn Fp].
  pose proof (Hp n ltac:(left)) as Hnr. destruct (rep_ends _ _ Hrep) as [Hhd Htl].
  assert (last_of lst (@nil (Z * Z)).*1 = lst) as Hbef by done.
  rewrite (proj2 (Z.eqb_neq _ _)) by done. unfold empty, add_count. run. rewrite Hcount.
  destruct l as [|[h e] l].
  - change (Z.of_nat (length []) =? 0) with true. cbv iota.
    assert (default lst (head (@nil (Z * Z)).*1) = lst) as Haft by done.
    run. fields. rewrite Hcount, u64_small by lia. links_in.
  - rewrite (proj2 (Z.eqb_neq _ _)) by (simpl; lia). cbv iota.
    assert (after lst ((h, e) :: l) = h) as Haft by done.
    assert (h ∈ n :: h :: l.*1) as Hhin by (right; left). pose proof (Hne h ltac:(left)) as [Hhn Hhl].
    pose proof (Hp h ltac:(right; right; left)) as Hhr. rewrite Haft, to_null_node in Hhd by done.
    run. rewrite Hhd. fields. rewrite Hhd. fields. rewrite Hcount, u64_small by lia. links_in.
Qed.

Lemma push_back_result s l d : list_at s l → 0 ≤ d < 2 ^ 64 → inserts s l [] d (push_back lst d s).
Proof.
  intros Hl Hd. apply (inserts_new s l [] d); [by rewrite app_nil_r|exact Hd|done|].
  clear s Hl. intros s n Hn0 Hfr.
  destruct (fresh_facts _ _ _ _ Hfr) as (Ho & Ho' & Hnd & Hp & Hne & Hnl & Hnin & Hcount & Hw).
  destruct Hfr as [Hh Hrep Fd Fo Fn Fp].
  pose proof (Hp n ltac:(left)) as Hnr. destruct (rep_ends _ _ Hrep) as [Hhd Htl]. rewrite app_nil_r in Hcount, Hw, Htl.
  assert (default lst (head (@nil (Z * Z)).*1) = lst) as Haft by done.
  rewrite (proj2 (Z.eqb_neq _ _)) by done. unfold empty, add_count. run. rewrite Hcount.
  destruct l as [|[t e] l _] using rev_ind.
  - change (Z.of_nat (length []) =? 0) with true. cbv iota.
    assert (last_of lst (@nil (Z * Z)).*1 = lst) as Hbef by done.
    run. fields. rewrite Hcount, u64_small by lia. links_in.
  - rewrite (proj2 (Z.eqb_neq _ _)) by (rewrite length_app; simpl; lia). cbv iota.
    pose proof (before_snoc l t e) as Hbef. rewrite Hbef in Htl.
    assert (t ∈ ((l ++ [(t, e)]) ++ []).*1) as Htin.
    { rewrite app_nil_r, fmap_app. apply elem_of_app. right. left. }
    destruct (Hne t Htin) as [Htn Htlst]. pose proof (Hp t ltac:(by right; right)) as Htr.
    assert (t ∈ n :: ((l ++ [(t, e)]) ++ []).*1) as Htin' by (by right). rewrite to_null_node in Htl by done.
    run. rewrite Htl. fields. rewrite Htl. fields. rewrite Hcount, u64_small by lia. links_in.
Qed.

(** ** Finding a node *)

Lemma rep_split m l i c e : rep m lst l → NoDup (lst :: l.*1) → l !! i = Some (c, e) →
  c ≠ lst ∧ load64 m (c + N_NEXT) = to_null lst (after lst (drop (S i) l)) ∧
  load64 m (c + N_PREV) = to_null lst (before lst (take i l)) ∧
  load64 m (c + N_DATA) = e ∧ load64 m (c + N_OWNER) = lst.
Proof using Type.
  intros Hr Hnd Hi. assert (c ≠ lst) as Hc.
  { intros ->. apply NoDup_cons in Hnd as [Hn _]. apply Hn. apply (list_elem_of_lookup_2 _ i).
    by rewrite list_lookup_fmap, Hi. }
  split; [done|]. apply rep_fields; [|done]. by rewrite take_drop_middle.
Qed.

Lemma rep_step m l i c e c' e' : rep m lst l → NoDup (lst :: l.*1) →
  l !! i = Some (c, e) → l !! S i = Some (c', e') → load64 m (c + N_NEXT) = c' ∧ load64 m (c' + N_PREV) = c.
Proof using Type.
  intros Hr Hnd Hi Hi'. destruct (rep_split _ _ _ _ _ Hr Hnd Hi) as (Hc & Hn & _).
  destruct (rep_split _ _ _ _ _ Hr Hnd Hi') as (Hc' & _ & Hp & _).
  rewrite (drop_S _ _ _ Hi') in Hn. rewrite (take_S_r _ _ _ Hi), before_snoc in Hp. simpl in Hn.
  rewrite to_null_node in Hn, Hp by done. done.
Qed.

Lemma follow_next s l (Hr : rep (km_mem s) lst l) (Hnd : NoDup (lst :: l.*1)) k : ∀ i c e c' e',
  l !! i = Some (c, e) → l !! (i + k)%nat = Some (c', e') → follow k N_NEXT c s = Ret (c', s).
Proof using Type.
  induction k as [|k IH]; intros i c e c' e' Hi Hk.
  - rewrite Nat.add_0_r in Hk. rewrite Hi in Hk. by injection Hk as -> _.
  - pose proof (lookup_lt_Some _ _ _ Hk) as Hlt.
    destruct (lookup_lt_is_Some_2 l (S i)) as [[c1 e1] H1]; [lia|].
    cbn [follow]. rewrite run_rd64. destruct (rep_step _ _ _ _ _ _ _ Hr Hnd Hi H1) as [-> _].
    apply (IH (S i) c1 e1 c' e' H1). by replace (S i + k)%nat with (i + S k)%nat by lia.
Qed.

Lemma follow_prev s l (Hr : rep (km_mem s) lst l) (Hnd : NoDup (lst :: l.*1)) k : ∀ i c e c' e',
  l !! (i + k)%nat = Some (c, e) → l !! i = Some (c', e') → follow k N_PREV c s = Ret (c', s).
Proof using Type.
  induction k as [|k IH]; intros i c e c' e' Hk Hi.
  - rewrite Nat.add_0_r in Hk. rewrite Hi in Hk. by injection Hk as -> _.
  - pose proof (lookup_lt_Some _ _ _ Hk) as Hlt. rewrite Nat.add_succ_r in Hk.
    destruct (lookup_lt_is_Some_2 l (i + k)) as [[c1 e1] H1]; [lia|].
    cbn [follow]. rewrite run_rd64. destruct (rep_step _ _ _ _ _ _ _ Hr Hnd H1 Hk) as [_ ->].
    by apply (IH i c1 e1 c' e' H1).
Qed.

Lemma rep_first m l c e : rep m lst l → NoDup (lst :: l.*1) → l !! 0%nat = Some (c, e) → load64 m (lst + L_HEAD) = c.
Proof using Type.
  intros Hr Hnd H0. destruct (rep_split _ _ _ _ _ Hr Hnd H0) as (Hc & _). destruct (rep_ends _ _ Hr) as [-> _].
  destruct l as [|[x y] l]; [done|]. injection H0 as -> ->. by apply to_null_node.
Qed.

Lemma rep_last m l c e : rep m lst l → NoDup (lst :: l.*1) → l !! (length l - 1)%nat = Some (c, e) →
  load64 m (lst + L_TAIL) = c.
Proof using Type.
  intros Hr Hnd H0. destruct (rep_split _ _ _ _ _ Hr Hnd H0) as (Hc & _). destruct (rep_ends _ _ Hr) as [_ ->].
  destruct l as [|[x y] l _] using rev_ind; [done|]. rewrite length_app in H0. simpl in H0.
  rewrite Nat.add_sub, lookup_app_r, Nat.sub_diag in H0 by lia. injection H0 as -> ->.
  rewrite before_snoc. by apply to_null_node.
Qed.

(** [get_node] finds the node with a number, from the nearer end. *)
Lemma get_node_result s l idx : rep (km_mem s) lst l → NoDup (lst :: l.*1) → 0 ≤ idx →
  get_node lst idx s = Ret (default 0 (l.*1 !! Z.to_nat idx), s).
Proof using Type.
  intros Hr Hnd Hidx. unfold get_node, empty. rewrite run_rd64, (rep_count _ _ _ Hr).
  rewrite list_lookup_fmap. destruct (Z.leb_spec (Z.of_nat (length l)) idx).
  { by rewrite lookup_ge_None_2 by lia. }
  rewrite bind_assoc, run_rd64, bind_retv, (rep_count _ _ _ Hr), (proj2 (Z.eqb_neq _ _)) by lia.
  destruct (lookup_lt_is_Some_2 l (Z.to_nat idx)) as [[c e] Hc]; [lia|]. rewrite Hc. simpl.
  destruct (idx <=? Z.of_nat (length l) / 2); rewrite run_rd64.
  - destruct (lookup_lt_is_Some_2 l 0) as [[c0 e0] H0]; [lia|]. rewrite (rep_first _ _ _ _ Hr Hnd H0).
    by eapply follow_next.
  - destruct (lookup_lt_is_Some_2 l (length l - 1)) as [[c0 e0] H0]; [lia|]. rewrite (rep_last _ _ _ _ Hr Hnd H0).
    eapply follow_prev; [done|done| |exact Hc]. rewrite <- H0. f_equal. lia.
Qed.

Lemma push_middle_result s l1 p e q e' l2 d (idx := Z.of_nat (length (l1 ++ [(p, e)]))) :
  list_at s ((l1 ++ [(p, e)]) ++ (q, e') :: l2) → 0 ≤ d < 2 ^ 64 →
  inserts s (l1 ++ [(p, e)]) ((q, e') :: l2) d (push lst d idx s).
Proof.
  intros Hl Hd. pose proof Hl as [Hh0 Hrep0].
  assert (Z.of_nat (length ((l1 ++ [(p, e)]) ++ (q, e') :: l2)) = idx + 1 + Z.of_nat (length l2)) as Hlen.
  { rewrite length_app. simpl. lia. }
  assert (0 < idx) as Hpos by (unfold idx; rewrite length_app; simpl; lia).
  unfold push. rewrite run_rd64, (rep_count _ _ _ Hrep0), Hlen.
  destruct (Z.ltb_spec (idx + 1 + Z.of_nat (length l2)) idx); [lia|].
  rewrite (proj2 (Z.eqb_neq idx 0)), (proj2 (Z.eqb_neq idx _)) by lia.
  apply inserts_new; [exact Hl|exact Hd|done|].
  clear s Hl Hh0 Hrep0. intros s n Hn0 Hfr.
  destruct (fresh_facts _ _ _ _ Hfr) as (Ho & Ho' & Hnd & Hp & Hne & Hnl & Hnin & Hcount & Hw).
  destruct Hfr as [Hh Hrep Fd Fo Fn Fp]. pose proof (Hp n ltac:(left)) as Hnr.
  rewrite (proj2 (Z.eqb_neq _ _)) by done.
  pose proof (before_snoc l1 p e) as Hbef. assert (after lst ((q, e') :: l2) = q) as Haft by done.
  pose proof Hnd as Hnd'. apply NoDup_cons in Hnd' as [_ Hnd'].
  assert (p ∈ ((l1 ++ [(p, e)]) ++ (q, e') :: l2).*1 ∧ q ∈ ((l1 ++ [(p, e)]) ++ (q, e') :: l2).*1) as [Hpin Hqin].
  { rewrite !fmap_app. simpl. rewrite !elem_of_app, !elem_of_cons. tauto. }
  destruct (Hne p Hpin) as [Hpn Hpl]. destruct (Hne q Hqin) as [Hqn Hql].
  pose proof (Hp p ltac:(by right; right)) as Hpr. pose proof (Hp q ltac:(by right; right)) as Hqr.
  assert (p ∈ n :: ((l1 ++ [(p, e)]) ++ (q, e') :: l2).*1) as Hpin' by (by right).
  assert (q ∈ n :: ((l1 ++ [(p, e)]) ++ (q, e') :: l2).*1) as Hqin' by (by right).
  assert (load64 (km_mem s) (p + N_NEXT) = q) as Hpq.
  { destruct (rep_at _ _ _ _ Hrep) as [H1 _]. rewrite Hbef, Haft, to_null_node in H1 by done.
    unfold raw_next in H1. by rewrite decide_False in H1 by done. }
  rewrite (bind_ret _ _ _ p (set_mem (km_mem s) s)).
  2: { rewrite set_mem_self, (get_node_result _ _ _ Hrep Hnd') by lia. do 3 f_equal.
       rewrite list_lookup_fmap, lookup_app_l; [|unfold idx; rewrite length_app; simpl; lia].
       rewrite lookup_app_r by (unfold idx; rewrite length_app; simpl; lia).
       replace (Z.to_nat (idx - 1) - length l1)%nat with 0%nat; [done|]. unfold idx. rewrite length_app. simpl. lia. }
  unfold add_count. run. rewrite Hpq. fields. rewrite Hcount, u64_small by lia. links_in.
Qed.

Lemma insert_nxt_result s l1 p e l2 d :
  list_at s ((l1 ++ [(p, e)]) ++ l2) → 0 ≤ d < 2 ^ 64 → inserts s (l1 ++ [(p, e)]) l2 d (insert_nxt p d s).
Proof.
  intros Hl Hd. pose proof Hl as [Hh0 Hrep0]. pose proof (blocks_nodup _ _ _ _ Hh0) as Hnd0.
  assert (((l1 ++ [(p, e)]) ++ l2) !! length l1 = Some (p, e)) as Hi.
  { rewrite <- app_assoc. by apply list_lookup_middle. }
  unfold insert_nxt. rewrite run_rd64. destruct (rep_split _ _ _ _ _ Hrep0 Hnd0 Hi) as (_ & _ & _ & _ & ->).
  apply inserts_new; [exact Hl|exact Hd|done|].
  clear s Hl Hh0 Hrep0 Hnd0. intros s n Hn0 Hfr.
  destruct (fresh_facts _ _ _ _ Hfr) as (Ho & Ho' & Hnd & Hp & Hne & Hnl & Hnin & Hcount & Hw).
  destruct Hfr as [Hh Hrep Fd Fo Fn Fp]. pose proof (Hp n ltac:(left)) as Hnr.
  rewrite (proj2 (Z.eqb_neq _ _)) by done.
  pose proof (before_snoc l1 p e) as Hbef. pose proof Hnd as Hnd'. apply NoDup_cons in Hnd' as [_ Hnd'].
  destruct (rep_split _ _ _ _ _ Hrep Hnd' Hi) as (Hpl & Hpn & _ & _ & Hpo).
  assert (drop (S (length l1)) ((l1 ++ [(p, e)]) ++ l2) = l2) as Hdrop.
  { rewrite drop_app_length'; [done|]. rewrite length_app. simpl. lia. }
  rewrite Hdrop in Hpn. clear Hi Hdrop.
  assert (p ∈ ((l1 ++ [(p, e)]) ++ l2).*1) as Hpin.
  { rewrite !fmap_app. simpl. rewrite !elem_of_app, !elem_of_cons. tauto. }
  destruct (Hne p Hpin) as [Hpn' _]. pose proof (Hp p ltac:(by right; right)) as Hpr.
  assert (p ∈ n :: ((l1 ++ [(p, e)]) ++ l2).*1) as Hpin' by (by right).
  destruct (rep_ends _ _ Hrep) as [_ Htl]. pose proof (Hp lst ltac:(right; left)) as Hlr.
  unfold add_count. run. destruct l2 as [|[q e'] l2].
  - assert (default lst (head (@nil (Z * Z)).*1) = lst) as Haft by done. rewrite Haft, to_null_list in Hpn.
    rewrite Hpn. fields. rewrite Hpn. change (0 =? 0) with true. cbv iota. run. fields. rewrite Hpo. fields. rewrite Hpo. fields.
    rewrite Hcount, u64_small by lia. links_in.
  - assert (after lst ((q, e') :: l2) = q) as Haft by done.
    assert (q ∈ ((l1 ++ [(p, e)]) ++ (q, e') :: l2).*1) as Hqin.
    { rewrite !fmap_app. simpl. rewrite !elem_of_app, !elem_of_cons. tauto. }
    destruct (Hne q Hqin) as [Hqn Hql]. pose proof (Hp q ltac:(by right; right)) as Hqr.
    assert (q ∈ n :: ((l1 ++ [(p, e)]) ++ (q, e') :: l2).*1) as Hqin' by (by right).
    rewrite Haft, to_null_node in Hpn by done.
    rewrite Hpn. fields. rewrite Hpn. rewrite (proj2 (Z.eqb_neq q 0)) by lia. cbv iota. run. fields. rewrite Hpo. fields.
    rewrite Hcount, u64_small by lia. links_in.
Qed.

Lemma insert_prv_result s l1 p e l2 d :
  list_at s (l1 ++ (p, e) :: l2) → 0 ≤ d < 2 ^ 64 → inserts s l1 ((p, e) :: l2) d (insert_prv p d s).
Proof.
  intros Hl Hd. pose proof Hl as [Hh0 Hrep0]. pose proof (blocks_nodup _ _ _ _ Hh0) as Hnd0.
  assert ((l1 ++ (p, e) :: l2) !! length l1 = Some (p, e)) as Hi by (by apply list_lookup_middle).
  unfold insert_prv. rewrite run_rd64. destruct (rep_split _ _ _ _ _ Hrep0 Hnd0 Hi) as (_ & _ & _ & _ & ->).
  apply inserts_new; [exact Hl|exact Hd|done|].
  clear s Hl Hh0 Hrep0 Hnd0. intros s n Hn0 Hfr.
  destruct (fresh_facts _ _ _ _ Hfr) as (Ho & Ho' & Hnd & Hp & Hne & Hnl & Hnin & Hcount & Hw).
  destruct Hfr as [Hh Hrep Fd Fo Fn Fp]. pose proof (Hp n ltac:(left)) as Hnr.
  rewrite (proj2 (Z.eqb_neq _ _)) by done.
  assert (after lst ((p, e) :: l2) = p) as Haft by done. pose proof Hnd as Hnd'. apply NoDup_cons in Hnd' as [_ Hnd'].
  destruct (rep_split _ _ _ _ _ Hrep Hnd' Hi) as (Hpl & _ & Hpn & _ & Hpo).
  rewrite take_app_length in Hpn. clear Hi.
  assert (p ∈ (l1 ++ (p, e) :: l2).*1) as Hpin.
  { rewrite !fmap_app. simpl. rewrite !elem_of_app, !elem_of_cons. tauto. }
  destruct (Hne p Hpin) as [Hpn' _]. pose proof (Hp p ltac:(by right; right)) as Hpr.
  assert (p ∈ n :: (l1 ++ (p, e) :: l2).*1) as Hpin' by (by right).
  pose proof (Hp lst ltac:(right; left)) as Hlr.
  unfold add_count. run. destruct l1 as [|[q e'] l1 _] using rev_ind.
  - assert (last_of lst (@nil (Z * Z)).*1 = lst) as Hbef by done. rewrite Hbef, to_null_list in Hpn.
    rewrite Hpn. fields. rewrite Hpn. change (0 =? 0) with true. cbv iota. run. fields. rewrite Hpo. fields. rewrite Hpo. fields.
    rewrite Hcount, u64_small by lia. links_in.
  - pose proof (before_snoc l1 q e') as Hbef.
    assert (q ∈ ((l1 ++ [(q, e')]) ++ (p, e) :: l2).*1) as Hqin.
    { rewrite !fmap_app. simpl. rewrite !elem_of_app, !elem_of_cons. tauto. }
    destruct (Hne q Hqin) as [Hqn Hql]. pose proof (Hp q ltac:(by right; right)) as Hqr.
    assert (q ∈ n :: ((l1 ++ [(q, e')]) ++ (p, e) :: l2).*1) as Hqin' by (by right).
    rewrite Hbef, to_null_node in Hpn by done.
    rewrite Hpn. fields. rewrite Hpn. rewrite (proj2 (Z.eqb_neq q 0)) by lia. cbv iota. run. fields. rewrite Hpo. fields.
    rewrite Hcount, u64_small by lia. links_in.
Qed.

(** ** Taking nodes out *)

(** The outcome of an operation that removes the element at a place. *)
Definition removes (s : kmem) (l1 l2 : list (Z * Z)) (o : outcome (bool * kmem)) : Prop :=
  ∃ s', o = Ret (true, s') ∧ list_at s' (l1 ++ l2) ∧ blocks_kept (km_mem s) (km_mem s') fr.

(** What the code that takes out the node [n] may use. *)
Lemma remove_facts s l1 n d l2 : list_at s (l1 ++ (n, d) :: l2) →
  heap s (((n, NODE_SIZE) :: blocks lst (l1 ++ l2)) ++ fr) ∧
  owns (((n, NODE_SIZE) :: blocks lst (l1 ++ l2)) ++ fr) lst (n :: (l1 ++ l2).*1) ∧
  owns ((n, NODE_SIZE) :: blocks lst (l1 ++ l2)) lst (n :: (l1 ++ l2).*1) ∧
  NoDup (n :: lst :: (l1 ++ l2).*1) ∧ (∀ c, c ∈ n :: lst :: (l1 ++ l2).*1 → 0 < c < 2 ^ 64) ∧
  (∀ c, c ∈ (l1 ++ l2).*1 → c ≠ n ∧ c ≠ lst ∧ c ∈ n :: (l1 ++ l2).*1 ∧ 0 < c < 2 ^ 64) ∧ n ≠ lst ∧ n ∈ n :: (l1 ++ l2).*1 ∧
  load64 (km_mem s) (lst + L_COUNT) = Z.of_nat (length (l1 ++ l2)) + 1 ∧ Z.of_nat (length (l1 ++ l2)) + 1 < 2 ^ 64 ∧
  load64 (km_mem s) (n + N_NEXT) = to_null lst (after lst l2) ∧
  load64 (km_mem s) (n + N_PREV) = to_null lst (before lst l1) ∧ load64 (km_mem s) (n + N_OWNER) = lst.
Proof.
  intros [Hh Hr]. assert (heap s (((n, NODE_SIZE) :: blocks lst (l1 ++ l2)) ++ fr)) as Hh1.
  { eapply heap_perm; [|exact Hh]. unfold blocks. rewrite !fmap_app. cbn [fmap list_fmap fst].
    rewrite <- Permutation_middle. simpl. apply Permutation_swap. }
  pose proof (new_nodup _ _ _ _ _ Hh1) as Hnd. pose proof (rep_count _ _ _ Hr) as Hc. pose proof (nodes_few _ _ Hh) as Hw.
  assert (length (l1 ++ (n, d) :: l2) = S (length (l1 ++ l2))) as Hlen by (rewrite !length_app; simpl; lia).
  rewrite Hlen in Hc, Hw.
  assert (∀ c, c ∈ n :: lst :: (l1 ++ l2).*1 → 0 < c < 2 ^ 64) as Hp.
  { intros c Hc'. eapply owns_positive; [exact Hh1|apply owns_new|]. rewrite !elem_of_cons in *. tauto. }
  pose proof Hnd as Hnd'. rewrite !NoDup_cons, not_elem_of_cons in Hnd'. destruct Hnd' as ((Hnl & Hn) & Hl & _).
  destruct (rep_fields _ _ _ _ _ Hr Hnl) as (Fn & Fp & _ & Fo).
  split; [done|]. split; [apply owns_new|]. split.
  { pose proof (owns_new lst (l1 ++ l2) n []) as H. by rewrite app_nil_r in H. }
  split; [done|]. split; [done|]. split.
  { intros c Hc'. split; [by intros ->|]. split; [by intros ->|]. split; [by right|]. apply Hp. by right; right. }
  split; [done|]. split; [left|]. split; [lia|]. split; [lia|]. done.
Qed.

(** [free] after stores to the list, and the list once the links are right. *)
Lemma free_node s l1 n d l2 m1 : list_at s (l1 ++ (n, d) :: l2) →
  written ((n, NODE_SIZE) :: blocks lst (l1 ++ l2)) (km_mem s) m1 →
  ∃ s2, free n (set_mem m1 s) = Ret ((), s2) ∧ heap s2 (blocks lst (l1 ++ l2) ++ fr) ∧
    blocks_kept m1 (km_mem s2) (blocks lst (l1 ++ l2)) ∧ blocks_kept (km_mem s) (km_mem s2) fr.
Proof.
  intros Hl Hw. destruct (remove_facts _ _ _ _ _ Hl) as (Hh & _).
  destruct (written_heap _ _ _ Hh Hw) as [Hh1 Hk1].
  destruct (free_ok _ n (blocks lst (l1 ++ l2) ++ fr) Hh1) as (s2 & E & Hh2 & Hk2). exists s2. split; [exact E|]. split; [exact Hh2|].
  split; [eapply blocks_kept_sub; [|exact Hk2]; intros x Hx; apply elem_of_app; by left|].
  eapply blocks_kept_trans; [exact Hk1|]. eapply blocks_kept_sub; [|exact Hk2]. intros x Hx. apply elem_of_app. by right.
Qed.

Lemma remove_done s l1 n d l2 s2 m3 : list_at s (l1 ++ (n, d) :: l2) →
  heap s2 (blocks lst (l1 ++ l2) ++ fr) → blocks_kept (km_mem s) (km_mem s2) fr →
  written (blocks lst (l1 ++ l2)) (km_mem s2) m3 → linked_out (km_mem s) m3 lst l1 l2 →
  list_at (set_mem m3 s2) (l1 ++ l2) ∧ blocks_kept (km_mem s) m3 fr.
Proof.
  intros Hl Hh2 Hk Hw Hout. destruct (remove_facts _ _ _ _ _ Hl) as (_ & _ & _ & Hnd & Hp & _).
  destruct (written_heap _ _ _ Hh2 Hw) as [Hh3 Hk3]. split; [|by eapply blocks_kept_trans].
  split; [exact Hh3|]. eapply rep_remove; [exact Hnd| |apply Hl|exact Hout].
  apply Forall_forall. intros c Hc. specialize (Hp c Hc). lia.
Qed.

Ltac links_out :=
  eapply linked_out_fields;
    [eassumption|eassumption|eassumption|read|read|read|intros c Hcin Hcn Hcl Hcl'; split_and!; read].

Lemma pop_front_result s n d l : list_at s ((n, d) :: l) → removes s [] l (pop_front lst s).
Proof.
  intros Hl. change ((n, d) :: l) with ([] ++ (n, d) :: l) in Hl.
  destruct (remove_facts _ _ _ _ _ Hl)
    as (Hh & Ho & Ho' & Hnd & Hp & Hne & Hnl & Hnin & Hcount & Hw & Hnx & Hpv & Hown). simpl (_ ++ _) in *.
  pose proof (Hp lst ltac:(right; left)) as Hlr. pose proof (Hp n ltac:(left)) as Hnr.
  destruct (rep_ends _ _ (proj2 Hl)) as [Hhd _]. change (after lst ((n, d) :: l)) with n in Hhd.
  rewrite to_null_node in Hhd by done.
  assert (last_of lst (@nil (Z * Z)).*1 = lst) as Hbef by done.
  unfold pop_front, empty, add_count. rewrite <- (set_mem_self s) at 2. run. rewrite Hcount.
  rewrite (proj2 (Z.eqb_neq _ _)) by lia. run. rewrite Hhd, Hnx.
  destruct (free_node s [] n d l (store64 (km_mem s) (lst + L_HEAD) (to_null lst (after lst l))) Hl)
    as (s2 & Ef & Hh2 & Hk & Hkf); [stores|]. simpl (_ ++ _) in *.
  rewrite (bind_ret _ _ _ _ _ Ef). rewrite <- (set_mem_self s2). run.
  pose proof (owns_blocks lst l []) as Ho2. rewrite app_nil_r in Ho2. pose proof (owns_blocks lst l fr) as Ho3.
  assert (∀ a off, field_of (blocks lst l) a off → load64 (km_mem s2) (a + off) =
    load64 (store64 (km_mem s) (lst + L_HEAD) (to_null lst (after lst l))) (a + off)) as Hk2.
  { intros a off. by apply kept_field. }
  rewrite (Hk2 lst L_HEAD) by own. destruct l as [|[h e] l].
  - assert (default lst (head (@nil (Z * Z)).*1) = lst) as Haft by done. rewrite Haft, to_null_list in *. fields.
    change (0 =? 0) with true. cbv iota. run. fields. rewrite Hk2 by own. fields. rewrite Hcount, u64_small by lia.
    eexists. split; [reflexivity|]. eapply remove_done; [exact Hl|exact Hh2|exact Hkf|stores|].
    rewrite km_set_mem. links_out.
  - assert (after lst ((h, e) :: l) = h) as Haft by done.
    destruct (Hne h ltac:(left)) as (Hhn & Hhl & Hhin & Hhr). rewrite Haft, to_null_node in * by done.
    assert (h ∈ ((h, e) :: l).*1) as Hhin' by left.
    fields. rewrite (proj2 (Z.eqb_neq _ _)) by lia. cbv iota. run. fields. rewrite Hk2 by own. fields. rewrite Hcount, u64_small by lia.
    eexists. split; [reflexivity|]. eapply remove_done; [exact Hl|exact Hh2|exact Hkf|stores|].
    rewrite km_set_mem. links_out.
Qed.

Lemma pop_back_result s n d l : list_at s (l ++ [(n, d)]) → removes s l [] (pop_back lst s).
Proof.
  intros Hl. destruct (remove_facts _ _ _ _ _ Hl)
    as (Hh & Ho & Ho' & Hnd & Hp & Hne & Hnl & Hnin & Hcount & Hw & Hnx & Hpv & Hown).
  pose proof (Hp lst ltac:(right; left)) as Hlr. pose proof (Hp n ltac:(left)) as Hnr.
  destruct (rep_ends _ _ (proj2 Hl)) as [_ Htl]. rewrite before_snoc, to_null_node in Htl by done.
  assert (default lst (head (@nil (Z * Z)).*1) = lst) as Haft by done.
  unfold pop_back, empty, add_count. rewrite <- (set_mem_self s) at 2. run. rewrite Hcount.
  rewrite (proj2 (Z.eqb_neq _ _)) by lia. run. rewrite Htl, Hpv.
  destruct (free_node s l n d [] (store64 (km_mem s) (lst + L_TAIL) (to_null lst (before lst l))) Hl)
    as (s2 & Ef & Hh2 & Hk & Hkf); [stores|].
  rewrite (bind_ret _ _ _ _ _ Ef). rewrite <- (set_mem_self s2). run.
  pose proof (owns_blocks lst (l ++ []) []) as Ho2. rewrite app_nil_r in Ho2. pose proof (owns_blocks lst (l ++ []) fr) as Ho3.
  assert (∀ a off, field_of (blocks lst (l ++ [])) a off → load64 (km_mem s2) (a + off) =
    load64 (store64 (km_mem s) (lst + L_TAIL) (to_null lst (before lst l))) (a + off)) as Hk2.
  { intros a off. by apply kept_field. }
  rewrite (Hk2 lst L_TAIL) by own. destruct l as [|[t e] l _] using rev_ind.
  - assert (last_of lst (@nil (Z * Z)).*1 = lst) as Hbef by done. rewrite Hbef, to_null_list in *. fields.
    change (0 =? 0) with true. cbv iota. run. fields. rewrite Hk2 by own. fields. rewrite Hcount, u64_small by lia.
    eexists. split; [reflexivity|]. eapply remove_done; [exact Hl|exact Hh2|exact Hkf|stores|].
    rewrite km_set_mem. links_out.
  - pose proof (before_snoc l t e) as Hbef.
    assert (t ∈ ((l ++ [(t, e)]) ++ []).*1) as Htin.
    { rewrite app_nil_r, fmap_app. apply elem_of_app. right. left. }
    destruct (Hne t Htin) as (Htn & Htl' & Htin' & Htr). rewrite Hbef, to_null_node in * by done.
    fields. rewrite (proj2 (Z.eqb_neq _ _)) by lia. cbv iota. run. fields. rewrite Hk2 by own. fields. rewrite Hcount, u64_small by lia.
    eexists. split; [reflexivity|]. eapply remove_done; [exact Hl|exact Hh2|exact Hkf|stores|].
    rewrite km_set_mem. links_out.
Qed.

(** The removals that free the node once the links are right. *)
Lemma remove_last s l1 n d l2 m1 : list_at s (l1 ++ (n, d) :: l2) →
  written ((n, NODE_SIZE) :: blocks lst (l1 ++ l2)) (km_mem s) m1 →
  linked_out (km_mem s) m1 lst l1 l2 →
  removes s l1 l2 ((do* free n in ret true) (set_mem m1 s)).
Proof.
  intros Hl Hw Hout. destruct (free_node _ _ _ _ _ _ Hl Hw) as (s2 & Ef & Hh2 & Hk & Hkf).
  rewrite (bind_ret _ _ _ _ _ Ef). exists s2. split; [done|]. split; [|exact Hkf]. split; [exact Hh2|].
  eapply rep_kept; [exact Hk|]. destruct (remove_facts _ _ _ _ _ Hl) as (_ & _ & _ & Hnd & Hp & _).
  eapply rep_remove; [exact Hnd| |apply Hl|exact Hout].
  apply Forall_forall. intros c Hc. specialize (Hp c Hc). lia.
Qed.

Lemma remove_cur_result s l1 n d l2 : list_at s (l1 ++ (n, d) :: l2) → removes s l1 l2 (remove_cur n s).
Proof.
  intros Hl. destruct (remove_facts _ _ _ _ _ Hl)
    as (Hh & Ho & Ho' & Hnd & Hp & Hne & Hnl & Hnin & Hcount & Hw & Hnx & Hpv & Hown).
  pose proof (Hp lst ltac:(right; left)) as Hlr. pose proof (Hp n ltac:(left)) as Hnr.
  unfold remove_cur, add_count. rewrite <- (set_mem_self s) at 2. run. rewrite Hnx, Hpv.
  remember (before lst l1) as a eqn:Ea. remember (after lst l2) as b eqn:Eb. symmetry in Ea, Eb.
  assert (a = lst ∨ a ∈ (l1 ++ l2).*1) as Ha by (apply elem_of_cons, place_in; by left).
  assert (b = lst ∨ b ∈ (l1 ++ l2).*1) as Hb by (apply elem_of_cons, place_in; by right).
  assert (a = lst ∨ a ≠ lst ∧ a ≠ n ∧ a ∈ n :: (l1 ++ l2).*1 ∧ 0 < a < 2 ^ 64) as [-> |(A1 & A2 & A3 & A4)] by (naive_solver);
  assert (b = lst ∨ b ≠ lst ∧ b ≠ n ∧ b ∈ n :: (l1 ++ l2).*1 ∧ 0 < b < 2 ^ 64) as [-> |(B1 & B2 & B3 & B4)] by (naive_solver);
  clear Ha Hb; rewrite ?to_null_list, ?to_null_node in * by done.
  all: repeat (progress (run; fields; rewrite ?Hown, ?Hnx, ?Hpv, ?Hcount;
    rewrite ?(Z.eqb_refl 0), ?(proj2 (Z.eqb_neq _ 0)) by lia; cbv iota)).
  all: rewrite u64_small by lia; apply (remove_last s l1 n d l2); [exact Hl|stores|links_out].
Qed.

Lemma pop_middle_result s l1 p e n d q e' l2 (idx := Z.of_nat (length (l1 ++ [(p, e)]))) :
  list_at s ((l1 ++ [(p, e)]) ++ (n, d) :: (q, e') :: l2) →
  removes s (l1 ++ [(p, e)]) ((q, e') :: l2) (pop lst idx s).
Proof.
  intros Hl. destruct (remove_facts _ _ _ _ _ Hl)
    as (Hh & Ho & Ho' & Hnd & Hp & Hne & Hnl & Hnin & Hcount & Hw & Hnx & Hpv & Hown).
  pose proof (Hp lst ltac:(right; left)) as Hlr. pose proof (Hp n ltac:(left)) as Hnr.
  assert (Z.of_nat (length ((l1 ++ [(p, e)]) ++ (q, e') :: l2)) = idx + 1 + Z.of_nat (length l2)) as Hlen.
  { rewrite length_app. simpl. lia. }
  assert (0 < idx) as Hpos by (unfold idx; rewrite length_app; simpl; lia).
  pose proof (before_snoc l1 p e) as Ea. assert (after lst ((q, e') :: l2) = q) as Eb by done.
  assert (p ∈ ((l1 ++ [(p, e)]) ++ (q, e') :: l2).*1 ∧ q ∈ ((l1 ++ [(p, e)]) ++ (q, e') :: l2).*1) as [Hpin Hqin].
  { rewrite !fmap_app. simpl. rewrite !elem_of_app, !elem_of_cons. tauto. }
  destruct (Hne p Hpin) as (P1 & P2 & P3 & P4). destruct (Hne q Hqin) as (Q1 & Q2 & Q3 & Q4).
  rewrite Ea, Eb, ?to_null_node in * by done.
  pose proof (blocks_nodup _ _ _ _ (proj1 Hl)) as Hnd0.
  unfold pop, empty. rewrite <- (set_mem_self s) at 2. run. rewrite Hcount, Hlen.
  rewrite (proj2 (Z.eqb_neq (idx + 1 + _ + 1) 0)) by lia. run. rewrite Hcount, Hlen.
  destruct (Z.leb_spec (idx + 1 + Z.of_nat (length l2) + 1) idx); [lia|].
  rewrite u64_small by lia. rewrite (proj2 (Z.eqb_neq idx 0)), (proj2 (Z.eqb_neq idx _)) by lia.
  rewrite (bind_ret _ _ _ n (set_mem (km_mem s) s)).
  2: { rewrite set_mem_self, (get_node_result _ _ _ (proj2 Hl) Hnd0) by lia. do 3 f_equal.
       rewrite list_lookup_fmap. unfold idx. rewrite Nat2Z.id, list_lookup_middle by done. done. }
  rewrite (proj2 (Z.eqb_neq n 0)) by lia. unfold add_count. run. rewrite Hnx, Hpv. fields. rewrite Hnx, Hpv.
  set (m1 := store64 _ (p + N_NEXT) q). destruct (free_node s _ n d _ m1 Hl) as (s2 & Ef & Hh2 & Hk & Hkf); [unfold m1; stores|].
  rewrite (bind_ret _ _ _ _ _ Ef). rewrite <- (set_mem_self s2). run.
  set (l := (l1 ++ [(p, e)]) ++ (q, e') :: l2) in *.
  pose proof (owns_blocks lst l []) as Ho2. rewrite app_nil_r in Ho2. pose proof (owns_blocks lst l fr) as Ho3.
  assert (∀ a off, field_of (blocks lst l) a off → load64 (km_mem s2) (a + off) = load64 m1 (a + off)) as Hk2.
  { intros a off. by apply kept_field. }
  rewrite Hk2 by own. unfold m1 in *. fields. rewrite Hcount, u64_small by lia.
  eexists. split; [reflexivity|]. eapply remove_done; [exact Hl|exact Hh2|exact Hkf|stores|]. fold l.
  rewrite km_set_mem. unfold l in *. links_out.
Qed.

Lemma remove_nxt_result s l1 p e n d q e' l2 :
  list_at s ((l1 ++ [(p, e)]) ++ (n, d) :: (q, e') :: l2) →
  removes s (l1 ++ [(p, e)]) ((q, e') :: l2) (remove_nxt p s).
Proof.
  intros Hl. destruct (remove_facts _ _ _ _ _ Hl)
    as (Hh & Ho & Ho' & Hnd & Hp & Hne & Hnl & Hnin & Hcount & Hw & Hnx & Hpv & Hown).
  pose proof (Hp lst ltac:(right; left)) as Hlr. pose proof (Hp n ltac:(left)) as Hnr.
  pose proof (before_snoc l1 p e) as Ea. assert (after lst ((q, e') :: l2) = q) as Eb by done.
  assert (p ∈ ((l1 ++ [(p, e)]) ++ (q, e') :: l2).*1 ∧ q ∈ ((l1 ++ [(p, e)]) ++ (q, e') :: l2).*1) as [Hpin Hqin].
  { rewrite !fmap_app. simpl. rewrite !elem_of_app, !elem_of_cons. tauto. }
  destruct (Hne p Hpin) as (P1 & P2 & P3 & P4). destruct (Hne q Hqin) as (Q1 & Q2 & Q3 & Q4).
  rewrite Ea, Eb, ?to_null_node in * by done.
  assert (rep (km_mem s) lst (l1 ++ (p, e) :: (n, d) :: (q, e') :: l2)) as Hr.
  { pose proof (proj2 Hl) as H. by rewrite <- app_assoc in H. }
  destruct (rep_fields _ _ _ _ _ Hr P2) as (Hpn & _ & _ & Hpo).
  change (after lst ((n, d) :: (q, e') :: l2)) with n in Hpn. rewrite to_null_node in Hpn by done.
  unfold remove_nxt, add_count. rewrite <- (set_mem_self s) at 2.
  repeat (progress (run; fields; rewrite ?Hpn, ?Hnx, ?Hpo, ?Hcount; rewrite ?(proj2 (Z.eqb_neq _ 0)) by lia; cbv iota)).
  rewrite u64_small by lia. eapply (remove_last s _ n d); [exact Hl|stores|links_out].
Qed.

(** ** Every operation at an index *)

Lemma push_result s l d idx : list_at s l → 0 ≤ d < 2 ^ 64 → 0 ≤ idx →
  if decide (idx ≤ Z.of_nat (length l))
  then inserts s (take (Z.to_nat idx) l) (drop (Z.to_nat idx) l) d (push lst d idx s)
  else push lst d idx s = Ret (false, s).
Proof.
  intros Hl Hd Hidx. pose proof (rep_count _ _ _ (proj2 Hl)) as Hc. case_decide as Hle.
  - destruct (decide (idx = 0)) as [->|H0].
    { assert (push lst d 0 s = push_front lst d s) as ->; [|by apply push_front_result].
      unfold push. rewrite run_rd64, Hc. destruct (Z.ltb_spec (Z.of_nat (length l)) 0); [lia|]. done. }
    destruct (decide (idx = Z.of_nat (length l))) as [->|Hlast].
    { rewrite Nat2Z.id, take_ge, drop_ge by lia.
      assert (push lst d (Z.of_nat (length l)) s = push_back lst d s) as ->; [|by apply push_back_result].
      unfold push. rewrite run_rd64, Hc, Z.ltb_irrefl, (proj2 (Z.eqb_neq _ 0)), Z.eqb_refl by lia. done. }
    rewrite <- (take_drop (Z.to_nat idx) l) in Hl.
    assert (length (take (Z.to_nat idx) l) = Z.to_nat idx) as Hlt by (rewrite length_take; lia).
    assert (length (drop (Z.to_nat idx) l) ≠ 0%nat) as Hld by (rewrite length_drop; lia).
    replace (push lst d idx s) with (push lst d (Z.of_nat (length (take (Z.to_nat idx) l))) s) by (f_equal; lia).
    destruct (take (Z.to_nat idx) l) as [|[p e] l1 _] using rev_ind; [simpl in Hlt; lia|].
    destruct (drop (Z.to_nat idx) l) as [|[q e'] l2]; [done|]. by apply push_middle_result.
  - unfold push. rewrite run_rd64, Hc. by rewrite (proj2 (Z.ltb_lt _ _)) by lia.
Qed.

Lemma pop_result s l idx : list_at s l → 0 ≤ idx →
  if decide (idx < Z.of_nat (length l))
  then removes s (take (Z.to_nat idx) l) (drop (S (Z.to_nat idx)) l) (pop lst idx s)
  else pop lst idx s = Ret (false, s).
Proof.
  intros Hl Hidx. pose proof (rep_count _ _ _ (proj2 Hl)) as Hc. pose proof (nodes_few _ _ (proj1 Hl)) as Hw.
  case_decide as Hlt.
  - assert (∀ k, (k = pop_front lst ∧ idx = 0 ∨ k = pop_back lst ∧ idx ≠ 0 ∧ idx = Z.of_nat (length l) - 1) →
      pop lst idx s = k s) as Hends.
    { intros k Hk. unfold pop, empty. rewrite bind_assoc, run_rd64, Hc, bind_retv, (proj2 (Z.eqb_neq _ 0)), run_rd64, Hc by lia.
      destruct (Z.leb_spec (Z.of_nat (length l)) idx); [lia|]. rewrite u64_small by lia.
      destruct Hk as [[-> ->]|(-> & H0 & H1)]; [done|].
      by rewrite (proj2 (Z.eqb_neq _ 0)), (proj2 (Z.eqb_eq idx (_ - 1))) by lia. }
    destruct (decide (idx = 0)) as [->|H0].
    { rewrite (Hends _ (or_introl (conj eq_refl eq_refl))). destruct l as [|[n d] l]; [simpl in Hlt; lia|]. by eapply pop_front_result. }
    destruct (decide (idx = Z.of_nat (length l) - 1)) as [E|Hlast].
    { rewrite (Hends (pop_back lst)) by tauto. clear Hends.
      destruct l as [|[n d] l _] using rev_ind; [simpl in Hlt; lia|]. rewrite length_app in *. simpl in *.
      replace (Z.to_nat idx) with (length l) by lia. rewrite take_app_length, drop_ge by (rewrite length_app; simpl; lia).
      by eapply pop_back_result. }
    destruct (lookup_lt_is_Some_2 l (Z.to_nat idx)) as [[n d] Hn]; [lia|].
    rewrite <- (take_drop_middle _ _ _ Hn) in Hl.
    assert (length (take (Z.to_nat idx) l) = Z.to_nat idx) as Hl1 by (rewrite length_take; lia).
    assert (length (drop (S (Z.to_nat idx)) l) ≠ 0%nat) as Hl2 by (rewrite length_drop; lia).
    replace (pop lst idx s) with (pop lst (Z.of_nat (length (take (Z.to_nat idx) l))) s) by (f_equal; lia).
    destruct (take (Z.to_nat idx) l) as [|[p e] l1 _] using rev_ind; [simpl in Hl1; lia|].
    destruct (drop (S (Z.to_nat idx)) l) as [|[q e'] l2]; [done|]. by eapply pop_middle_result.
  - unfold pop, empty. rewrite bind_assoc, run_rd64, Hc, bind_retv.
    destruct (Z.eqb_spec (Z.of_nat (length l)) 0); [done|]. rewrite run_rd64, Hc.
    by rewrite (proj2 (Z.leb_le _ _)) by lia.
Qed.

Lemma get_at_result s l idx : list_at s l → 0 ≤ idx → get_at lst idx s = Ret (default 0 (l.*2 !! Z.to_nat idx), s).
Proof.
  intros Hl Hidx. pose proof (rep_count _ _ _ (proj2 Hl)) as Hc. pose proof (blocks_nodup _ _ _ _ (proj1 Hl)) as Hnd.
  unfold get_at, empty. rewrite run_rd64, Hc. rewrite list_lookup_fmap. destruct (Z.leb_spec (Z.of_nat (length l)) idx).
  { by rewrite lookup_ge_None_2 by lia. }
  rewrite bind_assoc, run_rd64, bind_retv, Hc, (proj2 (Z.eqb_neq _ _)) by lia.
  rewrite (bind_ret _ _ _ _ _ (get_node_result _ _ _ (proj2 Hl) Hnd Hidx)). rewrite list_lookup_fmap.
  destruct (lookup_lt_is_Some_2 l (Z.to_nat idx)) as [[c e] Hce]; [lia|]. rewrite Hce. simpl.
  pose proof (owns_positive _ _ _ _ c (proj1 Hl) (owns_blocks lst l fr)) as Hp.
  rewrite (proj2 (Z.eqb_neq c 0)).
  - destruct (rep_split _ _ _ _ _ (proj2 Hl) Hnd Hce) as (_ & _ & _ & Hd & _). unfold rd64. by rewrite Hd.
  - cut (0 < c < 2 ^ 64); [lia|]. apply Hp. right. apply (list_elem_of_lookup_2 _ (Z.to_nat idx)).
    by rewrite list_lookup_fmap, Hce.
Qed.
(** ** [remove_prv] *)

(** The list is as it should be once the counter, which [remove_prv] forgets, is
    set right. *)
Lemma remove_prv_result s l1 a ea n d p e l2
    (l := (l1 ++ [(a, ea)]) ++ (n, d) :: (p, e) :: l2) (l' := (l1 ++ [(a, ea)]) ++ (p, e) :: l2) :
  list_at s l →
  ∃ s', remove_prv p s = Ret (true, s') ∧ load64 (km_mem s') (lst + L_COUNT) = Z.of_nat (length l) ∧
    list_at (set_mem (store64 (km_mem s') (lst + L_COUNT) (Z.of_nat (length l'))) s') l'.
Proof.
  intros Hl. destruct (remove_facts _ _ _ _ _ Hl)
    as (Hh & Ho & Ho' & Hnd & Hp & Hne & Hnl & Hnin & Hcount & Hw & Hnx & Hpv & Hown).
  pose proof (Hp lst ltac:(right; left)) as Hlr. pose proof (Hp n ltac:(left)) as Hnr.
  pose proof (before_snoc l1 a ea) as Ea. assert (after lst ((p, e) :: l2) = p) as Eb by done.
  assert (a ∈ l'.*1 ∧ p ∈ l'.*1) as [Hain Hpin].
  { unfold l'. rewrite !fmap_app. simpl. rewrite !elem_of_app, !elem_of_cons. tauto. }
  destruct (Hne a Hain) as (A1 & A2 & A3 & A4). destruct (Hne p Hpin) as (P1 & P2 & P3 & P4).
  rewrite Ea, Eb, ?to_null_node in * by done.
  assert (rep (km_mem s) lst (((l1 ++ [(a, ea)]) ++ [(n, d)]) ++ (p, e) :: l2)) as Hr.
  { rewrite <- app_assoc. apply Hl. }
  destruct (rep_fields _ _ _ _ _ Hr P2) as (_ & Hpn & _ & _). rewrite before_snoc, to_null_node in Hpn by done.
  unfold remove_prv. rewrite <- (set_mem_self s).
  repeat (progress (run; fields; rewrite ?Hpn, ?Hpv; rewrite ?(proj2 (Z.eqb_neq _ 0)) by lia; cbv iota)).
  set (m1 := store64 _ (a + N_NEXT) p). destruct (free_node s _ n d _ m1 Hl) as (s2 & Ef & Hh2 & Hk & Hkf); [unfold m1; stores|].
  rewrite (bind_ret _ _ _ _ _ Ef). exists s2. split; [done|].
  pose proof (owns_blocks lst l' []) as Ho2. rewrite app_nil_r in Ho2. pose proof (owns_blocks lst l' fr) as Ho3.
  assert (∀ x off, field_of (blocks lst l') x off → load64 (km_mem s2) (x + off) = load64 m1 (x + off)) as Hk2.
  { intros x off. by apply kept_field. }
  assert (Z.of_nat (length l) = Z.of_nat (length l') + 1) as Hlen by (unfold l, l'; rewrite !length_app; simpl; lia).
  split.
  - rewrite Hk2 by own. unfold m1. fields. fold l' in Hcount. lia.
  - eapply (remove_done s _ n d); [exact Hl|exact Hh2|exact Hkf|stores|].
    fold l' in Hcount, Hw. unfold m1 in *. links_out.
Qed.
End refine.
