(* ===== verification/LinkedListSpec.v ===== *)
(** * The linked list as a list

    Sequences of operations on the list of [LinkedList.v] are sequences of
    operations on a mathematical list, whatever [malloc] is; with the page
    allocator in the place of [malloc], a list that is freed gives all its pages
    back.  The iterators visit the elements in order, in both directions.  Two of
    the operations on neighbours leave a broken list. *)

From S2P Require Import Prelude Memory Kalloc Ring LinkedList LinkedListOps.

(** ** Operations and their meaning *)

(** The operations of a client that keeps no node; and those at a node, which is
    given by its index. *)
Inductive op :=
| PushFront (d : Z) | PushBack (d : Z) | Push (d idx : Z) | PushIf (d idx : Z) (b : bool)
| PopFront | PopBack | Pop (idx : Z) | PopIf (idx : Z) (b : bool)
| Front | Back | Get (idx : Z) | Count
| InsertNxt (i : nat) (d : Z) | InsertPrv (i : nat) (d : Z) | RemoveCur (i : nat) | RemoveNxt (i : nat).

Definition op_ok (o : op) (l : list Z) : Prop :=
  match o with
  | PushFront d | PushBack d => 0 ≤ d < 2 ^ 64
  | Push d idx | PushIf d idx _ => 0 ≤ d < 2 ^ 64 ∧ 0 ≤ idx
  | Pop idx | PopIf idx _ | Get idx => 0 ≤ idx
  | InsertNxt i d | InsertPrv i d => 0 ≤ d < 2 ^ 64 ∧ (i < length l)%nat
  | RemoveCur i => (i < length l)%nat
  | RemoveNxt i => (S (S i) < length l)%nat
  | PopFront | PopBack | Front | Back | Count => True
  end.

(** The result 1 is true, 0 false. *)
Definition insert_at (i : nat) (d : Z) (l : list Z) : list Z := take i l ++ d :: drop i l.

(** What the operation [o] returns on the list [l], and the list that it leaves.
    An insertion fails when there is no memory ([full]) or the index is beyond the
    end, and only then. *)
Definition means (full : bool) (o : op) (l : list Z) : Z * list Z :=
  let ins i d := if full then (0, l) else (1, insert_at i d l) in
  let del i := if decide (i < length l)%nat then (1, delete i l) else (0, l) in
  let push d idx := if decide (idx ≤ Z.of_nat (length l)) then ins (Z.to_nat idx) d else (0, l) in
  match o with
  | PushFront d => ins 0%nat d
  | PushBack d => ins (length l) d
  | Push d idx | PushIf d idx true => push d idx
  | PopFront => del 0%nat
  | PopBack => del (length l - 1)%nat
  | Pop idx | PopIf idx true => del (Z.to_nat idx)
  | PushIf _ _ false | PopIf _ false => (0, l)
  | Front => (default 0 (head l), l)
  | Back => (default 0 (last l), l)
  | Get idx => (default 0 (l !! Z.to_nat idx), l)
  | Count => (Z.of_nat (length l), l)
  | InsertNxt i d => ins (S i) d
  | InsertPrv i d => ins i d
  | RemoveCur i => del i
  | RemoveNxt i => del (S i)
  end.

(** A sequence of operations that makes sense from [l] on, whether or not there
    is memory. *)
Fixpoint ops_ok (os : list op) (l : list Z) : Prop :=
  match os with
  | [] => True
  | o :: os => op_ok o l ∧ ∀ full, ops_ok os (means full o l).2
  end.

(** The sequence with memory for [cap] nodes: what it returns, the list that it
    leaves, and that it makes sense. *)
Fixpoint means_ops (cap : nat) (os : list op) (l : list Z) : list Z * list Z :=
  match os with
  | [] => ([], l)
  | o :: os =>
      let x := means (bool_decide (length l = cap)) o l in
      let y := means_ops cap os x.2 in (x.1 :: y.1, y.2)
  end.

Fixpoint ops_ok_within (cap : nat) (os : list op) (l : list Z) : Prop :=
  match os with
  | [] => True
  | o :: os => op_ok o l ∧ ops_ok_within cap os (means (bool_decide (length l = cap)) o l).2
  end.

Section run.
Context {MA : Malloc}.

Definition of_bool (c : M kmem bool) : M kmem Z := let* b := c in ret (Z.b2z b).

(** The operation, with [get_node] finding the node at an index. *)
Definition run_op (lst : Z) (o : op) : M kmem Z :=
  match o with
  | PushFront d => of_bool (push_front lst d)
  | PushBack d => of_bool (push_back lst d)
  | Push d idx => of_bool (push lst d idx)
  | PushIf d idx b => of_bool (push_if lst d idx b)
  | PopFront => of_bool (pop_front lst)
  | PopBack => of_bool (pop_back lst)
  | Pop idx => of_bool (pop lst idx)
  | PopIf idx b => of_bool (pop_if lst idx b)
  | Front => front lst
  | Back => back lst
  | Get idx => get_at lst idx
  | Count => count lst
  | InsertNxt i d => let* n := get_node lst (Z.of_nat i) in of_bool (insert_nxt n d)
  | InsertPrv i d => let* n := get_node lst (Z.of_nat i) in of_bool (insert_prv n d)
  | RemoveCur i => let* n := get_node lst (Z.of_nat i) in of_bool (remove_cur n)
  | RemoveNxt i => let* n := get_node lst (Z.of_nat i) in of_bool (remove_nxt n)
  end.

Fixpoint run_ops (lst : Z) (os : list op) : M kmem (list Z) :=
  match os with
  | [] => ret []
  | o :: os => let* r := run_op lst o in let* rs := run_ops lst os in ret (r :: rs)
  end.

(** Every operation of the sequence, run from [s], returns what it means on the
    list, and fails for want of memory just when [malloc] returns NULL in the
    state in which it runs. *)
Inductive runs (lst : Z) : list op → kmem → list Z → list Z → kmem → list Z → Prop :=
| runs_nil s l : runs lst [] s l [] s l
| runs_cons o os s s1 s' l l1 l' r rs :
    run_op lst o s = Ret (r, s1) → means (no_memory s) o l = (r, l1) →
    runs lst os s1 l1 rs s' l' → runs lst (o :: os) s l (r :: rs) s' l'.
End run.

Section refines.
Context `{MS : MallocSpec} (lst : Z) (fr : list (Z * Z)).

(** One operation, run. *)
Definition step_ok (o : op) (s : kmem) (l : list (Z * Z)) (out : outcome (Z * kmem)) : Prop :=
  ∃ r s' l', out = Ret (r, s') ∧ list_at lst fr s' l' ∧ blocks_kept (km_mem s) (km_mem s') fr ∧
    means (no_memory s) o l.*2 = (r, l'.*2).

Lemma of_bool_ret c s b s' : c s = Ret (b, s') → of_bool c s = Ret (Z.b2z b, s').
Proof using Type. intros E. unfold of_bool. by rewrite (bind_ret _ _ _ _ _ E). Qed.

Lemma inserted_elements (l1 l2 : list (Z * Z)) n d :
  (l1 ++ (n, d) :: l2).*2 = insert_at (length l1) d (l1 ++ l2).*2.
Proof using Type.
  unfold insert_at. rewrite !fmap_app, take_app_length', drop_app_length' by (by rewrite length_fmap). done.
Qed.

Lemma inserts_step s l1 l2 d o c i :
  inserts lst fr s l1 l2 d (c s) → length l1 = i →
  (∀ full, means full o (l1 ++ l2).*2 =
     if full then (0, (l1 ++ l2).*2) else (1, insert_at i d (l1 ++ l2).*2)) →
  step_ok o s (l1 ++ l2) (of_bool c s).
Proof using Type.
  intros (s' & Hk & Hc) Hi Hm. unfold step_ok. rewrite Hm. destruct (no_memory s); [destruct Hc as [E Hl]|destruct Hc as (n & E & Hl)].
  - exists 0, s', (l1 ++ l2). split; [by apply (of_bool_ret _ _ _ _ E)|]. by split_and!.
  - exists 1, s', (l1 ++ (n, d) :: l2). split; [by apply (of_bool_ret _ _ _ _ E)|]. split; [done|]. split; [done|].
    rewrite inserted_elements. by rewrite Hi.
Qed.

Lemma removes_step s l i o c :
  removes lst fr s (take i l) (drop (S i) l) (c s) → (i < length l)%nat →
  (∀ full, means full o l.*2 = (1, delete i l.*2)) → step_ok o s l (of_bool c s).
Proof using Type.
  intros (s' & E & Hl & Hk) Hi Hm. exists 1, s', (take i l ++ drop (S i) l).
  split; [by apply (of_bool_ret _ _ _ _ E)|]. split; [done|]. split; [done|].
  rewrite Hm. by rewrite delete_take_drop, fmap_app, fmap_take, fmap_drop.
Qed.

(** An operation that leaves the list as it is. *)
Lemma same_step o s l r c : c s = Ret (r, s) → list_at lst fr s l → (∀ full, means full o l.*2 = (r, l.*2)) →
  step_ok o s l (c s).
Proof using Type.
  intros E Hl Hm. exists r, s, l. split; [done|]. split; [done|]. split; [apply blocks_kept_refl|done].
Qed.

Lemma get_node_index s l i c e : list_at lst fr s l → l !! i = Some (c, e) → get_node lst (Z.of_nat i) s = Ret (c, s).
Proof using Type.
  intros Hl Hi. rewrite (get_node_result lst s l) by (apply Hl || eapply blocks_nodup, Hl || lia).
  by rewrite Nat2Z.id, list_lookup_fmap, Hi.
Qed.

Lemma push_step s l d idx o :
  list_at lst fr s l → 0 ≤ d < 2 ^ 64 → 0 ≤ idx →
  (∀ full, means full o l.*2 = means full (Push d idx) l.*2) → step_ok o s l (of_bool (push lst d idx) s).
Proof using Type.
  intros Hl Hd Hidx Hm. pose proof (push_result lst fr s l d idx Hl Hd Hidx) as H. case_decide as Hle.
  - rewrite <- (take_drop (Z.to_nat idx) l). eapply inserts_step; [exact H|reflexivity|].
    intros full. rewrite take_drop, length_take, Nat.min_l, Hm by lia. unfold means. by rewrite length_fmap, decide_True.
  - eapply same_step; [by apply of_bool_ret|done|]. intros full. rewrite Hm. unfold means. by rewrite length_fmap, decide_False.
Qed.

Lemma pop_step s l idx o :
  list_at lst fr s l → 0 ≤ idx →
  (∀ full, means full o l.*2 = means full (Pop idx) l.*2) → step_ok o s l (of_bool (pop lst idx) s).
Proof using Type.
  intros Hl Hidx Hm. pose proof (pop_result lst fr s l idx Hl Hidx) as H. destruct (decide (idx < Z.of_nat (length l))) as [Hlt|Hlt].
  - eapply removes_step; [exact H|lia|]. intros full. rewrite Hm. unfold means. by rewrite length_fmap, decide_True by lia.
  - eapply same_step; [by apply of_bool_ret|done|]. intros full. rewrite Hm. unfold means. by rewrite length_fmap, decide_False by lia.
Qed.

(** The operations that take no index. *)
Lemma end_step s l o :
  list_at lst fr s l → op_ok o l.*2 →
  match o with
  | PushFront _ | PushBack _ | PopFront | PopBack | Front | Back | Count => True
  | _ => False
  end → step_ok o s l (run_op lst o s).
Proof using Type.
  intros Hl Hok Hend. pose proof (rep_count _ _ _ (proj2 Hl)) as Hc. pose proof (blocks_nodup _ _ _ _ (proj1 Hl)) as Hnd.
  destruct o as [d|d| | | | | | | | | | | | | |]; try done; cbn [run_op].
  - by eapply (inserts_step s [] l d _ _ 0); [apply push_front_result|done|].
  - rewrite <- (app_nil_r l) at 1. eapply (inserts_step s l [] d); [by apply push_back_result|done|].
    rewrite app_nil_r. unfold means. by rewrite length_fmap.
  - destruct l as [|[n d] l].
    + eapply (same_step _ _ _ 0); [|done|done]. apply (of_bool_ret _ _ false). unfold pop_front, empty. by rewrite bind_assoc, run_rd64, Hc.
    + eapply (removes_step s _ 0); [by apply (pop_front_result lst fr s n d l)|simpl; lia|done].
  - destruct l as [|[n d] l _] using rev_ind.
    + eapply (same_step _ _ _ 0); [|done|done]. apply (of_bool_ret _ _ false). unfold pop_back, empty. by rewrite bind_assoc, run_rd64, Hc.
    + eapply (removes_step s _ (length l)).
      * rewrite take_app_length, drop_ge by (rewrite length_app; simpl; lia). by apply (pop_back_result lst fr s n d l).
      * rewrite length_app. simpl. lia.
      * unfold means. rewrite length_fmap, length_app. simpl. intros full. by rewrite decide_True, Nat.add_sub by lia.
  - destruct l as [|[n d] l].
    + eapply (same_step _ _ _ 0); [|done|done]. unfold front, empty. by rewrite bind_assoc, run_rd64, Hc.
    + eapply (same_step _ _ _ d); [|done|done]. unfold front, empty. rewrite bind_assoc, run_rd64, Hc.
      rewrite bind_retv, (proj2 (Z.eqb_neq _ _)), run_rd64 by (simpl; lia).
      rewrite (rep_first lst _ _ n d (proj2 Hl) Hnd eq_refl). unfold rd64.
      by destruct (rep_split lst _ _ 0 n d (proj2 Hl) Hnd eq_refl) as (_ & _ & _ & -> & _).
  - destruct l as [|[n d] l _] using rev_ind.
    + eapply (same_step _ _ _ 0); [|done|done]. unfold back, empty. by rewrite bind_assoc, run_rd64, Hc.
    + assert ((l ++ [(n, d)]) !! (length (l ++ [(n, d)]) - 1)%nat = Some (n, d)) as Hlast.
      { rewrite length_app. simpl. rewrite Nat.add_sub. by apply list_lookup_middle. }
      eapply (same_step _ _ _ d); [|done|unfold means; rewrite fmap_app; cbn [fmap list_fmap snd]; by rewrite last_snoc].
      unfold back, empty. rewrite bind_assoc, run_rd64, Hc.
      rewrite bind_retv, (proj2 (Z.eqb_neq _ _)), run_rd64 by (rewrite length_app; simpl; lia).
      rewrite (rep_last lst _ _ n d (proj2 Hl) Hnd Hlast). unfold rd64.
      by destruct (rep_split lst _ _ _ n d (proj2 Hl) Hnd Hlast) as (_ & _ & _ & -> & _).
  - eapply (same_step _ _ _ (Z.of_nat (length l))); [|done|]; [unfold count, rd64; by rewrite Hc|]. intros full. unfold means. by rewrite length_fmap.
Qed.

(** The operations at the node with an index. *)
Lemma node_step s l o :
  list_at lst fr s l → op_ok o l.*2 →
  match o with InsertNxt _ _ | InsertPrv _ _ | RemoveCur _ | RemoveNxt _ => True | _ => False end →
  step_ok o s l (run_op lst o s).
Proof using Type.
  intros Hl Hok Hnode.
  destruct o as [| | | | | | | | | | | |i d|i d|i|i]; try done; cbn [run_op op_ok] in *; rewrite length_fmap in Hok;
    (destruct (lookup_lt_is_Some_2 l i) as [[c e] Hc]; [lia|]);
    rewrite (bind_ret _ _ _ _ _ (get_node_index s l i c e Hl Hc)); pose proof (take_drop_middle _ _ _ Hc) as Hsplit.
  - rewrite <- Hsplit in Hl |- *. rewrite cons_middle, app_assoc in Hl |- *.
    eapply inserts_step; [by apply insert_nxt_result; [exact Hl|apply Hok]|reflexivity|].
    intros full. unfold means. rewrite length_app, length_take, Nat.min_l by lia. simpl. by rewrite Nat.add_1_r.
  - rewrite <- Hsplit in Hl |- *. eapply inserts_step; [by apply insert_prv_result; [exact Hl|apply Hok]|reflexivity|].
    intros full. unfold means. by rewrite length_take, Nat.min_l by lia.
  - eapply removes_step; [|exact Hok|].
    + rewrite <- Hsplit in Hl. by apply (remove_cur_result lst fr s _ c e).
    + intros full. unfold means. by rewrite length_fmap, decide_True.
  - destruct (lookup_lt_is_Some_2 l (S i)) as [[n d] Hn]; [lia|].
    destruct (lookup_lt_is_Some_2 l (S (S i))) as [[q e'] Hq]; [lia|].
    eapply (removes_step s l (S i)); [|lia|].
    + rewrite (take_S_r _ _ _ Hc), (drop_S _ _ _ Hq). rewrite (drop_S _ _ _ Hn), (drop_S _ _ _ Hq) in Hsplit.
      apply (remove_nxt_result lst fr s _ c e n d). rewrite <- app_assoc. simpl. by rewrite Hsplit.
    + intros full. unfold means. by rewrite length_fmap, decide_True by lia.
Qed.

Lemma op_step s l o : list_at lst fr s l → op_ok o l.*2 → step_ok o s l (run_op lst o s).
Proof using Type.
  intros Hl Hok. destruct o as [| |d idx|d idx b| | |idx|idx b| | |idx| | | | |]; 
    first [by apply end_step|by apply node_step|idtac];
    cbn [run_op op_ok] in *.
  - by apply push_step; [done|apply Hok|apply Hok|].
  - destruct b; [by apply push_step; [done|apply Hok|apply Hok|]|]. by eapply (same_step _ _ _ 0).
  - by apply pop_step; [done|apply Hok|].
  - destruct b; [by apply pop_step; [done|apply Hok|]|]. by eapply (same_step _ _ _ 0).
  - eapply same_step; [by apply (get_at_result lst fr s l)|done|]. done.
Qed.

Lemma run_ops_result os : ∀ s l,
  list_at lst fr s l → ops_ok os l.*2 →
  ∃ rs s' l', run_ops lst os s = Ret (rs, s') ∧ list_at lst fr s' l' ∧
    blocks_kept (km_mem s) (km_mem s') fr ∧ runs lst os s l.*2 rs s' l'.*2.
Proof using Type.
  induction os as [|o os IH]; intros s l Hl Hok.
  - exists [], s, l. split; [done|]. split; [done|]. split; [apply blocks_kept_refl|constructor].
  - destruct Hok as [Ho Hos]. destruct (op_step s l o Hl Ho) as (r & s1 & l1 & E1 & Hl1 & Hk1 & Hm).
    destruct (IH s1 l1 Hl1) as (rs & s' & l' & E2 & Hl' & Hk2 & Hr).
    { specialize (Hos (no_memory s)). by rewrite Hm in Hos. }
    exists (r :: rs), s', l'. cbn [run_ops].
    split; [by rewrite (bind_ret _ _ _ _ _ E1), (bind_ret _ _ _ _ _ E2)|]. split; [done|].
    split; [by eapply blocks_kept_trans|]. by econstructor.
Qed.
End refines.

(** ** Iterators *)

(** [while (iter_next(&it, &data, &index)) ...], or with [iter_prev]. *)
Fixpoint drain (fuel : nat) (step : iter → M kmem (option (Z * Z) * iter)) (i : iter) : M kmem (list (Z * Z)) :=
  match fuel with
  | O => out_of_fuel
  | S fuel =>
      let* r := step i in
      match r.1 with
      | None => ret []
      | Some x => let* xs := drain fuel step r.2 in ret (x :: xs)
      end
  end.

(** The elements with their indexes. *)
Definition indexed (l : list (Z * Z)) : list (Z * Z) := imap (λ i x, (x.2, Z.of_nat i)) l.

Section iterators.
Context `{MS : MallocSpec} (lst : Z) (fr : list (Z * Z)) (s : kmem) (l : list (Z * Z)) (Hl : list_at lst fr s l).

Lemma indexed_lookup k c e : l !! k = Some (c, e) → indexed l !! k = Some (e, Z.of_nat k).
Proof using Type. intros Hk. unfold indexed. by rewrite list_lookup_imap, Hk. Qed.

(** The fields that the iterators read at the node with the index [k]. *)
Lemma node_at k c e : l !! k = Some (c, e) →
  load64 (km_mem s) (c + N_DATA) = e ∧
  load64 (km_mem s) (c + N_NEXT) = default 0 (l.*1 !! S k) ∧
  load64 (km_mem s) (c + N_PREV) = match k with O => 0 | S j => default 0 (l.*1 !! j) end ∧
  c ≠ 0 ∧ Z.of_nat k < 2 ^ 64 - 1.
Proof using Hl.
  intros Hk. pose proof (blocks_nodup _ _ _ _ (proj1 Hl)) as Hnd. pose proof (nodes_few _ _ _ _ (proj1 Hl)) as Hw.
  pose proof (lookup_lt_Some _ _ _ Hk) as Hlt.
  destruct (rep_split lst _ _ _ _ _ (proj2 Hl) Hnd Hk) as (Hc & Hn & Hp & Hd & _).
  assert (0 < c < 2 ^ 64).
  { eapply owns_positive; [apply Hl|apply owns_blocks|]. right. apply (list_elem_of_lookup_2 _ k). by rewrite list_lookup_fmap, Hk. }
  split; [done|]. rewrite !list_lookup_fmap. split; [|split; [|lia]].
  - destruct (l !! S k) as [[c' e']|] eqn:Hk'.
    + by destruct (rep_step lst _ _ _ _ _ _ _ (proj2 Hl) Hnd Hk Hk') as [-> _].
    + rewrite Hn. apply lookup_ge_None_1 in Hk'. rewrite drop_ge by done. apply to_null_list.
  - destruct k as [|k]; [rewrite Hp; apply to_null_list|]. rewrite list_lookup_fmap.
    destruct (lookup_lt_is_Some_2 l k) as [[c' e'] Hk']; [lia|]. rewrite Hk'.
    by destruct (rep_step lst _ _ _ _ _ _ _ (proj2 Hl) Hnd Hk' Hk) as [_ ->].
Qed.

Lemma drain_next fuel : ∀ k c e st, l !! k = Some (c, e) → (length l - k < fuel)%nat →
  drain fuel iter_next (Iter lst c (Z.of_nat k) st false) s = Ret (drop k (indexed l), s).
Proof using Hl.
  induction fuel as [|fuel IH]; intros k c e st Hk Hf; [lia|].
  pose proof (lookup_lt_Some _ _ _ Hk) as Hlt. destruct (node_at k c e Hk) as (Hd & Hn & _ & Hc0 & Hw).
  cbn [drain]. unfold iter_next at 1. cbn [at_end cursor index target start].
  rewrite bind_assoc, run_rd64, bind_assoc, run_rd64, bind_retv, Hd, Hn.
  cbn [fst snd]. rewrite (drop_S _ _ _ (indexed_lookup k c e Hk)), list_lookup_fmap.
  destruct (l !! S k) as [[c' e']|] eqn:Hk'.
  - destruct (node_at (S k) c' e' Hk') as (_ & _ & _ & Hc0' & _).
    cbn [fmap option_fmap option_map from_option id fst]. rewrite (proj2 (Z.eqb_neq c' 0)) by done.
    rewrite u64_small by lia. replace (Z.of_nat k + 1) with (Z.of_nat (S k)) by lia.
    by rewrite (bind_ret _ _ _ _ _ (IH (S k) c' e' false Hk' ltac:(lia))).
  - apply lookup_ge_None_1 in Hk'. rewrite drop_ge by (unfold indexed; by rewrite length_imap).
    cbn [fmap option_fmap option_map from_option id]. change (0 =? 0) with true. cbv iota.
    destruct fuel as [|fuel]; [apply lookup_lt_Some in Hk; lia|]. done.
Qed.

Lemma drain_prev fuel : ∀ k c e en, l !! k = Some (c, e) → (S k < fuel)%nat →
  drain fuel iter_prev (Iter lst c (Z.of_nat k) false en) s = Ret (reverse (take (S k) (indexed l)), s).
Proof using Hl.
  induction fuel as [|fuel IH]; intros k c e en Hk Hf; [lia|].
  destruct (node_at k c e Hk) as (Hd & _ & Hp & Hc0 & Hw).
  cbn [drain]. unfold iter_prev at 1. cbn [at_end cursor index target start].
  rewrite bind_assoc, run_rd64, bind_assoc, run_rd64, bind_retv, Hd, Hp.
  cbn [fst snd]. rewrite (take_S_r _ _ _ (indexed_lookup k c e Hk)), reverse_app. cbn [reverse rev_append].
  destruct k as [|k].
  - change (0 =? 0) with true. cbv iota. destruct fuel as [|fuel]; [lia|]. done.
  - destruct (lookup_lt_is_Some_2 l k) as [[c' e'] Hk']; [apply lookup_lt_Some in Hk; lia|].
    destruct (node_at k c' e' Hk') as (_ & _ & _ & Hc0' & _).
    rewrite list_lookup_fmap, Hk'. cbn [fmap option_fmap option_map from_option id fst].
    rewrite (proj2 (Z.eqb_neq c' 0)) by done. rewrite u64_small by lia.
    replace (Z.of_nat (S k) - 1) with (Z.of_nat k) by lia.
    by rewrite (bind_ret _ _ _ _ _ (IH k c' e' false Hk' ltac:(lia))).
Qed.

(** The iterators of the generic linked list visit every element once: from
    [iter_new] on, [iter_next] gives the elements with their indexes in order
    and then false; from [iter_toend] on, [iter_prev] gives them in reverse
    order and then false, also for the empty list. *)
Theorem iterators_visit_all :
  (let* i := iter_new lst in drain (S (length l)) iter_next i) s = Ret (indexed l, s) ∧
  ∀ i0, target i0 = lst →
    (let* i := iter_toend i0 in drain (S (S (length l))) iter_prev i) s = Ret (reverse (indexed l), s).
Proof using Hl.
  pose proof (rep_count _ _ _ (proj2 Hl)) as Hc. pose proof (blocks_nodup _ _ _ _ (proj1 Hl)) as Hnd.
  pose proof (nodes_few _ _ _ _ (proj1 Hl)) as Hw. split; [|intros i0 Ht].
  - unfold iter_new, empty. rewrite bind_assoc, run_rd64, !bind_assoc, run_rd64, !bind_retv, Hc.
    destruct (decide (l = [])) as [El|Hne]; [by rewrite El|].
    assert (0 < length l)%nat as Hpos by (destruct l; simpl; [done|lia]).
    destruct (lookup_lt_is_Some_2 l 0) as [[c e] Hk]; [lia|].
    rewrite (proj2 (Z.eqb_neq _ 0)) by lia. rewrite (rep_first lst _ _ c e (proj2 Hl) Hnd Hk).
    by apply (drain_next _ 0 c e); [|lia].
  - unfold iter_toend, empty. rewrite Ht. rewrite bind_assoc, run_rd64, !bind_assoc, run_rd64, !bind_assoc, run_rd64, !bind_retv, Hc.
    destruct (decide (l = [])) as [El|Hne]; [by rewrite El|].
    assert (0 < length l)%nat as Hpos by (destruct l; simpl; [done|lia]).
    destruct (lookup_lt_is_Some_2 l (length l - 1)) as [[c e] Hk]; [lia|].
    rewrite (proj2 (Z.eqb_neq _ 0)), u64_small by lia. rewrite (rep_last lst _ _ c e (proj2 Hl) Hnd Hk).
    replace (Z.of_nat (length l) - 1) with (Z.of_nat (length l - 1)) by lia.
    rewrite (drain_prev _ _ c e true Hk) by lia. rewrite take_ge by (unfold indexed; rewrite length_imap; lia). done.
Qed.
End iterators.

(** ** The page allocator as [malloc] *)

#[export] Instance page_malloc {LK : Linker} : Malloc := {| malloc := λ _, kalloc; free := kfree |}.

Section pages.
Context {LK : Linker}.

(** The pages [P] are the blocks (each in a page of its own) and the free
    pages. *)
Definition page_heap (P : list Z) (s : kmem) (bs : list (Z * Z)) : Prop :=
  ∃ fl, free_list s fl ∧ bs.*1 ++ fl ≡ₚ P ∧ NoDup P ∧ Forall (λ x, page_ok x.1 ∧ 0 ≤ x.2 ≤ PGSIZE) bs.

Lemma pages_kept_blocks m m' p bs :
  only_changes m m' p PGSIZE → page_ok p → Forall (λ x, page_ok x.1 ∧ 0 ≤ x.2 ≤ PGSIZE) bs → (p ∉ bs.*1) →
  blocks_kept m m' bs.
Proof.
  intros Hch Hp Hbs Hn. apply Forall_forall. intros x Hx. destruct (proj1 (Forall_forall _ _) Hbs x Hx) as [Hxp Hx2].
  assert (p ≠ x.1) as Hne by (intros ->; apply Hn; by apply list_elem_of_fmap_2).
  pose proof (pages_disjoint p x.1 (proj1 Hp) (proj1 Hxp) Hne). eapply only_changes_agree; [exact Hch|lia].
Qed.

Definition page_malloc_spec (P : list Z) : MallocSpec.
Proof.
  refine {| heap := page_heap P |}.
  - intros s bs bs' Hp (fl & Hf & HP & Hnd & Hbs). exists fl. split; [done|]. split; [by rewrite <- Hp|]. split; [done|].
    by rewrite <- Hp.
  - intros s bs x (fl & _ & _ & _ & Hbs) Hx. destruct (proj1 (Forall_forall _ _) Hbs x Hx) as [Hxp Hx2].
    pose proof (page_ok_pos _ Hxp). destruct Hxp as [_ Hr]. unfold PHYSTOP, PGSIZE in *. lia.
  - intros s x y bs (fl & _ & HP & Hnd & Hbs). rewrite !Forall_cons in Hbs. destruct Hbs as ([Hx Hx2] & [Hy Hy2] & _).
    rewrite <- HP in Hnd. cbn [fmap list_fmap app] in Hnd. apply NoDup_cons in Hnd as [Hn _].
    rewrite not_elem_of_cons in Hn. destruct (pages_disjoint x.1 y.1 (proj1 Hx) (proj1 Hy) (proj1 Hn)); unfold apart; lia.
  - intros s bs x m' (fl & Hf & HP & Hnd & Hbs) Hx Hch. exists fl. split; [|done].
    destruct (proj1 (Forall_forall _ _) Hbs x Hx) as [Hxp Hx2].
    apply free_list_frame; [done|]. apply (pages_kept_only_changes _ _ x.1); [eapply only_changes_sub; [exact Hch|lia..]|apply Hxp|apply Hf|].
    rewrite <- HP in Hnd. apply NoDup_app in Hnd as (_ & Hd & _). apply Hd. by apply list_elem_of_fmap_2.
  - intros s bs (fl & Hf & HP & Hnd & Hbs). destruct fl as [|p fl].
    + exists 0, s. split; [by apply kalloc_empty|]. split; [apply blocks_kept_refl|]. left. split; [done|]. by exists [].
    + destruct (kalloc_rep s p fl Hf) as (s' & E & Hf' & Hch & _).
      destruct Hf as (_ & _ & [Hp _]%Forall_cons). exists p, s'. split; [exact E|].
      assert (p ∉ bs.*1) as Hn.
      { rewrite <- HP in Hnd. apply NoDup_app in Hnd as (_ & Hd & _). intros Hin. apply (Hd p Hin). left. }
      split; [by eapply pages_kept_blocks|]. right. split; [by apply page_ok_nonzero|].
      exists fl. split; [done|]. split; [|split; [done|]].
      * rewrite <- HP. cbn [fmap list_fmap fst app]. apply Permutation_middle.
      * apply Forall_cons. split; [|done]. split; [done|]. unfold NODE_SIZE, PGSIZE. simpl. lia.
  - intros s p bs (fl & Hf & HP & Hnd & Hbs). apply Forall_cons in Hbs as [[Hp _] Hbs]. simpl in Hp.
    pose proof Hnd as Hnd'. rewrite <- HP in Hnd'. cbn [fmap list_fmap fst app] in Hnd'.
    apply NoDup_cons in Hnd' as [Hn _]. rewrite not_elem_of_app in Hn. destruct Hn as [Hn1 Hn2].
    destruct (kfree_rep s p fl Hf Hp Hn2) as (s' & E & Hf' & Hch). exists s'. split; [exact E|].
    split; [|by eapply pages_kept_blocks]. exists (p :: fl). split; [done|]. split; [|done].
    rewrite <- HP. cbn [fmap list_fmap fst app]. symmetry. apply Permutation_middle.
Defined.

(** ** Creation and deletion *)

Lemma list_new_result s p fl : free_list s (p :: fl) →
  ∃ s', list_new s = Ret (p, s') ∧ list_at (MS := page_malloc_spec (p :: fl)) p [] s' [].
Proof.
  intros Hf. pose proof Hf as (_ & Hnd & [Hp _]%Forall_cons).
  destruct (kalloc_rep s p fl Hf) as (s1 & E & Hf1 & _ & _).
  unfold list_new. rewrite (bind_ret _ _ _ _ _ E). rewrite (proj2 (Z.eqb_neq p 0)) by (by apply page_ok_nonzero).
  assert (page_heap (p :: fl) s1 [(p, LIST_SIZE)]) as Hh.
  { exists fl. split; [done|]. split; [done|]. split; [done|]. apply Forall_singleton.
    split; [done|]. unfold LIST_SIZE, PGSIZE. simpl. lia. }
  set (m' := store64 (store64 (store64 (km_mem s1) (p + L_COUNT) 0) (p + L_HEAD) 0) (p + L_TAIL) 0).
  exists (set_mem m' s1). split; [done|].
  assert (load64 m' (p + L_COUNT) = 0 ∧ load64 m' (p + L_HEAD) = 0 ∧ load64 m' (p + L_TAIL) = 0) as (H1 & H2 & H3).
  { subst m'. unfold L_COUNT, L_HEAD, L_TAIL.
    repeat first [rewrite load64_store64 by lia|rewrite load64_store64_other by lia]. done. }
  pose proof (page_ok_nonzero _ Hp) as Hp0. split.
  - apply (heap_write (MallocSpec := page_malloc_spec (p :: fl)) s1 _ (p, LIST_SIZE)); [exact Hh|left|].
    unfold m', LIST_SIZE, L_COUNT, L_HEAD, L_TAIL. simpl.
    repeat (eapply only_changes_trans; [|eapply only_changes_sub; [apply store64_changes|lia..]]). apply only_changes_refl.
  - rewrite km_set_mem. split.
    + apply ring_single. unfold lnext, lprev, raw_next, raw_prev, of_null. rewrite !(decide_True (P := p = p)) by done.
      by rewrite H2, H3.
    + intros c ->%list_elem_of_singleton. unfold raw_next, raw_prev. rewrite !(decide_True (P := p = p)) by done.
      rewrite H2, H3. split; congruence.
    + done.
    + intros n d Hin. by apply not_elem_of_nil in Hin.
Qed.

(** The nodes [ns] follow each other, from [h] to NULL. *)
Fixpoint nexts (m : mem) (h : Z) (ns : list Z) : Prop :=
  match ns with
  | [] => h = 0
  | n :: ns => h = n ∧ nexts m (load64 m (n + N_NEXT)) ns
  end.

Lemma nexts_agree m m' h ns : Forall (λ n, load64 m' (n + N_NEXT) = load64 m (n + N_NEXT)) ns → nexts m h ns → nexts m' h ns.
Proof.
  revert h. induction ns as [|n ns IH]; intros h Hf; [done|]. apply Forall_cons in Hf as [Hn Hf].
  intros [-> Hs]. split; [done|]. rewrite Hn. by apply IH.
Qed.

Lemma rep_nexts (P : list Z) lst fr s l : list_at (MS := page_malloc_spec P) lst fr s l →
  nexts (km_mem s) (load64 (km_mem s) (lst + L_HEAD)) l.*1.
Proof.
  intros Hl. assert (∀ k, (k ≤ length l)%nat → nexts (km_mem s) (default 0 (l.*1 !! k)) (drop k l.*1)) as Hk.
  { intros k Hle. remember (length l - k)%nat as n eqn:En. revert k Hle En. induction n as [|n IH]; intros k Hle En.
    - rewrite drop_ge, lookup_ge_None_2 by (rewrite length_fmap; lia). done.
    - destruct (lookup_lt_is_Some_2 l k) as [[c e] Hc]; [lia|].
      assert (l.*1 !! k = Some c) as Hc' by (by rewrite list_lookup_fmap, Hc).
      rewrite (drop_S _ _ _ Hc'), Hc'. split; [done|].
      destruct (node_at (MS := page_malloc_spec P) lst fr s l Hl k c e Hc) as (_ & -> & _). apply IH; lia. }
  specialize (Hk 0%nat ltac:(lia)). rewrite drop_0 in Hk.
  replace (load64 (km_mem s) (lst + L_HEAD)) with (default 0 (l.*1 !! 0%nat)); [done|].
  destruct l as [|[c e] l]; simpl.
  - destruct (rep_ends lst _ _ (proj2 Hl)) as [-> _]. simpl. by rewrite to_null_list.
  - symmetry. apply (rep_first lst _ ((c, e) :: l) c e); [apply Hl| |done]. eapply (blocks_nodup (MS := page_malloc_spec P)). apply Hl.
Qed.

Lemma free_loop_result lst ns : ∀ fuel s fl,
  free_list s fl → nexts (km_mem s) (load64 (km_mem s) (lst + L_HEAD)) ns →
  NoDup (lst :: ns ++ fl) → Forall page_ok (lst :: ns) → (length ns < fuel)%nat →
  ∃ s', free_loop fuel lst (load64 (km_mem s) (lst + L_HEAD)) s = Ret ((), s') ∧ free_list s' (rev ns ++ fl).
Proof.
  induction ns as [|n ns IH]; intros [|fuel] s fl Hf Hs Hnd Hp Hfuel; try (simpl in Hfuel; lia); cbn [free_loop]; rewrite run_rd64.
  - simpl in Hs. rewrite Hs. change (0 =? 0) with true. exists s. by split.
  - destruct Hs as [Hh Hs]. rewrite Hh. rewrite !Forall_cons in Hp. destruct Hp as (Hlst & Hn & Hp).
    rewrite (proj2 (Z.eqb_neq n 0)) by (by apply page_ok_nonzero). rewrite run_rd64.
    set (h' := load64 (km_mem s) (n + N_NEXT)) in *. rewrite <- (set_mem_self s), run_wr64.
    set (m1 := store64 (km_mem s) (lst + L_HEAD) h').
    rewrite NoDup_cons in Hnd. destruct Hnd as [Hlsn Hnd]. cbn [app] in Hlsn, Hnd. rewrite not_elem_of_cons, not_elem_of_app in Hlsn.
    destruct Hlsn as (Hln & Hlns & Hlfl). apply NoDup_cons in Hnd as [Hnin Hnd]. rewrite not_elem_of_app in Hnin. destruct Hnin as [Hnns Hnfl].
    assert (only_changes (km_mem s) m1 lst PGSIZE) as Hc1.
    { eapply only_changes_sub; [apply store64_changes|unfold L_HEAD, PGSIZE; lia..]. }
    assert (free_list (set_mem m1 s) fl) as Hf1.
    { apply free_list_frame; [done|]. eapply pages_kept_only_changes; [exact Hc1|apply Hlst|apply Hf|done]. }
    destruct (kfree_rep _ n fl Hf1 Hn Hnfl) as (s2 & E2 & Hf2 & Hc2). rewrite (bind_ret _ _ _ _ _ E2), run_rd64. cbn [km_mem set_mem] in Hc2.
    assert (∀ c, page_ok c → c ≠ lst → c ≠ n → load64 (km_mem s2) (c + N_NEXT) = load64 (km_mem s) (c + N_NEXT)) as Hother.
    { intros c Hc Hcl Hcn. pose proof (pages_disjoint c lst (proj1 Hc) (proj1 Hlst) Hcl).
      pose proof (pages_disjoint c n (proj1 Hc) (proj1 Hn) Hcn). apply load64_agree. unfold N_NEXT, PGSIZE in *.
      eapply agree_trans; eapply only_changes_agree; [exact Hc1|lia|exact Hc2|lia]. }
    assert (load64 (km_mem s2) (lst + L_HEAD) = h') as Hhd.
    { pose proof (pages_disjoint lst n (proj1 Hlst) (proj1 Hn) Hln).
      rewrite (load64_agree m1); [apply load64_store64, load64_range|]. unfold L_HEAD, PGSIZE in *.
      eapply only_changes_agree; [exact Hc2|lia]. }
    rewrite Hhd. destruct (IH fuel s2 (n :: fl)) as (s' & E & Hf'); [done|..].
    + rewrite Hhd. eapply nexts_agree; [|exact Hs]. apply Forall_forall. intros c Hc. apply Hother; [|by intros ->..].
      by apply (proj1 (Forall_forall _ _) Hp).
    + rewrite NoDup_cons, not_elem_of_app, not_elem_of_cons. split; [done|].
      rewrite <- Permutation_middle. apply NoDup_cons. by rewrite not_elem_of_app.
    + by apply Forall_cons.
    + simpl in Hfuel. lia.
    + rewrite Hhd in E. exists s'. split; [exact E|]. cbn [rev]. by rewrite <- app_assoc.
Qed.

Lemma list_free_result P lst s l fuel : list_at (MS := page_malloc_spec P) lst [] s l → (length l < fuel)%nat →
  ∃ s' fl, list_free fuel lst s = Ret ((), s') ∧ free_list s' fl ∧ fl ≡ₚ P.
Proof.
  intros Hl Hfuel. pose proof Hl as [(fl & Hf & HP & Hnd & Hbs) _].
  rewrite app_nil_r, blocks_fst in HP. rewrite app_nil_r in Hbs. pose proof Hnd as Hnd'. rewrite <- HP in Hnd'.
  assert (Forall page_ok (lst :: l.*1)) as Hp.
  { rewrite <- blocks_fst. apply Forall_fmap. eapply Forall_impl; [exact Hbs|]. by intros x [? _]. }
  destruct (free_loop_result lst l.*1 fuel s fl Hf (rep_nexts _ _ _ _ _ Hl) Hnd' Hp) as (s1 & E1 & Hf1).
  { by rewrite length_fmap. }
  cbn [app] in Hnd'. apply NoDup_cons in Hnd' as [Hn _]. apply Forall_cons in Hp as [Hlst _].
  destruct (kfree_rep s1 lst _ Hf1 Hlst) as (s2 & E2 & Hf2 & _).
  { rewrite elem_of_app, list_elem_of_In, <- in_rev, <- list_elem_of_In, <- elem_of_app. done. }
  exists s2, (lst :: rev l.*1 ++ fl). split; [|split; [done|]].
  - unfold list_free. rewrite run_rd64, (bind_ret _ _ _ _ _ E1). exact E2.
  - rewrite <- HP. cbn [app]. by rewrite <- Permutation_rev.
Qed.

(** ** The operations on neighbours at the ends *)

(** [remove_nxt] of the last node: NULL is taken for a node. *)
Lemma remove_nxt_last P lst s l1 n d q e (l := l1 ++ [(n, d); (q, e)]) :
  list_at (MS := page_malloc_spec P) lst [] s l →
  ∃ s' fl, remove_nxt n s = Ret (true, s') ∧ free_list s' (q :: fl) ∧
    load64 (km_mem s') (lst + L_TAIL) = q ∧ load64 (km_mem s') N_PREV = n ∧
    load64 (km_mem s') (lst + L_COUNT) = Z.of_nat (length l) - 1.
Proof.
  intros Hl. pose proof Hl as [(fl & Hf & HP & Hnd & Hbs) Hrep]. rewrite app_nil_r, ?blocks_fst in HP. rewrite app_nil_r in Hbs.
  rewrite <- HP in Hnd.
  assert (Forall page_ok (lst :: l.*1)) as Hp.
  { rewrite <- blocks_fst. apply Forall_fmap. eapply Forall_impl; [exact Hbs|]. by intros x [? _]. }
  assert (l.*1 = l1.*1 ++ [n; q]) as El by (unfold l; by rewrite fmap_app).
  pose proof (blocks_nodup (MS := page_malloc_spec P) _ _ _ _ (proj1 Hl)) as Hnd'.
  assert (l !! length l1 = Some (n, d) ∧ l !! S (length l1) = Some (q, e)) as [Hi Hj].
  { unfold l. split; [by apply list_lookup_middle|]. rewrite lookup_app_r by lia. by replace (S (length l1) - length l1)%nat with 1%nat by lia. }
  destruct (rep_split lst _ _ _ _ _ Hrep Hnd' Hi) as (Hnl & _ & _ & _ & Hno).
  destruct (rep_step lst _ _ _ _ _ _ _ Hrep Hnd' Hi Hj) as [Hnq _].
  destruct (rep_split lst _ _ _ _ _ Hrep Hnd' Hj) as (Hql & Hqn & _). rewrite drop_ge in Hqn by (unfold l; rewrite length_app; simpl; lia).
  simpl in Hqn. rewrite to_null_list in Hqn.
  assert (load64 (km_mem s) (lst + L_TAIL) = q) as Htl.
  { apply (rep_last lst _ l q e Hrep Hnd'). rewrite <- Hj. f_equal. unfold l. rewrite length_app. simpl. lia. }
  assert (page_ok lst ∧ page_ok n ∧ page_ok q) as (Plst & Pn & Pq).
  { rewrite Forall_forall in Hp. split_and!; apply Hp; [left|right..]; rewrite El, elem_of_app, !elem_of_cons; tauto. }
  cbn [app] in Hnd. rewrite El in Hnd, Hnd'.
  assert (n ≠ q ∧ (q ∉ fl) ∧ (n ∉ fl) ∧ (lst ∉ fl)) as (Hne & Hqfl & Hnfl & Hlfl).
  { rewrite <- app_assoc in Hnd. apply NoDup_cons in Hnd as [Hl0 Hnd]. rewrite !not_elem_of_app in Hl0.
    apply NoDup_app in Hnd as (_ & _ & Hnd). cbn [app] in Hnd. rewrite !NoDup_cons, not_elem_of_cons in Hnd. tauto. }
  pose proof (pages_disjoint n q (proj1 Pn) (proj1 Pq) Hne) as D1. pose proof (pages_disjoint lst q (proj1 Plst) (proj1 Pq) ltac:(congruence)) as D2.
  pose proof (pages_disjoint n lst (proj1 Pn) (proj1 Plst) Hnl) as D3. pose proof KEND_range as Hk.
  destruct Plst as [Mlst Rlst], Pn as [Mn Rn]. pose proof Pq as [Mq Rq].
  pose proof (nodes_few (MS := page_malloc_spec P) _ _ _ _ (proj1 Hl)) as Hw. pose proof (rep_count _ _ _ Hrep) as Hc.
  assert (0 < length l)%nat as Hlen by (unfold l; rewrite length_app; simpl; lia).
  unfold remove_nxt, add_count. rewrite <- (set_mem_self s). run.
  unfold KSTART, PHYSTOP, PGSIZE in *.
  repeat (progress (run; rewrite ?Hnq, ?Hqn, ?Hno, ?Hc; rewrite ?(proj2 (Z.eqb_neq q 0)) by lia; cbv iota;
    unfold N_NEXT, N_PREV, N_OWNER, L_COUNT, L_TAIL in *;
    repeat first [rewrite load64_store64 by lia|rewrite load64_store64_other by lia])).
  rewrite u64_small by lia. set (m' := store64 _ (lst + 16) _).
  assert (load64 m' (lst + 8) = q ∧ load64 m' 24 = n ∧ load64 m' (lst + 16) = Z.of_nat (length l) - 1) as (L1 & L2 & L3).
  { subst m'. repeat first [rewrite load64_store64 by lia|rewrite load64_store64_other by lia]. split; [done|]. split; [done|lia]. }
  assert (free_list (set_mem m' s) fl) as Hf'.
  { apply free_list_frame; [done|]. apply Forall_forall. intros x Hx b Hb.
    destruct Hf as (_ & _ & Hfp). destruct (proj1 (Forall_forall _ _) Hfp x Hx) as [Mx Rx].
    pose proof (pages_disjoint n x Mn Mx ltac:(congruence)). pose proof (pages_disjoint lst x Mlst Mx ltac:(congruence)).
    unfold PGSIZE in *. subst m'. rewrite !(store64_changes _ _ _ b) by lia. done. }
  destruct (kfree_rep _ q fl Hf' Pq Hqfl) as (s2 & E & Hf2 & Hch). cbn [km_mem set_mem] in Hch.
  exists s2, fl. split; [change (free q) with (kfree q); by rewrite (bind_ret _ _ _ _ _ E)|]. split; [exact Hf2|].
  rewrite !(load64_agree m' (km_mem s2)); [done|..]; eapply only_changes_agree; [exact Hch| |exact Hch| |exact Hch|]; unfold PGSIZE in *; lia.
Qed.

(** C38. With the page allocator in the place of [malloc], two operations on
    neighbours break the list.  [remove_nxt] of the last node takes NULL for a
    node: it writes to address 24 and leaves the header's [tail] on the freed
    node.  [remove_prv] does not count: the list is linked as it should be, but
    [count] says one node more. *)
Theorem remove_neighbour_errors P lst s l1 a ea n d q e (l := (l1 ++ [(a, ea)]) ++ [(n, d); (q, e)]) :
  list_at (MS := page_malloc_spec P) lst [] s l →
  (∃ s' fl, remove_nxt n s = Ret (true, s') ∧ free_list s' (q :: fl) ∧
     load64 (km_mem s') (lst + L_TAIL) = q ∧ load64 (km_mem s') N_PREV = n ∧
     load64 (km_mem s') (lst + L_COUNT) = Z.of_nat (length l) - 1) ∧
  let l' := (l1 ++ [(a, ea)]) ++ [(q, e)] in
  ∃ s', remove_prv q s = Ret (true, s') ∧ load64 (km_mem s') (lst + L_COUNT) = Z.of_nat (length l') + 1 ∧
    list_at (MS := page_malloc_spec P) lst []
      (set_mem (store64 (km_mem s') (lst + L_COUNT) (Z.of_nat (length l'))) s') l'.
Proof.
  intros Hl. split; [by apply (remove_nxt_last P lst s (l1 ++ [(a, ea)]) n d q e)|].
  destruct (remove_prv_result (MS := page_malloc_spec P) lst [] s l1 a ea n d q e [] Hl) as (s' & E & Hc & Hl').
  exists s'. split; [exact E|]. split; [|exact Hl']. rewrite Hc, !length_app. simpl. lia.
Qed.

(** With pages for nodes there is no memory just when the list has taken all the
    pages but its own. *)
Lemma pages_no_memory P lst s l : list_at (MS := page_malloc_spec P) lst [] s l →
  no_memory s = bool_decide (length l = (length P - 1)%nat).
Proof.
  intros [(fl & Hf & HP & _) _]. apply Permutation_length in HP.
  rewrite app_nil_r, blocks_fst, length_app in HP. cbn [length] in HP. rewrite length_fmap in HP.
  destruct fl as [|p fl].
  - rewrite (no_memory_ret (MA := page_malloc) _ _ _ (kalloc_empty s Hf)). simpl in HP. by rewrite bool_decide_eq_true_2 by lia.
  - destruct (kalloc_rep s p fl Hf) as (s' & E & _). rewrite (no_memory_ret (MA := page_malloc) _ _ _ E).
    destruct Hf as (_ & _ & [Hp _]%Forall_cons). simpl in HP. rewrite bool_decide_eq_false_2 by lia.
    apply Z.eqb_neq. by apply page_ok_nonzero.
Qed.

Lemma run_ops_pages P lst os : ∀ s l,
  list_at (MS := page_malloc_spec P) lst [] s l → ops_ok_within (length P - 1) os l.*2 →
  ∃ s' l', run_ops lst os s = Ret ((means_ops (length P - 1) os l.*2).1, s') ∧
    list_at (MS := page_malloc_spec P) lst [] s' l' ∧ (means_ops (length P - 1) os l.*2).2 = l'.*2.
Proof.
  induction os as [|o os IH]; intros s l Hl Hok; [by exists s, l|].
  destruct Hok as [Ho Hos]. destruct (op_step (MS := page_malloc_spec P) lst [] s l o Hl Ho) as (r & s1 & l1 & E1 & Hl1 & _ & Hm).
  cbn [means_ops run_ops]. rewrite (pages_no_memory P lst s l Hl) in Hm. rewrite length_fmap in Hos |- *.
  rewrite Hm in Hos |- *. cbn [fst snd] in Hos |- *. destruct (IH s1 l1 Hl1 Hos) as (s' & l' & E2 & Hl' & El).
  exists s', l'. split; [by rewrite (bind_ret _ _ _ _ _ E1), (bind_ret _ _ _ _ _ E2)|]. by split.
Qed.

End pages.


(** * Witnesses *)

(** A list with three nodes in pages. *)
Definition demo_nodes : list (Z * Z) := [(0x200000, 7); (0x400000, 8); (0x500000, 9)].
Definition demo_node (n next prev d : Z) (m : mem) : mem :=
  store64 (store64 (store64 (store64 m (n + N_DATA) d) (n + N_OWNER) 0x300000) (n + N_NEXT) next) (n + N_PREV) prev.
Definition demo_list : kmem :=
  Kmem (store64 (store64 (store64
    (demo_node 0x200000 0x400000 0 7 (demo_node 0x400000 0x500000 0x200000 8 (demo_node 0x500000 0 0x400000 9 ∅)))
    (0x300000 + L_HEAD) 0x200000) (0x300000 + L_TAIL) 0x500000) (0x300000 + L_COUNT) 3) 0.
Definition demo_spec : MallocSpec (MA := page_malloc (LK := demo_linker)) :=
  page_malloc_spec (LK := demo_linker) [0x300000; 0x200000; 0x400000; 0x500000].

Lemma demo_list_at : list_at (MS := demo_spec) 0x300000 [] demo_list demo_nodes.
Proof.
  split.
  - exists []. split; [split_and!; [done|constructor|constructor]|]. split; [done|]. split.
    + apply (bool_decide_unpack _). vm_compute. exact I.
    + apply (bool_decide_unpack _). vm_compute. exact I.
  - split.
    + repeat split; vm_compute; reflexivity.
    + intros c Hc. cbn [demo_nodes fmap list_fmap fst] in Hc. rewrite !elem_of_cons in Hc.
      destruct Hc as [-> |[-> |[-> |[-> |Hx]]]]; [..|by apply not_elem_of_nil in Hx]; vm_compute; split; discriminate.
    + vm_compute. reflexivity.
    + intros n d Hc. unfold demo_nodes in Hc. rewrite !elem_of_cons in Hc.
      destruct Hc as [[= -> ->]|[[= -> ->]|[[= -> ->]|Hx]]]; [..|by apply not_elem_of_nil in Hx]; vm_compute; done.
Qed.



Lemma iterators_visit_all_witness :
  indexed demo_nodes = [(7, 0); (8, 1); (9, 2)] ∧
  (let* i := iter_new 0x300000 in drain (S (length demo_nodes)) iter_next i) demo_list =
    Ret (indexed demo_nodes, demo_list).
Proof.
  split; [reflexivity|].
  exact (proj1 (iterators_visit_all (MS := demo_spec) 0x300000 [] demo_list demo_nodes demo_list_at)).
Defined.

Lemma remove_neighbour_errors_witness :
  ∃ s' fl, remove_nxt (MA := page_malloc (LK := demo_linker)) 0x400000 demo_list = Ret (true, s') ∧
    free_list (LK := demo_linker) s' (0x500000 :: fl) ∧ load64 (km_mem s') (0x300000 + L_TAIL) = 0x500000.
Proof.
  destruct (remove_neighbour_errors (LK := demo_linker) [0x300000; 0x200000; 0x400000; 0x500000] 0x300000 demo_list
    [] 0x200000 7 0x400000 8 0x500000 9 demo_list_at) as [(s' & fl & E & Hf & Ht & _) _].
  exists s', fl. split; [exact E|]. split; [exact Hf|exact Ht].
Defined.
