(* ===== verification/StrUtils.v ===== *)
(** * String and number formatting ([kernel/lib/src/str_utils.c])

    A [char] array is the list of its bytes; an access outside it is undefined
    behaviour ([Undef]).  A string argument is the array it points into, with
    its terminating zero; [None] is the null pointer.  Values of type [int] are
    kept in the range of [int]: an addition that leaves it is [Undef] too. *)

From S2P Require Import Prelude.
From Stdlib Require Import Ascii.

(** The code of a character, and the bytes of a string literal (without its
    terminating zero). *)
Definition ch (a : ascii) : Z := Z.of_N (N_of_ascii a).
Arguments ch _%_char_scope.
Definition chars (s : string) : list Z := map ch (String.list_ascii_of_string s).

Definition buf_get (b : list Z) (i : Z) : outcome Z :=
  if 0 <=? i then from_option Ret Undef (b !! Z.to_nat i) else Undef.

Definition buf_set (b : list Z) (i c : Z) : outcome (list Z) :=
  if (0 <=? i) && (i <? Z.of_nat (length b)) then Ret (<[Z.to_nat i := c]> b) else Undef.

(** The result of an [int] computation. *)
Definition int_of (x : Z) : outcome Z :=
  if (-2147483648 <=? x) && (x <? 2147483648) then Ret x else Undef.

(** ** Formats *)

Definition MAX_DIGIT_BUFFER_SIZE : nat := 255.

Definition FMT_FLAG_LEFT : Z := Z.shiftl 1 0.
Definition FMT_FLAG_PLUS : Z := Z.shiftl 1 1.
Definition FMT_FLAG_SPACE : Z := Z.shiftl 1 2.
Definition FMT_FLAG_HASH : Z := Z.shiftl 1 3.
Definition FMT_FLAG_ZERO : Z := Z.shiftl 1 4.
Definition FMT_FLAG_UPPER : Z := Z.shiftl 1 5.

Definition FMT_LEN_DEFAULT : Z := 0.
Definition FMT_LEN_HH : Z := 1.
Definition FMT_LEN_H : Z := 2.
Definition FMT_LEN_L : Z := 3.
Definition FMT_LEN_LL : Z := 4.
Definition FMT_LEN_Z : Z := 5.

Record fmt_spec := FmtSpec { flags : Z; width : Z; precision : Z; length_mod : Z }.

(** [spec->flags & flag] as a condition. *)
Definition has_flag (spec : fmt_spec) (flag : Z) : bool := negb (Z.land (flags spec) flag =? 0).

(** ** Basic string functions *)

Fixpoint reverse_loop (fuel : nat) (str : list Z) (i j : Z) : outcome (list Z) :=
  match fuel with
  | O => OutOfFuel
  | S fuel =>
      if i <? j then
        tmp ← buf_get str i;
        x ← buf_get str j;
        str ← buf_set str i x;
        str ← buf_set str j tmp;
        reverse_loop fuel str (i + 1) (j - 1)
      else Ret str
  end.

Definition reverse_str (str : list Z) (n : Z) : outcome (list Z) :=
  reverse_loop (S (Z.to_nat n)) str 0 (n - 1).

Fixpoint strlen_loop (fuel : nat) (str : list Z) (len : Z) : outcome Z :=
  match fuel with
  | O => OutOfFuel
  | S fuel =>
      c ← buf_get str len;
      if c =? 0 then Ret len else strlen_loop fuel str (len + 1)
  end.

Definition strlen (str : option (list Z)) : outcome Z :=
  match str with
  | None => Ret 0
  | Some str => strlen_loop (S (length str)) str 0
  end.

Fixpoint strcpy_loop (fuel : nat) (dest : list Z) (src : list Z) (i : Z) : outcome (list Z) :=
  match fuel with
  | O => OutOfFuel
  | S fuel =>
      c ← buf_get src i;
      dest ← buf_set dest i c;
      if c =? 0 then Ret dest else strcpy_loop fuel dest src (i + 1)
  end.

Definition strcpy (dest src : list Z) : outcome (list Z) :=
  strcpy_loop (S (length src)) dest src 0.

(** ** Numbers to strings *)

Definition digits_lower : list Z := chars "0123456789abcdef" ++ [0].
Definition digits_upper : list Z := chars "0123456789ABCDEF" ++ [0].

Fixpoint digit_loop (fuel : nat) (digits : list Z) (num radix : Z) (str : list Z) (i : Z)
    : outcome (Z * list Z) :=
  match fuel with
  | O => OutOfFuel
  | S fuel =>
      if num =? 0 then Ret (i, str)
      else
        c ← buf_get digits (num mod radix);
        str ← buf_set str i c;
        digit_loop fuel digits (num / radix) radix str (i + 1)
  end.

(** [if (radix < 2 || radix > 16) radix = 10;] *)
Definition fix_radix (radix : Z) : Z := if (radix <? 2) || (16 <? radix) then 10 else radix.

(** A 64-bit number has at most 64 digits, so 65 tests of the loop condition
    are enough. *)
Definition utoa64 (num : Z) (str : list Z) (radix : Z) (uppercase : bool) : outcome (Z * list Z) :=
  let radix := fix_radix radix in
  let digits := if uppercase then digits_upper else digits_lower in
  '(i, str) ← (if num =? 0 then str ← buf_set str 0 (ch "0"); Ret (1, str)
               else digit_loop 65 digits num radix str 0);
  str ← reverse_str str i;
  str ← buf_set str i 0;
  Ret (i, str).

Definition itoa64 (num : Z) (str : list Z) (radix : Z) : outcome (Z * list Z) :=
  let radix := fix_radix radix in
  let is_negative := (num <? 0) && (radix =? 10) in
  let n := if is_negative then u64 (u64 (- (num + 1)) + 1) else u64 num in
  '(i, str) ← (if n =? 0 then str ← buf_set str 0 (ch "0"); Ret (1, str)
               else digit_loop 65 digits_lower n radix str 0);
  '(i, str) ← (if is_negative then str ← buf_set str i (ch "-"); Ret (i + 1, str)
               else Ret (i, str));
  str ← reverse_str str i;
  str ← buf_set str i 0;
  Ret (i, str).

Definition ptoa (num : Z) (str : list Z) : outcome (Z * list Z) :=
  '(_, str) ← utoa64 num str 16 false;
  Ret (0, str).

Definition itoa (num : Z) (str : list Z) (radix : Z) : outcome (Z * list Z) :=
  '(_, str) ← (if radix =? 10 then itoa64 (s64 num) str radix
               else utoa64 (u64 (u32 num)) str radix false);
  Ret (0, str).

(** ** Formatted numbers *)

(** [for (int i = 0; i < n; i++) buf[pos++] = c;] *)
Fixpoint fill_loop (n : nat) (c : Z) (buf : list Z) (pos : Z) : outcome (Z * list Z) :=
  match n with
  | O => Ret (pos, buf)
  | S n => buf ← buf_set buf pos c; fill_loop n c buf (pos + 1)
  end.

(** [for (int i = 0; i < n; i++) buf[pos++] = src[i];] from index [i] on. *)
Fixpoint copy_loop (n : nat) (src : list Z) (i : Z) (buf : list Z) (pos : Z)
    : outcome (Z * list Z) :=
  match n with
  | O => Ret (pos, buf)
  | S n =>
      c ← buf_get src i;
      buf ← buf_set buf pos c;
      copy_loop n src (i + 1) buf (pos + 1)
  end.

(** [prefix], with its length [prefix_len]. *)
Definition radix_prefix (num radix : Z) (numbuf : list Z) (spec : fmt_spec) (uppercase : bool)
    : outcome (list Z) :=
  if has_flag spec FMT_FLAG_HASH then
    if (radix =? 16) && negb (num =? 0) then Ret (chars (if uppercase then "0X" else "0x"))
    else
      c ← buf_get numbuf 0;
      if (radix =? 8) && negb (num =? 0) && negb (c =? ch "0") then Ret (chars "0")
      else if (radix =? 2) && negb (num =? 0) then Ret (chars (if uppercase then "0B" else "0b"))
      else Ret []
  else Ret [].

(** The part the two numeric formatters share: padding, [lead] (the prefix or
    the sign), zeros and digits.  Returns the number of characters. *)
Definition build_number (lead numbuf : list Z) (numlen : Z) (buf : list Z) (spec : fmt_spec)
    : outcome (Z * list Z) :=
  let prec := if precision spec <? 0 then 1 else precision spec in
  let num_zeros := if numlen <? prec then prec - numlen else 0 in
  total_digits ← int_of (numlen + num_zeros);
  total_len ← int_of (Z.of_nat (length lead) + total_digits);
  let padding := if total_len <? width spec then width spec - total_len else 0 in
  let zeroed :=
    has_flag spec FMT_FLAG_ZERO && negb (has_flag spec FMT_FLAG_LEFT) && (precision spec <? 0) in
  let zero_pad := if zeroed then padding else 0 in
  let padding := if zeroed then 0 else padding in
  '(pos, buf) ← (if has_flag spec FMT_FLAG_LEFT then Ret (0, buf)
                 else fill_loop (Z.to_nat padding) (ch " ") buf 0);
  '(pos, buf) ← copy_loop (length lead) lead 0 buf pos;
  '(pos, buf) ← fill_loop (Z.to_nat zero_pad) (ch "0") buf pos;
  '(pos, buf) ← fill_loop (Z.to_nat num_zeros) (ch "0") buf pos;
  '(pos, buf) ← copy_loop (Z.to_nat numlen) numbuf 0 buf pos;
  '(pos, buf) ← (if has_flag spec FMT_FLAG_LEFT
                 then fill_loop (Z.to_nat padding) (ch " ") buf pos else Ret (pos, buf));
  buf ← buf_set buf pos 0;
  Ret (pos, buf).

Definition format_unsigned (num : Z) (buf : list Z) (radix : Z) (spec : fmt_spec)
    : outcome (Z * list Z) :=
  let uppercase := has_flag spec FMT_FLAG_UPPER in
  '(numlen, numbuf) ← utoa64 num (replicate MAX_DIGIT_BUFFER_SIZE 0) radix uppercase;
  prefix ← radix_prefix num radix numbuf spec uppercase;
  build_number prefix numbuf numlen buf spec.

Definition sign_of (num : Z) (spec : fmt_spec) : list Z :=
  if num <? 0 then [ch "-"]
  else if has_flag spec FMT_FLAG_PLUS then [ch "+"]
  else if has_flag spec FMT_FLAG_SPACE then [ch " "]
  else [].

Definition format_signed (num : Z) (buf : list Z) (radix : Z) (spec : fmt_spec)
    : outcome (Z * list Z) :=
  let abs_num := if num <? 0 then u64 (u64 (- (num + 1)) + 1) else u64 num in
  '(numlen, numbuf) ← utoa64 abs_num (replicate MAX_DIGIT_BUFFER_SIZE 0) radix false;
  build_number (sign_of num spec) numbuf numlen buf spec.

(** ** Formatted strings *)

(** [for (int i = 0; i < n && pos < limit; i++) buf[pos++] = c;] *)
Fixpoint fill_until (n : nat) (limit c : Z) (buf : list Z) (pos : Z) : outcome (Z * list Z) :=
  match n with
  | O => Ret (pos, buf)
  | S n =>
      if pos <? limit then buf ← buf_set buf pos c; fill_until n limit c buf (pos + 1)
      else Ret (pos, buf)
  end.

Fixpoint copy_until (n : nat) (limit : Z) (src : list Z) (i : Z) (buf : list Z) (pos : Z)
    : outcome (Z * list Z) :=
  match n with
  | O => Ret (pos, buf)
  | S n =>
      if pos <? limit then
        c ← buf_get src i;
        buf ← buf_set buf pos c;
        copy_until n limit src (i + 1) buf (pos + 1)
      else Ret (pos, buf)
  end.

Definition format_string (str : option (list Z)) (buf : list Z) (buf_size : Z) (spec : fmt_spec)
    : outcome (Z * list Z) :=
  let str := default (chars "(null)" ++ [0]) str in
  slen ← strlen (Some str);
  let slen := if (0 <=? precision spec) && (precision spec <? slen) then precision spec else slen in
  let padding := if (0 <? width spec) && (slen <? width spec) then width spec - slen else 0 in
  let limit := u64 (buf_size - 1) in
  '(pos, buf) ← (if has_flag spec FMT_FLAG_LEFT then Ret (0, buf)
                 else fill_until (Z.to_nat padding) limit (ch " ") buf 0);
  '(pos, buf) ← copy_until (Z.to_nat slen) limit str 0 buf pos;
  '(pos, buf) ← (if has_flag spec FMT_FLAG_LEFT
                 then fill_until (Z.to_nat padding) limit (ch " ") buf pos else Ret (pos, buf));
  buf ← buf_set buf pos 0;
  Ret (pos, buf).

Example format_hex : format_unsigned 255 (replicate 12 7) 16 (FmtSpec 8 8 (-1) 0) =
  Ret (8, chars "    0xff" ++ [0; 7; 7; 7]).
Proof. vm_compute. reflexivity. Qed.
Example format_min : ∃ b, format_signed (-9223372036854775808) (replicate 24 7) 10
  (FmtSpec 0 (-1) (-1) 0) = Ret (20, b) ∧ take 20 b = chars "-9223372036854775808".
Proof. eexists. vm_compute. split; reflexivity. Qed.

(** ** Writing from the front of a buffer *)

(** [b] after [out] was written at its front. *)
Definition written (b out : list Z) : list Z := out ++ drop (length out) b.

Lemma buf_get_lookup b i c : b !! i = Some c → buf_get b (Z.of_nat i) = Ret c.
Proof.
  intros Hi. unfold buf_get. rewrite Nat2Z.id, Hi.
  by destruct (Z.leb_spec 0 (Z.of_nat i)); [|lia].
Qed.

Lemma buf_set_insert b i c :
  (i < length b)%nat → buf_set b (Z.of_nat i) c = Ret (<[i := c]> b).
Proof.
  intros Hi. unfold buf_set. rewrite Nat2Z.id.
  by destruct (Z.leb_spec 0 (Z.of_nat i)), (Z.ltb_spec (Z.of_nat i) (Z.of_nat (length b)));
    simpl; try lia.
Qed.

Lemma length_written b out :
  (length out ≤ length b)%nat → length (written b out) = length b.
Proof. intros. unfold written. rewrite length_app, length_drop. lia. Qed.

Lemma written_nil b : written b [] = b.
Proof. done. Qed.

Lemma take_written b out : take (length out) (written b out) = out.
Proof. apply take_app_length. Qed.

Lemma set_written b out c :
  (length out < length b)%nat →
  buf_set (written b out) (Z.of_nat (length out)) c = Ret (written b (out ++ [c])).
Proof.
  intros Hl. rewrite buf_set_insert by (rewrite length_written; lia). f_equal.
  unfold written. rewrite insert_app_r_alt, Nat.sub_diag by lia. rewrite <- app_assoc. f_equal.
  rewrite length_app. simpl. destruct (drop (length out) b) as [|x r] eqn:E.
  - apply (f_equal length) in E. rewrite length_drop in E. simpl in E. lia.
  - simpl. by rewrite <- drop_drop, E.
Qed.

(** Appending [ext] to what was written, when it fits. *)
Definition emit (b out ext : list Z) : outcome (Z * list Z) :=
  if decide (length (out ++ ext) ≤ length b)%nat
  then Ret (Z.of_nat (length (out ++ ext)), written b (out ++ ext)) else Undef.

Lemma emit_nil b out :
  (length out ≤ length b)%nat → emit b out [] = Ret (Z.of_nat (length out), written b out).
Proof. intros. unfold emit. rewrite app_nil_r. by rewrite decide_True. Qed.

Lemma emit_bind b out ext (k : Z * list Z → outcome (Z * list Z)) ext' :
  (∀ out', (length out' ≤ length b)%nat → k (Z.of_nat (length out'), written b out') = emit b out' ext') →
  (emit b out ext ≫= k) = emit b out (ext ++ ext').
Proof.
  intros Hk. unfold emit at 1. case_decide as Hl.
  - simpl. rewrite Hk by done. unfold emit. by rewrite <- app_assoc.
  - simpl. unfold emit. rewrite decide_False; [done|]. rewrite !length_app in *. lia.
Qed.

Lemma emit_cons b out c ext (k : list Z → outcome (Z * list Z)) :
  (length out ≤ length b)%nat →
  ((length out < length b)%nat → k (written b (out ++ [c])) = emit b (out ++ [c]) ext) →
  (buf_set (written b out) (Z.of_nat (length out)) c ≫= k) = emit b out (c :: ext).
Proof.
  intros Hl Hk. destruct (decide (length out < length b)%nat).
  - rewrite set_written by done. simpl. rewrite Hk by done. unfold emit. by rewrite <- app_assoc.
  - unfold buf_set. rewrite length_written by done.
    destruct (Z.ltb_spec (Z.of_nat (length out)) (Z.of_nat (length b))); [lia|].
    rewrite andb_false_r. simpl. unfold emit. rewrite decide_False; [done|].
    rewrite length_app. simpl. lia.
Qed.

Lemma fill_loop_emit b out n c :
  (length out ≤ length b)%nat →
  fill_loop n c (written b out) (Z.of_nat (length out)) = emit b out (replicate n c).
Proof.
  revert out. induction n as [|n IH]; intros out Hl; simpl.
  - by rewrite emit_nil.
  - apply emit_cons; [done|]. intros Hlt.
    rewrite <- IH by (rewrite length_app; simpl; lia). f_equal. rewrite length_app. simpl. lia.
Qed.

Lemma copy_loop_emit b out n src i :
  (length out ≤ length b)%nat → (i + n ≤ length src)%nat →
  copy_loop n src (Z.of_nat i) (written b out) (Z.of_nat (length out)) =
  emit b out (take n (drop i src)).
Proof.
  revert out i. induction n as [|n IH]; intros out i Hl Hi; simpl.
  - by rewrite emit_nil.
  - destruct (lookup_lt_is_Some_2 src i) as [c Hc]; [lia|].
    rewrite (buf_get_lookup _ _ _ Hc). simpl. rewrite (drop_S _ _ _ Hc). simpl.
    apply emit_cons; [done|]. intros Hlt.
    rewrite <- IH; [|rewrite length_app; simpl; lia|lia]. f_equal; [lia|].
    rewrite length_app. simpl. lia.
Qed.

(** The field in a buffer, with its terminating zero; undefined behaviour if
    the buffer is too small. *)
Definition put_field (buf out : list Z) : outcome (Z * list Z) :=
  if decide (length out < length buf)%nat
  then Ret (Z.of_nat (length out), written buf (out ++ [0])) else Undef.

Lemma emit_finish b out ext (k : Z * list Z → outcome (Z * list Z)) ext' :
  (∀ out', (length out' ≤ length b)%nat →
     k (Z.of_nat (length out'), written b out') = put_field b (out' ++ ext')) →
  (emit b out ext ≫= k) = put_field b (out ++ ext ++ ext').
Proof.
  intros Hk. unfold emit. case_decide as Hl; simpl.
  - rewrite Hk by done. by rewrite <- app_assoc.
  - unfold put_field. rewrite decide_False; [done|]. rewrite !length_app in *. lia.
Qed.

(** Storing the terminating zero. *)
Lemma terminate_emit b out ext :
  ('(pos, buf) ← emit b out ext; buf ← buf_set buf pos 0; Ret (pos, buf)) =
  put_field b (out ++ ext).
Proof.
  unfold emit, put_field. case_decide as Hl; simpl; [|by rewrite decide_False by lia].
  case_decide; [by rewrite set_written|].
  unfold buf_set. rewrite length_written by done.
  destruct (Z.ltb_spec (Z.of_nat (length (out ++ ext))) (Z.of_nat (length b))); [lia|].
  by rewrite andb_false_r.
Qed.

(** ** Reversal *)

Lemma reverse_loop_spec fuel l m r :
  (length m < 2 * fuel)%nat →
  reverse_loop fuel (l ++ m ++ r) (Z.of_nat (length l))
    (Z.of_nat (length l) + Z.of_nat (length m) - 1) = Ret (l ++ reverse m ++ r).
Proof.
  revert l m r. induction fuel as [|fuel IH]; intros l m r Hf; [lia|].
  destruct m as [|x m].
  { cbn [reverse_loop]. by rewrite (proj2 (Z.ltb_ge _ _)) by (simpl; lia). }
  destruct m as [|y m _] using rev_ind.
  { cbn [reverse_loop]. by rewrite (proj2 (Z.ltb_ge _ _)) by (simpl; lia). }
  simpl. rewrite length_app in *. simpl in *.
  destruct (Z.ltb_spec (Z.of_nat (length l))
    (Z.of_nat (length l) + Z.of_nat (S (length m + 1)) - 1)); [|lia].
  replace (Z.of_nat (length l) + Z.of_nat (S (length m + 1)) - 1)
    with (Z.of_nat (length (l ++ x :: m))) by (rewrite length_app; simpl; lia).
  rewrite (buf_get_lookup _ (length l) x) by (by apply list_lookup_middle). simpl.
  replace (l ++ x :: (m ++ [y]) ++ r) with ((l ++ x :: m) ++ y :: r)
    by (rewrite <- !app_assoc; done).
  rewrite (buf_get_lookup _ (length (l ++ x :: m)) y) by (by apply list_lookup_middle). simpl.
  rewrite buf_set_insert by (rewrite !length_app; simpl; lia). simpl.
  replace (<[length l:=y]> ((l ++ x :: m) ++ y :: r)) with ((l ++ y :: m) ++ y :: r);
    [|rewrite <- !app_assoc; simpl; by rewrite insert_app_r_alt, Nat.sub_diag by lia].
  rewrite buf_set_insert by (rewrite !length_app; simpl; lia). simpl.
  replace (<[length (l ++ x :: m):=x]> ((l ++ y :: m) ++ y :: r))
    with ((l ++ [y]) ++ m ++ (x :: r));
    [|rewrite insert_app_r_alt by (rewrite !length_app; simpl; lia);
      rewrite !length_app; simpl; rewrite Nat.sub_diag; simpl; by rewrite <- !app_assoc].
  replace (Z.of_nat (length l) + 1) with (Z.of_nat (length (l ++ [y])))
    by (rewrite length_app; simpl; lia).
  replace (Z.of_nat (length (l ++ x :: m)) - 1)
    with (Z.of_nat (length (l ++ [y])) + Z.of_nat (length m) - 1)
    by (rewrite !length_app; simpl; lia).
  rewrite (IH (l ++ [y]) m (x :: r)) by (rewrite length_app in Hf; simpl in Hf; lia). f_equal. rewrite reverse_cons, reverse_app. simpl.
  by rewrite <- !app_assoc.
Qed.

Lemma reverse_written b out :
  reverse_str (written b out) (Z.of_nat (length out)) = Ret (written b (reverse out)).
Proof.
  unfold reverse_str, written. rewrite Nat2Z.id.
  pose proof (reverse_loop_spec (S (length out)) [] out (drop (length out) b)) as H.
  simpl app in H. rewrite length_reverse. apply H. lia.
Qed.

(** ** Positional notation *)

(** The digits of [num], least significant first. *)
Fixpoint lsd_digits (fuel : nat) (radix num : Z) : list Z :=
  match fuel with
  | O => []
  | S fuel => if num =? 0 then [] else num mod radix :: lsd_digits fuel radix (num / radix)
  end.

(** The digits of a 64-bit number, most significant first. *)
Definition number (radix num : Z) : list Z :=
  if num =? 0 then [0] else reverse (lsd_digits 64 radix num).

(** The value of a numeral, and of the numeral with the digits [l] least
    significant first. *)
Definition numeral_value (radix : Z) (ds : list Z) : Z :=
  fold_left (λ v d, v * radix + d) ds 0.
Fixpoint lsd_value (radix : Z) (l : list Z) : Z :=
  match l with [] => 0 | d :: l => d + radix * lsd_value radix l end.

Definition digit_table (uppercase : bool) : list Z :=
  if uppercase then digits_upper else digits_lower.
Definition digit_char (uppercase : bool) (d : Z) : Z :=
  default 0 (digit_table uppercase !! Z.to_nat d).

(** The text of a number. *)
Definition numeral (uppercase : bool) (radix num : Z) : list Z :=
  digit_char uppercase <$> number radix num.

Lemma fix_radix_range radix : 2 ≤ fix_radix radix ≤ 16.
Proof. unfold fix_radix. destruct (Z.ltb_spec radix 2), (Z.ltb_spec 16 radix); simpl; lia. Qed.

Lemma fix_radix_id radix : 2 ≤ radix ≤ 16 → fix_radix radix = radix.
Proof.
  intros. unfold fix_radix. destruct (Z.ltb_spec radix 2), (Z.ltb_spec 16 radix); simpl; lia.
Qed.

Section digits.
Context (radix : Z) (Hradix : 2 ≤ radix ≤ 16).

Lemma div_radix_lt num k : 0 ≤ num < 2 ^ (k + 1) → 0 ≤ k → 0 ≤ num / radix < 2 ^ k.
Proof using Hradix.
  intros Hn Hk. rewrite Z.pow_add_r in Hn by lia. split; [apply Z.div_pos; lia|].
  apply Z.div_lt_upper_bound; nia.
Qed.

Lemma lsd_value_digits k num :
  0 ≤ num < 2 ^ Z.of_nat k → lsd_value radix (lsd_digits k radix num) = num.
Proof using Hradix.
  revert num. induction k as [|k IH]; intros num Hn; simpl; [simpl in Hn; lia|].
  case_test; [done|]. simpl. rewrite IH.
  - pose proof (Z.div_mod num radix). lia.
  - apply div_radix_lt; [|lia]. by rewrite Nat2Z.inj_succ in Hn.
Qed.

Lemma lsd_digits_range k num :
  0 ≤ num → Forall (λ d, 0 ≤ d < radix) (lsd_digits k radix num).
Proof using Hradix.
  revert num. induction k as [|k IH]; intros num Hn; simpl; [done|]. case_test; [done|].
  constructor; [apply Z.mod_pos_bound; lia|]. apply IH, Z.div_pos; lia.
Qed.

Lemma lsd_digits_length k num : (length (lsd_digits k radix num) ≤ k)%nat.
Proof using Hradix.
  revert num. induction k as [|k IH]; intros num; simpl; [done|]. case_test; simpl; [lia|].
  specialize (IH (num / radix)). lia.
Qed.

(** The most significant digit is not zero. *)
Lemma lsd_digits_top k num d :
  0 ≤ num < 2 ^ Z.of_nat k → last (lsd_digits k radix num) = Some d → d ≠ 0.
Proof using Hradix.
  revert num. induction k as [|k IH]; intros num Hn; simpl; [done|]. case_test; [done|].
  assert (0 ≤ num / radix < 2 ^ Z.of_nat k) as Hd.
  { apply div_radix_lt; [|lia]. by rewrite Nat2Z.inj_succ in Hn. }
  rewrite last_cons. destruct (last (lsd_digits k radix (num / radix))) eqn:El.
  - intros [= <-]. by eapply IH.
  - intros [= <-]. apply last_None in El.
    pose proof (lsd_value_digits k (num / radix) Hd) as Hv. rewrite El in Hv. simpl in Hv.
    pose proof (Z.div_mod num radix). lia.
Qed.

Lemma numeral_value_reverse l : numeral_value radix (reverse l) = lsd_value radix l.
Proof.
  unfold numeral_value. induction l as [|d l IH]; [done|].
  rewrite reverse_cons, fold_left_app. simpl. rewrite IH. lia.
Qed.

Lemma number_value num : 0 ≤ num < 2 ^ 64 → numeral_value radix (number radix num) = num.
Proof using Hradix.
  intros Hn. unfold number. case_test; [subst; done|].
  rewrite numeral_value_reverse. by apply lsd_value_digits.
Qed.

Lemma number_range num : 0 ≤ num → Forall (λ d, 0 ≤ d < radix) (number radix num).
Proof using Hradix.
  intros Hn. unfold number. case_test; [repeat constructor; lia|].
  apply Forall_reverse. by apply lsd_digits_range.
Qed.

Lemma number_length num :
  0 ≤ num < 2 ^ 64 → (1 ≤ length (number radix num) ≤ 64)%nat.
Proof using Hradix.
  intros Hn. unfold number. case_test; [simpl; lia|]. rewrite length_reverse.
  pose proof (lsd_digits_length 64 num). split; [|lia].
  destruct (lsd_digits 64 radix num) eqn:El; [|simpl; lia].
  pose proof (lsd_value_digits 64 num Hn) as Hv. rewrite El in Hv. simpl in Hv. lia.
Qed.

Lemma number_top num d l :
  0 < num < 2 ^ 64 → number radix num = d :: l → d ≠ 0.
Proof using Hradix.
  intros Hn. unfold number. case_test; [lia|]. intros El.
  apply (f_equal reverse) in El. rewrite reverse_involutive, reverse_cons in El.
  eapply (lsd_digits_top 64 num); [lia|]. rewrite El. apply last_snoc.
Qed.

Lemma digit_char_get uppercase d :
  0 ≤ d < radix → buf_get (digit_table uppercase) d = Ret (digit_char uppercase d).
Proof using Hradix.
  intros Hd. rewrite <- (Z2Nat.id d) at 1 by lia. apply buf_get_lookup.
  unfold digit_char. destruct (lookup_lt_is_Some_2 (digit_table uppercase) (Z.to_nat d)) as [c Hc].
  - assert (length (digit_table uppercase) = 17%nat) as -> by (by destruct uppercase). lia.
  - by rewrite Hc.
Qed.

Lemma digit_loop_spec uppercase k num b out :
  0 ≤ num < 2 ^ Z.of_nat k → (length out + k ≤ length b)%nat →
  let l := digit_char uppercase <$> lsd_digits k radix num in
  digit_loop (S k) (digit_table uppercase) num radix (written b out) (Z.of_nat (length out)) =
  Ret (Z.of_nat (length (out ++ l)), written b (out ++ l)).
Proof using Hradix.
  revert num out. induction k as [|k IH]; intros num out Hn Hl.
  { simpl in *. destruct (Z.eqb_spec num 0); [|lia]. by rewrite app_nil_r. }
  assert (0 ≤ num / radix < 2 ^ Z.of_nat k) as Hd.
  { apply div_radix_lt; [|lia]. by rewrite Nat2Z.inj_succ in Hn. }
  set (k' := S k). cbn [digit_loop]. subst k'. cbn [lsd_digits]. case_test.
  { by rewrite app_nil_r. }
  rewrite digit_char_get by (apply Z.mod_pos_bound; lia). cbn [mbind outcome_bind].
  rewrite set_written by lia. cbn [mbind outcome_bind].
  replace (Z.of_nat (length out) + 1)
    with (Z.of_nat (length (out ++ [digit_char uppercase (num mod radix)])))
    by (rewrite length_app; simpl; lia).
  rewrite IH; [|done|rewrite length_app; simpl; lia].
  rewrite <- app_assoc. done.
Qed.
End digits.

Lemma reverse_fmap_Z (f : Z → Z) l : reverse (f <$> l) = f <$> reverse l.
Proof. symmetry. apply fmap_reverse. Qed.

(** The digits of [num] in [numbuf] before they are reversed. *)
Lemma digits_written uppercase radix num b :
  2 ≤ radix ≤ 16 → 0 ≤ num < 2 ^ 64 → (64 ≤ length b)%nat →
  (if num =? 0 then str ← buf_set b 0 (ch "0"); Ret (1, str)
   else digit_loop 65 (digit_table uppercase) num radix b 0) =
  Ret (Z.of_nat (length (numeral uppercase radix num)),
       written b (reverse (numeral uppercase radix num))).
Proof.
  intros Hr Hn Hl. unfold numeral, number. destruct (Z.eqb_spec num 0) as [->|Hne].
  - pose proof (set_written b [] (ch "0")) as Hs. simpl length in Hs.
    rewrite written_nil in Hs. change (Z.of_nat 0) with 0 in Hs. rewrite Hs by lia.
    by destruct uppercase.
  - pose proof (digit_loop_spec radix Hr uppercase 64 num b []) as Hd. simpl length in Hd.
    rewrite written_nil in Hd. change (Z.of_nat 0) with 0 in Hd. rewrite Hd by (done || lia).
    by rewrite reverse_fmap_Z, reverse_involutive, app_nil_l, !length_fmap, length_reverse.
Qed.

Lemma utoa64_result uppercase radix num b :
  0 ≤ num < 2 ^ 64 → (64 < length b)%nat →
  utoa64 num b radix uppercase =
  Ret (Z.of_nat (length (numeral uppercase (fix_radix radix) num)),
       written b (numeral uppercase (fix_radix radix) num ++ [0])).
Proof.
  intros Hn Hl. unfold utoa64. pose proof (fix_radix_range radix) as Hr.
  pose proof (number_length (fix_radix radix) Hr num Hn) as Hlen.
  change (if uppercase then digits_upper else digits_lower) with (digit_table uppercase).
  rewrite digits_written by (lia || done). cbn [mbind outcome_bind].
  rewrite <- length_reverse, reverse_written. cbn [mbind outcome_bind].
  rewrite length_reverse, reverse_involutive.
  rewrite set_written; [done|]. unfold numeral. rewrite length_fmap. lia.
Qed.

(** ** Fields *)

(** What a number with the text [ds] and the sign or prefix [lead] looks like
    under a format. *)
Definition number_field (lead ds : list Z) (spec : fmt_spec) : list Z :=
  let body := replicate (Z.to_nat (precision spec) - length ds) (ch "0") ++ ds in
  let pad := (Z.to_nat (width spec) - length (lead ++ body))%nat in
  if has_flag spec FMT_FLAG_LEFT then lead ++ body ++ replicate pad (ch " ")
  else if has_flag spec FMT_FLAG_ZERO && (precision spec <? 0)
  then lead ++ replicate pad (ch "0") ++ body
  else replicate pad (ch " ") ++ lead ++ body.

(** The characters before the digits. *)
Definition prefix_of (radix num : Z) (spec : fmt_spec) : list Z :=
  if has_flag spec FMT_FLAG_HASH && negb (num =? 0) then
    if radix =? 16 then chars (if has_flag spec FMT_FLAG_UPPER then "0X" else "0x")
    else if radix =? 8 then chars "0"
    else if radix =? 2 then chars (if has_flag spec FMT_FLAG_UPPER then "0B" else "0b")
    else []
  else [].

Lemma length_number_field lead ds spec :
  length (number_field lead ds spec) =
  (Z.to_nat (width spec) `max` (length lead + Z.to_nat (precision spec) `max` length ds))%nat.
Proof.
  unfold number_field. repeat case_match; rewrite !length_app, !length_replicate; lia.
Qed.

Lemma int_of_ok x : -2147483648 ≤ x < 2147483648 → int_of x = Ret x.
Proof.
  intros. unfold int_of.
  by destruct (Z.leb_spec (-2147483648) x), (Z.ltb_spec x 2147483648); try lia.
Qed.

Lemma int_of_big x : 2147483648 ≤ x → int_of x = Undef.
Proof. intros. unfold int_of. destruct (Z.ltb_spec x 2147483648); [lia|by rewrite andb_false_r]. Qed.

(** Space for a number: no [int] in the formatters overflows before the buffer
    is too small anyway. *)
Definition small_buffer (buf : list Z) : Prop := Z.of_nat (length buf) < 2147483500.

Section build.
Context (lead ds b0 buf : list Z) (spec : fmt_spec).
Context (Hlead : (length lead ≤ 2)%nat) (Hds : (1 ≤ length ds ≤ 64)%nat)
  (Hb0 : (64 < length b0)%nat) (Hbuf : small_buffer buf).
Let numbuf := written b0 (ds ++ [0]).

Lemma copy_digits out :
  (length out ≤ length buf)%nat →
  copy_loop (length ds) numbuf 0 (written buf out) (Z.of_nat (length out)) = emit buf out ds.
Proof using All.
  intros Hl. subst numbuf.
  assert (length (ds ++ [0%Z]) ≤ length b0)%nat by (rewrite length_app; simpl; lia).
  etrans; [apply (copy_loop_emit buf out (length ds) _ 0); [done|rewrite length_written; lia]|].
  f_equal. unfold written. rewrite <- app_assoc. apply take_app_length.
Qed.

Lemma copy_lead out :
  (length out ≤ length buf)%nat →
  copy_loop (length lead) lead 0 (written buf out) (Z.of_nat (length out)) = emit buf out lead.
Proof.
  intros Hl. etrans; [by apply (copy_loop_emit buf out (length lead) _ 0)|].
  by rewrite drop_0, firstn_all.
Qed.

(** The part of the function that writes to [buf]. *)
Lemma write_number_spec sp1 zp nz sp2 :
  ('(pos, buf) ← fill_loop sp1 (ch " ") buf 0;
   '(pos, buf) ← copy_loop (length lead) lead 0 buf pos;
   '(pos, buf) ← fill_loop zp (ch "0") buf pos;
   '(pos, buf) ← fill_loop nz (ch "0") buf pos;
   '(pos, buf) ← copy_loop (Z.to_nat (Z.of_nat (length ds))) numbuf 0 buf pos;
   '(pos, buf) ← fill_loop sp2 (ch " ") buf pos;
   buf ← buf_set buf pos 0;
   Ret (pos, buf)) =
  put_field buf (replicate sp1 (ch " ") ++ lead ++ replicate zp (ch "0") ++
                 replicate nz (ch "0") ++ ds ++ replicate sp2 (ch " ")).
Proof using All.
  rewrite (fill_loop_emit buf [] sp1 (ch " ") : _ → fill_loop _ _ buf 0 = _) by (simpl; lia).
  apply (emit_finish buf []); intros o1 H1. rewrite copy_lead by done.
  apply emit_finish; intros o2 H2. rewrite fill_loop_emit by done.
  apply emit_finish; intros o3 H3. rewrite fill_loop_emit by done.
  apply emit_finish; intros o4 H4. rewrite Nat2Z.id, copy_digits by done.
  apply emit_finish; intros o5 H5. rewrite fill_loop_emit by done.
  apply terminate_emit.
Qed.

Lemma build_number_spec :
  build_number lead numbuf (Z.of_nat (length ds)) buf spec =
  put_field buf (number_field lead ds spec).
Proof using All.
  unfold build_number. set (prec := if precision spec <? 0 then 1 else precision spec).
  set (nz := if Z.of_nat (length ds) <? prec then prec - Z.of_nat (length ds) else 0).
  assert (Z.to_nat nz = Z.to_nat (precision spec) - length ds)%nat as Hz.
  { subst nz prec. destruct (Z.ltb_spec (precision spec) 0); case_test; lia. }
  assert (0 ≤ nz) as Hz0 by (subst nz; case_test; lia).
  pose proof (length_number_field lead ds spec) as Hlf. unfold small_buffer in Hbuf.
  destruct (decide (2147483648 ≤ Z.of_nat (length ds) + nz)).
  { rewrite int_of_big by done. cbn [mbind outcome_bind]. unfold put_field.
    rewrite decide_False; [done|]. lia. }
  rewrite int_of_ok by lia. cbn [mbind outcome_bind].
  destruct (decide (2147483648 ≤ Z.of_nat (length lead) + (Z.of_nat (length ds) + nz))).
  { rewrite int_of_big by done. cbn [mbind outcome_bind]. unfold put_field.
    rewrite decide_False; [done|]. lia. }
  rewrite int_of_ok by lia. cbn [mbind outcome_bind].
  set (padding := if _ <? width spec then _ else 0).
  assert (Z.to_nat padding = Z.to_nat (width spec) -
    length (lead ++ replicate (Z.to_nat nz) (ch "0") ++ ds))%nat as Hpad.
  { subst padding. rewrite !length_app, length_replicate. case_test; lia. }
  pose proof write_number_spec as Hw.
  unfold number_field. rewrite <- Hz, <- Hpad.
  destruct (has_flag spec FMT_FLAG_LEFT); cbn [negb].
  - rewrite andb_false_r. cbn [andb]. rewrite app_assoc.
    etrans; [apply (Hw 0%nat 0%nat)|]. simpl. by rewrite !app_assoc.
  - rewrite andb_true_r. destruct (has_flag spec FMT_FLAG_ZERO && (precision spec <? 0)).
    + etrans; [apply (Hw 0%nat (Z.to_nat padding) (Z.to_nat nz) 0%nat)|].
      simpl. by rewrite app_nil_r.
    + etrans; [apply (Hw (Z.to_nat padding) 0%nat (Z.to_nat nz) 0%nat)|].
      simpl. by rewrite app_nil_r.
Qed.
End build.

(** The text [numeral] has a digit, and a first digit other than zero. *)
Lemma length_numeral uppercase radix num :
  2 ≤ radix ≤ 16 → 0 ≤ num < 2 ^ 64 → (1 ≤ length (numeral uppercase radix num) ≤ 64)%nat.
Proof. intros. unfold numeral. rewrite length_fmap. by apply number_length. Qed.

Lemma digit_char_zero uppercase d : 0 ≤ d < 16 → digit_char uppercase d = ch "0" → d = 0.
Proof.
  intros Hd H. destruct (Z.eqb_spec d 0); [done|].
  assert (d = 1 ∨ d = 2 ∨ d = 3 ∨ d = 4 ∨ d = 5 ∨ d = 6 ∨ d = 7 ∨ d = 8 ∨ d = 9 ∨ d = 10 ∨
    d = 11 ∨ d = 12 ∨ d = 13 ∨ d = 14 ∨ d = 15) as Hc by lia.
  destruct_or! Hc; subst d; destruct uppercase; vm_compute in H; congruence.
Qed.

Lemma numeral_first uppercase radix num c l :
  2 ≤ radix ≤ 16 → 0 < num < 2 ^ 64 → numeral uppercase radix num = c :: l → c ≠ ch "0".
Proof.
  intros Hr Hn. unfold numeral. destruct (number radix num) as [|d l'] eqn:E; [done|].
  intros [= <- _] Hc. eapply (number_top radix Hr num); [done..|].
  eapply digit_char_zero; [|done].
  pose proof (number_range radix Hr num) as Hf. rewrite E in Hf.
  assert (0 ≤ num) as Hn0 by lia. specialize (Hf Hn0). inversion Hf; subst. lia.
Qed.

Lemma radix_prefix_spec num radix spec b0 :
  2 ≤ radix ≤ 16 → 0 ≤ num < 2 ^ 64 →
  let up := has_flag spec FMT_FLAG_UPPER in
  radix_prefix num radix (written b0 (numeral up radix num ++ [0])) spec up =
  Ret (prefix_of radix num spec).
Proof.
  intros Hr Hn up. unfold radix_prefix, prefix_of. fold up.
  destruct (has_flag spec FMT_FLAG_HASH); [|done]. cbn [andb].
  pose proof (length_numeral up radix num Hr Hn) as Hl.
  destruct (numeral up radix num) as [|c l] eqn:E; [simpl in Hl; lia|].
  rewrite (buf_get_lookup _ 0 c : _ → buf_get _ 0 = _) by done.
  destruct (Z.eqb_spec num 0); cbn [negb]; rewrite ?andb_false_r, ?andb_true_r; [done|].
  cbn [mbind outcome_bind]. destruct (radix =? 16); [done|].
  destruct (radix =? 8); cbn [andb]; [|by destruct (radix =? 2)].
  destruct (Z.eqb_spec c (ch "0")); [|done].
  exfalso. by eapply numeral_first; [done| |exact E|]; [lia|].
Qed.

Lemma prefix_of_length radix num spec : (length (prefix_of radix num spec) ≤ 2)%nat.
Proof. unfold prefix_of. repeat case_match; simpl; lia. Qed.

Lemma sign_of_length num spec : (length (sign_of num spec) ≤ 2)%nat.
Proof. unfold sign_of. repeat case_match; simpl; lia. Qed.

Lemma negated_abs num :
  -9223372036854775808 ≤ num < 0 → u64 (u64 (- (num + 1)) + 1) = - num.
Proof. intros. rewrite (u64_small (- (num + 1))), u64_small; lia. Qed.

(** [utoa64] writes the positional notation of the number: the digits it
    stores denote [num] in the radix, are digits of the radix, start with a
    non-zero digit unless the number is zero, are at most 64 and are followed
    by the terminating zero; the rest of the buffer is kept. *)
Theorem utoa64_spec num str radix uppercase :
  0 ≤ num < 2 ^ 64 → 2 ≤ radix ≤ 16 → (64 < length str)%nat →
  ∃ ds, utoa64 num str radix uppercase =
      Ret (Z.of_nat (length ds), (digit_char uppercase <$> ds) ++ 0 :: drop (S (length ds)) str) ∧
    numeral_value radix ds = num ∧ Forall (λ d, 0 ≤ d < radix) ds ∧
    (num ≠ 0 → head ds ≠ Some 0) ∧ (1 ≤ length ds ≤ 64)%nat.
Proof.
  intros Hn Hr Hl. exists (number radix num).
  rewrite utoa64_result, (fix_radix_id radix) by done. split; [|split; [|split; [|split]]].
  - unfold numeral, written. rewrite !length_app, !length_fmap, Nat.add_1_r. simpl.
    by rewrite <- app_assoc.
  - by apply number_value.
  - apply number_range; lia.
  - intros Hne. destruct (number radix num) as [|d l] eqn:E; [done|]. intros [= ->].
    eapply (number_top radix Hr num); [lia|done..].
  - by apply number_length.
Qed.

(** [itoa64] in radix 10 writes the sign and the decimal notation of the
    absolute value, for every 64-bit integer including the least one; in
    another radix it writes the two's complement. *)
Theorem itoa64_spec num str radix :
  -9223372036854775808 ≤ num < 9223372036854775808 → 2 ≤ radix ≤ 16 → (65 < length str)%nat →
  let text := if (num <? 0) && (radix =? 10) then ch "-" :: numeral false 10 (- num)
              else numeral false radix (u64 num) in
  itoa64 num str radix = Ret (Z.of_nat (length text), text ++ 0 :: drop (S (length text)) str).
Proof.
  intros Hn Hr Hl text. unfold itoa64. rewrite fix_radix_id by done.
  pose proof (length_numeral false 10 (- num)) as L1.
  pose proof (length_numeral false radix (u64 num)) as L2. pose proof (u64_range num).
  change digits_lower with (digit_table false).
  destruct (Z.ltb_spec num 0) as [Hneg|Hpos]; cbn [andb] in *;
    [destruct (Z.eqb_spec radix 10) as [->|]|]; cbn [andb] in *.
  - rewrite negated_abs, digits_written by lia. cbn [mbind outcome_bind].
    rewrite <- length_reverse, set_written by (rewrite length_reverse; lia).
    cbn [mbind outcome_bind].
    replace (Z.of_nat (length (reverse (numeral false 10 (- num)))) + 1)
      with (Z.of_nat (length (reverse text)))
      by (subst text; rewrite reverse_cons, !length_app; simpl; lia).
    replace (reverse (numeral false 10 (- num)) ++ [ch "-"]) with (reverse text)
      by (subst text; by rewrite reverse_cons).
    rewrite reverse_written. cbn [mbind outcome_bind].
    rewrite length_reverse, reverse_involutive, set_written by (subst text; simpl; lia).
    unfold written. rewrite length_app, Nat.add_1_r, <- app_assoc. done.
  - rewrite digits_written by lia. cbn [mbind outcome_bind]. fold text in L2 |- *.
    rewrite <- length_reverse, reverse_written. cbn [mbind outcome_bind].
    rewrite length_reverse, reverse_involutive, set_written by lia.
    unfold written. rewrite length_app, Nat.add_1_r, <- app_assoc. done.
  - rewrite digits_written by lia. cbn [mbind outcome_bind]. fold text in L2 |- *.
    rewrite <- length_reverse, reverse_written. cbn [mbind outcome_bind].
    rewrite length_reverse, reverse_involutive, set_written by lia.
    unfold written. rewrite length_app, Nat.add_1_r, <- app_assoc. done.
Qed.

Lemma format_unsigned_result num buf radix spec :
  0 ≤ num < 2 ^ 64 → 2 ≤ radix ≤ 16 → small_buffer buf →
  format_unsigned num buf radix spec =
  put_field buf (number_field (prefix_of radix num spec)
    (numeral (has_flag spec FMT_FLAG_UPPER) radix num) spec).
Proof.
  intros Hn Hr Hb. unfold format_unsigned.
  rewrite utoa64_result by (done || (rewrite length_replicate; unfold MAX_DIGIT_BUFFER_SIZE; lia)).
  cbn [mbind outcome_bind]. rewrite fix_radix_id, radix_prefix_spec by done.
  cbn [mbind outcome_bind].
  apply build_number_spec; [apply prefix_of_length|by apply length_numeral| |done].
  rewrite length_replicate. unfold MAX_DIGIT_BUFFER_SIZE. lia.
Qed.

Lemma format_signed_result num buf spec :
  -9223372036854775808 ≤ num < 9223372036854775808 → small_buffer buf →
  format_signed num buf 10 spec =
  put_field buf (number_field (sign_of num spec) (numeral false 10 (Z.abs num)) spec).
Proof.
  intros Hn Hb. unfold format_signed.
  assert ((if num <? 0 then u64 (u64 (- (num + 1)) + 1) else u64 num) = Z.abs num) as ->.
  { case_test; [rewrite negated_abs|rewrite u64_small]; lia. }
  rewrite utoa64_result by (lia || (rewrite length_replicate; unfold MAX_DIGIT_BUFFER_SIZE; lia)).
  cbn [mbind outcome_bind]. rewrite fix_radix_id by lia.
  apply build_number_spec; [apply sign_of_length|apply length_numeral; lia| |done].
  rewrite length_replicate. unfold MAX_DIGIT_BUFFER_SIZE. lia.
Qed.

(** C10. [format_unsigned] writes exactly the field of the format: padding to
    the width, the prefix of the alternate form, zeros up to the precision and
    the digits, so the field is never shorter than the width; and it stays
    inside the buffer exactly when the field and its terminating zero fit. *)
Theorem format_unsigned_spec num buf radix spec :
  0 ≤ num < 2 ^ 64 → 2 ≤ radix ≤ 16 → small_buffer buf →
  let field := number_field (prefix_of radix num spec)
    (numeral (has_flag spec FMT_FLAG_UPPER) radix num) spec in
  (width spec ≤ Z.of_nat (length field)) ∧
  ((length field < length buf)%nat →
   format_unsigned num buf radix spec =
   Ret (Z.of_nat (length field), field ++ 0 :: drop (S (length field)) buf)) ∧
  ((length buf ≤ length field)%nat → format_unsigned num buf radix spec = Undef).
Proof.
  intros Hn Hr Hb field. rewrite format_unsigned_result by done. fold field. split_and!.
  - subst field. rewrite length_number_field. lia.
  - intros Hl. unfold put_field. rewrite decide_True by done.
    unfold written. by rewrite length_app, Nat.add_1_r, <- app_assoc.
  - intros Hl. unfold put_field. by rewrite decide_False by lia.
Qed.

(** [format_signed] in radix 10 writes the field with the sign of the
    number, for every 64-bit integer including the least one, under the same
    condition on the buffer. *)
Theorem format_signed_spec num buf spec :
  -9223372036854775808 ≤ num < 9223372036854775808 → small_buffer buf →
  let field := number_field (sign_of num spec) (numeral false 10 (Z.abs num)) spec in
  ((length field < length buf)%nat →
   format_signed num buf 10 spec =
   Ret (Z.of_nat (length field), field ++ 0 :: drop (S (length field)) buf)) ∧
  ((length buf ≤ length field)%nat → format_signed num buf 10 spec = Undef).
Proof.
  intros Hn Hb field. rewrite format_signed_result by done. fold field. unfold put_field.
  split; intros Hl; [rewrite decide_True by done|by rewrite decide_False by lia].
  unfold written. by rewrite length_app, Nat.add_1_r, <- app_assoc.
Qed.

(** ** Strings *)

Lemma buf_get_app_zero (s rest : list Z) : buf_get (s ++ 0 :: rest) (Z.of_nat (length s)) = Ret 0.
Proof. apply buf_get_lookup. by apply list_lookup_middle. Qed.

Lemma strlen_loop_spec fuel s1 s2 rest :
  Forall (λ c, c ≠ 0) s2 → (length s2 < fuel)%nat →
  strlen_loop fuel ((s1 ++ s2) ++ 0 :: rest) (Z.of_nat (length s1)) =
  Ret (Z.of_nat (length (s1 ++ s2))).
Proof.
  revert s1 s2. induction fuel as [|fuel IH]; intros s1 s2 Hs Hf; [lia|]. cbn [strlen_loop].
  destruct s2 as [|c s2]; simpl in Hf.
  - rewrite app_nil_r, buf_get_app_zero. done.
  - inversion Hs; subst.
    rewrite (buf_get_lookup _ _ c)
      by (rewrite <- app_assoc; by apply list_lookup_middle).
    cbn [mbind outcome_bind]. destruct (Z.eqb_spec c 0); [done|].
    replace (s1 ++ c :: s2) with ((s1 ++ [c]) ++ s2) by (by rewrite <- app_assoc).
    rewrite <- (IH (s1 ++ [c]) s2); [|done|lia]. f_equal. rewrite length_app. simpl. lia.
Qed.

Lemma strlen_result s rest :
  Forall (λ c, c ≠ 0) s → strlen (Some (s ++ 0 :: rest)) = Ret (Z.of_nat (length s)).
Proof.
  intros Hs. apply (strlen_loop_spec _ [] s rest); [done|]. rewrite length_app. simpl. lia.
Qed.

Lemma strcpy_loop_spec fuel dest s1 s2 rest :
  Forall (λ c, c ≠ 0) s2 → (length s2 < fuel)%nat → (length (s1 ++ s2) < length dest)%nat →
  strcpy_loop fuel (written dest s1) ((s1 ++ s2) ++ 0 :: rest) (Z.of_nat (length s1)) =
  Ret (written dest ((s1 ++ s2) ++ [0])).
Proof.
  revert s1 s2. induction fuel as [|fuel IH]; intros s1 s2 Hs Hf Hd; [lia|]. cbn [strcpy_loop].
  destruct s2 as [|c s2]; simpl in Hf.
  - rewrite app_nil_r in *. rewrite buf_get_app_zero. cbn [mbind outcome_bind].
    rewrite set_written by done. done.
  - inversion Hs; subst. rewrite length_app in Hd. simpl in Hd.
    rewrite (buf_get_lookup _ _ c)
      by (rewrite <- app_assoc; by apply list_lookup_middle).
    cbn [mbind outcome_bind]. rewrite set_written by lia. cbn [mbind outcome_bind].
    destruct (Z.eqb_spec c 0); [done|].
    replace (s1 ++ c :: s2) with ((s1 ++ [c]) ++ s2) by (by rewrite <- app_assoc).
    rewrite <- (IH (s1 ++ [c]) s2); [|done|lia|rewrite !length_app; simpl; lia].
    f_equal. rewrite length_app. simpl. lia.
Qed.

(** [strcpy] copies the string with its terminating zero and keeps the rest
    of the destination; [strlen] of the copy is the length of the source. *)
Theorem strcpy_spec dest s rest :
  Forall (λ c, c ≠ 0) s → (length s < length dest)%nat →
  ∃ dest', strcpy dest (s ++ 0 :: rest) = Ret dest' ∧
    dest' = s ++ 0 :: drop (S (length s)) dest ∧
    strlen (Some dest') = Ret (Z.of_nat (length s)).
Proof.
  intros Hs Hl. exists (written dest (s ++ [0])).
  assert (written dest (s ++ [0]) = s ++ 0 :: drop (S (length s)) dest) as Hw.
  { unfold written. by rewrite length_app, Nat.add_1_r, <- app_assoc. }
  split; [|split; [done|rewrite Hw; by apply strlen_result]].
  apply (strcpy_loop_spec _ dest [] s rest); [done| |done]. rewrite length_app. simpl. lia.
Qed.

(** Appending as much of [ext] as the limit allows. *)
Definition emit_cut (b out ext : list Z) : outcome (Z * list Z) :=
  let out' := take (length b - 1) (out ++ ext) in
  Ret (Z.of_nat (length out'), written b out').

Lemma emit_cut_full b out ext :
  (length b - 1 ≤ length out)%nat → (length out ≤ length b - 1)%nat →
  emit_cut b out ext = Ret (Z.of_nat (length out), written b out).
Proof.
  intros H1 H2. unfold emit_cut. rewrite take_app_le, take_ge by lia. done.
Qed.

Lemma emit_cut_nil b out :
  (length out ≤ length b - 1)%nat →
  emit_cut b out [] = Ret (Z.of_nat (length out), written b out).
Proof. intros H. unfold emit_cut. by rewrite app_nil_r, take_ge. Qed.

Lemma emit_cut_cons b out c ext (k : list Z → outcome (Z * list Z)) :
  (length out < length b - 1)%nat →
  k (written b (out ++ [c])) = emit_cut b (out ++ [c]) ext →
  (buf_set (written b out) (Z.of_nat (length out)) c ≫= k) = emit_cut b out (c :: ext).
Proof.
  intros Hl Hk. rewrite set_written by lia. cbn [mbind outcome_bind]. rewrite Hk.
  unfold emit_cut. by rewrite <- app_assoc.
Qed.

Lemma emit_cut_bind b out ext (k : Z * list Z → outcome (Z * list Z)) ext' f :
  (∀ out', (length out' ≤ length b - 1)%nat →
     k (Z.of_nat (length out'), written b out') = f (take (length b - 1) (out' ++ ext'))) →
  (emit_cut b out ext ≫= k) = f (take (length b - 1) (out ++ ext ++ ext')).
Proof.
  intros Hk. unfold emit_cut. cbn [mbind outcome_bind].
  rewrite Hk by (rewrite length_take; lia). f_equal. rewrite (app_assoc out).
  set (x := out ++ ext). clear. set (n := (length b - 1)%nat). clearbody n x.
  destruct (decide (length x ≤ n)%nat); [by rewrite (take_ge x)|].
  rewrite (take_app_le x ext') by lia. rewrite take_app_le by (rewrite length_take; lia).
  rewrite take_take. f_equal. lia.
Qed.

Section cut.
Context (b : list Z) (Hb : (1 ≤ length b)%nat) (Hb64 : Z.of_nat (length b) < 2 ^ 64).
Let limit := u64 (Z.of_nat (length b) - 1).

Lemma limit_eq : limit = Z.of_nat (length b) - 1.
Proof using All. subst limit. apply u64_small. lia. Qed.

Lemma fill_until_cut n c out :
  (length out ≤ length b - 1)%nat →
  fill_until n limit c (written b out) (Z.of_nat (length out)) = emit_cut b out (replicate n c).
Proof using All.
  pose proof limit_eq as Hlim. clearbody limit.
  revert out. induction n as [|n IH]; intros out Hl; simpl; [by rewrite emit_cut_nil|].
  destruct (Z.ltb_spec (Z.of_nat (length out)) limit).
  - apply emit_cut_cons; [lia|]. rewrite <- IH by (rewrite length_app; simpl; lia).
    f_equal. rewrite length_app. simpl. lia.
  - by rewrite emit_cut_full by lia.
Qed.

Lemma copy_until_cut n src i out :
  (length out ≤ length b - 1)%nat → (i + n ≤ length src)%nat →
  copy_until n limit src (Z.of_nat i) (written b out) (Z.of_nat (length out)) =
  emit_cut b out (take n (drop i src)).
Proof using All.
  pose proof limit_eq as Hlim. clearbody limit.
  revert out i. induction n as [|n IH]; intros out i Hl Hi; simpl; [by rewrite emit_cut_nil|].
  destruct (lookup_lt_is_Some_2 src i) as [c Hc]; [lia|]. rewrite (drop_S _ _ _ Hc). simpl.
  destruct (Z.ltb_spec (Z.of_nat (length out)) limit).
  - rewrite (buf_get_lookup _ _ _ Hc). cbn [mbind outcome_bind].
    apply emit_cut_cons; [lia|].
    rewrite <- IH; [|rewrite length_app; simpl; lia|lia]. f_equal; [lia|].
    rewrite length_app. simpl. lia.
  - by rewrite emit_cut_full by lia.
Qed.
End cut.

(** What the string [s] looks like under a format. *)
Definition string_field (s : list Z) (spec : fmt_spec) : list Z :=
  let t := if precision spec <? 0 then s else take (Z.to_nat (precision spec)) s in
  let pad := replicate (Z.to_nat (width spec) - length t) (ch " ") in
  if has_flag spec FMT_FLAG_LEFT then t ++ pad else pad ++ t.

(** A [char] array that holds the string [s]. *)
Definition c_string (s rest : list Z) : list Z := s ++ 0 :: rest.

Lemma format_string_result s rest buf spec :
  Forall (λ c, c ≠ 0) s → (1 ≤ length buf)%nat → Z.of_nat (length buf) < 2 ^ 64 →
  format_string (Some (c_string s rest)) buf (Z.of_nat (length buf)) spec =
  put_field buf (take (length buf - 1) (string_field s spec)).
Proof.
  intros Hs Hb Hb64. unfold format_string. cbn [from_option]. unfold id, c_string.
  rewrite strlen_result by done. cbn [mbind outcome_bind].
  set (slen := if _ && _ then precision spec else _).
  set (t := if precision spec <? 0 then s else take (Z.to_nat (precision spec)) s).
  assert (0 ≤ slen ≤ Z.of_nat (length s) ∧ take (Z.to_nat slen) (s ++ 0 :: rest) = t) as [Hsl Ht].
  { subst slen t. destruct (Z.leb_spec 0 (precision spec)), (Z.ltb_spec (precision spec) 0),
      (Z.ltb_spec (precision spec) (Z.of_nat (length s))); simpl; try lia;
      (split; [lia|]); rewrite ?Nat2Z.id, ?take_app_le by lia; rewrite ?take_ge by lia; done. }
  assert (slen = Z.of_nat (length t)) as Hst.
  { rewrite <- Ht, length_take, length_app. simpl. lia. }
  set (padding := if _ && _ then width spec - slen else 0).
  assert (Z.to_nat padding = Z.to_nat (width spec) - length t)%nat as Hpad.
  { subst padding. destruct (Z.ltb_spec 0 (width spec)), (Z.ltb_spec slen (width spec)); simpl; lia. }
  assert (∀ out, (length out ≤ length buf - 1)%nat →
    (buf' ← buf_set (written buf out) (Z.of_nat (length out)) 0;
     Ret (Z.of_nat (length out), buf')) = put_field buf out) as Hend.
  { intros out Ho. rewrite set_written by lia. unfold put_field. by rewrite decide_True by lia. }
  assert (∀ out, (length out ≤ length buf - 1)%nat → 
     copy_until (Z.to_nat slen) (u64 (Z.of_nat (length buf) - 1)) (s ++ 0 :: rest) 0
       (written buf out) (Z.of_nat (length out)) = emit_cut buf out t) as Hcopy.
  { intros out Ho. rewrite <- Ht. apply (copy_until_cut buf Hb Hb64 _ _ 0); [done|].
    rewrite length_app. simpl. lia. }
  unfold string_field. fold t. rewrite <- Hpad.
  destruct (has_flag spec FMT_FLAG_LEFT).
  - cbn [mbind outcome_bind].
    rewrite (Hcopy [] : _ → copy_until _ _ _ 0 buf 0 = _) by (simpl; lia).
    apply (emit_cut_bind buf []); intros o1 H1. rewrite fill_until_cut by done.
    cbn [mbind outcome_bind]. unfold emit_cut. apply Hend. rewrite length_take. lia.
  - rewrite (fill_until_cut buf Hb Hb64 _ _ [] : _ → fill_until _ _ _ buf 0 = _) by (simpl; lia).
    apply (emit_cut_bind buf []); intros o1 H1. rewrite Hcopy by done.
    cbn [mbind outcome_bind]. unfold emit_cut. apply Hend. rewrite length_take. lia.
Qed.

(** [format_string] never leaves the buffer it is given: it writes the
    string, cut to the precision and padded to the width, as far as it fits,
    with a terminating zero; a null pointer prints as "(null)". *)
Theorem format_string_spec s rest buf spec :
  Forall (λ c, c ≠ 0) s → (1 ≤ length buf)%nat → Z.of_nat (length buf) < 2 ^ 64 →
  let put t := let f := take (length buf - 1) (string_field t spec) in
    Ret (Z.of_nat (length f), f ++ 0 :: drop (S (length f)) buf) in
  format_string (Some (c_string s rest)) buf (Z.of_nat (length buf)) spec = put s ∧
  format_string None buf (Z.of_nat (length buf)) spec = put (chars "(null)").
Proof.
  intros Hs Hb Hb64 put.
  assert (∀ t, put_field buf (take (length buf - 1) (string_field t spec)) = put t) as Hp.
  { intros t. unfold put_field, put. rewrite length_take. rewrite decide_True by lia.
    unfold written. rewrite length_app, length_take, Nat.add_1_r, <- app_assoc. done. }
  split; [by rewrite format_string_result|].
  change (format_string None) with (format_string (Some (c_string (chars "(null)") []))).
  rewrite format_string_result; [apply Hp| |done..].
  repeat constructor; vm_compute; congruence.
Qed.

(** ** Witnesses *)

Lemma utoa64_spec_witness :
  ∃ ds, utoa64 48879 (replicate 80 7) 16 true =
      Ret (Z.of_nat (length ds), (digit_char true <$> ds) ++ 0 :: drop (S (length ds)) (replicate 80 7)) ∧
    numeral_value 16 ds = 48879 ∧ Forall (λ d, 0 ≤ d < 16) ds ∧
    (48879 ≠ 0 → head ds ≠ Some 0) ∧ (1 ≤ length ds ≤ 64)%nat.
Proof. apply utoa64_spec; [lia|lia|rewrite length_replicate; lia]. Defined.

Lemma format_unsigned_spec_witness :
  format_unsigned 5 (replicate 4 7) 10 (FmtSpec 0 3 (-1) 0) = Ret (3, chars "  5" ++ [0]) ∧
  format_unsigned 5 (replicate 4 7) 10 (FmtSpec 0 4 (-1) 0) = Undef.
Proof.
  split.
  - apply (format_unsigned_spec 5 (replicate 4 7) 10 (FmtSpec 0 3 (-1) 0)).
    + lia.
    + lia.
    + unfold small_buffer. simpl. lia.
    + vm_compute. lia.
  - apply (format_unsigned_spec 5 (replicate 4 7) 10 (FmtSpec 0 4 (-1) 0)).
    + lia.
    + lia.
    + unfold small_buffer. simpl. lia.
    + vm_compute. lia.
Defined.

Lemma format_string_spec_witness :
  format_string (Some (c_string (chars "abcdef") [])) (replicate 4 7) 4 (FmtSpec 0 8 5 0) =
    Ret (3, chars "   " ++ [0]).
Proof.
  refine (proj1 (format_string_spec (chars "abcdef") [] (replicate 4 7) (FmtSpec 0 8 5 0) _ _ _)).
  - repeat constructor; vm_compute; congruence.
  - simpl. lia.
  - simpl. lia.
Defined.
