(* ===== verification/Printf.v ===== *)
(** * The format interpreter of [printf] and [serial_printf]

    [kernel/tty/tty.c] and [kernel/serial/serial.c] hold the same interpreter
    of format strings twice, with different output calls.  It is modelled once,
    over a record of the output calls ([sink]); [Tty.v] and [Serial.v]
    instantiate it.  A format is the list of its characters up to the
    terminating zero.  A variadic argument is a 64-bit word, with the [char]
    array it points to if it is a string; a missing one is [Undef]. *)

From S2P Require Import Prelude StrUtils.
From Stdlib Require Import Ascii.

(** ** Variadic arguments *)

Record vararg := VarArg { arg_word : Z; arg_str : option (list Z) }.

Definition va_word (args : list vararg) : outcome (Z * list vararg) :=
  match args with
  | [] => Undef
  | a :: args => Ret (arg_word a, args)
  end.

(** [va_arg(varargs, int)], [unsigned int], [long] (also [long long]) and
    [unsigned long] (also [size_t]). *)
Definition va_int (args : list vararg) : outcome (Z * list vararg) :=
  '(w, args) ← va_word args; Ret (s32 w, args).
Definition va_uint (args : list vararg) : outcome (Z * list vararg) :=
  '(w, args) ← va_word args; Ret (u32 w, args).
Definition va_long (args : list vararg) : outcome (Z * list vararg) :=
  '(w, args) ← va_word args; Ret (s64 w, args).
Definition va_ulong (args : list vararg) : outcome (Z * list vararg) :=
  '(w, args) ← va_word args; Ret (u64 w, args).

(** [va_arg(varargs, char * )]: the null pointer is [None]. *)
Definition va_str (args : list vararg) : outcome (option (list Z) * list vararg) :=
  match args with
  | [] => Undef
  | a :: args =>
      if arg_word a =? 0 then Ret (None, args)
      else match arg_str a with Some s => Ret (Some s, args) | None => Undef end
  end.

(** ** Parsing a conversion specification *)

(** [*format]: the current character, 0 at the end. *)
Definition cur (format : list Z) : Z := hd 0 format.

Definition set_flag (spec : fmt_spec) (flag : Z) : fmt_spec :=
  FmtSpec (Z.lor (flags spec) flag) (width spec) (precision spec) (length_mod spec).
Definition set_width (spec : fmt_spec) (w : Z) : fmt_spec :=
  FmtSpec (flags spec) w (precision spec) (length_mod spec).
Definition set_precision (spec : fmt_spec) (p : Z) : fmt_spec :=
  FmtSpec (flags spec) (width spec) p (length_mod spec).
Definition set_length (spec : fmt_spec) (l : Z) : fmt_spec :=
  FmtSpec (flags spec) (width spec) (precision spec) l.

Fixpoint parse_flags (spec : fmt_spec) (format : list Z) : fmt_spec * list Z :=
  match format with
  | [] => (spec, [])
  | c :: rest =>
      if c =? ch "-" then parse_flags (set_flag spec FMT_FLAG_LEFT) rest
      else if c =? ch "+" then parse_flags (set_flag spec FMT_FLAG_PLUS) rest
      else if c =? ch " " then parse_flags (set_flag spec FMT_FLAG_SPACE) rest
      else if c =? ch "#" then parse_flags (set_flag spec FMT_FLAG_HASH) rest
      else if c =? ch "0" then parse_flags (set_flag spec FMT_FLAG_ZERO) rest
      else (spec, format)
  end.

(** [while ( *format >= '0' && *format <= '9') { v = v * 10 + ( *format - '0'); format++; }] *)
Fixpoint parse_digits (v : Z) (format : list Z) : outcome (Z * list Z) :=
  match format with
  | [] => Ret (v, [])
  | c :: rest =>
      if (ch "0" <=? c) && (c <=? ch "9") then
        v ← int_of (v * 10 + (c - ch "0"));
        parse_digits v rest
      else Ret (v, format)
  end.

Definition parse_width (spec : fmt_spec) (format : list Z) (args : list vararg)
    : outcome (fmt_spec * list Z * list vararg) :=
  if cur format =? ch "*" then
    '(w, args) ← va_int args;
    (if w <? 0
     then w ← int_of (- w); Ret (set_width (set_flag spec FMT_FLAG_LEFT) w, tl format, args)
     else Ret (set_width spec w, tl format, args))
  else
    '(w, format) ← parse_digits 0 format;
    Ret (set_width spec (if w =? 0 then -1 else w), format, args).

Definition parse_precision (spec : fmt_spec) (format : list Z) (args : list vararg)
    : outcome (fmt_spec * list Z * list vararg) :=
  if cur format =? ch "." then
    let format := tl format in
    if cur format =? ch "*" then
      '(p, args) ← va_int args;
      Ret (set_precision spec (if p <? 0 then -1 else p), tl format, args)
    else
      '(p, format) ← parse_digits 0 format;
      Ret (set_precision spec p, format, args)
  else Ret (spec, format, args).

Definition parse_length (spec : fmt_spec) (format : list Z) : fmt_spec * list Z :=
  if cur format =? ch "h" then
    let format := tl format in
    if cur format =? ch "h" then (set_length spec FMT_LEN_HH, tl format)
    else (set_length spec FMT_LEN_H, format)
  else if cur format =? ch "l" then
    let format := tl format in
    if cur format =? ch "l" then (set_length spec FMT_LEN_LL, tl format)
    else (set_length spec FMT_LEN_L, format)
  else if cur format =? ch "z" then (set_length spec FMT_LEN_Z, tl format)
  else (spec, format).

(** Everything between the percent sign and the conversion specifier. *)
Definition parse_spec (format : list Z) (args : list vararg)
    : outcome (fmt_spec * list Z * list vararg) :=
  let '(spec, format) := parse_flags (FmtSpec 0 (-1) (-1) FMT_LEN_DEFAULT) format in
  '(spec, format, args) ← parse_width spec format args;
  '(spec, format, args) ← parse_precision spec format args;
  let '(spec, format) := parse_length spec format in
  Ret (spec, format, args).

(** ** Conversions *)

(** The argument of [%d] and [%i], as an [int64_t]. *)
Definition signed_arg (spec : fmt_spec) (args : list vararg) : outcome (Z * list vararg) :=
  if length_mod spec =? FMT_LEN_HH then '(v, args) ← va_int args; Ret (s8 v, args)
  else if length_mod spec =? FMT_LEN_H then '(v, args) ← va_int args; Ret (s16 v, args)
  else if length_mod spec =? FMT_LEN_L then va_long args
  else if length_mod spec =? FMT_LEN_LL then va_long args
  else if length_mod spec =? FMT_LEN_Z then '(v, args) ← va_ulong args; Ret (s64 v, args)
  else va_int args.

(** The argument of [%u], [%x], [%X], [%o] and [%b], as a [uint64_t]. *)
Definition unsigned_arg (spec : fmt_spec) (args : list vararg) : outcome (Z * list vararg) :=
  if length_mod spec =? FMT_LEN_HH then '(v, args) ← va_uint args; Ret (u8 v, args)
  else if length_mod spec =? FMT_LEN_H then '(v, args) ← va_uint args; Ret (u16 v, args)
  else if length_mod spec =? FMT_LEN_L then va_ulong args
  else if length_mod spec =? FMT_LEN_LL then va_ulong args
  else if length_mod spec =? FMT_LEN_Z then va_ulong args
  else va_uint args.

(** The output calls: a character ([putchar] with [write_buffer], or
    [serial_putchar]), the string in a [char] array ([print] or
    [serial_write]), and the character of [%c] or of an unknown conversion
    (printed as a string of one character by [printf]). *)
Record sink (S : Type) := Sink {
  sink_putc : Z → M S ();
  sink_puts : list Z → M S ();
  sink_single : Z → M S ()
}.
Arguments sink_putc {S} _ _ _.
Arguments sink_puts {S} _ _ _.
Arguments sink_single {S} _ _ _.

(** A computation without state, in the middle of one with state. *)
Definition lift {S A} (c : outcome A) : M S A := λ s,
  match c with
  | Ret a => Ret (a, s)
  | Panic msg => Panic msg
  | Undef => Undef
  | OutOfFuel => OutOfFuel
  end.

Section interpreter.
Context {S : Type} (out : sink S).

Fixpoint repeat_putc (n : nat) (c : Z) : M S () :=
  match n with
  | O => ret ()
  | Datatypes.S n => do* sink_putc out c in repeat_putc n c
  end.

(** [char buf[256]]: every conversion that reads it has written it first. *)
Definition BUF_SIZE : nat := 256.
Definition buf : list Z := replicate BUF_SIZE 0.

Definition convert_unsigned (radix : Z) (spec : fmt_spec) (args : list vararg)
    : M S (list vararg) :=
  let* (val, args) := lift (unsigned_arg spec args) in
  let* (_, b) := lift (format_unsigned val buf radix spec) in
  do* sink_puts out b in
  ret args.

(** [switch ( *format)] *)
Definition convert (spec : fmt_spec) (c : Z) (args : list vararg) : M S (list vararg) :=
  if (c =? ch "d") || (c =? ch "i") then
    let* (val, args) := lift (signed_arg spec args) in
    let* (_, b) := lift (format_signed val buf 10 spec) in
    do* sink_puts out b in
    ret args
  else if c =? ch "u" then convert_unsigned 10 spec args
  else if (c =? ch "x") || (c =? ch "X") then
    convert_unsigned 16 (if c =? ch "X" then set_flag spec FMT_FLAG_UPPER else spec) args
  else if c =? ch "o" then convert_unsigned 8 spec args
  else if c =? ch "b" then convert_unsigned 2 spec args
  else if c =? ch "p" then
    let* (val, args) := lift (va_ulong args) in
    let spec := set_flag spec FMT_FLAG_HASH in
    let spec := if precision spec <? 0 then set_precision spec 1 else spec in
    let* (_, b) := lift (format_unsigned val buf 16 spec) in
    do* sink_puts out b in
    ret args
  else if c =? ch "s" then
    let* (str, args) := lift (va_str args) in
    let* (_, b) := lift (format_string str buf (Z.of_nat BUF_SIZE) spec) in
    do* sink_puts out b in
    ret args
  else if c =? ch "c" then
    let* (val, args) := lift (va_int args) in
    let pad := if 1 <? width spec then Z.to_nat (width spec - 1) else O in
    do* (if has_flag spec FMT_FLAG_LEFT then ret () else repeat_putc pad (ch " ")) in
    do* sink_single out (u8 val) in
    do* (if has_flag spec FMT_FLAG_LEFT then repeat_putc pad (ch " ") else ret ()) in
    ret args
  else if c =? ch "n" then ret args
  else
    do* sink_putc out (ch "%") in
    do* (if c =? 0 then ret () else sink_single out c) in
    ret args.

(** [while ( *format)] *)
Fixpoint format_loop (fuel : nat) (format : list Z) (args : list vararg) : M S () :=
  match fuel with
  | O => out_of_fuel
  | Datatypes.S fuel =>
      match format with
      | [] => ret ()
      | c :: rest =>
          if negb (c =? ch "%") then
            do* sink_putc out c in
            format_loop fuel rest args
          else if cur rest =? ch "%" then
            do* sink_putc out (ch "%") in
            format_loop fuel (tl rest) args
          else
            let* (spec, rest, args) := lift (parse_spec rest args) in
            let* args := convert spec (cur rest) args in
            format_loop fuel (tl rest) args
      end
  end.

(** An iteration consumes a character, so the length of the format bounds the
    number of tests of the loop condition. *)
Definition interpret (format : list Z) (args : list vararg) : M S () :=
  format_loop (Datatypes.S (length format)) format args.
End interpreter.

(** The text that a format denotes: the interpreter run on a list of
    characters. *)
Definition text_sink : sink (list Z) := {|
  sink_putc c := modify (λ out, out ++ [c]);
  sink_puts b := λ out,
    match strlen (Some b) with
    | Ret n => Ret ((), out ++ take (Z.to_nat n) b)
    | _ => Undef
    end;
  sink_single c := modify (λ out, out ++ [c])
|}.

Definition render (format : string) (args : list vararg) : outcome (list Z) :=
  '(_, out) ← interpret text_sink (chars format) args [];
  Ret out.

Example render_demo :
  render "%s=%-6d|%#06x%%" [VarArg 4096 (Some (chars "pid" ++ [0])); VarArg (u64 (-42)) None;
    VarArg 255 None] = Ret (chars "pid=-42   |0x00ff%").
Proof. vm_compute. reflexivity. Qed.

(** ** Consoles

    What the interpreter needs of its output calls: the state [s] of the
    device, on which the text [t] was printed, takes one more character, the
    string in an array, or a single character. *)

Class Console {S : Type} (k : sink S) (R : S → list Z → Prop) : Prop := {
  console_putc s t c :
    R s t → c ≠ 0 → ∃ s', sink_putc k c s = Ret ((), s') ∧ R s' (t ++ [c]);
  console_puts s t str rest :
    R s t → Forall (λ c, c ≠ 0) str →
    ∃ s', sink_puts k (c_string str rest) s = Ret ((), s') ∧ R s' (t ++ str);
  console_single s t c :
    R s t → c ≠ 0 → ∃ s', sink_single k c s = Ret ((), s') ∧ R s' (t ++ [c])
}.

Lemma strlen_loop_inv fuel s1 b n :
  strlen_loop fuel (s1 ++ b) (Z.of_nat (length s1)) = Ret n →
  ∃ s2 rest, b = c_string s2 rest ∧ Forall (λ c, c ≠ 0) s2 ∧ n = Z.of_nat (length (s1 ++ s2)).
Proof.
  revert s1 b. induction fuel as [|fuel IH]; intros s1 b; [done|]. cbn [strlen_loop].
  destruct b as [|c b].
  { unfold buf_get. destruct (0 <=? _); [|done]. rewrite Nat2Z.id, app_nil_r.
    by rewrite (proj2 (lookup_ge_None s1 (length s1))). }
  rewrite (buf_get_lookup _ _ c) by (by apply list_lookup_middle). cbn [mbind outcome_bind].
  destruct (Z.eqb_spec c 0) as [->|Hc].
  - intros [= <-]. exists [], b. by rewrite app_nil_r.
  - replace (s1 ++ c :: b) with ((s1 ++ [c]) ++ b) by (by rewrite <- app_assoc).
    replace (Z.of_nat (length s1) + 1) with (Z.of_nat (length (s1 ++ [c])))
      by (rewrite length_app; simpl; lia).
    intros (s2 & rest & -> & Hs & ->)%IH. exists (c :: s2), rest.
    split_and!; [done|by constructor|by rewrite <- app_assoc].
Qed.

Lemma strlen_inv b n :
  strlen (Some b) = Ret n →
  ∃ s rest, b = c_string s rest ∧ Forall (λ c, c ≠ 0) s ∧ n = Z.of_nat (length s).
Proof. apply (strlen_loop_inv _ []). Qed.

Lemma lift_Ret {S A} (c : outcome A) (s s' : S) a :
  lift c s = Ret (a, s') ↔ c = Ret a ∧ s' = s.
Proof. unfold lift. destruct c; naive_solver. Qed.

Lemma text_puts str rest t :
  Forall (λ c, c ≠ 0) str → sink_puts text_sink (c_string str rest) t = Ret ((), t ++ str).
Proof.
  intros Hs. cbn [sink_puts text_sink]. unfold c_string.
  by rewrite strlen_result, Nat2Z.id, take_app_length.
Qed.

Section simulation.
Context {S : Type} (k : sink S) (R : S → list Z → Prop) `{HC : !Console k R}.

(** [c1] only appends to the text, and if the text holds no zero character,
    [c2] prints the same. *)
Definition sim {A} (c1 : M (list Z) A) (c2 : M S A) : Prop :=
  ∀ t a t', c1 t = Ret (a, t') →
    (∃ d, t' = t ++ d) ∧
    ∀ s, R s t → (0 ∉ t') → ∃ s', c2 s = Ret (a, s') ∧ R s' t'.

Lemma sim_ret {A} (a : A) : sim (ret a) (ret a).
Proof. intros t a' t' [= <- <-]. split; [exists []; by rewrite app_nil_r|]. eauto. Qed.

Lemma sim_lift {A} (c : outcome A) : sim (lift c) (lift c).
Proof.
  intros t a' t' [-> ->]%lift_Ret. split; [exists []; by rewrite app_nil_r|]. simpl. eauto.
Qed.

Lemma sim_bind {A B} (c1 : M (list Z) A) c2 (f1 : A → M (list Z) B) f2 :
  sim c1 c2 → (∀ a, sim (f1 a) (f2 a)) → sim (bind c1 f1) (bind c2 f2).
Proof.
  intros Hc Hf t b t'' (a & t' & H1 & H2)%bind_Ret_inv.
  destruct (Hc _ _ _ H1) as [[d1 ->] Hc']. destruct (Hf _ _ _ _ H2) as [[d2 ->] Hf'].
  split; [exists (d1 ++ d2); by rewrite app_assoc|]. intros s HR H0.
  destruct (Hc' s HR) as (s' & E1 & HR'); [set_solver|].
  destruct (Hf' s' HR' H0) as (s'' & E2 & HR''). exists s''.
  by rewrite (bind_ret _ _ _ _ _ E1).
Qed.

Lemma sim_putc c : sim (sink_putc text_sink c) (sink_putc k c).
Proof using HC.
  intros t [] t' [= <-]. split; [by eexists|]. intros s HR H0.
  apply console_putc; [done|]. set_solver.
Qed.

Lemma sim_single c : sim (sink_single text_sink c) (sink_single k c).
Proof using HC.
  intros t [] t' [= <-]. split; [by eexists|]. intros s HR H0.
  apply console_single; [done|]. set_solver.
Qed.

Lemma sim_puts b : sim (sink_puts text_sink b) (sink_puts k b).
Proof using HC.
  intros t [] t'. cbn [sink_puts text_sink].
  destruct (strlen (Some b)) as [n| | |] eqn:E; try done. intros [= <-].
  apply strlen_inv in E as (str & rest & -> & Hs & ->).
  assert (take (Z.to_nat (Z.of_nat (length str))) (c_string str rest) = str) as ->
    by (unfold c_string; by rewrite Nat2Z.id, take_app_length).
  split; [by eexists|].
  intros s HR _. by apply console_puts.
Qed.

Lemma sim_if {A} (b : bool) (c1 c1' : M (list Z) A) c2 c2' :
  sim c1 c2 → sim c1' c2' → sim (if b then c1 else c1') (if b then c2 else c2').
Proof. by destruct b. Qed.

Create HintDb sim.
Hint Resolve sim_ret sim_lift sim_putc sim_single sim_puts : sim.

Ltac sim_step :=
  repeat match goal with
  | |- sim (bind _ _) (bind _ _) => apply sim_bind; [|intros ?]
  | |- sim (if _ then _ else _) _ => apply sim_if
  | x : prod _ _ |- _ => destruct x
  | |- sim (let _ := _ in _) _ => cbv zeta
  | _ => solve [eauto with sim]
  end.

Lemma sim_repeat n c : sim (repeat_putc text_sink n c) (repeat_putc k n c).
Proof using HC. induction n as [|n IH]; cbn [repeat_putc]; sim_step. Qed.

Hint Resolve sim_repeat : sim.

Lemma sim_convert_unsigned radix spec args :
  sim (convert_unsigned text_sink radix spec args) (convert_unsigned k radix spec args).
Proof using HC. unfold convert_unsigned. sim_step. Qed.

Hint Resolve sim_convert_unsigned : sim.

Lemma sim_convert spec c args : sim (convert text_sink spec c args) (convert k spec c args).
Proof using HC. unfold convert. sim_step. Qed.

Hint Resolve sim_convert : sim.

Lemma sim_format_loop fuel format args :
  sim (format_loop text_sink fuel format args) (format_loop k fuel format args).
Proof using HC.
  revert format args. induction fuel as [|fuel IH]; intros format args; [by intros t a t'|].
  destruct format as [|c rest]; cbn [format_loop]; [apply sim_ret|]. sim_step.
Qed.

(** A console prints the text that the format denotes. *)
Lemma interpret_console format args t t' s :
  interpret text_sink format args t = Ret ((), t') → R s t → (0 ∉ t') →
  ∃ s', interpret k format args s = Ret ((), s') ∧ R s' t'.
Proof using HC.
  intros H HR H0. destruct (sim_format_loop _ _ _ _ _ _ H) as [_ H']. by apply H'.
Qed.
End simulation.

(** Text already printed does not matter. *)
#[export] Instance text_console t0 : Console text_sink (λ s t, s = t0 ++ t).
Proof.
  split.
  - intros s t c -> _. eexists. split; [done|]. by rewrite <- app_assoc.
  - intros s t str rest -> Hs. eexists. split; [by apply text_puts|]. by rewrite <- app_assoc.
  - intros s t c -> _. eexists. split; [done|]. by rewrite <- app_assoc.
Qed.

(** ** The interpreter makes progress *)

Lemma parse_flags_length spec format spec' rest :
  parse_flags spec format = (spec', rest) → (length rest ≤ length format)%nat.
Proof.
  revert spec. induction format as [|c format IH]; intros spec; simpl; [by intros [= _ <-]|].
  repeat case_match; [intros ?%IH; lia..|intros [= _ <-]; simpl; lia].
Qed.

Lemma parse_digits_length v format v' rest :
  parse_digits v format = Ret (v', rest) → (length rest ≤ length format)%nat.
Proof.
  revert v. induction format as [|c format IH]; intros v; simpl; [by intros [= _ <-]|].
  case_match; [|intros [= _ <-]; simpl; lia].
  destruct (int_of _); simpl; try done. intros ?%IH. lia.
Qed.

Lemma length_tl (l : list Z) : (length (tl l) ≤ length l)%nat.
Proof. destruct l; simpl; lia. Qed.

Lemma parse_width_length spec format args spec' rest args' :
  parse_width spec format args = Ret (spec', rest, args') → (length rest ≤ length format)%nat.
Proof.
  unfold parse_width. case_match.
  - destruct (va_int args) as [[w a]| | |]; simpl; try done. case_match.
    + destruct (int_of (- w)); simpl; try done. intros [= _ <- _]. apply length_tl.
    + intros [= _ <- _]. apply length_tl.
  - destruct (parse_digits 0 format) as [[w r]| | |] eqn:E; simpl; try done.
    intros [= _ <- _]. by eapply parse_digits_length.
Qed.

Lemma parse_precision_length spec format args spec' rest args' :
  parse_precision spec format args = Ret (spec', rest, args') →
  (length rest ≤ length format)%nat.
Proof.
  unfold parse_precision. pose proof (length_tl format). case_match; [|by intros [= _ <- _]].
  case_match.
  - destruct (va_int args) as [[w a]| | |]; simpl; try done. intros [= _ <- _].
    pose proof (length_tl (tl format)). lia.
  - destruct (parse_digits 0 (tl format)) as [[w r]| | |] eqn:E; simpl; try done.
    intros [= _ <- _]. apply parse_digits_length in E. lia.
Qed.

Lemma parse_length_length spec format spec' rest :
  parse_length spec format = (spec', rest) → (length rest ≤ length format)%nat.
Proof.
  unfold parse_length. pose proof (length_tl format). pose proof (length_tl (tl format)).
  repeat case_match; intros [= _ <-]; lia.
Qed.

Lemma parse_spec_length format args spec rest args' :
  parse_spec format args = Ret (spec, rest, args') → (length rest ≤ length format)%nat.
Proof.
  unfold parse_spec. destruct (parse_flags _ format) as [s1 f1] eqn:E1.
  destruct (parse_width s1 f1 args) as [[[s2 f2] a2]| | |] eqn:E2; simpl; try done.
  destruct (parse_precision s2 f2 a2) as [[[s3 f3] a3]| | |] eqn:E3; simpl; try done.
  destruct (parse_length s3 f3) as [s4 f4] eqn:E4. intros [= _ <- _].
  apply parse_flags_length in E1. apply parse_width_length in E2.
  apply parse_precision_length in E3. apply parse_length_length in E4. lia.
Qed.

(** Any fuel beyond the length of the format gives the same result. *)
Lemma format_loop_fuel {S} (k : sink S) f1 f2 format args s :
  (length format < f1)%nat → (length format < f2)%nat →
  format_loop k f1 format args s = format_loop k f2 format args s.
Proof.
  revert f2 format args s. induction f1 as [|f1 IH]; intros f2 format args s H1 H2; [lia|].
  destruct f2 as [|f2]; [lia|]. destruct format as [|c rest]; cbn [format_loop]; [done|].
  simpl in H1, H2. pose proof (length_tl rest).
  destruct (negb (c =? ch "%")); [|destruct (cur rest =? ch "%")].
  - unfold bind. destruct (sink_putc k c s) as [[[] s']| | |]; [apply IH; lia|done..].
  - unfold bind. destruct (sink_putc k (ch "%") s) as [[[] s']| | |]; [apply IH; lia|done..].
  - unfold bind, lift.
    destruct (parse_spec rest args) as [[[spec r] a]| | |] eqn:E; try done.
    apply parse_spec_length in E. pose proof (length_tl r).
    destruct (convert k spec (cur r) a s) as [[a' s']| | |]; [apply IH; lia|done..].
Qed.

(** ** Directives

    The text of a conversion specification, and what it prints. *)

Record flag_set := FlagSet {
  fl_left : bool; fl_plus : bool; fl_space : bool; fl_hash : bool; fl_zero : bool }.

Definition flag_chars (f : flag_set) : list Z :=
  (if fl_left f then [ch "-"] else []) ++ (if fl_plus f then [ch "+"] else []) ++
  (if fl_space f then [ch " "] else []) ++ (if fl_hash f then [ch "#"] else []) ++
  (if fl_zero f then [ch "0"] else []).

Definition flag_bits (f : flag_set) : Z :=
  (if fl_left f then FMT_FLAG_LEFT else 0) + (if fl_plus f then FMT_FLAG_PLUS else 0) +
  (if fl_space f then FMT_FLAG_SPACE else 0) + (if fl_hash f then FMT_FLAG_HASH else 0) +
  (if fl_zero f then FMT_FLAG_ZERO else 0).

Definition decimal (n : Z) : list Z := numeral false 10 n.

Definition length_chars (l : Z) : list Z :=
  if l =? FMT_LEN_HH then chars "hh" else if l =? FMT_LEN_H then chars "h"
  else if l =? FMT_LEN_L then chars "l" else if l =? FMT_LEN_LL then chars "ll"
  else if l =? FMT_LEN_Z then chars "z" else [].

(** The specification after the percent sign; width and precision are written
    when they are given. *)
Definition directive (f : flag_set) (w p l : Z) : list Z :=
  flag_chars f ++ (if w <? 0 then [] else decimal w) ++
  (if p <? 0 then [] else ch "." :: decimal p) ++ length_chars l.

Definition conversions : list Z := chars "diuxXobpsc".

(** A width is absent or positive; a precision may be zero. *)
Definition width_ok (w : Z) : Prop := w = -1 ∨ 0 < w < 2147483648.
Definition precision_ok (p : Z) : Prop := -1 ≤ p < 2147483648.

Definition plain_char (c : Z) : Prop :=
  (c ∉ chars "-+ #0123456789*.hlz").

Lemma conversions_plain c : c ∈ conversions → plain_char c.
Proof.
  assert (Forall plain_char conversions) as Hf.
  { unfold plain_char, conversions. apply (bool_decide_unpack _). vm_compute. done. }
  intros Hc. by eapply Forall_forall in Hf.
Qed.

Lemma plain_char_ne c a : plain_char c → a ∈ chars "-+ #0123456789*.hlz" → (c =? a) = false.
Proof. intros Hc Ha. apply Z.eqb_neq. intros ->. by apply Hc. Qed.

Ltac in_chars := apply (bool_decide_unpack _); vm_compute; exact I.

(** The head of a list is not a flag character, or not a digit. *)
Definition stops_flags (format : list Z) : Prop :=
  cur format ∉ chars "-+ #0".
Definition stops_digits (format : list Z) : Prop :=
  (cur format <? ch "0") || (ch "9" <? cur format) = true.

Lemma parse_flags_stop spec format : stops_flags format → parse_flags spec format = (spec, format).
Proof.
  destruct format as [|c rest]; [done|]. unfold stops_flags. simpl. intros Hc.
  repeat match goal with |- context [c =? ?a] =>
    destruct (Z.eqb_spec c a) as [->|_]; [exfalso; apply Hc; in_chars|] end.
  done.
Qed.

Lemma parse_flags_chars f w p l rest :
  stops_flags rest →
  parse_flags (FmtSpec 0 w p l) (flag_chars f ++ rest) = (FmtSpec (flag_bits f) w p l, rest).
Proof.
  intros Hs. rewrite <- (parse_flags_stop (FmtSpec (flag_bits f) w p l) rest Hs).
  destruct f as [[] [] [] [] []]; reflexivity.
Qed.

Lemma digit_char_decimal d : 0 ≤ d < 10 → digit_char false d = ch "0" + d.
Proof.
  intros Hd.
  assert (d = 0 ∨ d = 1 ∨ d = 2 ∨ d = 3 ∨ d = 4 ∨ d = 5 ∨ d = 6 ∨ d = 7 ∨ d = 8 ∨ d = 9)
    as Hc by lia.
  destruct_or! Hc; subst d; reflexivity.
Qed.

Lemma fold_digits_ge ds v :
  0 ≤ v → Forall (λ d, 0 ≤ d < 10) ds → v ≤ fold_left (λ v d, v * 10 + d) ds v.
Proof.
  revert v. induction ds as [|d ds IH]; intros v Hv Hd; simpl; [lia|].
  inversion Hd; subst. etrans; [|apply IH; [lia|done]]. lia.
Qed.

Lemma parse_digits_stop v rest : stops_digits rest → parse_digits v rest = Ret (v, rest).
Proof.
  unfold stops_digits. destruct rest as [|c rest]; [done|]. intros Hc. simpl in *.
  destruct (Z.ltb_spec c (ch "0")), (Z.ltb_spec (ch "9") c),
    (Z.leb_spec (ch "0") c), (Z.leb_spec c (ch "9")); simpl in *; try done; lia.
Qed.

Lemma parse_digits_spec ds v rest :
  0 ≤ v → Forall (λ d, 0 ≤ d < 10) ds → stops_digits rest →
  fold_left (λ v d, v * 10 + d) ds v < 2147483648 →
  parse_digits v ((digit_char false <$> ds) ++ rest) =
  Ret (fold_left (λ v d, v * 10 + d) ds v, rest).
Proof.
  revert v. induction ds as [|d ds IH]; intros v Hv Hd Hs Hlt; simpl in *.
  - by apply parse_digits_stop.
  - inversion Hd as [|? ? Hd0 Hds]; subst. rewrite digit_char_decimal by done.
    pose proof (fold_digits_ge ds (v * 10 + d) ltac:(lia) Hds).
    change (ch "0") with 48. change (ch "9") with 57.
    destruct (Z.leb_spec 48 (48 + d)), (Z.leb_spec (48 + d) 57); try lia. simpl.
    replace (48 + d - 48) with d by lia. rewrite int_of_ok by lia. cbn [mbind outcome_bind].
    apply IH; try done. lia.
Qed.

Lemma parse_decimal n rest :
  0 ≤ n < 2147483648 → stops_digits rest → parse_digits 0 (decimal n ++ rest) = Ret (n, rest).
Proof.
  intros Hn Hs. unfold decimal, numeral.
  pose proof (number_value 10 ltac:(lia) n ltac:(lia)) as Hv. unfold numeral_value in Hv.
  rewrite parse_digits_spec; [by rewrite Hv|lia|apply number_range; lia|done|].
  rewrite Hv. lia.
Qed.

(** A decimal numeral starts with a digit, and not with 0 if positive. *)
Lemma decimal_cons n :
  0 ≤ n < 2147483648 →
  ∃ d ds, decimal n = ch "0" + d :: ds ∧ 0 ≤ d < 10 ∧ (0 < n → 0 < d).
Proof.
  intros Hn. pose proof (number_length 10 ltac:(lia) n ltac:(lia)) as Hl.
  pose proof (number_range 10 ltac:(lia) n ltac:(lia)) as Hr. unfold decimal, numeral.
  destruct (number 10 n) as [|d ds] eqn:E; [simpl in Hl; lia|].
  inversion Hr; subst. exists d, (digit_char false <$> ds). split_and!; try lia.
  - simpl. by rewrite digit_char_decimal.
  - intros Hp. pose proof (number_top 10 ltac:(lia) n d ds ltac:(lia) E). lia.
Qed.

(** What follows the flags, the width and the precision. *)
Definition ends (T : list Z) : Prop :=
  stops_flags T ∧ stops_digits T ∧ (cur T =? ch "*") = false.

Section directive.
Context (R : list Z) (Hc : plain_char (cur R)).

Lemma cur_plain a : a ∈ chars "-+ #0123456789*.hlz" → (cur R =? a) = false.
Proof using Hc. intros Ha. by apply plain_char_ne. Qed.

Lemma plain_stops : stops_flags R ∧ stops_digits R.
Proof using Hc.
  unfold stops_flags, stops_digits. revert Hc. generalize (cur R). intros c Hc. split.
  - intros Hin. apply Hc. revert Hin. simpl. set_solver.
  - destruct (Z.ltb_spec c (ch "0")), (Z.ltb_spec (ch "9") c); try done.
    exfalso. apply Hc. change (ch "0") with 48 in *. change (ch "9") with 57 in *.
    assert (c = 48 ∨ c = 49 ∨ c = 50 ∨ c = 51 ∨ c = 52 ∨ c = 53 ∨ c = 54 ∨ c = 55 ∨ c = 56 ∨
      c = 57) as Hd by lia. destruct_or! Hd; subst; in_chars.
Qed.

Lemma parse_length_spec s l :
  0 ≤ l ≤ 5 →
  parse_length (set_length s 0) (length_chars l ++ R) = (set_length s l, R).
Proof using Hc.
  intros Hl. assert (l = 0 ∨ l = 1 ∨ l = 2 ∨ l = 3 ∨ l = 4 ∨ l = 5) as H by lia.
  pose proof (cur_plain (ch "h") ltac:(in_chars)) as Eh.
  pose proof (cur_plain (ch "l") ltac:(in_chars)) as El.
  pose proof (cur_plain (ch "z") ltac:(in_chars)) as Ez.
  unfold parse_length. destruct_or! H; subst l; cbn; fold (cur R); rewrite ?Eh, ?El, ?Ez; reflexivity.
Qed.

Lemma length_ends l :
  0 ≤ l ≤ 5 →
  ends (length_chars l ++ R) ∧ (cur (length_chars l ++ R) =? ch ".") = false.
Proof using Hc.
  intros Hl. assert (l = 0 ∨ l = 1 ∨ l = 2 ∨ l = 3 ∨ l = 4 ∨ l = 5) as H by lia.
  destruct_or! H; subst l; [|split; [split_and!; try done|done]; in_chars..].
  destruct plain_stops as [? ?].
  split; [split_and!; try done|]; apply cur_plain; in_chars.
Qed.

Lemma precision_ends p T :
  precision_ok p → ends T → ends ((if p <? 0 then [] else ch "." :: decimal p) ++ T).
Proof.
  intros Hp HT. destruct (Z.ltb_spec p 0); [done|]. split_and!; [in_chars|done..].
Qed.

Lemma parse_precision_spec s p T args :
  precision_ok p → ends T → (cur T =? ch ".") = false →
  parse_precision (set_precision s (-1)) ((if p <? 0 then [] else ch "." :: decimal p) ++ T) args =
  Ret (set_precision s p, T, args).
Proof.
  intros Hp (_ & HT & _) Hd. unfold parse_precision. unfold precision_ok in Hp.
  destruct (Z.ltb_spec p 0).
  - rewrite app_nil_l, Hd. replace p with (-1) by lia. done.
  - destruct (decimal_cons p) as (d & ds & Ed & Hrange & _); [lia|].
    cbn [cur hd app tl]. rewrite Z.eqb_refl.
    assert ((cur (decimal p ++ T) =? ch "*") = false) as ->.
    { rewrite Ed. cbn [cur hd app]. apply Z.eqb_neq.
      change (ch "0") with 48. change (ch "*") with 42. lia. }
    rewrite parse_decimal by (done || lia). done.
Qed.

Lemma parse_width_spec s w T args :
  width_ok w → ends T →
  stops_flags ((if w <? 0 then [] else decimal w) ++ T) ∧
  parse_width (set_width s (-1)) ((if w <? 0 then [] else decimal w) ++ T) args =
  Ret (set_width s w, T, args).
Proof.
  intros Hw (HT & HT' & Hs). unfold parse_width. destruct Hw as [->|Hw].
  - cbn [app Z.ltb Z.compare]. split; [done|]. rewrite Hs, parse_digits_stop by done. done.
  - destruct (Z.ltb_spec w 0); [lia|].
    destruct (decimal_cons w) as (d & ds & Ed & Hrange & Hpos); [lia|].
    assert (0 < d) by (apply Hpos; lia). split.
    + unfold stops_flags. rewrite Ed. cbn [cur hd app].
      assert (d = 1 ∨ d = 2 ∨ d = 3 ∨ d = 4 ∨ d = 5 ∨ d = 6 ∨ d = 7 ∨ d = 8 ∨ d = 9) as Hd by lia.
      clear -Hd. destruct_or! Hd; subst d; in_chars.
    + assert ((cur (decimal w ++ T) =? ch "*") = false) as ->.
      { rewrite Ed. cbn [cur hd app]. apply Z.eqb_neq.
        change (ch "0") with 48. change (ch "*") with 42. lia. }
      rewrite parse_decimal by (done || lia). cbn [mbind outcome_bind].
      by destruct (Z.eqb_spec w 0); [lia|].
Qed.

(** Parsing a directive gives back the specification it was written from. *)
Lemma parse_directive f w p l args :
  width_ok w → precision_ok p → 0 ≤ l ≤ 5 →
  parse_spec (directive f w p l ++ R) args = Ret (FmtSpec (flag_bits f) w p l, R, args).
Proof using Hc.
  intros Hw Hp Hl. destruct (length_ends l Hl) as [HT Hdot].
  pose proof (precision_ends p _ Hp HT) as HP.
  destruct (parse_width_spec (FmtSpec (flag_bits f) 0 (-1) 0) w _ args Hw HP) as [Hsf HW].
  unfold parse_spec, directive. rewrite <- !app_assoc.
  rewrite parse_flags_chars by done.
  change (FmtSpec (flag_bits f) (-1) (-1) FMT_LEN_DEFAULT)
    with (set_width (FmtSpec (flag_bits f) 0 (-1) 0) (-1)).
  rewrite HW. cbn [mbind outcome_bind].
  change (set_width (FmtSpec (flag_bits f) 0 (-1) 0) w)
    with (set_precision (FmtSpec (flag_bits f) w (-1) 0) (-1)).
  rewrite parse_precision_spec by done. cbn [mbind outcome_bind].
  change (set_precision (FmtSpec (flag_bits f) w (-1) 0) p)
    with (set_length (FmtSpec (flag_bits f) w p 0) 0).
  by rewrite parse_length_spec.
Qed.
End directive.

(** ** What conversions print *)

Lemma digit_char_nonzero up d : 0 ≤ d < 16 → digit_char up d ≠ 0.
Proof.
  intros Hd.
  assert (d = 0 ∨ d = 1 ∨ d = 2 ∨ d = 3 ∨ d = 4 ∨ d = 5 ∨ d = 6 ∨ d = 7 ∨ d = 8 ∨ d = 9 ∨ d = 10 ∨
    d = 11 ∨ d = 12 ∨ d = 13 ∨ d = 14 ∨ d = 15) as Hc by lia.
  destruct_or! Hc; subst d; destruct up; vm_compute; congruence.
Qed.

Lemma numeral_nonzero up radix n :
  2 ≤ radix ≤ 16 → 0 ≤ n → Forall (λ c, c ≠ 0) (numeral up radix n).
Proof.
  intros Hr Hn. unfold numeral. apply Forall_fmap.
  eapply Forall_impl; [by apply number_range|]. intros d Hd. cbv beta in Hd. apply digit_char_nonzero. lia.
Qed.

Lemma number_field_nonzero lead ds spec :
  Forall (λ c, c ≠ 0) lead → Forall (λ c, c ≠ 0) ds →
  Forall (λ c, c ≠ 0) (number_field lead ds spec).
Proof.
  intros Hl Hd. unfold number_field.
  repeat case_match; repeat (apply Forall_app; split); try done;
    apply Forall_replicate; vm_compute; congruence.
Qed.

Lemma prefix_of_nonzero radix num spec : Forall (λ c, c ≠ 0) (prefix_of radix num spec).
Proof.
  unfold prefix_of. repeat case_match; repeat constructor; vm_compute; congruence.
Qed.

Lemma sign_of_nonzero num spec : Forall (λ c, c ≠ 0) (sign_of num spec).
Proof. unfold sign_of. repeat case_match; repeat constructor; vm_compute; congruence. Qed.

(** The value of an argument under a length modifier. *)
Definition unsigned_value (l w : Z) : Z :=
  if l =? FMT_LEN_HH then u8 w else if l =? FMT_LEN_H then u16 w
  else if l =? FMT_LEN_DEFAULT then u32 w else u64 w.
Definition signed_value (l w : Z) : Z :=
  if l =? FMT_LEN_HH then s8 w else if l =? FMT_LEN_H then s16 w
  else if l =? FMT_LEN_DEFAULT then s32 w else s64 w.

Lemma unsigned_arg_spec fl w p l word str args :
  0 ≤ l ≤ 5 →
  unsigned_arg (FmtSpec fl w p l) (VarArg word str :: args) = Ret (unsigned_value l word, args) ∧
  0 ≤ unsigned_value l word < 2 ^ 64.
Proof.
  intros Hl. assert (l = 0 ∨ l = 1 ∨ l = 2 ∨ l = 3 ∨ l = 4 ∨ l = 5) as H by lia.
  destruct_or! H; subst l; cbn; (split; [|zlia]); try done; do 2 f_equal; zlia.
Qed.

Lemma signed_arg_spec fl w p l word str args :
  0 ≤ l ≤ 5 →
  signed_arg (FmtSpec fl w p l) (VarArg word str :: args) = Ret (signed_value l word, args) ∧
  -9223372036854775808 ≤ signed_value l word < 9223372036854775808.
Proof.
  intros Hl. assert (l = 0 ∨ l = 1 ∨ l = 2 ∨ l = 3 ∨ l = 4 ∨ l = 5) as H by lia.
  destruct_or! H; subst l; cbn; (split; [|zlia]); try done; do 2 f_equal; zlia.
Qed.

Lemma parse_spec_percent format args :
  parse_spec (ch "%" :: format) args = Ret (FmtSpec 0 (-1) (-1) 0, ch "%" :: format, args).
Proof. reflexivity. Qed.

Lemma interpret_directive {S} (k : sink S) f w p l c rest args s :
  width_ok w → precision_ok p → 0 ≤ l ≤ 5 → c ∈ conversions →
  interpret k (ch "%" :: directive f w p l ++ c :: rest) args s =
  bind (convert k (FmtSpec (flag_bits f) w p l) c args) (interpret k rest) s.
Proof.
  intros Hw Hp Hl Hc. pose proof (conversions_plain c Hc) as Hpl.
  pose proof (parse_directive (c :: rest) Hpl f w p l args Hw Hp Hl) as HP.
  unfold interpret at 1. set (format := directive f w p l ++ c :: rest) in *.
  cbn [format_loop]. rewrite Z.eqb_refl. cbn [negb].
  assert ((cur format =? ch "%") = false) as ->.
  { apply Z.eqb_neq. intros Hcur. destruct format as [|x r]; [done|]. simpl in Hcur. subst x.
    rewrite parse_spec_percent in HP. assert (ch "%" = c) as Hx by congruence.
    rewrite <- Hx in Hc. revert Hc. apply (bool_decide_unpack _). vm_compute. exact I. }
  assert (length rest < length format)%nat as Hlen.
  { subst format. rewrite length_app. simpl. lia. }
  rewrite HP. unfold bind, lift. cbn [cur hd tl].
  destruct (convert k _ c args s) as [[args' s']| | |]; [|done..].
  apply format_loop_fuel; simpl; lia.
Qed.

Definition upper_flag (up : bool) (spec : fmt_spec) : fmt_spec :=
  if up then set_flag spec FMT_FLAG_UPPER else spec.

Definition unsigned_text (radix : Z) (up : bool) (spec : fmt_spec) (v : Z) : list Z :=
  number_field (prefix_of radix v (upper_flag up spec)) (numeral up radix v) (upper_flag up spec).

Definition signed_text (spec : fmt_spec) (v : Z) : list Z :=
  number_field (sign_of v spec) (numeral false 10 (Z.abs v)) spec.

Lemma buf_small : small_buffer buf.
Proof. unfold small_buffer, buf, BUF_SIZE. rewrite length_replicate. lia. Qed.

Lemma put_field_buf out :
  put_field buf out =
  if decide (length out < BUF_SIZE)%nat
  then Ret (Z.of_nat (length out), c_string out (drop (S (length out)) buf)) else Undef.
Proof.
  assert (length buf = BUF_SIZE) as Hb by apply length_replicate.
  unfold put_field, c_string, written. do 2 case_decide; try lia; [|done].
  by rewrite length_app, Nat.add_1_r, <- app_assoc.
Qed.

(** The flags that a format can set do not include the one for upper case. *)
Definition no_upper (spec : fmt_spec) : Prop := Z.land (flags spec) FMT_FLAG_UPPER = 0.

Lemma no_upper_set spec flag : no_upper spec → Z.land flag FMT_FLAG_UPPER = 0 → no_upper (set_flag spec flag).
Proof. intros H1 H2. unfold no_upper. cbn [flags set_flag]. by rewrite Z.land_lor_distr_l, H1, H2. Qed.

Lemma has_upper spec up : no_upper spec → has_flag (upper_flag up spec) FMT_FLAG_UPPER = up.
Proof.
  intros H. unfold has_flag. destruct up; cbn [upper_flag flags set_flag]; [|by rewrite H].
  by rewrite Z.land_lor_distr_l, H.
Qed.

Lemma flag_bits_upper f w p l : no_upper (FmtSpec (flag_bits f) w p l).
Proof. by destruct f as [[] [] [] [] []]. Qed.

(** A number goes through [buf]. *)
Lemma unsigned_field radix up spec v (args : list vararg) t (text := unsigned_text radix up spec v) :
  0 ≤ v < 2 ^ 64 → 2 ≤ radix ≤ 16 → no_upper spec →
  (let* (_, b) := lift (format_unsigned v buf radix (upper_flag up spec)) in
   do* sink_puts text_sink b in ret args) t =
  if decide (length text < BUF_SIZE)%nat then Ret (args, t ++ text) else Undef.
Proof.
  intros Hv Hr Hup. rewrite format_unsigned_result by (done || apply buf_small).
  rewrite (has_upper _ _ Hup). fold (unsigned_text radix up spec v). fold text.
  rewrite put_field_buf. unfold bind, lift. case_decide; [|done].
  rewrite text_puts; [done|]. apply number_field_nonzero; [apply prefix_of_nonzero|].
  apply numeral_nonzero; [done|lia].
Qed.

Lemma convert_unsigned_field radix up spec word str args t
    (text := unsigned_text radix up spec (unsigned_value (length_mod spec) word)) :
  0 ≤ length_mod spec ≤ 5 → 2 ≤ radix ≤ 16 → no_upper spec →
  convert_unsigned text_sink radix (upper_flag up spec) (VarArg word str :: args) t =
  if decide (length text < BUF_SIZE)%nat then Ret (args, t ++ text) else Undef.
Proof.
  intros Hl Hr Hup. unfold convert_unsigned.
  assert (∃ fl, upper_flag up spec = FmtSpec fl (width spec) (precision spec) (length_mod spec)) as [fl Efl]
    by (destruct up, spec; by eexists).
  destruct (unsigned_arg_spec fl (width spec) (precision spec) (length_mod spec) word str args Hl) as [Ha Hv].
  rewrite <- Efl in Ha. rewrite Ha. unfold bind at 1, lift at 1. by apply unsigned_field.
Qed.

Lemma convert_unsigned_text f w p l radix up word str args t :
  0 ≤ l ≤ 5 → 2 ≤ radix ≤ 16 →
  let spec := FmtSpec (flag_bits f) w p l in
  let text := unsigned_text radix up spec (unsigned_value l word) in
  convert_unsigned text_sink radix (upper_flag up spec) (VarArg word str :: args) t =
  if decide (length text < BUF_SIZE)%nat then Ret (args, t ++ text) else Undef.
Proof. intros Hl Hr. by apply (convert_unsigned_field radix up (FmtSpec (flag_bits f) w p l)), flag_bits_upper. Qed.

Lemma convert_signed_field spec word str args t c (text := signed_text spec (signed_value (length_mod spec) word)) :
  0 ≤ length_mod spec ≤ 5 → c = ch "d" ∨ c = ch "i" →
  convert text_sink spec c (VarArg word str :: args) t =
  if decide (length text < BUF_SIZE)%nat then Ret (args, t ++ text) else Undef.
Proof.
  intros Hl Hc. unfold convert.
  replace ((c =? ch "d") || (c =? ch "i")) with true by (by destruct Hc as [-> | ->]).
  destruct (signed_arg_spec (flags spec) (width spec) (precision spec) (length_mod spec) word str args Hl) as [Ha Hv].
  replace (FmtSpec _ _ _ _) with spec in Ha by (by destruct spec). rewrite Ha. unfold bind at 1, lift at 1.
  rewrite format_signed_result by (done || apply buf_small).
  fold (signed_text spec (signed_value (length_mod spec) word)). fold text.
  rewrite put_field_buf. unfold bind, lift. case_decide; [|done].
  rewrite text_puts; [done|]. apply number_field_nonzero; [apply sign_of_nonzero|].
  apply numeral_nonzero; lia.
Qed.

Lemma convert_signed_text f w p l word str args t c :
  0 ≤ l ≤ 5 → c = ch "d" ∨ c = ch "i" →
  let spec := FmtSpec (flag_bits f) w p l in
  let text := signed_text spec (signed_value l word) in
  convert text_sink spec c (VarArg word str :: args) t =
  if decide (length text < BUF_SIZE)%nat then Ret (args, t ++ text) else Undef.
Proof. intros Hl Hc. by apply (convert_signed_field (FmtSpec (flag_bits f) w p l)). Qed.

(** ** Every conversion specification

    Any flags in any order, a width and a precision as digits or [*], and a length
    modifier. *)
Inductive number_spec := Digits (ds : list Z) | Star.
Record conv_spec := ConvSpec {
  cs_flags : list Z;
  cs_width : number_spec;
  cs_precision : option number_spec;
  cs_length : Z
}.

Definition number_chars (n : number_spec) : list Z :=
  match n with Digits ds => digit_char false <$> ds | Star => [ch "*"] end.
Definition spec_chars (d : conv_spec) : list Z :=
  cs_flags d ++ number_chars (cs_width d) ++
  match cs_precision d with None => [] | Some n => ch "." :: number_chars n end ++ length_chars (cs_length d).

Definition digits_ok (n : number_spec) : Prop :=
  match n with Digits ds => Forall (λ d, 0 ≤ d < 10) ds | Star => True end.
Definition conv_ok (d : conv_spec) : Prop :=
  Forall (λ c, c ∈ chars "-+ #0") (cs_flags d) ∧ digits_ok (cs_width d) ∧
  match cs_width d with Digits ds => head ds ≠ Some 0 | Star => True end ∧
  match cs_precision d with None => True | Some n => digits_ok n end ∧ 0 ≤ cs_length d ≤ 5.

Definition flag_of (c : Z) : Z :=
  if c =? ch "-" then FMT_FLAG_LEFT else if c =? ch "+" then FMT_FLAG_PLUS
  else if c =? ch " " then FMT_FLAG_SPACE else if c =? ch "#" then FMT_FLAG_HASH else FMT_FLAG_ZERO.
Definition flag_mask (fs : list Z) : Z := foldr (λ c m, Z.lor (flag_of c) m) 0 fs.

(** The number that is meant: the value of the digits, or the next argument; [None]
    when it is no [int]. *)
Definition digits_value (ds : list Z) : Z := fold_left (λ v d, v * 10 + d) ds 0.
Definition number_of (n : number_spec) (args : list vararg) : option (Z * list vararg) :=
  match n, args with
  | Digits ds, _ => if decide (digits_value ds < 2147483648) then Some (digits_value ds, args) else None
  | Star, [] => None
  | Star, a :: args => Some (s32 (arg_word a), args)
  end.

(** The specification that is meant, and the arguments that are left: no width and
    width 0 are the same, a negative width is the flag [-], a negative precision is
    none. *)
Definition meant_spec (d : conv_spec) (args : list vararg) : option (fmt_spec * list vararg) :=
  '(w, args) ← number_of (cs_width d) args;
  if decide (w = -2147483648) then None
  else
    '(p, args) ← match cs_precision d with
                 | None => Some (-1, args)
                 | Some n => '(p, args) ← number_of n args; Some (if p <? 0 then -1 else p, args)
                 end;
    Some (FmtSpec (Z.lor (flag_mask (cs_flags d)) (if w <? 0 then FMT_FLAG_LEFT else 0))
            (match cs_width d with Digits _ => if w =? 0 then -1 else w | Star => Z.abs w end) p (cs_length d), args).

(** *** Parsing *)

Lemma parse_flags_mask fs rest : Forall (λ c, c ∈ chars "-+ #0") fs → stops_flags rest → ∀ m w p l,
  parse_flags (FmtSpec m w p l) (fs ++ rest) = (FmtSpec (Z.lor m (flag_mask fs)) w p l, rest).
Proof.
  intros Hf Hs. induction Hf as [|c fs Hc _ IH]; intros m w p l.
  - cbn [app flag_mask foldr]. by rewrite parse_flags_stop, Z.lor_0_r.
  - cbn [app parse_flags flag_mask foldr]. unfold set_flag. cbn [flags width precision length_mod].
    rewrite Z.lor_assoc. unfold flag_of. rewrite !IH.
    repeat match goal with |- context [c =? ?x] => destruct (Z.eqb_spec c x) as [->|?]; [reflexivity|] end.
    exfalso. revert Hc. cbn [chars map String.list_ascii_of_string]. rewrite !elem_of_cons, elem_of_nil. tauto.
Qed.

Lemma parse_digits_over ds rest : ∀ v, 0 ≤ v < 2147483648 → Forall (λ d, 0 ≤ d < 10) ds →
  2147483648 ≤ fold_left (λ v d, v * 10 + d) ds v → parse_digits v ((digit_char false <$> ds) ++ rest) = Undef.
Proof.
  induction ds as [|d ds IH]; intros v Hv Hd Hge; cbn [fold_left] in Hge; [lia|].
  inversion Hd as [|? ? Hd0 Hds]; subst. cbn [fmap list_fmap app parse_digits]. rewrite digit_char_decimal by done.
  change (ch "0") with 48. change (ch "9") with 57.
  destruct (Z.leb_spec 48 (48 + d)), (Z.leb_spec (48 + d) 57); try lia. cbn [andb].
  replace (48 + d - 48) with d by lia. destruct (decide (v * 10 + d < 2147483648)).
  - rewrite int_of_ok by lia. cbn [mbind outcome_bind]. apply IH; (done || lia).
  - by rewrite int_of_big by lia.
Qed.

Lemma digits_value_pos ds : Forall (λ d, 0 ≤ d < 10) ds → 0 ≤ digits_value ds.
Proof. intros H. by apply fold_digits_ge. Qed.

Lemma parse_digits_value ds rest : Forall (λ d, 0 ≤ d < 10) ds → stops_digits rest →
  parse_digits 0 ((digit_char false <$> ds) ++ rest) =
  if decide (digits_value ds < 2147483648) then Ret (digits_value ds, rest) else Undef.
Proof.
  intros Hd Hs. case_decide.
  - by apply parse_digits_spec.
  - apply parse_digits_over; [lia|done|]. unfold digits_value in *. lia.
Qed.

(** Digits do not start with a star. *)
Lemma digits_no_star ds T : Forall (λ d, 0 ≤ d < 10) ds → (cur T =? ch "*") = false →
  (cur ((digit_char false <$> ds) ++ T) =? ch "*") = false.
Proof.
  intros Hd HT. destruct ds as [|d ds]; [done|]. inversion Hd; subst. cbn [fmap list_fmap app cur hd].
  rewrite digit_char_decimal by done. apply Z.eqb_neq. change (ch "0") with 48. change (ch "*") with 42. lia.
Qed.

Lemma parse_width_meant n m p l T args : digits_ok n → ends T →
  parse_width (FmtSpec m (-1) p l) (number_chars n ++ T) args =
  match number_of n args with
  | Some (w, args) =>
      if decide (w = -2147483648) then Undef
      else Ret (FmtSpec (Z.lor m (if w <? 0 then FMT_FLAG_LEFT else 0))
                  (match n with Digits _ => if w =? 0 then -1 else w | Star => Z.abs w end) p l, T, args)
  | None => Undef
  end.
Proof.
  intros Hn (_ & HT & Hs). unfold parse_width. destruct n as [ds|]; cbn [number_chars number_of digits_ok] in *.
  - rewrite digits_no_star, parse_digits_value by done. pose proof (digits_value_pos ds Hn). case_decide; [|done].
    cbn [mbind outcome_bind]. rewrite decide_False by lia. destruct (Z.ltb_spec (digits_value ds) 0); [lia|].
    by rewrite Z.lor_0_r.
  - cbn [app cur hd]. rewrite Z.eqb_refl. destruct args as [|a args]; [done|].
    unfold va_int, va_word. cbn [mbind outcome_bind tl]. assert (-2147483648 ≤ s32 (arg_word a) < 2147483648) as Hr by zlia.
    set (w := s32 (arg_word a)) in *. destruct (Z.ltb_spec w 0).
    + destruct (decide (w = -2147483648)) as [->|]; [by rewrite int_of_big by lia|].
      rewrite int_of_ok by lia. cbn [mbind outcome_bind]. by rewrite Z.abs_neq by lia.
    + rewrite decide_False by lia. by rewrite Z.lor_0_r, Z.abs_eq by lia.
Qed.

Lemma parse_precision_meant pr m w l T args :
  match pr with None => True | Some n => digits_ok n end → ends T → (cur T =? ch ".") = false →
  parse_precision (FmtSpec m w (-1) l) (match pr with None => [] | Some n => ch "." :: number_chars n end ++ T) args =
  match match pr with
        | None => Some (-1, args)
        | Some n => '(p, args) ← number_of n args; Some (if p <? 0 then -1 else p, args)
        end with
  | Some (p, args) => Ret (FmtSpec m w p l, T, args)
  | None => Undef
  end.
Proof.
  intros Hn (_ & HT & Hs) Hd. unfold parse_precision. destruct pr as [n|]; [|by rewrite app_nil_l, Hd].
  cbn [app cur hd tl]. rewrite Z.eqb_refl. destruct n as [ds|]; cbn [number_chars number_of digits_ok] in *.
  - fold (cur ((digit_char false <$> ds) ++ T)). rewrite digits_no_star, parse_digits_value by done.
    pose proof (digits_value_pos ds Hn). case_decide; [|done]. cbn [mbind outcome_bind option_bind].
    by destruct (Z.ltb_spec (digits_value ds) 0); [lia|].
  - cbn [app hd]. rewrite Z.eqb_refl. by destruct args as [|a args].
Qed.

(** What follows the flags. *)
Lemma number_ends n T : digits_ok n → match n with Digits ds => head ds ≠ Some 0 | Star => True end →
  stops_flags T → stops_flags (number_chars n ++ T).
Proof.
  intros Hn H0 HT. destruct n as [[|d ds]|]; cbn [number_chars fmap list_fmap app digits_ok head] in *; [done| |in_chars].
  inversion Hn; subst. unfold stops_flags. cbn [cur hd]. rewrite digit_char_decimal by done.
  assert (d = 1 ∨ d = 2 ∨ d = 3 ∨ d = 4 ∨ d = 5 ∨ d = 6 ∨ d = 7 ∨ d = 8 ∨ d = 9) as Hd by (assert (d ≠ 0) by congruence; lia).
  clear -Hd. destruct_or! Hd; subst d; in_chars.
Qed.

Lemma parse_meant d R args : conv_ok d → plain_char (cur R) →
  parse_spec (spec_chars d ++ R) args =
  match meant_spec d args with Some (spec, args) => Ret (spec, R, args) | None => Undef end.
Proof.
  intros (Hf & Hw & Hw0 & Hp & Hl) HR. destruct (length_ends R HR _ Hl) as [HT Hdot].
  set (T := length_chars (cs_length d) ++ R) in *.
  assert (ends (match cs_precision d with None => [] | Some n => ch "." :: number_chars n end ++ T)) as HP
    by (destruct (cs_precision d); [split_and!; [in_chars|done..]|done]).
  unfold parse_spec, spec_chars. rewrite <- !app_assoc. fold T.
  rewrite parse_flags_mask by (done || apply number_ends; (done || apply HP)). rewrite Z.lor_0_l.
  rewrite parse_width_meant by done. unfold meant_spec.
  destruct (number_of (cs_width d) args) as [[w args1]|]; [|done]. cbn [mbind option_bind].
  destruct (decide (w = -2147483648)); [done|]. cbn [mbind outcome_bind].
  rewrite parse_precision_meant by done. set (fl := Z.lor _ _). set (wd := match cs_width d with Digits _ => _ | Star => _ end).
  destruct (match cs_precision d with None => Some (-1, args1) | Some _ => _ end) as [[p args2]|]; [|done].
  cbn [mbind outcome_bind option_bind]. change (FmtSpec fl wd p FMT_LEN_DEFAULT) with (set_length (FmtSpec fl wd p 0) 0).
  unfold T. by rewrite (parse_length_spec R HR).
Qed.

(** *** Conversions *)

(** The characters up to the terminating zero. *)
Fixpoint c_text (b : list Z) : list Z :=
  match b with [] => [] | c :: b => if c =? 0 then [] else c :: c_text b end.

Lemma c_text_string s rest : Forall (λ c, c ≠ 0) s → c_text (c_string s rest) = s.
Proof.
  intros H. induction H as [|c s Hc _ IH]; [done|]. unfold c_string in *. cbn [app c_text].
  by rewrite (proj2 (Z.eqb_neq c 0)), IH by done.
Qed.

(** The array of a string argument holds a terminating zero. *)
Definition string_arg (a : vararg) : Prop :=
  match arg_str a with Some b => 0 ∈ b | None => arg_word a = 0 end.

(** [%p] shows a prefix, and at least one digit. *)
Definition pointer_spec (spec : fmt_spec) : fmt_spec :=
  let spec := set_flag spec FMT_FLAG_HASH in if precision spec <? 0 then set_precision spec 1 else spec.

Definition char_text (spec : fmt_spec) (v : Z) : list Z :=
  let pad := replicate (Z.to_nat (width spec - 1)) (ch " ") in
  if has_flag spec FMT_FLAG_LEFT then v :: pad else pad ++ [v].

(** What the conversion [c] prints, and how many arguments it takes; [None] when
    it is undefined: for want of an argument, or when a number does not fit
    [buf].  A string is cut to what fits. *)
Definition conversion_text (spec : fmt_spec) (c : Z) (args : list vararg) : option (list Z * nat) :=
  let l := length_mod spec in
  let arg (f : vararg → option (list Z)) := a ← head args; text ← f a; Some (text, 1%nat) in
  let number (f : Z → list Z) := arg (λ a, let text := f (arg_word a) in
    if decide (length text < BUF_SIZE)%nat then Some text else None) in
  if (c =? ch "d") || (c =? ch "i") then number (λ w, signed_text spec (signed_value l w))
  else if c =? ch "u" then number (λ w, unsigned_text 10 false spec (unsigned_value l w))
  else if c =? ch "x" then number (λ w, unsigned_text 16 false spec (unsigned_value l w))
  else if c =? ch "X" then number (λ w, unsigned_text 16 true spec (unsigned_value l w))
  else if c =? ch "o" then number (λ w, unsigned_text 8 false spec (unsigned_value l w))
  else if c =? ch "b" then number (λ w, unsigned_text 2 false spec (unsigned_value l w))
  else if c =? ch "p" then number (λ w, unsigned_text 16 false (pointer_spec spec) (u64 w))
  else if c =? ch "s" then
    arg (λ a, let s := if arg_word a =? 0 then chars "(null)" else c_text (default [] (arg_str a)) in
              Some (take (BUF_SIZE - 1) (string_field s spec)))
  else if c =? ch "c" then arg (λ a, Some (char_text spec (u8 (s32 (arg_word a)))))
  else if c =? ch "n" then Some ([], 0%nat)
  else Some (ch "%" :: (if c =? 0 then [] else [c]), 0%nat).
Lemma repeat_putc_text n c t : repeat_putc text_sink n c t = Ret ((), t ++ replicate n c).
Proof.
  revert t. induction n as [|n IH]; intros t; cbn [repeat_putc replicate]; [by rewrite app_nil_r|].
  unfold bind, sink_putc, text_sink, modify. rewrite IH. by rewrite <- app_assoc.
Qed.

Lemma convert_char spec word str args t :
  convert text_sink spec (ch "c") (VarArg word str :: args) t = Ret (args, t ++ char_text spec (u8 (s32 word))).
Proof.
  change (convert text_sink spec (ch "c") (VarArg word str :: args)) with
    (let* (val, args) := lift (va_int (VarArg word str :: args)) in
     let pad := if 1 <? width spec then Z.to_nat (width spec - 1) else O in
     do* (if has_flag spec FMT_FLAG_LEFT then ret () else repeat_putc text_sink pad (ch " ")) in
     do* sink_single text_sink (u8 val) in
     do* (if has_flag spec FMT_FLAG_LEFT then repeat_putc text_sink pad (ch " ") else ret ()) in
     ret args).
  unfold va_int, va_word, bind at 1, lift. cbn [mbind outcome_bind arg_word].
  assert ((if 1 <? width spec then Z.to_nat (width spec - 1) else O) = Z.to_nat (width spec - 1)) as ->
    by (destruct (Z.ltb_spec 1 (width spec)); lia).
  unfold char_text. destruct (has_flag spec FMT_FLAG_LEFT); unfold bind, ret, sink_single, text_sink, modify; fold text_sink.
  - rewrite repeat_putc_text. by rewrite <- app_assoc.
  - rewrite repeat_putc_text. by rewrite <- app_assoc.
Qed.

Lemma c_string_split b : 0 ∈ b → ∃ rest, b = c_string (c_text b) rest ∧ Forall (λ c, c ≠ 0) (c_text b).
Proof.
  induction b as [|c b IH]; [by intros ?%not_elem_of_nil|]. cbn [c_text]. destruct (Z.eqb_spec c 0) as [->|Hc].
  - intros _. exists b. by split.
  - intros [?|Hb]%elem_of_cons; [congruence|]. destruct (IH Hb) as (rest & E & Hf). exists rest.
    split; [|by constructor]. unfold c_string in *. cbn [app]. by rewrite <- E.
Qed.

Lemma convert_str spec a args t : string_arg a →
  let s := if arg_word a =? 0 then chars "(null)" else c_text (default [] (arg_str a)) in
  convert text_sink spec (ch "s") (a :: args) t = Ret (args, t ++ take (BUF_SIZE - 1) (string_field s spec)).
Proof.
  intros Ha s.
  change (convert text_sink spec (ch "s") (a :: args)) with
    (let* (str, args) := lift (va_str (a :: args)) in
     let* (_, b) := lift (format_string str buf (Z.of_nat BUF_SIZE) spec) in
     do* sink_puts text_sink b in
     ret args).
  assert (length buf = BUF_SIZE) as Hb by apply length_replicate.
  assert (∃ str rest, va_str (a :: args) = Ret (str, args) ∧ default (chars "(null)" ++ [0]) str = c_string s rest ∧
    Forall (λ c, c ≠ 0) s) as (str & rest & Ev & Es & Hs).
  { unfold va_str, string_arg in *. subst s. destruct (Z.eqb_spec (arg_word a) 0) as [E0|E0].
    - exists None, []. split; [done|]. split; [done|]. repeat constructor; vm_compute; congruence.
    - destruct (arg_str a) as [b|]; [|done]. destruct (c_string_split b Ha) as (rest & E & Hf).
      exists (Some b), rest. by split_and!. }
  rewrite Ev. unfold bind at 1, lift at 1.
  assert (format_string str buf (Z.of_nat BUF_SIZE) spec = format_string (Some (c_string s rest)) buf (Z.of_nat BUF_SIZE) spec) as ->
    by (unfold format_string; rewrite Es; done).
  rewrite <- Hb at 1. rewrite format_string_result by (first [done|rewrite Hb; unfold BUF_SIZE; lia]).
  rewrite Hb, put_field_buf, decide_True by (rewrite length_take; unfold BUF_SIZE; lia).
  unfold bind, lift. rewrite text_puts; [done|]. apply Forall_take. unfold string_field.
  assert (∀ n, Forall (λ c, c ≠ 0) (replicate n (ch " "))) as Hpad by (intros n; apply Forall_replicate; vm_compute; congruence).
  repeat case_match; repeat (apply Forall_app; split); try done; by apply Forall_take.
Qed.

(** The conversions that need no argument. *)
Lemma convert_other spec c args t : (c ∉ chars "diuxXobpsc") →
  convert text_sink spec c args t =
  Ret (args, t ++ if decide (c = ch "n") then [] else ch "%" :: (if c =? 0 then [] else [c])).
Proof.
  intros Hc. unfold convert.
  repeat match goal with |- context [c =? ch ?x] =>
    lazymatch x with "n"%char => fail | _ => idtac end;
    destruct (Z.eqb_spec c (ch x)) as [->|?]; [exfalso; apply Hc; in_chars|]; cbn [orb] end.
  destruct (Z.eqb_spec c (ch "n")) as [->|Hn].
  - rewrite decide_True by done. by rewrite app_nil_r.
  - rewrite decide_False by done. unfold bind, sink_putc, text_sink, modify. destruct (c =? 0); cbn [sink_single]; unfold ret.
    + done.
    + by rewrite <- app_assoc.
Qed.

(** A conversion of one argument to a field. *)
Ltac one_field text :=
  match goal with |- context [conversion_text ?spec ?c (?a :: ?args)] =>
    change (conversion_text spec c (a :: args)) with
      (x ← (if decide (length text < BUF_SIZE)%nat then Some text else None); Some (x, 1%nat))
  end; case_decide; reflexivity.

Ltac unsigned_field_of radix up :=
  match goal with |- convert text_sink ?spec ?c (VarArg ?word ?str :: ?args) ?t = _ =>
    change (convert text_sink spec c (VarArg word str :: args) t) with
      (convert_unsigned text_sink radix (upper_flag up spec) (VarArg word str :: args) t);
    rewrite convert_unsigned_field by (done || lia);
    one_field (unsigned_text radix up spec (unsigned_value (length_mod spec) word))
  end.

Lemma convert_meant spec c args t :
  0 ≤ length_mod spec ≤ 5 → no_upper spec → (c = ch "s" → Forall string_arg (take 1 args)) →
  convert text_sink spec c args t =
  match conversion_text spec c args with Some (text, n) => Ret (drop n args, t ++ text) | None => Undef end.
Proof.
  intros Hl Hup Hs. destruct (decide (c ∈ chars "diuxXobpsc")) as [Hc|Hc]; cycle 1.
  { rewrite convert_other by done. unfold conversion_text.
    repeat match goal with |- context [c =? ch ?x] =>
      lazymatch x with "n"%char => fail | _ => idtac end;
      rewrite (proj2 (Z.eqb_neq c (ch x))) by (intros ->; apply Hc; in_chars) end.
    cbn [orb]. by destruct (Z.eqb_spec c (ch "n")), (decide (c = ch "n")). }
  assert (c = ch "d" ∨ c = ch "i" ∨ c = ch "u" ∨ c = ch "x" ∨ c = ch "X" ∨ c = ch "o" ∨ c = ch "b" ∨ c = ch "p" ∨
    c = ch "s" ∨ c = ch "c") as Hx.
  { revert Hc. cbn [chars map String.list_ascii_of_string]. rewrite !elem_of_cons, elem_of_nil. tauto. }
  clear Hc. destruct args as [|[word str] args].
  { assert (signed_arg spec [] = Undef) as E1 by (unfold signed_arg; by repeat case_match).
    assert (∀ spec, unsigned_arg spec [] = Undef) as E2 by (intros; unfold unsigned_arg; by repeat case_match).
    unfold convert, convert_unsigned, bind, lift. rewrite E1, !E2. destruct_or! Hx; subst c; reflexivity. }
  destruct_or! Hx; subst c.
  - rewrite convert_signed_field by (done || by left). one_field (signed_text spec (signed_value (length_mod spec) word)).
  - rewrite convert_signed_field by (done || by right). one_field (signed_text spec (signed_value (length_mod spec) word)).
  - unsigned_field_of 10 false.
  - unsigned_field_of 16 false.
  - unsigned_field_of 16 true.
  - unsigned_field_of 8 false.
  - unsigned_field_of 2 false.
  - change (convert text_sink spec (ch "p") (VarArg word str :: args) t) with
      ((let* (_, b) := lift (format_unsigned (u64 word) buf 16 (upper_flag false (pointer_spec spec))) in
        do* sink_puts text_sink b in ret args) t).
    rewrite unsigned_field; [|apply u64_range|lia|].
    + one_field (unsigned_text 16 false (pointer_spec spec) (u64 word)).
    + unfold pointer_spec. case_match; apply (no_upper_set spec FMT_FLAG_HASH Hup eq_refl).
  - rewrite convert_str; [done|]. specialize (Hs eq_refl). by inversion Hs.
  - by rewrite convert_char.
Qed.

Lemma meant_spec_ok d args spec args' : conv_ok d → meant_spec d args = Some (spec, args') →
  0 ≤ length_mod spec ≤ 5 ∧ no_upper spec.
Proof.
  intros (_ & _ & _ & _ & Hl) E. unfold meant_spec in E.
  destruct (number_of (cs_width d) args) as [[w args1]|]; [|done]. cbn [mbind option_bind] in E.
  destruct (decide (w = -2147483648)); [done|].
  destruct (match cs_precision d with None => Some (-1, args1) | Some _ => _ end) as [[p args2]|]; [|done].
  cbn [mbind option_bind] in E. injection E as <- _. split; [exact Hl|].
  unfold no_upper. cbn [flags]. rewrite Z.land_lor_distr_l.
  assert (Z.land (flag_mask (cs_flags d)) FMT_FLAG_UPPER = 0) as ->; [|by destruct (w <? 0)].
  clear. induction (cs_flags d) as [|c fs IH]; [done|]. cbn [flag_mask foldr]. fold (flag_mask fs).
  rewrite Z.land_lor_distr_l, IH, Z.lor_0_r. unfold flag_of. by repeat case_match.
Qed.

(** Every character of a specification is one that the parser looks for. *)
Lemma spec_chars_set d : conv_ok d → Forall (λ c, c ∈ chars "-+ #0123456789*.hlz") (spec_chars d).
Proof.
  intros (Hf & Hw & _ & Hp & Hl).
  assert (∀ n, digits_ok n → Forall (λ c, c ∈ chars "-+ #0123456789*.hlz") (number_chars n)) as Hn.
  { intros [ds|] H; cbn [number_chars digits_ok] in *; [|apply Forall_singleton; in_chars].
    apply Forall_fmap. eapply Forall_impl; [exact H|]. intros d' Hd. cbv beta in Hd. unfold compose. rewrite digit_char_decimal by lia.
    assert (d' = 0 ∨ d' = 1 ∨ d' = 2 ∨ d' = 3 ∨ d' = 4 ∨ d' = 5 ∨ d' = 6 ∨ d' = 7 ∨ d' = 8 ∨ d' = 9) as Hc by lia.
    clear -Hc. destruct_or! Hc; subst d'; in_chars. }
  unfold spec_chars. rewrite !Forall_app. split_and!.
  - eapply Forall_impl; [exact Hf|]. intros c Hc. cbv beta in *. revert Hc. simpl. set_solver.
  - by apply Hn.
  - destruct (cs_precision d); [|done]. constructor; [in_chars|by apply Hn].
  - assert (cs_length d = 0 ∨ cs_length d = 1 ∨ cs_length d = 2 ∨ cs_length d = 3 ∨ cs_length d = 4 ∨ cs_length d = 5) as H by lia.
    destruct_or! H; rewrite H; apply (bool_decide_unpack _); vm_compute; exact I.
Qed.

Lemma interpret_conv d R args t : conv_ok d → plain_char (cur R) → spec_chars d ≠ [] ∨ cur R ≠ ch "%" →
  interpret text_sink (ch "%" :: spec_chars d ++ R) args t =
  match meant_spec d args with
  | Some (spec, args) => bind (convert text_sink spec (cur R) args) (interpret text_sink (tl R)) t
  | None => Undef
  end.
Proof.
  intros Hd HR Hne. pose proof (parse_meant d R args Hd HR) as HP. pose proof (spec_chars_set d Hd) as Hset.
  unfold interpret at 1. set (format := spec_chars d ++ R) in *.
  cbn [format_loop]. rewrite Z.eqb_refl. cbn [negb].
  assert ((cur format =? ch "%") = false) as ->.
  { apply Z.eqb_neq. unfold format. destruct (spec_chars d) as [|x r]; [by destruct Hne|].
    apply Forall_cons in Hset as [Hx _]. cbn [app cur hd]. intros ->. revert Hx. apply (bool_decide_unpack _). vm_compute. exact I. }
  assert (length (tl R) ≤ length format)%nat as Hlen.
  { pose proof (length_tl R). unfold format. rewrite length_app. lia. }
  rewrite HP. unfold bind, lift. destruct (meant_spec d args) as [[spec args']|]; [|done].
  destruct (convert text_sink spec (cur R) args' t) as [[args2 s']| | |]; [|done..].
  apply format_loop_fuel; simpl; lia.
Qed.

(** C11. What the interpreter prints, piece by piece.  It reads every conversion
    specification back as it is written - flags in any order and number, width and
    precision as digits or as [*], any length modifier -, takes the arguments of the
    stars, and prints what the conversion means: the integer conversions the
    argument, converted to the type that the length modifier names, as the field of
    that specification; [%p] an address, [%s] a string or "(null)", cut to the
    precision and to what fits the buffer, [%c] a character, [%n] nothing, and an
    unknown conversion, or the end of the format, a percent sign and itself.  Then it
    goes on with the rest of the format.  A width, precision or width argument that is no
    [int], a missing argument, and a number whose field does not fit [buf] are
    undefined.  [%%] prints a percent sign and another character itself. *)
Theorem directive_spec d R args t :
  conv_ok d → plain_char (cur R) → spec_chars d ≠ [] ∨ cur R ≠ ch "%" →
  (cur R = ch "s" → ∀ spec a args', meant_spec d args = Some (spec, a :: args') → string_arg a) →
  interpret text_sink (ch "%" :: spec_chars d ++ R) args t =
    match meant_spec d args with
    | Some (spec, args) =>
        match conversion_text spec (cur R) args with
        | Some (text, n) => interpret text_sink (tl R) (drop n args) (t ++ text)
        | None => Undef
        end
    | None => Undef
    end ∧
  interpret text_sink (ch "%" :: ch "%" :: R) args t = interpret text_sink R args (t ++ [ch "%"]) ∧
  ∀ c, c ≠ ch "%" → interpret text_sink (c :: R) args t = interpret text_sink R args (t ++ [c]).
Proof.
  intros Hd HR Hne Hs. split; [|split].
  - rewrite interpret_conv by done. destruct (meant_spec d args) as [[spec args']|] eqn:E; [|done].
    destruct (meant_spec_ok d args spec args' Hd E) as (Hl & Hup). unfold bind.
    rewrite convert_meant; [by destruct (conversion_text _ _ _) as [[text k]|]|done|done|].
    intros Es. destruct args' as [|a args']; [constructor|]. cbn [take]. apply Forall_singleton. by eapply Hs.
  - unfold interpret at 1. cbn [format_loop]. rewrite Z.eqb_refl. cbn [negb cur hd tl]. rewrite Z.eqb_refl.
    unfold bind, sink_putc, text_sink, modify. apply format_loop_fuel; cbn [length]; lia.
  - intros c Hc. unfold interpret. cbn [format_loop length]. rewrite (proj2 (Z.eqb_neq _ _)) by done. done.
Qed.

(** ** Witnesses *)

(** Flags in another order, a width from an argument, and the number 0x12345 as an
    [unsigned short]. *)
Lemma directive_spec_witness :
  interpret text_sink (chars "%#-*.4hx;") [VarArg 8 None; VarArg 0x12345 None] [] =
    interpret text_sink (chars ";") [] (chars "0x2345  ").
Proof.
  refine (proj1 (directive_spec (ConvSpec (chars "#-") Star (Some (Digits [4])) FMT_LEN_H) (chars "x;")
    [VarArg 8 None; VarArg 0x12345 None] [] _ _ _ _)).
  - split; [apply (bool_decide_unpack _); vm_compute; exact I|]. split; [done|]. split; [done|].
    split; [apply Forall_singleton; lia|unfold FMT_LEN_H; cbn; lia].
  - apply (bool_decide_unpack _). vm_compute. exact I.
  - right. vm_compute. congruence.
  - intros E. vm_compute in E. congruence.
Defined.
