(* ===== verification/Templates.v ===== *)
(** * Formats made of plain directives

    What [printf] and [serial_printf] print for a format that is written as a
    sequence of literal text and of directives without flags, width or precision,
    as all formats of the kernel's log messages are. *)

From S2P Require Import Prelude StrUtils Printf.
From Stdlib Require Import Ascii.

(** One part of a format with its argument. *)
Inductive piece :=
  | Lit (s : list Z)
  | Dec (w : Z)                    (** [%d] *)
  | Ptr (w : Z)                    (** [%p] *)
  | LLU (w : Z)                    (** [%llu] *)
  | Str (a : Z) (s : list Z).      (** [%s], a string at the address [a] *)

Definition piece_format (p : piece) : list Z :=
  match p with
  | Lit s => s
  | Dec _ => chars "%d"
  | Ptr _ => chars "%p"
  | LLU _ => chars "%llu"
  | Str _ _ => chars "%s"
  end.
Definition piece_args (p : piece) : list vararg :=
  match p with
  | Lit _ => []
  | Dec w | Ptr w | LLU w => [VarArg w None]
  | Str a s => [VarArg a (Some (s ++ [0]))]
  end.

(** A number in decimal, a number in hexadecimal after [0x], 0 being plain. *)
Definition dec_text (v : Z) : list Z := (if v <? 0 then chars "-" else []) ++ numeral false 10 (Z.abs v).
Definition hex_text (v : Z) : list Z := (if v =? 0 then [] else chars "0x") ++ numeral false 16 v.

Definition piece_text (p : piece) : list Z :=
  match p with
  | Lit s => s
  | Dec w => dec_text (s32 w)
  | Ptr w => hex_text (u64 w)
  | LLU w => numeral false 10 (u64 w)
  | Str _ s => s
  end.

(** Text without NUL and without [%]; a string must fit the buffer. *)
Definition piece_ok (p : piece) : Prop :=
  match p with
  | Lit s => Forall (λ c, c ≠ ch "%" ∧ c ≠ 0) s
  | Str a s => a ≠ 0 ∧ Forall (λ c, c ≠ 0) s ∧ (length s < BUF_SIZE)%nat
  | _ => True
  end.

#[global] Instance piece_ok_dec p : Decision (piece_ok p).
Proof. destruct p; apply _. Defined.

Definition format_of (ps : list piece) : list Z := concat (piece_format <$> ps).
Definition args_of (ps : list piece) : list vararg := concat (piece_args <$> ps).
Definition text_of_pieces (ps : list piece) : list Z := concat (piece_text <$> ps).

(** ** Each directive *)

Lemma interpret_literal c rest args t :
  c ≠ ch "%" → interpret text_sink (c :: rest) args t = interpret text_sink rest args (t ++ [c]).
Proof.
  intros Hc. unfold interpret. cbn [length]. cbn [format_loop]. apply Z.eqb_neq in Hc. rewrite Hc. cbn [negb]. done.
Qed.

Lemma interpret_text s : ∀ rest args t, Forall (λ c, c ≠ ch "%" ∧ c ≠ 0) s →
  interpret text_sink (s ++ rest) args t = interpret text_sink rest args (t ++ s).
Proof.
  induction s as [|c s IH]; intros rest args t Hs; [by rewrite app_nil_r|].
  apply Forall_cons in Hs as [[Hc _] Hs]. cbn [app]. rewrite interpret_literal, IH by done. by rewrite <- app_assoc.
Qed.

Definition plain : flag_set := FlagSet false false false false false.

Lemma numeral_short up radix v : 2 ≤ radix ≤ 16 → 0 ≤ v < 2 ^ 64 → (length (numeral up radix v) ≤ 64)%nat.
Proof. intros Hr Hv. by apply length_numeral. Qed.

Lemma interpret_dec w rest args t :
  interpret text_sink (chars "%d" ++ rest) (VarArg w None :: args) t = interpret text_sink rest args (t ++ dec_text (s32 w)).
Proof.
  change (chars "%d" ++ rest) with (ch "%" :: directive plain (-1) (-1) 0 ++ ch "d" :: rest).
  rewrite interpret_directive; [|by left|unfold precision_ok; lia|lia|in_chars].
  unfold bind. rewrite convert_signed_text by (first [lia|by left]).
  assert (signed_text (FmtSpec (flag_bits plain) (-1) (-1) 0) (signed_value 0 w) = dec_text (s32 w)) as -> by done.
  assert (0 ≤ Z.abs (s32 w) < 2 ^ 64) by (unfold s32; zlia).
  rewrite decide_True; [done|]. unfold dec_text, BUF_SIZE. rewrite length_app.
  pose proof (numeral_short false 10 (Z.abs (s32 w)) ltac:(lia) ltac:(lia)). case_test; cbn [length chars map String.list_ascii_of_string]; lia.
Qed.

Lemma interpret_llu w rest args t :
  interpret text_sink (chars "%llu" ++ rest) (VarArg w None :: args) t =
  interpret text_sink rest args (t ++ numeral false 10 (u64 w)).
Proof.
  change (chars "%llu" ++ rest) with (ch "%" :: directive plain (-1) (-1) FMT_LEN_LL ++ ch "u" :: rest).
  rewrite interpret_directive; [|by left|unfold precision_ok; lia|unfold FMT_LEN_LL; lia|in_chars].
  unfold bind. change (convert text_sink ?s (ch "u")) with (convert_unsigned text_sink 10 (upper_flag false s)).
  rewrite convert_unsigned_text by (unfold FMT_LEN_LL; lia).
  assert (unsigned_text 10 false (FmtSpec (flag_bits plain) (-1) (-1) FMT_LEN_LL) (unsigned_value FMT_LEN_LL w) =
    numeral false 10 (u64 w)) as -> by done.
  rewrite decide_True; [done|]. unfold BUF_SIZE.
  pose proof (numeral_short false 10 (u64 w) ltac:(lia) (u64_range w)). lia.
Qed.

Lemma interpret_ptr w rest args t :
  interpret text_sink (chars "%p" ++ rest) (VarArg w None :: args) t =
  interpret text_sink rest args (t ++ hex_text (u64 w)).
Proof.
  change (chars "%p" ++ rest) with (ch "%" :: directive plain (-1) (-1) 0 ++ ch "p" :: rest).
  rewrite interpret_directive; [|by left|unfold precision_ok; lia|lia|in_chars].
  pose proof (u64_range w) as Hw. set (spec := FmtSpec FMT_FLAG_HASH (-1) 1 0).
  assert (convert text_sink (FmtSpec (flag_bits plain) (-1) (-1) 0) (ch "p") (VarArg w None :: args) t =
    Ret (args, t ++ hex_text (u64 w))) as Hc; [|unfold bind; by rewrite Hc].
  change (convert text_sink (FmtSpec (flag_bits plain) (-1) (-1) 0) (ch "p") (VarArg w None :: args)) with
    (let* (val, args) := lift (va_ulong (VarArg w None :: args)) in
     let* (_, b) := lift (format_unsigned val buf 16 spec) in
     do* sink_puts text_sink b in
     ret args).
  unfold va_ulong, va_word, bind at 1, lift at 1. cbn [arg_word mbind outcome_bind].
  rewrite format_unsigned_result by (done || lia || apply buf_small).
  pose proof (length_numeral false 16 (u64 w) ltac:(lia) Hw) as Hlen.
  set (text := number_field _ _ _).
  assert (text = hex_text (u64 w)) as Et.
  { unfold text, number_field, hex_text, prefix_of. cbn [precision width spec].
    change (has_flag spec FMT_FLAG_LEFT) with false. change (has_flag spec FMT_FLAG_ZERO) with false.
    change (has_flag spec FMT_FLAG_HASH) with true. change (has_flag spec FMT_FLAG_UPPER) with false. cbv iota.
    replace (Z.to_nat 1 - length (numeral false 16 (u64 w)))%nat with 0%nat by lia. cbn [replicate app andb].
    change (Z.to_nat (-1)) with 0%nat. cbn [Nat.sub replicate app]. change (16 =? 16) with true. cbv iota.
    by destruct (u64 w =? 0). }
  rewrite put_field_buf. unfold bind, lift. rewrite decide_True.
  - rewrite text_puts; [by rewrite Et|]. apply number_field_nonzero; [apply prefix_of_nonzero|]. apply numeral_nonzero; lia.
  - rewrite Et. unfold hex_text, BUF_SIZE. rewrite length_app. case_test; cbn [length chars map String.list_ascii_of_string]; lia.
Qed.

Lemma interpret_str a s rest args t : a ≠ 0 → Forall (λ c, c ≠ 0) s → (length s < BUF_SIZE)%nat →
  interpret text_sink (chars "%s" ++ rest) (VarArg a (Some (s ++ [0])) :: args) t =
  interpret text_sink rest args (t ++ s).
Proof.
  intros Ha Hs Hlen. change (chars "%s" ++ rest) with (ch "%" :: directive plain (-1) (-1) 0 ++ ch "s" :: rest).
  rewrite interpret_directive; [|by left|unfold precision_ok; lia|lia|in_chars].
  set (spec := FmtSpec (flag_bits plain) (-1) (-1) 0).
  assert (convert text_sink spec (ch "s") (VarArg a (Some (s ++ [0])) :: args) t = Ret (args, t ++ s)) as Hc; [|unfold bind; by rewrite Hc].
  change (convert text_sink spec (ch "s") (VarArg a (Some (s ++ [0])) :: args)) with
    (let* (str, args) := lift (va_str (VarArg a (Some (s ++ [0])) :: args)) in
     let* (_, b) := lift (format_string str buf (Z.of_nat BUF_SIZE) spec) in
     do* sink_puts text_sink b in
     ret args).
  unfold va_str. cbn [arg_word arg_str]. rewrite (proj2 (Z.eqb_neq a 0)) by done. unfold bind at 1, lift at 1.
  assert (length buf = BUF_SIZE) as Hb by apply length_replicate. change (s ++ [0]) with (c_string s []). rewrite <- Hb at 1.
  rewrite format_string_result by (first [done|rewrite Hb; unfold BUF_SIZE; lia]).
  assert (take (length buf - 1) (string_field s spec) = s) as ->.
  { unfold string_field. cbn [precision width spec]. change (has_flag spec FMT_FLAG_LEFT) with false.
    cbn [Z.ltb Z.compare Z.to_nat Nat.sub replicate app]. rewrite Hb. apply take_ge. unfold BUF_SIZE in *. lia. }
  rewrite put_field_buf, decide_True by done. unfold bind, lift. by rewrite text_puts.
Qed.

(** ** A whole format *)

Lemma interpret_pieces ps : ∀ rest args t, Forall piece_ok ps →
  interpret text_sink (format_of ps ++ rest) (args_of ps ++ args) t = interpret text_sink rest args (t ++ text_of_pieces ps).
Proof.
  induction ps as [|p ps IH]; intros rest args t Hok; [by rewrite app_nil_r|].
  apply Forall_cons in Hok as [Hp Hok]. unfold format_of, args_of, text_of_pieces in *. cbn [fmap list_fmap concat].
  rewrite <- !app_assoc.
  transitivity (interpret text_sink (concat (piece_format <$> ps) ++ rest) (concat (piece_args <$> ps) ++ args) (t ++ piece_text p));
    [|rewrite (IH rest args (t ++ piece_text p) Hok); by rewrite <- app_assoc]. clear IH.
  destruct p as [s|w|w|w|a s]; cbn [piece_format piece_args piece_text app].
  - by apply interpret_text.
  - apply interpret_dec.
  - apply interpret_ptr.
  - apply interpret_llu.
  - destruct Hp as (H1 & H2 & H3). by apply interpret_str.
Qed.

(** The text that the pieces denote is what is printed, and it has no NUL. *)
Lemma pieces_render ps : Forall piece_ok ps → interpret text_sink (format_of ps) (args_of ps) [] = Ret ((), text_of_pieces ps).
Proof.
  intros Hok. pose proof (interpret_pieces ps [] [] [] Hok) as H. by rewrite !app_nil_r in H.
Qed.

Lemma chars_nonzero p : piece_ok p → Forall (λ c, c ≠ 0) (piece_text p).
Proof.
  destruct p as [s|w|w|w|a s]; cbn [piece_ok piece_text].
  - intros H. eapply Forall_impl; [exact H|]. by intros ? [_ ?].
  - intros _. unfold dec_text. apply Forall_app. split; [case_test; repeat constructor; vm_compute; congruence|].
    apply numeral_nonzero; lia.
  - intros _. unfold hex_text. apply Forall_app. split; [case_test; repeat constructor; vm_compute; congruence|].
    apply numeral_nonzero; [lia|apply u64_range].
  - intros _. apply numeral_nonzero; [lia|apply u64_range].
  - tauto.
Qed.

Lemma pieces_no_nul ps : Forall piece_ok ps → 0 ∉ text_of_pieces ps.
Proof.
  intros Hok. unfold text_of_pieces. rewrite list_elem_of_In, in_concat. intros (l & Hl & H0).
  apply list_elem_of_In, list_elem_of_fmap in Hl as (p & -> & Hp). apply list_elem_of_In in H0.
  pose proof (chars_nonzero p (proj1 (Forall_forall _ _) Hok p Hp)) as H. by apply (proj1 (Forall_forall _ _) H 0 H0).
Qed.
