(* ===== verification/Percpu.v ===== *)
(** * Per-CPU data ([kernel/sched/percpu.c])

    The state is the table [percpus] with [ncpu], the map from APIC identifiers
    to indices, the structure used before the table is set up, the memory of
    the page allocator, and what the executing processor has of its own: its
    APIC identifier, its interrupt flag and its loaded descriptor tables.  A
    [struct percpu *] is a reference to one of those structures. *)

From S2P Require Import Prelude Memory Kalloc.

Definition MAX_CPUS : Z := 64.

(** ** Data *)

Record tss64 := Tss64 {
  rsp0 : Z; rsp1 : Z; rsp2 : Z;
  ist1 : Z; ist2 : Z; ist3 : Z; ist4 : Z; ist5 : Z; ist6 : Z; ist7 : Z;
  iopb_offset : Z
}.
Definition tss_zero : tss64 := Tss64 0 0 0 0 0 0 0 0 0 0 0.
(** [sizeof(struct tss64)], packed: 4 + 3 * 8 + 8 + 7 * 8 + 8 + 2 + 2. *)
Definition TSS_SIZE : Z := 104.

Record gdt_entry := GdtEntry {
  ge_limit_low : Z; ge_base_low : Z; ge_base_middle : Z; ge_access : Z; ge_granularity : Z;
  ge_base_high : Z
}.

Record gdt_tss_entry := GdtTssEntry {
  te_limit_low : Z; te_base_low : Z; te_base_middle1 : Z; te_access : Z;
  te_limit_high_flags : Z; te_base_middle2 : Z; te_base_high : Z; te_reserved : Z
}.

Record gdt_ptr := GdtPtr { gp_limit : Z; gp_base : Z }.

(** The entries 0 to 4 of [cpu->gdt] and the TSS entry in the slots 5 and 6;
    the last 24 bytes of the array are never written. *)
Record gdt_table := GdtTable {
  gdt_null : gdt_entry; gdt_kcode : gdt_entry; gdt_kdata : gdt_entry;
  gdt_ucode : gdt_entry; gdt_udata : gdt_entry; gdt_tss : gdt_tss_entry
}.
Definition GDT_BYTES : Z := 8 * 8 + 16.
Definition entry_zero : gdt_entry := GdtEntry 0 0 0 0 0 0.
Definition gdt_zero : gdt_table :=
  GdtTable entry_zero entry_zero entry_zero entry_zero entry_zero (GdtTssEntry 0 0 0 0 0 0 0 0).

(** A reference to a [struct percpu]: the early one, or [&percpus[i]]. *)
Inductive cpu_ref := EarlyCpu | Cpu (i : nat).
#[export] Instance cpu_ref_eq_dec : EqDecision cpu_ref.
Proof. solve_decision. Defined.

Record percpu := Percpu {
  pc_self : option cpu_ref;
  apic_id : Z;
  cpu_index : Z;
  is_bsp : bool;
  started : bool;
  ncli : Z;
  intena : Z;
  current_thread : Z;
  idle_thread : Z;
  run_queue : Z;
  scheduler_ctx : Z;
  num_threads : Z;
  scheduler_ready : bool;
  timer_ticks : Z;
  tss : tss64;
  int_stack : Z;
  kstack : Z;
  gdt : gdt_table;
  pc_gdt_ptr : gdt_ptr
}.

(** [memset(cpu, 0, sizeof(struct percpu))] *)
Definition percpu_zero : percpu :=
  Percpu None 0 0 false false 0 0 0 0 0 0 0 false 0 tss_zero 0 0 gdt_zero (GdtPtr 0 0).

(** The fields the code assigns. *)
Definition set_ncli (v : Z) (c : percpu) : percpu :=
  Percpu (pc_self c) (apic_id c) (cpu_index c) (is_bsp c) (started c) v (intena c)
    (current_thread c) (idle_thread c) (run_queue c) (scheduler_ctx c) (num_threads c)
    (scheduler_ready c) (timer_ticks c) (tss c) (int_stack c) (kstack c) (gdt c) (pc_gdt_ptr c).
Definition set_intena (v : Z) (c : percpu) : percpu :=
  Percpu (pc_self c) (apic_id c) (cpu_index c) (is_bsp c) (started c) (ncli c) v
    (current_thread c) (idle_thread c) (run_queue c) (scheduler_ctx c) (num_threads c)
    (scheduler_ready c) (timer_ticks c) (tss c) (int_stack c) (kstack c) (gdt c) (pc_gdt_ptr c).
Definition set_started (v : bool) (c : percpu) : percpu :=
  Percpu (pc_self c) (apic_id c) (cpu_index c) (is_bsp c) v (ncli c) (intena c)
    (current_thread c) (idle_thread c) (run_queue c) (scheduler_ctx c) (num_threads c)
    (scheduler_ready c) (timer_ticks c) (tss c) (int_stack c) (kstack c) (gdt c) (pc_gdt_ptr c).
Definition set_current (v : Z) (c : percpu) : percpu :=
  Percpu (pc_self c) (apic_id c) (cpu_index c) (is_bsp c) (started c) (ncli c) (intena c)
    v (idle_thread c) (run_queue c) (scheduler_ctx c) (num_threads c)
    (scheduler_ready c) (timer_ticks c) (tss c) (int_stack c) (kstack c) (gdt c) (pc_gdt_ptr c).
Definition set_queue (q n : Z) (c : percpu) : percpu :=
  Percpu (pc_self c) (apic_id c) (cpu_index c) (is_bsp c) (started c) (ncli c) (intena c)
    (current_thread c) (idle_thread c) q (scheduler_ctx c) n
    (scheduler_ready c) (timer_ticks c) (tss c) (int_stack c) (kstack c) (gdt c) (pc_gdt_ptr c).
Definition set_sched (idle ctx : Z) (ready : bool) (c : percpu) : percpu :=
  Percpu (pc_self c) (apic_id c) (cpu_index c) (is_bsp c) (started c) (ncli c) (intena c)
    (current_thread c) idle (run_queue c) ctx (num_threads c)
    ready (timer_ticks c) (tss c) (int_stack c) (kstack c) (gdt c) (pc_gdt_ptr c).
Definition set_stacks (st ks : Z) (c : percpu) : percpu :=
  Percpu (pc_self c) (apic_id c) (cpu_index c) (is_bsp c) (started c) (ncli c) (intena c)
    (current_thread c) (idle_thread c) (run_queue c) (scheduler_ctx c) (num_threads c)
    (scheduler_ready c) (timer_ticks c) (tss c) st ks (gdt c) (pc_gdt_ptr c).
Definition set_tss (t : tss64) (c : percpu) : percpu :=
  Percpu (pc_self c) (apic_id c) (cpu_index c) (is_bsp c) (started c) (ncli c) (intena c)
    (current_thread c) (idle_thread c) (run_queue c) (scheduler_ctx c) (num_threads c)
    (scheduler_ready c) (timer_ticks c) t (int_stack c) (kstack c) (gdt c) (pc_gdt_ptr c).
Definition set_gdt (g : gdt_table) (p : gdt_ptr) (c : percpu) : percpu :=
  Percpu (pc_self c) (apic_id c) (cpu_index c) (is_bsp c) (started c) (ncli c) (intena c)
    (current_thread c) (idle_thread c) (run_queue c) (scheduler_ctx c) (num_threads c)
    (scheduler_ready c) (timer_ticks c) (tss c) (int_stack c) (kstack c) g p.

(** The executing processor. *)
Record processor := Processor {
  hw_apic_id : Z;        (* EBX[31:24] of CPUID leaf 1 *)
  hw_if : bool;          (* interrupt flag of EFLAGS *)
  hw_gdtr : gdt_ptr;
  hw_cs : Z; hw_ds : Z;  (* DS, ES and SS are loaded together *)
  hw_tr : Z
}.

Record system := System {
  sy_kmem : kmem;
  percpus : list percpu;
  ncpu : Z;
  apic_to_cpu : list Z;
  early_bsp_percpu : percpu;
  percpu_fully_initialized : bool;
  sy_hw : processor
}.

Definition set_kmem (k : kmem) (s : system) : system :=
  System k (percpus s) (ncpu s) (apic_to_cpu s) (early_bsp_percpu s)
    (percpu_fully_initialized s) (sy_hw s).
Definition set_percpus (l : list percpu) (s : system) : system :=
  System (sy_kmem s) l (ncpu s) (apic_to_cpu s) (early_bsp_percpu s)
    (percpu_fully_initialized s) (sy_hw s).
Definition set_apic_map (l : list Z) (s : system) : system :=
  System (sy_kmem s) (percpus s) (ncpu s) l (early_bsp_percpu s)
    (percpu_fully_initialized s) (sy_hw s).
Definition set_hw (h : processor) (s : system) : system :=
  System (sy_kmem s) (percpus s) (ncpu s) (apic_to_cpu s) (early_bsp_percpu s)
    (percpu_fully_initialized s) h.
Definition set_if (b : bool) (s : system) : system :=
  let h := sy_hw s in
  set_hw (Processor (hw_apic_id h) b (hw_gdtr h) (hw_cs h) (hw_ds h) (hw_tr h)) s.

(** Allocator calls on the whole state. *)
Definition on_kmem {A} (c : M kmem A) : M system A := λ s,
  match c (sy_kmem s) with
  | Ret (a, k) => Ret (a, set_kmem k s)
  | Panic msg => Panic msg
  | Undef => Undef
  | OutOfFuel => OutOfFuel
  end.

(** Access through a reference. *)
Definition deref (r : cpu_ref) : M system percpu := λ s,
  match r with
  | EarlyCpu => Ret (early_bsp_percpu s, s)
  | Cpu i => match percpus s !! i with Some c => Ret (c, s) | None => Undef end
  end.
Definition update (r : cpu_ref) (f : percpu → percpu) : M system () := λ s,
  match r with
  | EarlyCpu =>
      Ret ((), System (sy_kmem s) (percpus s) (ncpu s) (apic_to_cpu s) (f (early_bsp_percpu s))
                 (percpu_fully_initialized s) (sy_hw s))
  | Cpu i =>
      match percpus s !! i with
      | Some c => Ret ((), set_percpus (<[i := f c]> (percpus s)) s)
      | None => Undef
      end
  end.

(** ** Access functions *)

(** [ebx >> 24] *)
Definition get_apic_id : M system Z := gets (λ s, hw_apic_id (sy_hw s)).

(** [for (uint32_t i = 0; i < ncpu; i++) if (percpus[i].apic_id == apic_id) ...],
    over the [n] entries from [i] on. *)
Fixpoint find_apic_id (l : list percpu) (id : Z) (i n : nat) : option nat :=
  match n with
  | O => None
  | S n =>
      match l !! i with
      | Some c => if apic_id c =? id then Some i else find_apic_id l id (S i) n
      | None => None
      end
  end.

Definition mycpu : M system cpu_ref :=
  let* s := get in
  if negb (percpu_fully_initialized s) then ret EarlyCpu
  else
    let* id := get_apic_id in
    match apic_to_cpu s !! Z.to_nat id with
    | None => undef
    | Some idx =>
        if (idx <? 0) || (s32 (ncpu s) <=? idx) then
          match find_apic_id (percpus s) id 0 (Z.to_nat (ncpu s)) with
          | Some i => ret (Cpu i)
          | None => ret (Cpu 0)
          end
        else ret (Cpu (Z.to_nat idx))
    end.

Definition cpu_by_index (s : system) (index : Z) : option cpu_ref :=
  if ncpu s <=? index then None else Some (Cpu (Z.to_nat index)).

Definition cpu_by_apic_id (s : system) (id : Z) : option cpu_ref :=
  if 255 <? id then None
  else
    match apic_to_cpu s !! Z.to_nat id with
    | Some idx =>
        if (idx <? 0) || (s32 (ncpu s) <=? idx) then None else Some (Cpu (Z.to_nat idx))
    | None => None
    end.

(** ** Descriptors *)

Definition GDT_NULL : Z := 0x00.
Definition GDT_KERNEL_CODE : Z := 0x08.
Definition GDT_KERNEL_DATA : Z := 0x10.
Definition GDT_USER_CODE : Z := 0x18.
Definition GDT_USER_DATA : Z := 0x20.
Definition GDT_TSS : Z := 0x28.
Definition GDT_PRESENT : Z := Z.shiftl 1 7.
Definition GDT_DPL0 : Z := Z.shiftl 0 5.
Definition GDT_DPL3 : Z := Z.shiftl 3 5.
Definition GDT_CODE : Z := Z.lor (Z.shiftl 1 4) (Z.shiftl 1 3).
Definition GDT_DATA : Z := Z.shiftl 1 4.
Definition GDT_TSS_TYPE : Z := 0x89.
Definition GDT_LONG_MODE : Z := Z.shiftl 1 5.
Definition GDT_DB : Z := Z.shiftl 1 6.
Definition GDT_GRANULARITY : Z := Z.shiftl 1 7.

Definition set_gdt_entry (base limit access fl : Z) : gdt_entry := {|
  ge_limit_low := Z.land limit 0xFFFF;
  ge_base_low := Z.land base 0xFFFF;
  ge_base_middle := Z.land (Z.shiftr base 16) 0xFF;
  ge_access := access;
  ge_granularity := Z.lor (Z.land (Z.shiftr limit 16) 0x0F) (Z.land fl 0xF0);
  ge_base_high := Z.land (Z.shiftr base 24) 0xFF
|}.

Definition set_tss_entry (base limit : Z) : gdt_tss_entry := {|
  te_limit_low := Z.land limit 0xFFFF;
  te_base_low := Z.land base 0xFFFF;
  te_base_middle1 := Z.land (Z.shiftr base 16) 0xFF;
  te_access := GDT_TSS_TYPE;
  te_limit_high_flags := Z.land (Z.shiftr limit 16) 0x0F;
  te_base_middle2 := Z.land (Z.shiftr base 24) 0xFF;
  te_base_high := Z.land (Z.shiftr base 32) 0xFFFFFFFF;
  te_reserved := 0
|}.

(** Where the linker puts [percpus]; the structure is aligned to 64 bytes and
    has 384, with [tss] at offset 80 and [gdt] at offset 208. *)
Class PercpuSymbol := {
  percpus_addr : Z;
  percpus_addr_range : 0 ≤ percpus_addr ∧ percpus_addr + 384 * MAX_CPUS < 2 ^ 64
}.

Section percpu.
Context {PS : PercpuSymbol}.

Definition tss_addr (i : nat) : Z := percpus_addr + 384 * Z.of_nat i + 80.
Definition gdt_addr (i : nat) : Z := percpus_addr + 384 * Z.of_nat i + 208.

Definition percpu_setup_gdt (i : nat) : M system () :=
  let access dpl kind := Z.lor (Z.lor (Z.lor GDT_PRESENT dpl) kind) 0x02 in
  update (Cpu i) (set_gdt
    {| gdt_null := entry_zero;
       gdt_kcode := set_gdt_entry 0 0xFFFFF (access GDT_DPL0 GDT_CODE)
                      (Z.lor GDT_LONG_MODE GDT_GRANULARITY);
       gdt_kdata := set_gdt_entry 0 0xFFFFF (access GDT_DPL0 GDT_DATA) GDT_GRANULARITY;
       gdt_ucode := set_gdt_entry 0 0xFFFFF (access GDT_DPL3 GDT_CODE)
                      (Z.lor GDT_LONG_MODE GDT_GRANULARITY);
       gdt_udata := set_gdt_entry 0 0xFFFFF (access GDT_DPL3 GDT_DATA) GDT_GRANULARITY;
       gdt_tss := set_tss_entry (tss_addr i) (TSS_SIZE - 1) |}
    (GdtPtr (GDT_BYTES - 1) (gdt_addr i))).

(** [lgdt], the data segments, the far return that reloads [CS], [ltr]. *)
Definition percpu_load_gdt (i : nat) : M system () :=
  let* c := deref (Cpu i) in
  modify (λ s, let h := sy_hw s in
    set_hw (Processor (hw_apic_id h) (hw_if h) (pc_gdt_ptr c)
              GDT_KERNEL_CODE GDT_KERNEL_DATA GDT_TSS) s).

Definition setup_tss (i : nat) : M system () :=
  update (Cpu i) (λ c,
    set_tss (Tss64 (if kstack c =? 0 then 0 else kstack c + 4096) 0 0
                   (if int_stack c =? 0 then 0 else int_stack c + 4096) 0 0 0 0 0 0 TSS_SIZE) c).

(** ** Initialisation *)

Definition percpu_init_bsp (total_cpus : Z) : M system () :=
  do* modify (λ s,
    System (sy_kmem s) (percpus s) (if MAX_CPUS <? total_cpus then MAX_CPUS else total_cpus)
      (replicate 256 (-1)) (early_bsp_percpu s) (percpu_fully_initialized s) (sy_hw s)) in
  let* id := get_apic_id in
  do* update (Cpu 0) (λ _,
    Percpu (Some (Cpu 0)) id 0 true true 0 0 0 0 0 0 0 false 0 tss_zero 0 0 gdt_zero
      (GdtPtr 0 0)) in
  modify (λ s,
    System (sy_kmem s) (percpus s) (ncpu s) (<[Z.to_nat id := 0]> (apic_to_cpu s))
      (early_bsp_percpu s) true (sy_hw s)).

(** [memset] of a page that was just allocated, if it was. *)
Definition clear_page (p : Z) : M system () :=
  if p =? 0 then ret () else on_kmem (kmemset p 0 4096).

(** The loop of [percpu_alloc_stacks] over the [n] CPUs from [i] on. *)
Fixpoint alloc_stacks_loop (i n : nat) : M system () :=
  match n with
  | O => ret ()
  | S n =>
      let* st := on_kmem kalloc in
      do* update (Cpu i) (λ c, set_stacks st (kstack c) c) in
      do* clear_page st in
      let* ks := on_kmem kalloc in
      do* update (Cpu i) (λ c, set_stacks (int_stack c) ks c) in
      do* clear_page ks in
      do* setup_tss i in
      do* (match i with
           | O => do* percpu_setup_gdt i in percpu_load_gdt i
           | S _ => ret ()
           end) in
      alloc_stacks_loop (S i) n
  end.

Definition percpu_alloc_stacks : M system () :=
  let* s := get in
  alloc_stacks_loop 0 (Z.to_nat (ncpu s)).

Definition percpu_init_ap (index : Z) : M system () :=
  let* s := get in
  if (ncpu s <=? index) || (index =? 0) then ret ()
  else
    let i := Z.to_nat index in
    let* id := get_apic_id in
    do* update (Cpu i) (λ c,
      Percpu (Some (Cpu i)) id index false (started c) 0 0 0 0
        (run_queue c) (scheduler_ctx c) (num_threads c) (scheduler_ready c) (timer_ticks c)
        (tss c) (int_stack c) (kstack c) (gdt c) (pc_gdt_ptr c)) in
    do* modify (λ s, set_apic_map (<[Z.to_nat id := index]> (apic_to_cpu s)) s) in
    do* setup_tss i in
    do* percpu_setup_gdt i in
    do* percpu_load_gdt i in
    update (Cpu i) (set_started true).

(** ** Interrupt state *)

Definition FL_IF : Z := 0x00000200.
(** The flags register; only the interrupt flag matters to the code. *)
Definition read_eflags : M system Z := gets (λ s, if hw_if (sy_hw s) then FL_IF else 0).
Definition cli : M system () := modify (set_if false).
Definition sti : M system () := modify (set_if true).

(** [cpu->ncli] is an [int]: [cpu->ncli++] and [--cpu->ncli] overflow, which is
    undefined, at its ends. *)
Definition INT_MAX : Z := 2 ^ 31 - 1.
Definition INT_MIN : Z := - 2 ^ 31.
Definition add_ncli (r : cpu_ref) (d : Z) : M system () :=
  let* c := deref r in
  if (INT_MIN <=? ncli c + d) && (ncli c + d <=? INT_MAX)
  then update r (set_ncli (ncli c + d))
  else undef.

Definition pushcli : M system () :=
  let* eflags := read_eflags in
  do* cli in
  let* r := mycpu in
  let* c := deref r in
  do* (if ncli c =? 0 then update r (set_intena (Z.land eflags FL_IF)) else ret ()) in
  add_ncli r 1.

Definition popcli : M system () :=
  let* eflags := read_eflags in
  if negb (Z.land eflags FL_IF =? 0) then panic "popcli with interrupts enabled"
  else
    let* r := mycpu in
    do* add_ncli r (-1) in
    let* c := deref r in
    if ncli c <? 0 then panic "unbalanced popcli"
    else if (ncli c =? 0) && negb (intena c =? 0) then sti
    else ret ().
End percpu.

(** ** Descriptors as the processor reads them *)

Record segment_info := SegmentInfo {
  si_base : Z; si_limit : Z; si_present : bool; si_dpl : Z; si_code : bool; si_writable : bool;
  si_long : bool; si_4k : bool }.

Definition decode_segment (e : gdt_entry) : segment_info := {|
  si_base := ge_base_low e + Z.shiftl (ge_base_middle e) 16 + Z.shiftl (ge_base_high e) 24;
  si_limit := ge_limit_low e + Z.shiftl (Z.land (ge_granularity e) 0x0F) 16;
  si_present := Z.testbit (ge_access e) 7;
  si_dpl := Z.land (Z.shiftr (ge_access e) 5) 3;
  si_code := Z.testbit (ge_access e) 3;
  si_writable := Z.testbit (ge_access e) 1;
  si_long := Z.testbit (ge_granularity e) 5;
  si_4k := Z.testbit (ge_granularity e) 7
|}.

Definition tss_base (e : gdt_tss_entry) : Z :=
  te_base_low e + Z.shiftl (te_base_middle1 e) 16 + Z.shiftl (te_base_middle2 e) 24 +
  Z.shiftl (te_base_high e) 32.
Definition tss_limit (e : gdt_tss_entry) : Z :=
  te_limit_low e + Z.shiftl (Z.land (te_limit_high_flags e) 0x0F) 16.

(** The eight bytes of the null and segment descriptors, as a table indexed by
    selector. *)
Definition segment_at (g : gdt_table) (sel : Z) : option gdt_entry :=
  if sel =? GDT_NULL then Some (gdt_null g)
  else if sel =? GDT_KERNEL_CODE then Some (gdt_kcode g)
  else if sel =? GDT_KERNEL_DATA then Some (gdt_kdata g)
  else if sel =? GDT_USER_CODE then Some (gdt_ucode g)
  else if sel =? GDT_USER_DATA then Some (gdt_udata g)
  else None.

Lemma land_ones_mod x k m : 0 ≤ k → m = Z.ones k → Z.land x m = x mod 2 ^ k.
Proof. intros ? ->. by apply Z.land_ones. Qed.

Lemma set_tss_entry_base base limit :
  0 ≤ base < 2 ^ 64 → 0 ≤ limit < 2 ^ 20 →
  tss_base (set_tss_entry base limit) = base ∧ tss_limit (set_tss_entry base limit) = limit.
Proof.
  intros Hb Hl. unfold tss_base, tss_limit, set_tss_entry. simpl.
  rewrite !(land_ones_mod _ 16 0xFFFF), !(land_ones_mod _ 8 0xFF), !(land_ones_mod _ 4 0x0F),
    (land_ones_mod _ 32 0xFFFFFFFF) by done.
  rewrite !Z.shiftr_div_pow2, !Z.shiftl_mul_pow2 by lia.
  split; Z.to_euclidean_division_equations; lia.
Qed.

Lemma set_gdt_entry_base base limit access fl :
  0 ≤ base < 2 ^ 32 → 0 ≤ limit < 2 ^ 20 →
  let i := decode_segment (set_gdt_entry base limit access fl) in
  si_base i = base ∧ si_limit i = limit.
Proof.
  intros Hb Hl. unfold decode_segment, set_gdt_entry. simpl.
  assert (Z.land (Z.lor (Z.land (Z.shiftr limit 16) 15) (Z.land fl 240)) 15 =
    Z.land (Z.shiftr limit 16) 15) as ->.
  { rewrite Z.land_lor_distr_l, <- !Z.land_assoc. change (Z.land 240 15) with 0.
    change (Z.land 15 15) with 15. by rewrite Z.land_0_r, Z.lor_0_r. }
  rewrite !(land_ones_mod _ 16 0xFFFF), !(land_ones_mod _ 8 0xFF), !(land_ones_mod _ 4 0x0F) by done.
  rewrite !Z.shiftr_div_pow2, !Z.shiftl_mul_pow2 by lia.
  split; Z.to_euclidean_division_equations; lia.
Qed.

(** ** References to the executing CPU *)

(** The executing processor's structure is [c], reached through [r]. *)
Definition on_cpu (s : system) (r : cpu_ref) (c : percpu) : Prop :=
  mycpu s = Ret (r, s) ∧ deref r s = Ret (c, s).

(** [s'] is [s] with the structure of [r] replaced by [c'] and the interrupt
    flag set to [b]. *)
Definition put_cpu (r : cpu_ref) (c' : percpu) (s : system) : system :=
  match r with
  | EarlyCpu =>
      System (sy_kmem s) (percpus s) (ncpu s) (apic_to_cpu s) c'
        (percpu_fully_initialized s) (sy_hw s)
  | Cpu i => set_percpus (<[i := c']> (percpus s)) s
  end.

Lemma update_put r f s c : deref r s = Ret (c, s) → update r f s = Ret ((), put_cpu r (f c) s).
Proof.
  destruct r as [|i]; simpl; [by intros [= <-]|].
  destruct (percpus s !! i); [by intros [= <-]|done].
Qed.

Lemma deref_put r c c' s : deref r s = Ret (c, s) → deref r (put_cpu r c' s) = Ret (c', put_cpu r c' s).
Proof.
  destruct r as [|i]; simpl; [done|].
  destruct (percpus s !! i) eqn:E; [|done]. intros _.
  by rewrite list_lookup_insert_eq by (by eapply lookup_lt_Some).
Qed.

Lemma bind_update {A} r f (k : () → M system A) s c :
  deref r s = Ret (c, s) → bind (update r f) k s = k () (put_cpu r (f c) s).
Proof. intros H. by rewrite (bind_ret _ _ _ _ _ (update_put _ _ _ _ H)). Qed.

Lemma put_put r c c' s : put_cpu r c' (put_cpu r c s) = put_cpu r c' s.
Proof. destruct r as [|i]; simpl; [done|]. unfold set_percpus. simpl. by rewrite list_insert_insert_eq. Qed.

Lemma put_same r c s : deref r s = Ret (c, s) → put_cpu r c s = s.
Proof.
  destruct r as [|i]; simpl; [intros [= <-]; by destruct s|].
  destruct (percpus s !! i) eqn:E; [|done]. intros [= <-]. unfold set_percpus.
  rewrite list_insert_id by done. by destruct s.
Qed.

Lemma put_set_if r c b s : put_cpu r c (set_if b s) = set_if b (put_cpu r c s).
Proof. by destruct r. Qed.

Lemma find_apic_id_insert l i c c' id j n :
  l !! i = Some c → apic_id c' = apic_id c →
  find_apic_id (<[i := c']> l) id j n = find_apic_id l id j n.
Proof.
  intros Hi Hc. revert j. induction n as [|n IH]; intros j; simpl; [done|].
  destruct (decide (i = j)) as [->|Hne].
  - rewrite list_lookup_insert_eq by (by eapply lookup_lt_Some). rewrite Hi, Hc. by rewrite IH.
  - rewrite list_lookup_insert_ne by done. by rewrite IH.
Qed.

(** The mapping to the executing CPU does not depend on what the code keeps in
    the structures besides the APIC identifiers. *)
Lemma on_cpu_put s r c c' b :
  on_cpu s r c → apic_id c' = apic_id c → on_cpu (set_if b (put_cpu r c' s)) r c'.
Proof.
  intros [Hm Hd] Hid. split.
  - revert Hm. unfold mycpu, bind, get, get_apic_id, gets, ret.
    destruct r as [|i]; simpl.
    + destruct (percpu_fully_initialized s); simpl; [|done].
      destruct (apic_to_cpu s !! _); [|done]. destruct (_ || _); [destruct (find_apic_id _ _ _ _)|];
        intros H; injection H; done.
    + simpl in Hd. destruct (percpus s !! i) as [c0|] eqn:E; [|done]. injection Hd as ->.
      destruct (percpu_fully_initialized s); simpl; [|intros H; injection H; done].
      destruct (apic_to_cpu s !! _); [|done].
      rewrite (find_apic_id_insert _ _ c) by done.
      destruct (_ || _); [destruct (find_apic_id _ _ _ _)|]; intros H; injection H; congruence.
  - rewrite <- put_set_if.
    destruct r as [|i]; simpl in *; [done|].
    destruct (percpus s !! i) as [c0|] eqn:E; [|done].
    by rewrite list_lookup_insert_eq by (by eapply lookup_lt_Some).
Qed.

Lemma set_if_same s b : hw_if (sy_hw s) = b → set_if b s = s.
Proof. intros <-. destruct s as [? ? ? ? ? ? []]. done. Qed.

Lemma set_if_if s b b' : set_if b (set_if b' s) = set_if b s.
Proof. done. Qed.

(** ** pushcli and popcli *)

Lemma add_ncli_result s r c d :
  deref r s = Ret (c, s) → INT_MIN ≤ ncli c + d ≤ INT_MAX →
  add_ncli r d s = Ret ((), put_cpu r (set_ncli (ncli c + d) c) s).
Proof.
  intros Hd Hn. unfold add_ncli. rewrite (bind_ret _ _ _ _ _ Hd).
  destruct (Z.leb_spec INT_MIN (ncli c + d)); [|lia].
  destruct (Z.leb_spec (ncli c + d) INT_MAX); [|lia]. by apply update_put.
Qed.

Lemma pushcli_result s r c :
  on_cpu s r c → 0 ≤ ncli c < INT_MAX →
  pushcli s = Ret ((), set_if false (put_cpu r
    (set_ncli (ncli c + 1)
       (if ncli c =? 0 then set_intena (if hw_if (sy_hw s) then FL_IF else 0) c else c)) s)).
Proof.
  intros Hc Hn. unfold pushcli, read_eflags, cli.
  assert (INT_MIN ≤ ncli c + 1 ≤ INT_MAX) as Hn1 by (unfold INT_MIN, INT_MAX in *; lia).
  pose proof (on_cpu_put s r c c false Hc eq_refl) as Hc1.
  rewrite put_same in Hc1 by apply Hc.
  unfold bind at 1, gets at 1. unfold bind at 1, modify at 1.
  destruct Hc1 as [Hm Hd]. rewrite (bind_ret _ _ _ _ _ Hm), (bind_ret _ _ _ _ _ Hd).
  destruct (Z.eqb_spec (ncli c) 0) as [E|E].
  - rewrite (bind_update _ _ _ _ _ Hd).
    rewrite (add_ncli_result _ _ _ _ (deref_put _ _ _ _ Hd)) by exact Hn1.
    rewrite put_put, put_set_if. cbn [ncli set_intena].
    replace (Z.land (if hw_if (sy_hw s) then FL_IF else 0) FL_IF)
      with (if hw_if (sy_hw s) then FL_IF else 0) by (by destruct (hw_if (sy_hw s))). done.
  - unfold bind at 1, ret at 1. rewrite (add_ncli_result _ _ _ _ Hd Hn1). by rewrite put_set_if.
Qed.

Lemma pushcli_overflow s r c : on_cpu s r c → ncli c = INT_MAX → pushcli s = Undef.
Proof.
  intros Hc Hn. unfold pushcli, read_eflags, cli.
  pose proof (on_cpu_put s r c c false Hc eq_refl) as [Hm Hd].
  rewrite put_same in Hm, Hd by apply Hc.
  unfold bind at 1, gets at 1. unfold bind at 1, modify at 1.
  rewrite (bind_ret _ _ _ _ _ Hm), (bind_ret _ _ _ _ _ Hd), Hn.
  change (INT_MAX =? 0) with false. cbv iota.
  unfold bind at 1, ret at 1, add_ncli. rewrite (bind_ret _ _ _ _ _ Hd), Hn. done.
Qed.

Lemma popcli_result s r c :
  on_cpu s r c → hw_if (sy_hw s) = false → 0 < ncli c ≤ INT_MAX →
  popcli s = Ret ((), set_if ((ncli c =? 1) && negb (intena c =? 0))
    (put_cpu r (set_ncli (ncli c - 1) c) s)).
Proof.
  intros [Hm Hd] Hif Hn. unfold popcli, read_eflags.
  unfold bind at 1, gets at 1. rewrite Hif.
  change (negb (Z.land 0 FL_IF =? 0)) with false. cbv iota. rewrite (bind_ret _ _ _ _ _ Hm).
  rewrite (bind_ret _ _ _ _ _ (add_ncli_result _ _ _ (-1) Hd ltac:(unfold INT_MIN, INT_MAX in *; lia))).
  replace (ncli c + -1) with (ncli c - 1) by lia.
  rewrite (bind_ret _ _ _ _ _ (deref_put _ _ _ _ Hd)). simpl (ncli (set_ncli _ _)).
  replace (intena (set_ncli (ncli c - 1) c)) with (intena c) by done.
  replace (ncli c - 1 <? 0) with false by (symmetry; apply Z.ltb_ge; lia).
  replace (ncli c - 1 =? 0) with (ncli c =? 1) by (destruct (Z.eqb_spec (ncli c) 1), (Z.eqb_spec (ncli c - 1) 0); lia || done).
  assert (hw_if (sy_hw (put_cpu r (set_ncli (ncli c - 1) c) s)) = false) as Hif'
    by (by destruct r).
  destruct ((ncli c =? 1) && negb (intena c =? 0)); [done|]. by rewrite set_if_same.
Qed.

(** [n] calls in a row. *)
Fixpoint repeatM {S} (n : nat) (c : M S ()) : M S () :=
  match n with
  | O => ret ()
  | Datatypes.S n => do* c in repeatM n c
  end.

(** Interrupts are off inside a [pushcli] section, and [k] more sections can be
    entered before the counter overflows. *)
Definition cli_room (k : nat) (s : system) (r : cpu_ref) (c : percpu) : Prop :=
  on_cpu s r c ∧ 0 ≤ ncli c ≤ INT_MAX - Z.of_nat k ∧ (0 < ncli c → hw_if (sy_hw s) = false).

(** Room for every section that a call of the kernel enters. *)
Definition cli_inv : system → cpu_ref → percpu → Prop := cli_room 16.

Lemma cli_room_le k j s r c : (j ≤ k)%nat → cli_room k s r c → cli_room j s r c.
Proof. intros Hj (Hc & Hn & Hif). split; [done|]. split; [lia|done]. Qed.

Lemma cli_inv_outside s r c : on_cpu s r c → ncli c = 0 → cli_inv s r c.
Proof.
  intros Hc E. split; [done|]. rewrite E. split; [unfold INT_MAX; simpl; lia|]. by intros ?%Z.lt_irrefl.
Qed.

(** What [pushcli] records about interrupts when it opens a section. *)
Definition opened (s : system) (c : percpu) : percpu :=
  if ncli c =? 0 then set_intena (if hw_if (sy_hw s) then FL_IF else 0) c else c.


Lemma push_n s r c n :
  cli_room (Datatypes.S n) s r c →
  repeatM (Datatypes.S n) pushcli s =
    Ret ((), set_if false (put_cpu r (set_ncli (ncli c + Z.of_nat n + 1) (opened s c)) s)).
Proof.
  intros (Hc & Hn & _). cbn [repeatM].
  rewrite (bind_ret _ _ _ _ _ (pushcli_result _ _ _ Hc ltac:(lia))).
  fold (opened s c). replace (ncli c + Z.of_nat n + 1) with (ncli c + 1 + Z.of_nat n) by lia.
  assert (∀ k, 1 ≤ k ≤ INT_MAX - Z.of_nat n → let s1 := set_if false (put_cpu r (set_ncli k (opened s c)) s) in
    repeatM n pushcli s1 =
    Ret ((), set_if false (put_cpu r (set_ncli (k + Z.of_nat n) (opened s c)) s))) as H;
    [|apply H; lia]. clear Hn.
  induction n as [|n IH]; intros k Hk s1; [cbn [repeatM]; by rewrite Z.add_0_r|].
  cbn [repeatM]. assert (on_cpu s1 r (set_ncli k (opened s c))) as Hc1.
  { eapply on_cpu_put; [done|]. unfold opened. by case_match. }
  rewrite (bind_ret _ _ _ _ _ (pushcli_result _ _ _ Hc1 ltac:(cbn [ncli set_ncli]; lia))).
  cbn [ncli set_ncli]. destruct (Z.eqb_spec k 0); [lia|]. subst s1.
  rewrite put_set_if, set_if_if, put_put.
  replace (k + Z.of_nat (Datatypes.S n)) with (k + 1 + Z.of_nat n) by lia.
  change (set_ncli (k + 1) (set_ncli k (opened s c))) with (set_ncli (k + 1) (opened s c)).
  apply IH. lia.
Qed.

(** Leaving a section: the flag is restored by the outermost [popcli] only. *)
Lemma pop_n s r c c1 k n :
  on_cpu s r c → apic_id c1 = apic_id c → Z.of_nat n ≤ k ≤ INT_MAX →
  repeatM n popcli (set_if false (put_cpu r (set_ncli k c1) s)) =
    Ret ((), set_if ((k - Z.of_nat n =? 0) && negb (n =? 0)%nat && negb (intena c1 =? 0))
               (put_cpu r (set_ncli (k - Z.of_nat n) c1) s)).
Proof.
  intros Hc Hid. revert k. induction n as [|n IH]; intros k Hk.
  { cbn [repeatM]. unfold ret. rewrite Z.sub_0_r. simpl (negb _). by rewrite andb_false_r. }
  cbn [repeatM]. assert (on_cpu (set_if false (put_cpu r (set_ncli k c1) s)) r (set_ncli k c1))
    as Hc1 by (by eapply on_cpu_put).
  rewrite (bind_ret _ _ _ _ _ (popcli_result _ _ _ Hc1 eq_refl ltac:(simpl; lia))).
  cbn [ncli set_ncli]. rewrite put_set_if, set_if_if, put_put.
  change (intena (set_ncli k c1)) with (intena c1).
  change (set_ncli (k - 1) (set_ncli k c1)) with (set_ncli (k - 1) c1).
  simpl (negb (Datatypes.S n =? 0)%nat). rewrite andb_true_r.
  replace (k - Z.of_nat (Datatypes.S n)) with (k - 1 - Z.of_nat n) by lia.
  destruct (Z.eqb_spec k 1) as [->|Hk1].
  - assert (n = O) as -> by lia. cbn [repeatM]. done.
  - cbn [andb]. rewrite IH by lia. f_equal. f_equal. f_equal.
    destruct n; simpl (negb _); [|by rewrite andb_true_r].
    destruct (Z.eqb_spec (k - 1 - Z.of_nat 0) 0); [lia|done].
Qed.

(** C12. [pushcli] sections nest up to the range of the [int] that counts them:
    inside any number of them that the counter can hold interrupts are off,
    leaving fewer of them than were entered keeps interrupts off, and leaving
    all restores the interrupt flag, the nesting depth and every other field of
    the per-CPU structure that is not the saved flag itself.  Where the counter
    is at the largest [int], one more [pushcli] is undefined. *)
Theorem pushcli_popcli_nested s r c n k :
  cli_room (Datatypes.S n) s r c → (k ≤ n)%nat →
  ∃ s1 s2 c2, repeatM (Datatypes.S n) pushcli s = Ret ((), s1) ∧ hw_if (sy_hw s1) = false ∧
    (ncli c = INT_MAX - Z.of_nat (Datatypes.S n) → pushcli s1 = Undef) ∧
    repeatM k popcli s1 = Ret ((), s2) ∧ hw_if (sy_hw s2) = false ∧
    repeatM (Datatypes.S n - k) popcli s2 =
      Ret ((), set_if (hw_if (sy_hw s)) (put_cpu r c2 s)) ∧
    set_intena (intena c) c2 = c.
Proof.
  intros Hinv Hk. pose proof Hinv as (Hc & Hn & Hif).
  assert (apic_id (opened s c) = apic_id c) as Hid by (unfold opened; by case_match).
  eexists _, _, (opened s c). split; [by apply push_n|]. split; [done|].
  split.
  { intros Hmax. eapply pushcli_overflow; [eapply on_cpu_put; [apply Hc|apply Hid]|].
    cbn [ncli set_ncli]. lia. }
  split; [apply (pop_n s r c); [done..|lia]|].
  set (m := ncli c + Z.of_nat n + 1).
  assert ((m - Z.of_nat k =? 0) = false) as -> by (apply Z.eqb_neq; subst m; lia).
  cbn [andb]. split; [done|]. split.
  - rewrite (pop_n s r c) by (done || (subst m; lia)).
    replace (m - Z.of_nat k - Z.of_nat (Datatypes.S n - k)) with (ncli c) by (subst m; lia).
    assert (negb ((Datatypes.S n - k) =? 0)%nat = true) as ->
      by (destruct (Nat.eqb_spec (Datatypes.S n - k) 0); [lia|done]).
    rewrite andb_true_r. unfold opened. destruct (Z.eqb_spec (ncli c) 0) as [E|E].
    + destruct (hw_if (sy_hw s)); destruct c; simpl in *; subst; done.
    + rewrite Hif by lia. by destruct c.
  - unfold opened. by destruct (ncli c =? 0), c.
Qed.

(** ** Booting the processors *)

Section boot.
Context {PS : PercpuSymbol}.

(** The structure of an initialised CPU. *)
Definition cpu_booted (i : nat) (id : Z) (c : percpu) : Prop :=
  pc_self c = Some (Cpu i) ∧ apic_id c = id ∧ cpu_index c = Z.of_nat i ∧ started c = true ∧
  ncli c = 0 ∧ intena c = 0.

(** The table maps the APIC identifiers of the CPUs [l] to their structures. *)
Definition cpus_known (s : system) (l : list (nat * Z)) : Prop :=
  percpu_fully_initialized s = true ∧ 1 ≤ ncpu s ≤ MAX_CPUS ∧
  length (percpus s) = 64%nat ∧ length (apic_to_cpu s) = 256%nat ∧
  Forall (λ '(i, id), Z.of_nat i < ncpu s ∧ 0 ≤ id < 256 ∧
    apic_to_cpu s !! Z.to_nat id = Some (Z.of_nat i) ∧
    ∃ c, percpus s !! i = Some c ∧ cpu_booted i id c) l.

(** What [percpu_init_ap] leaves in the descriptor registers. *)
Definition gdt_loaded (i : nat) (s : system) : Prop :=
  hw_gdtr (sy_hw s) = GdtPtr (GDT_BYTES - 1) (gdt_addr i) ∧
  hw_cs (sy_hw s) = GDT_KERNEL_CODE ∧ hw_ds (sy_hw s) = GDT_KERNEL_DATA ∧ hw_tr (sy_hw s) = GDT_TSS.

Lemma percpu_init_ap_result s i c :
  (0 < i)%nat → Z.of_nat i < ncpu s → percpus s !! i = Some c →
  let id := hw_apic_id (sy_hw s) in
  ∃ s' c', percpu_init_ap (Z.of_nat i) s = Ret ((), s') ∧
    percpus s' = <[i := c']> (percpus s) ∧ cpu_booted i id c' ∧
    apic_to_cpu s' = <[Z.to_nat id := Z.of_nat i]> (apic_to_cpu s) ∧
    ncpu s' = ncpu s ∧ percpu_fully_initialized s' = percpu_fully_initialized s ∧
    gdt_loaded i s' ∧ hw_apic_id (sy_hw s') = id.
Proof.
  intros Hi Hn Hc id. unfold percpu_init_ap. unfold bind at 1, get at 1.
  destruct (Z.leb_spec (ncpu s) (Z.of_nat i)); [lia|].
  destruct (Z.eqb_spec (Z.of_nat i) 0); [lia|]. cbn [orb]. rewrite Nat2Z.id.
  assert (deref (Cpu i) s = Ret (c, s)) as Hd by (simpl; by rewrite Hc).
  unfold get_apic_id. unfold bind at 1, gets at 1.
  rewrite (bind_update _ _ _ _ _ Hd). unfold bind at 1, modify at 1.
  set (c1 := Percpu (Some (Cpu i)) _ _ _ _ _ _ _ _ _ _ _ _ _ _ _ _ _ _).
  set (s1 := set_apic_map _ _).
  assert (deref (Cpu i) s1 = Ret (c1, s1)) as Hd1.
  { pose proof (deref_put _ _ c1 _ Hd) as H1. simpl in H1 |- *.
    destruct (<[i:=c1]> (percpus s) !! i); [|done]. by injection H1 as ->. }
  unfold setup_tss. rewrite (bind_update _ _ _ _ _ Hd1).
  match goal with |- context [put_cpu (Cpu i) ?c2 s1] =>
    pose proof (deref_put _ _ c2 _ Hd1) as Hd2 end.
  unfold percpu_setup_gdt. rewrite (bind_update _ _ _ _ _ Hd2), put_put.
  match goal with |- context [put_cpu (Cpu i) ?c3 s1] =>
    pose proof (deref_put _ _ c3 _ Hd1) as Hd3; set (c3' := c3) in * end.
  unfold percpu_load_gdt. rewrite bind_assoc, (bind_ret _ _ _ _ _ Hd3).
  unfold bind at 1, modify at 1.
  erewrite update_put;
    [|simpl; by rewrite list_lookup_insert_eq
        by (rewrite length_insert; by eapply lookup_lt_Some)].
  eexists _, (set_started true c3'). split; [reflexivity|]. simpl.
  rewrite !list_insert_insert_eq. done.
Qed.

(** Application processors come up one after the other, in any order: the
    processor [h] runs [percpu_init_ap] with the index it was given. *)
Fixpoint boot_aps (aps : list (nat * processor)) : M system () :=
  match aps with
  | [] => ret ()
  | (i, h) :: aps =>
      do* modify (set_hw h) in
      do* percpu_init_ap (Z.of_nat i) in
      boot_aps aps
  end.

Lemma cpus_known_mycpu s l i h :
  cpus_known s l → (i, hw_apic_id h) ∈ l →
  mycpu (set_hw h s) = Ret (Cpu i, set_hw h s) ∧
  cpu_by_apic_id (set_hw h s) (hw_apic_id h) = Some (Cpu i).
Proof.
  intros (Hf & Hn & _ & _ & Hall) Hi.
  rewrite Forall_forall in Hall. destruct (Hall _ Hi) as (Hlt & Hid & Hmap & _).
  unfold MAX_CPUS in Hn.
  assert (((Z.of_nat i <? 0) || (s32 (ncpu s) <=? Z.of_nat i)) = false) as Hb.
  { destruct (Z.ltb_spec (Z.of_nat i) 0); [lia|]. cbn [orb]. apply Z.leb_gt. zlia. }
  split.
  - unfold mycpu, bind, get, get_apic_id, gets, ret. simpl. rewrite Hf. simpl.
    by rewrite Hmap, Hb, Nat2Z.id.
  - unfold cpu_by_apic_id. destruct (Z.ltb_spec 255 (hw_apic_id h)); [lia|]. simpl.
    by rewrite Hmap, Hb, Nat2Z.id.
Qed.

Lemma init_bsp_known s total h :
  1 ≤ total → length (percpus s) = 64%nat → 0 ≤ hw_apic_id h < 256 →
  ∃ s', percpu_init_bsp total (set_hw h s) = Ret ((), s') ∧
    ncpu s' = Z.min total MAX_CPUS ∧ cpus_known s' [(O, hw_apic_id h)].
Proof.
  intros Ht Hl Hid. unfold percpu_init_bsp. unfold bind at 1, modify at 1.
  unfold bind at 1, get_apic_id, gets. simpl hw_apic_id.
  destruct (lookup_lt_is_Some_2 (percpus s) 0) as [c Hc]; [lia|].
  erewrite bind_update; [|simpl; by rewrite Hc].
  assert (0 < (if MAX_CPUS <? total then MAX_CPUS else total) ≤ MAX_CPUS ∧
    (if MAX_CPUS <? total then MAX_CPUS else total) = Z.min total MAX_CPUS) as [Hn1 Hn2]
    by (unfold MAX_CPUS; case_test; lia).
  revert Hn1 Hn2. generalize (if MAX_CPUS <? total then MAX_CPUS else total). intros n Hn1 Hn2.
  eexists. split; [reflexivity|]. split; [done|]. unfold MAX_CPUS in *.
  split_and!; simpl; rewrite ?length_insert; try done; unfold MAX_CPUS; try lia.
  apply Forall_singleton. split_and!; try done; try lia.
  - apply (list_lookup_insert_eq (replicate 256 (-1))). rewrite length_replicate. lia.
  - eexists. split; [apply list_lookup_insert_eq; lia|done].
Qed.

Lemma init_ap_known s l i h :
  cpus_known s l → (0 < i)%nat → Z.of_nat i < ncpu s → 0 ≤ hw_apic_id h < 256 →
  i ∉ l.*1 → hw_apic_id h ∉ l.*2 →
  ∃ s', percpu_init_ap (Z.of_nat i) (set_hw h s) = Ret ((), s') ∧
    ncpu s' = ncpu s ∧ cpus_known s' ((i, hw_apic_id h) :: l) ∧ gdt_loaded i s'.
Proof.
  intros (Hf & Hn & Hl & Hm & Hall) Hi Hlt Hid Hni Hnid. unfold MAX_CPUS in *.
  destruct (lookup_lt_is_Some_2 (percpus s) i) as [c Hc]; [lia|].
  destruct (percpu_init_ap_result (set_hw h s) i c) as
    (s' & c' & E & Hp & Hb & Ha & Hn' & Hf' & Hg & _); [done..|].
  simpl in Hp, Hb, Ha, Hn', Hf'.
  exists s'. split_and!; [done|done| |done..]. unfold cpus_known, MAX_CPUS.
  split_and!; rewrite ?Hf', ?Hn', ?Hp, ?Ha, ?length_insert; try done; try lia.
  apply Forall_cons. split.
  - simpl. split_and!; try done; try lia.
    + simpl. rewrite list_lookup_insert_eq; [done|]. rewrite Hm. lia.
    + exists c'. split; [|done]. simpl. by rewrite list_lookup_insert_eq by (simpl; lia).
  - rewrite Forall_forall in Hall |- *. intros [j id] Hj.
    destruct (Hall _ Hj) as (H1 & H2 & H3 & c2 & H4 & H5). simpl.
    assert (j ≠ i) by (intros ->; apply Hni; by apply (list_elem_of_fmap_2 fst _ _ Hj)).
    assert (id ≠ hw_apic_id h)
      by (intros ->; apply Hnid; by apply (list_elem_of_fmap_2 snd _ _ Hj)).
    split_and!; try done; try lia.
    + rewrite list_lookup_insert_ne by lia. done.
    + exists c2. by rewrite list_lookup_insert_ne.
Qed.

(** The CPUs of a boot sequence, with their APIC identifiers. *)
Definition boot_ids (aps : list (nat * processor)) : list (nat * Z) :=
  prod_map id hw_apic_id <$> aps.

Lemma NoDup_middle_cons {A} (x : A) l1 l2 : NoDup (l1 ++ x :: l2) → NoDup ((x :: l1) ++ l2).
Proof. by rewrite <- Permutation_middle. Qed.

Lemma boot_aps_known aps : ∀ s l,
  cpus_known s l → NoDup (l.*1 ++ aps.*1) → NoDup (l.*2 ++ (boot_ids aps).*2) →
  Forall (λ '(i, h), (0 < i)%nat ∧ Z.of_nat i < ncpu s ∧ 0 ≤ hw_apic_id h < 256) aps →
  ∃ s', boot_aps aps s = Ret ((), s') ∧ cpus_known s' (reverse (boot_ids aps) ++ l).
Proof.
  induction aps as [|[i h] aps IH]; intros s l Hk Hi Hid Hf; [by exists s|].
  apply Forall_cons in Hf as [(Hpos & Hlt & Hr) Hf]. simpl in Hi, Hid.
  pose proof (proj1 (NoDup_app _ _) Hi) as (_ & Hi2 & _).
  pose proof (proj1 (NoDup_app _ _) Hid) as (_ & Hid2 & _).
  destruct (init_ap_known s l i h) as (s1 & E1 & Hn1 & Hk1 & _); [done..| |  |].
  { intros Hin. apply (Hi2 _ Hin). left. }
  { intros Hin. apply (Hid2 _ Hin). left. }
  cbn [boot_aps]. unfold bind at 1, modify. rewrite (bind_ret _ _ _ _ _ E1).
  destruct (IH s1 ((i, hw_apic_id h) :: l)) as (s2 & E2 & Hk2); [done| | | |].
  - by apply NoDup_middle_cons.
  - by apply NoDup_middle_cons.
  - by rewrite Hn1.
  - exists s2. split; [done|]. simpl. rewrite reverse_cons, <- app_assoc. done.
Qed.
End boot.

(** C13. After [percpu_init_bsp] on the bootstrap processor and [percpu_init_ap]
    on the application processors, in any order, with distinct indices below
    [ncpu] and distinct APIC identifiers, [mycpu] on every processor returns
    its own structure, which is initialised, and [cpu_by_apic_id] finds it. *)
Theorem mycpu_after_boot {PS : PercpuSymbol} s total bsp aps (ids := (O, hw_apic_id bsp) :: boot_ids aps) :
  1 ≤ total → length (percpus s) = 64%nat →
  NoDup ids.*1 → NoDup ids.*2 → Forall (λ p, 0 ≤ snd p < 256) ids →
  Forall (λ p, Z.of_nat (fst p) < Z.min total MAX_CPUS) ids →
  ∃ s1 s2, percpu_init_bsp total (set_hw bsp s) = Ret ((), s1) ∧
    boot_aps aps s1 = Ret ((), s2) ∧
    ∀ i h, (i, hw_apic_id h) ∈ ids →
      mycpu (set_hw h s2) = Ret (Cpu i, set_hw h s2) ∧
      cpu_by_apic_id s2 (hw_apic_id h) = Some (Cpu i) ∧
      ∃ c, percpus s2 !! i = Some c ∧ cpu_booted i (hw_apic_id h) c.
Proof.
  intros Ht Hl Hi Hid Hr Hn. subst ids. apply Forall_cons in Hr as [Hr0 Hr].
  apply Forall_cons in Hn as [_ Hn]. simpl in Hr0.
  destruct (init_bsp_known s total bsp Ht Hl Hr0) as (s1 & E1 & Hn1 & Hk1).
  assert ((boot_ids aps).*1 = aps.*1) as Hfst.
  { unfold boot_ids. rewrite <- list_fmap_compose. by apply list_fmap_ext. }
  destruct (boot_aps_known aps s1 [(O, hw_apic_id bsp)]) as (s2 & E2 & Hk2); [done| |done| |].
  - simpl in *. by rewrite <- Hfst.
  - apply Forall_forall. intros [i h] Hin.
    assert ((i, hw_apic_id h) ∈ boot_ids aps) as Hin'
      by (apply (list_elem_of_fmap_2 (prod_map id hw_apic_id) _ _ Hin)).
    rewrite Hn1. pose proof (proj1 (Forall_forall _ _) Hr _ Hin') as Hr1.
    pose proof (proj1 (Forall_forall _ _) Hn _ Hin') as Hn2. simpl in Hr1, Hn2.
    split_and!; try lia. simpl in Hi. apply NoDup_cons in Hi as [Hi _].
    assert (i ≠ O); [|lia]. intros ->. apply Hi.
    by apply (list_elem_of_fmap_2 fst _ _ Hin').
  - exists s1, s2. split_and!; [done..|]. intros i h Hin.
    assert ((i, hw_apic_id h) ∈ reverse (boot_ids aps) ++ [(O, hw_apic_id bsp)]) as Hin'.
    { rewrite elem_of_app, list_elem_of_singleton, elem_of_reverse.
      apply elem_of_cons in Hin. tauto. }
    destruct (cpus_known_mycpu _ _ _ _ Hk2 Hin') as [H1 H2]. split_and!; [done..|].
    destruct Hk2 as (_ & _ & _ & _ & Hall). rewrite Forall_forall in Hall.
    destruct (Hall _ Hin') as (_ & _ & _ & Hc). done.
Qed.

(** C14. The descriptor table that [percpu_setup_gdt] builds is what the
    processor needs: read back by the processor, the kernel and user segments
    are flat, present, of the right privilege level and kind, with the code
    segments in 64-bit mode; the TSS descriptor has the address and the limit
    of the CPU's own TSS; and every selector the kernel loads lies inside the
    limit of the table. *)
Theorem percpu_setup_gdt_spec {PS : PercpuSymbol} s i c :
  percpus s !! i = Some c → Z.of_nat i < MAX_CPUS →
  ∃ g p, percpu_setup_gdt i s = Ret ((), put_cpu (Cpu i) (set_gdt g p c) s) ∧
    decode_segment <$> segment_at g GDT_KERNEL_CODE =
      Some (SegmentInfo 0 0xFFFFF true 0 true true true true) ∧
    decode_segment <$> segment_at g GDT_KERNEL_DATA =
      Some (SegmentInfo 0 0xFFFFF true 0 false true false true) ∧
    decode_segment <$> segment_at g GDT_USER_CODE =
      Some (SegmentInfo 0 0xFFFFF true 3 true true true true) ∧
    decode_segment <$> segment_at g GDT_USER_DATA =
      Some (SegmentInfo 0 0xFFFFF true 3 false true false true) ∧
    tss_base (gdt_tss g) = tss_addr i ∧ tss_limit (gdt_tss g) = TSS_SIZE - 1 ∧
    gp_base p = gdt_addr i ∧ GDT_TSS + 16 - 1 ≤ gp_limit p.
Proof.
  intros Hc Hi. unfold percpu_setup_gdt. erewrite update_put; [|simpl; by rewrite Hc].
  eexists _, _. split; [reflexivity|].
  pose proof percpus_addr_range as Hr. unfold MAX_CPUS in *.
  destruct (set_tss_entry_base (tss_addr i) (TSS_SIZE - 1)) as [Ht1 Ht2];
    [unfold tss_addr; lia|unfold TSS_SIZE; lia|].
  split_and!; [vm_compute; reflexivity..|exact Ht1|exact Ht2|done|].
  unfold GDT_TSS, gp_limit, GDT_BYTES. lia.
Qed.

(** ** Witnesses *)

#[export] Instance demo_percpu_symbol : PercpuSymbol | 1000.
Proof. refine {| percpus_addr := 0x110000 |}. unfold MAX_CPUS. lia. Defined.

Definition demo_processor (id : Z) : processor := Processor id true (GdtPtr 0 0) 0 0 0.
Definition demo_system : system :=
  System (Kmem ∅ 0) (replicate 64 percpu_zero) 0 (replicate 256 0) percpu_zero false
    (demo_processor 0).

(** A processor that is one section away from the largest depth. *)
Definition demo_deep : system :=
  set_if false (put_cpu EarlyCpu (set_ncli (INT_MAX - 1) percpu_zero) demo_system).

Lemma pushcli_popcli_nested_witness :
  (∃ s1, pushcli demo_deep = Ret ((), s1) ∧ pushcli s1 = Undef) ∧
  ∃ s1 s2 c2, repeatM 3 pushcli demo_system = Ret ((), s1) ∧ hw_if (sy_hw s1) = false ∧
    (0 = INT_MAX - 3 → pushcli s1 = Undef) ∧
    repeatM 1 popcli s1 = Ret ((), s2) ∧ hw_if (sy_hw s2) = false ∧
    repeatM 2 popcli s2 = Ret ((), set_if true (put_cpu EarlyCpu c2 demo_system)) ∧
    set_intena 0 c2 = percpu_zero.
Proof.
  split.
  { destruct (pushcli_popcli_nested demo_deep EarlyCpu (set_ncli (INT_MAX - 1) percpu_zero) 0 0)
      as (s1 & s2 & c2 & E1 & _ & E2 & _); [|lia|].
    - split; [split; reflexivity|]. split; [unfold INT_MAX; simpl; lia|done].
    - exists s1. split; [|by apply E2].
      cbn [repeatM] in E1. unfold bind, ret in E1.
      destruct (pushcli demo_deep) as [[[] s]| | |]; try discriminate. by injection E1 as ->. }
  apply (pushcli_popcli_nested demo_system EarlyCpu percpu_zero 2 1); [|lia].
  split; [split; reflexivity|]. split; [unfold INT_MAX; simpl; lia|]. simpl. lia.
Defined.

Lemma mycpu_after_boot_witness :
  ∃ s1 s2, percpu_init_bsp 3 (set_hw (demo_processor 4) demo_system) = Ret ((), s1) ∧
    boot_aps [(2%nat, demo_processor 0); (1%nat, demo_processor 9)] s1 = Ret ((), s2) ∧
    ∀ i h, (i, hw_apic_id h) ∈ [(0%nat, 4); (2%nat, 0); (1%nat, 9)] →
      mycpu (set_hw h s2) = Ret (Cpu i, set_hw h s2) ∧
      cpu_by_apic_id s2 (hw_apic_id h) = Some (Cpu i) ∧
      ∃ c, percpus s2 !! i = Some c ∧ cpu_booted i (hw_apic_id h) c.
Proof.
  apply (mycpu_after_boot demo_system 3 (demo_processor 4)
    [(2%nat, demo_processor 0); (1%nat, demo_processor 9)]).
  - lia.
  - reflexivity.
  - apply (bool_decide_unpack _). vm_compute. exact I.
  - apply (bool_decide_unpack _). vm_compute. exact I.
  - repeat constructor; simpl; lia.
  - repeat constructor; simpl; lia.
Defined.

Lemma percpu_setup_gdt_spec_witness :
  ∃ g p, percpu_setup_gdt 3 demo_system =
      Ret ((), put_cpu (Cpu 3) (set_gdt g p percpu_zero) demo_system) ∧
    tss_base (gdt_tss g) = 0x110000 + 384 * 3 + 80.
Proof.
  destruct (percpu_setup_gdt_spec demo_system 3 percpu_zero) as (g & p & H & _ & _ & _ & _ & H1 & _).
  - reflexivity.
  - unfold MAX_CPUS. lia.
  - exists g, p. split; [exact H|exact H1].
Defined.
