(* ===== verification/Spinlock.v ===== *)
(** * Spinlocks ([kernel/sync/spinlock.c])

    Two models.  The first is the code as one processor runs it, on the state
    of [Percpu.v]: a lock that is held is then held for ever, since nobody else
    runs.  The second interleaves any number of processors that acquire and
    release one lock, an instruction on shared memory at a time. *)

From S2P Require Import Prelude Memory Kalloc Percpu.

(** [is_locked] is a byte, but [xchg] and the store of [release_spinlock] are
    32-bit accesses at its address: [lk_word] is that 32-bit word, [is_locked]
    its lowest byte and the rest padding of the structure. *)
Record spinlock := Spinlock { lk_word : Z; lk_name : string }.

Definition is_locked (lk : spinlock) : Z := Z.land (lk_word lk) 0xFF.

Definition init_spinlock (lk : spinlock) (name : string) : spinlock :=
  Spinlock (lk_word lk - is_locked lk) name.

(** [xchg(&lk->is_locked, newval)]: the old word, and the lock. *)
Definition xchg (lk : spinlock) (newval : Z) : Z * spinlock :=
  (lk_word lk, Spinlock (u32 newval) (lk_name lk)).

(** [while (xchg(&lk->is_locked, 1) != 0);] *)
Fixpoint spin (fuel : nat) (lk : spinlock) : M system spinlock :=
  match fuel with
  | O => out_of_fuel
  | S fuel =>
      let '(old, lk) := xchg lk 1 in
      if old =? 0 then ret lk else spin fuel lk
  end.

Definition acquire_spinlock (fuel : nat) (lk : spinlock) : M system spinlock :=
  do* pushcli in
  spin fuel lk.

Definition holding_spinlock (lk : spinlock) : M system Z :=
  do* pushcli in
  let r := is_locked lk in
  do* popcli in
  ret r.

Definition release_spinlock (lk : spinlock) : M system spinlock :=
  let* h := holding_spinlock lk in
  if h =? 0 then panic "release_spinlock"
  else
    do* popcli in
    ret (Spinlock 0 (lk_name lk)).

(** ** One processor *)

Lemma spin_free fuel lk s :
  lk_word lk = 0 → spin (S fuel) lk s = Ret (Spinlock 1 (lk_name lk), s).
Proof. intros H. simpl. unfold xchg. by rewrite H. Qed.

Lemma spin_held fuel lk s : lk_word lk ≠ 0 → spin fuel lk s = OutOfFuel.
Proof.
  revert lk. induction fuel as [|fuel IH]; intros lk H; [done|]. simpl.
  destruct (Z.eqb_spec (lk_word lk) 0); [done|]. by apply IH.
Qed.

(** A [pushcli] with the [popcli] that follows it changes the saved flag only. *)
Lemma push_pop {k} s r c :
  cli_room (S k) s r c →
  ∃ s1, pushcli s = Ret ((), s1) ∧ hw_if (sy_hw s1) = false ∧
    cli_room k s1 r (set_ncli (ncli c + 1) (opened s c)) ∧
    popcli s1 = Ret ((), set_if (hw_if (sy_hw s)) (put_cpu r (opened s c) s)).
Proof.
  intros Hinv. pose proof Hinv as (Hc & Hn & Hif).
  assert (apic_id (opened s c) = apic_id c) as Hid by (unfold opened; by case_match).
  assert (ncli (opened s c) = ncli c) as Hnc by (unfold opened; by case_match).
  eexists. split; [apply pushcli_result; [done|lia]|]. split; [done|]. fold (opened s c).
  assert (on_cpu (set_if false (put_cpu r (set_ncli (ncli c + 1) (opened s c)) s)) r
    (set_ncli (ncli c + 1) (opened s c))) as Hc1 by (by eapply on_cpu_put).
  split; [split; [done|]; split; [simpl; lia|done]|].
  rewrite (popcli_result _ _ _ Hc1 eq_refl) by (simpl; lia).
  rewrite put_set_if, set_if_if, put_put. simpl (ncli _). f_equal. f_equal.
  replace (ncli c + 1 - 1) with (ncli (opened s c)) by lia.
  change (set_ncli (ncli (opened s c)) (set_ncli (ncli c + 1) (opened s c)))
    with (set_ncli (ncli (opened s c)) (opened s c)).
  replace (set_ncli (ncli (opened s c)) (opened s c)) with (opened s c)
    by (by destruct (opened s c)).
  f_equal. change (intena (set_ncli (ncli c + 1) (opened s c))) with (intena (opened s c)).
  unfold opened. destruct (Z.eqb_spec (ncli c) 0) as [E|E].
  - destruct (Z.eqb_spec (ncli c + 1) 1); [|lia]. by destruct (hw_if (sy_hw s)).
  - destruct (Z.eqb_spec (ncli c + 1) 1); [lia|]. simpl. rewrite Hif; [done|lia].
Qed.

Lemma holding_result {k} s r c lk :
  cli_room (S k) s r c →
  holding_spinlock lk s =
    Ret (is_locked lk, set_if (hw_if (sy_hw s)) (put_cpu r (opened s c) s)).
Proof.
  intros Hinv. destruct (push_pop s r c Hinv) as (s1 & E1 & _ & _ & E2).
  unfold holding_spinlock. rewrite (bind_ret _ _ _ _ _ E1).
  by rewrite (bind_ret _ _ _ _ _ E2).
Qed.

(** Inside a section nothing more is recorded. *)
Lemma opened_nested s c : 0 < ncli c → opened s c = c.
Proof. intros. unfold opened. destruct (Z.eqb_spec (ncli c) 0); [lia|done]. Qed.

(** The state inside a critical section entered from [s], and the state after
    it, on the CPU of [r]. *)
Definition entered (s : system) (r : cpu_ref) (c : percpu) : system :=
  set_if false (put_cpu r (set_ncli (ncli c + 1) (opened s c)) s).
Definition left_section (s : system) (r : cpu_ref) (c : percpu) : system :=
  set_if (hw_if (sy_hw s)) (put_cpu r (opened s c) s).

Lemma acquire_free {k} s r c lk fuel :
  cli_room (S k) s r c → lk_word lk = 0 →
  acquire_spinlock (S fuel) lk s = Ret (Spinlock 1 (lk_name lk), entered s r c) ∧
  cli_room k (entered s r c) r (set_ncli (ncli c + 1) (opened s c)).
Proof.
  intros Hinv Hw. destruct (push_pop s r c Hinv) as (s1 & E1 & _ & Hinv1 & _).
  assert (s1 = entered s r c) as ->.
  { destruct Hinv as (Hc & Hn & _). rewrite (pushcli_result _ _ _ Hc ltac:(lia)) in E1.
    by injection E1 as <-. }
  split; [|done]. unfold acquire_spinlock. by rewrite (bind_ret _ _ _ _ _ E1), spin_free.
Qed.

Lemma release_entered {k} s r c nm :
  cli_room (S (S k)) s r c →
  release_spinlock (Spinlock 1 nm) (entered s r c) = Ret (Spinlock 0 nm, left_section s r c).
Proof.
  intros Hinv. pose proof Hinv as (Hc & Hn & _).
  destruct (push_pop s r c Hinv) as (s1 & E1 & Hif1 & Hinv1 & E2).
  assert (s1 = entered s r c) as ->
    by (rewrite (pushcli_result _ _ _ Hc ltac:(lia)) in E1; by injection E1 as <-).
  unfold release_spinlock. rewrite (bind_ret _ _ _ _ _ (holding_result _ r _ _ Hinv1)).
  change (is_locked (Spinlock 1 nm) =? 0) with false. cbv iota.
  rewrite opened_nested by (simpl; lia).
  destruct Hinv1 as ([Hm1 Hd1] & _). rewrite put_same by done.
  rewrite set_if_same by done. by rewrite (bind_ret _ _ _ _ _ E2).
Qed.

Lemma release_held {k} s r c nm :
  cli_room (S k) s r c → 0 < ncli c →
  release_spinlock (Spinlock 1 nm) s =
    Ret (Spinlock 0 nm, set_if ((ncli c =? 1) && negb (intena c =? 0))
      (put_cpu r (set_ncli (ncli c - 1) c) s)).
Proof.
  intros Hinv Hn. pose proof Hinv as (Hc & Hmax & Hif). specialize (Hif Hn).
  unfold release_spinlock. rewrite (bind_ret _ _ _ _ _ (holding_result _ r _ _ Hinv)).
  change (is_locked (Spinlock 1 nm) =? 0) with false. cbv iota.
  rewrite opened_nested by done. rewrite put_same by apply Hc.
  rewrite set_if_same by done. by rewrite (bind_ret _ _ _ _ _ (popcli_result _ _ _ Hc Hif ltac:(lia))).
Qed.

(** Leaving a nested section restores the state. *)
Lemma left_section_nested {k} s r c : cli_room k s r c → 0 < ncli c → left_section s r c = s.
Proof.
  intros ([_ Hd] & _ & _) Hn. unfold left_section. rewrite opened_nested by done.
  rewrite put_same by done. by apply set_if_same.
Qed.

Lemma left_section_cli {k} s r c :
  cli_room k s r c → cli_room k (left_section s r c) r (opened s c).
Proof.
  intros (Hc & Hn & Hif). unfold left_section. split; [|split].
  - eapply on_cpu_put; [done|]. unfold opened. by case_match.
  - unfold opened. by case_match.
  - intros Hn'. apply Hif. revert Hn'. unfold opened. by case_match.
Qed.

(** C15. Acquiring a free lock returns with the lock held and interrupts off;
    the processor's matching release leaves the lock free, and restores the
    interrupt flag and everything else but the saved flag.  The counter of
    [pushcli] needs room for two more: the test in the release nests. *)
Theorem acquire_release s r c lk fuel :
  cli_room 2 s r c → lk_word lk = 0 →
  ∃ s1, acquire_spinlock (S fuel) lk s = Ret (Spinlock 1 (lk_name lk), s1) ∧
    hw_if (sy_hw s1) = false ∧
    ∃ c2, release_spinlock (Spinlock 1 (lk_name lk)) s1 =
        Ret (lk, set_if (hw_if (sy_hw s)) (put_cpu r c2 s)) ∧
      set_intena (intena c) c2 = c.
Proof.
  intros Hinv Hw. exists (entered s r c).
  split; [by apply (acquire_free s r c lk fuel Hinv)|]. split; [done|]. exists (opened s c). split.
  - rewrite (release_entered s r c _ Hinv). destruct lk as [w nm]. simpl in *. by subst w.
  - unfold opened. by destruct (ncli c =? 0), c.
Qed.

(** On one processor a lock whose word is not zero is never acquired, and
    releasing a lock that is not held panics. *)
Theorem acquire_held_release_free s r c lk :
  cli_room 1 s r c →
  (lk_word lk ≠ 0 → ∀ fuel, acquire_spinlock fuel lk s = OutOfFuel) ∧
  (is_locked lk = 0 → release_spinlock lk s = Panic "release_spinlock").
Proof.
  intros Hinv. split.
  - intros Hw fuel. destruct (push_pop s r c Hinv) as (s1 & E1 & _).
    unfold acquire_spinlock. rewrite (bind_ret _ _ _ _ _ E1). by apply spin_held.
  - intros Hl. unfold release_spinlock.
    rewrite (bind_ret _ _ _ _ _ (holding_result s r c lk Hinv)). by rewrite Hl.
Qed.

(** ** Many processors

    Where a processor is in its use of the lock: outside, in the loop of
    [acquire_spinlock] (interrupts are off), in its critical section, in
    [release_spinlock] after the test and after the store. *)

Inductive pc := Outside | Spinning | Critical | Storing | Popping | Panicked.
#[export] Instance pc_eq_dec : EqDecision pc.
Proof. solve_decision. Defined.

(** A processor's own state: its interrupt flag, nesting depth and saved flag. *)
Record local := Local { l_pc : pc; l_if : bool; l_ncli : Z; l_intena : bool }.

Definition local_push (l : local) (p : pc) : local :=
  Local p false (l_ncli l + 1) (if l_ncli l =? 0 then l_if l else l_intena l).
Definition local_pop (l : local) (p : pc) : local :=
  if l_if l || (l_ncli l - 1 <? 0) then Local Panicked (l_if l) (l_ncli l - 1) (l_intena l)
  else Local p ((l_ncli l - 1 =? 0) && l_intena l) (l_ncli l - 1) (l_intena l).
Definition local_at (l : local) (p : pc) : local := Local p (l_if l) (l_ncli l) (l_intena l).

(** The next access to shared memory (or [pushcli], [popcli]) of a processor,
    on the lock word [w]. *)
Definition local_step (w : Z) (l : local) : Z * local :=
  match l_pc l with
  | Outside => (w, local_push l Spinning)
  | Spinning => (1, if w =? 0 then local_at l Critical else l)
  | Critical => (w, if Z.land w 0xFF =? 0 then local_at l Panicked else local_at l Storing)
  | Storing => (0, local_at l Popping)
  | Popping => (w, local_pop l Outside)
  | Panicked => (w, l)
  end.

(** The lock word and the processors. *)
Record world := World { w_word : Z; w_cpus : list local }.

Inductive wstep : world → world → Prop :=
| WStep i w l cpus :
    cpus !! i = Some l →
    wstep (World w cpus)
      (World (fst (local_step w l)) (<[i := snd (local_step w l)]> cpus)).

(** Initially the lock is free and every processor is outside, with interrupts
    on or off. *)
Definition winit (ifs : list bool) : world := World 0 ((λ b, Local Outside b 0 false) <$> ifs).

Definition holds (l : local) : bool := bool_decide (l_pc l = Critical ∨ l_pc l = Storing).

(** Nesting depth, interrupt flag and the absence of panics, by position. *)
Definition local_ok (l : local) : Prop :=
  match l_pc l with
  | Outside => l_ncli l = 0
  | Panicked => False
  | _ => l_ncli l = 1 ∧ l_if l = false
  end.

(** The number of holders is the lock word. *)
Definition winv (s : world) : Prop :=
  Forall local_ok (w_cpus s) ∧
  w_word s = Z.of_nat (length (filter (λ l, holds l = true) (w_cpus s))) ∧
  (length (filter (λ l, holds l = true) (w_cpus s)) ≤ 1)%nat.

Lemma filter_insert_length (P : local → bool) cpus i l l' :
  cpus !! i = Some l →
  (length (filter (λ l, P l = true) (<[i := l']> cpus)) + Nat.b2n (P l) =
   length (filter (λ l, P l = true) cpus) + Nat.b2n (P l'))%nat.
Proof.
  revert i. induction cpus as [|x cpus IH]; intros [|i] Hi; simpl in Hi; [done..| |].
  - injection Hi as ->. simpl. rewrite !filter_cons.
    destruct (P l) eqn:E, (P l') eqn:E'; repeat case_decide; simpl; try lia; congruence.
  - simpl. rewrite !filter_cons. specialize (IH i Hi).
    destruct (decide (P x = true)); simpl; lia.
Qed.

Lemma holder_counted cpus i l :
  cpus !! i = Some l → holds l = true →
  (1 ≤ length (filter (λ l, holds l = true) cpus))%nat.
Proof.
  intros Hi Hl. assert (l ∈ filter (λ l, holds l = true) cpus) as Hin.
  { apply list_elem_of_filter. split; [done|]. by eapply list_elem_of_lookup_2. }
  destruct (filter _ cpus); simpl; [by apply elem_of_nil in Hin|lia].
Qed.

Lemma winv_init ifs : winv (winit ifs).
Proof.
  unfold winv, winit. simpl. split; [|].
  - apply Forall_fmap. apply Forall_true. done.
  - replace (filter _ _) with (@nil local); [simpl; lia|]. symmetry.
    induction ifs as [|b ifs IH]; [done|]. simpl. by rewrite filter_cons_False.
Qed.

Lemma winv_step s s' : winv s → wstep s s' → winv s'.
Proof.
  intros (Hok & Hw & Hle) Hs. destruct Hs as [i w l cpus Hi]. simpl in *.
  pose proof (proj1 (Forall_lookup _ _) Hok _ _ Hi) as Hl.
  assert (holds l = true → w = 1) as Hheld.
  { intros Hx. pose proof (holder_counted cpus i l Hi Hx). lia. }
  assert (w = 0 ∨ w = 1) as Hw01 by lia.
  set (l' := snd (local_step w l)).
  pose proof (filter_insert_length holds cpus i l l' Hi) as Hcount.
  assert (local_ok l' ∧ fst (local_step w l) = w + Z.of_nat (Nat.b2n (holds l')) -
    Z.of_nat (Nat.b2n (holds l)) ∧
    (holds l' = true → holds l = true ∨ w = 0)) as (Hl' & Hw' & Hh).
  { subst l'. clear Hcount Hok Hw Hle Hi. unfold local_ok, local_step, holds in *. destruct l as [p b n e]. simpl in *.
    destruct p; simpl in *; try done.
    - subst n. simpl. split_and!; try done; lia.
    - destruct Hl as [-> ->]. destruct (Z.eqb_spec w 0) as [->|Hne]; simpl;
        split_and!; try done; lia.
    - destruct Hl as [-> ->].
      assert (w = 1) as -> by (by apply Hheld).
      simpl. split_and!; try done; lia.
    - destruct Hl as [-> ->].
      assert (w = 1) as -> by (by apply Hheld).
      simpl. split_and!; try done; lia.
    - destruct Hl as [-> ->]. simpl. split_and!; try done; lia. }
  split; [by apply Forall_insert|]. simpl. split; [lia|].
  destruct (holds l') eqn:Eh; simpl in *; [|lia].
  destruct Hh as [Eh'|Hw0]; [done|rewrite Eh' in *; simpl in *; lia|].
  destruct (holds l) eqn:El; simpl in *; lia.
Qed.

Lemma winv_reach ifs s : rtc wstep (winit ifs) s → winv s.
Proof.
  intros Hr. pose proof (winv_init ifs) as Hi. induction Hr as [|x y z Hs Hr IH]; [done|].
  apply IH. by eapply winv_step.
Qed.

Lemma holders_two cpus i j l1 l2 :
  i ≠ j → cpus !! i = Some l1 → cpus !! j = Some l2 → holds l1 = true → holds l2 = true →
  (2 ≤ length (filter (λ l, holds l = true) cpus))%nat.
Proof.
  intros Hne H1 H2 Hl1 Hl2. set (off := Local Outside false 0 false).
  pose proof (filter_insert_length holds cpus i l1 off H1) as Hc.
  pose proof (holder_counted (<[i := off]> cpus) j l2) as Hj.
  rewrite list_lookup_insert_ne in Hj by done. specialize (Hj H2 Hl2).
  rewrite Hl1 in Hc. simpl in Hc. lia.
Qed.

(** C16. Mutual exclusion: however the processors are interleaved, no two of
    them are ever in their critical sections, a processor that holds the lock
    has interrupts off, the lock word is 1 exactly while some processor holds
    it, and neither [release_spinlock] nor [popcli] ever panics. *)
Theorem spinlock_mutual_exclusion ifs s :
  rtc wstep (winit ifs) s →
  (∀ i j l1 l2, w_cpus s !! i = Some l1 → w_cpus s !! j = Some l2 →
     holds l1 = true → holds l2 = true → i = j) ∧
  (∀ i l, w_cpus s !! i = Some l → holds l = true → l_if l = false) ∧
  (w_word s = 1 ↔ ∃ i l, w_cpus s !! i = Some l ∧ holds l = true) ∧
  (∀ i l, w_cpus s !! i = Some l → l_pc l ≠ Panicked).
Proof.
  intros (Hok & Hw & Hle)%winv_reach.
  assert (∀ i l, w_cpus s !! i = Some l → local_ok l) as Hlok
    by (intros; by eapply (proj1 (Forall_lookup _ _) Hok)).
  split_and!.
  - intros i j l1 l2 H1 H2 Hl1 Hl2. destruct (decide (i = j)) as [|Hne]; [done|].
    pose proof (holders_two _ _ _ _ _ Hne H1 H2 Hl1 Hl2). lia.
  - intros i l Hi Hh%bool_decide_eq_true. specialize (Hlok i l Hi). unfold local_ok in Hlok.
    destruct Hh as [E|E]; rewrite E in Hlok; apply Hlok.
  - split.
    + intros Hw1. destruct (filter (λ l, holds l = true) (w_cpus s)) as [|l fl] eqn:Ef;
        [simpl in Hw; lia|].
      assert (l ∈ filter (λ l, holds l = true) (w_cpus s)) as Hin by (rewrite Ef; left).
      apply list_elem_of_filter in Hin as [Hh Hin]. apply list_elem_of_lookup in Hin as [i Hi].
      by exists i, l.
    + intros (i & l & Hi & Hh). pose proof (holder_counted _ _ _ Hi Hh). lia.
  - intros i l Hi Hp. specialize (Hlok i l Hi). unfold local_ok in Hlok. by rewrite Hp in Hlok.
Qed.

Lemma wstep_at i w l cpus w' l' :
  cpus !! i = Some l → local_step w l = (w', l') →
  wstep (World w cpus) (World w' (<[i := l']> cpus)).
Proof. intros Hi E. pose proof (WStep i w l cpus Hi) as Hs. by rewrite E in Hs. Qed.

(** A holder can always get to the point where the lock is free. *)
Lemma holder_releases i l cpus :
  cpus !! i = Some l → local_ok l → holds l = true →
  ∃ l', rtc wstep (World 1 cpus) (World 0 (<[i := l']> cpus)).
Proof.
  intros Hi Hok Hh%bool_decide_eq_true. destruct l as [p b n e]. simpl in Hh.
  pose proof (lookup_lt_Some _ _ _ Hi) as Hlt. unfold local_ok in Hok.
  exists (Local Popping b n e). destruct Hh as [-> | ->].
  - eapply rtc_l; [by eapply wstep_at|]. eapply rtc_l.
    + eapply (wstep_at i); [by apply list_lookup_insert_eq|done].
    + by rewrite list_insert_insert_eq.
  - eapply rtc_once. by eapply wstep_at.
Qed.

(** C17. The lock cannot deadlock: from every reachable state in which a
    processor is spinning, there is a run - in which at most the holder and
    that processor move - that brings it into its critical section. *)
Theorem spinlock_no_deadlock ifs s i l :
  rtc wstep (winit ifs) s → w_cpus s !! i = Some l → l_pc l = Spinning →
  ∃ s' l', rtc wstep s s' ∧ w_cpus s' !! i = Some l' ∧ l_pc l' = Critical.
Proof.
  intros Hr Hi Hp. pose proof (winv_reach _ _ Hr) as (Hok & Hw & Hle).
  assert (∃ cpus, rtc wstep s (World 0 cpus) ∧ cpus !! i = Some l) as (cpus & Hr0 & Hi0).
  { destruct s as [w cpus]. simpl in *. destruct (decide (w = 0)) as [->|Hw0]; [by exists cpus|].
    assert (w = 1) as -> by lia.
    destruct (filter (λ l, holds l = true) cpus) as [|h fl] eqn:Ef; [simpl in Hw; lia|].
    assert (h ∈ filter (λ l, holds l = true) cpus) as Hin by (rewrite Ef; left).
    apply list_elem_of_filter in Hin as [Hh Hin]. apply list_elem_of_lookup in Hin as [j Hj].
    destruct (holder_releases j h cpus Hj) as [l' Hrel]; [by eapply (proj1 (Forall_lookup _ _) Hok)|done|].
    exists (<[j := l']> cpus). split; [done|].
    rewrite list_lookup_insert_ne; [done|]. intros ->. rewrite Hi in Hj. injection Hj as <-.
    apply bool_decide_eq_true in Hh. rewrite Hp in Hh. by destruct Hh. }
  pose proof (lookup_lt_Some _ _ _ Hi0) as Hlt. destruct l as [p b n e]. simpl in Hp. subst p.
  eexists _, (Local Critical b n e). split; [|split; [|done]].
  - eapply rtc_r; [exact Hr0|]. by eapply wstep_at.
  - simpl. by apply list_lookup_insert_eq.
Qed.

(** ** Witnesses *)

Lemma acquire_release_witness :
  ∃ s1, acquire_spinlock 1 (Spinlock 0 "sched") demo_system = Ret (Spinlock 1 "sched", s1) ∧
    hw_if (sy_hw s1) = false ∧
    ∃ c2, release_spinlock (Spinlock 1 "sched") s1 =
        Ret (Spinlock 0 "sched", set_if true (put_cpu EarlyCpu c2 demo_system)) ∧
      set_intena 0 c2 = percpu_zero.
Proof.
  apply (acquire_release demo_system EarlyCpu percpu_zero (Spinlock 0 "sched") 0); [|reflexivity].
  apply (cli_room_le 16); [lia|]. apply cli_inv_outside; [split|]; reflexivity.
Defined.

(** Two processors; the first enters, the second spins. *)
Definition demo_world : world :=
  World 1 [Local Critical false 1 true; Local Spinning false 1 false].

Lemma demo_world_reachable : rtc wstep (winit [true; false]) demo_world.
Proof.
  eapply rtc_l; [eapply (wstep_at 0); reflexivity|].
  eapply rtc_l; [eapply (wstep_at 0); reflexivity|].
  eapply rtc_l; [eapply (wstep_at 1); reflexivity|].
  eapply rtc_l; [eapply (wstep_at 1); reflexivity|].
  apply rtc_refl.
Defined.

Lemma spinlock_mutual_exclusion_witness :
  w_word demo_world = 1 ↔ ∃ i l, w_cpus demo_world !! i = Some l ∧ holds l = true.
Proof.
  apply (spinlock_mutual_exclusion [true; false] demo_world demo_world_reachable).
Defined.

Lemma spinlock_no_deadlock_witness :
  ∃ s' l', rtc wstep demo_world s' ∧ w_cpus s' !! 1%nat = Some l' ∧ l_pc l' = Critical.
Proof.
  apply (spinlock_no_deadlock [true; false] demo_world 1 (Local Spinning false 1 false)
    demo_world_reachable); reflexivity.
Defined.
