(* ===== verification/Tty.v ===== *)
(** * The screen and the virtual terminals ([kernel/vga/vga.c], [kernel/tty/tty.c])

    A terminal is its record; the screen is the VGA text memory.  [LOG] in a
    kernel built without DEBUG is [printf] with a newline. *)

From S2P Require Import Prelude Memory Kalloc Percpu Spinlock StrUtils Printf.
From Stdlib Require Import Ascii.

(** ** The screen *)

Definition VGA_WIDTH : Z := 80.
Definition VGA_HEIGHT : Z := 25.
(** [VGA_HEIGHT * VGA_WIDTH] *)
Definition CELLS : nat := 2000.

Definition DEFAULT_BG_COLOR : Z := 15.
Definition DEFAULT_FG_COLOR : Z := 0.

Record char_with_color := Cell { character : Z; color : Z }.
Definition blank : char_with_color := Cell 0 0.
#[export] Instance cell_eq_dec : EqDecision char_with_color.
Proof. solve_decision. Defined.

(** [memset] of [n] bytes with 0 at the start of an array of cells. *)
Definition clear_bytes (n : nat) (cells : list char_with_color) : list char_with_color :=
  imap (λ i c,
    if (2 * i + 2 <=? n)%nat then blank
    else if (2 * i + 1 <=? n)%nat then Cell 0 (color c) else c) cells.

(** VGA text memory, at 0xB8000.  The static [line], [pos], [fg] and [bg] of
    [vga.c] are never read. *)
Definition clear_vga (vga : list char_with_color) : list char_with_color :=
  clear_bytes CELLS vga.

(** [for (int i = 0; i < VGA_HEIGHT * VGA_WIDTH; i++) VGA_ADDRESS[i] = tty_buffer[i];] *)
Fixpoint write_buffer_loop (i n : nat) (tty_buffer vga : list char_with_color)
    : outcome (list char_with_color) :=
  match n with
  | O => Ret vga
  | S n =>
      match tty_buffer !! i with
      | Some c => write_buffer_loop (S i) n tty_buffer (<[i := c]> vga)
      | None => Undef
      end
  end.
Definition write_buffer (tty_buffer vga : list char_with_color) : outcome (list char_with_color) :=
  write_buffer_loop 0 CELLS tty_buffer vga.

(** ** Terminals *)

Definition TERMINALS_NUMBER : nat := 7.

Record tty_structure := Tty {
  tty_buffer : list char_with_color;
  tty_id : Z;
  line : Z;
  pos : Z;
  bg : Z;
  fg : Z
}.

Record console := Console_ {
  tty_terminals : list tty_structure;
  active_tty : option nat;
  vga_memory : list char_with_color;
  printf_spinlock : spinlock;
  print_spinlock : spinlock;
  co_sys : system
}.

Definition set_terminals (l : list tty_structure) (s : console) : console :=
  Console_ l (active_tty s) (vga_memory s) (printf_spinlock s) (print_spinlock s) (co_sys s).
Definition set_active (a : option nat) (s : console) : console :=
  Console_ (tty_terminals s) a (vga_memory s) (printf_spinlock s) (print_spinlock s) (co_sys s).
Definition set_vga (v : list char_with_color) (s : console) : console :=
  Console_ (tty_terminals s) (active_tty s) v (printf_spinlock s) (print_spinlock s) (co_sys s).

(** Access through [active_tty]. *)
Definition active : M console tty_structure := λ s,
  match active_tty s ≫= (tty_terminals s !!.) with Some t => Ret (t, s) | None => Undef end.
Definition set_current_tty (t : tty_structure) : M console () := λ s,
  match active_tty s with
  | Some i => Ret ((), set_terminals (<[i := t]> (tty_terminals s)) s)
  | None => Undef
  end.
(** [write_buffer(active_tty->tty_buffer)] *)
Definition refresh : M console () :=
  let* t := active in
  let* s := get in
  let* v := lift (write_buffer (tty_buffer t) (vga_memory s)) in
  modify (set_vga v).

Definition with_printf_lock {A} (c : spinlock → M system (spinlock * A)) : M console A := λ s,
  match c (printf_spinlock s) (co_sys s) with
  | Ret ((lk, a), sys) =>
      Ret (a, Console_ (tty_terminals s) (active_tty s) (vga_memory s) lk (print_spinlock s) sys)
  | Panic msg => Panic msg
  | Undef => Undef
  | OutOfFuel => OutOfFuel
  end.
Definition with_print_lock {A} (c : spinlock → M system (spinlock * A)) : M console A := λ s,
  match c (print_spinlock s) (co_sys s) with
  | Ret ((lk, a), sys) =>
      Ret (a, Console_ (tty_terminals s) (active_tty s) (vga_memory s) (printf_spinlock s) lk sys)
  | Panic msg => Panic msg
  | Undef => Undef
  | OutOfFuel => OutOfFuel
  end.

(** The calls on a lock; on one processor the first test of the loop decides. *)
Definition acquire (lk : spinlock) : M system (spinlock * ()) :=
  let* lk := acquire_spinlock 1 lk in ret (lk, ()).
Definition release (lk : spinlock) : M system (spinlock * ()) :=
  let* lk := release_spinlock lk in ret (lk, ()).

Definition set_fg (_fg : Z) : M console () :=
  let* t := active in
  set_current_tty (Tty (tty_buffer t) (tty_id t) (line t) (pos t) (bg t) _fg).
Definition set_bg (_bg : Z) : M console () :=
  let* t := active in
  set_current_tty (Tty (tty_buffer t) (tty_id t) (line t) (pos t) _bg (fg t)).

Definition get_current_tty : M console Z := let* t := active in ret (tty_id t).

Definition make_char (value fg bg : Z) : char_with_color :=
  Cell (u8 value) (u8 (fg + Z.shiftl bg 4)).

(** The two nested loops of [scroll]: the [n] cells from [k] on, each copied
    from the line below. *)
Fixpoint scroll_lines (k n : nat) (b : list char_with_color) : outcome (list char_with_color) :=
  match n with
  | O => Ret b
  | S n =>
      match b !! (k + 80)%nat with
      | Some c => scroll_lines (S k) n (<[k := c]> b)
      | None => Undef
      end
  end.
(** The loop over the last line. *)
Fixpoint blank_cells (k n : nat) (b : list char_with_color) : list char_with_color :=
  match n with
  | O => b
  | S n => blank_cells (S k) n (<[k := make_char 0 0 0]> b)
  end.

Definition scroll (t : tty_structure) : outcome tty_structure :=
  b ← scroll_lines 0 (24 * 80) (tty_buffer t);
  Ret (Tty (blank_cells (24 * 80) 80 b) (tty_id t) (VGA_HEIGHT - 1) 0 (bg t) (fg t)).

Definition putchar_tty (c : Z) (t : tty_structure) : outcome tty_structure :=
  t ← (if VGA_HEIGHT <=? line t then scroll t else Ret t);
  if c =? ch "010" then
    Ret (Tty (tty_buffer t) (tty_id t) (u8 (line t + 1)) 0 (bg t) (fg t))
  else
    let index := line t * VGA_WIDTH + pos t in
    if index <? Z.of_nat (length (tty_buffer t)) then
      let buffer := <[Z.to_nat index := make_char c (fg t) (bg t)]> (tty_buffer t) in
      let pos' := u8 (pos t + 1) in
      Ret (Tty buffer (tty_id t) (u8 (line t + pos' / VGA_WIDTH)) (pos' mod VGA_WIDTH)
             (bg t) (fg t))
    else Undef.

Definition putchar (c : Z) : M console () :=
  let* t := active in
  let* t := lift (putchar_tty c t) in
  set_current_tty t.

(** [while ( *string != 0) putchar(string++);] *)
Fixpoint print_loop (string : list Z) : M console () :=
  match string with
  | [] => undef
  | c :: rest => if c =? 0 then ret () else do* putchar c in print_loop rest
  end.

Definition print (string : list Z) : M console () :=
  do* with_print_lock acquire in
  do* print_loop string in
  do* refresh in
  with_print_lock release.

Definition tty_sink : sink console := {|
  sink_putc c := do* putchar c in refresh;
  sink_puts b := print b;
  sink_single c := print [c; 0]
|}.

Definition printf (format : list Z) (args : list vararg) : M console () :=
  do* with_printf_lock acquire in
  do* interpret tty_sink format args in
  with_printf_lock release.

Definition LOG (format : string) (args : list vararg) : M console () :=
  printf (chars format ++ [ch "010"]) args.

Definition set_tty (terminal : Z) : M console () :=
  if Z.of_nat TERMINALS_NUMBER <=? terminal then ret ()
  else
    do* modify (λ s, set_vga (clear_vga (vga_memory s)) s) in
    do* modify (set_active (Some (Z.to_nat terminal))) in
    let* t := active in
    do* LOG "TTY %d" [VarArg (tty_id t) None] in
    refresh.

Definition clear_current_tty : M console () :=
  let* t := active in
  do* set_current_tty (Tty (clear_bytes CELLS (tty_buffer t)) (tty_id t) 0 0 (bg t) (fg t)) in
  modify (λ s, set_vga (clear_vga (vga_memory s)) s).

(** The terminals after the loop of [init_tty]. *)
Definition initial_tty (i : nat) : tty_structure :=
  Tty (clear_bytes CELLS (replicate CELLS blank)) (u8 (Z.of_nat i)) 0 0
    DEFAULT_BG_COLOR DEFAULT_FG_COLOR.

Definition init_tty : M console () :=
  do* modify (set_terminals (initial_tty <$> seq 0 TERMINALS_NUMBER)) in
  do* set_tty 0 in
  do* modify (λ s, Console_ (tty_terminals s) (active_tty s) (vga_memory s)
        (init_spinlock (printf_spinlock s) "printf spinlock")
        (init_spinlock (print_spinlock s) "print spinlock") (co_sys s)) in
  LOG "TTY subsystem initialized" [].

Definition demo_console : console :=
  Console_ [] None (replicate CELLS (Cell 120 7)) (Spinlock 0 "") (Spinlock 0 "") demo_system.
Definition row (t : list char_with_color) (r : nat) : list Z :=
  character <$> take 80 (drop (80 * r) t).

Example init_tty_shows :
  match init_tty demo_console with
  | Ret (_, s) => take 6 (row (vga_memory s) 0) = chars "TTY 0" ++ [0] ∧
                  take 4 (row (vga_memory s) 1) = chars "TTY "
  | _ => False
  end.
Proof. vm_compute. split; reflexivity. Qed.

(** ** Screens and terminals are never left *)

Lemma write_buffer_loop_spec b v k n :
  length b = length v → (k + n = length b)%nat →
  write_buffer_loop k n b (take k b ++ drop k v) = Ret b.
Proof.
  revert k. induction n as [|n IH]; intros k Hl Hk; simpl.
  - rewrite take_ge, drop_ge, app_nil_r by lia. done.
  - destruct (lookup_lt_is_Some_2 b k) as [c Hc]; [lia|]. rewrite Hc.
    rewrite <- (IH (S k)) by lia. f_equal.
    rewrite insert_app_r_alt by (rewrite length_take; lia).
    rewrite length_take, Nat.min_l, Nat.sub_diag by lia.
    destruct (lookup_lt_is_Some_2 v k) as [c' Hc']; [lia|].
    rewrite (drop_S _ _ _ Hc'), (take_S_r _ _ _ Hc), <- app_assoc. done.
Qed.

Lemma write_buffer_spec b v :
  length b = CELLS → length v = CELLS → write_buffer b v = Ret b.
Proof. intros Hb Hv. apply (write_buffer_loop_spec b v 0 CELLS); lia. Qed.

Lemma scroll_lines_spec b k n :
  (k + n + 80 ≤ length b)%nat →
  scroll_lines k n (take k (drop 80 b) ++ drop k b) =
  Ret (take (k + n) (drop 80 b) ++ drop (k + n) b).
Proof.
  revert k. induction n as [|n IH]; intros k Hk; [simpl; by rewrite Nat.add_0_r|].
  cbn [scroll_lines].
  assert (length (take k (drop 80 b)) = k) as Hlk by (rewrite length_take, length_drop; lia).
  destruct (lookup_lt_is_Some_2 b (k + 80)) as [c Hc]; [lia|].
  rewrite lookup_app_r, Hlk, lookup_drop by lia.
  replace (k + (k + 80 - k))%nat with (k + 80)%nat by lia. rewrite Hc.
  replace (k + S n)%nat with (S k + n)%nat by lia. rewrite <- (IH (S k)) by lia. f_equal.
  rewrite insert_app_r_alt by lia. rewrite Hlk, Nat.sub_diag.
  destruct (lookup_lt_is_Some_2 b k) as [c' Hc']; [lia|]. rewrite (drop_S _ _ _ Hc'). simpl.
  rewrite (take_S_r _ _ c), <- app_assoc; [done|]. rewrite lookup_drop. by rewrite Nat.add_comm.
Qed.

Lemma blank_cells_spec (l : list char_with_color) r n :
  length r = n → blank_cells (length l) n (l ++ r) = l ++ replicate n blank.
Proof.
  revert l r. induction n as [|n IH]; intros l r Hr; destruct r as [|x r]; simpl in *; try done.
  rewrite insert_app_r_alt, Nat.sub_diag by lia. simpl.
  replace (S (length l)) with (length (l ++ [make_char 0 0 0])) by (rewrite length_app; simpl; lia).
  replace (l ++ make_char 0 0 0 :: r) with ((l ++ [make_char 0 0 0]) ++ r)
    by (by rewrite <- app_assoc).
  rewrite IH by lia. by rewrite <- app_assoc.
Qed.

(** [scroll] drops the first line and adds a blank one. *)
Lemma scroll_result t :
  length (tty_buffer t) = CELLS →
  scroll t = Ret (Tty (drop 80 (tty_buffer t) ++ replicate 80 blank) (tty_id t) 24 0 (bg t) (fg t)).
Proof.
  intros Hl. unfold scroll. pose proof (scroll_lines_spec (tty_buffer t) 0 (24 * 80)) as Hs.
  rewrite take_0, drop_0, app_nil_l in Hs. unfold CELLS in Hl. rewrite Hs by lia.
  cbn [mbind outcome_bind]. rewrite take_ge by (rewrite length_drop; lia).
  replace (24 * 80)%nat with (length (drop 80 (tty_buffer t))) by (rewrite length_drop; lia).
  change (0 + length (drop 80 (tty_buffer t)))%nat with (length (drop 80 (tty_buffer t))).
  rewrite blank_cells_spec; [done|]. rewrite !length_drop. lia.
Qed.

(** A terminal in use: its buffer is a screen and the cursor is on it, or just
    below the last line. *)
Definition tty_ok (t : tty_structure) : Prop :=
  length (tty_buffer t) = CELLS ∧ 0 ≤ line t ≤ VGA_HEIGHT ∧ 0 ≤ pos t < VGA_WIDTH ∧
  (line t = VGA_HEIGHT → pos t = 0).

(** The terminal after the character [c]: a reference definition, in which the
    cursor is a position in the text. *)
Definition type_char (t : tty_structure) (c : Z) : tty_structure :=
  let t := if line t =? 25
           then Tty (drop 80 (tty_buffer t) ++ replicate 80 blank) (tty_id t) 24 0 (bg t) (fg t)
           else t in
  let p := line t * 80 + pos t in
  let p' := if c =? ch "010" then (line t + 1) * 80 else p + 1 in
  Tty (if c =? ch "010" then tty_buffer t
       else <[Z.to_nat p := make_char c (fg t) (bg t)]> (tty_buffer t))
    (tty_id t) (p' / 80) (p' mod 80) (bg t) (fg t).

Definition type_text (t : tty_structure) (s : list Z) : tty_structure := fold_left type_char s t.

Lemma putchar_tty_spec c t :
  tty_ok t → putchar_tty c t = Ret (type_char t c) ∧ tty_ok (type_char t c).
Proof.
  intros (Hl & Hline & Hpos & Hlast). unfold VGA_HEIGHT, VGA_WIDTH in *.
  unfold putchar_tty, VGA_HEIGHT, VGA_WIDTH.
  set (t' := if line t =? 25
    then Tty (drop 80 (tty_buffer t) ++ replicate 80 blank) (tty_id t) 24 0 (bg t) (fg t) else t).
  assert ((if 25 <=? line t then scroll t else Ret t) = Ret t') as ->.
  { subst t'. destruct (Z.leb_spec 25 (line t)), (Z.eqb_spec (line t) 25); try lia; [|done].
    by apply scroll_result. }
  assert (length (tty_buffer t') = CELLS ∧ 0 ≤ line t' < 25 ∧ 0 ≤ pos t' < 80) as (Hl' & Hn' & Hp').
  { subst t'. destruct (Z.eqb_spec (line t) 25); cbn [tty_buffer line pos]; [|split; [done|lia]].
    rewrite length_app, length_drop, length_replicate. unfold CELLS in *. lia. }
  cbn [mbind outcome_bind]. unfold type_char. fold t'. clearbody t'. unfold CELLS in Hl'.
  unfold tty_ok, VGA_HEIGHT, VGA_WIDTH, CELLS. destruct (Z.eqb_spec c (ch "010")).
  - cbn [tty_buffer line pos].
    rewrite (u8_small (line t' + 1)) by lia. rewrite Z.div_mul, Z.mod_mul by lia.
    split; [done|]. lia.
  - destruct (Z.ltb_spec (line t' * 80 + pos t') (Z.of_nat (length (tty_buffer t')))); [|lia].
    cbn [tty_buffer line pos]. rewrite (u8_small (pos t' + 1)) by lia.
    rewrite (u8_small (line t' + (pos t' + 1) / 80)) by (Z.to_euclidean_division_equations; lia).
    split; [f_equal; f_equal; Z.to_euclidean_division_equations; lia|].
    rewrite length_insert. Z.to_euclidean_division_equations; lia.
Qed.

Lemma type_text_ok t s : tty_ok t → tty_ok (type_text t s).
Proof.
  revert t. induction s as [|c s IH]; intros t Ht; [done|]. apply IH. by apply putchar_tty_spec.
Qed.

Lemma type_text_id t text : tty_id (type_text t text) = tty_id t.
Proof.
  revert t. induction text as [|c text IH]; intros t; [done|]. unfold type_text in *. cbn [fold_left].
  rewrite IH. unfold type_char. repeat case_match; done.
Qed.

Lemma initial_tty_ok i : tty_ok (initial_tty i).
Proof.
  split; [|split; [cbn; unfold VGA_HEIGHT; lia|split; [cbn; unfold VGA_WIDTH; lia|done]]].
  cbn [tty_buffer initial_tty]. unfold clear_bytes. by rewrite length_imap, length_replicate.
Qed.

(** ** The console *)

(** [s0] with [t] on terminal [i], which is active, and [v] on the screen. *)
Definition showing (s0 : console) (i : nat) (t : tty_structure) (v : list char_with_color)
    : console :=
  Console_ (<[i := t]> (tty_terminals s0)) (Some i) v (printf_spinlock s0) (print_spinlock s0)
    (co_sys s0).

Section showing.
Context (s0 : console) (i : nat) (Hi : (i < length (tty_terminals s0))%nat).

Lemma active_showing t v : active (showing s0 i t v) = Ret (t, showing s0 i t v).
Proof using Hi. unfold active. simpl. by rewrite list_lookup_insert_eq. Qed.

Lemma putchar_showing c t v :
  tty_ok t → putchar c (showing s0 i t v) = Ret ((), showing s0 i (type_char t c) v).
Proof using Hi.
  intros Ht. unfold putchar. rewrite (bind_ret _ _ _ _ _ (active_showing t v)).
  unfold bind, lift. rewrite (proj1 (putchar_tty_spec c t Ht)).
  unfold set_current_tty, set_terminals, showing. simpl. by rewrite list_insert_insert_eq.
Qed.

Lemma refresh_showing t v :
  tty_ok t → length v = CELLS →
  refresh (showing s0 i t v) = Ret ((), showing s0 i t (tty_buffer t)).
Proof using Hi.
  intros (Hl & _) Hv. unfold refresh. rewrite (bind_ret _ _ _ _ _ (active_showing t v)).
  unfold bind, get, lift. cbn [vga_memory showing]. by rewrite write_buffer_spec.
Qed.

Lemma print_loop_showing str rest t v :
  tty_ok t → Forall (λ c, c ≠ 0) str →
  print_loop (c_string str rest) (showing s0 i t v) = Ret ((), showing s0 i (type_text t str) v).
Proof using Hi.
  intros Ht Hs. revert t Ht. induction Hs as [|c str Hc Hs IH]; intros t Ht; [done|].
  cbn [c_string app print_loop]. destruct (Z.eqb_spec c 0); [done|].
  rewrite (bind_ret _ _ _ _ _ (putchar_showing c t v Ht)). apply IH. by apply putchar_tty_spec.
Qed.
End showing.

(** [s0] with another state of [print_spinlock] and of the processors. *)
Definition with_print (s0 : console) (lk : spinlock) (sys : system) : console :=
  Console_ (tty_terminals s0) (active_tty s0) (vga_memory s0) (printf_spinlock s0) lk sys.

Lemma print_showing {k} s0 i t v r c str rest :
  (i < length (tty_terminals s0))%nat → tty_ok t → length v = CELLS →
  Forall (λ c, c ≠ 0) str → cli_room (S (S k)) (co_sys s0) r c → lk_word (print_spinlock s0) = 0 →
  print (c_string str rest) (showing s0 i t v) =
  Ret ((), showing (with_print s0 (print_spinlock s0) (left_section (co_sys s0) r c)) i
             (type_text t str) (tty_buffer (type_text t str))).
Proof.
  intros Hi Ht Hv Hs Hc Hlk. unfold print.
  destruct (acquire_free (co_sys s0) r c (print_spinlock s0) 0 Hc Hlk) as [Ea Hc1].
  set (s1 := with_print s0 (Spinlock 1 (lk_name (print_spinlock s0))) (entered (co_sys s0) r c)).
  assert (with_print_lock acquire (showing s0 i t v) = Ret ((), showing s1 i t v)) as E1.
  { unfold with_print_lock, acquire. cbn [print_spinlock showing co_sys].
    by rewrite (bind_ret _ _ _ _ _ Ea). }
  rewrite (bind_ret _ _ _ _ _ E1).
  rewrite (bind_ret _ _ _ _ _ (print_loop_showing s1 i Hi str rest t v Ht Hs)).
  rewrite (bind_ret _ _ _ _ _ (refresh_showing s1 i Hi _ v (type_text_ok _ str Ht) Hv)).
  unfold with_print_lock, release. cbn [print_spinlock showing co_sys s1 with_print].
  rewrite (bind_ret _ _ _ _ _ (release_entered _ _ _ _ Hc)).
  destruct s0 as [? ? ? ? [w nm] ?]. simpl in Hlk. subst w. done.
Qed.

Section tty_console.
Context (k : nat) (s0 : console) (i : nat) (t0 : tty_structure) (r : cpu_ref) (c : percpu).
Context (Hi : (i < length (tty_terminals s0))%nat) (Ht0 : tty_ok t0)
  (Hcli : cli_room (S (S k)) (co_sys s0) r c) (Hnest : 0 < ncli c) (Hlk : lk_word (print_spinlock s0) = 0).

(** The console after the text [t], printed since [t0] was on the terminal. *)
Definition shows (s : console) (t : list Z) : Prop :=
  ∃ v, length v = CELLS ∧ (t ≠ [] → v = tty_buffer (type_text t0 t)) ∧
    s = showing s0 i (type_text t0 t) v.

Lemma type_text_app t s1 s2 : type_text t (s1 ++ s2) = type_text (type_text t s1) s2.
Proof. apply fold_left_app. Qed.

Lemma shows_next t str :
  shows (showing s0 i (type_text t0 (t ++ str)) (tty_buffer (type_text t0 (t ++ str)))) (t ++ str).
Proof using Ht0.
  eexists. split; [|by split]. by apply type_text_ok.
Qed.

Lemma print_shows s t str rest :
  shows s t → Forall (λ c, c ≠ 0) str →
  ∃ s', print (c_string str rest) s = Ret ((), s') ∧ shows s' (t ++ str).
Proof using All.
  intros (v & Hv & _ & ->) Hs. eexists. split; [|apply shows_next].
  rewrite (print_showing (k := k) s0 i _ v r c) by (done || by apply type_text_ok).
  rewrite (left_section_nested _ _ _ Hcli) by done. rewrite type_text_app. by destruct s0.
Qed.

#[export] Instance tty_console : Console tty_sink shows.
Proof using All.
  split.
  - intros s t x (v & Hv & _ & ->) Hx. eexists. split; [|apply shows_next].
    cbn [sink_putc tty_sink].
    rewrite (bind_ret _ _ _ _ _ (putchar_showing s0 i Hi x _ v (type_text_ok _ t Ht0))).
    rewrite refresh_showing; [by rewrite type_text_app|done|by apply putchar_tty_spec, type_text_ok|done].
  - intros s t str rest Hs Hstr. by apply print_shows.
  - intros s t x Hs Hx. apply (print_shows s t [x] []); [done|by constructor].
Qed.
End tty_console.

Lemma showing_self s i t :
  active_tty s = Some i → tty_terminals s !! i = Some t → s = showing s i t (vga_memory s).
Proof.
  intros Ha Ht. unfold showing. rewrite list_insert_id by done. destruct s. simpl in *. by subst.
Qed.

(** [s] with another state of the processors. *)
Definition with_sys (s : console) (sys : system) : console :=
  Console_ (tty_terminals s) (active_tty s) (vga_memory s) (printf_spinlock s) (print_spinlock s) sys.

(** A console that can print: a terminal is active and in order, the locks are
    free. *)
Definition console_ready (s : console) (i : nat) (t : tty_structure) (r : cpu_ref) (c : percpu)
    : Prop :=
  active_tty s = Some i ∧ tty_terminals s !! i = Some t ∧ tty_ok t ∧
  length (vga_memory s) = CELLS ∧ cli_inv (co_sys s) r c ∧
  lk_word (printf_spinlock s) = 0 ∧ lk_word (print_spinlock s) = 0.

Lemma printf_result s i t r c format args text :
  console_ready s i t r c → interpret text_sink format args [] = Ret ((), text) → (0 ∉ text) →
  ∃ v, printf format args s =
      Ret ((), showing (with_sys s (left_section (co_sys s) r c)) i (type_text t text) v) ∧
    length v = CELLS ∧ (text ≠ [] → v = tty_buffer (type_text t text)) ∧ tty_ok (type_text t text).
Proof.
  intros (Ha & Ht & Hok & Hv & Hcli & Hl1 & Hl2) Htext H0.
  pose proof (lookup_lt_Some _ _ _ Ht) as Hi.
  destruct (acquire_free (co_sys s) r c (printf_spinlock s) 0 Hcli Hl1) as [Ea Hc1].
  set (s1 := Console_ (tty_terminals s) (Some i) (vga_memory s)
    (Spinlock 1 (lk_name (printf_spinlock s))) (print_spinlock s) (entered (co_sys s) r c)).
  assert (with_printf_lock acquire s = Ret ((), s1)) as E1.
  { unfold with_printf_lock, acquire. rewrite (bind_ret _ _ _ _ _ Ea). unfold ret, s1.
    by rewrite Ha. }
  assert (Console tty_sink (shows s1 i t)) as HC.
  { eapply (tty_console 13 s1 i t r (set_ncli (ncli c + 1) (opened (co_sys s) c))); [done..| |done].
    destruct Hcli as (_ & ? & _). simpl. lia. }
  assert (shows s1 i t s1 []) as Hsh.
  { exists (vga_memory s). split; [done|]. split; [done|]. by apply (showing_self s1). }
  destruct (interpret_console tty_sink (shows s1 i t) format args [] text s1 Htext Hsh H0)
    as (s2 & E2 & v & Hlv & Hv2 & ->).
  exists v. split; [|split; [done|split; [done|by apply type_text_ok]]].
  unfold printf. rewrite (bind_ret _ _ _ _ _ E1), (bind_ret _ _ _ _ _ E2).
  unfold with_printf_lock, release. cbn [printf_spinlock showing co_sys s1].
  rewrite (bind_ret _ _ _ _ _ (release_entered _ _ _ _ Hcli)).
  destruct s as [? ? ? [w nm] ? ?]. simpl in Hl1. subst w. done.
Qed.

(** C18. [printf] types the text that its format and arguments denote on the
    active terminal - wrapping, breaking lines and scrolling as the reference
    definition of a terminal does - and shows the terminal on the screen; it
    stays inside the buffers, releases its locks and restores the interrupt
    flag. *)
Theorem printf_spec s i t r c format args text :
  console_ready s i t r c → interpret text_sink format args [] = Ret ((), text) → (0 ∉ text) →
  ∃ v, printf format args s =
      Ret ((), showing (with_sys s (left_section (co_sys s) r c)) i (type_text t text) v) ∧
    (text ≠ [] → v = tty_buffer (type_text t text)) ∧ tty_ok (type_text t text).
Proof.
  intros H1 H2 H3. destruct (printf_result s i t r c format args text H1 H2 H3) as (v & E & _ & Hv & Ht).
  by exists v.
Qed.

Lemma clear_bytes_half cells k cell :
  cells !! k = Some cell →
  clear_bytes CELLS cells !! k = Some (if (k <? 1000)%nat then blank else cell).
Proof.
  intros Hk. unfold clear_bytes. rewrite list_lookup_imap, Hk. simpl. f_equal.
  unfold CELLS. destruct (Nat.leb_spec (k + (k + 0) + 2) 2000), (Nat.ltb_spec k 1000); try lia; [done|].
  destruct (Nat.leb_spec (k + (k + 0) + 1) 2000); [lia|done].
Qed.

(** [clear_current_tty] moves the cursor to the start but clears only the
    upper half of the terminal and of the screen: it passes the number of cells
    to [memset], which counts bytes, and a cell has two. *)
Theorem clear_current_tty_half s i t :
  active_tty s = Some i → tty_terminals s !! i = Some t →
  ∃ s' t', clear_current_tty s = Ret ((), s') ∧ tty_terminals s' !! i = Some t' ∧
    line t' = 0 ∧ pos t' = 0 ∧
    (∀ k cell, tty_buffer t !! k = Some cell →
       tty_buffer t' !! k = Some (if (k <? 1000)%nat then blank else cell)) ∧
    (∀ k cell, vga_memory s !! k = Some cell →
       vga_memory s' !! k = Some (if (k <? 1000)%nat then blank else cell)).
Proof.
  intros Ha Ht. pose proof (lookup_lt_Some _ _ _ Ht) as Hi.
  unfold clear_current_tty, bind at 1, active. rewrite Ha. simpl. rewrite Ht.
  unfold bind, set_current_tty. rewrite Ha.
  eexists _, _. split; [reflexivity|]. simpl. split; [by apply list_lookup_insert_eq|].
  split; [done|]. split; [done|]. split; intros k cell; apply clear_bytes_half.
Qed.

(** ** Witnesses *)

Definition demo_terminal : tty_structure := Tty (replicate CELLS (Cell 88 7)) 0 25 0 15 0.
Definition demo_screen : console :=
  Console_ [demo_terminal] (Some 0%nat) (replicate CELLS (Cell 88 7)) (Spinlock 0 "")
    (Spinlock 0 "") demo_system.

Lemma demo_screen_ready : console_ready demo_screen 0 demo_terminal EarlyCpu percpu_zero.
Proof.
  repeat split; try reflexivity; unfold VGA_HEIGHT, VGA_WIDTH, INT_MAX; simpl; try lia; done.
Qed.

Lemma printf_spec_witness :
  ∃ v, printf (chars "n=%d") [VarArg 7 None] demo_screen =
      Ret ((), showing (with_sys demo_screen (left_section demo_system EarlyCpu percpu_zero)) 0
        (type_text demo_terminal (chars "n=7")) v) ∧
    (chars "n=7" ≠ [] → v = tty_buffer (type_text demo_terminal (chars "n=7"))) ∧
    tty_ok (type_text demo_terminal (chars "n=7")).
Proof.
  apply (printf_spec demo_screen 0 demo_terminal EarlyCpu percpu_zero (chars "n=%d")
    [VarArg 7 None] (chars "n=7") demo_screen_ready).
  - vm_compute. reflexivity.
  - apply (bool_decide_unpack _). vm_compute. exact I.
Defined.

Lemma clear_current_tty_half_witness :
  ∃ s' t', clear_current_tty demo_screen = Ret ((), s') ∧ tty_terminals s' !! 0%nat = Some t' ∧
    tty_buffer t' !! 1999%nat = Some (Cell 88 7).
Proof.
  destruct (clear_current_tty_half demo_screen 0 demo_terminal eq_refl eq_refl)
    as (s' & t' & H & Ht & _ & _ & Hb & _).
  exists s', t'. split; [exact H|]. split; [exact Ht|].
  apply (Hb 1999%nat (Cell 88 7)). vm_compute. reflexivity.
Defined.
