(* ===== verification/Serial.v ===== *)
(** * Serial ports ([kernel/serial/serial.c])

    The ports are devices outside the kernel: the class [UartDev] is what the
    code does with them (reading and writing a port), [Uart] is what it relies
    on, and [uart16550] is a device that behaves so. *)

From S2P Require Import Prelude Memory Kalloc Percpu Spinlock StrUtils Printf.
From Stdlib Require Import Ascii.

Definition SERIAL_COM1_PORT : Z := 0x3F8.
Definition SERIAL_COM2_PORT : Z := 0x2F8.
Definition SERIAL_COM3_PORT : Z := 0x3E8.
Definition SERIAL_COM4_PORT : Z := 0x2E8.
Definition MAX_SERIAL_PORTS : Z := 4.

Definition SERIAL_DATA_PORT (base : Z) : Z := base.
Definition SERIAL_FIFO_COMMAND_PORT (base : Z) : Z := base + 2.
Definition SERIAL_LINE_COMMAND_PORT (base : Z) : Z := base + 3.
Definition SERIAL_MODEM_COMMAND_PORT (base : Z) : Z := base + 4.
Definition SERIAL_LINE_STATUS_PORT (base : Z) : Z := base + 5.

Definition SERIAL_DISABLE_INTERRUPTS : Z := 0x00.
Definition SERIAL_ENABLE_DLAB : Z := 0x80.
Definition SERIAL_BAUD_DIVISOR_LOW : Z := 0x03.
Definition SERIAL_BAUD_DIVISOR_HIGH : Z := 0x00.
Definition SERIAL_LINE_CONFIG_8N1 : Z := 0x03.
Definition SERIAL_FIFO_ENABLE_CLEAR_14B : Z := 0xC7.
Definition SERIAL_MODEM_IRQ_RTS_DSR : Z := 0x0B.
Definition SERIAL_MODEM_LOOPBACK : Z := 0x1E.
Definition SERIAL_TEST_PAYLOAD : Z := 0xAE.
Definition SERIAL_MODEM_NORMAL_OP : Z := 0x0F.
Definition SERIAL_TRANSMIT_EMPTY_MASK : Z := 0x20.

Definition standard_com_ports : list Z :=
  [SERIAL_COM1_PORT; SERIAL_COM2_PORT; SERIAL_COM3_PORT; SERIAL_COM4_PORT].
Definition serial_printf_spinlock_names : list string :=
  ["serial_printf_1"; "serial_printf_2"; "serial_printf_3"; "serial_printf_4"].

(** A device: [inb] and [outb] on its ports, and how often the model polls the
    line status before it gives up. *)
Class UartDev (D : Type) := {
  dev_in : Z → D → Z * D;
  dev_out : Z → Z → D → D;
  poll_limit : nat
}.

Record serial (D : Type) := Serial {
  initialized_ports : list Z;
  num_initialized_ports : Z;
  default_serial_port : Z;
  serial_printf_spinlocks : list spinlock;
  se_dev : D;
  se_sys : system
}.
Arguments Serial {D} _ _ _ _ _ _.
Arguments initialized_ports {D} _.
Arguments num_initialized_ports {D} _.
Arguments default_serial_port {D} _.
Arguments serial_printf_spinlocks {D} _.
Arguments se_dev {D} _.
Arguments se_sys {D} _.

Section serial.
Context {D : Type} {UD : UartDev D}.
Abbreviation st := (serial D).

Definition set_ports (l : list Z) (n : Z) (s : st) : st :=
  Serial l n (default_serial_port s) (serial_printf_spinlocks s) (se_dev s) (se_sys s).
Definition set_default (p : Z) (s : st) : st :=
  Serial (initialized_ports s) (num_initialized_ports s) p (serial_printf_spinlocks s)
    (se_dev s) (se_sys s).
Definition set_locks (l : list spinlock) (s : st) : st :=
  Serial (initialized_ports s) (num_initialized_ports s) (default_serial_port s) l
    (se_dev s) (se_sys s).
Definition set_dev (d : D) (s : st) : st :=
  Serial (initialized_ports s) (num_initialized_ports s) (default_serial_port s)
    (serial_printf_spinlocks s) d (se_sys s).

Definition outb (port val : Z) : M st () := modify (λ s, set_dev (dev_out port (u8 val) (se_dev s)) s).
Definition inb (port : Z) : M st Z := λ s,
  let '(v, d) := dev_in port (se_dev s) in Ret (v, set_dev d s).

(** The loop of [get_port_index] over the [n] entries from [i] on. *)
Fixpoint find_port (ports : list Z) (port : Z) (i n : nat) : Z :=
  match n with
  | O => -1
  | S n =>
      match ports !! i with
      | Some p => if p =? port then Z.of_nat i else find_port ports port (S i) n
      | None => -1
      end
  end.
Definition get_port_index (port : Z) (s : st) : Z :=
  find_port (initialized_ports s) port 0 (Z.to_nat (num_initialized_ports s)).

Definition set_default_serial_port (port : Z) : M st () := λ s,
  Ret ((), if get_port_index port s =? -1 then s else set_default port s).
Definition get_default_serial_port : M st Z := gets default_serial_port.

Definition serial_is_transmit_empty (port : Z) : M st Z :=
  let* i := gets (get_port_index port) in
  if i =? -1 then ret 0
  else
    let* v := inb (SERIAL_LINE_STATUS_PORT port) in
    ret (Z.land v SERIAL_TRANSMIT_EMPTY_MASK).

(** [while (serial_is_transmit_empty(port) == 0);] *)
Fixpoint wait_empty (fuel : nat) (port : Z) : M st () :=
  match fuel with
  | O => out_of_fuel
  | S fuel =>
      let* e := serial_is_transmit_empty port in
      if e =? 0 then wait_empty fuel port else ret ()
  end.

Definition serial_putchar (port c : Z) : M st () :=
  let* i := gets (get_port_index port) in
  if i =? -1 then ret ()
  else
    do* wait_empty poll_limit port in
    outb (SERIAL_DATA_PORT port) c.

Fixpoint serial_write_loop (port : Z) (str : list Z) : M st () :=
  match str with
  | [] => undef
  | c :: rest =>
      if c =? 0 then ret () else do* serial_putchar port c in serial_write_loop port rest
  end.

Definition serial_write (port : Z) (str : list Z) : M st () :=
  let* i := gets (get_port_index port) in
  if i =? -1 then ret () else serial_write_loop port str.

(** The output calls of [serial_printf]. *)
Definition serial_sink (port : Z) : sink st := {|
  sink_putc := serial_putchar port;
  sink_puts := serial_write port;
  sink_single := serial_putchar port
|}.

(** A call on the lock of an index. *)
Definition with_lock (i : Z) (c : spinlock → M system spinlock) : M st () := λ s,
  match serial_printf_spinlocks s !! Z.to_nat i with
  | None => Undef
  | Some lk =>
      match c lk (se_sys s) with
      | Ret (lk', sys) =>
          Ret ((), Serial (initialized_ports s) (num_initialized_ports s) (default_serial_port s)
                     (<[Z.to_nat i := lk']> (serial_printf_spinlocks s)) (se_dev s) sys)
      | Panic msg => Panic msg
      | Undef => Undef
      | OutOfFuel => OutOfFuel
      end
  end.

Definition serial_printf (port : Z) (format : list Z) (args : list vararg) : M st () :=
  let* i := gets (get_port_index port) in
  if i =? -1 then ret ()
  else
    do* with_lock i (acquire_spinlock 1) in
    do* interpret (serial_sink port) format args in
    with_lock i release_spinlock.

(** Storing into [initialized_ports]. *)
Definition store_port (i port n : Z) : M st () := λ s,
  if (0 <=? i) && (i <? Z.of_nat (length (initialized_ports s)))
  then Ret ((), set_ports (<[Z.to_nat i := port]> (initialized_ports s)) n s) else Undef.

Definition INIT_MESSAGE : list Z :=
  chars "[SERIAL] Serial port at 0x%x initialized successfully" ++ [ch "013"; ch "010"].

(** The writes before the loopback test. *)
Definition program_port (port : Z) : M st () :=
  do* outb (port + 1) SERIAL_DISABLE_INTERRUPTS in
  do* outb (SERIAL_LINE_COMMAND_PORT port) SERIAL_ENABLE_DLAB in
  do* outb (SERIAL_DATA_PORT port) SERIAL_BAUD_DIVISOR_LOW in
  do* outb (port + 1) SERIAL_BAUD_DIVISOR_HIGH in
  do* outb (SERIAL_LINE_COMMAND_PORT port) SERIAL_LINE_CONFIG_8N1 in
  do* outb (SERIAL_FIFO_COMMAND_PORT port) SERIAL_FIFO_ENABLE_CLEAR_14B in
  do* outb (SERIAL_MODEM_COMMAND_PORT port) SERIAL_MODEM_IRQ_RTS_DSR in
  do* outb (SERIAL_MODEM_COMMAND_PORT port) SERIAL_MODEM_LOOPBACK in
  outb (SERIAL_DATA_PORT port) SERIAL_TEST_PAYLOAD.

(** [init_spinlock(&serial_printf_spinlocks[index], serial_printf_spinlock_names[index])] *)
Definition init_lock (i : Z) : M st () := λ s,
  match serial_printf_spinlocks s !! Z.to_nat i, serial_printf_spinlock_names !! Z.to_nat i with
  | Some lk, Some name =>
      Ret ((), set_locks (<[Z.to_nat i := init_spinlock lk name]> (serial_printf_spinlocks s)) s)
  | _, _ => Undef
  end.

(** The end of [init_serial], once the port has an index. *)
Definition finish_port (port index : Z) : M st Z :=
  do* init_lock index in
  do* serial_printf port INIT_MESSAGE [VarArg port None] in
  let* n := gets num_initialized_ports in
  do* (if n =? 1 then set_default_serial_port port else ret ()) in
  ret 0.

Definition init_serial (port : Z) : M st Z :=
  if port =? 0 then ret (-1)
  else
    do* program_port port in
    let* v := inb (SERIAL_DATA_PORT port) in
    if negb (v =? SERIAL_TEST_PAYLOAD) then ret (-1)
    else
      do* outb (SERIAL_MODEM_COMMAND_PORT port) SERIAL_MODEM_NORMAL_OP in
      let* index := gets (get_port_index port) in
      let* n := gets num_initialized_ports in
      if index =? -1 then
        if MAX_SERIAL_PORTS <=? n then ret (-1)
        else
          do* store_port n port (n + 1) in
          finish_port port n
      else finish_port port index.

(** The loop of [detect_serial_ports] over the ports left to probe. *)
Fixpoint detect_loop (ports : list Z) : M st () :=
  match ports with
  | [] => ret ()
  | port :: ports =>
      let* r := init_serial port in
      do* (if r =? 0 then
             let* n := gets num_initialized_ports in
             store_port n port (n + 1)
           else ret ()) in
      detect_loop ports
  end.

Definition detect_serial_ports : M st Z :=
  let* n := gets num_initialized_ports in
  if negb (n =? -1) then ret n
  else
    do* modify (λ s, set_ports (initialized_ports s) 0 s) in
    do* detect_loop standard_com_ports in
    gets num_initialized_ports.

Definition init_serial_ports : M st Z :=
  let* count := detect_serial_ports in
  if count <=? 0 then ret (-1)
  else
    let* s := get in
    match initialized_ports s !! Z.to_nat (count - 1) with
    | None => undef
    | Some port => do* set_default_serial_port port in ret count
    end.
End serial.

(** The static initialisers. *)
Definition serial_boot {D} (d : D) (sys : system) : serial D :=
  Serial (replicate 4 0) (-1) SERIAL_COM1_PORT (replicate 4 (Spinlock 0 "")) d sys.

(** ** What the driver relies on *)

Section device.
Context {D : Type} {UD : UartDev D}.

(** The writes of [program_port] on the device. *)
Definition program_dev (p : Z) (d : D) : D :=
  fold_left (λ d '(port, v), dev_out port v d)
    [(p + 1, SERIAL_DISABLE_INTERRUPTS); (SERIAL_LINE_COMMAND_PORT p, SERIAL_ENABLE_DLAB);
     (SERIAL_DATA_PORT p, SERIAL_BAUD_DIVISOR_LOW); (p + 1, SERIAL_BAUD_DIVISOR_HIGH);
     (SERIAL_LINE_COMMAND_PORT p, SERIAL_LINE_CONFIG_8N1);
     (SERIAL_FIFO_COMMAND_PORT p, SERIAL_FIFO_ENABLE_CLEAR_14B);
     (SERIAL_MODEM_COMMAND_PORT p, SERIAL_MODEM_IRQ_RTS_DSR);
     (SERIAL_MODEM_COMMAND_PORT p, SERIAL_MODEM_LOOPBACK);
     (SERIAL_DATA_PORT p, SERIAL_TEST_PAYLOAD)] d.

(** Polling the line status until the transmitter is empty. *)
Fixpoint dev_wait (fuel : nat) (p : Z) (d : D) : option D :=
  match fuel with
  | O => None
  | S fuel =>
      let '(v, d) := dev_in (SERIAL_LINE_STATUS_PORT p) d in
      if Z.land v SERIAL_TRANSMIT_EMPTY_MASK =? 0 then dev_wait fuel p d else Some d
  end.
End device.

(** [present p]: there is a working chip at the base port [p].  [online d p]:
    it is set up and not in loopback mode.  [sent d p]: the bytes that left it. *)
Class Uart (D : Type) {UD : UartDev D} := {
  present : Z → bool;
  online : D → Z → Prop;
  sent : D → Z → list Z;
  (** The loopback test answers with the byte sent, on a working chip only;
      normal operation brings the port on line, and sends nothing. *)
  uart_probe p d : p ∈ standard_com_ports →
    let '(v, d1) := dev_in (SERIAL_DATA_PORT p) (program_dev p d) in
    let d2 := dev_out (SERIAL_MODEM_COMMAND_PORT p) SERIAL_MODEM_NORMAL_OP d1 in
    (v = SERIAL_TEST_PAYLOAD ↔ present p = true) ∧
    (present p = true → online d2 p ∧ sent d2 p = sent d p);
  (** A port on line becomes ready within the model's polls. *)
  uart_ready p d : p ∈ standard_com_ports → online d p →
    ∃ d', dev_wait poll_limit p d = Some d' ∧ online d' p ∧ sent d' p = sent d p;
  (** It sends the bytes written to its data port. *)
  uart_send p c d : p ∈ standard_com_ports → online d p → 0 ≤ c < 256 →
    online (dev_out p c d) p ∧ sent (dev_out p c d) p = sent d p ++ [c]
}.

(** ** A device: chips at the base ports [bases] *)

Record chip := Chip { dlab : bool; loopback : bool; received : Z; wire : list Z }.
Definition chip_reset : chip := Chip true false 0 [].

Definition uart_regs (d : gmap Z chip) (p : Z) : chip := default chip_reset (d !! p).

Definition chip_out (off v : Z) (c : chip) : chip :=
  if off =? 0 then
    if dlab c then c
    else if loopback c then Chip (dlab c) (loopback c) v (wire c)
    else Chip (dlab c) (loopback c) (received c) (wire c ++ [v])
  else if off =? 3 then Chip (Z.testbit v 7) (loopback c) (received c) (wire c)
  else if off =? 4 then Chip (dlab c) (Z.testbit v 4) (received c) (wire c)
  else c.

Definition chip_in (off : Z) (c : chip) : Z :=
  if off =? 0 then received c else if off =? 5 then 0x60 else 0.

Definition uart16550_dev (bases : list Z) : UartDev (gmap Z chip) := {|
  dev_in port d :=
    (if bool_decide (port - port mod 8 ∈ bases)
     then chip_in (port mod 8) (uart_regs d (port - port mod 8)) else 0xFF, d);
  dev_out port v d :=
    <[port - port mod 8 := chip_out (port mod 8) v (uart_regs d (port - port mod 8))]> d;
  poll_limit := 1
|}.

Lemma standard_ports_aligned p : p ∈ standard_com_ports → p mod 8 = 0.
Proof.
  unfold standard_com_ports. rewrite !elem_of_cons, elem_of_nil.
  intros Hp. destruct_or! Hp; subst; done.
Qed.

Section uart16550.
Context (bases : list Z) (p : Z) (Hp : p mod 8 = 0).

Lemma port_base off : 0 ≤ off < 8 → (p + off) - (p + off) mod 8 = p ∧ (p + off) mod 8 = off.
Proof using Hp.
  intros. rewrite Z.add_mod, Hp, Z.add_0_l, Z.mod_mod by lia.
  rewrite Z.mod_small by lia. lia.
Qed.

Lemma uart_out off v d :
  0 ≤ off < 8 →
  uart_regs (dev_out (UartDev := uart16550_dev bases) (p + off) v d) p =
  chip_out off v (uart_regs d p).
Proof using Hp.
  intros Ho. destruct (port_base off Ho) as [E1 E2]. cbn [dev_out uart16550_dev].
  rewrite E1, E2. unfold uart_regs at 1. by rewrite lookup_insert_eq.
Qed.

Lemma uart_out0 v d :
  uart_regs (dev_out (UartDev := uart16550_dev bases) p v d) p = chip_out 0 v (uart_regs d p).
Proof using Hp. rewrite <- uart_out by lia. by rewrite Z.add_0_r. Qed.

Lemma uart_in off d :
  0 ≤ off < 8 →
  dev_in (UartDev := uart16550_dev bases) (p + off) d =
  (if bool_decide (p ∈ bases) then chip_in off (uart_regs d p) else 0xFF, d).
Proof using Hp.
  intros Ho. destruct (port_base off Ho) as [E1 E2]. cbn [dev_in uart16550_dev]. by rewrite E1, E2.
Qed.

Lemma uart_program d :
  uart_regs (program_dev (UD := uart16550_dev bases) p d) p =
  Chip false true SERIAL_TEST_PAYLOAD (wire (uart_regs d p)).
Proof using Hp.
  unfold program_dev. cbn [fold_left].
  unfold SERIAL_LINE_COMMAND_PORT, SERIAL_FIFO_COMMAND_PORT, SERIAL_MODEM_COMMAND_PORT,
    SERIAL_DATA_PORT.
  repeat first [rewrite uart_out0 | rewrite uart_out by lia]. by destruct (uart_regs d p).
Qed.
End uart16550.

Lemma uart16550 (bases : list Z) : Uart (gmap Z chip) (UD := uart16550_dev bases).
Proof.
  refine {|
    present p := bool_decide (p ∈ bases);
    online d p := p ∈ bases ∧ dlab (uart_regs d p) = false ∧ loopback (uart_regs d p) = false;
    sent d p := wire (uart_regs d p) |}.
  - intros p d Hp%standard_ports_aligned. unfold SERIAL_DATA_PORT, SERIAL_MODEM_COMMAND_PORT.
    pose proof (uart_in bases p Hp 0 (program_dev (UD := uart16550_dev bases) p d) ltac:(lia)) as Hin.
    rewrite Z.add_0_r in Hin. rewrite Hin. cbv beta iota zeta.
    rewrite uart_out, (uart_program bases p Hp) by (done || lia).
    case_bool_decide; [|done]. split; [done|]. intros _. done.
  - intros p d Hp%standard_ports_aligned (Hin & Hd & Hl). exists d.
    change (@poll_limit _ (uart16550_dev bases)) with 1%nat. cbn [dev_wait].
    unfold SERIAL_LINE_STATUS_PORT. rewrite (uart_in bases p Hp 5 d) by lia.
    rewrite bool_decide_eq_true_2 by done. by split_and!.
  - intros p c d Hp%standard_ports_aligned (Hin & Hd & Hl) Hc.
    rewrite (uart_out0 bases p Hp). unfold chip_out. cbn [Z.eqb]. rewrite Hd, Hl. done.
Defined.

Definition demo_ports : list Z := standard_com_ports.
Example detect_all :
  match detect_serial_ports (UD := uart16550_dev demo_ports) (serial_boot ∅ demo_system) with
  | Ret (n, s) => n = 4 ∧ initialized_ports s = [0x3F8; 0x3F8; 0x2F8; 0x2F8]
  | _ => False
  end.
Proof. vm_compute. split; reflexivity. Qed.

(** ** Output *)

Section output.
Context {D : Type} {UD : UartDev D} {U : Uart D (UD := UD)}.
Abbreviation st := (serial D).

Lemma wait_empty_dev fuel port (s : st) :
  get_port_index port s ≠ -1 →
  wait_empty fuel port s =
  match dev_wait fuel port (se_dev s) with Some d => Ret ((), set_dev d s) | None => OutOfFuel end.
Proof.
  revert s. induction fuel as [|fuel IH]; intros s Hi; [done|]. cbn [wait_empty dev_wait].
  unfold serial_is_transmit_empty, bind at 1 2, gets at 1.
  destruct (Z.eqb_spec (get_port_index port s) (-1)); [done|]. unfold bind, inb.
  destruct (dev_in _ (se_dev s)) as [v d]. simpl. destruct (Z.land v _ =? 0); [|done].
  by rewrite IH.
Qed.

Lemma serial_putchar_online port c (s : st) :
  port ∈ standard_com_ports → get_port_index port s ≠ -1 → online (se_dev s) port →
  ∃ d, serial_putchar port c s = Ret ((), set_dev d s) ∧ online d port ∧
    sent d port = sent (se_dev s) port ++ [u8 c].
Proof using U.
  intros Hp Hi Ho. destruct (uart_ready port (se_dev s) Hp Ho) as (d & Hw & Ho' & Hs').
  destruct (uart_send port (u8 c) d Hp Ho' (u8_range c)) as [Ho2 Hs2].
  exists (dev_out port (u8 c) d). split; [|split; [done|by rewrite Hs2, Hs']].
  unfold serial_putchar, bind at 1, gets.
  destruct (Z.eqb_spec (get_port_index port s) (-1)); [done|].
  unfold bind. rewrite wait_empty_dev by done. by rewrite Hw.
Qed.

Lemma serial_write_online port str rest (s : st) :
  port ∈ standard_com_ports → get_port_index port s ≠ -1 → online (se_dev s) port →
  Forall (λ c, c ≠ 0) str →
  ∃ d, serial_write port (c_string str rest) s = Ret ((), set_dev d s) ∧ online d port ∧
    sent d port = sent (se_dev s) port ++ (u8 <$> str).
Proof using U.
  intros Hp Hi Ho Hstr. unfold serial_write, bind, gets.
  destruct (Z.eqb_spec (get_port_index port s) (-1)) as [|_]; [done|].
  revert s Hi Ho. induction Hstr as [|c str Hc Hstr IH]; intros s Hi Ho.
  - exists (se_dev s). simpl. rewrite app_nil_r. split; [by destruct s|done].
  - destruct (serial_putchar_online port c s Hp Hi Ho) as (d & E & Ho1 & Hs1).
    destruct (IH (set_dev d s) Hi Ho1) as (d2 & E2 & Ho2 & Hs2). exists d2.
    cbn [c_string app serial_write_loop]. destruct (Z.eqb_spec c 0); [done|].
    rewrite (bind_ret _ _ _ _ _ E). split; [exact E2|]. split; [done|].
    rewrite Hs2. cbn [se_dev set_dev]. rewrite Hs1. by rewrite <- app_assoc.
Qed.

(** The driver's state after the text [t] went out on [port]. *)
Definition sent_on (port : Z) (s0 s : st) (t : list Z) : Prop :=
  ∃ d, s = set_dev d s0 ∧ online d port ∧ sent d port = sent (se_dev s0) port ++ (u8 <$> t).

Lemma serial_console port (s0 : st) :
  port ∈ standard_com_ports → get_port_index port s0 ≠ -1 →
  Console (serial_sink port) (sent_on port s0).
Proof using U.
  intros Hp Hi.
  assert (∀ s t c, sent_on port s0 s t →
    ∃ s', serial_putchar port c s = Ret ((), s') ∧ sent_on port s0 s' (t ++ [c])) as Hc.
  { intros s t c (d & -> & Ho & Hs).
    destruct (serial_putchar_online port c (set_dev d s0) Hp Hi Ho) as (d' & E & Ho' & Hs').
    exists (set_dev d' s0). split; [exact E|]. exists d'. split_and!; [done..|].
    rewrite Hs'. cbn [se_dev set_dev]. rewrite Hs, fmap_app. by rewrite <- app_assoc. }
  split; [intros; by apply Hc| |intros; by apply Hc].
  intros s t str rest (d & -> & Ho & Hs) Hstr.
  destruct (serial_write_online port str rest (set_dev d s0) Hp Hi Ho Hstr) as (d' & E & Ho' & Hs').
  exists (set_dev d' s0). split; [exact E|]. exists d'. split_and!; [done..|].
  rewrite Hs'. cbn [se_dev set_dev]. rewrite Hs, fmap_app. by rewrite <- app_assoc.
Qed.

(** A port that can print: found at an index whose lock is free, and on line. *)
Definition port_ready (port i : Z) (s : st) : Prop :=
  port ∈ standard_com_ports ∧ get_port_index port s = i ∧ 0 ≤ i ∧ online (se_dev s) port ∧
  ∃ lk, serial_printf_spinlocks s !! Z.to_nat i = Some lk ∧ lk_word lk = 0.

Definition set_serial_sys (sys : system) (s : st) : st :=
  Serial (initialized_ports s) (num_initialized_ports s) (default_serial_port s)
    (serial_printf_spinlocks s) (se_dev s) sys.

Lemma serial_printf_result port i (s : st) r c format args text :
  port_ready port i s → cli_inv (se_sys s) r c →
  interpret text_sink format args [] = Ret ((), text) → (0 ∉ text) →
  ∃ d, serial_printf port format args s =
      Ret ((), set_dev d (set_serial_sys (left_section (se_sys s) r c) s)) ∧
    online d port ∧ sent d port = sent (se_dev s) port ++ (u8 <$> text).
Proof using U.
  intros (Hp & Hi & Hi0 & Ho & lk & Hlk & Hw) Hcli Htext H0.
  destruct (acquire_free (se_sys s) r c lk 0 Hcli Hw) as [Ea _].
  set (s1 := Serial (initialized_ports s) (num_initialized_ports s) (default_serial_port s)
    (<[Z.to_nat i := Spinlock 1 (lk_name lk)]> (serial_printf_spinlocks s)) (se_dev s)
    (entered (se_sys s) r c)).
  assert (get_port_index port s1 = i) as Hi1 by exact Hi.
  pose proof (serial_console port s1 Hp ltac:(rewrite Hi1; lia)) as HC.
  assert (sent_on port s1 s1 []) as Hs1.
  { exists (se_dev s). split; [done|]. split; [done|]. simpl. by rewrite app_nil_r. }
  destruct (interpret_console (serial_sink port) (sent_on port s1) format args [] text s1
    Htext Hs1 H0) as (s2 & E2 & d & -> & Ho2 & Hs2).
  exists d. split; [|done]. unfold serial_printf, bind at 1, gets at 1. rewrite Hi.
  destruct (Z.eqb_spec i (-1)); [lia|].
  assert (with_lock i (acquire_spinlock 1) s = Ret ((), s1)) as E1.
  { unfold with_lock. by rewrite Hlk, Ea. }
  rewrite (bind_ret _ _ _ _ _ E1), (bind_ret _ _ _ _ _ E2). unfold with_lock.
  cbn [serial_printf_spinlocks set_dev s1 se_sys se_dev].
  pose proof (lookup_lt_Some _ _ _ Hlk).
  rewrite list_lookup_insert_eq by done. rewrite release_entered by done.
  rewrite list_insert_insert_eq. destruct lk as [w nm]. simpl in Hw. subst w.
  rewrite list_insert_id by done. done.
Qed.

(** [serial_printf] on a port that is set up sends exactly the text that
    the format and arguments denote - the same text that [printf] types - and
    releases the port's lock; on a port that is not set up it does nothing. *)
Theorem serial_printf_spec port i (s : st) r c format args text :
  cli_inv (se_sys s) r c → interpret text_sink format args [] = Ret ((), text) → (0 ∉ text) →
  (port_ready port i s →
   ∃ d, serial_printf port format args s =
       Ret ((), set_dev d (set_serial_sys (left_section (se_sys s) r c) s)) ∧
     sent d port = sent (se_dev s) port ++ (u8 <$> text)) ∧
  (get_port_index port s = -1 → serial_printf port format args s = Ret ((), s)).
Proof using U.
  intros Hcli Htext H0. split.
  - intros Hr. destruct (serial_printf_result port i s r c format args text Hr Hcli Htext H0)
      as (d & E & _ & Hs). by exists d.
  - intros Hi. unfold serial_printf, bind, gets. by rewrite Hi.
Qed.
End output.

(** ** Detection *)

Section detection.
Context {D : Type} {UD : UartDev D} {U : Uart D (UD := UD)}.
Abbreviation st := (serial D).

Lemma program_port_dev port (s : st) :
  program_port port s = Ret ((), set_dev (program_dev port (se_dev s)) s).
Proof. reflexivity. Qed.

(** The text of the message that [init_serial] logs. *)
Lemma init_message port :
  port ∈ standard_com_ports →
  ∃ text, interpret text_sink INIT_MESSAGE [VarArg port None] [] = Ret ((), text) ∧ (0 ∉ text).
Proof.
  unfold standard_com_ports. rewrite !elem_of_cons, elem_of_nil. intros Hp.
  destruct_or! Hp; subst port; (eexists; split;
    [vm_compute; reflexivity|apply (bool_decide_unpack _); vm_compute; exact I]).
Qed.

(** The driver during detection: the first [num_initialized_ports] entries of
    [initialized_ports] are in use, all locks are free. *)
Definition detecting (s : st) (r : cpu_ref) (c : percpu) : Prop :=
  length (initialized_ports s) = 4%nat ∧
  length (serial_printf_spinlocks s) = 4%nat ∧
  Forall (λ lk, lk_word lk = 0) (serial_printf_spinlocks s) ∧
  cli_inv (se_sys s) r c.

Lemma find_port_absent ports port i n :
  (∀ j p, (i ≤ j < i + n)%nat → ports !! j = Some p → p ≠ port) → find_port ports port i n = -1.
Proof.
  revert i. induction n as [|n IH]; intros i H; simpl; [done|].
  destruct (ports !! i) as [p|] eqn:E; [|done].
  destruct (Z.eqb_spec p port); [exfalso; eapply (H i); [lia|done..]|].
  apply IH. intros j q Hj. apply H. lia.
Qed.

Lemma find_port_first ports port i n k :
  (i ≤ k < i + n)%nat → ports !! k = Some port →
  (∀ j p, (i ≤ j < k)%nat → ports !! j = Some p → p ≠ port) →
  (∀ j, (i ≤ j < k)%nat → is_Some (ports !! j)) → find_port ports port i n = Z.of_nat k.
Proof.
  revert i. induction n as [|n IH]; intros i Hk Hp Hn Hs; [lia|]. simpl.
  destruct (decide (i = k)) as [->|Hne]; [by rewrite Hp, Z.eqb_refl|].
  destruct (Hs i ltac:(lia)) as [q Hq]. rewrite Hq.
  destruct (Z.eqb_spec q port); [exfalso; eapply (Hn i); [lia|done..]|].
  apply IH; [lia|done|intros; eapply Hn; [|done]; lia|intros; apply Hs; lia].
Qed.

(** Once the port has its entry, [finish_port] returns 0 and leaves the tables. *)
Lemma finish_port_result port (s : st) r c k :
  detecting s r c → port ∈ standard_com_ports → (k < 4)%nat →
  get_port_index port s = Z.of_nat k → online (se_dev s) port →
  ∃ s' c', finish_port port (Z.of_nat k) s = Ret (0, s') ∧ detecting s' r c' ∧
    initialized_ports s' = initialized_ports s ∧
    num_initialized_ports s' = num_initialized_ports s.
Proof using U.
  intros (Hl & Hll & Hfree & Hcli) Hp Hk Hi Ho. set (lks := serial_printf_spinlocks s) in *.
  destruct (lookup_lt_is_Some_2 lks k) as [lk Hlk]; [lia|].
  destruct (lookup_lt_is_Some_2 serial_printf_spinlock_names k) as [name Hname]; [simpl; lia|].
  pose proof (proj1 (Forall_lookup _ _) Hfree _ _ Hlk) as Hw. simpl in Hw.
  assert (lk_word (init_spinlock lk name) = 0) as Hw' by (unfold init_spinlock, is_locked; by rewrite Hw).
  set (s1 := set_locks (<[k := init_spinlock lk name]> lks) s).
  assert (init_lock (Z.of_nat k) s = Ret ((), s1)) as E1.
  { unfold init_lock. fold lks. by rewrite Nat2Z.id, Hlk, Hname. }
  destruct (init_message port Hp) as (text & Ht & H0).
  destruct (serial_printf_result port (Z.of_nat k) s1 r c INIT_MESSAGE [VarArg port None] text)
    as (d & E2 & _); [|done..|].
  { split_and!; [done|exact Hi|lia|exact Ho|]. exists (init_spinlock lk name). split; [|done].
    simpl. rewrite Nat2Z.id. apply list_lookup_insert_eq. lia. }
  change (se_sys s1) with (se_sys s) in E2.
  unfold finish_port. rewrite (bind_ret _ _ _ _ _ E1), (bind_ret _ _ _ _ _ E2).
  unfold bind at 1, gets. cbn [num_initialized_ports set_dev set_serial_sys s1 set_locks].
  set (s2 := set_dev d (set_serial_sys (left_section (se_sys s) r c) s1)).
  assert (∀ s3, s3 = s2 ∨ s3 = set_default port s2 →
    detecting s3 r (opened (se_sys s) c) ∧ initialized_ports s3 = initialized_ports s ∧
    num_initialized_ports s3 = num_initialized_ports s) as Hd.
  { intros s3 H3. assert (se_sys s3 = left_section (se_sys s) r c ∧
      serial_printf_spinlocks s3 = <[k := init_spinlock lk name]> lks ∧
      initialized_ports s3 = initialized_ports s ∧
      num_initialized_ports s3 = num_initialized_ports s) as (Hs & Hlk3 & Hp3 & Hn3)
      by (by destruct H3 as [-> | ->]).
    split; [|done]. unfold detecting. rewrite Hp3, Hlk3, Hs, length_insert.
    split_and!; [done|done|by apply Forall_insert|by apply left_section_cli]. }
  destruct (num_initialized_ports s =? 1).
  - unfold bind, set_default_serial_port. destruct (get_port_index port s2 =? -1).
    + exists s2, (opened (se_sys s) c). split; [done|]. apply Hd. by left.
    + exists (set_default port s2), (opened (se_sys s) c). split; [done|]. apply Hd. by right.
  - exists s2, (opened (se_sys s) c). split; [done|]. apply Hd. by left.
Qed.

(** [init_serial] during detection, when [n] entries are in use. *)
Lemma init_serial_result port (s : st) r c n :
  detecting s r c → port ∈ standard_com_ports →
  num_initialized_ports s = Z.of_nat n → (n ≤ 4)%nat → (port ∉ take n (initialized_ports s)) →
  ∃ s' c' v, init_serial port s = Ret (v, s') ∧ detecting s' r c' ∧
    (if present port && (n <? 4)%nat
     then v = 0 ∧ num_initialized_ports s' = Z.of_nat n + 1 ∧
       initialized_ports s' = <[n := port]> (initialized_ports s)
     else v = -1 ∧ num_initialized_ports s' = Z.of_nat n ∧
       initialized_ports s' = initialized_ports s).
Proof using U.
  intros Hdet Hp Hn Hn4 Hnin. pose proof (uart_probe port (se_dev s) Hp) as Hprobe.
  unfold init_serial. destruct (Z.eqb_spec port 0) as [->|_].
  { exfalso. revert Hp. apply (bool_decide_unpack _). vm_compute. exact I. }
  rewrite (bind_ret _ _ _ _ _ (program_port_dev port s)).
  unfold bind at 1, inb. cbn [se_dev set_dev]. destruct (dev_in _ _) as [v d1].
  destruct Hprobe as [Hv Hon].
  destruct (Z.eqb_spec v SERIAL_TEST_PAYLOAD) as [->|Hne]; cbn [negb].
  2:{ destruct (present port) eqn:Epres; [by destruct Hne; apply Hv|]. cbn [andb].
      by exists (set_dev d1 s), c, (-1). }
  rewrite (proj1 Hv eq_refl) in *. destruct (Hon eq_refl) as [Honline _]. clear Hv Hon.
  unfold bind at 1, outb, modify. unfold bind at 1, gets at 1.
  change (u8 SERIAL_MODEM_NORMAL_OP) with SERIAL_MODEM_NORMAL_OP. cbn [se_dev set_dev].
  set (s2 := set_dev (dev_out _ _ _) _).
  assert (∀ j p, (0 ≤ j < 0 + n)%nat → initialized_ports s !! j = Some p → p ≠ port) as Hother.
  { intros j p Hj Hjp ->. apply Hnin. apply list_elem_of_lookup. exists j.
    rewrite lookup_take_lt by lia. done. }
  assert (get_port_index port s2 = -1) as Hidx.
  { unfold get_port_index. change (num_initialized_ports s2) with (num_initialized_ports s).
    change (initialized_ports s2) with (initialized_ports s). rewrite Hn, Nat2Z.id.
    by apply find_port_absent. }
  rewrite Hidx. unfold bind at 1, gets at 1. cbn [Z.eqb Pos.eqb].
  change (num_initialized_ports s2) with (num_initialized_ports s). rewrite Hn.
  unfold MAX_SERIAL_PORTS. destruct (Nat.ltb_spec n 4); cbn [andb].
  2:{ destruct (Z.leb_spec 4 (Z.of_nat n)); [|lia]. by exists s2, c, (-1). }
  destruct (Z.leb_spec 4 (Z.of_nat n)); [lia|]. pose proof Hdet as (Hl & Hdet').
  set (s3 := set_ports (<[n := port]> (initialized_ports s)) (Z.of_nat n + 1) s2).
  assert (store_port (Z.of_nat n) port (Z.of_nat n + 1) s2 = Ret ((), s3)) as E3.
  { unfold store_port. change (initialized_ports s2) with (initialized_ports s).
    destruct (Z.leb_spec 0 (Z.of_nat n)); [|lia].
    destruct (Z.ltb_spec (Z.of_nat n) (Z.of_nat (length (initialized_ports s)))); [|lia].
    cbn [andb]. by rewrite Nat2Z.id. }
  rewrite (bind_ret _ _ _ _ _ E3).
  destruct (finish_port_result port s3 r c n) as (s4 & c4 & E4 & Hdet4 & Hp4 & Hn4').
  - split; [|exact Hdet']. simpl. by rewrite length_insert.
  - done.
  - done.
  - unfold get_port_index. simpl. replace (Z.to_nat (Z.of_nat n + 1)) with (S n) by lia.
    apply find_port_first; [lia|apply list_lookup_insert_eq; lia| |].
    + intros j p Hj. rewrite list_lookup_insert_ne by lia. apply Hother. lia.
    + intros j Hj. rewrite list_lookup_insert_ne by lia. apply lookup_lt_is_Some_2. lia.
  - exact Honline.
  - exists s4, c4, 0. split; [exact E4|]. split; [done|]. by rewrite Hp4, Hn4'.
Qed.

(** The entries that detection makes for the working ports [ws]: two each. *)
Definition doubled (ws : list Z) : list Z := ws ≫= λ p, [p; p].

Lemma doubled_app ws p : doubled (ws ++ [p]) = doubled ws ++ [p; p].
Proof. unfold doubled. rewrite bind_app. simpl. done. Qed.

Lemma length_doubled ws : length (doubled ws) = (2 * length ws)%nat.
Proof. unfold doubled. induction ws as [|w ws IH]; [done|]. rewrite bind_cons, length_app, IH. simpl. lia. Qed.

Lemma doubled_elem ws p : p ∈ doubled ws → p ∈ ws.
Proof. unfold doubled. rewrite list_elem_of_bind. set_solver. Qed.

Lemma detect_loop_result ports : ∀ (s : st) r c ws,
  detecting s r c → NoDup (ws ++ ports) → Forall (.∈ standard_com_ports) ports →
  num_initialized_ports s = Z.of_nat (4 `min` length (doubled ws)) →
  initialized_ports s = take 4 (doubled ws ++ replicate 4 0) →
  ∃ s' c', detect_loop ports s = Ret ((), s') ∧ detecting s' r c' ∧
    let ws' := ws ++ filter (λ p, present p = true) ports in
    num_initialized_ports s' = Z.of_nat (4 `min` length (doubled ws')) ∧
    initialized_ports s' = take 4 (doubled ws' ++ replicate 4 0).
Proof using U.
  induction ports as [|port ports IH]; intros s r c ws Hdet Hnd Hstd Hn Hports.
  { exists s, c. simpl. rewrite app_nil_r. done. }
  apply Forall_cons in Hstd as [Hp Hstd]. pose proof (length_doubled ws) as Hld.
  destruct (init_serial_result port s r c (4 `min` length (doubled ws))) as
    (s1 & c1 & v & E1 & Hdet1 & H1); [done|done|done|lia| |].
  { rewrite Hports. intros Hin. rewrite take_take in Hin.
    assert (port ∈ doubled ws) as Hd%doubled_elem.
    { rewrite take_app_le in Hin by lia. apply elem_of_take in Hin as (j & Hj & _).
      by eapply list_elem_of_lookup_2. }
    apply NoDup_app in Hnd as (_ & Hnd & _). eapply Hnd; [exact Hd|left]. }
  cbn [detect_loop]. rewrite (bind_ret _ _ _ _ _ E1). rewrite filter_cons.
  assert (NoDup ((ws ++ [port]) ++ ports)) as Hnd' by (by rewrite <- app_assoc).
  assert (NoDup (ws ++ ports)) as Hnd''.
  { apply NoDup_app in Hnd as (N1 & N2 & N3). apply NoDup_app. apply NoDup_cons in N3 as [_ N3].
    split_and!; [done| |done]. intros x Hx Hx'. apply (N2 x Hx). by right. }
  pose proof (length_doubled (ws ++ [port])) as Hld2. rewrite length_app in Hld2. simpl in Hld2.
  destruct (present port) eqn:Epres; cbn [andb] in H1.
  - rewrite decide_True by done.
    replace (ws ++ port :: filter (λ p, present p = true) ports)
      with ((ws ++ [port]) ++ filter (λ p, present p = true) ports) by (by rewrite <- app_assoc).
    destruct (Nat.ltb_spec (4 `min` length (doubled ws)) 4) as [Hlt|Hge].
    + destruct H1 as (-> & Hn1 & Hp1). cbn [Z.eqb]. pose proof Hdet1 as (Hl1 & Hdet1').
      set (s2 := set_ports (<[S (4 `min` length (doubled ws)) := port]> (initialized_ports s1))
        (num_initialized_ports s1 + 1) s1).
      assert ((let* n := gets num_initialized_ports in store_port n port (n + 1)) s1 =
        Ret ((), s2)) as E2.
      { unfold bind, gets, store_port. rewrite Hl1, Hn1.
        destruct (Z.leb_spec 0 (Z.of_nat (4 `min` length (doubled ws)) + 1)); [|lia].
        destruct (Z.ltb_spec (Z.of_nat (4 `min` length (doubled ws)) + 1) (Z.of_nat 4)); [|lia].
        cbn [andb]. subst s2. rewrite Hn1. do 4 f_equal. lia. }
      rewrite (bind_ret _ _ _ _ _ E2). apply (IH s2 r c1 (ws ++ [port])); [|done|done| |].
      * split; [|exact Hdet1']. simpl. by rewrite length_insert.
      * subst s2. cbn [num_initialized_ports set_ports]. rewrite Hn1. lia.
      * subst s2. cbn [initialized_ports set_ports]. rewrite Hp1, Hports.
        assert (length ws < 2)%nat as Hws by lia. clear -Hws.
        destruct ws as [|w [|w' ws]]; [reflexivity|reflexivity|simpl in Hws; lia].
    + destruct H1 as (-> & Hn1 & Hp1). cbn [Z.eqb]. unfold bind at 1, ret at 1.
      apply (IH s1 r c1 (ws ++ [port])); [done|done|done| |].
      * rewrite Hn1. lia.
      * rewrite Hp1, Hports. rewrite doubled_app, <- app_assoc, !take_app_le by lia. done.
  - rewrite decide_False by done. destruct H1 as (-> & Hn1 & Hp1). cbn [Z.eqb].
    unfold bind at 1, ret at 1. apply (IH s1 r c1 ws); [done..| |]; by rewrite ?Hn1, ?Hp1.
Qed.

(** [detect_serial_ports] counts every working port twice, because
    [init_serial] has already entered it: the entries come in pairs, at most
    the first two working ports get any, and with three or four working ports
    the result is 4 all the same. *)
Theorem detect_serial_ports_doubles (d : D) sys r c :
  cli_inv sys r c →
  let ws := filter (λ p, present p = true) standard_com_ports in
  ∃ s', detect_serial_ports (serial_boot d sys) =
      Ret (Z.of_nat (4 `min` (2 * length ws)), s') ∧
    initialized_ports s' = take 4 (doubled ws ++ replicate 4 0).
Proof using U.
  intros Hcli ws. unfold detect_serial_ports. unfold bind at 1, gets at 1.
  change (negb (num_initialized_ports (serial_boot d sys) =? -1)) with false. cbv iota.
  unfold bind at 1, modify.
  destruct (detect_loop_result standard_com_ports
    (set_ports (initialized_ports (serial_boot d sys)) 0 (serial_boot d sys)) r c [])
    as (s' & c' & E & _ & Hn & Hp).
  - split_and!; [done..|repeat constructor|exact Hcli].
  - apply (bool_decide_unpack _). vm_compute. exact I.
  - apply (bool_decide_unpack _). vm_compute. exact I.
  - done.
  - done.
  - exists s'. rewrite (bind_ret _ _ _ _ _ E). unfold gets. rewrite app_nil_l in Hn, Hp.
    fold ws in Hn, Hp. rewrite Hn, length_doubled. done.
Qed.
End detection.

(** ** Witnesses *)

Lemma detect_serial_ports_doubles_witness :
  ∃ s', detect_serial_ports (UD := uart16550_dev [0x3F8; 0x2F8; 0x2E8])
      (serial_boot ∅ demo_system) = Ret (4, s') ∧
    initialized_ports s' = [0x3F8; 0x3F8; 0x2F8; 0x2F8].
Proof.
  apply (detect_serial_ports_doubles (U := uart16550 [0x3F8; 0x2F8; 0x2E8]) ∅ demo_system
    EarlyCpu percpu_zero).
  apply cli_inv_outside; [split|]; reflexivity.
Defined.

(** COM1 set up and on line. *)
Definition demo_serial : serial (gmap Z chip) :=
  Serial [0x3F8; 0; 0; 0] 1 0x3F8 (replicate 4 (Spinlock 0 ""))
    {[ 0x3F8 := Chip false false 0 [] ]} demo_system.

Lemma serial_printf_spec_witness :
  ∃ d, serial_printf (UD := uart16550_dev [0x3F8]) 0x3F8 (chars "id %u") [VarArg 3 None] demo_serial =
      Ret ((), set_dev d (set_serial_sys (left_section demo_system EarlyCpu percpu_zero) demo_serial)) ∧
    sent (Uart := uart16550 [0x3F8]) d 0x3F8 = [] ++ (u8 <$> chars "id 3").
Proof.
  apply (serial_printf_spec (U := uart16550 [0x3F8]) 0x3F8 0 demo_serial EarlyCpu percpu_zero
    (chars "id %u") [VarArg 3 None] (chars "id 3")).
  - apply cli_inv_outside; [split|]; reflexivity.
  - vm_compute. reflexivity.
  - apply (bool_decide_unpack _). vm_compute. exact I.
  - split; [left|]. split; [reflexivity|]. split; [lia|].
    split; [split; [left|split; reflexivity]|]. exists (Spinlock 0 ""). split; reflexivity.
Defined.
