(* ===== verification/Reports.v ===== *)
(** * Reports over the serial port

    The functions that only report: [percpu_log_cpu_info] and
    [percpu_log_timer_ticks] of [kernel/sched/percpu.c] and [sched_log_state] of
    [kernel/sched/smp_sched.c], with the macro [LOG_SERIAL] of
    [kernel/lib/include/logging.h]. *)

From S2P Require Import Prelude Memory Kalloc StrUtils Printf Templates Percpu Spinlock Serial.
From Stdlib Require Import Ascii.

(** What is left of the system [sys0] after any number of sections with
    interrupts off on the CPU of [r]. *)
Definition after_sections (sys0 : system) (r : cpu_ref) (c0 : percpu) (sys : system) : Prop :=
  sys = sys0 ∨ sys = left_section sys0 r c0.

Lemma after_cli sys0 r c0 sys : cli_inv sys0 r c0 → after_sections sys0 r c0 sys →
  ∃ c, cli_inv sys r c ∧ after_sections sys0 r c0 (left_section sys r c).
Proof.
  intros Hcli [-> | ->]; [exists c0; split; [done|by right]|]. exists (opened sys0 c0). split; [by apply left_section_cli|]. right.
  assert (ncli (opened sys0 c0) = ncli c0) as E2 by (unfold opened; by case_match).
  unfold left_section. rewrite put_set_if, put_put. cbn [hw_if sy_hw set_if set_hw]. rewrite set_if_if. do 2 f_equal.
  unfold opened at 1. rewrite E2. unfold opened. destruct (ncli c0 =? 0) eqn:E; done.
Qed.

(** An argument of integer or pointer type, and a string literal. *)
Definition arg (v : Z) : vararg := VarArg (u64 v) None.
Definition lit_arg (s : string) : vararg := VarArg 1 (Some (chars s ++ [0])).

(** Parts of formats. *)
Definition L (s : string) : piece := Lit (chars s).
Definition num (v : Z) : piece := Dec (u64 v).
Definition ptr (v : Z) : piece := Ptr (u64 v).

(** Literal text has no directive, which computation shows. *)
Ltac plain := repeat (apply Forall_cons_2; [first [exact I | apply (bool_decide_unpack _); vm_compute; exact I]|]); apply Forall_nil_2.

Section reports.
Context {PS : PercpuSymbol} {D : Type} {UD : UartDev D}.
Abbreviation st := (serial D).

Definition LOG_SERIAL (logger format : string) (args : list vararg) : M st () :=
  let* port := get_default_serial_port in
  serial_printf port (chars "[" ++ chars logger ++ chars "] " ++ chars format ++ [13; 10]) args.

(** [struct percpu *cpu = &percpus[i]], read when a field is used. *)
Definition cpu_at (i : nat) : M st percpu := λ s,
  match percpus (se_sys s) !! i with
  | Some c => Ret (c, s)
  | None => Undef
  end.

(** The loop of [percpu_log_cpu_info] over the [n] CPUs from [i] on. *)
Fixpoint log_cpu_info (n i : nat) : M st () :=
  match n with
  | O => ret ()
  | S n =>
      let* c := cpu_at i in
      do* LOG_SERIAL "PERCPU" "CPU %d: APIC ID=%d, %s, started=%d"
            [arg (cpu_index c); arg (apic_id c); lit_arg (if is_bsp c then "BSP" else "AP"); arg (Z.b2z (started c))] in
      let* c := cpu_at i in
      do* LOG_SERIAL "PERCPU" "  int_stack=%p, kstack=%p" [arg (int_stack c); arg (kstack c)] in
      let* c := cpu_at i in
      do* LOG_SERIAL "PERCPU" "  TSS RSP0=%p, IST1=%p" [arg (rsp0 (tss c)); arg (ist1 (tss c))] in
      do* LOG_SERIAL "PERCPU" "  GDT at %p" [arg (gdt_addr i)] in
      log_cpu_info n (S i)
  end.

Definition percpu_log_cpu_info : M st () :=
  do* LOG_SERIAL "PERCPU" "=== Per-CPU Data Summary ===" [] in
  let* s := get in
  do* LOG_SERIAL "PERCPU" "Total CPUs: %d" [arg (ncpu (se_sys s))] in
  do* log_cpu_info (Z.to_nat (ncpu (se_sys s))) 0 in
  LOG_SERIAL "PERCPU" "============================" [].

Fixpoint log_timer_ticks (n i : nat) : M st () :=
  match n with
  | O => ret ()
  | S n =>
      let* c := cpu_at i in
      do* LOG_SERIAL "PERCPU" "CPU %d (APIC %d): %llu ticks" [arg (cpu_index c); arg (apic_id c); arg (timer_ticks c)] in
      log_timer_ticks n (S i)
  end.

Definition percpu_log_timer_ticks : M st () :=
  do* LOG_SERIAL "PERCPU" "=== Timer Interrupt Counts ===" [] in
  let* s := get in
  do* log_timer_ticks (Z.to_nat (ncpu (se_sys s))) 0 in
  LOG_SERIAL "PERCPU" "==============================" [].

Fixpoint log_state (n i : nat) : M st () :=
  match n with
  | O => ret ()
  | S n =>
      let* c := cpu_at i in
      do* (if negb (started c) then ret ()
           else LOG_SERIAL "SCHED" "CPU %d: %d threads, current=%p, ready=%d"
                  [arg (Z.of_nat i); arg (num_threads c); arg (current_thread c); arg (Z.b2z (scheduler_ready c))]) in
      log_state n (S i)
  end.

Definition sched_log_state : M st () :=
  do* LOG_SERIAL "SCHED" "=== Scheduler State ===" [] in
  let* s := get in
  do* log_state (Z.to_nat (ncpu (se_sys s))) 0 in
  LOG_SERIAL "SCHED" "=======================" [].

(** * Properties *)

(** ** One line *)

(** A line of the log: the logger's name in brackets, the text, and the end of
    line. *)
Definition line (logger : string) (ps : list piece) : list Z :=
  chars "[" ++ chars logger ++ chars "] " ++ text_of_pieces ps ++ [13; 10].

Context {U : Uart D (UD := UD)}.
Context (s0 : st) (i0 : Z) (r : cpu_ref) (c0 : percpu).
Abbreviation port := (default_serial_port s0).
Context (Hready : port_ready port i0 s0) (Hcli : cli_inv (se_sys s0) r c0).

(** Since [s0], the text [t] has been sent, and nothing else has changed but the
    saved interrupt flag of the executing CPU. *)
Definition logged (t : list Z) (s : st) : Prop :=
  ∃ d sys, s = set_dev d (set_serial_sys sys s0) ∧ after_sections (se_sys s0) r c0 sys ∧ online d port ∧
    sent d port = sent (se_dev s0) port ++ (u8 <$> t).

Lemma logged_start : logged [] s0.
Proof using Hready.
  clear Hcli. exists (se_dev s0), (se_sys s0). split; [by destruct s0|]. split; [by left|]. split; [apply Hready|]. by rewrite app_nil_r.
Qed.

Definition text_ok (s : list Z) : Prop := Forall (λ c, c ≠ ch "%" ∧ c ≠ 0) s.

Lemma LOG_SERIAL_logged logger fmt args ps t s : logged t s → text_ok (chars logger) →
  chars fmt = format_of ps → args = args_of ps → Forall piece_ok ps →
  ∃ s', LOG_SERIAL logger fmt args s = Ret ((), s') ∧ logged (t ++ line logger ps) s'.
Proof using Hready Hcli.
  intros (d & sys & -> & Ha & Hon & Hsent) Hlog Hfmt -> Hok. destruct (after_cli _ _ _ sys Hcli Ha) as (c & Hc & Ha').
  set (all := [Lit (chars "["); Lit (chars logger); Lit (chars "] ")] ++ ps ++ [Lit [13; 10]]).
  assert (Forall piece_ok all) as Hall.
  { unfold all. apply Forall_app. split; [|apply Forall_app; split; [done|]].
    - repeat (apply Forall_cons; split); [| |..]; try apply Forall_nil_2; try done; cbn; repeat constructor; vm_compute; congruence.
    - repeat constructor; vm_compute; congruence. }
  assert (chars "[" ++ chars logger ++ chars "] " ++ chars fmt ++ [13; 10] = format_of all) as Ef.
  { unfold all, format_of. cbn [app fmap list_fmap concat piece_format]. rewrite fmap_app, concat_app. cbn [fmap list_fmap concat piece_format].
    by rewrite Hfmt, app_nil_r. }
  assert (args_of ps = args_of all) as Ea.
  { unfold all, args_of. cbn [app fmap list_fmap concat piece_args]. rewrite fmap_app, concat_app. cbn. by rewrite app_nil_r. }
  assert (text_of_pieces all = line logger ps) as Et.
  { unfold all, text_of_pieces, line. cbn [app fmap list_fmap concat piece_text]. rewrite fmap_app, concat_app. cbn [fmap list_fmap concat piece_text].
    by rewrite app_nil_r. }
  destruct (serial_printf_result port i0 (set_dev d (set_serial_sys sys s0)) r c (format_of all) (args_of all) (text_of_pieces all))
    as (d' & E & Ho' & Hs').
  { destruct Hready as (Hp & Hi & Hi0 & _ & Hlk). by split_and!. }
  { exact Hc. }
  { by apply pieces_render. }
  { by apply pieces_no_nul. }
  rewrite Et in Hs'. eexists. split.
  - unfold LOG_SERIAL, get_default_serial_port. unfold bind at 1, gets at 1. cbn [default_serial_port set_dev set_serial_sys].
    rewrite Ef, Ea. exact E.
  - exists d', (left_section sys r c). split; [done|]. split; [exact Ha'|]. split; [exact Ho'|].
    rewrite Hs'. cbn [se_dev set_dev]. rewrite Hsent, fmap_app. by rewrite app_assoc.
Qed.

(** The structure of a CPU as it is read while reporting. *)
Lemma cpu_at_logged t s i c : logged t s → percpus (se_sys s0) !! i = Some c →
  ∃ v, cpu_at i s = Ret (set_intena v c, s).
Proof using Hcli.
  clear Hready. intros (d & sys & -> & Ha & _) Hi. unfold cpu_at. cbn [se_sys set_dev set_serial_sys]. destruct Ha as [-> | ->].
  - exists (intena c). rewrite Hi. by destruct c.
  - unfold left_section. destruct Hcli as ([_ Hd] & _). destruct r as [|j]; cbn [put_cpu percpus set_if set_hw].
    + exists (intena c). rewrite Hi. by destruct c.
    + cbn [deref] in Hd. destruct (percpus (se_sys s0) !! j) as [cj|] eqn:Hj; [|done]. injection Hd as ->.
      cbn [set_percpus percpus]. destruct (decide (i = j)) as [->|Hne].
      * rewrite list_lookup_insert_eq by (by eapply lookup_lt_Some). rewrite Hi in Hj. injection Hj as ->.
        unfold opened. case_match; [by eexists|]. exists (intena c0). by destruct c0.
      * rewrite list_lookup_insert_ne by done. rewrite Hi. exists (intena c). by destruct c.
Qed.

(** ** The reports *)

(** The lines for CPU [i] with the structure [c]. *)
Definition info_lines (i : nat) (c : percpu) : list Z :=
  line "PERCPU" [L "CPU "; num (cpu_index c); L ": APIC ID="; num (apic_id c); L ", ";
    Str 1 (chars (if is_bsp c then "BSP" else "AP")); L ", started="; num (Z.b2z (started c))] ++
  line "PERCPU" [L "  int_stack="; ptr (int_stack c); L ", kstack="; ptr (kstack c)] ++
  line "PERCPU" [L "  TSS RSP0="; ptr (rsp0 (tss c)); L ", IST1="; ptr (ist1 (tss c))] ++
  line "PERCPU" [L "  GDT at "; ptr (gdt_addr i)].
Definition tick_line (i : nat) (c : percpu) : list Z :=
  line "PERCPU" [L "CPU "; num (cpu_index c); L " (APIC "; num (apic_id c); L "): "; LLU (u64 (timer_ticks c)); L " ticks"].
Definition state_line (i : nat) (c : percpu) : list Z :=
  if started c then
    line "SCHED" [L "CPU "; num (Z.of_nat i); L ": "; num (num_threads c); L " threads, current=";
      ptr (current_thread c); L ", ready="; num (Z.b2z (scheduler_ready c))]
  else [].

(** The lines of the CPUs [cs], the first of which has the index [i]. *)
Fixpoint all_lines (f : nat → percpu → list Z) (i : nat) (cs : list percpu) : list Z :=
  match cs with
  | [] => []
  | c :: cs => f i c ++ all_lines f (S i) cs
  end.

Lemma log_pieces logger fmt ps t s : text_ok (chars logger) → chars fmt = format_of ps → Forall piece_ok ps → logged t s →
  ∃ s', LOG_SERIAL logger fmt (args_of ps) s = Ret ((), s') ∧ logged (t ++ line logger ps) s'.
Proof using Hready Hcli. intros H1 H2 H3 Hs. by eapply LOG_SERIAL_logged. Qed.

Lemma loggers_ok : text_ok (chars "PERCPU") ∧ text_ok (chars "SCHED").
Proof using Type. clear. split; apply (bool_decide_unpack _); vm_compute; exact I. Qed.

Lemma log_turn (f : nat → percpu → list Z) (body : nat → nat → M st ()) :
  (∀ i s, body O i s = Ret ((), s)) →
  (∀ n i c t s, percpus (se_sys s0) !! i = Some c → logged t s →
     ∃ s', body (S n) i s = body n (S i) s' ∧ logged (t ++ f i c) s') →
  ∀ n i t s, (i + n ≤ length (percpus (se_sys s0)))%nat → logged t s →
  ∃ s', body n i s = Ret ((), s') ∧ logged (t ++ all_lines f i (take n (drop i (percpus (se_sys s0))))) s'.
Proof using Type.
  clear Hready Hcli. intros H0 HS. induction n as [|n IH]; intros i t s Hn Hs.
  - exists s. split; [apply H0|]. cbn. by rewrite app_nil_r.
  - destruct (lookup_lt_is_Some_2 (percpus (se_sys s0)) i) as [c Hc]; [lia|].
    destruct (HS n i c t s Hc Hs) as (s1 & E1 & Hs1). destruct (IH (S i) _ s1 ltac:(lia) Hs1) as (s' & E & Hs').
    exists s'. rewrite E1. split; [exact E|]. rewrite (drop_S _ _ _ Hc). cbn [take all_lines]. by rewrite app_assoc.
Qed.

Lemma log_state_turn n i c t s : percpus (se_sys s0) !! i = Some c → logged t s →
  ∃ s', log_state (S n) i s = log_state n (S i) s' ∧ logged (t ++ state_line i c) s'.
Proof using Hready Hcli.
  intros Hc Hs. destruct (cpu_at_logged t s i c Hs Hc) as [v Ec]. cbn [log_state]. rewrite (bind_ret _ _ _ _ _ Ec).
  cbn [started set_intena]. unfold state_line. destruct (started c); cbn [negb].
  - destruct (log_pieces "SCHED" "CPU %d: %d threads, current=%p, ready=%d"
      [L "CPU "; num (Z.of_nat i); L ": "; num (num_threads c); L " threads, current="; ptr (current_thread c); L ", ready=";
       num (Z.b2z (scheduler_ready c))] t s (proj2 loggers_ok) eq_refl) as (s' & E & Hs'); [plain|exact Hs|].
    exists s'. split; [|exact Hs']. exact (bind_ret _ _ _ _ _ E).
  - exists s. by rewrite app_nil_r.
Qed.

Lemma log_ticks_turn n i c t s : percpus (se_sys s0) !! i = Some c → logged t s →
  ∃ s', log_timer_ticks (S n) i s = log_timer_ticks n (S i) s' ∧ logged (t ++ tick_line i c) s'.
Proof using Hready Hcli.
  intros Hc Hs. destruct (cpu_at_logged t s i c Hs Hc) as [v Ec].
  destruct (log_pieces "PERCPU" "CPU %d (APIC %d): %llu ticks"
    [L "CPU "; num (cpu_index c); L " (APIC "; num (apic_id c); L "): "; LLU (u64 (timer_ticks c)); L " ticks"] t s
    (proj1 loggers_ok) eq_refl) as (s' & E & Hs'); [plain|exact Hs|].
  exists s'. split; [|exact Hs']. cbn [log_timer_ticks]. rewrite (bind_ret _ _ _ _ _ Ec). exact (bind_ret _ _ _ _ _ E).
Qed.

Lemma log_info_turn n i c t s : percpus (se_sys s0) !! i = Some c → logged t s →
  ∃ s', log_cpu_info (S n) i s = log_cpu_info n (S i) s' ∧ logged (t ++ info_lines i c) s'.
Proof using Hready Hcli.
  intros Hc Hs. destruct (cpu_at_logged t s i c Hs Hc) as [v1 C1].
  destruct (log_pieces "PERCPU" "CPU %d: APIC ID=%d, %s, started=%d"
    [L "CPU "; num (cpu_index c); L ": APIC ID="; num (apic_id c); L ", ";
     Str 1 (chars (if is_bsp c then "BSP" else "AP")); L ", started="; num (Z.b2z (started c))] t s
    (proj1 loggers_ok) eq_refl) as (s1 & E1 & Hs1); [|exact Hs|].
  { repeat (apply Forall_cons_2; [first [exact I | apply (bool_decide_unpack _); vm_compute; exact I | idtac]|]); [|apply Forall_nil_2].
    destruct (is_bsp c); (split; [done|]); (split; [apply (bool_decide_unpack _); vm_compute; exact I|]); apply Nat.ltb_lt; reflexivity. }
  destruct (cpu_at_logged _ s1 i c Hs1 Hc) as [v2 C2].
  destruct (log_pieces "PERCPU" "  int_stack=%p, kstack=%p" [L "  int_stack="; ptr (int_stack c); L ", kstack="; ptr (kstack c)] _ s1
    (proj1 loggers_ok) eq_refl ltac:(plain) Hs1) as (s2 & E2 & Hs2).
  destruct (cpu_at_logged _ s2 i c Hs2 Hc) as [v3 C3].
  destruct (log_pieces "PERCPU" "  TSS RSP0=%p, IST1=%p" [L "  TSS RSP0="; ptr (rsp0 (tss c)); L ", IST1="; ptr (ist1 (tss c))] _ s2
    (proj1 loggers_ok) eq_refl ltac:(plain) Hs2) as (s3 & E3 & Hs3).
  destruct (log_pieces "PERCPU" "  GDT at %p" [L "  GDT at "; ptr (gdt_addr i)] _ s3 (proj1 loggers_ok) eq_refl ltac:(plain) Hs3) as (s4 & E4 & Hs4).
  exists s4. split.
  - cbn [log_cpu_info]. rewrite (bind_ret _ _ _ _ _ C1). etransitivity; [exact (bind_ret _ _ _ _ _ E1)|]. rewrite (bind_ret _ _ _ _ _ C2).
    etransitivity; [exact (bind_ret _ _ _ _ _ E2)|]. rewrite (bind_ret _ _ _ _ _ C3). etransitivity; [exact (bind_ret _ _ _ _ _ E3)|].
    exact (bind_ret _ _ _ _ _ E4).
  - unfold info_lines. by rewrite !app_assoc in *.
Qed.

Lemma logged_ncpu t s : logged t s → ncpu (se_sys s) = ncpu (se_sys s0).
Proof using Type. clear Hready Hcli. intros (d & sys & -> & [-> | ->] & _); [done|]. cbn. by destruct r. Qed.

(** A loop over the CPUs followed by a rule. *)
Lemma loop_then_rule (f : nat → percpu → list Z) (body : nat → nat → M st ()) logger rule t s :
  (∀ n i t s, (i + n ≤ length (percpus (se_sys s0)))%nat → logged t s →
    ∃ s', body n i s = Ret ((), s') ∧ logged (t ++ all_lines f i (take n (drop i (percpus (se_sys s0))))) s') →
  ncpu (se_sys s0) ≤ Z.of_nat (length (percpus (se_sys s0))) →
  text_ok (chars logger) → chars rule = format_of [L rule] → Forall piece_ok [L rule] → logged t s →
  ∃ s', (do* body (Z.to_nat (ncpu (se_sys s))) 0%nat in LOG_SERIAL logger rule []) s = Ret ((), s') ∧
    logged (t ++ all_lines f 0 (take (Z.to_nat (ncpu (se_sys s0))) (percpus (se_sys s0))) ++ line logger [L rule]) s'.
Proof using Hready Hcli.
  intros Hbody Hn H1 H2 H3 Hs. rewrite (logged_ncpu t s Hs).
  destruct (Hbody (Z.to_nat (ncpu (se_sys s0))) 0%nat t s ltac:(lia) Hs) as (s1 & E1 & Hs1).
  destruct (log_pieces logger rule [L rule] _ s1 H1 H2 H3 Hs1) as (s2 & E2 & Hs2).
  exists s2. rewrite (bind_ret _ _ _ _ _ E1). split; [exact E2|]. rewrite drop_0 in Hs2. by rewrite app_assoc.
Qed.

(** The reports send, over the default port, a title, the lines for each CPU
    in the order of their indices with the values of its fields, and a rule; they
    return, and change nothing but the port and the saved interrupt flag of the
    executing CPU.  [sched_log_state] leaves out the CPUs that have not started. *)
Theorem reports_spec (cpus := take (Z.to_nat (ncpu (se_sys s0))) (percpus (se_sys s0))) :
  ncpu (se_sys s0) ≤ Z.of_nat (length (percpus (se_sys s0))) →
  (∃ s', percpu_log_cpu_info s0 = Ret ((), s') ∧
     logged (line "PERCPU" [L "=== Per-CPU Data Summary ==="] ++ line "PERCPU" [L "Total CPUs: "; num (ncpu (se_sys s0))] ++
       all_lines info_lines 0 cpus ++ line "PERCPU" [L "============================"]) s') ∧
  (∃ s', percpu_log_timer_ticks s0 = Ret ((), s') ∧
     logged (line "PERCPU" [L "=== Timer Interrupt Counts ==="] ++ all_lines tick_line 0 cpus ++
       line "PERCPU" [L "=============================="]) s') ∧
  (∃ s', sched_log_state s0 = Ret ((), s') ∧
     logged (line "SCHED" [L "=== Scheduler State ==="] ++ all_lines state_line 0 cpus ++
       line "SCHED" [L "======================="]) s').
Proof using Hready Hcli.
  intros Hn. pose proof logged_start as H0. split; [|split].
  - destruct (log_pieces "PERCPU" "=== Per-CPU Data Summary ===" [L "=== Per-CPU Data Summary ==="] _ _ (proj1 loggers_ok) eq_refl ltac:(plain) H0)
      as (s1 & E1 & H1).
    destruct (log_pieces "PERCPU" "Total CPUs: %d" [L "Total CPUs: "; num (ncpu (se_sys s1))] _ _ (proj1 loggers_ok) eq_refl ltac:(plain) H1)
      as (s2 & E2 & H2).
    destruct (loop_then_rule info_lines log_cpu_info "PERCPU" "============================" _ s2
      (log_turn info_lines log_cpu_info (λ _ _, eq_refl) log_info_turn) Hn (proj1 loggers_ok) eq_refl ltac:(plain) H2) as (s3 & E3 & H3).
    exists s3. rewrite (logged_ncpu _ _ H2) in E3. rewrite (logged_ncpu _ _ H1) in E2, H3. split; [|by rewrite <- !app_assoc in H3].
    unfold percpu_log_cpu_info. etransitivity; [exact (bind_ret _ _ _ _ _ E1)|]. rewrite bind_get, (logged_ncpu _ _ H1).
    etransitivity; [exact (bind_ret _ _ _ _ _ E2)|]. exact E3.
  - destruct (log_pieces "PERCPU" "=== Timer Interrupt Counts ===" [L "=== Timer Interrupt Counts ==="] _ _ (proj1 loggers_ok) eq_refl ltac:(plain) H0)
      as (s1 & E1 & H1).
    destruct (loop_then_rule tick_line log_timer_ticks "PERCPU" "==============================" _ s1
      (log_turn tick_line log_timer_ticks (λ _ _, eq_refl) log_ticks_turn) Hn (proj1 loggers_ok) eq_refl ltac:(plain) H1) as (s3 & E3 & H3).
    exists s3. split; [|exact H3]. unfold percpu_log_timer_ticks. etransitivity; [exact (bind_ret _ _ _ _ _ E1)|]. rewrite bind_get. exact E3.
  - destruct (log_pieces "SCHED" "=== Scheduler State ===" [L "=== Scheduler State ==="] _ _ (proj2 loggers_ok) eq_refl ltac:(plain) H0)
      as (s1 & E1 & H1).
    destruct (loop_then_rule state_line log_state "SCHED" "=======================" _ s1
      (log_turn state_line log_state (λ _ _, eq_refl) log_state_turn) Hn (proj2 loggers_ok) eq_refl ltac:(plain) H1) as (s3 & E3 & H3).
    exists s3. split; [|exact H3]. unfold sched_log_state. etransitivity; [exact (bind_ret _ _ _ _ _ E1)|]. rewrite bind_get. exact E3.
Qed.
End reports.

(** ** Witness *)

(** The first port of a machine with two CPUs, of which the first has started. *)
Definition demo_report : serial (gmap Z chip) :=
  set_serial_sys (System (Kmem ∅ 0) (set_started true percpu_zero :: replicate 63 percpu_zero) 2 (replicate 256 0) percpu_zero false
    (demo_processor 0)) demo_serial.

Lemma reports_spec_witness :
  ∃ s', sched_log_state (UD := uart16550_dev [0x3F8]) demo_report = Ret ((), s') ∧
    logged (U := uart16550 [0x3F8]) demo_report EarlyCpu percpu_zero
      (chars "[SCHED] === Scheduler State ===" ++ [13; 10] ++
       chars "[SCHED] CPU 0: 0 threads, current=0, ready=0" ++ [13; 10] ++
       chars "[SCHED] =======================" ++ [13; 10]) s'.
Proof.
  refine (proj2 (proj2 (reports_spec (U := uart16550 [0x3F8]) demo_report 0 EarlyCpu percpu_zero _ _ _))).
  - split; [left|]. split; [reflexivity|]. split; [lia|].
    split; [split; [left|split; reflexivity]|]. exists (Spinlock 0 ""). split; reflexivity.
  - apply cli_inv_outside; [split|]; reflexivity.
  - simpl. lia.
Defined.
