(* ===== verification/PrintVm.v ===== *)
(** * Printing a tree of page tables ([kernel/paging/paging.c])

    [print_entry], [do_print_vm] and [print_vm], on the terminal of [Tty.v]; the
    tables are read in the memory of the system. *)

From S2P Require Import Prelude Memory Kalloc Paging PageTree StrUtils Printf Templates Percpu Spinlock Tty Serial Reports.
From Stdlib Require Import Ascii.

Definition print_entry (entry : page_entry) : M console () :=
  printf (chars "P: %d RW: %d US: %d PWT: %d A: %d D: %d ADDR: %p" ++ [10])
    [arg (Z.b2z (pe_p entry)); arg (Z.b2z (pe_rw entry)); arg (Z.b2z (pe_us entry)); arg (Z.b2z (pe_pwt entry));
     arg (Z.b2z (pe_a entry)); arg (Z.b2z (pe_d entry)); arg (entry_target entry)].

(** [for (int j = 0; j < spaces; j++) print(".. ");] *)
Fixpoint print_spaces (n : nat) : M console () :=
  match n with
  | O => ret ()
  | S n => do* print (chars ".. " ++ [0]) in print_spaces n
  end.

(** The loop over the [n] entries from [i] on; [below] prints the table that an
    entry points to. *)
Fixpoint print_entries (n : nat) (i tbl : Z) (spaces : nat) (below : Z → M console ()) : M console () :=
  match n with
  | O => ret ()
  | S n =>
      let* s := get in
      let entry := decode_page_entry (load64 (km_mem (sy_kmem (co_sys s))) (tbl + 8 * i)) in
      do* (if pe_p entry then
             do* print_spaces spaces in
             do* print_entry entry in
             below (entry_target entry)
           else ret ()) in
      print_entries n (i + 1) tbl spaces below
  end.

Fixpoint do_print_vm (level : nat) (tbl : Z) : M console () :=
  let spaces := (4 - level + 1)%nat in
  match level with
  | S (S _ as level') => print_entries 512 0 tbl spaces (do_print_vm level')
  | _ => print_entries 512 0 tbl spaces (λ _, ret ())
  end.

Definition print_vm (tbl : Z) : M console () := do_print_vm 4 tbl.

(** * Properties *)

(** ** What is printed *)

(** The present entries of a table of the given level, each followed by those of
    the table it points to. *)
Fixpoint vm_entries (m : mem) (level : nat) (tbl : Z) : list (nat * page_entry) :=
  seqZ 0 512 ≫= λ i,
    let e := decode_page_entry (load64 m (tbl + 8 * i)) in
    if pe_p e then
      (level, e) :: match level with S (S _ as level') => vm_entries m level' (entry_target e) | _ => [] end
    else [].

Definition entry_pieces (e : page_entry) : list piece :=
  [L "P: "; num (Z.b2z (pe_p e)); L " RW: "; num (Z.b2z (pe_rw e)); L " US: "; num (Z.b2z (pe_us e));
   L " PWT: "; num (Z.b2z (pe_pwt e)); L " A: "; num (Z.b2z (pe_a e)); L " D: "; num (Z.b2z (pe_d e));
   L " ADDR: "; ptr (entry_target e); Lit [10]].

(** The line of an entry, indented by the depth of its table. *)
Definition entry_line (x : nat * page_entry) : list Z :=
  concat (replicate (4 - x.1 + 1) (chars ".. ")) ++ text_of_pieces (entry_pieces x.2).

(** ** Typing on the terminal *)

Section typing.
Context (s0 : console) (i0 : nat) (t0 : tty_structure) (r : cpu_ref) (c0 : percpu).
Context (Hready : console_ready s0 i0 t0 r c0).

Definition typed (text : list Z) (s : console) : Prop :=
  ∃ sys v, s = showing (with_sys s0 sys) i0 (type_text t0 text) v ∧ after_sections (co_sys s0) r c0 sys ∧
    length v = CELLS ∧ (text ≠ [] → v = tty_buffer (type_text t0 text)).

Lemma typed_start : typed [] s0.
Proof using Hready.
  destruct Hready as (Ha & Ht & _ & Hv & _). exists (co_sys s0), (vga_memory s0). split; [|split; [by left|by split]].
  rewrite (showing_self s0 i0 t0 Ha Ht) at 1. by destruct s0.
Qed.

Lemma typed_ready text s : typed text s → ∃ c, console_ready s i0 (type_text t0 text) r c.
Proof using Hready.
  intros (sys & v & -> & Ha & Hv & _). destruct Hready as (_ & Ht & Hok & _ & Hc & H1 & H2).
  destruct (after_cli _ _ _ sys Hc Ha) as (c & Hc' & _). exists c.
  split; [done|]. split; [apply list_lookup_insert_eq; by eapply lookup_lt_Some|]. split; [by apply type_text_ok|]. by split_and!.
Qed.

Lemma typed_mem text s : typed text s → sy_kmem (co_sys s) = sy_kmem (co_sys s0).
Proof using Type. clear Hready. intros (sys & v & -> & [-> | ->] & _); [done|]. cbn. by destruct r. Qed.

(** The state after more text. *)
Lemma typed_more text str s c v : typed text s → cli_inv (co_sys s) r c → str ≠ [] →
  length v = CELLS → v = tty_buffer (type_text (type_text t0 text) str) → after_sections (co_sys s0) r c0 (left_section (co_sys s) r c) →
  typed (text ++ str) (showing (with_sys s (left_section (co_sys s) r c)) i0 (type_text (type_text t0 text) str) v).
Proof using Type.
  clear Hready. intros (sys & v0 & -> & _) Hc Hne Hv Ev Ha. exists (left_section sys r c), v. rewrite type_text_app.
  split; [|by split_and!]. unfold showing, with_sys. cbn. by rewrite list_insert_insert_eq.
Qed.

Lemma typed_printf text ps s : typed text s → Forall piece_ok ps → text_of_pieces ps ≠ [] →
  ∃ s', printf (format_of ps) (args_of ps) s = Ret ((), s') ∧ typed (text ++ text_of_pieces ps) s'.
Proof using Hready.
  intros Hs Hok Hne. pose proof Hs as (sys & v0 & Es & Ha & _).
  destruct Hready as (_ & _ & _ & _ & Hc0 & _). destruct (after_cli _ _ _ sys Hc0 Ha) as (c & Hc & Ha').
  assert (co_sys s = sys) as Esys by (by rewrite Es). destruct (typed_ready _ _ Hs) as (c' & Hr').
  assert (console_ready s i0 (type_text t0 text) r c) as Hr.
  { destruct Hr' as (A1 & A2 & A3 & A4 & _ & A6 & A7). rewrite <- Esys in Hc. by split_and!. }
  destruct (printf_result s i0 _ r c _ _ _ Hr (pieces_render ps Hok) (pieces_no_nul ps Hok)) as (v & E & Hv & Ev & _).
  eexists. split; [exact E|]. apply typed_more; try done; [by rewrite Esys|by apply Ev|by rewrite Esys].
Qed.

Lemma typed_print text str s : typed text s → Forall (λ c, c ≠ 0) str → str ≠ [] →
  ∃ s', print (str ++ [0]) s = Ret ((), s') ∧ typed (text ++ str) s'.
Proof using Hready.
  intros Hs Hstr Hne. pose proof Hs as (sys & v0 & Es & Ha & Hv0 & _).
  destruct Hready as (_ & Ht & Hok & _ & Hc0 & _ & Hl2). destruct (after_cli _ _ _ sys Hc0 Ha) as (c & Hc & Ha').
  pose proof (print_showing (with_sys s0 sys) i0 (type_text t0 text) v0 r c str [] (lookup_lt_Some _ _ _ Ht) (type_text_ok _ text Hok) Hv0 Hstr Hc Hl2) as E.
  rewrite <- Es in E. eexists. split; [exact E|].
  pose proof (typed_more text str s c (tty_buffer (type_text (type_text t0 text) str)) Hs) as H. rewrite Es in H. cbn [co_sys showing with_sys] in H.
  assert (typed (text ++ str) (showing (with_sys s0 (left_section sys r c)) i0 (type_text (type_text t0 text) str)
    (tty_buffer (type_text (type_text t0 text) str)))) as Hgoal; [|exact Hgoal].
  replace (showing (with_sys s0 (left_section sys r c)) i0 (type_text (type_text t0 text) str) (tty_buffer (type_text (type_text t0 text) str)))
    with (showing (with_sys (showing (with_sys s0 sys) i0 (type_text t0 text) v0) (left_section sys r c)) i0 (type_text (type_text t0 text) str)
      (tty_buffer (type_text (type_text t0 text) str))).
  - apply H; try done. apply type_text_ok, type_text_ok, Hok.
  - unfold showing, with_sys. cbn. by rewrite list_insert_insert_eq.
Qed.

(** ** Printing *)

Lemma print_spaces_typed n : ∀ text s, typed text s →
  ∃ s', print_spaces n s = Ret ((), s') ∧ typed (text ++ concat (replicate n (chars ".. "))) s'.
Proof using Hready.
  induction n as [|n IH]; intros text s Hs; [exists s; by rewrite app_nil_r|].
  destruct (typed_print text (chars ".. ") s Hs) as (s1 & E1 & H1); [apply (bool_decide_unpack _); vm_compute; exact I|done|].
  destruct (IH _ s1 H1) as (s' & E & H'). exists s'. cbn [print_spaces]. rewrite (bind_ret _ _ _ _ _ E1). split; [exact E|].
  cbn [replicate concat]. by rewrite app_assoc.
Qed.

Lemma entry_pieces_ok e : Forall piece_ok (entry_pieces e) ∧ text_of_pieces (entry_pieces e) ≠ [].
Proof using Type. clear. split; [unfold entry_pieces; plain|done]. Qed.

Lemma print_entry_typed level e text s : typed text s →
  ∃ s', (do* print_spaces (4 - level + 1) in print_entry e) s = Ret ((), s') ∧ typed (text ++ entry_line (level, e)) s'.
Proof using Hready.
  intros Hs. destruct (print_spaces_typed (4 - level + 1) text s Hs) as (s1 & E1 & H1). destruct (entry_pieces_ok e) as [Ho Hn].
  destruct (typed_printf _ (entry_pieces e) s1 H1 Ho Hn) as (s2 & E2 & H2). exists s2. rewrite (bind_ret _ _ _ _ _ E1).
  split; [exact E2|]. unfold entry_line. cbn [fst snd]. by rewrite app_assoc.
Qed.
Abbreviation m0 := (km_mem (sy_kmem (co_sys s0))).
Definition lines (l : list (nat * page_entry)) : list Z := concat (entry_line <$> l).

Lemma lines_app l1 l2 : lines (l1 ++ l2) = lines l1 ++ lines l2.
Proof using Type. clear. unfold lines. by rewrite fmap_app, concat_app. Qed.

(** What the loop prints from the entry [i] of the table [tbl]. *)
Definition listed (level : nat) (g : Z → list (nat * page_entry)) (tbl i : Z) : list (nat * page_entry) :=
  let e := decode_page_entry (load64 m0 (tbl + 8 * i)) in
  if pe_p e then (level, e) :: g (entry_target e) else [].

Lemma print_entries_typed level below g tbl :
  (∀ t text s, typed text s → ∃ s', below t s = Ret ((), s') ∧ typed (text ++ lines (g t)) s') →
  ∀ n i text s, typed text s →
  ∃ s', print_entries n i tbl (4 - level + 1) below s = Ret ((), s') ∧
    typed (text ++ lines (seqZ i (Z.of_nat n) ≫= listed level g tbl)) s'.
Proof using Hready.
  intros Hbelow. induction n as [|n IH]; intros i text s Hs; [exists s; by rewrite app_nil_r|].
  rewrite seqZ_cons by lia. replace (Z.pred (Z.of_nat (S n))) with (Z.of_nat n) by lia. cbn [mbind list_bind]. rewrite lines_app.
  cbn [print_entries]. rewrite bind_get, (typed_mem text s Hs). unfold listed at 1. set (e := decode_page_entry _).
  destruct (pe_p e).
  - destruct (print_entry_typed level e text s Hs) as (s1 & E1 & H1). destruct (Hbelow (entry_target e) _ s1 H1) as (s2 & E2 & H2).
    destruct (IH (Z.succ i) _ s2 H2) as (s' & E & H'). exists s'. split.
    + rewrite bind_assoc. unfold bind at 1 in E1. unfold bind at 1. destruct (print_spaces (4 - level + 1) s) as [[[] sa]| | |]; try done.
      rewrite bind_assoc, (bind_ret _ _ _ _ _ E1), (bind_ret _ _ _ _ _ E2). exact E.
    + cbn [lines fmap list_fmap concat]. fold (lines (g (entry_target e))). rewrite <- !app_assoc in *. exact H'.
  - destruct (IH (Z.succ i) text s Hs) as (s' & E & H'). exists s'. split; [exact E|exact H'].
Qed.

Lemma nothing_typed (t : Z) text s : typed text s → ∃ s', (λ _ : Z, ret ()) t s = Ret ((), s') ∧ typed (text ++ lines []) s'.
Proof using Type. intros Hs. exists s. split; [done|]. cbn. by rewrite app_nil_r. Qed.

Lemma do_print_vm_typed level : ∀ tbl text s, typed text s →
  ∃ s', do_print_vm level tbl s = Ret ((), s') ∧ typed (text ++ lines (vm_entries m0 level tbl)) s'.
Proof using Hready.
  induction level as [|level IH]; intros tbl text s Hs; [exact (print_entries_typed 0 _ (λ _, []) tbl nothing_typed 512 0 text s Hs)|].
  destruct level as [|level]; [exact (print_entries_typed 1 _ (λ _, []) tbl nothing_typed 512 0 text s Hs)|].
  exact (print_entries_typed (S (S level)) (do_print_vm (S level)) (vm_entries m0 (S level)) tbl IH 512 0 text s Hs).
Qed.
End typing.

(** ** The last level lists the mappings *)

Lemma vm_entries_elem m level tbl x : x ∈ vm_entries m level tbl ↔
  ∃ i, index_ok i ∧ let e := decode_page_entry (load64 m (tbl + 8 * i)) in
    pe_p e = true ∧ (x = (level, e) ∨ ∃ l, level = S (S l) ∧ x ∈ vm_entries m (S l) (entry_target e)).
Proof.
  assert (x ∈ vm_entries m level tbl ↔ x ∈ (seqZ 0 512 ≫= λ i, let e := decode_page_entry (load64 m (tbl + 8 * i)) in
    if pe_p e then (level, e) :: match level with S (S _ as level') => vm_entries m level' (entry_target e) | _ => [] end else [])) as ->
    by (by destruct level).
  rewrite list_elem_of_bind. split.
  - intros (i & Hx & Hi%elem_of_seqZ). exists i. split; [done|]. cbv zeta in Hx |- *. destruct (pe_p (decode_page_entry (load64 m (tbl + 8 * i)))); [|by apply elem_of_nil in Hx].
    split; [done|]. apply elem_of_cons in Hx as [->|Hx]; [by left|]. right.
    destruct level as [|[|l]]; [by apply elem_of_nil in Hx..|]. by exists l.
  - intros (i & Hi & Hp & Hx). exists i. cbv zeta in *. split; [|by apply elem_of_seqZ]. rewrite Hp. apply elem_of_cons.
    destruct Hx as [->|(l & -> & Hx)]; [by left|by right].
Qed.

(** A child is a present entry. *)
Lemma child_some m t i t' : child m t i = Some t' ↔
  pe_p (decode_page_entry (load64 m (t + 8 * i))) = true ∧ t' = entry_target (decode_page_entry (load64 m (t + 8 * i))).
Proof. unfold child. destruct (pe_p _); naive_solver. Qed.

(** The entries of the last level below a table of level [S k]. *)
Lemma leaf_entries m k : ∀ tbl e, (1%nat, e) ∈ vm_entries m (S k) tbl ↔
  ∃ path i t, length path = k ∧ Forall index_ok path ∧ index_ok i ∧ table_at m tbl path = Some t ∧
    e = decode_page_entry (load64 m (t + 8 * i)) ∧ pe_p e = true.
Proof.
  induction k as [|k IH]; intros tbl e; rewrite vm_entries_elem; cbv zeta; split.
  - intros (i & Hi & Hp & [[= ->]|(l & [=] & _)]). by exists [], i, tbl.
  - intros (path & i & t & Hl & _ & Hi & Ht & -> & Hp). apply nil_length_inv in Hl as ->. injection Ht as <-.
    exists i. split; [done|]. split; [done|by left].
  - intros (j & Hj & Hp & [[=]|(l & [= ->] & Hx)]). apply IH in Hx as (path & i & t & Hl & Hpath & Hi & Ht & He & Hpe).
    exists (j :: path), i, t. cbn [length table_at]. split; [by rewrite Hl|]. split; [by apply Forall_cons|]. split; [done|]. split; [|done].
    rewrite (proj2 (child_some m tbl j _) (conj Hp eq_refl)). exact Ht.
  - intros (path & i & t & Hl & Hpath & Hi & Ht & He & Hpe). destruct path as [|j path]; [done|]. injection Hl as Hl.
    apply Forall_cons in Hpath as [Hj Hpath]. cbn [table_at] in Ht. apply bind_Some in Ht as (t' & Hc & Ht).
    apply child_some in Hc as [Hp ->]. exists j. split; [done|]. split; [done|]. right. exists k. split; [done|]. apply IH.
    by exists path, i, t.
Qed.

(** An address with the given indices. *)
Definition va_of (i3 i2 i1 i0 : Z) : Z := ((i3 * 512 + i2) * 512 + i1) * 512 * PGSIZE + i0 * PGSIZE.

Lemma va_of_indices i3 i2 i1 i0 : index_ok i3 → index_ok i2 → index_ok i1 → index_ok i0 →
  va_path (va_of i3 i2 i1 i0) = [i3; i2; i1] ∧ level_index (va_of i3 i2 i1 i0) 0 = i0.
Proof.
  unfold index_ok. intros H3 H2 H1 H0. unfold va_path. rewrite !level_index_eq.
  assert (va_of i3 i2 i1 i0 / PGSIZE = ((i3 * 512 + i2) * 512 + i1) * 512 + i0) as E.
  { unfold va_of. rewrite <- Z.mul_add_distr_r, Z.div_mul; [done|unfold PGSIZE; lia]. }
  change (2 ^ (12 + Z.of_nat 3 * 9)) with (PGSIZE * 134217728). change (2 ^ (12 + Z.of_nat 2 * 9)) with (PGSIZE * 262144).
  change (2 ^ (12 + Z.of_nat 1 * 9)) with (PGSIZE * 512). change (2 ^ (12 + Z.of_nat 0 * 9)) with PGSIZE.
  rewrite <- !Z.div_div by (unfold PGSIZE; lia). rewrite E. clear E. split; [|zlia]. repeat f_equal; zlia.
Qed.

Lemma leaf_mappings m root e : (1%nat, e) ∈ vm_entries m 4 root ↔ ∃ va, mapping m root va = Some e.
Proof.
  rewrite leaf_entries. split.
  - intros ([|i3 [|i2 [|i1 [|]]]] & i0 & t & Hl & Hp & Hi & Ht & -> & Hpe); try done. rewrite !Forall_cons in Hp. destruct Hp as (H3 & H2 & H1 & _).
    destruct (va_of_indices i3 i2 i1 i0 H3 H2 H1 Hi) as [E1 E2]. exists (va_of i3 i2 i1 i0). unfold mapping, pte_of. rewrite E1, E2, Ht.
    cbn [mbind option_bind]. by rewrite Hpe.
  - intros [va Hva]. unfold mapping, pte_of in Hva. destruct (table_at m root (va_path va)) as [t|] eqn:Ht; [|done].
    cbn [mbind option_bind] in Hva. destruct (pe_p _) eqn:Hp; [|done]. injection Hva as <-.
    exists (va_path va), (level_index va 0), t. split; [done|]. split; [apply va_path_ok|]. split; [apply level_index_ok|]. by split_and!.
Qed.

(** C40. [print_vm] returns, and types one line for every present entry of the
    tables - depth first, in the order of the addresses, indented by the depth of
    the table, with the flags and the address of the entry - and nothing else; the
    lines of the last level are exactly those of the entries that map an
    address. *)
Theorem print_vm_spec s0 i t r c root (m := km_mem (sy_kmem (co_sys s0))) :
  console_ready s0 i t r c →
  ∃ s', print_vm root s0 = Ret ((), s') ∧ typed s0 i t r c (lines (vm_entries m 4 root)) s' ∧
    ∀ e, (1%nat, e) ∈ vm_entries m 4 root ↔ ∃ va, mapping m root va = Some e.
Proof.
  intros Hr. destruct (do_print_vm_typed s0 i t r c Hr 4 root [] s0 (typed_start s0 i t r c Hr)) as (s' & E & Hs').
  exists s'. split; [exact E|]. split; [exact Hs'|]. intros e. apply leaf_mappings.
Qed.

(** ** Witness *)

Definition demo_vm : console :=
  Console_ [demo_terminal] (Some 0%nat) (replicate CELLS (Cell 88 7)) (Spinlock 0 "") (Spinlock 0 "") (set_kmem demo_mapped demo_system).

Lemma print_vm_spec_witness :
  ∃ s' e, print_vm demo_root demo_vm = Ret ((), s') ∧ (1%nat, e) ∈ vm_entries (km_mem demo_mapped) 4 demo_root ∧ pe_rw e = true.
Proof.
  destruct (print_vm_spec demo_vm 0 demo_terminal EarlyCpu percpu_zero demo_root) as (s' & E & _ & He).
  - split; [reflexivity|]. split; [reflexivity|]. split; [split; [reflexivity|unfold VGA_HEIGHT, VGA_WIDTH; simpl; lia]|].
    split; [reflexivity|]. split; [apply cli_inv_outside; [split|]; reflexivity|]. split; reflexivity.
  - eexists s', _. split; [exact E|]. split; [apply He; exists 0x401234; vm_compute; reflexivity|reflexivity].
Defined.
