(* ===== verification/Halt.v ===== *)
(** * The ends of the kernel ([kernel/lib/src/panic.c], [shutdown.c])

    [panic] and [shutdown] report on both outputs, the terminal of [Tty.v] and
    the serial port of [Serial.v], which share the processors and their locks.
    Both end in a loop that does nothing; the functions here are what they do
    before.  [shutdown] writes to the ports with which emulators are switched
    off; what a machine does about such a write is a parameter. *)

From S2P Require Import Prelude Memory Kalloc StrUtils Printf Templates Percpu Spinlock Tty Serial Reports PrintVm.
From Stdlib Require Import Ascii.

(** A decidable fact about closed terms. *)
Ltac by_computation := apply (bool_decide_unpack _); vm_compute; exact I.

(** ** State *)

(** A write of some bytes to a port: the state of the ports after it, or [None]
    when the machine is off. *)
Class PowerPorts (P : Type) := {
  port_write : Z → Z → Z → P → option P
}.

(** The two outputs and the ports; the processors are those of the terminal. *)
Record host (D P : Type) := Host {
  h_console : console;
  h_serial : serial D;
  h_ports : P
}.
Arguments Host {D P}.
Arguments h_console {D P}.
Arguments h_serial {D P}.
Arguments h_ports {D P}.

(** How [shutdown] ends. *)
Inductive stop := Off | Halted.

Definition QEMU_DEBUG_EXIT_PORT : Z := 0xf4.
Definition QEMU_EXIT_SUCCESS : Z := 0x10.
Definition QEMU_SHUTDOWN_PORT : Z := 0x604.
Definition QEMU_SHUTDOWN_VALUE : Z := 0x2000.
Definition LEGACY_QEMU_SHUTDOWN_PORT : Z := 0x501.
Definition LEGACY_QEMU_SHUTDOWN_VALUE : Z := 0x01.
Definition APM_PORT : Z := 0xB004.
Definition APM_SHUTDOWN_VALUE : Z := 0x2000.

Section halt.
Context {D P : Type} {UD : UartDev D} {PP : PowerPorts P}.
Abbreviation st := (host D P).

Definition on_console {A} (c : M console A) : M st A := λ s,
  match c (h_console s) with
  | Ret (a, k) => Ret (a, Host k (h_serial s) (h_ports s))
  | Panic msg => Panic msg
  | Undef => Undef
  | OutOfFuel => OutOfFuel
  end.

(** The serial driver as it is now, with the processors. *)
Definition serial_now (s : st) : serial D := set_serial_sys (co_sys (h_console s)) (h_serial s).

Definition on_serial {A} (c : M (serial D) A) : M st A := λ s,
  match c (serial_now s) with
  | Ret (a, v) => Ret (a, Host (with_sys (h_console s) (se_sys v)) v (h_ports s))
  | Panic msg => Panic msg
  | Undef => Undef
  | OutOfFuel => OutOfFuel
  end.

(** [outb], [outw] and [outl], of 1, 2 and 4 bytes: whether the machine is still
    on. *)
Definition out (bytes port val : Z) : M st bool := λ s,
  match port_write bytes port val (h_ports s) with
  | Some p => Ret (true, Host (h_console s) (h_serial s) p)
  | None => Ret (false, s)
  end.

Definition PANIC_SERIAL (format : string) (args : list vararg) : M st () :=
  on_serial (LOG_SERIAL "PANIC" format args).

(** [panic]; [message] is the string without its terminating zero. *)
Definition kernel_panic (message : list Z) : M st () :=
  do* on_console (print (message ++ [0])) in
  do* on_console (print ((9 :: chars "panic!") ++ [0])) in
  do* PANIC_SERIAL "%s" [VarArg 1 (Some (message ++ [0]))] in
  PANIC_SERIAL "System halted!" [].

Definition shutdown : M st stop :=
  do* on_console (LOG "System shutdown initiated" []) in
  do* on_serial (LOG_SERIAL "SHUTDOWN" "Shutting down ShipOS..." []) in
  do* on_serial (LOG_SERIAL "SHUTDOWN" "Attempting QEMU debug-exit (port 0xf4)" []) in
  let* on := out 4 QEMU_DEBUG_EXIT_PORT QEMU_EXIT_SUCCESS in
  if negb on then ret Off else
  do* on_serial (LOG_SERIAL "SHUTDOWN" "Attempting QEMU/Bochs shutdown (port 0x604)" []) in
  let* on := out 2 QEMU_SHUTDOWN_PORT QEMU_SHUTDOWN_VALUE in
  if negb on then ret Off else
  do* on_serial (LOG_SERIAL "SHUTDOWN" "Attempting APM shutdown (port 0xB004)" []) in
  let* on := out 2 APM_PORT APM_SHUTDOWN_VALUE in
  if negb on then ret Off else
  do* on_serial (LOG_SERIAL "SHUTDOWN" "Attempting legacy QEMU shutdown (port 0x501)" []) in
  let* on := out 1 LEGACY_QEMU_SHUTDOWN_PORT LEGACY_QEMU_SHUTDOWN_VALUE in
  if negb on then ret Off else
  do* on_serial (LOG_SERIAL "SHUTDOWN" "Hardware shutdown not supported" []) in
  do* on_console (LOG "Hardware shutdown not supported - system halted" []) in
  do* on_console (print (chars "System shutdown requested but hardware shutdown is not available." ++ [10; 0])) in
  do* on_console (print (chars "It is now safe to power off your computer." ++ [10; 0])) in
  ret Halted.

(** * Properties *)

(** ** Both outputs together *)

Context {U : Uart D (UD := UD)}.
Context (s0 : st) (i0 : nat) (t0 : tty_structure) (p0 : Z) (r : cpu_ref) (c0 : percpu).
Abbreviation sys0 := (co_sys (h_console s0)).
Context (Hcon : console_ready (h_console s0) i0 t0 r c0)
        (Hser : port_ready (default_serial_port (h_serial s0)) p0 (serial_now s0)).

(** Since [s0], [t] has been typed and [u] sent; the ports are in the state [p]. *)
Definition reported (t u : list Z) (p : P) (s : st) : Prop :=
  typed (h_console s0) i0 t0 r c0 t (h_console s) ∧
  logged (U := U) (serial_now s0) r c0 u (serial_now s) ∧ h_ports s = p.

Lemma ready_cli : cli_inv sys0 r c0.
Proof using Hcon. clear Hser. apply Hcon. Qed.

Lemma reported_start : reported [] [] (h_ports s0) s0.
Proof using Hcon Hser. split; [by apply typed_start|]. split; [|done]. eapply logged_start. exact Hser. Qed.

Lemma typed_sections t k : typed (h_console s0) i0 t0 r c0 t k → after_sections sys0 r c0 (co_sys k).
Proof using Type. clear Hcon Hser. by intros (sys & v & -> & Ha & _). Qed.

Lemma logged_sections u v : logged (U := U) (serial_now s0) r c0 u v → after_sections sys0 r c0 (se_sys v).
Proof using Type. clear Hcon Hser. by intros (d & sys & -> & Ha & _). Qed.

Lemma reported_console (c : M console ()) t u p s x :
  (∀ t k, typed (h_console s0) i0 t0 r c0 t k → ∃ k', c k = Ret ((), k') ∧ typed (h_console s0) i0 t0 r c0 (t ++ x) k') →
  reported t u p s → ∃ s', on_console c s = Ret ((), s') ∧ reported (t ++ x) u p s'.
Proof using Type.
  clear Hcon Hser. intros Hc (Ht & Hu & Hp). destruct (Hc _ _ Ht) as (k' & E & Ht'). eexists. unfold on_console. rewrite E.
  split; [done|]. split; [exact Ht'|]. split; [|exact Hp]. destruct Hu as (d & sys & Es & _ & Hon & Hs).
  exists d, (co_sys k'). split; [|split; [exact (typed_sections _ _ Ht')|by split]].
  unfold serial_now in *. cbn [h_console h_serial]. injection Es as E1 E2 E3 E4 E5 _. unfold set_serial_sys, set_dev. cbn. by f_equal.
Qed.

Lemma reported_serial (c : M (serial D) ()) t u p s x :
  (∀ u v, logged (U := U) (serial_now s0) r c0 u v → ∃ v', c v = Ret ((), v') ∧ logged (U := U) (serial_now s0) r c0 (u ++ x) v') →
  reported t u p s → ∃ s', on_serial c s = Ret ((), s') ∧ reported t (u ++ x) p s'.
Proof using Type.
  clear Hcon Hser. intros Hc (Ht & Hu & Hp). destruct (Hc _ _ Hu) as (v' & E & Hu'). eexists. unfold on_serial. rewrite E.
  split; [done|]. split; [|split; [|exact Hp]].
  - destruct Ht as (sys & v & Es & _ & Hv). exists (se_sys v'), v. cbn [h_console]. rewrite Es. split; [done|].
    split; [exact (logged_sections _ _ Hu')|exact Hv].
  - unfold serial_now. cbn [h_console h_serial]. replace (set_serial_sys _ v') with v'; [exact Hu'|]. by destruct v'.
Qed.

(** ** The reports of one step *)

Lemma say t u p s str : Forall (λ c, c ≠ 0) str → str ≠ [] → reported t u p s →
  ∃ s', on_console (print (str ++ [0])) s = Ret ((), s') ∧ reported (t ++ str) u p s'.
Proof using Hcon. clear Hser. intros H1 H2. apply reported_console. intros ?? H. by apply typed_print. Qed.

Lemma say_log t u p s fmt : text_ok (chars fmt) → reported t u p s →
  ∃ s', on_console (LOG fmt []) s = Ret ((), s') ∧ reported (t ++ chars fmt ++ [10]) u p s'.
Proof using Hcon.
  clear Hser. intros H. apply reported_console. intros t' k Hk.
  pose proof (typed_printf _ _ _ _ _ Hcon t' [L fmt; Lit [10]] k Hk) as Hp. unfold format_of, args_of, text_of_pieces in Hp.
  cbn [fmap list_fmap concat piece_format piece_args piece_text L app] in Hp. apply Hp.
  - apply Forall_cons_2; [exact H|plain].
  - by destruct (chars fmt).
Qed.

Lemma send_log t u p s logger fmt ps : text_ok (chars logger) → chars fmt = format_of ps → Forall piece_ok ps → reported t u p s →
  ∃ s', on_serial (LOG_SERIAL logger fmt (args_of ps)) s = Ret ((), s') ∧ reported t (u ++ line logger ps) p s'.
Proof using Hcon Hser.
  intros H1 H2 H3. apply reported_serial. intros ?? H. exact (log_pieces (U := U) (serial_now s0) p0 r c0 Hser ready_cli _ _ _ _ _ H1 H2 H3 H).
Qed.

Lemma send_text t u p s logger fmt : text_ok (chars logger) → text_ok (chars fmt) → reported t u p s →
  ∃ s', on_serial (LOG_SERIAL logger fmt []) s = Ret ((), s') ∧ reported t (u ++ line logger [L fmt]) p s'.
Proof using Hcon Hser.
  intros H1 H2. apply (send_log t u p s logger fmt [L fmt] H1); [by rewrite <- (app_nil_r (chars fmt))|apply Forall_cons_2; [exact H2|plain]].
Qed.

(** ** [panic] *)

Lemma message_ok message : Forall (λ c, c ≠ 0) message → (length message < BUF_SIZE)%nat → Forall piece_ok [Str 1 message].
Proof using Type. clear. intros. apply Forall_cons_2; [by split_and!|apply Forall_nil_2]. Qed.

(** With the locks free, [panic] shows the message on the terminal and sends it
    over the serial port, and gets as far as its final loop. *)
Theorem panic_reports message : message ≠ [] → Forall (λ c, c ≠ 0) message → (length message < BUF_SIZE)%nat →
  ∃ s', kernel_panic message s0 = Ret ((), s') ∧
    reported (message ++ 9 :: chars "panic!") (line "PANIC" [Str 1 message] ++ line "PANIC" [L "System halted!"]) (h_ports s0) s'.
Proof using Hcon Hser.
  intros Hne H0 Hlen. assert (text_ok (chars "PANIC")) as Hp by (by_computation).
  destruct (say _ _ _ _ message H0 Hne reported_start) as (s1 & E1 & R1).
  destruct (say _ _ _ _ (9 :: chars "panic!") ltac:(by_computation) ltac:(done) R1) as (s2 & E2 & R2).
  destruct (send_log _ _ _ _ "PANIC" "%s" [Str 1 message] Hp eq_refl (message_ok _ H0 Hlen) R2) as (s3 & E3 & R3).
  destruct (send_text _ _ _ _ "PANIC" "System halted!" Hp ltac:(by_computation) R3) as (s4 & E4 & R4).
  exists s4. split; [|exact R4]. unfold kernel_panic, PANIC_SERIAL.
  rewrite (bind_ret _ _ _ _ _ E1), (bind_ret _ _ _ _ _ E2). etransitivity; [exact (bind_ret _ _ _ _ _ E3)|]. exact E4.
Qed.

(** ** [shutdown] *)

(** The writes that switch a machine off, with what is sent before them. *)
Definition attempts : list (string * (Z * Z * Z)) :=
  [("Attempting QEMU debug-exit (port 0xf4)", (4, 0xf4, 0x10)); ("Attempting QEMU/Bochs shutdown (port 0x604)", (2, 0x604, 0x2000));
   ("Attempting APM shutdown (port 0xB004)", (2, 0xB004, 0x2000)); ("Attempting legacy QEMU shutdown (port 0x501)", (1, 0x501, 0x01))].

(** What they do in turn: the messages sent, and the ports if the machine is
    still on. *)
Fixpoint try_all (l : list (string * (Z * Z * Z))) (p : P) : list string * option P :=
  match l with
  | [] => ([], Some p)
  | (msg, (bytes, port, val)) :: l =>
      match port_write bytes port val p with
      | Some p => let '(msgs, o) := try_all l p in (msg :: msgs, o)
      | None => ([msg], None)
      end
  end.

Definition shutdown_lines (msgs : list string) : list Z := concat ((λ msg, line "SHUTDOWN" [L msg]) <$> msgs).
Definition last_words : list Z :=
  chars "Hardware shutdown not supported - system halted" ++ [10] ++
  chars "System shutdown requested but hardware shutdown is not available." ++ [10] ++
  chars "It is now safe to power off your computer." ++ [10].

(** One attempt followed by the rest. *)
Lemma attempt msg bytes port val l (rest : M st stop) t u p s (Q : list string → option P → stop → st → Prop) :
  text_ok (chars msg) → reported t u p s →
  (port_write bytes port val p = None → ∀ s', reported t (u ++ line "SHUTDOWN" [L msg]) p s' → Q [msg] None Off s') →
  (∀ p' s', port_write bytes port val p = Some p' → reported t (u ++ line "SHUTDOWN" [L msg]) p' s' →
     ∃ e s'', rest s' = Ret (e, s'') ∧ Q (msg :: (try_all l p').1) (try_all l p').2 e s'') →
  ∃ e s', (do* on_serial (LOG_SERIAL "SHUTDOWN" msg []) in
           let* on := out bytes port val in if negb on then ret Off else rest) s = Ret (e, s') ∧
    let '(msgs, o) := try_all ((msg, (bytes, port, val)) :: l) p in Q msgs o e s'.
Proof using Hcon Hser.
  intros Hm R Hoff Hon. assert (text_ok (chars "SHUTDOWN")) as Hp by (by_computation).
  destruct (send_text _ _ _ _ _ _ Hp Hm R) as (s1 & E1 & R1). rewrite (bind_ret _ _ _ _ _ E1). unfold bind at 1, out. cbn [try_all].
  pose proof R1 as (T1 & L1 & Ep). rewrite Ep. destruct (port_write bytes port val p) as [p'|] eqn:Ew.
  - destruct (Hon p' (Host (h_console s1) (h_serial s1) p') eq_refl) as (e & s2 & E2 & HQ); [by split_and!|].
    exists e, s2. cbn [negb]. split; [exact E2|]. by destruct (try_all l p').
  - exists Off, s1. split; [done|]. by apply Hoff.
Qed.

Lemma lines_cons msg msgs : shutdown_lines (msg :: msgs) = line "SHUTDOWN" [L msg] ++ shutdown_lines msgs.
Proof using Type. done. Qed.

(** What has happened when no attempt or one of the attempts has worked; [t] and
    [u] is what was reported before them. *)
Definition stopped (t u : list Z) (msgs : list string) (o : option P) (e : stop) (s : st) : Prop :=
  match o with
  | None => e = Off ∧ ∃ p, reported t (u ++ shutdown_lines msgs) p s
  | Some p => e = Halted ∧
      reported (t ++ last_words) (u ++ shutdown_lines msgs ++ line "SHUTDOWN" [L "Hardware shutdown not supported"]) p s
  end.

Lemma stopped_cons t u msg msgs o e s :
  stopped t (u ++ line "SHUTDOWN" [L msg]) msgs o e s → stopped t u (msg :: msgs) o e s.
Proof using Type. unfold stopped. rewrite lines_cons. destruct o; rewrite <- !app_assoc; done. Qed.

(** What [shutdown] does when everything has failed. *)
Lemma give_in t u p s : reported t u p s →
  ∃ e s', (do* on_serial (LOG_SERIAL "SHUTDOWN" "Hardware shutdown not supported" []) in
  do* on_console (LOG "Hardware shutdown not supported - system halted" []) in
  do* on_console (print (chars "System shutdown requested but hardware shutdown is not available." ++ [10; 0])) in
  do* on_console (print (chars "It is now safe to power off your computer." ++ [10; 0])) in
  ret Halted) s = Ret (e, s') ∧ stopped t u [] (Some p) e s'.
Proof using Hcon Hser.
  intros R. assert (text_ok (chars "SHUTDOWN")) as Hp by (by_computation).
  destruct (send_text _ _ _ _ "SHUTDOWN" "Hardware shutdown not supported" Hp ltac:(by_computation) R)
    as (s1 & E1 & R1).
  destruct (say_log _ _ _ _ "Hardware shutdown not supported - system halted" ltac:(by_computation) R1)
    as (s2 & E2 & R2).
  destruct (say _ _ _ _ (chars "System shutdown requested but hardware shutdown is not available." ++ [10])
    ltac:(by_computation) ltac:(done) R2) as (s3 & E3 & R3).
  destruct (say _ _ _ _ (chars "It is now safe to power off your computer." ++ [10])
    ltac:(by_computation) ltac:(done) R3) as (s4 & E4 & R4).
  exists Halted, s4. split.
  - rewrite (bind_ret _ _ _ _ _ E1), (bind_ret _ _ _ _ _ E2). etransitivity; [exact (bind_ret _ _ _ _ _ E3)|].
    etransitivity; [exact (bind_ret _ _ _ _ _ E4)|]. done.
  - split; [done|]. unfold last_words. rewrite <- !app_assoc in R4. exact R4.
Qed.

Lemma attempt_next msg bytes port val l (rest : M st stop) t u p s :
  text_ok (chars msg) →
  (∀ u p s, reported t u p s → ∃ e s', rest s = Ret (e, s') ∧ stopped t u (try_all l p).1 (try_all l p).2 e s') →
  reported t u p s →
  ∃ e s', (do* on_serial (LOG_SERIAL "SHUTDOWN" msg []) in
           let* on := out bytes port val in if negb on then ret Off else rest) s = Ret (e, s') ∧
    stopped t u (try_all ((msg, (bytes, port, val)) :: l) p).1 (try_all ((msg, (bytes, port, val)) :: l) p).2 e s'.
Proof using Hcon Hser.
  intros Hm Hrest R. destruct (attempt msg bytes port val l rest t u p s (stopped t u) Hm R) as (e & s' & E & HQ).
  - intros _ s' R'. split; [done|]. exists p. unfold shutdown_lines. cbn [fmap list_fmap concat]. by rewrite app_nil_r.
  - intros p' s' _ R'. destruct (Hrest _ p' s' R') as (e & s'' & E & HQ). exists e, s''. split; [exact E|]. by apply stopped_cons.
  - exists e, s'. split; [exact E|]. by destruct (try_all _ p).
Qed.

(** [shutdown] tries the four ports in order until the machine is off, and
    announces each attempt; on a machine that none of them switches off it says
    so on both outputs, and halts. *)
Theorem shutdown_spec (msgs := (try_all attempts (h_ports s0)).1) (o := (try_all attempts (h_ports s0)).2) :
  ∃ e s', shutdown s0 = Ret (e, s') ∧
    stopped (chars "System shutdown initiated" ++ [10]) (line "SHUTDOWN" [L "Shutting down ShipOS..."]) msgs o e s'.
Proof using Hcon Hser.
  assert (text_ok (chars "SHUTDOWN")) as Hp by (by_computation).
  destruct (say_log _ _ _ _ "System shutdown initiated" ltac:(by_computation) reported_start)
    as (s1 & E1 & R1).
  destruct (send_text _ _ _ _ "SHUTDOWN" "Shutting down ShipOS..." Hp ltac:(by_computation) R1)
    as (s2 & E2 & R2).
  unfold shutdown. rewrite (bind_ret _ _ _ _ _ E1), (bind_ret _ _ _ _ _ E2).
  clear E1 E2 R1 s1 Hp. unfold msgs, o, attempts. clear msgs o. revert R2. cbn [app].
  generalize (line "SHUTDOWN" [L "Shutting down ShipOS..."]), (h_ports s0). intros u p R.
  do 4 (apply attempt_next; [by_computation| |exact R]; clear R u p s2; intros u p s2 R).
  by apply give_in.
Qed.

(** A panic while the lock of [print] is held - by a processor that was printing
    - says nothing: it waits for that lock for ever. *)
Theorem panic_needs_print_lock message s : lk_word (print_spinlock (h_console s)) ≠ 0 → cli_inv (co_sys (h_console s)) r c0 →
  (∀ fuel, acquire_spinlock fuel (print_spinlock (h_console s)) (co_sys (h_console s)) = OutOfFuel) ∧
  kernel_panic message s = OutOfFuel.
Proof using Type.
  clear. intros Hl Hc. pose proof (proj1 (acquire_held_release_free _ _ _ (print_spinlock (h_console s)) (cli_room_le 16 1 _ _ _ ltac:(lia) Hc)) Hl) as H.
  split; [exact H|]. unfold kernel_panic, bind at 1, on_console, print, bind at 1, with_print_lock, acquire.
  unfold bind at 1. by rewrite H.
Qed.
End halt.

(** ** Machines *)

(** A machine that the writes [exits] switch off, and that keeps those that do
    not. *)
Definition machine_with (exits : list (Z * Z * Z)) : PowerPorts (list (Z * Z * Z)) := {|
  port_write bytes port val log := if decide ((bytes, port, val) ∈ exits) then None else Some (log ++ [(bytes, port, val)])
|}.

Definition demo_host : host (gmap Z chip) (list (Z * Z * Z)) := Host demo_screen demo_serial [].

Lemma demo_port_ready : port_ready (U := uart16550 [0x3F8]) 0x3F8 0 (serial_now demo_host).
Proof.
  split; [left|]. split; [reflexivity|]. split; [lia|].
  split; [split; [left|split; reflexivity]|]. exists (Spinlock 0 ""). split; reflexivity.
Qed.

(** With the debug-exit device, the first write ends the machine. *)
Lemma shutdown_spec_witness :
  ∃ s', shutdown (UD := uart16550_dev [0x3F8]) (PP := machine_with [(4, 0xf4, 0x10)]) demo_host = Ret (Off, s').
Proof.
  destruct (shutdown_spec (U := uart16550 [0x3F8]) (PP := machine_with [(4, 0xf4, 0x10)])
    demo_host 0 demo_terminal 0 EarlyCpu percpu_zero demo_screen_ready demo_port_ready) as (e & s' & E & H).
  exists s'. rewrite E. destruct H as [-> _]. reflexivity.
Defined.

(** A machine without any of the devices sees the four writes, and halts. *)
Lemma shutdown_halts :
  ∃ s', shutdown (UD := uart16550_dev [0x3F8]) (PP := machine_with []) demo_host = Ret (Halted, s') ∧
    h_ports s' = [(4, 0xf4, 0x10); (2, 0x604, 0x2000); (2, 0xB004, 0x2000); (1, 0x501, 0x01)].
Proof.
  destruct (shutdown_spec (U := uart16550 [0x3F8]) (PP := machine_with [])
    demo_host 0 demo_terminal 0 EarlyCpu percpu_zero demo_screen_ready demo_port_ready) as (e & s' & E & H).
  exists s'. rewrite E. destruct H as (-> & _ & _ & Hp). split; [reflexivity|exact Hp].
Defined.

Lemma panic_reports_witness :
  ∃ s', kernel_panic (UD := uart16550_dev [0x3F8]) (chars "kfree") demo_host = Ret ((), s') ∧ h_ports s' = [].
Proof.
  destruct (panic_reports (U := uart16550 [0x3F8]) demo_host 0 demo_terminal 0 EarlyCpu percpu_zero demo_screen_ready demo_port_ready
    (chars "kfree")) as (s' & E & _ & _ & Hp); [discriminate|by_computation|by_computation|].
  exists s'. split; [exact E|exact Hp].
Defined.
