(* ===== verification/KernelOutput.v ===== *)
(** * The kernel's start ([kernel/main.c]): outputs

    The first lines of [kernel_main]: the serial ports, the terminals, and what
    is logged on them, on the state of [Halt.v].  The terminals are used before
    they are set up.  Also what the threads of the first process print. *)

From S2P Require Import Prelude Memory Kalloc StrUtils Printf Templates Percpu Spinlock Tty Serial Reports PrintVm Halt.
From Stdlib Require Import Ascii.

Section main.
Context {D P : Type} {UD : UartDev D}.
Abbreviation st := (host D P).

(** From [init_serial_ports] to the first message of the kernel. *)
Definition start_serial : M st () :=
  let* serial_ports_count := on_serial init_serial_ports in
  do* (if serial_ports_count =? -1 then on_console (LOG "No serial ports detected" [])
       else
         do* on_console (LOG "Found %d serial port(s)" [arg serial_ports_count]) in
         let* port := on_serial get_default_serial_port in
         do* on_console (LOG "Using port %#x as default" [arg port]) in
         on_serial (LOG_SERIAL "SERIAL" "Serial ports initialized successfully" [])) in
  on_console (LOG "Kernel started" []).

(** [for (uint8_t i = 0; i < TERMINALS_NUMBER; i++) set_tty(i);], with [n]
    terminals left. *)
Fixpoint set_all_ttys (n i : nat) : M console () :=
  match n with
  | O => ret ()
  | S n => do* set_tty (Z.of_nat i) in set_all_ttys n (S i)
  end.

Definition start_terminals : M st () :=
  do* on_console init_tty in
  do* on_console (set_all_ttys TERMINALS_NUMBER 0) in
  do* on_console (set_tty 0) in
  on_serial (LOG_SERIAL "BOOT" "TTY subsystem initialized" []).

Definition start_outputs : M st () :=
  do* start_serial in
  start_terminals.
End main.

(** The first [n] rounds of the endless loop of [print_num]. *)
Fixpoint print_num (n : nat) (num : Z) : M console () :=
  match n with
  | O => ret ()
  | S n =>
      do* printf (chars "Hello from thread %d" ++ [13; 10]) [arg num] in
      print_num n num
  end.

(** [struct argument] starts with the pointer [value]. *)
Definition thread_function (n : nat) (argc args : Z) : M console () :=
  let* s := get in
  let m := km_mem (sy_kmem (co_sys s)) in
  print_num n (load32 m (load64 m args)).

(** * Properties *)

(** ** Switching terminals *)

(** What [set_tty] types on the terminal. *)
Definition greeting (t : tty_structure) : list Z := chars "TTY " ++ dec_text (s32 (tty_id t)) ++ [10].
Definition greet (t : tty_structure) : tty_structure := type_text t (greeting t).

Section terminals.
Context (sys0 : system) (r : cpu_ref) (c0 : percpu) (Hcli : cli_inv sys0 r c0).

(** A console with the terminals [ts], the active one on the screen. *)
Definition tidy (ts : list tty_structure) (a : option nat) (s : console) : Prop :=
  tty_terminals s = ts ∧ active_tty s = a ∧ Forall tty_ok ts ∧ length (vga_memory s) = CELLS ∧
  lk_word (printf_spinlock s) = 0 ∧ lk_word (print_spinlock s) = 0 ∧ after_sections sys0 r c0 (co_sys s) ∧
  (∀ i t, a = Some i → ts !! i = Some t → vga_memory s = tty_buffer t).

Lemma tidy_ready ts i t s : tidy ts (Some i) s → ts !! i = Some t → ∃ c, console_ready s i t r c ∧ after_sections sys0 r c0 (left_section (co_sys s) r c).
Proof using Hcli.
  intros (E1 & E2 & Ho & Hv & L1 & L2 & Ha & _) Ht. destruct (after_cli _ _ _ _ Hcli Ha) as (c & Hc & Ha'). exists c. split; [|done].
  split; [done|]. split; [by rewrite E1|]. split; [by eapply Forall_lookup_1|]. by split_and!.
Qed.

(** More text on the active terminal; what was on the screen before is of no
    consequence. *)
Lemma log_tidy ts i t s fmt args ps :
  tty_terminals s = ts → active_tty s = Some i → Forall tty_ok ts → length (vga_memory s) = CELLS →
  lk_word (printf_spinlock s) = 0 → lk_word (print_spinlock s) = 0 → after_sections sys0 r c0 (co_sys s) → ts !! i = Some t →
  chars fmt = format_of ps → args = args_of ps → Forall piece_ok ps →
  ∃ s', LOG fmt args s = Ret ((), s') ∧ tidy (<[i := type_text t (text_of_pieces ps ++ [10])]> ts) (Some i) s'.
Proof using Hcli.
  intros E1 E2 Ho Hv L1 L2 Ha Ht Hf -> Hok. destruct (after_cli _ _ _ _ Hcli Ha) as (c & Hc & Ha').
  assert (console_ready s i t r c) as Hr by (split; [done|]; split; [by rewrite E1|]; split; [by eapply Forall_lookup_1|]; by split_and!).
  set (all := ps ++ [Lit [10]]).
  assert (Forall piece_ok all) as Hall by (apply Forall_app; split; [done|plain]).
  assert (chars fmt ++ [ch "010"] = format_of all) as Ef by (unfold all, format_of; rewrite fmap_app, concat_app, Hf; done).
  assert (args_of ps = args_of all) as Ea by (unfold all, args_of; rewrite fmap_app, concat_app; cbn; by rewrite app_nil_r).
  assert (text_of_pieces all = text_of_pieces ps ++ [10]) as Et by (unfold all, text_of_pieces; by rewrite fmap_app, concat_app).
  destruct (printf_result s i t r c _ _ _ Hr (pieces_render all Hall) (pieces_no_nul all Hall)) as (v & E & Hlv & Ev & Htok).
  rewrite Et in E, Ev, Htok. eexists. split; [unfold LOG; rewrite Ef, Ea; exact E|].
  split; [cbn; by rewrite E1|]. split; [done|]. split; [by apply Forall_insert|]. split; [exact Hlv|]. split; [exact L1|]. split; [exact L2|].
  split; [exact Ha'|]. intros j t' [= <-] Hj. rewrite list_lookup_insert_eq in Hj by (by eapply lookup_lt_Some). injection Hj as <-.
  apply Ev. by destruct (text_of_pieces ps).
Qed.

Lemma refresh_tidy ts i t s : tidy ts (Some i) s → ts !! i = Some t → ∃ s', refresh s = Ret ((), s') ∧ tidy ts (Some i) s'.
Proof using Type.
  clear Hcli. intros (E1 & E2 & Ho & Hv & L1 & L2 & Ha & Hs) Ht. exists s. split; [|by split_and!].
  rewrite (showing_self s i t E2 ltac:(by rewrite E1)). rewrite refresh_showing; [|by rewrite E1; eapply lookup_lt_Some|by eapply Forall_lookup_1|done].
  by rewrite (Hs i t eq_refl Ht).
Qed.

Lemma set_tty_tidy ts i t s a : tidy ts a s → ts !! i = Some t → (i < TERMINALS_NUMBER)%nat →
  ∃ s', set_tty (Z.of_nat i) s = Ret ((), s') ∧ tidy (<[i := greet t]> ts) (Some i) s'.
Proof using Hcli.
  intros (E1 & E2 & Ho & Hv & L1 & L2 & Ha & Hs) Ht Hi. unfold set_tty. rewrite (proj2 (Z.leb_gt _ _)) by lia.
  unfold bind at 1, modify at 1. unfold bind at 1, modify at 1. rewrite Nat2Z.id.
  set (s1 := set_active (Some i) (set_vga (clear_vga (vga_memory s)) s)).
  assert (active s1 = Ret (t, s1)) as Eact by (unfold active; cbn; by rewrite E1, Ht).
  rewrite (bind_ret _ _ _ _ _ Eact).
  destruct (log_tidy ts i t s1 "TTY %d" [VarArg (tty_id t) None] [L "TTY "; Dec (tty_id t)]) as (s2 & E & H2); try done.
  { cbn. unfold clear_vga, clear_bytes. by rewrite length_imap. }
  { plain. }
  rewrite (bind_ret _ _ _ _ _ E).
  destruct (refresh_tidy _ i (type_text t (text_of_pieces [L "TTY "; Dec (tty_id t)] ++ [10])) s2 H2) as (s3 & E3 & H3).
  { apply list_lookup_insert_eq. by eapply lookup_lt_Some. }
  exists s3. split; [exact E3|]. unfold greet, greeting. unfold text_of_pieces in H3. cbn [fmap list_fmap concat piece_text L] in H3.
  rewrite app_nil_r, <- app_assoc in H3. exact H3.
Qed.

Lemma set_all_ttys_tidy n : ∀ pre post a s, tidy (pre ++ post) a s → length post = n → (length pre + n ≤ TERMINALS_NUMBER)%nat → (0 < n)%nat →
  ∃ s' a', set_all_ttys n (length pre) s = Ret ((), s') ∧ tidy (pre ++ (greet <$> post)) a' s'.
Proof using Hcli.
  induction n as [|n IH]; intros pre post a s Hs Hl Hn H0; [lia|]. destruct post as [|t post]; [done|]. injection Hl as Hl.
  destruct (set_tty_tidy (pre ++ t :: post) (length pre) t s a Hs) as (s1 & E1 & H1); [by apply list_lookup_middle|lia|].
  cbn [set_all_ttys]. rewrite (bind_ret _ _ _ _ _ E1). rewrite insert_app_r_alt, Nat.sub_diag in H1 by lia. cbn [insert list_insert] in H1.
  destruct n as [|n].
  - apply nil_length_inv in Hl as ->. by exists s1, (Some (length pre)).
  - assert (tidy ((pre ++ [greet t]) ++ post) (Some (length pre)) s1) as H1' by (by rewrite <- app_assoc).
    destruct (IH (pre ++ [greet t]) post _ s1 H1' Hl) as (s2 & a2 & E2 & H2); [rewrite length_app; cbn; lia|lia|].
    rewrite length_app, Nat.add_comm in E2. exists s2, a2. split; [exact E2|]. by rewrite <- app_assoc in H2.
Qed.
End terminals.

(** ** The terminals *)

(** A console before [init_tty]: no terminal is active, the locks are free. *)
Definition console_off (s : console) (r : cpu_ref) (c : percpu) : Prop :=
  active_tty s = None ∧ length (vga_memory s) = CELLS ∧ cli_inv (co_sys s) r c ∧
  lk_word (printf_spinlock s) = 0 ∧ lk_word (print_spinlock s) = 0.

Lemma init_tty_tidy s r c : console_off s r c →
  ∃ s', init_tty s = Ret ((), s') ∧
    tidy (co_sys s) r c (<[0%nat := type_text (greet (initial_tty 0)) (chars "TTY subsystem initialized" ++ [10])]>
      (initial_tty <$> seq 0 TERMINALS_NUMBER)) (Some 0%nat) s'.
Proof.
  intros (Ha & Hv & Hc & L1 & L2). unfold init_tty. unfold bind at 1, modify at 1.
  destruct (set_tty_tidy (co_sys s) r c Hc (initial_tty <$> seq 0 TERMINALS_NUMBER) 0 (initial_tty 0)
    (set_terminals (initial_tty <$> seq 0 TERMINALS_NUMBER) s) None) as (s1 & E1 & H1); [|done|unfold TERMINALS_NUMBER; lia|].
  { split; [done|]. split; [exact Ha|]. split; [apply Forall_fmap, Forall_true; intros; apply initial_tty_ok|].
    split; [exact Hv|]. split; [exact L1|]. split; [exact L2|]. split; [by left|done]. }
  rewrite (bind_ret _ _ _ _ _ E1). unfold bind at 1, modify at 1. destruct H1 as (T1 & A1 & O1 & V1 & M1 & N1 & B1 & _).
  destruct (log_tidy (co_sys s) r c Hc _ 0 (greet (initial_tty 0)) (Console_ (tty_terminals s1) (active_tty s1) (vga_memory s1)
    (init_spinlock (printf_spinlock s1) "printf spinlock") (init_spinlock (print_spinlock s1) "print spinlock") (co_sys s1))
    "TTY subsystem initialized" [] [L "TTY subsystem initialized"] T1 A1 O1 V1) as (s2 & E2 & H2); try done.
  - cbn [printf_spinlock]. unfold init_spinlock, is_locked. cbn [lk_word]. by rewrite M1.
  - cbn [print_spinlock]. unfold init_spinlock, is_locked. cbn [lk_word]. by rewrite N1.
  - plain.
  - exists s2. split; [exact E2|]. rewrite list_insert_insert_eq in H2. exact H2.
Qed.

(** The terminals when [kernel_main] has set them up. *)
Definition boot_text : list Z :=
  chars "TTY 0" ++ [10] ++ chars "TTY subsystem initialized" ++ [10] ++ chars "TTY 0" ++ [10] ++ chars "TTY 0" ++ [10].
Definition boot_tty : tty_structure := type_text (initial_tty 0) boot_text.
Definition boot_terminals : list tty_structure :=
  boot_tty :: ((λ i, type_text (initial_tty i) (chars "TTY " ++ [48 + Z.of_nat i] ++ [10])) <$> seq 1 6).

Lemma greeting_id t i : tty_id t = Z.of_nat i → (i < 10)%nat → greeting t = chars "TTY " ++ [48 + Z.of_nat i] ++ [10].
Proof. intros E Hi. unfold greeting. rewrite E. clear E. do 10 (destruct i as [|i]; [vm_compute; reflexivity|]). lia. Qed.

Lemma greet_boot : greet (greet (type_text (greet (initial_tty 0)) (chars "TTY subsystem initialized" ++ [10]))) = boot_tty.
Proof.
  unfold greet, boot_tty, boot_text. rewrite !(greeting_id _ 0) by (rewrite ?type_text_id; first [reflexivity | lia]).
  rewrite <- !type_text_app. reflexivity.
Qed.

Lemma greet_terminals : greet <$> (initial_tty <$> seq 1 6) = tail boot_terminals.
Proof.
  unfold boot_terminals. cbn [tail]. rewrite <- list_fmap_compose. apply list_fmap_ext. intros k i Hk. unfold compose, greet.
  apply lookup_seq in Hk as [-> Hk]. rewrite (greeting_id _ (1 + k)); [done| |lia]. cbn [initial_tty tty_id]. unfold u8. apply Z.mod_small. lia.
Qed.

Lemma terminals_tidy s r c : console_off s r c →
  ∃ s', (do* init_tty in do* set_all_ttys TERMINALS_NUMBER 0 in set_tty 0) s = Ret ((), s') ∧ tidy (co_sys s) r c boot_terminals (Some 0%nat) s'.
Proof.
  intros Hoff. pose proof Hoff as (_ & _ & Hc & _). destruct (init_tty_tidy s r c Hoff) as (s1 & E1 & H1). rewrite (bind_ret _ _ _ _ _ E1).
  set (t0 := type_text (greet (initial_tty 0)) (chars "TTY subsystem initialized" ++ [10])) in *.
  destruct (set_all_ttys_tidy (co_sys s) r c Hc TERMINALS_NUMBER [] (t0 :: fmap (M:=list) initial_tty (seq 1 6)) (Some 0%nat) s1 H1) as (s2 & a2 & E2 & H2);
    [reflexivity|unfold TERMINALS_NUMBER; cbn; lia|unfold TERMINALS_NUMBER; lia|].
  cbn [length] in E2. rewrite (bind_ret _ _ _ _ _ E2). rewrite app_nil_l, fmap_cons, greet_terminals in H2.
  destruct (set_tty_tidy (co_sys s) r c Hc _ 0 (greet t0) s2 a2 H2) as (s3 & E3 & H3); [done|unfold TERMINALS_NUMBER; lia|].
  exists s3. split; [exact E3|]. cbn [insert list_insert] in H3. unfold t0 in H3. rewrite greet_boot in H3. exact H3.
Qed.

(** ** Before the terminals *)

(** A message without a terminal: the first character is written through the
    null pointer [active_tty]. *)
Lemma log_undef s r c fmt args x rest : active_tty s = None → cli_inv (co_sys s) r c → lk_word (printf_spinlock s) = 0 →
  chars fmt = x :: rest → x ≠ ch "%" → LOG fmt args s = Undef.
Proof.
  intros Ha Hc Hl Hf Hx. destruct (acquire_free (co_sys s) r c (printf_spinlock s) 0 Hc Hl) as [Ea _].
  unfold LOG, printf. unfold bind at 1, with_printf_lock, acquire. rewrite (bind_ret _ _ _ _ _ Ea). cbn [ret].
  rewrite Hf. unfold bind at 1, interpret. cbn [app length format_loop]. apply Z.eqb_neq in Hx. rewrite Hx. cbn [negb].
  unfold bind at 1. cbn [sink_putc tty_sink]. unfold bind at 1, putchar. unfold bind at 1, active. cbn [active_tty]. by rewrite Ha.
Qed.

(** ** The threads of the first process *)

Section hello.
Context (s0 : console) (i0 : nat) (t0 : tty_structure) (r : cpu_ref) (c0 : percpu).
Context (Hready : console_ready s0 i0 t0 r c0).

Definition hello_pieces (num : Z) : list piece := [L "Hello from thread "; Reports.num num; Lit [13; 10]].
Definition hello (num : Z) : list Z := text_of_pieces (hello_pieces num).

Lemma print_num_typed num n : ∀ text s, typed s0 i0 t0 r c0 text s →
  ∃ s', print_num n num s = Ret ((), s') ∧ typed s0 i0 t0 r c0 (text ++ concat (replicate n (hello num))) s'.
Proof using Hready.
  induction n as [|n IH]; intros text s Hs; cbn [print_num replicate concat]; [exists s; by rewrite app_nil_r|].
  destruct (typed_printf s0 i0 t0 r c0 Hready text (hello_pieces num) s Hs) as (s1 & E1 & H1); [plain|done|].
  destruct (IH _ s1 H1) as (s2 & E2 & H2). exists s2. rewrite <- app_assoc in H2. split; [|exact H2].
  rewrite (bind_ret _ _ _ _ _ E1). exact E2.
Qed.

(** The thread types its greeting, with the number that its argument points to, as
    often as it gets to. *)
Theorem thread_function_types n argc args (m := km_mem (sy_kmem (co_sys s0))) (num := load32 m (load64 m args)) :
  ∃ s', thread_function n argc args s0 = Ret ((), s') ∧ typed s0 i0 t0 r c0 (concat (replicate n (hello num))) s'.
Proof using Hready.
  unfold thread_function. rewrite bind_get. exact (print_num_typed num n [] s0 (typed_start s0 i0 t0 r c0 Hready)).
Qed.
End hello.

Section serial.
Context {D P : Type} {UD : UartDev D} {U : Uart D (UD := UD)}.

(** [init_serial_ports] returns whatever ports there are. *)
Lemma init_serial_ports_returns (d : D) sys r c : cli_inv sys r c →
  ∃ n s c', init_serial_ports (serial_boot d sys) = Ret (n, s) ∧ cli_inv (se_sys s) r c'.
Proof using U.
  intros Hcli. unfold init_serial_ports, detect_serial_ports. rewrite bind_assoc. unfold bind at 1, gets at 1.
  change (negb (num_initialized_ports (serial_boot d sys) =? -1)) with false. cbv iota. rewrite bind_assoc. unfold bind at 1, modify.
  destruct (detect_loop_result standard_com_ports
    (set_ports (initialized_ports (serial_boot d sys)) 0 (serial_boot d sys)) r c [])
    as (s' & c' & E & (Hl & _ & _ & Hc') & Hn & _).
  - split_and!; [done..|repeat constructor|exact Hcli].
  - by_computation.
  - by_computation.
  - done.
  - done.
  - rewrite bind_assoc, (bind_ret _ _ _ _ _ E). unfold bind at 1, gets.
    destruct (num_initialized_ports s' <=? 0) eqn:E0; [by exists (-1), s', c'|]. apply Z.leb_gt in E0. rewrite bind_get.
    destruct (lookup_lt_is_Some_2 (initialized_ports s') (Z.to_nat (num_initialized_ports s' - 1))) as [p Hp]; [lia|]. rewrite Hp.
    unfold bind, set_default_serial_port. eexists _, _, c'. split; [reflexivity|]. by destruct (get_port_index p s' =? -1).
Qed.

(** [kernel_main] logs on the terminal before [init_tty]: whichever serial ports
    are found, the first message is written through a null pointer. *)
Theorem start_outputs_undefined (d : D) (p : P) (k : console) r c :
  console_off k r c → start_outputs (Host k (serial_boot d (co_sys k)) p) = Undef.
Proof using U.
  intros (Ha & _ & Hc & Hl & _). destruct (init_serial_ports_returns d (co_sys k) r c Hc) as (n & v & c' & E & Hc').
  assert (on_serial init_serial_ports (Host k (serial_boot d (co_sys k)) p) = Ret (n, Host (with_sys k (se_sys v)) v p)) as E1.
  { unfold on_serial. change (serial_now (Host k (serial_boot d (co_sys k)) p)) with (serial_boot d (co_sys k)). by rewrite E. }
  unfold start_outputs, start_serial. rewrite bind_assoc, (bind_ret _ _ _ _ _ E1). destruct (n =? -1).
  - unfold bind at 1, bind at 1, on_console. cbn [h_console].
    erewrite (log_undef (with_sys k (se_sys v)) r c' "No serial ports detected"); [done..|].
    vm_compute. congruence.
  - unfold bind at 1, bind at 1, bind at 1, on_console. cbn [h_console].
    erewrite (log_undef (with_sys k (se_sys v)) r c' "Found %d serial port(s)"); [done..|].
    vm_compute. congruence.
Qed.

(** From [init_tty] on all is well: the seven terminals have their greetings,
    the first is active and on the screen and can be written to, and the serial
    port has the message of the kernel. *)
Theorem start_terminals_spec (s0 : host D P) p0 r c0 :
  console_off (h_console s0) r c0 → port_ready (default_serial_port (h_serial s0)) p0 (serial_now s0) →
  ∃ s' c, start_terminals s0 = Ret ((), s') ∧ tty_terminals (h_console s') = boot_terminals ∧
    vga_memory (h_console s') = tty_buffer boot_tty ∧ console_ready (h_console s') 0 boot_tty r c ∧
    logged (U := U) (serial_now s0) r c0 (line "BOOT" [L "TTY subsystem initialized"]) (serial_now s').
Proof using Type.
  intros Hoff Hser. pose proof Hoff as (_ & _ & Hc & _). destruct (terminals_tidy _ _ _ Hoff) as (k & E & Hk).
  pose proof Hk as (_ & _ & _ & _ & _ & _ & Ha & _). set (s1 := Host k (h_serial s0) (h_ports s0)).
  assert (logged (U := U) (serial_now s0) r c0 [] (serial_now s1)) as H1.
  { destruct (logged_start (U := U) (serial_now s0) p0 r c0 Hser) as (d & sys & Es & _ & Hon & Hs). exists d, (co_sys k).
    split; [|by split]. injection Es as E5 _. unfold serial_now, s1, set_serial_sys, set_dev. cbn in E5 |- *. by rewrite <- E5. }
  destruct (log_pieces (U := U) (serial_now s0) p0 r c0 Hser Hc "BOOT" "TTY subsystem initialized" [L "TTY subsystem initialized"] _ _
    ltac:(by_computation) eq_refl ltac:(plain) H1) as (v & E2 & H2).
  pose proof (logged_sections s0 r c0 _ _ H2) as Hv.
  assert (tidy (co_sys (h_console s0)) r c0 boot_terminals (Some 0%nat) (with_sys k (se_sys v))) as Hk'.
  { destruct Hk as (K1 & K2 & K3 & K4 & K5 & K6 & _ & K8). by split_and!. }
  destruct (tidy_ready _ _ _ Hc _ 0 boot_tty _ Hk' eq_refl) as (c & Hr & _).
  exists (Host (with_sys k (se_sys v)) v (h_ports s0)), c. split; [|split; [apply Hk'|split; [by eapply Hk'|split; [exact Hr|]]]].
  - unfold start_terminals. revert E. unfold bind, on_console. destruct (init_tty (h_console s0)) as [[[] k1]| | |]; try done.
    cbn [h_console]. destruct (set_all_ttys TERMINALS_NUMBER 0 k1) as [[[] k2]| | |]; try done. cbn [h_console]. intros ->.
    unfold on_serial. cbn [h_serial h_ports]. change (Host k (h_serial s0) (h_ports s0)) with s1.
    change (LOG_SERIAL "BOOT" "TTY subsystem initialized" [] (serial_now s1) = Ret ((), v)) in E2. by rewrite E2.
  - unfold serial_now at 2. cbn [h_console h_serial co_sys with_sys]. replace (set_serial_sys (se_sys v) v) with v; [exact H2|by destruct v].
Qed.
End serial.

(** ** Witnesses *)

Lemma demo_console_off : console_off demo_console EarlyCpu percpu_zero.
Proof. split; [reflexivity|]. split; [reflexivity|]. split; [apply cli_inv_outside; [split|]; reflexivity|]. split; reflexivity. Qed.

(** A machine with one serial port. *)
Lemma start_outputs_undefined_witness :
  start_outputs (UD := uart16550_dev [0x3F8]) (Host demo_console (serial_boot ∅ demo_system) ()) = Undef.
Proof. exact (start_outputs_undefined (U := uart16550 [0x3F8]) ∅ () demo_console EarlyCpu percpu_zero demo_console_off). Defined.

Lemma start_terminals_spec_witness :
  ∃ s', start_terminals (UD := uart16550_dev [0x3F8]) (Host demo_console demo_serial ()) = Ret ((), s') ∧
    length (tty_terminals (h_console s')) = 7%nat ∧ active_tty (h_console s') = Some 0%nat.
Proof.
  destruct (start_terminals_spec (U := uart16550 [0x3F8]) (Host demo_console demo_serial ()) 0 EarlyCpu percpu_zero demo_console_off
    demo_port_ready) as (s' & c & E & Ht & _ & (Ha & _) & _).
  exists s'. split; [exact E|]. split; [rewrite Ht; reflexivity|exact Ha].
Defined.
