(* ===== verification/Threads.v ===== *)
(** * Threads and thread lists ([kernel/sched/threads.c])

    Threads and list nodes live in pages of the allocator.  A list variable of
    the code ([struct thread_node *], or the [*list] behind a
    [struct thread_node **]) is passed in and returned by the operations.
    Messages of [panic] are written without their final newline. *)

From S2P Require Import Prelude Memory Kalloc Ring.

(** ** Layout *)

(** [struct thread_node] and [struct proc_node]: data, next, prev. *)
Definition ND_DATA : Z := 0.
Definition ND_NEXT : Z := 8.
Definition ND_PREV : Z := 16.

(** [struct thread] *)
Definition TH_CONTEXT : Z := 0.
Definition TH_START : Z := 8.
Definition TH_STACK : Z := 16.
Definition TH_KSTACK : Z := 24.
Definition TH_ARGC : Z := 32.
Definition TH_ARGS : Z := 40.
Definition TH_STATE : Z := 48.

(** [struct context]: the 15 general registers and [rip]. *)
Definition CTX_RSI : Z := 32.
Definition CTX_RDI : Z := 40.
Definition CTX_RIP : Z := 120.
Definition CTX_SIZE : Z := 128.

(** [enum sched_states] *)
Inductive sched_states := NEW | RUNNABLE | ON_CPU | WAIT | EXIT | UNUSED.
Definition state_code (st : sched_states) : Z :=
  match st with
  | NEW => 0 | RUNNABLE => 1 | ON_CPU => 2 | WAIT => 3 | EXIT => 4 | UNUSED => 5
  end.

Definition rd32 (a : Z) : M kmem Z := λ s, Ret (load32 (km_mem s) a, s).
Definition wr32 (a v : Z) : M kmem () := λ s, Ret ((), set_mem (store32 (km_mem s) a v) s).

(** ** Operations *)

Definition change_thread_state (thread : Z) (new_state : sched_states) : M kmem () :=
  wr32 (thread + TH_STATE) (state_code new_state).

Definition init_thread (thread start_function argc args : Z) : M kmem () :=
  let* stack := kalloc in
  do* wr64 (thread + TH_STACK) stack in
  let* kstack := kalloc in
  do* wr64 (thread + TH_KSTACK) kstack in
  let* st := rd64 (thread + TH_STACK) in
  do* kmemset st 0 PGSIZE in
  let* kst := rd64 (thread + TH_KSTACK) in
  do* kmemset kst 0 PGSIZE in
  let* kst := rd64 (thread + TH_KSTACK) in
  do* wr64 (thread + TH_KSTACK) (u64 (kst + PGSIZE)) in
  let* st := rd64 (thread + TH_STACK) in
  do* wr64 (thread + TH_STACK) (u64 (st + PGSIZE)) in
  do* wr64 (thread + TH_START) start_function in
  do* wr64 (thread + TH_ARGC) (u64 argc) in
  do* wr64 (thread + TH_ARGS) args in
  let* sp := rd64 (thread + TH_STACK) in
  let sp := sp - 8 in
  do* wr64 sp start_function in
  let sp := sp - (CTX_SIZE - 8) in
  do* kmemset sp 0 (CTX_SIZE - 8) in
  do* wr64 (thread + TH_CONTEXT) sp in
  let* c := rd64 (thread + TH_CONTEXT) in
  do* wr64 (c + CTX_RDI) (u64 argc) in
  let* c := rd64 (thread + TH_CONTEXT) in
  wr64 (c + CTX_RSI) args.

Definition create_thread (start_function argc args : Z) : M kmem Z :=
  let* new_thread := kalloc in
  do* init_thread new_thread start_function argc args in
  ret new_thread.

(** The bodies of [push_thread_list] and [push_proc_list], of [pop_thread_list]
    and [pop_proc_list], and so on, are the same up to the message of the
    panic.  They return the new value of [*list]. *)
Definition push_list (list data : Z) : M kmem Z :=
  let* new_node := kalloc in
  do* wr64 (new_node + ND_DATA) data in
  if negb (list =? 0) then
    do* wr64 (new_node + ND_NEXT) list in
    let* p := rd64 (list + ND_PREV) in
    do* wr64 (new_node + ND_PREV) p in
    let* p := rd64 (list + ND_PREV) in
    do* wr64 (p + ND_NEXT) new_node in
    do* wr64 (list + ND_PREV) new_node in
    ret list
  else
    do* wr64 (new_node + ND_PREV) new_node in
    do* wr64 (new_node + ND_NEXT) new_node in
    ret new_node.

Section lists.
Context {LK : Linker}.

(** The condition of the inner [if] is an assignment of [*list] to
    [( *list)->next], and tests the assigned value. *)
Definition pop_list (msg : string) (list : Z) : M kmem (Z * Z) :=
  if list =? 0 then panic msg
  else
    let* t := rd64 (list + ND_DATA) in
    do* wr64 (list + ND_NEXT) list in
    if negb (list =? 0) then
      do* kfree list in
      ret (t, 0)
    else
      let* p := rd64 (list + ND_PREV) in
      let* n := rd64 (list + ND_NEXT) in
      do* wr64 (p + ND_NEXT) n in
      let* n := rd64 (list + ND_NEXT) in
      let* p := rd64 (list + ND_PREV) in
      do* wr64 (n + ND_PREV) p in
      do* kfree list in
      ret (t, list).

Definition push_thread_list (list thread : Z) : M kmem Z := push_list list thread.

Definition pop_thread_list (list : Z) : M kmem (Z * Z) :=
  pop_list "Empty thread list while popping" list.
End lists.

Definition shift_thread_list (list : Z) : M kmem Z :=
  if list =? 0 then panic "Empty thread list while shifting" else rd64 (list + ND_NEXT).

Definition peek_thread_list (list : Z) : M kmem Z :=
  if list =? 0 then panic "Empty thread list while peeking" else rd64 (list + ND_DATA).

(** ** Lists in memory *)

Definition nx (m : mem) (n : Z) : Z := load64 m (n + ND_NEXT).
Definition pv (m : mem) (n : Z) : Z := load64 m (n + ND_PREV).
Definition dat (m : mem) (n : Z) : Z := load64 m (n + ND_DATA).

(** The list variable [head] holds the ring of the nodes and data [l]. *)
Definition queue (m : mem) (head : Z) (l : list (Z * Z)) : Prop :=
  head = default 0 (hd_error l.*1) ∧ ring (nx m) (pv m) l.*1 ∧
  Forall (λ nd, dat m nd.1 = nd.2) l.

Section queue.
Context {LK : Linker}.

(** ... in allocated pages, with [fl] the pages that are free. *)
Definition queue_ok (s : kmem) (fl : list Z) (head : Z) (l : list (Z * Z)) : Prop :=
  free_list s fl ∧ NoDup (l.*1 ++ fl) ∧ Forall page_ok l.*1 ∧ queue (km_mem s) head l.

Lemma node_store m a off v c off' :
  page_ok a → page_ok c → 0 ≤ v < 2 ^ 64 →
  (off = ND_DATA ∨ off = ND_NEXT ∨ off = ND_PREV) →
  (off' = ND_DATA ∨ off' = ND_NEXT ∨ off' = ND_PREV) →
  load64 (store64 m (a + off) v) (c + off') =
  if decide (a = c ∧ off = off') then v else load64 m (c + off').
Proof.
  intros Ha Hc Hv Ho Ho'. unfold ND_DATA, ND_NEXT, ND_PREV in *.
  apply (field_store m a off v c off' PGSIZE); try done; unfold PGSIZE in *; try lia.
  destruct (decide (a = c)); [by left|right].
  apply pages_disjoint; [apply Ha|apply Hc|done].
Qed.

Lemma page_ok_u64 p : page_ok p → 0 ≤ p < 2 ^ 64.
Proof. intros Hp. pose proof (page_ok_pos p Hp). destruct Hp as [_ ?]. unfold PHYSTOP in *. lia. Qed.

Lemma store_node_changes m a off v :
  0 ≤ off ≤ 16 → only_changes m (store64 m (a + off) v) a PGSIZE.
Proof.
  intros. eapply only_changes_sub; [apply store64_changes|lia|unfold PGSIZE; lia].
Qed.

(** A queue depends on the pages of its nodes only. *)
Lemma queue_frame m m' h l :
  pages_kept m m' l.*1 → queue m h l → queue m' h l.
Proof.
  intros Hk (Hh & Hr & Hd). unfold pages_kept in Hk.
  assert (∀ n off, n ∈ l.*1 → 0 ≤ off ≤ 16 → load64 m' (n + off) = load64 m (n + off)) as Hl.
  { intros n off Hn Ho. apply load64_agree. pose proof (proj1 (Forall_forall _ _) Hk n Hn) as Ha.
    eapply agree_sub; [exact Ha|lia|unfold PGSIZE; lia]. }
  split; [done|]. split.
  - eapply ring_update; [..|exact Hr]; intros c Hc; by apply Hl.
  - apply Forall_forall. intros [n d] Hn. pose proof (proj1 (Forall_forall _ _) Hd _ Hn) as E.
    simpl in *. rewrite <- E. apply Hl; [|done]. by apply (list_elem_of_fmap_2 fst _ _ Hn).
Qed.

Lemma queue_elem_ok s fl h l n d : queue_ok s fl h l → (n, d) ∈ l → page_ok n ∧ dat (km_mem s) n = d.
Proof.
  intros (_ & _ & Hp & _ & _ & Hd) Hn. split.
  - eapply (proj1 (Forall_forall _ _) Hp). by apply (list_elem_of_fmap_2 fst _ _ Hn).
  - by apply (proj1 (Forall_forall _ _) Hd _ Hn).
Qed.

Lemma queue_head_nil s fl l : queue_ok s fl 0 l → l = [].
Proof.
  intros (_ & _ & Hp & Hh & _). destruct l as [|[n d] l]; [done|]. simpl in *.
  inversion Hp as [|? ? Hn]; subst. by apply page_ok_nonzero in Hn.
Qed.
End queue.

(** ** push *)

Section push.
Context {LK : Linker}.

(** The five stores of [push_list] on a list that is not empty, field by field. *)
Lemma push_fields m p h z data (m' := store64 (store64 (store64 (store64 (store64 m (p + ND_DATA) data)
    (p + ND_NEXT) h) (p + ND_PREV) z) (z + ND_NEXT) p) (h + ND_PREV) p) c :
  page_ok p → page_ok h → page_ok z → page_ok c → 0 ≤ data < 2 ^ 64 → p ≠ z → p ≠ h →
  nx m' c = (if decide (z = c) then p else if decide (p = c) then h else nx m c) ∧
  pv m' c = (if decide (h = c) then p else if decide (p = c) then z else pv m c) ∧
  dat m' c = (if decide (p = c) then data else dat m c).
Proof.
  intros Hp Hh Hz Hc Hd Hpz Hph. pose proof (page_ok_u64 p Hp). pose proof (page_ok_u64 h Hh).
  pose proof (page_ok_u64 z Hz). subst m'. unfold nx, pv, dat.
  rewrite !node_store by (tauto || done). unfold ND_DATA, ND_NEXT, ND_PREV.
  split_and!; repeat case_decide; try done; lia.
Qed.

Lemma push_list_eq s s1 p h data z :
  kalloc s = Ret (p, s1) → page_ok p → page_ok h → p ≠ h → 0 ≤ data < 2 ^ 64 →
  pv (km_mem s1) h = z →
  push_list h data s = Ret (h, set_mem (store64 (store64 (store64 (store64 (store64 (km_mem s1)
    (p + ND_DATA) data) (p + ND_NEXT) h) (p + ND_PREV) z) (z + ND_NEXT) p) (h + ND_PREV) p) s1).
Proof.
  intros Hk Hp Hh Hne Hd Hz. unfold push_list. rewrite (bind_ret _ _ _ _ _ Hk).
  pose proof (page_ok_u64 p Hp). pose proof (page_ok_u64 h Hh).
  unfold bind at 1, wr64 at 1. destruct (Z.eqb_spec h 0) as [->|_]; [by apply page_ok_nonzero in Hh|]. cbn [negb].
  unfold bind at 1, wr64 at 1. unfold bind at 1, rd64 at 1. cbn [km_mem set_mem].
  assert (load64 (store64 (store64 (km_mem s1) (p + ND_DATA) data) (p + ND_NEXT) h) (h + ND_PREV) = z)
    as ->.
  { rewrite !node_store by (tauto || done). unfold ND_DATA, ND_NEXT, ND_PREV in *.
    do 2 (rewrite decide_False by lia). exact Hz. }
  unfold bind at 1, wr64 at 1. unfold bind at 1, rd64 at 1. cbn [km_mem set_mem].
  assert (0 ≤ z < 2 ^ 64) by (subst z; apply load64_range).
  assert (load64 (store64 (store64 (store64 (km_mem s1) (p + ND_DATA) data) (p + ND_NEXT) h)
    (p + ND_PREV) z) (h + ND_PREV) = z) as ->.
  { rewrite !node_store by (tauto || done). unfold ND_DATA, ND_NEXT, ND_PREV in *.
    do 3 (rewrite decide_False by lia). exact Hz. }
  done.
Qed.

(** Whoever looks at other pages, or at the boot tables, sees no difference. *)
Definition others_kept (m m' : mem) (l : list Z) : Prop :=
  (∀ q, page_ok q → (q ∉ l) → agree m m' q PGSIZE) ∧ agree m m' p4_table (4 * PGSIZE).

(** No byte outside the pages [l] differs. *)
Definition outside_kept (m m' : mem) (l : list Z) : Prop :=
  ∀ b, (∀ p, p ∈ l → b < p ∨ p + PGSIZE ≤ b) → byte_at m' b = byte_at m b.

Lemma others_kept_trans m1 m2 m3 l : others_kept m1 m2 l → others_kept m2 m3 l → others_kept m1 m3 l.
Proof.
  intros [H1 T1] [H2 T2]. split; [|by eapply agree_trans].
  intros q Hq Hn. eapply agree_trans; [by apply H1|by apply H2].
Qed.

Lemma others_kept_refl m l : others_kept m m l.
Proof. split; [intros q _ _|]; apply agree_refl. Qed.

Lemma others_kept_outside m m' l : Forall page_ok l → outside_kept m m' l → others_kept m m' l.
Proof.
  intros Hl Ho. rewrite Forall_forall in Hl. split.
  - intros q Hq Hn b Hb. apply Ho. intros p Hp.
    pose proof (pages_disjoint q p (proj1 Hq) (proj1 (Hl p Hp)) ltac:(intros ->; done)). lia.
  - intros b Hb. apply Ho. intros p Hp. destruct (Hl p Hp) as [_ ?]. pose proof p4_range. lia.
Qed.

Lemma others_kept_sub m m' l l' : (∀ x, x ∈ l → x ∈ l') → others_kept m m' l → others_kept m m' l'.
Proof. intros Hs [Ho Ht]. split; [|done]. intros q Hq Hn. apply Ho; [done|]. intros Hin. by apply Hn, Hs. Qed.

Lemma others_kept_page m m' p l :
  page_ok p → p ∈ l → only_changes m m' p PGSIZE → others_kept m m' l.
Proof.
  intros Hp Hin Hm. split.
  - intros q Hq Hn. eapply only_changes_agree; [done|].
    apply pages_disjoint; [apply Hq|apply Hp|]. intros ->. done.
  - eapply only_changes_agree; [done|]. pose proof p4_range. destruct Hp as [_ ?]. lia.
Qed.

Lemma others_kept_pages m m' l l' :
  others_kept m m' l → Forall page_ok l' → (∀ q, q ∈ l' → q ∉ l) → pages_kept m m' l'.
Proof.
  intros Ho Hp Hd. apply Forall_forall. intros q Hq. apply Ho; [|by apply Hd].
  by apply (proj1 (Forall_forall _ _) Hp).
Qed.

Lemma others_kept_store m a off v l :
  page_ok a → a ∈ l → 0 ≤ off ≤ 16 → others_kept m (store64 m (a + off) v) l.
Proof. intros Ha Hin Ho. eapply others_kept_page; [done..|]. by apply store_node_changes. Qed.

Lemma fmap_fst_snoc (l : list (Z * Z)) n d : (l ++ [(n, d)]).*1 = l.*1 ++ [n].
Proof. by rewrite fmap_app. Qed.

(** The free list and the pages of a queue with a new node at its end. *)
Lemma pushed_queue_ok s s1 fl p h l data m' :
  queue_ok s (p :: fl) h l → free_list s1 fl → others_kept (km_mem s1) m' (p :: l.*1) →
  queue m' (default p (hd_error l.*1)) (l ++ [(p, data)]) →
  queue_ok (set_mem m' s1) fl (default p (hd_error l.*1)) (l ++ [(p, data)]).
Proof.
  intros (Hf & Hnd & Hpages & _) Hf1 Ho Hqm.
  assert (page_ok p) as Hp by (destruct Hf as (_ & _ & Hpf); by inversion Hpf).
  rewrite NoDup_app in Hnd. destruct Hnd as (Hnd1 & Hdis & [Hpfl Hnd2]%NoDup_cons).
  split; [|split; [|split; [|done]]].
  - eapply free_list_frame; [done|]. eapply others_kept_pages; [done|apply Hf1|].
    intros q Hqf [->|Hql]%elem_of_cons; [done|]. apply (Hdis q Hql). by right.
  - rewrite fmap_fst_snoc, <- app_assoc. simpl. apply NoDup_app. split_and!; [done| |].
    + intros x Hx [->|Hx']%elem_of_cons; [apply (Hdis p Hx); left|]. apply (Hdis x Hx). by right.
    + by apply NoDup_cons.
  - rewrite fmap_fst_snoc. apply Forall_app. split; [done|]. by constructor.
Qed.

(** The ring with the node [p] between its last node and its first. *)
Lemma pushed_queue m m' h d l p data (z := last_of h l.*1) :
  queue m h ((h, d) :: l) → NoDup (h :: l.*1) → (p ∉ h :: l.*1) → (∀ c, c ∈ h :: l.*1 → page_ok c) → page_ok p →
  (∀ c, page_ok c → nx m' c = (if decide (z = c) then p else if decide (p = c) then h else nx m c) ∧
    pv m' c = (if decide (h = c) then p else if decide (p = c) then z else pv m c) ∧
    dat m' c = (if decide (p = c) then data else dat m c)) →
  queue m' h (((h, d) :: l) ++ [(p, data)]).
Proof.
  intros (_ & Hr & Hdat) Hnd1 Hpl Hall Hp Hfields. cbn [fmap list_fmap fst] in Hr.
  assert (z ∈ h :: l.*1) as Hzin by apply last_of_elem.
  assert (p ≠ h ∧ p ≠ z) as [Hph Hpz] by (split; intros ->; apply Hpl; [left|done]).
  split; [done|]. pose proof Hnd1 as [Hhl Hndl]%NoDup_cons. split.
  - rewrite fmap_fst_snoc. cbn [fmap list_fmap fst app].
    apply (ring_insert (nx m) (pv m)); [done|by apply NoDup_cons|..]; fold z.
    + split; [destruct (Hfields z ltac:(by apply Hall)) as [-> _]
        |destruct (Hfields p Hp) as (_ & -> & _)]; by repeat (case_decide; try congruence).
    + split; [destruct (Hfields p Hp) as [-> _]
        |destruct (Hfields h ltac:(apply Hall; left)) as (_ & -> & _)]; by repeat (case_decide; try congruence).
    + intros c Hc Hcz. destruct (Hfields c ltac:(by apply Hall)) as [-> _].
      rewrite !decide_False; [done|by intros ->|done].
    + intros c Hc. destruct (Hfields c ltac:(apply Hall; by right)) as (_ & -> & _).
      rewrite !decide_False; [done|intros ->; apply Hpl; by right|by intros ->].
  - apply Forall_app. split.
    + apply Forall_forall. intros [n e] Hn.
      assert (n ∈ h :: l.*1) as Hn1 by (apply (list_elem_of_fmap_2 fst _ _ Hn)).
      destruct (Hfields n ltac:(by apply Hall)) as (_ & _ & Hdn).
      pose proof (proj1 (Forall_forall _ _) Hdat _ Hn) as E. simpl in *. rewrite Hdn.
      rewrite decide_False; [done|]. intros ->. done.
    + constructor; [|done]. cbn [fst snd]. destruct (Hfields p Hp) as (_ & _ & ->). by rewrite decide_True.
Qed.

(** A node that points to itself. *)
Lemma single_queue m p data : page_ok p → 0 ≤ data < 2 ^ 64 →
  queue (store64 (store64 (store64 m (p + ND_DATA) data) (p + ND_PREV) p) (p + ND_NEXT) p) p [(p, data)].
Proof.
  intros Hp Hdata. pose proof (page_ok_u64 p Hp) as Hp64. split; [done|]. split.
  - apply ring_single. unfold nx, pv. rewrite !node_store by (tauto || done). by repeat (case_decide; try tauto).
  - repeat constructor. unfold dat. cbn [fst snd]. rewrite !node_store by (tauto || done).
    unfold ND_DATA, ND_NEXT, ND_PREV. by repeat (case_decide; try lia).
Qed.

Lemma push_list_result s fl p h l data :
  queue_ok s (p :: fl) h l → 0 ≤ data < 2 ^ 64 →
  ∃ s', push_list h data s = Ret (default p (hd_error l.*1), s') ∧
    queue_ok s' fl (default p (hd_error l.*1)) (l ++ [(p, data)]) ∧
    others_kept (km_mem s) (km_mem s') (p :: l.*1).
Proof.
  intros Hq Hdata. pose proof Hq as (Hf & Hnd & Hpages & Hqueue).
  destruct (kalloc_rep s p fl Hf) as (s1 & Hk & Hf1 & Hch & _).
  assert (page_ok p) as Hp by (destruct Hf as (_ & _ & Hpf); by inversion Hpf).
  rewrite NoDup_app in Hnd. destruct Hnd as (Hnd1 & Hdis & _).
  assert (p ∉ l.*1) as Hpl by (intros Hin; apply (Hdis p Hin); left).
  assert (queue (km_mem s1) h l) as Hq1.
  { eapply queue_frame; [|done]. eapply pages_kept_only_changes; [done|apply Hp|done..]. }
  assert (others_kept (km_mem s) (km_mem s1) (p :: l.*1)) as Ho1 by (eapply others_kept_page; [done|left|done]).
  assert (∀ m', others_kept (km_mem s1) m' (p :: l.*1) → queue m' (default p (hd_error l.*1)) (l ++ [(p, data)]) →
    queue_ok (set_mem m' s1) fl (default p (hd_error l.*1)) (l ++ [(p, data)]) ∧ others_kept (km_mem s) m' (p :: l.*1)) as Hgoal.
  { intros m' Ho Hqm. split; [by eapply pushed_queue_ok|by eapply others_kept_trans]. }
  destruct l as [|[h' d] l].
  - destruct Hq1 as [-> _]. unfold push_list. rewrite (bind_ret _ _ _ _ _ Hk).
    unfold bind, wr64, ret. simpl (negb _). cbv iota. cbn [km_mem set_mem].
    eexists. split; [reflexivity|]. apply Hgoal; [|by apply single_queue].
    eapply others_kept_trans; [|eapply others_kept_trans];
      apply others_kept_store; try left; try done; unfold ND_DATA, ND_NEXT, ND_PREV; lia.
  - pose proof Hq1 as (Hh & Hr & _). simpl in Hh. subst h'. cbn [fmap list_fmap fst] in *. set (z := last_of h l.*1) in *.
    assert (pv (km_mem s1) h = z) as Hz by (by apply (ring_prev (nx (km_mem s1)) (pv (km_mem s1)))).
    assert (z ∈ h :: l.*1) as Hzin by apply last_of_elem.
    assert (∀ c, c ∈ h :: l.*1 → page_ok c) as Hall by (by apply Forall_forall).
    assert (p ≠ h ∧ p ≠ z) as [Hph Hpz] by (split; intros ->; apply Hpl; [left|done]).
    eexists. split; [apply (push_list_eq s s1 p h data z); try done; apply Hall; left|]. cbn [km_mem set_mem]. simpl (default _ _).
    set (m' := store64 _ _ p). apply (Hgoal m').
    + subst m'. repeat (eapply others_kept_trans;
        [|apply others_kept_store; [|(by left) || (right; done) || (right; left)|
            unfold ND_DATA, ND_NEXT, ND_PREV; lia]; by (done || apply Hall; (done || left))]).
      apply others_kept_refl.
    + apply (pushed_queue (km_mem s1)); try done. intros c Hc. apply push_fields; try done; apply Hall; [left|done].
Qed.
End push.

(** ** shift, peek and pop *)

Section shift_pop.
Context {LK : Linker}.

Lemma shift_list_result s fl h d l :
  queue_ok s fl h ((h, d) :: l) →
  nx (km_mem s) h = default h (hd_error l.*1) ∧
  queue_ok s fl (default h (hd_error l.*1)) (l ++ [(h, d)]).
Proof.
  intros (Hf & Hnd & Hp & _ & Hr & Hd). cbn [fmap list_fmap fst] in *.
  split; [by apply ring_next in Hr|]. split; [done|]. split; [|split].
  - rewrite fmap_fst_snoc, <- app_assoc. cbn [app] in Hnd |- *. by rewrite <- Permutation_middle.
  - rewrite fmap_fst_snoc. by rewrite <- Permutation_cons_append.
  - split; [|split].
    + rewrite fmap_fst_snoc. by destruct l.*1.
    + rewrite fmap_fst_snoc. by apply (ring_rotate _ _ [h] l.*1).
    + by rewrite <- Permutation_cons_append.
Qed.

(** [push_thread_list] appends at the end of the ring, behind the current
    head, in a page taken from the allocator; [shift_thread_list] moves the
    head to the next element, so that successive [peek]s go round the list in
    the order of the pushes.  No page outside the list is touched. *)
Theorem thread_list_spec s p fl h l thread :
  queue_ok s (p :: fl) h l → 0 ≤ thread < 2 ^ 64 →
  ∃ h' s', push_thread_list h thread s = Ret (h', s') ∧
    queue_ok s' fl h' (l ++ [(p, thread)]) ∧
    others_kept (km_mem s) (km_mem s') (p :: l.*1) ∧
    match l ++ [(p, thread)] with
    | [] => False
    | (n, d) :: rest =>
        peek_thread_list h' s' = Ret (d, s') ∧
        ∃ h'', shift_thread_list h' s' = Ret (h'', s') ∧ queue_ok s' fl h'' (rest ++ [(n, d)])
    end.
Proof.
  intros Hq Hd. destruct (push_list_result s fl p h l thread Hq Hd) as (s' & E & Hq' & Ho).
  eexists _, s'. split; [exact E|]. split; [done|]. split; [done|].
  set (h' := default p (hd_error l.*1)) in *.
  destruct (l ++ [(p, thread)]) as [|[n d] rest] eqn:El; [by destruct l|].
  assert (h' = n) as -> by (destruct Hq' as (_ & _ & _ & Hh & _); exact Hh).
  pose proof (queue_elem_ok _ _ _ _ n d Hq' ltac:(left)) as [Hn Hdn].
  pose proof (page_ok_nonzero _ Hn) as Hn0. apply Z.eqb_neq in Hn0.
  destruct (shift_list_result _ _ _ _ _ Hq') as [Hnx Hq''].
  unfold peek_thread_list, shift_thread_list. rewrite Hn0. split.
  - unfold rd64. by rewrite <- Hdn.
  - eexists. split; [unfold rd64; fold (nx (km_mem s') n); by rewrite Hnx|done].
Qed.

(** Whatever [pop_list] finds, it drops all of the list. *)
Lemma pop_list_result msg s fl h d l :
  queue_ok s fl h ((h, d) :: l) →
  ∃ s', pop_list msg h s = Ret ((d, 0), s') ∧ free_list s' (h :: fl) ∧
    only_changes (km_mem s) (km_mem s') h PGSIZE ∧ pages_kept (km_mem s) (km_mem s') l.*1.
Proof.
  intros Hq. pose proof Hq as (Hf & Hnd & Hp & _ & Hr & Hd). cbn [fmap list_fmap fst] in *.
  apply Forall_cons in Hp as [Hh Hpl]. apply NoDup_cons in Hnd as [Hhn Hnd].
  rewrite not_elem_of_app in Hhn. destruct Hhn as [Hhl Hhf].
  pose proof (page_ok_nonzero _ Hh) as Hn0. apply Z.eqb_neq in Hn0.
  set (m1 := store64 (km_mem s) (h + ND_NEXT) h).
  assert (only_changes (km_mem s) m1 h PGSIZE) as Hm1
    by (apply store_node_changes; unfold ND_NEXT; lia).
  assert (free_list (set_mem m1 s) fl) as Hf1.
  { eapply free_list_frame; [done|]. eapply pages_kept_only_changes; [done|apply Hh|apply Hf|done]. }
  destruct (kfree_rep (set_mem m1 s) h fl Hf1 Hh Hhf) as (s' & Ek & Hf' & Hm').
  exists s'. assert (only_changes (km_mem s) (km_mem s') h PGSIZE) as Hch
    by (eapply only_changes_trans; [exact Hm1|exact Hm']).
  split; [|split; [done|split; [done|]]].
  - unfold pop_list. rewrite Hn0. unfold bind at 1, rd64 at 1.
    unfold bind at 1, wr64 at 1. cbn [negb]. fold m1. rewrite (bind_ret _ _ _ _ _ Ek).
    inversion Hd as [|? ? Hdh]; subst. simpl in Hdh. unfold dat in Hdh. by rewrite Hdh.
  - eapply pages_kept_only_changes; [exact Hch|apply Hh|done..].
Qed.

(** [pop_thread_list] loses the list: whatever it holds, the element at the
    head is returned and its node freed, but the list variable becomes null and
    the other nodes stay allocated with nobody pointing to them. *)
Theorem pop_thread_list_drops s fl h d l :
  queue_ok s fl h ((h, d) :: l) →
  ∃ s', pop_thread_list h s = Ret ((d, 0), s') ∧ free_list s' (h :: fl) ∧
    pages_kept (km_mem s) (km_mem s') l.*1.
Proof.
  intros Hq. destruct (pop_list_result "Empty thread list while popping" s fl h d l Hq)
    as (s' & E & Hf & _ & Hk). by exists s'.
Qed.
End shift_pop.

(** ** Witnesses *)

(** Two pages are free; the page 0x400000 holds a list of one thread. *)
Definition demo_list : kmem :=
  Kmem (store64 (store64 (store64 (km_mem demo_kmem) (0x400000 + ND_DATA) 0x500000)
          (0x400000 + ND_NEXT) 0x400000) (0x400000 + ND_PREV) 0x400000) 0x300000.

Lemma demo_list_ok :
  queue_ok (LK := demo_linker) demo_list [0x300000; 0x200000] 0x400000 [(0x400000, 0x500000)].
Proof.
  split; [|split; [|split]].
  - split_and!; [vm_compute; done| |].
    + apply (bool_decide_unpack _). vm_compute. exact I.
    + repeat constructor; vm_compute; congruence.
  - apply (bool_decide_unpack _). vm_compute. exact I.
  - repeat constructor; vm_compute; congruence.
  - split; [reflexivity|]. split; [apply ring_single; vm_compute; done|].
    repeat constructor.
Qed.

Lemma thread_list_spec_witness :
  ∃ h' s', push_thread_list 0x400000 0x600000 demo_list = Ret (h', s') ∧
    queue_ok (LK := demo_linker) s' [0x200000] h'
      [(0x400000, 0x500000); (0x300000, 0x600000)].
Proof.
  destruct (thread_list_spec (LK := demo_linker) demo_list 0x300000 [0x200000] 0x400000
    [(0x400000, 0x500000)] 0x600000 demo_list_ok) as (h' & s' & H1 & H2 & _); [lia|].
  exists h', s'. split; [exact H1|exact H2].
Defined.

Lemma pop_thread_list_drops_witness :
  ∃ s', pop_thread_list (LK := demo_linker) 0x400000 demo_list = Ret ((0x500000, 0), s') ∧
    free_list (LK := demo_linker) s' [0x400000; 0x300000; 0x200000].
Proof.
  destruct (pop_thread_list_drops (LK := demo_linker) demo_list [0x300000; 0x200000] 0x400000
    0x500000 [] demo_list_ok) as (s' & H1 & H2 & _).
  exists s'. split; [exact H1|exact H2].
Defined.
