(* ===== verification/Context.v ===== *)
(** * Contexts: [switch_context] and the first context of a thread

    [switch_context] ([kernel/lib/src/swtch.asm]) saves the general registers
    on the stack, as a [struct context], and continues with another context.
    [init_thread] ([kernel/sched/threads.c]) builds the context with which a
    thread starts. *)

From S2P Require Import Prelude Memory Kalloc Ring Threads.

(** The general registers in the order of [struct context]: rax, rbx, rcx, rdx,
    rsi, rdi, rbp, r8 to r15. *)
Definition REGS : nat := 15.
Definition RSI : nat := 4.
Definition RDI : nat := 5.

Record cpu_state := CpuState { regs : list Z; rsp : Z; rip : Z }.

(** [push] of the registers, the last one first. *)
Fixpoint push_regs (l : list Z) (m : mem) (sp : Z) : mem * Z :=
  match l with
  | [] => (m, sp)
  | r :: l =>
      let '(m, sp) := push_regs l m sp in
      (store64 m (sp - 8) r, sp - 8)
  end.

(** [pop] of [n] registers. *)
Fixpoint pop_regs (n : nat) (m : mem) (sp : Z) : list Z * Z :=
  match n with
  | O => ([], sp)
  | S n =>
      let '(l, sp') := pop_regs n m (sp + 8) in
      (load64 m sp :: l, sp')
  end.

(** The call [switch_context(old, new)]: [old] is in rdi and [new] in rsi, and
    the return address at the top of the stack. *)
Definition switch_context (m : mem) (c : cpu_state) : option (mem * cpu_state) :=
  match regs c !! RDI, regs c !! RSI with
  | Some old, Some new =>
      let '(m, sp) := push_regs (regs c) m (rsp c) in
      let m := store64 m old sp in
      let sp := new in
      let '(l, sp) := pop_regs REGS m sp in
      Some (m, CpuState l (sp + 8) (load64 m sp))
  | _, _ => None
  end.

(** ** Saved contexts *)

(** The context [l], [ip] at the address [a]: what the pops and [ret] read. *)
Definition context_at (m : mem) (a : Z) (l : list Z) (ip : Z) : Prop :=
  (λ i, load64 m (a + 8 * Z.of_nat i)) <$> seq 0 REGS = l ∧
  load64 m (a + 8 * Z.of_nat REGS) = ip.

Lemma pop_regs_spec n m a :
  pop_regs n m a = ((λ i, load64 m (a + 8 * Z.of_nat i)) <$> seq 0 n, a + 8 * Z.of_nat n).
Proof.
  revert a. induction n as [|n IH]; intros a; cbn [pop_regs]; [f_equal; lia|].
  rewrite IH. cbn [seq fmap list_fmap]. f_equal; [|lia]. f_equal; [f_equal; lia|].
  rewrite <- fmap_S_seq, <- list_fmap_compose. apply list_fmap_ext. intros ? i _. simpl.
  f_equal. lia.
Qed.

Lemma context_at_agree m m' a l ip :
  agree m m' a CTX_SIZE → context_at m a l ip → context_at m' a l ip.
Proof.
  unfold CTX_SIZE. intros Ha [<- <-]. split.
  - apply list_fmap_ext. intros k i [-> Hi]%lookup_seq. unfold REGS in Hi. symmetry.
    symmetry. apply load64_agree. eapply agree_sub; [exact Ha|lia|lia].
  - apply load64_agree. eapply agree_sub; [exact Ha|unfold REGS; lia|unfold REGS; lia].
Qed.

Lemma push_regs_spec l m sp :
  Forall (λ r, 0 ≤ r < 2 ^ 64) l →
  let a := sp - 8 * Z.of_nat (length l) in
  ∃ m', push_regs l m sp = (m', a) ∧ only_changes m m' a (8 * Z.of_nat (length l)) ∧
    (λ i, load64 m' (a + 8 * Z.of_nat i)) <$> seq 0 (length l) = l.
Proof.
  induction 1 as [|r l Hr Hl IH]; intros a.
  - exists m. subst a. simpl. rewrite Z.sub_0_r. split_and!; [done|apply only_changes_refl|done].
  - destruct IH as (m1 & E & Hm & Hregs). subst a. cbn [push_regs length]. rewrite E.
    set (b := sp - 8 * Z.of_nat (length l)) in *.
    replace (sp - 8 * Z.of_nat (S (length l))) with (b - 8) by (subst b; lia).
    eexists. split; [done|]. split.
    + eapply only_changes_trans; [eapply only_changes_sub; [exact Hm|lia|lia]|].
      eapply only_changes_sub; [apply store64_changes|lia|lia].
    + cbn [seq fmap list_fmap]. rewrite Z.mul_0_r, Z.add_0_r, load64_store64 by done. f_equal.
      rewrite <- Hregs at 2. rewrite <- fmap_S_seq, <- list_fmap_compose.
      apply list_fmap_ext. intros ? i _. simpl. rewrite load64_store64_other by lia. f_equal. lia.
Qed.

(** A frame of [n] bytes at [a] apart from one of [k] bytes at [b]. *)
Definition apart (a n b k : Z) : Prop := a + n ≤ b ∨ b + k ≤ a.

(** The call with the context of the caller saved at [rsp c - 120]; [old] and
    the new context are not in the part of the stack that is written. *)
Definition switch_ok (m : mem) (c : cpu_state) (old new : Z) : Prop :=
  length (regs c) = REGS ∧ Forall (λ r, 0 ≤ r < 2 ^ 64) (regs c) ∧
  regs c !! RDI = Some old ∧ regs c !! RSI = Some new ∧ 120 ≤ rsp c < 2 ^ 64 ∧
  apart old 8 (rsp c - 120) CTX_SIZE ∧ apart new CTX_SIZE (rsp c - 120) 120 ∧
  apart new CTX_SIZE old 8.

Lemma switch_result m c old new l ip :
  switch_ok m c old new → context_at m new l ip →
  ∃ m', switch_context m c = Some (m', CpuState l (new + CTX_SIZE) ip) ∧
    load64 m' old = rsp c - 120 ∧
    context_at m' (rsp c - 120) (regs c) (load64 m (rsp c)) ∧
    (∀ b, (b < rsp c - 120 ∨ rsp c ≤ b) → (b < old ∨ old + 8 ≤ b) → byte_at m' b = byte_at m b).
Proof.
  intros (Hlen & Hr & Hold & Hnew & Hsp & A1 & A2 & A3) [Hl Hip].
  unfold apart, CTX_SIZE in *.
  destruct (push_regs_spec (regs c) m (rsp c) Hr) as (m1 & E & Hm & Hregs).
  rewrite Hlen in *. unfold REGS in *. change (8 * Z.of_nat 15) with 120 in *.
  set (m2 := store64 m1 old (rsp c - 120)). exists m2.
  assert (∀ b, (b < rsp c - 120 ∨ rsp c ≤ b) → (b < old ∨ old + 8 ≤ b) → byte_at m2 b = byte_at m b)
    as Hkeep.
  { intros b Hb1 Hb2. subst m2. rewrite (store64_changes m1 old (rsp c - 120) b) by lia.
    apply Hm. lia. }
  assert (∀ b, (b + 8 ≤ rsp c - 120 ∨ rsp c ≤ b) → (b + 8 ≤ old ∨ old + 8 ≤ b) →
    load64 m2 b = load64 m b) as Hkeep64.
  { intros b Hb1 Hb2. apply load64_agree. intros x Hx. apply Hkeep; lia. }
  split_and!; [|subst m2; apply load64_store64; lia| |done].
  - unfold switch_context. rewrite Hold, Hnew, E. fold m2. unfold REGS. rewrite pop_regs_spec.
    change (8 * Z.of_nat 15) with 120. do 2 f_equal. f_equal; [|lia|].
    + rewrite <- Hl. apply list_fmap_ext. intros k i [-> Hi]%lookup_seq. apply Hkeep64; lia.
    + rewrite <- Hip. apply Hkeep64; lia.
  - split.
    + etrans; [|exact Hregs]. unfold REGS. apply list_fmap_ext. intros k i [-> Hi]%lookup_seq.
      subst m2. rewrite load64_store64_other by lia. done.
    + unfold REGS. change (8 * Z.of_nat 15) with 120.
      replace (rsp c - 120 + 120) with (rsp c) by lia. apply Hkeep64; lia.
Qed.

(** C19. Switching away and back is invisible to the thread: [switch_context]
    stores in [*old] a context that, however the rest of memory changes in the
    meantime, a later switch to it resumes with all the general registers, the
    stack pointer and the return address the caller had. *)
Theorem switch_context_roundtrip m c old new l ip :
  switch_ok m c old new → context_at m new l ip →
  ∃ m1, switch_context m c = Some (m1, CpuState l (new + CTX_SIZE) ip) ∧
    load64 m1 old = rsp c - 120 ∧
    ∀ m2 c2 old2, agree m1 m2 (rsp c - 120) CTX_SIZE → switch_ok m2 c2 old2 (rsp c - 120) →
      ∃ m3, switch_context m2 c2 = Some (m3, CpuState (regs c) (rsp c + 8) (load64 m (rsp c))).
Proof.
  intros Hok Hctx. destruct (switch_result m c old new l ip Hok Hctx) as (m1 & E & Hold & Hsaved & _).
  exists m1. split; [done|]. split; [done|]. intros m2 c2 old2 Ha Hok2.
  destruct (switch_result m2 c2 old2 (rsp c - 120) (regs c) (load64 m (rsp c)) Hok2)
    as (m3 & E3 & _); [by eapply context_at_agree|].
  exists m3. rewrite E3. do 3 f_equal. unfold CTX_SIZE. lia.
Qed.

(** ** The first context of a thread *)

Lemma load64_memset_other m p v n b :
  0 ≤ n → b + 8 ≤ p ∨ p + n ≤ b → load64 (memset m p v n) b = load64 m b.
Proof. intros. apply load64_agree. eapply only_changes_agree; [by apply memset_changes|lia]. Qed.

Lemma load64_memset_zero m p n b :
  p ≤ b → b + 8 ≤ p + n → load64 (memset m p 0 n) b = 0.
Proof. intros. apply (load_zeros _ b 8). intros x Hx. rewrite memset_inside by lia. done. Qed.

Lemma load64_store64_at m a v b : a = b → 0 ≤ v < 2 ^ 64 → load64 (store64 m a v) b = v.
Proof. intros <-. apply load64_store64. Qed.

(** Reads through the stores of a structure: the goal's loads are decided by
    the addresses. *)
Ltac read_field := repeat first
  [ rewrite load64_store64_at by lia
  | rewrite load64_store64_other by lia
  | rewrite load64_memset_zero by lia
  | rewrite load64_memset_other by lia ].

Section create.
Context {LK : Linker}.

(** The registers of a new thread: rdi and rsi hold the arguments. *)
Definition first_regs (argc args : Z) : list Z :=
  <[RDI := argc]> (<[RSI := args]> (replicate REGS 0)).

(** [init_thread] after its two allocations, on the page [t] of the thread, with
    the stacks [st] and [ks]: one step at a time. *)
Definition thread_mem (m : mem) (t st ks f argc args : Z) : mem :=
  let m := memset m st 0 PGSIZE in
  let m := memset m ks 0 PGSIZE in
  let m := store64 m (t + TH_KSTACK) (ks + PGSIZE) in
  let m := store64 m (t + TH_STACK) (st + PGSIZE) in
  let m := store64 m (t + TH_START) f in
  let m := store64 m (t + TH_ARGC) argc in
  let m := store64 m (t + TH_ARGS) args in
  let m := store64 m (st + PGSIZE - 8) f in
  let m := memset m (st + PGSIZE - CTX_SIZE) 0 (CTX_SIZE - 8) in
  let m := store64 m (t + TH_CONTEXT) (st + PGSIZE - CTX_SIZE) in
  let m := store64 m (st + PGSIZE - CTX_SIZE + CTX_RDI) argc in
  store64 m (st + PGSIZE - CTX_SIZE + CTX_RSI) args.

Context (t st ks f argc args : Z).
Context (Ht : page_ok t) (Hst : page_ok st) (Hks : page_ok ks).
Context (Htst : t ≠ st) (Htks : t ≠ ks) (Hstks : st ≠ ks).
Context (Hf : 0 ≤ f < 2 ^ 64) (Hargc : 0 ≤ argc < 2 ^ 31) (Hargs : 0 ≤ args < 2 ^ 64).

Lemma thread_pages :
  apart t 4096 st 4096 ∧ apart t 4096 ks 4096 ∧ apart st 4096 ks 4096 ∧
  0 < t < 2 ^ 60 ∧ 0 < st < 2 ^ 60 ∧ 0 < ks < 2 ^ 60.
Proof using All.
  pose proof (page_ok_pos _ Ht). pose proof (page_ok_pos _ Hst). pose proof (page_ok_pos _ Hks).
  destruct Ht as [Ht1 Ht2], Hst as [Hs1 Hs2], Hks as [Hk1 Hk2].
  pose proof (pages_disjoint t st Ht1 Hs1 Htst). pose proof (pages_disjoint t ks Ht1 Hk1 Htks).
  pose proof (pages_disjoint st ks Hs1 Hk1 Hstks).
  unfold PGSIZE, PHYSTOP, apart in *. lia.
Qed.

Lemma init_thread_mem m fr :
  load64 m (t + TH_STACK) = st → load64 m (t + TH_KSTACK) = ks →
  (let* a := rd64 (t + TH_STACK) in
   do* kmemset a 0 PGSIZE in
   let* kst := rd64 (t + TH_KSTACK) in
   do* kmemset kst 0 PGSIZE in
   let* kst := rd64 (t + TH_KSTACK) in
   do* wr64 (t + TH_KSTACK) (u64 (kst + PGSIZE)) in
   let* a := rd64 (t + TH_STACK) in
   do* wr64 (t + TH_STACK) (u64 (a + PGSIZE)) in
   do* wr64 (t + TH_START) f in
   do* wr64 (t + TH_ARGC) (u64 argc) in
   do* wr64 (t + TH_ARGS) args in
   let* sp := rd64 (t + TH_STACK) in
   let sp := sp - 8 in
   do* wr64 sp f in
   let sp := sp - (CTX_SIZE - 8) in
   do* kmemset sp 0 (CTX_SIZE - 8) in
   do* wr64 (t + TH_CONTEXT) sp in
   let* c := rd64 (t + TH_CONTEXT) in
   do* wr64 (c + CTX_RDI) (u64 argc) in
   let* c := rd64 (t + TH_CONTEXT) in
   wr64 (c + CTX_RSI) args) (Kmem m fr) = Ret ((), Kmem (thread_mem m t st ks f argc args) fr).
Proof using All.
  intros H1 H2. pose proof thread_pages as (A1 & A2 & A3 & B1 & B2 & B3). unfold apart in *.
  unfold thread_mem, TH_STACK, TH_KSTACK, TH_START, TH_ARGC, TH_ARGS, TH_CONTEXT, CTX_RDI, CTX_RSI,
    CTX_SIZE, PGSIZE in *.
  rewrite (u64_small argc) by lia.
  unfold bind, rd64, wr64, kmemset, set_mem. cbn [km_mem km_freelist].
  rewrite H1. rewrite load64_memset_other by lia. rewrite H2.
  read_field. rewrite H2. rewrite (u64_small (ks + 4096)) by lia.
  read_field. rewrite H1. rewrite (u64_small (st + 4096)) by lia.
  read_field.
  replace (st + 4096 - 8 - (128 - 8)) with (st + 4096 - 128) by lia. read_field. done.
Qed.

(** What the memory then holds. *)
Lemma thread_mem_spec m (m' := thread_mem m t st ks f argc args) :
  load64 m' (t + TH_CONTEXT) = st + PGSIZE - CTX_SIZE ∧ load64 m' (t + TH_STACK) = st + PGSIZE ∧
  load64 m' (t + TH_KSTACK) = ks + PGSIZE ∧ load64 m' (t + TH_START) = f ∧
  context_at m' (st + PGSIZE - CTX_SIZE) (first_regs argc args) f ∧
  (∀ b, (b < t ∨ t + PGSIZE ≤ b) → (b < st ∨ st + PGSIZE ≤ b) → (b < ks ∨ ks + PGSIZE ≤ b) →
     byte_at m' b = byte_at m b).
Proof using All.
  pose proof thread_pages as (A1 & A2 & A3 & B1 & B2 & B3). unfold apart in *. subst m'.
  unfold thread_mem, TH_STACK, TH_KSTACK, TH_START, TH_ARGC, TH_ARGS, TH_CONTEXT, CTX_RDI, CTX_RSI,
    CTX_SIZE, PGSIZE in *.
  split_and!; [read_field; done..| |].
  - split; [|unfold REGS; change (8 * Z.of_nat 15) with 120; read_field; done].
    unfold REGS, first_regs, RDI, RSI. cbn [seq fmap list_fmap replicate].
    repeat (f_equal; [read_field; done|]). read_field. done.
  - intros b Hb1 Hb2 Hb3.
    do 2 (rewrite (store64_changes _ _ _ b) by lia).
    rewrite (store64_changes _ _ _ b) by lia. rewrite (memset_changes _ _ 0 (128 - 8) ltac:(lia) b) by lia.
    do 6 (rewrite (store64_changes _ _ _ b) by lia).
    do 2 (rewrite (memset_changes _ _ 0 4096 ltac:(lia) b) by lia). done.
Qed.
Lemma thread_mem_kept m : others_kept m (thread_mem m t st ks f argc args) [t; st; ks].
Proof using All.
  destruct (thread_mem_spec m) as (_ & _ & _ & _ & _ & T6). apply others_kept_outside.
  - do 3 (apply Forall_cons_2; [done|]). apply Forall_nil_2.
  - intros b Hb. apply T6; apply Hb; [left|right; left|right; right; left].
Qed.

(** [init_thread] on the page [t], which is not free. *)
Lemma init_thread_result s fl :
  free_list s (st :: ks :: fl) → (t ∉ fl) →
  ∃ m3 fr, init_thread t f argc args s = Ret ((), Kmem (thread_mem m3 t st ks f argc args) fr) ∧
    free_list (Kmem m3 fr) fl ∧ others_kept (km_mem s) m3 [t; st; ks].
Proof using All.
  intros Hf1 Htfl. destruct (kalloc_rep s st _ Hf1) as (s2 & E2 & Hf2 & Hc2 & _).
  set (m2 := store64 (km_mem s2) (t + TH_STACK) st).
  assert (only_changes (km_mem s2) m2 t PGSIZE) as Hc2'
    by (apply store_node_changes; unfold TH_STACK; lia).
  assert (free_list (set_mem m2 s2) (ks :: fl)) as Hf2'.
  { eapply free_list_frame; [done|]. eapply pages_kept_only_changes; [done|apply Ht|apply Hf2|].
    rewrite not_elem_of_cons. done. }
  destruct (kalloc_rep _ ks _ Hf2') as (s3 & E3 & Hf3 & Hc3 & _).
  set (m3 := store64 (km_mem s3) (t + TH_KSTACK) ks).
  assert (only_changes (km_mem s3) m3 t PGSIZE) as Hc3'.
  { eapply only_changes_sub; [apply store64_changes|unfold TH_KSTACK; lia|unfold TH_KSTACK, PGSIZE; lia]. }
  pose proof thread_pages as (A1 & A2 & A3 & B1 & B2 & B3). unfold apart in *.
  exists m3, (km_freelist s3). split_and!.
  - unfold init_thread. rewrite (bind_ret _ _ _ _ _ E2).
    rewrite (bind_ret _ _ _ _ _ (eq_refl : wr64 (t + TH_STACK) st s2 = Ret ((), set_mem m2 s2))).
    rewrite (bind_ret _ _ _ _ _ E3).
    rewrite (bind_ret _ _ _ _ _ (eq_refl : wr64 (t + TH_KSTACK) ks s3 = Ret ((), set_mem m3 s3))).
    apply init_thread_mem; [|apply load64_store64; lia].
    unfold m3, TH_STACK, TH_KSTACK. rewrite load64_store64_other by lia.
    rewrite (load64_agree (km_mem (set_mem m2 s2)));
      [|eapply only_changes_agree; [exact Hc3|unfold PGSIZE; lia]].
    cbn [km_mem set_mem]. unfold m2, TH_STACK. apply load64_store64. lia.
  - change (Kmem m3 (km_freelist s3)) with (set_mem m3 s3). eapply free_list_frame; [done|].
    eapply pages_kept_only_changes; [done|apply Ht|apply Hf3|done].
  - eapply others_kept_trans; [eapply others_kept_page; [exact Hst|right; left|exact Hc2]|].
    eapply others_kept_trans; [eapply others_kept_page; [exact Ht|left|exact Hc2']|].
    eapply others_kept_trans; [eapply others_kept_page; [exact Hks|right; right; left|exact Hc3]|].
    eapply others_kept_page; [exact Ht|left|exact Hc3'].
Qed.
End create.

(** The memory after [create_thread], which has used three pages. *)
Lemma create_thread_result {LK : Linker} s t st ks fl f argc args :
  free_list s (t :: st :: ks :: fl) →
  0 ≤ f < 2 ^ 64 → 0 ≤ argc < 2 ^ 31 → 0 ≤ args < 2 ^ 64 →
  ∃ m fr (m' := thread_mem m t st ks f argc args),
    create_thread f argc args s = Ret (t, Kmem m' fr) ∧ free_list (Kmem m' fr) fl ∧
    others_kept (km_mem s) m' [t; st; ks].
Proof.
  intros Hfree Hf Hargc Hargs. pose proof Hfree as (_ & Hnd & Hpages).
  apply Forall_cons in Hpages as [Ht Hpages]. apply Forall_cons in Hpages as [Hst Hpages].
  apply Forall_cons in Hpages as [Hks Hpages].
  apply NoDup_cons in Hnd as [Hn1 Hnd]. apply NoDup_cons in Hnd as [Hn2 Hnd].
  apply NoDup_cons in Hnd as [Hn3 Hnd]. rewrite !not_elem_of_cons in Hn1.
  rewrite not_elem_of_cons in Hn2.
  destruct Hn1 as (Htst & Htks & Htfl), Hn2 as (Hstks & Hstfl).
  destruct (kalloc_rep s t _ Hfree) as (s1 & E1 & Hf1 & Hc1 & _).
  destruct (init_thread_result t st ks f argc args Ht Hst Hks Htst Htks Hstks Hf Hargc Hargs s1 fl Hf1 Htfl)
    as (m3 & fr & E2 & Hf3 & Ho3).
  pose proof (thread_mem_kept t st ks f argc args Ht Hst Hks Htst Htks Hstks Hf Hargc Hargs m3) as Ho4.
  exists m3, fr. split_and!.
  - unfold create_thread. by rewrite (bind_ret _ _ _ _ _ E1), (bind_ret _ _ _ _ _ E2).
  - eapply (free_list_frame (Kmem m3 fr)); [done|]. eapply others_kept_pages; [exact Ho4|exact Hpages|].
    intros q Hq. rewrite !not_elem_of_cons.
    split_and!; [..|apply not_elem_of_nil]; intros Hx; rewrite Hx in Hq; contradiction.
  - eapply others_kept_trans; [eapply others_kept_page; [exact Ht|left|exact Hc1]|].
    by eapply others_kept_trans.
Qed.

(** [create_thread] takes three pages, the thread, its stack and its kernel
    stack, and writes to no other; the first switch to the context it prepares
    starts the thread's function on the top of its stack, with [argc] in rdi,
    [args] in rsi and every other general register zero. *)
Theorem create_thread_spec {LK : Linker} s t st ks fl f argc args :
  free_list s (t :: st :: ks :: fl) →
  0 ≤ f < 2 ^ 64 → 0 ≤ argc < 2 ^ 31 → 0 ≤ args < 2 ^ 64 →
  ∃ s', create_thread f argc args s = Ret (t, s') ∧ free_list s' fl ∧
    load64 (km_mem s') (t + TH_CONTEXT) = st + PGSIZE - CTX_SIZE ∧
    load64 (km_mem s') (t + TH_STACK) = st + PGSIZE ∧
    load64 (km_mem s') (t + TH_KSTACK) = ks + PGSIZE ∧
    others_kept (km_mem s) (km_mem s') [t; st; ks] ∧
    ∀ m2 c old, agree (km_mem s') m2 (st + PGSIZE - CTX_SIZE) CTX_SIZE →
      switch_ok m2 c old (st + PGSIZE - CTX_SIZE) →
      ∃ m3, switch_context m2 c = Some (m3, CpuState (first_regs argc args) (st + PGSIZE) f).
Proof.
  intros Hfree Hf Hargc Hargs.
  destruct (create_thread_result s t st ks fl f argc args Hfree Hf Hargc Hargs)
    as (m & fr & E & Hf' & Ho).
  destruct Hfree as (_ & Hnd & Hpages). rewrite !Forall_cons in Hpages.
  rewrite !NoDup_cons, !not_elem_of_cons in Hnd.
  destruct (thread_mem_spec t st ks f argc args) with (m := m) as (T1 & T2 & T3 & _ & T5 & _); [tauto..|].
  exists (Kmem (thread_mem m t st ks f argc args) fr). split_and!; [done..|].
  intros m5 c old Ha Hok.
  destruct (switch_result m5 c old (st + PGSIZE - CTX_SIZE) (first_regs argc args) f Hok)
    as (m6 & E6 & _); [by eapply context_at_agree|].
  exists m6. rewrite E6. do 3 f_equal. lia.
Qed.

(** ** Witnesses *)

(** The caller's registers; its stack is at 0x700000, the new context at
    0x600000, and [*old] is at 0x600800. *)
Definition demo_cpu : cpu_state :=
  CpuState [1; 2; 3; 4; 0x600000; 0x600800; 7; 8; 9; 10; 11; 12; 13; 14; 15] 0x700000 0x100000.

Lemma demo_switch_ok : switch_ok ∅ demo_cpu 0x600800 0x600000.
Proof.
  unfold switch_ok, apart, CTX_SIZE, demo_cpu. cbn [regs rsp].
  split_and!; try reflexivity; try lia. repeat constructor; lia.
Qed.

Lemma switch_context_roundtrip_witness :
  ∃ m1, switch_context ∅ demo_cpu =
      Some (m1, CpuState (replicate 15 0) (0x600000 + CTX_SIZE) 0) ∧
    load64 m1 0x600800 = 0x700000 - 120.
Proof.
  destruct (switch_context_roundtrip ∅ demo_cpu 0x600800 0x600000 (replicate 15 0) 0 demo_switch_ok)
    as (m1 & H1 & H2 & _).
  - split; reflexivity.
  - exists m1. split; [exact H1|exact H2].
Defined.

(** Three pages free. *)
Definition demo_pages : kmem :=
  Kmem (store64 (store64 ∅ 0x300000 0x200000) 0x200000 0x400000) 0x300000.

Lemma demo_pages_free : free_list (LK := demo_linker) demo_pages [0x300000; 0x200000; 0x400000].
Proof.
  split_and!; [vm_compute; done| |].
  - apply (bool_decide_unpack _). vm_compute. exact I.
  - repeat constructor; vm_compute; congruence.
Qed.

Lemma create_thread_spec_witness :
  ∃ s', create_thread 0x123456 2 0x900000 demo_pages = Ret (0x300000, s') ∧
    free_list (LK := demo_linker) s' [] ∧
    load64 (km_mem s') (0x300000 + TH_CONTEXT) = 0x200000 + PGSIZE - CTX_SIZE.
Proof.
  destruct (create_thread_spec (LK := demo_linker) demo_pages 0x300000 0x200000 0x400000 []
    0x123456 2 0x900000 demo_pages_free) as (s' & H1 & H2 & H3 & _); [lia|lia|lia|].
  exists s'. split; [exact H1|]. split; [exact H2|exact H3].
Defined.
