(* ===== verification/SmpSched.v ===== *)
(** * The SMP scheduler ([kernel/sched/smp_sched.c])

    Every CPU has a run queue, a ring of nodes in allocator pages (see
    [Threads.v]), whose head and length are in its per-CPU structure.  An
    operation that ends in [switch_context] returns the contexts it switches
    between; what the switch does is in [Context.v]. *)

From S2P Require Import Prelude Memory Kalloc Ring Threads Context Percpu Spinlock.

Definition LOAD_BALANCE_THRESHOLD : Z := 2.

Record sched := Sched {
  sched_lock : spinlock;
  sched_initialized : bool;
  sc_sys : system
}.

(** Code on the processors and the memory, as part of the scheduler's state. *)
Definition on_sys {A} (c : M system A) : M sched A := λ s,
  match c (sc_sys s) with
  | Ret (a, sys) => Ret (a, Sched (sched_lock s) (sched_initialized s) sys)
  | Panic msg => Panic msg
  | Undef => Undef
  | OutOfFuel => OutOfFuel
  end.
Definition with_sched_lock (c : spinlock → M system spinlock) : M sched () := λ s,
  match c (sched_lock s) (sc_sys s) with
  | Ret (lk, sys) => Ret ((), Sched lk (sched_initialized s) sys)
  | Panic msg => Panic msg
  | Undef => Undef
  | OutOfFuel => OutOfFuel
  end.

(** A switch of contexts: [switch_context(old, new)], with the address of the
    variable behind [old]. *)
Inductive action := Return | Switch (old : cpu_ref + Z) (new : Z).

(** A ring has fewer nodes than there are pages. *)
Definition ring_fuel : nat := count_fuel.

Section sched.
Context {LK : Linker}.

(** ** Run queues *)

Definition runqueue_add_unlocked (cpu : cpu_ref) (thread : Z) : M system () :=
  let* c := deref cpu in
  let* q := on_kmem (push_thread_list (run_queue c) thread) in
  do* update cpu (λ c, set_queue q (num_threads c) c) in
  update cpu (λ c, set_queue (run_queue c) (u32 (num_threads c + 1)) c).

(** Unlinking the node [current] from the queue of [cpu]... *)
Definition unlink_links (cpu : cpu_ref) (current : Z) : M system () :=
  let* next := on_kmem (rd64 (current + ND_NEXT)) in
  if next =? current then update cpu (λ c, set_queue 0 (num_threads c) c)
  else
    let* p := on_kmem (rd64 (current + ND_PREV)) in
    let* n := on_kmem (rd64 (current + ND_NEXT)) in
    do* on_kmem (wr64 (p + ND_NEXT) n) in
    let* n := on_kmem (rd64 (current + ND_NEXT)) in
    let* p := on_kmem (rd64 (current + ND_PREV)) in
    do* on_kmem (wr64 (n + ND_PREV) p) in
    let* c := deref cpu in
    if run_queue c =? current then
      let* n := on_kmem (rd64 (current + ND_NEXT)) in
      update cpu (λ c, set_queue n (num_threads c) c)
    else ret ().

(** ... and freeing it. *)
Definition runqueue_unlink (cpu : cpu_ref) (current : Z) : M system () :=
  do* unlink_links cpu current in
  do* on_kmem (kfree current) in
  update cpu (λ c, set_queue (run_queue c) (u32 (num_threads c - 1)) c).

(** [do { ... } while (current != start);] of [runqueue_remove_unlocked] *)
Fixpoint remove_loop (fuel : nat) (cpu : cpu_ref) (thread start current : Z) : M system bool :=
  match fuel with
  | O => out_of_fuel
  | S fuel =>
      let* d := on_kmem (rd64 (current + ND_DATA)) in
      if d =? thread then
        do* runqueue_unlink cpu current in
        ret true
      else
        let* next := on_kmem (rd64 (current + ND_NEXT)) in
        if next =? start then ret false else remove_loop fuel cpu thread start next
  end.

Definition runqueue_remove_unlocked (cpu : cpu_ref) (thread : Z) : M system bool :=
  let* c := deref cpu in
  if run_queue c =? 0 then ret false
  else remove_loop ring_fuel cpu thread (run_queue c) (run_queue c).

(** [t->state == RUNNABLE] *)
Definition thread_runnable (m : mem) (t : Z) : bool :=
  load32 m (t + TH_STATE) =? state_code RUNNABLE.

Fixpoint get_next_loop (fuel : nat) (cpu : cpu_ref) (start current : Z) : M system Z :=
  match fuel with
  | O => out_of_fuel
  | S fuel =>
      let* t := on_kmem (rd64 (current + ND_DATA)) in
      let* next := on_kmem (rd64 (current + ND_NEXT)) in
      let* s := get in
      if thread_runnable (km_mem (sy_kmem s)) t then
        do* update cpu (λ c, set_queue next (num_threads c) c) in
        ret t
      else if next =? start then ret 0
      else get_next_loop fuel cpu start next
  end.

Definition runqueue_get_next (cpu : cpu_ref) : M system Z :=
  let* c := deref cpu in
  if run_queue c =? 0 then ret 0
  else get_next_loop ring_fuel cpu (run_queue c) (run_queue c).

(** ** Initialisation *)

Definition sched_init : M sched () := λ s,
  Ret ((), Sched (init_spinlock (sched_lock s) "sched") true (sc_sys s)).

(** [idle_thread_func] is the address of the idle function. *)
Definition create_idle_thread (idle_thread_func : Z) : M kmem Z :=
  let* idle := create_thread idle_thread_func 0 0 in
  do* (if idle =? 0 then ret () else change_thread_state idle RUNNABLE) in
  ret idle.

Definition sched_init_cpu (idle_thread_func : Z) : M system () :=
  let* cpu := mycpu in
  do* update cpu (λ c, set_sched (idle_thread c) (scheduler_ctx c) false (set_queue 0 0 c)) in
  let* sched_stack := on_kmem kalloc in
  if sched_stack =? 0 then panic "sched_init_cpu: failed to allocate scheduler stack"
  else
    do* on_kmem (kmemset sched_stack 0 PGSIZE) in
    let sched_stack := sched_stack + PGSIZE - CTX_SIZE in
    do* update cpu (λ c, set_sched (idle_thread c) sched_stack (scheduler_ready c) c) in
    do* on_kmem (kmemset sched_stack 0 CTX_SIZE) in
    let* idle := on_kmem (create_idle_thread idle_thread_func) in
    do* update cpu (λ c, set_sched idle (scheduler_ctx c) (scheduler_ready c) c) in
    if idle =? 0 then panic "sched_init_cpu: failed to create idle thread"
    else update cpu (set_current 0).

(** ** Load *)

(** The loop of [sched_find_least_loaded] over the [n] CPUs from [i] on. *)
Fixpoint least_loaded_loop (l : list percpu) (i n : nat) (min_load min_cpu : Z) : Z :=
  match n with
  | O => min_cpu
  | S n =>
      match l !! i with
      | Some c =>
          if started c && (num_threads c <? min_load)
          then least_loaded_loop l (S i) n (num_threads c) (Z.of_nat i)
          else least_loaded_loop l (S i) n min_load min_cpu
      | None => min_cpu
      end
  end.
Definition sched_find_least_loaded (s : system) : Z :=
  least_loaded_loop (percpus s) 0 (Z.to_nat (ncpu s)) UINT32_MAX 0.

(** The loop of [sched_balance]: the most and the least loaded CPU. *)
Record loads := Loads { max_load : Z; max_cpu : Z; min_load : Z; min_cpu : Z }.
Fixpoint balance_loop (l : list percpu) (i n : nat) (a : loads) : loads :=
  match n with
  | O => a
  | S n =>
      match l !! i with
      | Some c =>
          if started c then
            let load := num_threads c in
            let a := if max_load a <? load
                     then Loads load (Z.of_nat i) (min_load a) (min_cpu a) else a in
            let a := if load <? min_load a
                     then Loads (max_load a) (max_cpu a) load (Z.of_nat i) else a in
            balance_loop l (S i) n a
          else balance_loop l (S i) n a
      | None => a
      end
  end.

(** The search for a thread to migrate in the queue of [src]. *)
Fixpoint migrate_loop (fuel : nat) (src dst : cpu_ref) (start current : Z) : M system () :=
  match fuel with
  | O => out_of_fuel
  | S fuel =>
      let* t := on_kmem (rd64 (current + ND_DATA)) in
      let* c := deref src in
      let* s := get in
      if negb (t =? current_thread c) && negb (t =? idle_thread c) &&
         thread_runnable (km_mem (sy_kmem s)) t then
        let* _ := runqueue_remove_unlocked src t in
        runqueue_add_unlocked dst t
      else
        let* next := on_kmem (rd64 (current + ND_NEXT)) in
        if next =? start then ret () else migrate_loop fuel src dst start next
  end.

Definition sched_balance : M sched () :=
  let* s := get in
  let sys := sc_sys s in
  let a := balance_loop (percpus sys) 0 (Z.to_nat (ncpu sys)) (Loads 0 0 UINT32_MAX 0) in
  if u32 (max_load a - min_load a) <? LOAD_BALANCE_THRESHOLD then ret ()
  else
    do* with_sched_lock (acquire_spinlock 1) in
    let src := Cpu (Z.to_nat (max_cpu a)) in
    let dst := Cpu (Z.to_nat (min_cpu a)) in
    let* c := on_sys (deref src) in
    do* (if negb (run_queue c =? 0) && (1 <? num_threads c)
         then on_sys (migrate_loop ring_fuel src dst (run_queue c) (run_queue c))
         else ret ()) in
    with_sched_lock release_spinlock.

(** ** Threads *)

Definition sched_add_thread (thread cpu_index : Z) : M sched () :=
  if thread =? 0 then panic "sched_add_thread: null thread"
  else
    do* with_sched_lock (acquire_spinlock 1) in
    let* s := get in
    if cpu_index <? 0 then
      let target := Cpu (Z.to_nat (sched_find_least_loaded (sc_sys s))) in
      do* on_sys (on_kmem (change_thread_state thread RUNNABLE)) in
      do* on_sys (runqueue_add_unlocked target thread) in
      with_sched_lock release_spinlock
    else if ncpu (sc_sys s) <=? cpu_index then
      do* with_sched_lock release_spinlock in
      panic "sched_add_thread: invalid cpu_index"
    else
      let target := Cpu (Z.to_nat cpu_index) in
      do* on_sys (on_kmem (change_thread_state thread RUNNABLE)) in
      do* on_sys (runqueue_add_unlocked target thread) in
      with_sched_lock release_spinlock.

(** [for (uint32_t i = 0; i < ncpu; i++)] until the thread was removed. *)
Fixpoint remove_from_cpus (i n : nat) (thread : Z) : M system () :=
  match n with
  | O => ret ()
  | S n =>
      let* removed := runqueue_remove_unlocked (Cpu i) thread in
      if removed then ret () else remove_from_cpus (S i) n thread
  end.

Definition sched_remove_thread (thread : Z) : M sched () :=
  if thread =? 0 then ret ()
  else
    do* with_sched_lock (acquire_spinlock 1) in
    let* s := get in
    do* on_sys (remove_from_cpus 0 (Z.to_nat (ncpu (sc_sys s))) thread) in
    with_sched_lock release_spinlock.

Definition sched_get_next : M system Z :=
  let* cpu := mycpu in
  let* next := runqueue_get_next cpu in
  if negb (next =? 0) then ret next
  else
    let* c := deref cpu in
    ret (idle_thread c).

(** ** Switching *)

Definition idle_yield : M system action :=
  let* cpu := mycpu in
  let* c := deref cpu in
  ret (Switch (inr (idle_thread c + TH_CONTEXT)) (scheduler_ctx c)).

Definition sched_yield : M system action :=
  let* cpu := mycpu in
  let* c := deref cpu in
  let current := current_thread c in
  if (current =? 0) || (current =? idle_thread c) then ret Return
  else
    do* on_kmem (change_thread_state current RUNNABLE) in
    ret (Switch (inr (current + TH_CONTEXT)) (scheduler_ctx c)).

Definition sched_exit : M system action :=
  let* cpu := mycpu in
  let* c := deref cpu in
  let current := current_thread c in
  if (current =? 0) || (current =? idle_thread c) then ret Return
  else
    do* on_kmem (change_thread_state current EXIT) in
    let* _ := runqueue_remove_unlocked cpu current in
    do* update cpu (set_current 0) in
    let* c := deref cpu in
    ret (Switch (inr (current + TH_CONTEXT)) (scheduler_ctx c)).

(** What [sched_run] does before its loop, and one round of the loop. *)
Definition sched_run_enter : M system () :=
  let* cpu := mycpu in
  update cpu (λ c, set_sched (idle_thread c) (scheduler_ctx c) true c).
Definition sched_run_round : M system action :=
  let* cpu := mycpu in
  do* sti in
  let* next := sched_get_next in
  if negb (next =? 0) then
    do* update cpu (set_current next) in
    do* on_kmem (change_thread_state next ON_CPU) in
    let* ctx := on_kmem (rd64 (next + TH_CONTEXT)) in
    ret (Switch (inl cpu) ctx)
  else ret Return.

Definition sched_tick : M system () :=
  let* cpu := mycpu in
  let* c := deref cpu in
  if negb (scheduler_ready c) then ret () else ret ().
End sched.

(** * Unlinking a node *)

Section unlink.
Context {LK : Linker}.

(** The two stores that take the node [n] out of its ring. *)
Definition unlinked (m : mem) (n : Z) : mem :=
  store64 (store64 m (pv m n + ND_NEXT) (nx m n)) (nx m n + ND_PREV) (pv m n).

Lemma unlinked_fields m n c :
  page_ok (pv m n) → page_ok (nx m n) → page_ok c →
  nx (unlinked m n) c = (if decide (pv m n = c) then nx m n else nx m c) ∧
  pv (unlinked m n) c = (if decide (nx m n = c) then pv m n else pv m c) ∧
  dat (unlinked m n) c = dat m c.
Proof.
  intros Hp Hq Hc. pose proof (page_ok_u64 _ Hp). pose proof (page_ok_u64 _ Hq).
  unfold unlinked. set (p := pv m n) in *. set (q := nx m n) in *. unfold nx, pv, dat.
  rewrite !node_store by (tauto || done). unfold ND_DATA, ND_NEXT, ND_PREV.
  split_and!; repeat case_decide; try done; lia.
Qed.

(** The neighbours of [n] in a ring with other nodes, and the ring without it. *)
Lemma unlinked_ring m l1 n l2 :
  ring (nx m) (pv m) (l1 ++ n :: l2) → NoDup (l1 ++ n :: l2) → Forall page_ok (l1 ++ n :: l2) →
  l1 ++ l2 ≠ [] →
  pv m n ∈ l1 ++ l2 ∧ nx m n ∈ l1 ++ l2 ∧ nx m n = default 0 (hd_error (l2 ++ l1)) ∧
  ring (nx (unlinked m n)) (pv (unlinked m n)) (l1 ++ l2).
Proof.
  intros Hr Hnd Hp Hne. apply ring_rotate in Hr. simpl in Hr.
  rewrite (Permutation_app_comm l1) in Hnd. rewrite (Permutation_app_comm l1) in Hp.
  simpl in Hnd, Hp. destruct (l2 ++ l1) as [|y l] eqn:El.
  { apply app_eq_nil in El as [-> ->]. done. }
  assert (∀ c, c ∈ l1 ++ l2 ↔ c ∈ y :: l) as Hin.
  { intros c. rewrite <- El, !elem_of_app. tauto. }
  assert (ring (nx m) (pv m) (n :: y :: l)) as Hr' by done.
  pose proof (ring_prev _ _ _ _ Hr') as Hpv. rewrite last_of_cons in Hpv.
  pose proof (ring_next _ _ _ _ Hr') as Hnx. simpl in Hnx.
  assert (pv m n ∈ y :: l) as Hpin by (rewrite Hpv; apply last_of_elem).
  assert (nx m n ∈ y :: l) as Hqin by (rewrite Hnx; left).
  rewrite !Hin. split_and!; [done|done|done|]. apply ring_rotate. rewrite El.
  apply Forall_cons in Hp as [_ Hpl].
  assert (∀ c, c ∈ y :: l → page_ok c) as Hall by (by apply Forall_forall).
  assert (∀ c, c ∈ y :: l →
    nx (unlinked m n) c = (if decide (pv m n = c) then nx m n else nx m c) ∧
    pv (unlinked m n) c = (if decide (nx m n = c) then pv m n else pv m c)) as Hf.
  { intros c Hc. destruct (unlinked_fields m n c) as (? & ? & _); try by apply Hall. done. }
  apply NoDup_cons in Hnd as [Hn Hnd]. pose proof Hnd as [Hy _]%NoDup_cons.
  apply (ring_unlink (nx m) (pv m) _ _ n y l Hr'); [by apply NoDup_cons|..].
  - rewrite <- Hpv. split; [destruct (Hf (pv m n) Hpin) as [-> _]|destruct (Hf y ltac:(left)) as [_ ->]];
      by rewrite decide_True.
  - intros c Hc Hcz. destruct (Hf c Hc) as [-> _]. rewrite decide_False; [done|congruence].
  - intros c Hc. destruct (Hf c ltac:(by right)) as [_ ->]. rewrite decide_False; [done|].
    rewrite Hnx. by intros ->.
Qed.
End unlink.

(** ** Running code on the memory *)

Lemma on_kmem_ret {A} (c : M kmem A) s a k :
  c (sy_kmem s) = Ret (a, k) → on_kmem c s = Ret (a, set_kmem k s).
Proof. intros H. unfold on_kmem. by rewrite H. Qed.

Lemma on_kmem_rd64 a s : on_kmem (rd64 a) s = Ret (load64 (km_mem (sy_kmem s)) a, s).
Proof. by destruct s. Qed.

Lemma bind_rd64 {A} a (k : Z → M system A) s :
  bind (on_kmem (rd64 a)) k s = k (load64 (km_mem (sy_kmem s)) a) s.
Proof. by rewrite (bind_ret _ _ _ _ _ (on_kmem_rd64 a s)). Qed.

Lemma bind_wr64 {A} a v (k : () → M system A) s :
  bind (on_kmem (wr64 a v)) k s =
  k () (set_kmem (set_mem (store64 (km_mem (sy_kmem s)) a v) (sy_kmem s)) s).
Proof. done. Qed.

Lemma bind_deref {A} i c (k : percpu → M system A) s :
  percpus s !! i = Some c → bind (deref (Cpu i)) k s = k c s.
Proof. intros H. unfold bind, deref. by rewrite H. Qed.

Lemma update_cpu i f s c :
  percpus s !! i = Some c → update (Cpu i) f s = Ret ((), put_cpu (Cpu i) (f c) s).
Proof. intros H. apply update_put. unfold deref. by rewrite H. Qed.

Lemma put_cpu_lookup i c c' s :
  percpus s !! i = Some c → percpus (put_cpu (Cpu i) c' s) !! i = Some c'.
Proof. intros H. simpl. apply list_lookup_insert_eq. by eapply lookup_lt_Some. Qed.

Section unlink_node.
Context {LK : Linker}.

Lemma unlink_mem_code {A} s n (k : M system A) (m := km_mem (sy_kmem s)) :
  page_ok (pv m n) → page_ok (nx m n) → page_ok n → pv m n ≠ n →
  (let* p := on_kmem (rd64 (n + ND_PREV)) in
   let* q := on_kmem (rd64 (n + ND_NEXT)) in
   do* on_kmem (wr64 (p + ND_NEXT) q) in
   let* q := on_kmem (rd64 (n + ND_NEXT)) in
   let* p := on_kmem (rd64 (n + ND_PREV)) in
   do* on_kmem (wr64 (q + ND_PREV) p) in k) s =
  k (set_kmem (set_mem (unlinked m n) (sy_kmem s)) s).
Proof.
  intros Hp Hq Hn Hpn. rewrite !bind_rd64, bind_wr64, !bind_rd64, bind_wr64.
  cbn [km_mem set_mem sy_kmem set_kmem]. fold m. fold (pv m n) (nx m n).
  pose proof (page_ok_u64 _ Hq).
  rewrite !node_store by (tauto || done).
  rewrite !decide_False by (unfold ND_NEXT, ND_PREV; lia). done.
Qed.

(** The memory after a node was unlinked but not yet freed. *)
Lemma unlinked_queue k fl h l1 n d l2 :
  queue_ok k fl h (l1 ++ (n, d) :: l2) → l1 ++ l2 ≠ [] →
  pv (km_mem k) n ∈ (l1 ++ l2).*1 ∧ nx (km_mem k) n ∈ (l1 ++ l2).*1 ∧
  nx (km_mem k) n = default 0 (hd_error (l2 ++ l1).*1) ∧
  others_kept (km_mem k) (unlinked (km_mem k) n) (l1 ++ l2).*1 ∧
  queue (unlinked (km_mem k) n) (default 0 (hd_error (l1 ++ l2).*1)) (l1 ++ l2).
Proof.
  intros (_ & Hnd & Hp & _ & Hr & Hd) Hne.
  rewrite fmap_app in Hnd, Hp, Hr. cbn [fmap list_fmap fst] in Hnd, Hp, Hr.
  apply NoDup_app in Hnd as (Hnd & _).
  destruct (unlinked_ring (km_mem k) l1.*1 n l2.*1) as (Hpin & Hqin & Hq & Hr'); try done.
  { rewrite <- fmap_app. intros ?%fmap_nil_inv. done. }
  rewrite !fmap_app. split; [done|]. split; [done|]. split; [done|].
  assert (∀ c, c ∈ l1.*1 ++ l2.*1 → page_ok c) as Hall.
  { intros c Hc. apply (proj1 (Forall_forall _ _) Hp). rewrite elem_of_app in *. set_solver. }
  split.
  - eapply others_kept_trans; apply others_kept_store; try done; try (by apply Hall);
      unfold ND_NEXT, ND_PREV; lia.
  - split; [by rewrite fmap_app|]. split; [by rewrite fmap_app|].
    apply Forall_forall. intros [c e] Hc.
    assert (c ∈ l1.*1 ++ l2.*1) as Hc1 by (rewrite <- fmap_app; apply (list_elem_of_fmap_2 fst _ _ Hc)).
    destruct (unlinked_fields (km_mem k) n c) as (_ & _ & Hdc); try by apply Hall.
    cbn [fst snd]. rewrite Hdc. apply (proj1 (Forall_forall _ _) Hd (c, e)).
    rewrite elem_of_app in *. set_solver.
Qed.

Lemma unlinked_outside m n l : pv m n ∈ l → nx m n ∈ l → outside_kept m (unlinked m n) l.
Proof.
  intros Hp Hq b Hb. pose proof (Hb _ Hp). pose proof (Hb _ Hq). unfold unlinked, ND_NEXT, ND_PREV, PGSIZE in *.
  rewrite (store64_changes _ (nx m n + 16) _ b) by lia. by rewrite (store64_changes _ (pv m n + 8) _ b) by lia.
Qed.

(** Freeing a node that is no longer in the ring. *)
Lemma free_unlinked k m' fl h l1 n d l2 :
  queue_ok k fl h (l1 ++ (n, d) :: l2) →
  queue m' (default 0 (hd_error (l1 ++ l2).*1)) (l1 ++ l2) →
  others_kept (km_mem k) m' (l1 ++ l2).*1 →
  ∃ k', kfree n (set_mem m' k) = Ret ((), k') ∧
    queue_ok k' (n :: fl) (default 0 (hd_error (l1 ++ l2).*1)) (l1 ++ l2) ∧
    others_kept (km_mem k) (km_mem k') (l1 ++ (n, d) :: l2).*1 ∧ only_changes m' (km_mem k') n PGSIZE.
Proof.
  intros (Hf & Hnd & Hp & _) Hq Ho.
  assert ((l1 ++ (n, d) :: l2).*1 ≡ₚ n :: (l1 ++ l2).*1) as Hperm.
  { by rewrite <- Permutation_middle. }
  rewrite Hperm in Hnd, Hp. apply Forall_cons in Hp as [Hn Hp]. simpl in Hnd.
  apply NoDup_cons in Hnd as [Hnn Hnd]. rewrite not_elem_of_app in Hnn. destruct Hnn as [Hnl Hnf].
  assert (free_list (set_mem m' k) fl) as Hf'.
  { eapply free_list_frame; [done|]. eapply others_kept_pages; [done|apply Hf|].
    intros q Hqf Hql. apply NoDup_app in Hnd as (_ & Hdis & _). by apply (Hdis q). }
  destruct (kfree_rep (set_mem m' k) n fl Hf' Hn Hnf) as (k' & Ek & Hfk & Hch).
  exists k'. split; [done|]. split; [split; [done|]; split; [|split; [done|]]|split; [|exact Hch]].
  - rewrite <- Permutation_middle. apply NoDup_cons. rewrite not_elem_of_app. done.
  - eapply queue_frame; [|exact Hq]. by eapply pages_kept_only_changes; [exact Hch|apply Hn|..].
  - eapply others_kept_trans; [eapply others_kept_sub; [|exact Ho]|eapply others_kept_page; [exact Hn| |exact Hch]];
      [intros q Hql|]; rewrite Hperm; [by right|left].
Qed.
End unlink_node.

(** * Run queues *)

Section runqueue.
Context {LK : Linker}.

(** [c] with the queue [l]. *)
Definition requeue (l : list (Z * Z)) (n : Z) (c : percpu) : percpu :=
  set_queue (default 0 (hd_error l.*1)) n c.

Lemma unlink_links_single s i c fl n d :
  percpus s !! i = Some c → queue_ok (sy_kmem s) fl (run_queue c) [(n, d)] →
  unlink_links (Cpu i) n s = Ret ((), put_cpu (Cpu i) (requeue [] (num_threads c) c) s).
Proof.
  intros Hi (_ & _ & _ & _ & Hr & _). apply ring_single in Hr as [Hnx _]. cbn [fst] in Hnx.
  unfold unlink_links. rewrite bind_rd64.
  change (load64 _ _) with (nx (km_mem (sy_kmem s)) n). rewrite Hnx, Z.eqb_refl.
  by rewrite (update_cpu _ _ _ _ Hi).
Qed.

Lemma queue_without k fl h l1 n d l2 :
  queue_ok k fl h (l1 ++ (n, d) :: l2) →
  page_ok n ∧ (n ∉ (l1 ++ l2).*1) ∧ ∀ x, x ∈ (l1 ++ l2).*1 → page_ok x.
Proof.
  intros (_ & Hnd & Hp & _).
  assert ((l1 ++ (n, d) :: l2).*1 ≡ₚ n :: (l1 ++ l2).*1) as Hperm
    by (by rewrite <- Permutation_middle).
  apply NoDup_app in Hnd as (Hnd & _). rewrite Hperm in Hnd, Hp.
  apply Forall_cons in Hp as [Hn Hp]. apply NoDup_cons in Hnd as [Hnin _].
  split; [done|]. split; [done|]. by apply Forall_forall.
Qed.

Lemma unlink_links_more s i c fl l1 n d l2 (m := km_mem (sy_kmem s)) :
  percpus s !! i = Some c → queue_ok (sy_kmem s) fl (run_queue c) (l1 ++ (n, d) :: l2) →
  l1 ++ l2 ≠ [] →
  unlink_links (Cpu i) n s = Ret ((), put_cpu (Cpu i) (requeue (l1 ++ l2) (num_threads c) c)
    (set_kmem (set_mem (unlinked m n) (sy_kmem s)) s)).
Proof.
  intros Hi Hq Hne. destruct (queue_without _ _ _ _ _ _ _ Hq) as (Hn & Hnin & Hall).
  destruct (unlinked_queue _ _ _ _ _ _ _ Hq Hne) as (Hpin & Hqin & Hqhd & Ho & Hqm).
  fold m in Hpin, Hqin, Hqhd. assert (pv m n ≠ n) as Hpn by congruence.
  unfold unlink_links. rewrite bind_rd64. change (load64 _ _) with (nx m n).
  destruct (Z.eqb_spec (nx m n) n) as [E|_]; [by rewrite E in Hqin|].
  rewrite unlink_mem_code by (done || by apply Hall). fold m. set (s1 := set_kmem _ s).
  rewrite (bind_deref i c) by done.
  assert (load64 (km_mem (sy_kmem s1)) (n + ND_NEXT) = nx m n) as Hload.
  { change (nx (unlinked m n) n = nx m n).
    destruct (unlinked_fields m n n) as (-> & _); try by apply Hall. { exact Hn. }
    by rewrite decide_False. }
  destruct Hq as (_ & _ & _ & Hh & _). destruct l1 as [|[h e] l1].
  - cbn [app fmap list_fmap fst hd_error] in Hh. simpl in Hh. rewrite Hh, Z.eqb_refl, bind_rd64, Hload.
    rewrite (update_cpu _ _ _ c) by done. rewrite app_nil_r in Hqhd. by rewrite Hqhd.
  - simpl in Hh. rewrite Hh. destruct (Z.eqb_spec h n) as [->|_]; [exfalso; apply Hnin; left|].
    unfold ret. f_equal. f_equal. symmetry. apply put_same. unfold deref.
    change (percpus s1) with (percpus s). rewrite Hi. unfold requeue. simpl. rewrite <- Hh.
    by destruct c.
Qed.

Lemma runqueue_unlink_result s i c fl l1 n d l2 :
  percpus s !! i = Some c → queue_ok (sy_kmem s) fl (run_queue c) (l1 ++ (n, d) :: l2) →
  ∃ k', runqueue_unlink (Cpu i) n s = Ret ((),
      put_cpu (Cpu i) (requeue (l1 ++ l2) (u32 (num_threads c - 1)) c) (set_kmem k' s)) ∧
    queue_ok k' (n :: fl) (default 0 (hd_error (l1 ++ l2).*1)) (l1 ++ l2) ∧
    others_kept (km_mem (sy_kmem s)) (km_mem k') (l1 ++ (n, d) :: l2).*1 ∧
    outside_kept (km_mem (sy_kmem s)) (km_mem k') (l1 ++ (n, d) :: l2).*1.
Proof.
  intros Hi Hq. set (m := km_mem (sy_kmem s)).
  assert (∃ m', queue m' (default 0 (hd_error (l1 ++ l2).*1)) (l1 ++ l2) ∧
    others_kept m m' (l1 ++ l2).*1 ∧ outside_kept m m' (l1 ++ l2).*1 ∧
    unlink_links (Cpu i) n s = Ret ((), put_cpu (Cpu i) (requeue (l1 ++ l2) (num_threads c) c)
      (set_kmem (set_mem m' (sy_kmem s)) s))) as (m' & Hqm & Ho & Hout & Hcode).
  { destruct (decide (l1 ++ l2 = [])) as [E|Hne].
    - exists m. rewrite E. apply app_eq_nil in E as [-> ->]. split; [done|].
      split; [apply others_kept_refl|]. split; [by intros b _|]. rewrite (unlink_links_single _ _ _ _ _ _ Hi Hq).
      by destruct s as [[]].
    - exists (unlinked m n). destruct (unlinked_queue _ _ _ _ _ _ _ Hq Hne) as (? & ? & _ & ? & ?).
      rewrite (unlink_links_more _ _ _ _ _ _ _ _ Hi Hq Hne). split; [done|]. split; [done|]. split; [by apply unlinked_outside|done]. }
  destruct (free_unlinked _ _ _ _ _ _ _ _ Hq Hqm Ho) as (k' & Ek & Hqk & Hok & Hch).
  assert (outside_kept m (km_mem k') (l1 ++ (n, d) :: l2).*1) as Hout'.
  { intros b Hb. rewrite (Hch b); [apply Hout; intros p Hp|]; apply Hb; rewrite fmap_app, elem_of_app in *;
      cbn [fmap list_fmap fst]; rewrite ?elem_of_cons; tauto. }
  exists k'. split; [|done]. unfold runqueue_unlink. rewrite (bind_ret _ _ _ _ _ Hcode).
  set (s1 := put_cpu _ _ _).
  rewrite (bind_ret _ _ _ _ _ (on_kmem_ret (kfree n) s1 _ _ Ek)).
  assert (percpus (set_kmem k' s1) !! i = Some (requeue (l1 ++ l2) (num_threads c) c)) as Hi1
    by (by apply (put_cpu_lookup i c)).
  rewrite (update_cpu _ _ _ _ Hi1). subst s1. simpl.
  unfold set_percpus. simpl. by rewrite list_insert_insert_eq.
Qed.

(** Walking round a queue: the successor of a node, and the end of the walk. *)
Lemma queue_next k fl h l1 n d l2 :
  queue_ok k fl h (l1 ++ (n, d) :: l2) →
  nx (km_mem k) n = default h (hd_error l2.*1) ∧ (nx (km_mem k) n = h ↔ l2 = []).
Proof.
  intros (_ & Hnd & _ & Hh & Hr & _). rewrite !fmap_app in *. cbn [fmap list_fmap fst] in *.
  apply NoDup_app in Hnd as (Hnd & _). apply ring_rotate in Hr. cbn [app] in Hr.
  pose proof (ring_next _ _ _ _ Hr) as Hnx.
  destruct l2 as [|[n2 d2] l2]; cbn [fmap list_fmap fst app hd_error] in *.
  - destruct l1.*1; simpl in *; by subst.
  - simpl in Hnx |- *. split; [done|]. split; [|done]. rewrite Hnx. intros E. exfalso.
    destruct l1.*1 as [|x l]; simpl in *; subst.
    + apply NoDup_cons in Hnd as [Hn _]. apply Hn. rewrite E. left.
    + apply NoDup_cons in Hnd as [Hn _]. apply Hn. rewrite elem_of_app. right. right. left.
Qed.

Lemma queue_data k fl h l1 n d l2 :
  queue_ok k fl h (l1 ++ (n, d) :: l2) → load64 (km_mem k) (n + ND_DATA) = d.
Proof. intros Hq. apply (queue_elem_ok _ _ _ _ n d Hq). rewrite elem_of_app. right. left. Qed.

Lemma queue_fuel k fl h l : queue_ok k fl h l → (length l < ring_fuel)%nat.
Proof.
  intros (_ & Hnd & Hp & _). apply NoDup_app in Hnd as (Hnd & _).
  pose proof (pages_bound _ Hnd Hp) as Hb. rewrite length_fmap in Hb.
  unfold ring_fuel, count_fuel.
  change (PHYSTOP / PGSIZE) with 32768 in *. lia.
Qed.

(** The first node that holds [t] is taken out of a queue. *)
Fixpoint remove_first (t : Z) (l : list (Z * Z)) : option (Z * list (Z * Z)) :=
  match l with
  | [] => None
  | (n, d) :: l =>
      if d =? t then Some (n, l)
      else match remove_first t l with
           | Some (n', l') => Some (n', (n, d) :: l')
           | None => None
           end
  end.

Lemma remove_loop_result fuel s i c fl t l1 n d l2 h :
  percpus s !! i = Some c → queue_ok (sy_kmem s) fl h (l1 ++ (n, d) :: l2) →
  run_queue c = h → (length l2 < fuel)%nat →
  match remove_first t ((n, d) :: l2) with
  | None => remove_loop fuel (Cpu i) t h n s = Ret (false, s)
  | Some (n', l') =>
      ∃ k', remove_loop fuel (Cpu i) t h n s = Ret (true,
        put_cpu (Cpu i) (requeue (l1 ++ l') (u32 (num_threads c - 1)) c) (set_kmem k' s)) ∧
      queue_ok k' (n' :: fl) (default 0 (hd_error (l1 ++ l').*1)) (l1 ++ l') ∧
      others_kept (km_mem (sy_kmem s)) (km_mem k') (l1 ++ (n, d) :: l2).*1 ∧
      outside_kept (km_mem (sy_kmem s)) (km_mem k') (l1 ++ (n, d) :: l2).*1
  end.
Proof.
  intros Hi Hq Hh. revert fuel l1 n d Hq.
  induction l2 as [|[n2 d2] l2 IH]; intros [|fuel] l1 n d Hq Hfuel; simpl in Hfuel; try lia;
    cbn [remove_loop]; rewrite bind_rd64, (queue_data _ _ _ _ _ _ _ Hq);
    destruct (queue_next _ _ _ _ _ _ _ Hq) as [Hnx Hend]; cbn [remove_first];
    destruct (d =? t) eqn:Ed.
  - subst h. destruct (runqueue_unlink_result _ _ _ _ _ _ _ _ Hi Hq) as (k' & E & ?).
    exists k'. by rewrite (bind_ret _ _ _ _ _ E).
  - rewrite bind_rd64. change (load64 _ _) with (nx (km_mem (sy_kmem s)) n).
    destruct (Z.eqb_spec (nx (km_mem (sy_kmem s)) n) h) as [_|E]; [done|]. by destruct E; apply Hend.
  - subst h. destruct (runqueue_unlink_result _ _ _ _ _ _ _ _ Hi Hq) as (k' & E & ?).
    exists k'. by rewrite (bind_ret _ _ _ _ _ E).
  - rewrite bind_rd64. change (load64 _ _) with (nx (km_mem (sy_kmem s)) n).
    destruct (Z.eqb_spec (nx (km_mem (sy_kmem s)) n) h) as [E|_]; [by apply Hend in E|].
    rewrite Hnx. cbn [fmap list_fmap fst hd_error default]. simpl (default _ _).
    change (l1 ++ (n, d) :: (n2, d2) :: l2) with (l1 ++ [(n, d)] ++ (n2, d2) :: l2) in Hq |- *.
    rewrite app_assoc in Hq |- *. specialize (IH fuel _ _ _ Hq ltac:(lia)).
    cbn [remove_first] in IH. destruct (d2 =? t) eqn:Ed2.
    + by rewrite <- app_assoc in IH.
    + destruct (remove_first t l2) as [[n' l']|]; [|done]. by rewrite <- app_assoc in IH.
Qed.

Lemma runqueue_remove_result s i c fl t l :
  percpus s !! i = Some c → queue_ok (sy_kmem s) fl (run_queue c) l →
  match remove_first t l with
  | None => runqueue_remove_unlocked (Cpu i) t s = Ret (false, s)
  | Some (n, l') =>
      ∃ k', runqueue_remove_unlocked (Cpu i) t s = Ret (true,
        put_cpu (Cpu i) (requeue l' (u32 (num_threads c - 1)) c) (set_kmem k' s)) ∧
      queue_ok k' (n :: fl) (default 0 (hd_error l'.*1)) l' ∧
      others_kept (km_mem (sy_kmem s)) (km_mem k') l.*1 ∧ outside_kept (km_mem (sy_kmem s)) (km_mem k') l.*1
  end.
Proof.
  intros Hi Hq. unfold runqueue_remove_unlocked. rewrite (bind_deref _ _ _ _ Hi).
  pose proof (queue_fuel _ _ _ _ Hq) as Hfuel.
  destruct l as [|[n d] l].
  - destruct Hq as (_ & _ & _ & Hh & _). simpl in Hh. by rewrite Hh.
  - destruct (queue_without _ _ _ [] _ _ _ Hq) as (Hn & _).
    assert (run_queue c = n) as Hh by apply Hq. rewrite Hh.
    destruct (Z.eqb_spec n 0) as [->|_]; [by apply page_ok_nonzero in Hn|].
    rewrite Hh in Hq. apply (remove_loop_result ring_fuel s i c fl t [] n d l n); try done.
    simpl in Hfuel. lia.
Qed.

Lemma runqueue_add_result s i c p fl t l :
  percpus s !! i = Some c → queue_ok (sy_kmem s) (p :: fl) (run_queue c) l → 0 ≤ t < 2 ^ 64 →
  ∃ k', runqueue_add_unlocked (Cpu i) t s = Ret ((),
      put_cpu (Cpu i) (requeue (l ++ [(p, t)]) (u32 (num_threads c + 1)) c) (set_kmem k' s)) ∧
    queue_ok k' fl (default 0 (hd_error (l ++ [(p, t)]).*1)) (l ++ [(p, t)]) ∧
    others_kept (km_mem (sy_kmem s)) (km_mem k') (p :: l.*1).
Proof.
  intros Hi Hq Ht. destruct (push_list_result _ _ _ _ _ _ Hq Ht) as (k' & E & Hq' & Ho).
  assert (default p (hd_error l.*1) = default 0 (hd_error (l ++ [(p, t)]).*1)) as Eh
    by (by destruct l).
  rewrite Eh in E, Hq'. exists k'. split; [|done].
  unfold runqueue_add_unlocked, push_thread_list. rewrite (bind_deref _ _ _ _ Hi).
  rewrite (bind_ret _ _ _ _ _ (on_kmem_ret _ _ _ _ E)). set (s1 := set_kmem k' s).
  assert (percpus s1 !! i = Some c) as Hi1 by done.
  rewrite (bind_ret _ _ _ _ _ (update_cpu i _ s1 c Hi1)).
  rewrite (update_cpu i _ _ _ (put_cpu_lookup _ _ _ _ Hi1)). by rewrite put_put.
Qed.

(** The first runnable thread of a queue, and the queue that starts behind it. *)
Fixpoint next_runnable (m : mem) (before l : list (Z * Z)) : option (Z * list (Z * Z)) :=
  match l with
  | [] => None
  | (n, t) :: l =>
      if thread_runnable m t then Some (t, l ++ before ++ [(n, t)])
      else next_runnable m (before ++ [(n, t)]) l
  end.

Lemma queue_rotate k fl h l1 l2 :
  queue_ok k fl h (l1 ++ l2) → queue_ok k fl (default 0 (hd_error (l2 ++ l1).*1)) (l2 ++ l1).
Proof.
  intros (Hf & Hnd & Hp & _ & Hr & Hd). rewrite fmap_app in Hnd, Hp, Hr.
  split; [done|]. rewrite fmap_app. split; [by rewrite (Permutation_app_comm l2.*1)|].
  split; [by rewrite (Permutation_app_comm l2.*1)|]. split; [by rewrite fmap_app|].
  rewrite fmap_app. split; [by apply ring_rotate|]. by rewrite (Permutation_app_comm l2).
Qed.

Lemma get_next_loop_result fuel s i c fl l1 n d l2 h (m := km_mem (sy_kmem s)) :
  percpus s !! i = Some c → queue_ok (sy_kmem s) fl h (l1 ++ (n, d) :: l2) →
  (length l2 < fuel)%nat →
  match next_runnable m l1 ((n, d) :: l2) with
  | None => get_next_loop fuel (Cpu i) h n s = Ret (0, s)
  | Some (t, l') =>
      get_next_loop fuel (Cpu i) h n s =
        Ret (t, put_cpu (Cpu i) (requeue l' (num_threads c) c) s) ∧
      queue_ok (sy_kmem s) fl (default 0 (hd_error l'.*1)) l'
  end.
Proof.
  intros Hi. revert fuel l1 n d.
  induction l2 as [|[n2 d2] l2 IH]; intros [|fuel] l1 n d Hq Hfuel; simpl in Hfuel; try lia;
    cbn [get_next_loop]; rewrite !bind_rd64, (queue_data _ _ _ _ _ _ _ Hq);
    destruct (queue_next _ _ _ _ _ _ _ Hq) as [Hnx Hend];
    change (load64 (km_mem (sy_kmem s)) (n + ND_NEXT)) with (nx m n) in *;
    cbn [next_runnable]; destruct (thread_runnable m d) eqn:Er; rewrite ?bind_get; fold m;
    rewrite ?Er.
  - rewrite (bind_ret _ _ _ _ _ (update_cpu i _ s c Hi)).
    pose proof (queue_rotate _ _ _ (l1 ++ [(n, d)]) [] ltac:(by rewrite app_nil_r)) as Hq'.
    simpl app in Hq' |- *. split; [|done]. unfold requeue.
    fold m in Hnx. rewrite Hnx. destruct Hq as (_ & _ & _ & -> & _). reflexivity.
  - fold m in Hend. destruct (Z.eqb_spec (nx m n) h) as [_|E]; [reflexivity|]. destruct E; by apply Hend.
  - rewrite (bind_ret _ _ _ _ _ (update_cpu i _ s c Hi)).
    pose proof (queue_rotate (sy_kmem s) fl h (l1 ++ [(n, d)]) ((n2, d2) :: l2)) as Hrot.
    rewrite <- app_assoc in Hrot. specialize (Hrot Hq). split; [|done].
    fold m in Hnx. by rewrite Hnx.
  - fold m in Hend, Hnx. destruct (Z.eqb_spec (nx m n) h) as [E|_]; [by apply Hend in E|].
    rewrite Hnx. cbn [fmap list_fmap fst hd_error default]. simpl (default _ _).
    change (l1 ++ (n, d) :: (n2, d2) :: l2) with (l1 ++ [(n, d)] ++ (n2, d2) :: l2) in Hq.
    rewrite app_assoc in Hq. apply (IH fuel _ _ _ Hq). lia.
Qed.

Lemma runqueue_get_next_result s i c fl l (m := km_mem (sy_kmem s)) :
  percpus s !! i = Some c → queue_ok (sy_kmem s) fl (run_queue c) l →
  match next_runnable m [] l with
  | None => runqueue_get_next (Cpu i) s = Ret (0, s)
  | Some (t, l') =>
      runqueue_get_next (Cpu i) s = Ret (t, put_cpu (Cpu i) (requeue l' (num_threads c) c) s) ∧
      queue_ok (sy_kmem s) fl (default 0 (hd_error l'.*1)) l'
  end.
Proof.
  intros Hi Hq. unfold runqueue_get_next. rewrite (bind_deref _ _ _ _ Hi).
  pose proof (queue_fuel _ _ _ _ Hq) as Hfuel. destruct l as [|[n d] l].
  - destruct Hq as (_ & _ & _ & Hh & _). simpl in Hh. by rewrite Hh.
  - destruct (queue_without _ _ _ [] _ _ _ Hq) as (Hn & _).
    assert (run_queue c = n) as Hh by apply Hq. rewrite Hh.
    destruct (Z.eqb_spec n 0) as [->|_]; [by apply page_ok_nonzero in Hn|].
    rewrite Hh in Hq. apply (get_next_loop_result ring_fuel s i c fl [] n d l n); try done.
    simpl in Hfuel. lia.
Qed.
End runqueue.

(** * All run queues *)

Section queues.
Context {LK : Linker}.

(** The queue of CPU [i] holds the nodes and threads [ls !! i], and its counter
    is their number; no node is in two queues or free. *)
Definition queues (s : system) (fl : list Z) (ls : list (list (Z * Z))) : Prop :=
  free_list (sy_kmem s) fl ∧ NoDup ((concat ls).*1 ++ fl) ∧ Forall page_ok (concat ls).*1 ∧
  Forall2 (λ c l, queue (km_mem (sy_kmem s)) (run_queue c) l ∧ num_threads c = Z.of_nat (length l))
    (percpus s) ls.

Lemma concat_split {A} (ls : list (list A)) i l l' :
  ls !! i = Some l →
  concat ls ≡ₚ l ++ concat (delete i ls) ∧ concat (<[i := l']> ls) ≡ₚ l' ++ concat (delete i ls).
Proof.
  revert i. induction ls as [|x ls IH]; intros [|i] Hi; try done.
  - by injection Hi as ->.
  - destruct (IH i Hi) as [H1 H2]. cbn [concat delete list_delete insert list_insert].
    change (list_insert i l' ls) with (<[i := l']> ls). change (list_delete i ls) with (delete i ls).
    rewrite H1 at 1. rewrite H2. split; rewrite !app_assoc, (Permutation_app_comm x); done.
Qed.

Lemma queues_lookup s fl ls i c l :
  queues s fl ls → percpus s !! i = Some c → ls !! i = Some l →
  queue_ok (sy_kmem s) fl (run_queue c) l ∧ num_threads c = Z.of_nat (length l).
Proof.
  intros (Hf & Hnd & Hp & Hall) Hi Hl.
  destruct (Forall2_lookup_lr _ _ _ _ _ _ Hall Hi Hl) as [Hq Hn].
  destruct (concat_split ls i l l Hl) as [Hperm _]. rewrite Hperm in Hnd, Hp.
  rewrite fmap_app in Hnd, Hp. split; [|done]. split; [done|]. split; [|split; [|done]].
  - rewrite <- app_assoc in Hnd. apply NoDup_app in Hnd as (H1 & H2 & H3).
    apply NoDup_app in H3 as (_ & _ & H3). apply NoDup_app. split_and!; [done| |done].
    intros x Hx Hxf. apply (H2 x Hx). rewrite elem_of_app. by right.
  - by apply Forall_app in Hp as [? _].
Qed.

Lemma queue_in_others (ls : list (list (Z * Z))) i j l x :
  ls !! j = Some l → i ≠ j → x ∈ l.*1 → x ∈ (concat (delete i ls)).*1.
Proof.
  intros Hj Hne. rewrite !list_elem_of_fmap. intros (y & -> & Hy). exists y. split; [done|].
  rewrite list_elem_of_In, in_concat. exists l. rewrite <- !list_elem_of_In. split; [|done].
  rewrite list_elem_of_lookup. destruct (decide (j < i)%nat) as [?|?].
  - exists j. by rewrite list_lookup_delete_lt.
  - exists (pred j). rewrite list_lookup_delete_ge by lia. by replace (S (pred j)) with j by lia.
Qed.

(** One queue changes, and the others are left alone. *)
Lemma queues_update s fl ls i c l k' c' l' fl' :
  queues s fl ls → percpus s !! i = Some c → ls !! i = Some l →
  queue_ok k' fl' (run_queue c') l' → num_threads c' = Z.of_nat (length l') →
  l'.*1 ++ fl' ≡ₚ l.*1 ++ fl →
  others_kept (km_mem (sy_kmem s)) (km_mem k') (l.*1 ++ fl) →
  queues (put_cpu (Cpu i) c' (set_kmem k' s)) fl' (<[i := l']> ls).
Proof.
  intros (Hf & Hnd & Hp & Hall) Hi Hl (Hf' & Hnd' & Hp' & Hq') Hn' Hperm Ho.
  destruct (concat_split ls i l l' Hl) as [H1 H2].
  rewrite H1, fmap_app in Hnd, Hp. apply Forall_app in Hp as [_ Hp].
  split; [done|]. rewrite H2, fmap_app. split; [|split; [by apply Forall_app|]].
  - rewrite <- app_assoc, (Permutation_app_comm _ fl'), app_assoc, Hperm.
    by rewrite <- app_assoc, (Permutation_app_comm fl), app_assoc.
  - simpl. apply Forall2_lookup. intros j. destruct (decide (i = j)) as [<-|Hne].
    + rewrite !list_lookup_insert_eq by (by eapply lookup_lt_Some). by constructor.
    + rewrite !list_lookup_insert_ne by done.
      pose proof (proj1 (Forall2_lookup _ _ _) Hall j) as Hj.
      destruct (ls !! j) as [lj|] eqn:Hlj; inversion Hj as [cj ? [Hqj Hnj]|]; subst; constructor.
      split; [|done]. eapply queue_frame; [|done].
      assert (∀ x, x ∈ lj.*1 → x ∈ (concat (delete i ls)).*1) as Hsub
        by (intros x; by apply (queue_in_others ls i j)).
      eapply others_kept_pages; [exact Ho|..].
      * apply Forall_forall. intros x Hx. apply (proj1 (Forall_forall _ _) Hp). by apply Hsub.
      * intros x Hx. apply Hsub in Hx. rewrite elem_of_app.
        rewrite (Permutation_app_comm l.*1), <- app_assoc in Hnd.
        apply NoDup_app in Hnd as (_ & Hd & _). specialize (Hd x Hx).
        rewrite elem_of_app in Hd. tauto.
Qed.
End queues.

(** * The scheduler lock *)

(** What the scheduler reads of the CPUs is the same in both states. *)
Definition same_view (c c' : percpu) : Prop :=
  run_queue c' = run_queue c ∧ num_threads c' = num_threads c ∧ started c' = started c ∧
  current_thread c' = current_thread c ∧ idle_thread c' = idle_thread c ∧ cpu_index c' = cpu_index c.
Definition same_sched (s s' : system) : Prop :=
  sy_kmem s' = sy_kmem s ∧ ncpu s' = ncpu s ∧ Forall2 same_view (percpus s) (percpus s').

(** Only the memory and the queues differ. *)
Definition queues_only (s s' : system) : Prop :=
  ncpu s' = ncpu s ∧ apic_to_cpu s' = apic_to_cpu s ∧ early_bsp_percpu s' = early_bsp_percpu s ∧
  percpu_fully_initialized s' = percpu_fully_initialized s ∧ sy_hw s' = sy_hw s ∧
  Forall2 (λ c c', c' = set_queue (run_queue c') (num_threads c') c) (percpus s) (percpus s').

Lemma queues_only_refl s : queues_only s s.
Proof. repeat split. apply Forall_Forall2_diag, Forall_forall. by intros []. Qed.

Lemma queues_only_trans s1 s2 s3 : queues_only s1 s2 → queues_only s2 s3 → queues_only s1 s3.
Proof.
  intros (? & ? & ? & ? & ? & Ha) (? & ? & ? & ? & ? & Hb).
  split_and!; try congruence. eapply Forall2_trans; [|exact Ha|exact Hb].
  intros [] c2 c3 E1 E2. rewrite E2, E1. done.
Qed.

Lemma queues_only_kmem s k : queues_only s (set_kmem k s).
Proof. apply (queues_only_refl s). Qed.

Lemma Forall2_insert_r {A} (P : A → A → Prop) (l : list A) i x x' :
  (∀ y, P y y) → l !! i = Some x → P x x' → Forall2 P l (<[i := x']> l).
Proof.
  intros Hr Hi Hx. apply Forall2_lookup. intros j. destruct (decide (i = j)) as [<-|Hne].
  - rewrite list_lookup_insert_eq by (by eapply lookup_lt_Some). rewrite Hi. by constructor.
  - rewrite list_lookup_insert_ne by done. destruct (l !! j); by constructor.
Qed.

Lemma queues_only_put s i c l n k :
  percpus s !! i = Some c → queues_only s (put_cpu (Cpu i) (requeue l n c) (set_kmem k s)).
Proof.
  intros Hi. repeat split. simpl. eapply Forall2_insert_r; [by intros []|done|done].
Qed.

Lemma same_sched_put s r c c' b :
  deref r s = Ret (c, s) → same_view c c' → same_sched s (set_if b (put_cpu r c' s)).
Proof.
  intros Hd Hv. assert (∀ y, same_view y y) as Hr by done. destruct r as [|i].
  - repeat split. simpl. by apply Forall_Forall2_diag, Forall_forall.
  - simpl in Hd. destruct (percpus s !! i) eqn:Hi; [|done]. injection Hd as ->.
    repeat split. simpl. by eapply Forall2_insert_r.
Qed.

(** The CPUs keep their indices and their idle threads. *)
Definition same_roles (s s' : system) : Prop :=
  Forall2 (λ c c', idle_thread c' = idle_thread c ∧ cpu_index c' = cpu_index c) (percpus s) (percpus s').

Lemma same_roles_refl s : same_roles s s.
Proof. by apply Forall_Forall2_diag, Forall_forall. Qed.

Lemma same_roles_trans s1 s2 s3 : same_roles s1 s2 → same_roles s2 s3 → same_roles s1 s3.
Proof. intros Ha Hb. eapply Forall2_trans; [|exact Ha|exact Hb]. intros c1 c2 c3 [-> ->] [-> ->]. done. Qed.

Lemma same_sched_roles s s' : same_sched s s' → same_roles s s'.
Proof. intros (_ & _ & H). eapply Forall2_impl; [exact H|]. intros c c' (_ & _ & _ & _ & ? & ?). done. Qed.

Lemma queues_only_roles s s' : queues_only s s' → same_roles s s'.
Proof. intros (_ & _ & _ & _ & _ & H). eapply Forall2_impl; [exact H|]. intros c c' ->. done. Qed.

Lemma same_roles_lookup s s' i c c' : same_roles s s' → percpus s !! i = Some c → percpus s' !! i = Some c' →
  idle_thread c' = idle_thread c ∧ cpu_index c' = cpu_index c.
Proof. intros H Hc Hc'. exact (Forall2_lookup_lr _ _ _ _ _ _ H Hc Hc'). Qed.

Lemma find_apic_id_queues l l' id i n :
  Forall2 (λ c c', c' = set_queue (run_queue c') (num_threads c') c) l l' →
  find_apic_id l' id i n = find_apic_id l id i n.
Proof.
  intros H. revert i. induction n as [|n IH]; intros i; [done|]. cbn [find_apic_id].
  pose proof (proj1 (Forall2_lookup _ _ _) H i) as Hi. inversion Hi as [c c' E|]; [|done].
  rewrite E. cbn [apic_id set_queue]. by rewrite IH.
Qed.

Lemma on_cpu_queues s s' r c :
  queues_only s s' → on_cpu s r c → ∃ q n, on_cpu s' r (set_queue q n c).
Proof.
  intros (E1 & E2 & E3 & E4 & E5 & Hall) [Hm Hd].
  assert (mycpu s' = Ret (r, s')) as Hm'.
  { revert Hm. unfold mycpu, bind, get, get_apic_id, gets, ret. rewrite E1, E2, E4.
    destruct (percpu_fully_initialized s); cbn [negb]; [|congruence]. cbv beta. rewrite E5.
    destruct (apic_to_cpu s !! _) as [cpu|]; [|done].
    rewrite (find_apic_id_queues _ _ _ _ _ Hall).
    destruct (_ || _); [destruct (find_apic_id _ _ _ _)|]; congruence. }
  destruct r as [|i].
  - exists (run_queue c), (num_threads c). split; [done|]. simpl in *. rewrite E3.
    injection Hd as <-. by destruct (early_bsp_percpu s).
  - simpl in Hd. destruct (percpus s !! i) as [c0|] eqn:Hi; [|done]. injection Hd as ->.
    destruct (Forall2_lookup_l _ _ _ _ _ Hall Hi) as (c' & Hi' & E).
    exists (run_queue c'), (num_threads c'). split; [done|]. simpl. rewrite Hi'. by rewrite <- E.
Qed.

(** No processor holds the lock, and the executing one is [r]. *)
Definition unlocked (s : sched) (r : cpu_ref) : Prop :=
  lk_word (sched_lock s) = 0 ∧ ∃ c, cli_inv (sc_sys s) r c.

Lemma cli_inv_queues {k} s s' r c :
  queues_only s s' → cli_room k s r c → ∃ q n, cli_room k s' r (set_queue q n c).
Proof.
  intros Hq (Hc & Hn & Hif). destruct (on_cpu_queues _ _ _ _ Hq Hc) as (q & n & Hc').
  exists q, n. split; [done|]. split; [done|]. destruct Hq as (_ & _ & _ & _ & E & _).
  by rewrite E.
Qed.

(** The lock is taken, the queues are changed, and the lock is released: the
    scheduler sees what happened to the queues only. *)
Lemma locked_section s r :
  unlocked s r →
  ∃ lk1 s1, with_sched_lock (acquire_spinlock 1) s = Ret ((), Sched lk1 (sched_initialized s) s1) ∧
    same_sched (sc_sys s) s1 ∧
    ∀ s2, queues_only s1 s2 →
    ∃ s3, with_sched_lock release_spinlock (Sched lk1 (sched_initialized s) s2) =
        Ret ((), Sched (sched_lock s) (sched_initialized s) s3) ∧
      same_sched s2 s3 ∧ hw_if (sy_hw s3) = hw_if (sy_hw (sc_sys s)) ∧
      unlocked (Sched (sched_lock s) (sched_initialized s) s3) r ∧
      ∀ c, on_cpu (sc_sys s) r c → ∃ c3, cli_inv s3 r c3 ∧ ncli c3 = ncli c.
Proof.
  intros [Hw [c Hinv]]. pose proof Hinv as (Hc & Hn & Hif).
  destruct (acquire_free _ r c _ 0 Hinv Hw) as [Ea Hinv1].
  exists (Spinlock 1 (lk_name (sched_lock s))), (entered (sc_sys s) r c).
  split; [unfold with_sched_lock; by rewrite Ea|].
  split; [eapply same_sched_put; [apply Hc|unfold opened; case_match; done]|].
  intros s2 H2. destruct (cli_inv_queues _ _ _ _ H2 Hinv1) as (q & n & Hinv2).
  set (c2 := set_queue q n _) in Hinv2.
  assert (ncli c2 = ncli c + 1) as Hn2 by done.
  eexists. split; [unfold with_sched_lock; cbn [sched_lock sc_sys];
    rewrite (release_held _ _ _ _ Hinv2) by lia; f_equal; f_equal; f_equal|].
  { destruct (sched_lock s). simpl in *. by subst. }
  rewrite Hn2. replace (ncli c + 1 - 1) with (ncli c) by lia.
  assert ((ncli c + 1 =? 1) && negb (intena c2 =? 0) = hw_if (sy_hw (sc_sys s))) as Hb.
  { change (intena c2) with (intena (opened (sc_sys s) c)). unfold opened.
    destruct (Z.eqb_spec (ncli c) 0) as [->|E].
    - simpl. by destruct (hw_if _).
    - destruct (Z.eqb_spec (ncli c + 1) 1); [lia|]. rewrite Hif by lia. done. }
  rewrite Hb. split; [eapply same_sched_put; [apply Hinv2|done]|]. split; [done|].
  assert (cli_inv (set_if (hw_if (sy_hw (sc_sys s))) (put_cpu r (set_ncli (ncli c) c2) s2)) r (set_ncli (ncli c) c2)) as H3.
  { split; [eapply on_cpu_put; [apply Hinv2|done]|]. split; [done|]. cbn [ncli set_ncli]. intros. simpl. by apply Hif. }
  split; [split; [done|]; by eexists|]. intros c' [_ Hd']. destruct Hc as [_ Hd]. rewrite Hd in Hd'. injection Hd' as <-.
  by eexists.
Qed.

(** * Load *)

Section load.
Context {LK : Linker}.

Lemma queues_same s s' fl ls : same_sched s s' → queues s fl ls → queues s' fl ls.
Proof.
  intros (Ek & _ & Hall) (Hf & Hnd & Hp & Hq). unfold queues. rewrite Ek.
  split; [done|]. split; [done|]. split; [done|]. apply Forall2_lookup. intros i.
  pose proof (proj1 (Forall2_lookup _ _ _) Hall i) as Ha.
  pose proof (proj1 (Forall2_lookup _ _ _) Hq i) as Hb.
  inversion Ha as [c c' (E1 & E2 & _) Hc Hc'|Hc Hc']; rewrite <- Hc in Hb;
    inversion Hb as [? l [Hl Hn]|]; constructor. rewrite E1, E2. done.
Qed.

(** CPU [i] takes part in the scheduling. *)
Definition running (s : system) (i : nat) (c : percpu) : Prop :=
  (i < Z.to_nat (ncpu s))%nat ∧ percpus s !! i = Some c ∧ started c = true.

(** The result of the search is the first of the least loaded running CPUs. *)
Definition least_loaded (s : system) (r : Z) : Prop :=
  (∃ i c, r = Z.of_nat i ∧ running s i c ∧
     ∀ j cj, running s j cj → num_threads c < num_threads cj ∨
       (num_threads c = num_threads cj ∧ (i ≤ j)%nat)) ∨
  (r = 0 ∧ ∀ j cj, ¬ running s j cj).

Lemma least_loaded_loop_result s n i mn mc :
  (i + n = Z.to_nat (ncpu s))%nat → (Z.to_nat (ncpu s) ≤ length (percpus s))%nat →
  (∀ j c, running s j c → num_threads c < UINT32_MAX) →
  ((mn = UINT32_MAX ∧ mc = 0 ∧ ∀ j c, (j < i)%nat → ¬ running s j c) ∨
   ∃ k c, mc = Z.of_nat k ∧ mn = num_threads c ∧ running s k c ∧
     (∀ j cj, (j < i)%nat → running s j cj → num_threads c < num_threads cj ∨
       (num_threads c = num_threads cj ∧ (k ≤ j)%nat)) ∧ (k < i)%nat) →
  least_loaded s (least_loaded_loop (percpus s) i n mn mc).
Proof.
  revert i mn mc. induction n as [|n IH]; intros i mn mc Hi Hlen Hmax Hacc; cbn [least_loaded_loop].
  { assert (i = Z.to_nat (ncpu s)) as Ei by lia. destruct Hacc as [(_ & -> & H)|(k & c & -> & _ & Hk & H & _)].
    - right. split; [done|]. intros j cj Hj. apply (H j cj); [rewrite Ei; apply Hj|done].
    - left. exists k, c. split; [done|]. split; [done|]. intros j cj Hj. apply H; [rewrite Ei; apply Hj|done]. }
  destruct (lookup_lt_is_Some_2 (percpus s) i) as [c Hc]; [lia|]. rewrite Hc.
  assert (∀ j cj, (j < S i)%nat → running s j cj → (j < i)%nat ∨ (j = i ∧ cj = c)) as Hlast.
  { intros j cj Hj (_ & Hcj & _). destruct (decide (j = i)) as [->|]; [right; by simplify_eq|left; lia]. }
  destruct (started c) eqn:Es; simpl andb.
  2: { apply IH; [lia|done|done|]. destruct Hacc as [(? & ? & H)|(k & c' & ? & ? & ? & H & ?)].
    - left. split_and!; try done. intros j cj Hj Hr. destruct (Hlast j cj Hj Hr) as [?|[-> ->]]; [by eapply H|].
      destruct Hr as (_ & _ & ?). congruence.
    - right. exists k, c'. split_and!; try done; [|lia]. intros j cj Hj Hr.
      destruct (Hlast j cj Hj Hr) as [?|[-> ->]]; [by apply H|]. destruct Hr as (_ & _ & ?). congruence. }
  assert (running s i c) as Hrun by (split_and!; [lia|done|done]).
  destruct (Z.ltb_spec (num_threads c) mn) as [Hlt|Hge]; apply IH; try done; try lia.
  - right. exists i, c. split_and!; try done; [|lia]. intros j cj Hj Hr.
    destruct (Hlast j cj Hj Hr) as [Hji|[-> ->]]; [|right; lia].
    destruct Hacc as [(_ & _ & H)|(k & c' & _ & -> & _ & H & _)]; [by destruct (H j cj Hji)|].
    left. destruct (H j cj Hji Hr); lia.
  - destruct Hacc as [(-> & _ & _)|(k & c' & ? & -> & ? & H & ?)]; [specialize (Hmax i c Hrun); lia|].
    right. exists k, c'. split_and!; try done; [|lia]. intros j cj Hj Hr.
    destruct (Hlast j cj Hj Hr) as [?|[-> ->]]; [by apply H|lia].
Qed.

Lemma queue_length_bound k fl h l : queue_ok k fl h l → Z.of_nat (length l) < UINT32_MAX - 1.
Proof.
  intros Hq. apply queue_fuel in Hq. unfold ring_fuel, count_fuel in Hq.
  change (PHYSTOP / PGSIZE) with 32768 in Hq. unfold UINT32_MAX. lia.
Qed.

Lemma queues_load s fl ls i c :
  queues s fl ls → percpus s !! i = Some c →
  ∃ l, ls !! i = Some l ∧ num_threads c = Z.of_nat (length l) ∧ num_threads c < UINT32_MAX - 1.
Proof.
  intros Hq Hi. pose proof Hq as (_ & _ & _ & Hall).
  destruct (Forall2_lookup_l _ _ _ _ _ Hall Hi) as (l & Hl & _). exists l.
  destruct (queues_lookup _ _ _ _ _ _ Hq Hi Hl) as [Hok ->].
  split; [done|]. split; [done|]. by eapply queue_length_bound.
Qed.

Lemma find_least_loaded_result s fl ls :
  queues s fl ls → (Z.to_nat (ncpu s) ≤ length (percpus s))%nat →
  least_loaded s (sched_find_least_loaded s).
Proof.
  intros Hq Hlen. apply least_loaded_loop_result; [lia|done|..].
  - intros j c (_ & Hc & _). destruct (queues_load _ _ _ _ _ Hq Hc) as (l & _ & _ & ?). lia.
  - left. split_and!; try done. lia.
Qed.
End load.

(** * Adding and removing threads *)

Section operations.
Context {LK : Linker}.

(** The page of the thread [t] is neither free nor a node of a queue. *)
Definition thread_page (t : Z) (fl : list Z) (ls : list (list (Z * Z))) : Prop :=
  page_ok t ∧ t ∉ (concat ls).*1 ++ fl.

Lemma change_state_mem s t st :
  on_kmem (change_thread_state t st) s =
  Ret ((), set_kmem (set_mem (store32 (km_mem (sy_kmem s)) (t + TH_STATE) (state_code st)) (sy_kmem s)) s).
Proof. done. Qed.

Lemma change_state_others m t v : page_ok t → others_kept m (store32 m (t + TH_STATE) v) [t].
Proof.
  intros Ht. eapply others_kept_page; [done|left|].
  eapply only_changes_sub; [apply store_changes|..]; unfold TH_STATE, PGSIZE; lia.
Qed.

Lemma runnable_store m t : thread_runnable (store32 m (t + TH_STATE) (state_code RUNNABLE)) t = true.
Proof. unfold thread_runnable, load32, store32. by rewrite load_store_same. Qed.

Lemma runnable_agree m m' t : agree m m' t PGSIZE → thread_runnable m' t = thread_runnable m t.
Proof.
  intros Ha. unfold thread_runnable, load32. rewrite (load_agree m m'); [done|].
  eapply agree_sub; [exact Ha|..]; unfold TH_STATE, PGSIZE; lia.
Qed.

(** Taking pages off the free list and writing to them changes no queue. *)
Lemma queues_kmem s k' used fl ls :
  queues s (used ++ fl) ls → free_list k' fl → others_kept (km_mem (sy_kmem s)) (km_mem k') used →
  queues (set_kmem k' s) fl ls.
Proof.
  intros (Hf & Hnd & Hp & Hall) Hf' Ho. rewrite NoDup_app in Hnd. destruct Hnd as (Hnd1 & Hdis & Hnd2).
  apply NoDup_app in Hnd2 as (_ & _ & Hnd2).
  split; [done|]. split.
  { apply NoDup_app. split; [done|]. split; [|done]. intros x Hx Hin. apply (Hdis x Hx), elem_of_app. by right. }
  split; [done|]. apply Forall2_lookup. intros i. pose proof (proj1 (Forall2_lookup _ _ _) Hall i) as Hi.
  simpl (percpus _). destruct (ls !! i) as [l|] eqn:Hl; inversion Hi as [c ? [Hq Hn]|]; constructor.
  split; [|done]. eapply queue_frame; [|done].
  assert (∀ x, x ∈ l.*1 → x ∈ (concat ls).*1) as Hsub.
  { intros x Hx. destruct (concat_split ls i l l Hl) as [-> _]. rewrite fmap_app, elem_of_app. by left. }
  eapply others_kept_pages; [done|..].
  - apply Forall_forall. intros x Hx. apply (proj1 (Forall_forall _ _) Hp). by apply Hsub.
  - intros x Hx Hu. apply (Hdis x (Hsub x Hx)), elem_of_app. by left.
Qed.

Lemma unlocked_kmem s r k :
  unlocked s r → unlocked (Sched (sched_lock s) (sched_initialized s) (set_kmem k (sc_sys s))) r.
Proof.
  intros [Hw [c Hc]]. split; [done|].
  destruct (cli_inv_queues _ _ _ _ (queues_only_kmem (sc_sys s) k) Hc) as (q & n & Hc'). by eexists.
Qed.

(** Writing to pages that are not the queues' changes no queue. *)
Lemma queues_other_pages s m' fl ls ps :
  queues s fl ls → (∀ p, p ∈ ps → p ∉ (concat ls).*1 ++ fl) → others_kept (km_mem (sy_kmem s)) m' ps →
  queues (set_kmem (set_mem m' (sy_kmem s)) s) fl ls.
Proof.
  intros (Hf & Hnd & Hp & Hall) Hps Ho. split; [|split; [done|split; [done|]]].
  - eapply free_list_frame; [done|]. eapply others_kept_pages; [done|apply Hf|].
    intros q Hq Hin. apply (Hps q Hin), elem_of_app. by right.
  - apply Forall2_lookup. intros i. pose proof (proj1 (Forall2_lookup _ _ _) Hall i) as Hi.
    simpl (percpus _). destruct (ls !! i) as [l|] eqn:Hl; inversion Hi as [c ? [Hq Hn]|]; constructor.
    split; [|done]. eapply queue_frame; [|done].
    assert (∀ x, x ∈ l.*1 → x ∈ (concat ls).*1) as Hsub.
    { intros x Hx. destruct (concat_split ls i l l Hl) as [-> _]. rewrite fmap_app, elem_of_app. by left. }
    eapply others_kept_pages; [done|..].
    + apply Forall_forall. intros x Hx. apply (proj1 (Forall_forall _ _) Hp). by apply Hsub.
    + intros x Hx Hin. apply (Hps x Hin), elem_of_app. left. by apply Hsub.
Qed.

Lemma queues_other_page s m' fl ls t :
  queues s fl ls → thread_page t fl ls → others_kept (km_mem (sy_kmem s)) m' [t] →
  queues (set_kmem (set_mem m' (sy_kmem s)) s) fl ls.
Proof. intros Hq [_ Ht]. apply queues_other_pages; [done|]. by intros p ->%list_elem_of_singleton. Qed.

(** Appending to one queue. *)
Lemma queues_add s p fl ls i l t :
  queues s (p :: fl) ls → ls !! i = Some l → 0 ≤ t < 2 ^ 64 →
  ∃ s', runqueue_add_unlocked (Cpu i) t s = Ret ((), s') ∧ queues_only s s' ∧
    queues s' fl (<[i := l ++ [(p, t)]]> ls) ∧
    others_kept (km_mem (sy_kmem s)) (km_mem (sy_kmem s')) (p :: l.*1).
Proof.
  intros Hq Hl Ht. pose proof Hq as (_ & _ & _ & Hall).
  destruct (Forall2_lookup_r _ _ _ _ _ Hall Hl) as (c & Hi & _).
  destruct (queues_lookup _ _ _ _ _ _ Hq Hi Hl) as [Hok Hn].
  destruct (runqueue_add_result _ _ _ _ _ _ _ Hi Hok Ht) as (k' & E & Hok' & Ho).
  eexists. split; [exact E|]. split; [by apply queues_only_put|]. split; [|done].
  apply (queues_update s (p :: fl) ls i c l); try done.
  - apply queue_length_bound in Hok. cbn [num_threads requeue set_queue].
    rewrite Hn, length_app. simpl. rewrite u32_small; unfold UINT32_MAX in *; lia.
  - rewrite fmap_fst_snoc, <- app_assoc. done.
  - eapply others_kept_sub; [|exact Ho]. intros q. rewrite elem_of_app, !elem_of_cons. tauto.
Qed.

(** The CPU that [sched_add_thread] chooses. *)
Definition add_target (s : system) (cpu_index : Z) : Z :=
  if cpu_index <? 0 then sched_find_least_loaded s else cpu_index.

Lemma least_loaded_same s s' : same_sched s s' → sched_find_least_loaded s' = sched_find_least_loaded s.
Proof.
  intros (_ & En & Hall). unfold sched_find_least_loaded. rewrite En.
  generalize 0%nat UINT32_MAX 0. induction (Z.to_nat (ncpu s)) as [|n IH]; intros i mn mc; [done|].
  cbn [least_loaded_loop]. pose proof (proj1 (Forall2_lookup _ _ _) Hall i) as Hi.
  inversion Hi as [c c' (_ & E1 & E2 & _)|]; [|done]. rewrite E1, E2. by case_match.
Qed.

Lemma add_body s fl ls p i l t :
  queues s (p :: fl) ls → ls !! i = Some l → thread_page t (p :: fl) ls →
  ∃ s1 s', on_kmem (change_thread_state t RUNNABLE) s = Ret ((), s1) ∧
    runqueue_add_unlocked (Cpu i) t s1 = Ret ((), s') ∧ queues_only s s' ∧
    queues s' fl (<[i := l ++ [(p, t)]]> ls) ∧ thread_runnable (km_mem (sy_kmem s')) t = true ∧
    others_kept (store32 (km_mem (sy_kmem s)) (t + TH_STATE) (state_code RUNNABLE))
      (km_mem (sy_kmem s')) (p :: l.*1).
Proof.
  intros Hq Hl Ht. pose proof Ht as [Hpt Hnin].
  pose proof (queues_other_page s _ _ _ _ Hq Ht
    (change_state_others (km_mem (sy_kmem s)) t (state_code RUNNABLE) Hpt)) as Hq1.
  destruct (queues_add _ _ _ _ _ _ _ Hq1 Hl (page_ok_u64 _ Hpt)) as (s' & E & Ho & Hq' & Hk).
  eexists _, s'. split; [apply change_state_mem|]. split; [exact E|].
  split; [eapply queues_only_trans; [apply queues_only_kmem|exact Ho]|]. split; [done|]. split; [|exact Hk].
  rewrite (runnable_agree (store32 (km_mem (sy_kmem s)) (t + TH_STATE) (state_code RUNNABLE)));
    [apply runnable_store|]. apply Hk; [done|]. intros Hin. apply Hnin.
  destruct (concat_split ls i l l Hl) as [-> _].
  rewrite fmap_app, !elem_of_app, !elem_of_cons in *. tauto.
Qed.

Lemma on_sys_ret {A} (c : M system A) s a sys :
  c (sc_sys s) = Ret (a, sys) →
  on_sys c s = Ret (a, Sched (sched_lock s) (sched_initialized s) sys).
Proof. intros E. unfold on_sys. by rewrite E. Qed.

(** The critical section of [sched_add_thread] on the CPU [i]. *)
Lemma add_section s r p fl ls i l t :
  unlocked s r → queues (sc_sys s) (p :: fl) ls → ls !! i = Some l → thread_page t (p :: fl) ls →
  ∃ s1 s', with_sched_lock (acquire_spinlock 1) s = Ret ((), s1) ∧
    same_sched (sc_sys s) (sc_sys s1) ∧
    (do* on_sys (on_kmem (change_thread_state t RUNNABLE)) in
     do* on_sys (runqueue_add_unlocked (Cpu i) t) in
     with_sched_lock release_spinlock) s1 = Ret ((), s') ∧
    unlocked s' r ∧ queues (sc_sys s') fl (<[i := l ++ [(p, t)]]> ls) ∧
    thread_runnable (km_mem (sy_kmem (sc_sys s'))) t = true ∧
    hw_if (sy_hw (sc_sys s')) = hw_if (sy_hw (sc_sys s)) ∧ ncpu (sc_sys s') = ncpu (sc_sys s) ∧
    others_kept (store32 (km_mem (sy_kmem (sc_sys s))) (t + TH_STATE) (state_code RUNNABLE))
      (km_mem (sy_kmem (sc_sys s'))) (p :: l.*1) ∧ same_roles (sc_sys s) (sc_sys s').
Proof.
  intros Hu Hq Hl Ht. destruct (locked_section s r Hu) as (lk1 & s1 & Ea & Hs1 & Hrel).
  destruct (add_body s1 fl ls p i l t (queues_same _ _ _ _ Hs1 Hq) Hl Ht)
    as (s2 & s3 & E2 & E3 & Hqo & Hq3 & Hrun & Hkept).
  destruct (Hrel s3 Hqo) as (s4 & Er & Hs4 & Hif & Hu4 & _).
  eexists _, _. split; [exact Ea|]. split; [done|].
  split; [rewrite (bind_ret _ _ _ _ _ (on_sys_ret _ (Sched lk1 (sched_initialized s) s1) _ _ E2)),
    (bind_ret _ _ _ _ _ (on_sys_ret _ (Sched lk1 (sched_initialized s) s2) _ _ E3)); exact Er|].
  split; [done|]. split; [by eapply queues_same|].
  assert (same_roles (sc_sys s) s4) as Hroles.
  { eapply same_roles_trans; [by apply same_sched_roles|]. eapply same_roles_trans; [by apply queues_only_roles|by apply same_sched_roles]. }
  destruct Hs1 as (Ek1 & En1 & _), Hqo as (En3 & _), Hs4 as (Ek & En4 & _). cbn [sc_sys]. rewrite Ek, <- Ek1.
  split; [done|]. split; [done|]. split; [congruence|]. split; [done|exact Hroles].
Qed.

(** [sched_add_thread] with the index of a CPU. *)
Lemma sched_add_to_result s r p fl ls i l t :
  unlocked s r → queues (sc_sys s) (p :: fl) ls → ls !! i = Some l → thread_page t (p :: fl) ls →
  Z.of_nat i < ncpu (sc_sys s) →
  ∃ s', sched_add_thread t (Z.of_nat i) s = Ret ((), s') ∧
    unlocked s' r ∧ queues (sc_sys s') fl (<[i := l ++ [(p, t)]]> ls) ∧
    thread_runnable (km_mem (sy_kmem (sc_sys s'))) t = true ∧
    hw_if (sy_hw (sc_sys s')) = hw_if (sy_hw (sc_sys s)) ∧ ncpu (sc_sys s') = ncpu (sc_sys s) ∧
    others_kept (store32 (km_mem (sy_kmem (sc_sys s))) (t + TH_STATE) (state_code RUNNABLE))
      (km_mem (sy_kmem (sc_sys s'))) (p :: l.*1) ∧ same_roles (sc_sys s) (sc_sys s').
Proof.
  intros Hu Hq Hl Ht Hn. pose proof (page_ok_nonzero _ (proj1 Ht)) as Ht0.
  destruct (add_section s r p fl ls i l t Hu Hq Hl Ht) as (s1 & s' & Ea & Hs1 & E & Hrest).
  exists s'. split; [|done]. unfold sched_add_thread. destruct (Z.eqb_spec t 0) as [?|_]; [done|].
  rewrite (bind_ret _ _ _ _ _ Ea), bind_get. destruct (Z.ltb_spec (Z.of_nat i) 0); [lia|].
  destruct Hs1 as (_ & -> & _). destruct (Z.leb_spec (ncpu (sc_sys s)) (Z.of_nat i)); [lia|].
  by rewrite Nat2Z.id.
Qed.

(** C20. [sched_add_thread] marks the thread runnable and appends it, in a page of
    the allocator, to the queue of the CPU it is asked for, or, for a negative
    index, to the queue of the first of the least loaded running CPUs (CPU 0
    when none runs yet); the counters stay the lengths of the queues, the lock
    is free again and the interrupt flag as before.  A null thread and an index
    out of range panic. *)
Theorem sched_add_thread_spec s r p fl ls t cpu_index :
  unlocked s r → queues (sc_sys s) (p :: fl) ls → thread_page t (p :: fl) ls →
  0 < ncpu (sc_sys s) ≤ Z.of_nat (length (percpus (sc_sys s))) →
  sched_add_thread 0 cpu_index s = Panic "sched_add_thread: null thread" ∧
  if ncpu (sc_sys s) <=? cpu_index
  then sched_add_thread t cpu_index s = Panic "sched_add_thread: invalid cpu_index"
  else ∃ i l s', ls !! i = Some l ∧
    (if cpu_index <? 0 then least_loaded (sc_sys s) (Z.of_nat i) else cpu_index = Z.of_nat i) ∧
    sched_add_thread t cpu_index s = Ret ((), s') ∧ unlocked s' r ∧
    queues (sc_sys s') fl (<[i := l ++ [(p, t)]]> ls) ∧
    thread_runnable (km_mem (sy_kmem (sc_sys s'))) t = true ∧
    hw_if (sy_hw (sc_sys s')) = hw_if (sy_hw (sc_sys s)).
Proof.
  intros Hu Hq Ht Hn. split; [done|]. pose proof (page_ok_nonzero _ (proj1 Ht)) as Ht0.
  assert (length ls = length (percpus (sc_sys s))) as Hlen.
  { destruct Hq as (_ & _ & _ & Hall). by rewrite (Forall2_length _ _ _ Hall). }
  unfold sched_add_thread. destruct (Z.eqb_spec t 0) as [?|_]; [done|].
  destruct (Z.leb_spec (ncpu (sc_sys s)) cpu_index) as [Hge|Hlt].
  - destruct (locked_section s r Hu) as (lk1 & s1 & Ea & Hs1 & Hrel).
    rewrite (bind_ret _ _ _ _ _ Ea), bind_get.
    destruct (Z.ltb_spec cpu_index 0); [lia|]. destruct Hs1 as (_ & En & _). cbn [sc_sys]. rewrite En.
    destruct (Z.leb_spec (ncpu (sc_sys s)) cpu_index); [|lia].
    destruct (Hrel s1 (queues_only_refl s1)) as (s3 & Er & _). by rewrite (bind_ret _ _ _ _ _ Er).
  - pose proof (find_least_loaded_result _ _ _ Hq ltac:(lia)) as Hll.
    set (i := Z.to_nat (add_target (sc_sys s) cpu_index)).
    assert (0 ≤ add_target (sc_sys s) cpu_index < ncpu (sc_sys s)) as Hi.
    { unfold add_target. destruct (Z.ltb_spec cpu_index 0); [|lia].
      destruct Hll as [(j & c & -> & (Hj & _) & _)|[-> _]]; lia. }
    destruct (lookup_lt_is_Some_2 ls i) as [l Hl]; [lia|].
    destruct (add_section s r p fl ls i l t Hu Hq Hl Ht) as (s1 & s' & Ea & Hs1 & E & Hrest).
    exists i, l, s'. split; [done|]. split.
    { unfold i, add_target in *. destruct (Z.ltb_spec cpu_index 0); rewrite Z2Nat.id by lia; done. }
    split; [|tauto]. rewrite (bind_ret _ _ _ _ _ Ea), bind_get.
    rewrite (least_loaded_same _ _ Hs1). destruct Hs1 as (_ & -> & _).
    destruct (Z.leb_spec (ncpu (sc_sys s)) cpu_index); [lia|].
    subst i. unfold add_target in E. by destruct (cpu_index <? 0).
Qed.

Lemma remove_first_some t l n l' :
  remove_first t l = Some (n, l') →
  ∃ l1 l2, l = l1 ++ (n, t) :: l2 ∧ l' = l1 ++ l2 ∧ (t ∉ l1.*2).
Proof.
  revert l'. induction l as [|[n0 d] l IH]; intros l'; [done|]. cbn [remove_first].
  destruct (Z.eqb_spec d t) as [->|Hne].
  - intros [= -> ->]. exists [], l'. split_and!; try done. apply not_elem_of_nil.
  - destruct (remove_first t l) as [[n' l'']|]; [|done]. intros [= -> <-].
    destruct (IH _ eq_refl) as (l1 & l2 & -> & -> & Hn). exists ((n0, d) :: l1), l2.
    split_and!; [done|done|]. cbn [fmap list_fmap snd]. rewrite not_elem_of_cons. split; congruence || done.
Qed.

Lemma remove_first_none t l : remove_first t l = None → t ∉ l.*2.
Proof.
  induction l as [|[n0 d] l IH]; [intros _; apply not_elem_of_nil|]. cbn [remove_first].
  destruct (Z.eqb_spec d t) as [->|Hne]; [done|].
  destruct (remove_first t l) as [[n' l'']|]; [done|]. intros _.
  cbn [fmap list_fmap snd]. rewrite not_elem_of_cons. split; [congruence|by apply IH].
Qed.

(** Removing from one queue. *)
Lemma queues_remove s fl ls i l t :
  queues s fl ls → ls !! i = Some l →
  match remove_first t l with
  | None => runqueue_remove_unlocked (Cpu i) t s = Ret (false, s)
  | Some (n, l') =>
      ∃ s', runqueue_remove_unlocked (Cpu i) t s = Ret (true, s') ∧ queues_only s s' ∧
        queues s' (n :: fl) (<[i := l']> ls) ∧
        others_kept (km_mem (sy_kmem s)) (km_mem (sy_kmem s')) l.*1 ∧
        outside_kept (km_mem (sy_kmem s)) (km_mem (sy_kmem s')) l.*1
  end.
Proof.
  intros Hq Hl. pose proof Hq as (_ & _ & _ & Hall).
  destruct (Forall2_lookup_r _ _ _ _ _ Hall Hl) as (c & Hi & _).
  destruct (queues_lookup _ _ _ _ _ _ Hq Hi Hl) as [Hok Hn].
  pose proof (runqueue_remove_result s i c fl t l Hi Hok) as Hrem.
  destruct (remove_first t l) as [[n l']|] eqn:Er; [|done].
  destruct Hrem as (k' & E & Hok' & Ho & Hout). eexists. split; [exact E|].
  split; [by apply queues_only_put|]. split; [|split; [exact Ho|exact Hout]].
  destruct (remove_first_some _ _ _ _ Er) as (l1 & l2 & -> & -> & _).
  apply (queues_update s fl ls i c (l1 ++ (n, t) :: l2)); try done.
  - apply queue_length_bound in Hok. cbn [num_threads requeue set_queue].
    rewrite Hn in *. rewrite !length_app in *. simpl in *.
    rewrite u32_small; unfold UINT32_MAX in *; lia.
  - rewrite !fmap_app. cbn [fmap list_fmap fst]. by rewrite <- !Permutation_middle.
  - eapply others_kept_sub; [|exact Ho]. intros q Hq'. apply elem_of_app. by left.
Qed.

(** [t] is taken out of the first queue from [i] on that holds it. *)
Definition taken_out (t : Z) (fl : list Z) (ls : list (list (Z * Z))) (i n : nat) (s' : system) : Prop :=
  (∃ j l1 nd l2, (i ≤ j < n)%nat ∧ ls !! j = Some (l1 ++ (nd, t) :: l2) ∧ (t ∉ l1.*2) ∧
     (∀ k l, (i ≤ k < j)%nat → ls !! k = Some l → t ∉ l.*2) ∧
     queues s' (nd :: fl) (<[j := l1 ++ l2]> ls)) ∨
  ((∀ k l, (i ≤ k < n)%nat → ls !! k = Some l → t ∉ l.*2) ∧ queues s' fl ls).

Lemma remove_from_cpus_result s fl ls t n i :
  queues s fl ls → (i + n ≤ length ls)%nat →
  ∃ s', remove_from_cpus i n t s = Ret ((), s') ∧ queues_only s s' ∧ taken_out t fl ls i (i + n) s'.
Proof.
  intros Hq. revert i. induction n as [|n IH]; intros i Hlen; cbn [remove_from_cpus].
  { exists s. split; [done|]. split; [apply queues_only_refl|]. right. split; [lia|done]. }
  destruct (lookup_lt_is_Some_2 ls i) as [l Hl]; [lia|].
  pose proof (queues_remove s fl ls i l t Hq Hl) as Hrem.
  destruct (remove_first t l) as [[nd l']|] eqn:Er.
  - destruct Hrem as (s' & E & Ho & Hq' & _). rewrite (bind_ret _ _ _ _ _ E).
    exists s'. split; [done|]. split; [done|]. left.
    destruct (remove_first_some _ _ _ _ Er) as (l1 & l2 & -> & -> & Hn).
    exists i, l1, nd, l2. split_and!; try done; lia.
  - rewrite (bind_ret _ _ _ _ _ Hrem). apply remove_first_none in Er.
    destruct (IH (S i) ltac:(lia)) as (s' & E & Ho & Ht). exists s'. split; [done|]. split; [done|].
    replace (S i + n)%nat with (i + S n)%nat in Ht by lia.
    assert (∀ k lk, ((S i ≤ k)%nat → t ∉ lk.*2) → (i ≤ k)%nat → ls !! k = Some lk → t ∉ lk.*2) as Hext.
    { intros k lk Hk Hik Hlk. destruct (decide (k = i)) as [->|]; [by simplify_eq|apply Hk; lia]. }
    destruct Ht as [(j & l1 & nd & l2 & Hj & ? & ? & Hbefore & ?)|[Hnone ?]]; [left|right].
    + exists j, l1, nd, l2. split_and!; try done; try lia. intros k lk Hk Hlk.
      apply (Hext k); [|lia|done]. intros ?. apply (Hbefore k); [lia|done].
    + split; [|done]. intros k lk Hk Hlk. apply (Hext k); [|lia|done]. intros ?. apply (Hnone k); [lia|done].
Qed.

(** C21. [sched_remove_thread] takes the thread out of the first queue that holds
    it, returns the page of its node to the allocator, and changes nothing when
    no queue holds it; the lock is free again. *)
Theorem sched_remove_thread_spec s r fl ls t :
  unlocked s r → queues (sc_sys s) fl ls → t ≠ 0 →
  (Z.to_nat (ncpu (sc_sys s)) ≤ length (percpus (sc_sys s)))%nat →
  ∃ s', sched_remove_thread t s = Ret ((), s') ∧ unlocked s' r ∧
    taken_out t fl ls 0 (Z.to_nat (ncpu (sc_sys s))) (sc_sys s').
Proof.
  intros Hu Hq Ht Hn.
  assert (length ls = length (percpus (sc_sys s))) as Hlen.
  { destruct Hq as (_ & _ & _ & Hall). by rewrite (Forall2_length _ _ _ Hall). }
  unfold sched_remove_thread. destruct (Z.eqb_spec t 0) as [?|_]; [done|].
  destruct (locked_section s r Hu) as (lk1 & s1 & Ea & Hs1 & Hrel).
  rewrite (bind_ret _ _ _ _ _ Ea), bind_get. cbn [sc_sys].
  assert (ncpu s1 = ncpu (sc_sys s)) as En by apply Hs1. rewrite En.
  destruct (remove_from_cpus_result s1 fl ls t (Z.to_nat (ncpu (sc_sys s))) 0) as (s2 & E & Ho & Hto);
    [by eapply queues_same|lia|].
  rewrite (bind_ret _ _ _ _ _ (on_sys_ret _ (Sched lk1 (sched_initialized s) s1) _ _ E)).
  destruct (Hrel s2 Ho) as (s3 & Er & Hs3 & _ & Hu3 & _). eexists. split; [exact Er|]. split; [done|].
  cbn [sc_sys]. destruct Hto as [(j & l1 & nd & l2 & ? & ? & ? & ? & Hq')|[? Hq']]; [left|right].
  - exists j, l1, nd, l2. split_and!; try done; try lia. by eapply queues_same.
  - split; [done|]. by eapply queues_same.
Qed.
End operations.

(** * Picking the next thread *)

Section picking.
Context {LK : Linker}.

Lemma next_runnable_some m before l t l' :
  next_runnable m before l = Some (t, l') →
  ∃ l1 n l2, l = l1 ++ (n, t) :: l2 ∧ l' = l2 ++ before ++ l1 ++ [(n, t)] ∧
    thread_runnable m t = true ∧ Forall (λ t', thread_runnable m t' = false) l1.*2.
Proof.
  revert before. induction l as [|[n d] l IH]; intros before; [done|]. cbn [next_runnable].
  destruct (thread_runnable m d) eqn:Er.
  - intros [= -> <-]. exists [], n, l. repeat split; done || constructor.
  - intros (l1 & n' & l2 & -> & -> & Hr & Hall)%IH. exists ((n, d) :: l1), n', l2.
    split; [done|]. split; [by rewrite <- app_assoc|]. split; [done|]. by constructor.
Qed.

Lemma next_runnable_none m before l :
  next_runnable m before l = None → Forall (λ t', thread_runnable m t' = false) l.*2.
Proof.
  revert before. induction l as [|[n d] l IH]; intros before; [constructor|]. cbn [next_runnable].
  destruct (thread_runnable m d) eqn:Er; [done|]. intros H%IH. by constructor.
Qed.

Lemma sched_get_next_result s i c fl l (m := km_mem (sy_kmem s)) :
  on_cpu s (Cpu i) c → queue_ok (sy_kmem s) fl (run_queue c) l → (0 ∉ l.*2) →
  match next_runnable m [] l with
  | Some (t, l') =>
      sched_get_next s = Ret (t, put_cpu (Cpu i) (requeue l' (num_threads c) c) s) ∧
      queue_ok (sy_kmem s) fl (default 0 (hd_error l'.*1)) l'
  | None => sched_get_next s = Ret (idle_thread c, s)
  end.
Proof.
  intros [Hm Hd] Hq H0. assert (percpus s !! i = Some c) as Hi.
  { simpl in Hd. by destruct (percpus s !! i); simplify_eq. }
  pose proof (runqueue_get_next_result s i c fl l Hi Hq) as Hget. fold m in Hget.
  unfold sched_get_next. rewrite (bind_ret _ _ _ _ _ Hm).
  destruct (next_runnable m [] l) as [[t l']|] eqn:En.
  - destruct Hget as [E Hq']. split; [|done].
    destruct (next_runnable_some _ _ _ _ _ En) as (l1 & n & l2 & -> & _).
    rewrite (bind_ret _ _ _ _ _ E). destruct (Z.eqb_spec t 0) as [->|_]; [|done].
    destruct H0. rewrite fmap_app, elem_of_app. right. left.
  - rewrite (bind_ret _ _ _ _ _ Hget). change (negb (0 =? 0)) with false. cbv iota.
    by rewrite (bind_deref _ _ _ _ Hi).
Qed.

(** [sched_get_next] returns the first runnable thread of the executing
    CPU's queue and lets the queue start behind it, so that it comes last next
    time; when no thread of the queue is runnable it returns the idle thread and
    changes nothing. *)
Theorem sched_get_next_spec s i c fl l (m := km_mem (sy_kmem s)) :
  on_cpu s (Cpu i) c → queue_ok (sy_kmem s) fl (run_queue c) l → (0 ∉ l.*2) →
  (∃ l1 n t l2, l = l1 ++ (n, t) :: l2 ∧ thread_runnable m t = true ∧
     Forall (λ t', thread_runnable m t' = false) l1.*2 ∧
     let l' := l2 ++ l1 ++ [(n, t)] in
     sched_get_next s = Ret (t, put_cpu (Cpu i) (requeue l' (num_threads c) c) s) ∧
     queue_ok (sy_kmem s) fl (default 0 (hd_error l'.*1)) l') ∨
  (Forall (λ t', thread_runnable m t' = false) l.*2 ∧ sched_get_next s = Ret (idle_thread c, s)).
Proof.
  intros Hc Hq H0. pose proof (sched_get_next_result s i c fl l Hc Hq H0) as Hget. fold m in Hget.
  destruct (next_runnable m [] l) as [[t l']|] eqn:En; [left|right].
  - destruct (next_runnable_some _ _ _ _ _ En) as (l1 & n & l2 & -> & -> & Hr & Hall).
    by exists l1, n, t, l2.
  - split; [by eapply next_runnable_none|done].
Qed.

(** [n] calls in a row, and what they return. *)
Fixpoint picks (n : nat) : M system (list Z) :=
  match n with
  | O => ret []
  | S n =>
      let* t := sched_get_next in
      let* ts := picks n in
      ret (t :: ts)
  end.

Lemma picks_result s i c fl l1 l2 (m := km_mem (sy_kmem s)) :
  on_cpu s (Cpu i) c → queue_ok (sy_kmem s) fl (run_queue c) (l1 ++ l2) → (0 ∉ (l1 ++ l2).*2) →
  Forall (λ t, thread_runnable m t = true) l1.*2 →
  picks (length l1) s = Ret (l1.*2, put_cpu (Cpu i) (requeue (l2 ++ l1) (num_threads c) c) s).
Proof.
  intros Hc Hq H0 Hr. revert s m l2 c Hc Hq H0 Hr. induction l1 as [|[n t] l1 IH]; intros s m l2 c Hc Hq H0 Hr.
  - rewrite app_nil_r. cbn [length picks fmap list_fmap]. unfold ret. f_equal. f_equal. symmetry.
    destruct Hq as (_ & _ & _ & Hh & _). apply put_same. destruct Hc as [_ Hd]. rewrite Hd.
    unfold requeue. cbn [app] in Hh. rewrite <- Hh. by destruct c.
  - cbn [fmap list_fmap snd] in Hr. apply Forall_cons in Hr as [Ht Hr].
    pose proof (sched_get_next_result s i c fl _ Hc Hq H0) as Hget. fold m in Hget.
    cbn [app next_runnable] in Hget. rewrite Ht in Hget. destruct Hget as [E Hq'].
    cbn [length picks]. rewrite (bind_ret _ _ _ _ _ E).
    set (s1 := put_cpu _ _ s). rewrite <- app_assoc in Hq'.
    assert (on_cpu s1 (Cpu i) (requeue ((l1 ++ l2) ++ [(n, t)]) (num_threads c) c)) as Hc1.
    { rewrite <- (set_if_same s1 (hw_if (sy_hw s)) eq_refl). by eapply on_cpu_put. }
    assert (picks (length l1) s1 = Ret (l1.*2, put_cpu (Cpu i)
      (requeue ((l2 ++ [(n, t)]) ++ l1) (num_threads c) c) s1)) as E1.
    { apply (IH s1 (l2 ++ [(n, t)])) in Hc1; try done.
      - cbn [run_queue requeue set_queue]. by rewrite <- app_assoc.
      - rewrite app_assoc, fmap_app, elem_of_app. simpl in H0.
        rewrite not_elem_of_cons in H0. set_solver. }
    rewrite (bind_ret _ _ _ _ _ E1). subst s1. rewrite put_put, <- app_assoc. done.
Qed.

(** Round robin: when all threads of a queue stay runnable, as many calls of
    [sched_get_next] as there are threads return each of them once, in the order
    of the queue, and leave everything as it was. *)
Theorem sched_get_next_round_robin s i c fl l :
  on_cpu s (Cpu i) c → queue_ok (sy_kmem s) fl (run_queue c) l → (0 ∉ l.*2) →
  Forall (λ t, thread_runnable (km_mem (sy_kmem s)) t = true) l.*2 →
  picks (length l) s = Ret (l.*2, s).
Proof.
  intros Hc Hq H0 Hr. rewrite (picks_result s i c fl l []); try done; rewrite ?app_nil_r; try done.
  cbn [app]. f_equal. f_equal. apply put_same. destruct Hc as [_ Hd]. rewrite Hd.
  unfold requeue. destruct Hq as (_ & _ & _ & Hh & _). rewrite <- Hh. by destruct c.
Qed.
End picking.

(** * Balancing *)

Section balancing.
Context {LK : Linker}.

(** What the search over the CPUs below [i] has found. *)
Definition loads_ok (s : system) (i : nat) (a : loads) : Prop :=
  (a = Loads 0 0 UINT32_MAX 0 ∧ ∀ j c, (j < i)%nat → ¬ running s j c) ∨
  ((∃ k c, min_cpu a = Z.of_nat k ∧ running s k c ∧ min_load a = num_threads c) ∧
   (max_load a = 0 ∨ ∃ k c, max_cpu a = Z.of_nat k ∧ running s k c ∧ max_load a = num_threads c) ∧
   ∀ j c, (j < i)%nat → running s j c → min_load a ≤ num_threads c ≤ max_load a).

Lemma balance_loop_result s n i a :
  (i + n = Z.to_nat (ncpu s))%nat → (Z.to_nat (ncpu s) ≤ length (percpus s))%nat →
  (∀ j c, running s j c → 0 ≤ num_threads c < UINT32_MAX) →
  loads_ok s i a → loads_ok s (Z.to_nat (ncpu s)) (balance_loop (percpus s) i n a).
Proof.
  revert i a. induction n as [|n IH]; intros i a Hi Hlen Hmax Ha; cbn [balance_loop].
  { by replace (Z.to_nat (ncpu s)) with i by lia. }
  destruct (lookup_lt_is_Some_2 (percpus s) i) as [c Hc]; [lia|]. rewrite Hc.
  assert (∀ j cj, (j < S i)%nat → running s j cj → (j < i)%nat ∨ (j = i ∧ cj = c)) as Hlast.
  { intros j cj Hj (_ & Hcj & _). destruct (decide (j = i)) as [->|]; [right; by simplify_eq|left; lia]. }
  destruct (started c) eqn:Es; apply IH; try done; try lia.
  2: { destruct Ha as [[-> H]|(H1 & H2 & H)]; [left; split; [done|]|right; split; [done|split; [done|]]];
       intros j cj Hj Hr; (destruct (Hlast j cj Hj Hr) as [Hji|[-> ->]];
         [exact (H j cj Hji Hr)|destruct Hr as (_ & _ & ?); congruence]). }
  assert (running s i c) as Hrun by (split_and!; [lia|done|done]).
  pose proof (Hmax i c Hrun) as Hci.
  right. destruct Ha as [[-> H]|((k & ck & Hk & Hrk & Ek) & H2 & H)].
  - cbn [max_load min_load max_cpu min_cpu].
    assert (∀ j cj, (j < S i)%nat → running s j cj → num_threads cj = num_threads c) as Honly.
    { intros j cj Hj Hr. destruct (Hlast j cj Hj Hr) as [Hji|[-> ->]]; [|done]. by destruct (H j cj Hji). }
    destruct (Z.ltb_spec 0 (num_threads c)); cbn [max_load min_load max_cpu min_cpu];
      (destruct (Z.ltb_spec (num_threads c) UINT32_MAX); [|lia]); cbn [max_load min_load max_cpu min_cpu].
    + split; [by exists i, c|]. split; [right; by exists i, c|].
      intros j cj Hj Hr. rewrite (Honly j cj Hj Hr). lia.
    + split; [by exists i, c|]. split; [by left|].
      intros j cj Hj Hr. rewrite (Honly j cj Hj Hr). lia.
  - assert (∀ lo hi, lo ≤ min_load a → lo ≤ num_threads c → max_load a ≤ hi → num_threads c ≤ hi →
      ∀ j cj, (j < S i)%nat → running s j cj → lo ≤ num_threads cj ≤ hi) as Hall.
    { intros lo hi ? ? ? ? j cj Hj Hr. destruct (Hlast j cj Hj Hr) as [Hji|[-> ->]]; [|lia].
      specialize (H j cj Hji Hr). lia. }
    destruct (Z.ltb_spec (max_load a) (num_threads c)); cbn [max_load min_load max_cpu min_cpu];
      destruct (Z.ltb_spec (num_threads c) (min_load a)); cbn [max_load min_load max_cpu min_cpu];
      (split; [first [by exists i, c|by exists k, ck]|]); (split; [first [right; by exists i, c|done]|]);
      apply Hall; lia.
Qed.

(** A thread of the CPU [c] that may be migrated. *)
Definition movable (m : mem) (c : percpu) (t : Z) : bool :=
  negb (t =? current_thread c) && negb (t =? idle_thread c) && thread_runnable m t.

Lemma remove_first_elem t l : t ∈ l.*2 → ∃ n l', remove_first t l = Some (n, l').
Proof.
  intros Hin. destruct (remove_first t l) as [[n l']|] eqn:E; [by exists n, l'|].
  by apply remove_first_none in E.
Qed.

(** The thread [t] with its node moves from queue [i] to the end of queue [j]. *)
Definition migrated (ls : list (list (Z * Z))) (i j : nat) (l1 : list (Z * Z)) (n t : Z)
    (l2 lj : list (Z * Z)) : list (list (Z * Z)) :=
  <[j := lj ++ [(n, t)]]> (<[i := l1 ++ l2]> ls).

Lemma migrate_one s fl ls i j li lj t :
  queues s fl ls → ls !! i = Some li → ls !! j = Some lj → i ≠ j → t ∈ li.*2 →
  ∃ s' l1 n l2, (let* _ := runqueue_remove_unlocked (Cpu i) t in
      runqueue_add_unlocked (Cpu j) t) s = Ret ((), s') ∧
    queues_only s s' ∧ li = l1 ++ (n, t) :: l2 ∧ (t ∉ l1.*2) ∧
    queues s' fl (migrated ls i j l1 n t l2 lj).
Proof.
  intros Hq Hi Hj Hne Hin. destruct (remove_first_elem t li Hin) as (n & l' & Er).
  pose proof (queues_remove s fl ls i li t Hq Hi) as Hrem. rewrite Er in Hrem.
  destruct Hrem as (s1 & E1 & Ho1 & Hq1 & _).
  destruct (remove_first_some _ _ _ _ Er) as (l1 & l2 & -> & -> & Hn).
  assert (0 ≤ t < 2 ^ 64) as Ht.
  { pose proof Hq as (_ & _ & _ & Hall). destruct (Forall2_lookup_r _ _ _ _ _ Hall Hi) as (c & Hc & _).
    destruct (queues_lookup _ _ _ _ _ _ Hq Hc Hi) as [Hok _].
    rewrite <- (queue_data _ _ _ _ _ _ _ Hok). apply load64_range. }
  destruct (queues_add s1 n fl (<[i := l1 ++ l2]> ls) j lj t Hq1) as (s2 & E2 & Ho2 & Hq2 & _);
    [by rewrite list_lookup_insert_ne|done|].
  exists s2, l1, n, l2. split; [by rewrite (bind_ret _ _ _ _ _ E1)|].
  split; [by eapply queues_only_trans|]. done.
Qed.

(** What a run of the balancer does to the queues: nothing, or one migration. *)
Definition rebalanced (s : system) (c : percpu) (fl : list Z) (ls : list (list (Z * Z))) (i j : nat)
    (s' : system) : Prop :=
  (∃ l1 n t l2 lj, ls !! i = Some (l1 ++ (n, t) :: l2) ∧ ls !! j = Some lj ∧
     movable (km_mem (sy_kmem s)) c t = true ∧
     Forall (λ t', movable (km_mem (sy_kmem s)) c t' = false) l1.*2 ∧
     queues s' fl (migrated ls i j l1 n t l2 lj)) ∨
  (∃ l, ls !! i = Some l ∧ Forall (λ t', movable (km_mem (sy_kmem s)) c t' = false) l.*2 ∧
     queues s' fl ls).

Lemma split_first_eq {A B} (P : B → bool) (l1 l2 : list (A * B)) n t la n' lb :
  l1 ++ (n, t) :: l2 = la ++ (n', t) :: lb → (t ∉ la.*2) →
  Forall (λ x, P x = false) l1.*2 → P t = true → l1 = la ∧ n = n' ∧ l2 = lb.
Proof.
  revert la. induction l1 as [|[a b] l1 IH]; intros [|[a' b'] la] E Hn Hall Ht; simplify_list_eq.
  - done.
  - exfalso. apply Hn. left.
  - exfalso. cbn [fmap list_fmap snd] in Hall. apply Forall_cons in Hall as [Hb _]. congruence.
  - cbn [fmap list_fmap snd] in Hall, Hn. apply Forall_cons in Hall as [_ Hall].
    rewrite not_elem_of_cons in Hn. destruct Hn as [_ Hn].
    destruct (IH la) as (-> & -> & ->); done.
Qed.

Lemma migrate_loop_result fuel s fl ls i j c l1 n d l2 lj h :
  queues s fl ls → percpus s !! i = Some c → ls !! i = Some (l1 ++ (n, d) :: l2) → ls !! j = Some lj →
  i ≠ j → run_queue c = h → (length l2 < fuel)%nat →
  Forall (λ t', movable (km_mem (sy_kmem s)) c t' = false) l1.*2 →
  ∃ s', migrate_loop fuel (Cpu i) (Cpu j) h n s = Ret ((), s') ∧ queues_only s s' ∧
    rebalanced s c fl ls i j s'.
Proof.
  intros Hq Hc Hi Hj Hne Hh. revert fuel l1 n d Hi.
  induction l2 as [|[n2 d2] l2 IH]; intros [|fuel] l1 n d Hi Hfuel Hall; simpl in Hfuel; try lia;
    destruct (queues_lookup _ _ _ _ _ _ Hq Hc Hi) as [Hok _]; rewrite Hh in Hok;
    cbn [migrate_loop]; rewrite bind_rd64, (queue_data _ _ _ _ _ _ _ Hok), (bind_deref _ _ _ _ Hc), bind_get;
    destruct (queue_next _ _ _ _ _ _ _ Hok) as [Hnx Hend];
    fold (movable (km_mem (sy_kmem s)) c d); destruct (movable (km_mem (sy_kmem s)) c d) eqn:Em.
  1, 3: destruct (migrate_one s fl ls i j _ lj d Hq Hi Hj Hne) as (s' & la & n' & lb & E & Ho & El & Hn & Hq');
      [rewrite fmap_app, elem_of_app; right; left|]; exists s'; split; [exact E|]; split; [done|]; left;
      destruct (split_first_eq (movable (km_mem (sy_kmem s)) c) _ _ _ _ _ _ _ El Hn Hall Em) as (-> & -> & <-);
      by eexists la, n', d, _, lj.
  - rewrite bind_rd64. change (load64 _ _) with (nx (km_mem (sy_kmem s)) n).
    destruct (Z.eqb_spec (nx (km_mem (sy_kmem s)) n) h) as [_|E]; [|destruct E; by apply Hend].
    exists s. split; [done|]. split; [apply queues_only_refl|]. right. eexists. split; [exact Hi|].
    split; [|done]. rewrite fmap_app. apply Forall_app. split; [done|]. by repeat constructor.
  - rewrite bind_rd64. change (load64 _ _) with (nx (km_mem (sy_kmem s)) n).
    destruct (Z.eqb_spec (nx (km_mem (sy_kmem s)) n) h) as [E|_]; [by apply Hend in E|].
    rewrite Hnx. cbn [fmap list_fmap fst hd_error default]. simpl (default _ _).
    apply (IH fuel (l1 ++ [(n, d)]) n2 d2); [by rewrite <- app_assoc|lia|].
    rewrite fmap_app. apply Forall_app. split; [done|]. by repeat constructor.
Qed.

Lemma same_running s s' i c : same_sched s s' → running s i c →
  ∃ c', percpus s' !! i = Some c' ∧ same_view c c'.
Proof.
  intros (_ & _ & Hall) (_ & Hi & _). destruct (Forall2_lookup_l _ _ _ _ _ Hall Hi) as (c' & ? & ?).
  by exists c'.
Qed.

(** The critical section of [sched_balance], between CPUs with different loads. *)
Lemma balance_section s r fl ls i j c cj :
  unlocked s r → queues (sc_sys s) fl ls → running (sc_sys s) i c → running (sc_sys s) j cj →
  num_threads cj + 2 ≤ num_threads c →
  ∃ s', (do* with_sched_lock (acquire_spinlock 1) in
    let* c := on_sys (deref (Cpu i)) in
    do* (if negb (run_queue c =? 0) && (1 <? num_threads c)
         then on_sys (migrate_loop ring_fuel (Cpu i) (Cpu j) (run_queue c) (run_queue c))
         else ret ()) in
    with_sched_lock release_spinlock) s = Ret ((), s') ∧ unlocked s' r ∧
    rebalanced (sc_sys s) c fl ls i j (sc_sys s').
Proof.
  intros Hu Hq Hi Hj Hload. destruct (locked_section s r Hu) as (lk1 & s1 & Ea & Hs1 & Hrel).
  pose proof (queues_same _ _ _ _ Hs1 Hq) as Hq1.
  destruct (same_running _ _ _ _ Hs1 Hi) as (c1 & Hc1 & (V1 & V2 & V3 & V4 & V5 & _)).
  destruct (queues_load _ _ _ _ _ Hq (proj1 (proj2 Hi))) as (li & Hli & Ei & _).
  destruct (queues_load _ _ _ _ _ Hq (proj1 (proj2 Hj))) as (lj & Hlj & Ej & _).
  destruct (queues_lookup _ _ _ _ _ _ Hq1 Hc1 Hli) as [Hok Hn1].
  rewrite (bind_ret _ _ _ _ _ Ea).
  rewrite (bind_ret _ _ _ c1 (Sched lk1 (sched_initialized s) s1));
    [|unfold on_sys, deref; cbn [sc_sys]; by rewrite Hc1].
  destruct li as [|[n d] l]; [simpl in Ei; lia|].
  destruct (queue_without _ _ _ [] _ _ _ Hok) as (Hn & _).
  assert (run_queue c1 = n) as Hh by apply Hok.
  rewrite Hh. destruct (Z.eqb_spec n 0) as [->|_]; [by apply page_ok_nonzero in Hn|].
  rewrite V2. destruct (Z.ltb_spec 1 (num_threads c)); [|lia]. cbn [negb andb].
  pose proof (queue_fuel _ _ _ _ Hok) as Hfuel. simpl in Hfuel.
  destruct (migrate_loop_result ring_fuel s1 fl ls i j c1 [] n d l lj n) as (s2 & E & Ho & Hreb);
    try done; [|lia|].
  { intros ->. destruct Hi as (_ & E1 & _), Hj as (_ & E2 & _). simplify_eq. lia. }
  rewrite (bind_ret _ _ _ _ _ (on_sys_ret _ (Sched lk1 (sched_initialized s) s1) _ _ E)).
  destruct (Hrel s2 Ho) as (s3 & Er & Hs3 & _ & Hu3 & _). eexists. split; [exact Er|]. split; [done|].
  destruct Hs1 as (Ek & _). cbn [sc_sys]. unfold rebalanced in Hreb. rewrite Ek in Hreb.
  assert (∀ t, movable (km_mem (sy_kmem (sc_sys s))) c1 t = movable (km_mem (sy_kmem (sc_sys s))) c t) as Hmv
    by (intros t; unfold movable; by rewrite V4, V5).
  destruct Hreb as [(l1 & n' & t & l2 & lj' & ? & ? & Ht & Hall & Hq2)|(l' & ? & Hall & Hq2)]; [left|right].
  - exists l1, n', t, l2, lj'. rewrite Hmv in Ht. split_and!; try done; [|by eapply queues_same].
    eapply Forall_impl; [exact Hall|]. intros x; cbv beta; by rewrite Hmv.
  - exists l'. split_and!; try done; [|by eapply queues_same].
    eapply Forall_impl; [exact Hall|]. intros x; cbv beta; by rewrite Hmv.
Qed.

(** C23. [sched_balance] does nothing while the loads of the running CPUs differ by
    less than two; otherwise it moves one thread (the first that is runnable
    and neither current nor idle) from a most loaded CPU to the end of the queue
    of a least loaded one, if there is such a thread.  No thread is lost or
    duplicated, no page is leaked, and the lock is free again. *)
Theorem sched_balance_spec s r fl ls :
  unlocked s r → queues (sc_sys s) fl ls →
  (Z.to_nat (ncpu (sc_sys s)) ≤ length (percpus (sc_sys s)))%nat →
  (sched_balance s = Ret ((), s) ∧
   ∀ i j c cj, running (sc_sys s) i c → running (sc_sys s) j cj →
     num_threads c < num_threads cj + LOAD_BALANCE_THRESHOLD) ∨
  (∃ i j c cj s', running (sc_sys s) i c ∧ running (sc_sys s) j cj ∧
     (∀ k ck, running (sc_sys s) k ck → num_threads cj ≤ num_threads ck ≤ num_threads c) ∧
     num_threads cj + LOAD_BALANCE_THRESHOLD ≤ num_threads c ∧
     sched_balance s = Ret ((), s') ∧ unlocked s' r ∧
     rebalanced (sc_sys s) c fl ls i j (sc_sys s')).
Proof.
  intros Hu Hq Hlen. unfold sched_balance. rewrite bind_get.
  assert (∀ j c, running (sc_sys s) j c → 0 ≤ num_threads c < UINT32_MAX) as Hmax.
  { intros j c (_ & Hc & _). destruct (queues_load _ _ _ _ _ Hq Hc) as (l & _ & ? & ?). lia. }
  pose proof (balance_loop_result (sc_sys s) (Z.to_nat (ncpu (sc_sys s))) 0 (Loads 0 0 UINT32_MAX 0)
    eq_refl Hlen Hmax ltac:(left; split; [done|lia])) as Ha.
  set (a := balance_loop _ _ _ _) in *.
  destruct Ha as [[-> Hnone]|((k & ck & Ek & Hrk & Emin) & Hmaxcpu & Hall)].
  { left. split; [done|]. intros i j c cj Hi _. by destruct (Hnone i c (proj1 Hi)). }
  assert (∀ j c, running (sc_sys s) j c → min_load a ≤ num_threads c ≤ max_load a) as Hb
    by (intros j c Hr; apply (Hall j c); [apply Hr|done]).
  pose proof (Hb k ck Hrk) as Hbk. pose proof (Hmax k ck Hrk) as Hmk.
  assert (max_load a < UINT32_MAX) as Hmx.
  { destruct Hmaxcpu as [->|(k' & c' & _ & Hr' & ->)]; [done|]. by apply (Hmax k' c'). }
  unfold UINT32_MAX in *. rewrite u32_small by lia. unfold LOAD_BALANCE_THRESHOLD in *.
  destruct (Z.ltb_spec (max_load a - min_load a) 2) as [Hlt|Hge].
  - left. split; [done|]. intros i j c cj Hi Hj. pose proof (Hb i c Hi). pose proof (Hb j cj Hj). lia.
  - right. destruct Hmaxcpu as [E|(i & c & Ei & Hri & Emax)]; [lia|].
    destruct (balance_section s r fl ls i k c ck Hu Hq Hri Hrk ltac:(lia)) as (s' & E & Hu' & Hreb).
    exists i, k, c, ck, s'. split; [done|]. split; [done|].
    split; [intros j cj Hj; rewrite <- Emin, <- Emax; by apply (Hb j)|]. split; [lia|].
    split; [|done]. rewrite Ei, Ek, !Nat2Z.id. exact E.
Qed.
End balancing.

(** * Witnesses *)

(** Two running CPUs, code executed by the first; three pages are free, and the
    pages 0x500000 and 0x600000 hold runnable threads. *)
Definition demo_smp_cpu (i : Z) : percpu :=
  Percpu (Some (Cpu (Z.to_nat i))) i i (i =? 0) true 0 0 0 0x700000 0 0 0 true 0 tss_zero 0 0 gdt_zero
    (GdtPtr 0 0).
Definition demo_smp : system :=
  System (Kmem (store32 (store32 (km_mem demo_pages) (0x500000 + TH_STATE) 1)
            (0x600000 + TH_STATE) 1) 0x300000)
    [demo_smp_cpu 0; demo_smp_cpu 1] 2 [0; 1] (demo_smp_cpu 0) true (demo_processor 0).

Lemma demo_smp_queues : queues (LK := demo_linker) demo_smp [0x300000; 0x200000; 0x400000] [[]; []].
Proof.
  split; [|split; [|split]].
  - split_and!; [vm_compute; done| |].
    + apply (bool_decide_unpack _). vm_compute. exact I.
    + repeat constructor; vm_compute; congruence.
  - apply (bool_decide_unpack _). vm_compute. exact I.
  - constructor.
  - repeat constructor.
Qed.

(** ... with both threads in the queue of the first CPU. *)
Definition state_of (o : outcome (() * system)) : system :=
  match o with Ret (_, s) => s | _ => demo_smp end.
Definition demo_smp1 : system := state_of (runqueue_add_unlocked (Cpu 0) 0x500000 demo_smp).
Definition demo_smp2 : system := state_of (runqueue_add_unlocked (Cpu 0) 0x600000 demo_smp1).

Lemma demo_smp2_queues : queues (LK := demo_linker) demo_smp2 [0x400000]
  [[(0x300000, 0x500000); (0x200000, 0x600000)]; []].
Proof.
  destruct (queues_add _ _ _ _ 0 [] 0x500000 demo_smp_queues eq_refl ltac:(lia)) as (s1 & E1 & _ & H1 & _).
  assert (s1 = demo_smp1) as -> by (unfold demo_smp1; by rewrite E1).
  destruct (queues_add _ _ _ _ 0 _ 0x600000 H1 eq_refl ltac:(lia)) as (s2 & E2 & _ & H2 & _).
  assert (s2 = demo_smp2) as -> by (unfold demo_smp2; by rewrite E2).
  exact H2.
Qed.

Definition demo_sched (s : system) : sched := Sched (Spinlock 0 "sched") true s.

Lemma demo_unlocked s c :
  on_cpu s (Cpu 0) c → 0 = ncli c → unlocked (demo_sched s) (Cpu 0).
Proof.
  intros Hc Hn. split; [reflexivity|]. exists c. by apply cli_inv_outside.
Qed.

Lemma demo_smp2_eq :
  ∃ k, demo_smp2 = put_cpu (Cpu 0) (set_queue 0x300000 2 (demo_smp_cpu 0)) (set_kmem k demo_smp).
Proof.
  destruct (queues_lookup _ _ _ 0 _ _ demo_smp_queues eq_refl eq_refl) as [Hok _].
  destruct (runqueue_add_result demo_smp 0 _ _ _ 0x500000 _ eq_refl Hok ltac:(lia)) as (k1 & E1 & Hok1 & _).
  assert (demo_smp1 = put_cpu (Cpu 0) (set_queue 0x300000 1 (demo_smp_cpu 0)) (set_kmem k1 demo_smp)) as Es1
    by (unfold demo_smp1; by rewrite E1).
  destruct (runqueue_add_result (LK := demo_linker) demo_smp1 0 (set_queue 0x300000 1 (demo_smp_cpu 0)) 0x200000 [0x400000]
    0x600000 [(0x300000, 0x500000)]) as (k2 & E2 & _); [by rewrite Es1|by rewrite Es1|lia|].
  exists k2. unfold demo_smp2. rewrite E2, Es1. reflexivity.
Qed.

Lemma demo_smp2_cpu : on_cpu demo_smp2 (Cpu 0) (set_queue 0x300000 2 (demo_smp_cpu 0)).
Proof. destruct demo_smp2_eq as [k ->]. split; reflexivity. Qed.

(** The threads are still runnable. *)
Lemma demo_smp2_runnable t : t = 0x500000 ∨ t = 0x600000 →
  thread_runnable (km_mem (sy_kmem demo_smp2)) t = true.
Proof. intros [-> | ->]; vm_compute; reflexivity. Qed.

Lemma demo_smp2_unlocked : unlocked (demo_sched demo_smp2) (Cpu 0).
Proof. by apply (demo_unlocked _ _ demo_smp2_cpu). Qed.

Lemma sched_add_thread_spec_witness :
  ∃ s', sched_add_thread 0x600000 1 (demo_sched demo_smp) = Ret ((), s') ∧
    unlocked s' (Cpu 0) ∧
    queues (LK := demo_linker) (sc_sys s') [0x200000; 0x400000] [[]; [(0x300000, 0x600000)]].
Proof.
  destruct (sched_add_thread_spec (LK := demo_linker) (demo_sched demo_smp) (Cpu 0) 0x300000
    [0x200000; 0x400000] [[]; []] 0x600000 1) as [_ (i & l & s' & Hl & Hi & E & Hu & Hq & _)].
  - apply (demo_unlocked _ (demo_smp_cpu 0)); [split; reflexivity|reflexivity].
  - exact demo_smp_queues.
  - split; [split; vm_compute; done|]. apply (bool_decide_unpack _). vm_compute. exact I.
  - simpl. lia.
  - exists s'. change (1 <? 0) with false in Hi. cbv iota in Hi. assert (i = 1%nat) as -> by lia.
    injection Hl as <-. split; [exact E|]. split; [exact Hu|exact Hq].
Defined.

Lemma sched_remove_thread_spec_witness :
  ∃ s', sched_remove_thread (LK := demo_linker) 0x600000 (demo_sched demo_smp2) = Ret ((), s') ∧
    unlocked s' (Cpu 0).
Proof.
  destruct (sched_remove_thread_spec (LK := demo_linker) (demo_sched demo_smp2) (Cpu 0) _ _ 0x600000
    demo_smp2_unlocked demo_smp2_queues) as (s' & E & Hu & _).
  - lia.
  - destruct demo_smp2_eq as [k ->]. simpl. lia.
  - exists s'. split; [exact E|exact Hu].
Defined.

Lemma demo_smp2_queue : queue_ok (LK := demo_linker) (sy_kmem demo_smp2) [0x400000] 0x300000
  [(0x300000, 0x500000); (0x200000, 0x600000)].
Proof.
  apply (queues_lookup _ _ _ 0 (set_queue 0x300000 2 (demo_smp_cpu 0)) _ demo_smp2_queues); [|reflexivity].
  destruct demo_smp2_eq as [k ->]. reflexivity.
Qed.

Lemma sched_get_next_spec_witness :
  sched_get_next demo_smp2 =
    Ret (0x500000, put_cpu (Cpu 0) (set_queue 0x200000 2 (demo_smp_cpu 0)) demo_smp2).
Proof.
  destruct (sched_get_next_spec (LK := demo_linker) demo_smp2 0 _ _ _ demo_smp2_cpu demo_smp2_queue)
    as [(l1 & n & t & l2 & El & Ht & Hl1 & E & _)|[Hnone _]].
  - apply (bool_decide_unpack _). vm_compute. exact I.
  - destruct l1 as [|[n1 t1] l1].
    + injection El as <- <- <-. exact E.
    + exfalso. injection El as <- <- _. apply Forall_cons in Hl1 as [Hf _].
      rewrite demo_smp2_runnable in Hf by tauto. discriminate Hf.
  - exfalso. apply Forall_cons in Hnone as [Hf _]. rewrite demo_smp2_runnable in Hf by tauto.
    discriminate Hf.
Defined.

Lemma sched_get_next_round_robin_witness : picks 2 demo_smp2 = Ret ([0x500000; 0x600000], demo_smp2).
Proof.
  apply (sched_get_next_round_robin (LK := demo_linker) demo_smp2 0 _ _ _ demo_smp2_cpu demo_smp2_queue).
  - apply (bool_decide_unpack _). vm_compute. exact I.
  - repeat constructor; apply demo_smp2_runnable; tauto.
Defined.

Lemma sched_balance_spec_witness :
  ∃ i j s', (i, j) = (0%nat, 1%nat) ∧
    sched_balance (LK := demo_linker) (demo_sched demo_smp2) = Ret ((), s') ∧ unlocked s' (Cpu 0).
Proof.
  destruct (sched_balance_spec (LK := demo_linker) (demo_sched demo_smp2) (Cpu 0) _ _
    demo_smp2_unlocked demo_smp2_queues) as [[_ H]|(i & j & c & cj & s' & Hi & Hj & _ & Hd & E & Hu & _)].
  - destruct demo_smp2_eq as [k ->]. simpl. lia.
  - exfalso. specialize (H 0%nat 1%nat (set_queue 0x300000 2 (demo_smp_cpu 0)) (demo_smp_cpu 1)).
    destruct demo_smp2_eq as [k Ek]. cbn [demo_sched sc_sys] in H. rewrite Ek in H.
    assert (2 < 0 + 2); [|lia]. apply H; (split; [simpl; lia|split; reflexivity]).
  - exists 0%nat, 1%nat, s'. split; [reflexivity|]. split; [exact E|exact Hu].
Defined.
