(* ===== verification/SchedRound.v ===== *)
(** * One round of the scheduler

    What [sched_run], [sched_yield] and [sched_exit] ([kernel/sched/smp_sched.c])
    do to the queues, the threads and the CPU up to their switch of contexts. *)

From S2P Require Import Prelude Memory Kalloc Ring Threads Context Percpu Spinlock SmpSched.

Section round.
Context {LK : Linker}.

(** ** The executing CPU *)

(** The queues see of the CPUs only the heads and the numbers of the threads. *)
Lemma queues_put s fl ls i c c' :
  queues s fl ls → percpus s !! i = Some c → run_queue c' = run_queue c → num_threads c' = num_threads c →
  queues (put_cpu (Cpu i) c' s) fl ls.
Proof.
  intros (Hf & Hnd & Hp & Hall) Hi E1 E2. split; [done|]. split; [done|]. split; [done|].
  apply Forall2_lookup. intros j. cbn [put_cpu set_percpus percpus sy_kmem]. pose proof (proj1 (Forall2_lookup _ _ _) Hall j) as Hj.
  destruct (decide (i = j)) as [<-|Hne].
  - rewrite list_lookup_insert_eq by (by eapply lookup_lt_Some). rewrite Hi in Hj. inversion Hj as [? l [Hq Hn]|]; subst.
    constructor. by rewrite E1, E2.
  - by rewrite list_lookup_insert_ne.
Qed.

Lemma on_cpu_update s i c c' : on_cpu s (Cpu i) c → apic_id c' = apic_id c →
  on_cpu (put_cpu (Cpu i) c' s) (Cpu i) c'.
Proof.
  intros Hc E. rewrite <- (set_if_same (put_cpu (Cpu i) c' s) (hw_if (sy_hw s)) eq_refl). by eapply on_cpu_put.
Qed.

Lemma on_cpu_kmem s k i c : on_cpu s (Cpu i) c → on_cpu (set_kmem k s) (Cpu i) c.
Proof.
  intros [Hm Hd]. split.
  - revert Hm. unfold mycpu, bind, get, get_apic_id, gets, ret. cbn.
    destruct (percpu_fully_initialized s); cbn; [|congruence].
    destruct (apic_to_cpu s !! _) as [z|]; [|done]. destruct (_ || _); [destruct (find_apic_id _ _ _ _)|]; congruence.
  - cbn [deref percpus set_kmem] in *. destruct (percpus s !! i); [|done]. by injection Hd as <-.
Qed.

Lemma on_cpu_lookup s i c : on_cpu s (Cpu i) c → percpus s !! i = Some c.
Proof. intros [_ Hd]. cbn [deref] in Hd. destruct (percpus s !! i); [|done]. by injection Hd as <-. Qed.

(** ** Picking *)

(** The first thread of the queue is runnable: it becomes the current thread,
    the queue starts behind it, and the scheduler switches to its context with
    interrupts on. *)
Lemma run_round_picks s i c fl ls n t l (m := km_mem (sy_kmem s)) :
  on_cpu s (Cpu i) c → queues s fl ls → ls !! i = Some ((n, t) :: l) → (0 ∉ ((n, t) :: l).*2) →
  thread_page t fl ls → thread_runnable m t = true →
  ∃ s' q, sched_run_round s = Ret (Switch (inl (Cpu i)) (load64 m (t + TH_CONTEXT)), s') ∧
    queues s' fl (<[i := l ++ [(n, t)]]> ls) ∧ on_cpu s' (Cpu i) (set_current t (set_queue q (num_threads c) c)) ∧
    hw_if (sy_hw s') = true ∧ ncpu s' = ncpu s ∧ km_mem (sy_kmem s') = store32 m (t + TH_STATE) (state_code ON_CPU).
Proof.
  intros Hc Hq Hl H0 Htp Hrun. pose proof Htp as [Pt Htn]. pose proof (page_ok_nonzero _ Pt) as Ht0.
  assert (on_cpu (set_if true s) (Cpu i) c) as Hc1.
  { rewrite <- (put_same (Cpu i) c s) by apply Hc. by eapply on_cpu_put. }
  destruct (queues_lookup _ _ _ _ _ _ Hq (on_cpu_lookup _ _ _ Hc) Hl) as [Hqk Hn].
  pose proof (sched_get_next_result (set_if true s) i c fl _ Hc1 Hqk H0) as Hget. cbn [next_runnable app] in Hget.
  change (km_mem (sy_kmem (set_if true s))) with m in Hget. rewrite Hrun in Hget. destruct Hget as [E Hqk'].
  set (l' := l ++ [(n, t)]) in *. set (c1 := requeue l' (num_threads c) c) in *. set (s1 := put_cpu (Cpu i) c1 (set_if true s)) in *.
  assert (on_cpu s1 (Cpu i) c1) as Hcs1 by (by apply (on_cpu_update _ _ c)).
  assert (queues s1 fl (<[i := l']> ls)) as Hq1.
  { apply (queues_update (set_if true s) fl ls i c ((n, t) :: l) (sy_kmem s) c1 l' fl); try done.
    - by apply on_cpu_lookup.
    - unfold l'. rewrite length_app. cbn [num_threads c1 requeue set_queue]. rewrite Hn. cbn [length]. f_equal. lia.
    - unfold l'. rewrite fmap_fst_snoc, <- app_assoc. cbn [fmap list_fmap fst app]. change (list_fmap _ _ fst l) with l.*1.
      by rewrite Permutation_middle. }
  assert (thread_page t fl (<[i := l']> ls)) as Htp1.
  { split; [done|]. destruct (concat_split ls i _ l' Hl) as [H1 H2]. rewrite H1 in Htn. rewrite H2.
    assert ((n, t) :: l ≡ₚ l') as Hp by (unfold l'; by rewrite <- Permutation_cons_append). by rewrite <- Hp. }
  set (c2 := set_current t c1). set (s2 := put_cpu (Cpu i) c2 s1).
  assert (queues s2 fl (<[i := l']> ls)) as Hq2 by (eapply queues_put; [exact Hq1|by apply on_cpu_lookup|done|done]).
  set (m' := store32 m (t + TH_STATE) (state_code ON_CPU)).
  pose proof (queues_other_page s2 m' fl _ t Hq2 Htp1 (change_state_others m t (state_code ON_CPU) Pt)) as Hq3.
  set (s3 := set_kmem (set_mem m' (sy_kmem s2)) s2) in *.
  exists s3, (default 0 (hd_error l'.*1)). split; [|split; [exact Hq3|split; [|done]]].
  - unfold sched_run_round. rewrite (bind_ret _ _ _ _ _ (proj1 Hc)). unfold sti. unfold bind at 1, modify at 1.
    rewrite (bind_ret _ _ _ _ _ E). rewrite (proj2 (Z.eqb_neq t 0)) by done. cbn [negb].
    rewrite (bind_update _ _ _ _ _ (proj2 Hcs1)). fold c2 s2.
    rewrite (bind_ret _ _ _ _ _ (change_state_mem s2 t ON_CPU)). rewrite bind_rd64. cbn [km_mem sy_kmem set_kmem set_mem].
    unfold ret. do 3 f_equal. apply load64_agree. eapply only_changes_agree; [apply (store_changes _ (t + TH_STATE) 4)|].
    unfold TH_CONTEXT, TH_STATE. lia.
  - by apply on_cpu_kmem, (on_cpu_update _ _ c1).
Qed.

(** The queue is empty: the scheduler switches to the idle thread. *)
Lemma run_round_idles s i c fl ls t (m := km_mem (sy_kmem s)) :
  on_cpu s (Cpu i) c → queues s fl ls → ls !! i = Some [] → idle_thread c = t → thread_page t fl ls →
  ∃ s', sched_run_round s = Ret (Switch (inl (Cpu i)) (load64 m (t + TH_CONTEXT)), s') ∧
    queues s' fl ls ∧ on_cpu s' (Cpu i) (set_current t c) ∧ km_mem (sy_kmem s') = store32 m (t + TH_STATE) (state_code ON_CPU).
Proof.
  intros Hc Hq Hl Ht Htp. pose proof Htp as [Pt Htn]. pose proof (page_ok_nonzero _ Pt) as Ht0.
  assert (on_cpu (set_if true s) (Cpu i) c) as Hc1.
  { rewrite <- (put_same (Cpu i) c s) by apply Hc. by eapply on_cpu_put. }
  destruct (queues_lookup _ _ _ _ _ _ Hq (on_cpu_lookup _ _ _ Hc) Hl) as [Hqk Hn].
  pose proof (sched_get_next_result (set_if true s) i c fl _ Hc1 Hqk ltac:(apply not_elem_of_nil)) as E. cbn [next_runnable] in E.
  set (s2 := put_cpu (Cpu i) (set_current t c) (set_if true s)). set (m' := store32 m (t + TH_STATE) (state_code ON_CPU)).
  assert (queues s2 fl ls) as Hq2 by (apply (queues_put (set_if true s) fl ls i c); [exact Hq|by apply on_cpu_lookup|done|done]).
  pose proof (queues_other_page s2 m' fl _ t Hq2 Htp (change_state_others m t (state_code ON_CPU) Pt)) as Hq3.
  exists (set_kmem (set_mem m' (sy_kmem s2)) s2). split; [|split; [exact Hq3|split; [|done]]].
  - unfold sched_run_round. rewrite (bind_ret _ _ _ _ _ (proj1 Hc)). unfold sti. unfold bind at 1, modify at 1.
    rewrite (bind_ret _ _ _ _ _ E). rewrite Ht, (proj2 (Z.eqb_neq t 0)) by done. cbn [negb].
    rewrite (bind_update _ _ _ _ _ (proj2 Hc1)). fold s2.
    rewrite (bind_ret _ _ _ _ _ (change_state_mem s2 t ON_CPU)). rewrite bind_rd64. cbn [km_mem sy_kmem set_kmem set_mem].
    unfold ret. do 3 f_equal. apply load64_agree. eapply only_changes_agree; [apply (store_changes _ (t + TH_STATE) 4)|].
    unfold TH_CONTEXT, TH_STATE. lia.
  - by apply on_cpu_kmem, (on_cpu_update _ _ c).
Qed.

(** ** Leaving *)

Lemma yield_result s i c t (m := km_mem (sy_kmem s)) :
  on_cpu s (Cpu i) c → current_thread c = t → t ≠ 0 → t ≠ idle_thread c →
  sched_yield s = Ret (Switch (inr (t + TH_CONTEXT)) (scheduler_ctx c),
    set_kmem (set_mem (store32 m (t + TH_STATE) (state_code RUNNABLE)) (sy_kmem s)) s).
Proof.
  intros [Hm Hd] Hcur H0 Hi. unfold sched_yield. rewrite (bind_ret _ _ _ _ _ Hm), (bind_ret _ _ _ _ _ Hd), Hcur.
  rewrite !(proj2 (Z.eqb_neq _ _)) by done. cbn [orb]. by rewrite (bind_ret _ _ _ _ _ (change_state_mem s t RUNNABLE)).
Qed.

Lemma remove_queue_end t n (l : list (Z * Z)) : (t ∉ l.*2) → remove_first t (l ++ [(n, t)]) = Some (n, l).
Proof.
  induction l as [|[n0 d] l IH]; intros H; cbn [app remove_first]; [by rewrite Z.eqb_refl|].
  cbn [fmap list_fmap snd] in H. apply not_elem_of_cons in H as [H1 H2]. rewrite (proj2 (Z.eqb_neq d t)) by congruence. by rewrite IH.
Qed.

(** The current thread, the last of its queue, marks itself as exited and takes
    itself out of the queue; the page of its node is free, its own are not. *)
Lemma exit_result s i c fl ls t n l (m := km_mem (sy_kmem s)) :
  on_cpu s (Cpu i) c → queues s fl ls → ls !! i = Some (l ++ [(n, t)]) → (t ∉ l.*2) → thread_page t fl ls →
  current_thread c = t → t ≠ idle_thread c →
  ∃ s' q k, sched_exit s = Ret (Switch (inr (t + TH_CONTEXT)) (scheduler_ctx c), s') ∧
    queues s' (n :: fl) (<[i := l]> ls) ∧ on_cpu s' (Cpu i) (set_current 0 (set_queue q k c)) ∧
    load32 (km_mem (sy_kmem s')) (t + TH_STATE) = state_code EXIT ∧
    others_kept m (km_mem (sy_kmem s')) (t :: (l ++ [(n, t)]).*1) ∧
    agree (store32 m (t + TH_STATE) (state_code EXIT)) (km_mem (sy_kmem s')) t PGSIZE ∧
    outside_kept m (km_mem (sy_kmem s')) (t :: (l ++ [(n, t)]).*1).
Proof.
  intros Hc Hq Hl Hnt Htp Hcur Hi. pose proof Htp as [Pt Htn]. pose proof (page_ok_nonzero _ Pt) as Ht0.
  set (m1 := store32 m (t + TH_STATE) (state_code EXIT)). set (s1 := set_kmem (set_mem m1 (sy_kmem s)) s).
  pose proof (change_state_others m t (state_code EXIT) Pt) as Ho1. fold m1 in Ho1.
  pose proof (queues_other_page s m1 fl ls t Hq Htp Ho1) as Hq1. fold s1 in Hq1.
  pose proof (queues_remove s1 fl ls i _ t Hq1 Hl) as Hrem. rewrite (remove_queue_end t n l Hnt) in Hrem.
  destruct Hrem as (s2 & E2 & Hqo & Hq2 & Ho2 & Hout). cbn [sy_kmem s1 set_kmem set_mem km_mem] in Ho2, Hout.
  assert (on_cpu s1 (Cpu i) c) as Hc1 by (by apply on_cpu_kmem).
  destruct (on_cpu_queues _ _ _ _ Hqo Hc1) as (q & k & Hc2).
  assert (t ∉ (l ++ [(n, t)]).*1) as Htl.
  { intros Hin. apply Htn, elem_of_app. left. destruct (concat_split ls i _ [] Hl) as [-> _]. rewrite fmap_app, elem_of_app. by left. }
  pose proof (proj1 Ho2 t Pt Htl) as Hag.
  exists (put_cpu (Cpu i) (set_current 0 (set_queue q k c)) s2), q, k.
  split; [|split; [|split; [|split; [|split; [|split; [exact Hag|]]]]]].
  - unfold sched_exit. rewrite (bind_ret _ _ _ _ _ (proj1 Hc)), (bind_ret _ _ _ _ _ (proj2 Hc)), Hcur.
    rewrite !(proj2 (Z.eqb_neq _ _)) by done. cbn [orb]. rewrite (bind_ret _ _ _ _ _ (change_state_mem s t EXIT)). fold m m1 s1.
    rewrite (bind_ret _ _ _ _ _ E2). rewrite (bind_update _ _ _ _ _ (proj2 Hc2)).
    rewrite (bind_ret _ _ _ _ _ (deref_put _ _ _ _ (proj2 Hc2))). done.
  - eapply queues_put; [exact Hq2|by apply on_cpu_lookup|done|done].
  - by apply (on_cpu_update _ _ (set_queue q k c)).
  - cbn [put_cpu set_percpus sy_kmem]. unfold load32. rewrite (load_agree m1); [unfold m1, store32; by rewrite load_store_same|].
    eapply agree_sub; [exact Hag|unfold TH_STATE, PGSIZE; lia..].
  - cbn [put_cpu set_percpus sy_kmem]. eapply others_kept_trans; (eapply others_kept_sub; [|first [exact Ho1|exact Ho2]]).
    + intros x ->%list_elem_of_singleton. left.
    + intros x Hx. by right.
  - cbn [put_cpu set_percpus sy_kmem]. intros b Hb. rewrite Hout by (intros p Hp; apply Hb; by right).
    pose proof (Hb t ltac:(left)). apply (store_changes m (t + TH_STATE) 4). unfold TH_STATE, PGSIZE in *. lia.
Qed.

Lemma idle_yield_result s i c : on_cpu s (Cpu i) c →
  idle_yield s = Ret (Switch (inr (idle_thread c + TH_CONTEXT)) (scheduler_ctx c), s).
Proof. intros [Hm Hd]. unfold idle_yield. by rewrite (bind_ret _ _ _ _ _ Hm), (bind_ret _ _ _ _ _ Hd). Qed.
End round.
