(* ===== verification/Switching.v ===== *)
(** * Threads that run in turn on one CPU

    The scheduler's loop and the bodies of the kernel's threads run on stacks of
    their own and hand the CPU to each other with [switch_context].  This file
    has the code between two switches - of [sched_run]
    ([kernel/sched/smp_sched.c]), of the idle thread, and of [demo_thread_func]
    ([kernel/main.c]) - and the switch itself, on the memory of the stacks.  What
    the compiler decides is a parameter: the addresses of the code, and, for
    every switch, the registers, the depth of the stack and what else has been
    written to it. *)

From S2P Require Import Prelude Memory Kalloc Ring Threads Context Percpu Spinlock SmpSched.

(** ** Places in the code *)

(** The functions that threads start with, and the return addresses of the calls
    of [switch_context] in [sched_yield], [sched_exit], [sched_run] and
    [idle_yield]. *)
Class RunSymbols := {
  demo_thread_func : Z;
  idle_thread_func : Z;
  after_yield : Z;
  after_exit : Z;
  after_run : Z;
  after_idle : Z;
  symbols_range : Forall (λ a, 0 ≤ a < 2 ^ 64)
    [demo_thread_func; idle_thread_func; after_yield; after_exit; after_run; after_idle];
  symbols_distinct : NoDup [demo_thread_func; idle_thread_func; after_yield; after_exit; after_run; after_idle]
}.

(** Where code goes on, with the variables that it goes on with. *)
Inductive point :=
  | InSched                            (** in the loop of [sched_run] *)
  | DemoStart (arg : Z)                (** at the start of [demo_thread_func] *)
  | DemoYield (thread_id i : Z)        (** behind [sched_yield] in round [i] *)
  | DemoExit (thread_id : Z)           (** behind the switch in [sched_exit] *)
  | DemoHalt (thread_id : Z)           (** in the loop behind [sched_exit] *)
  | IdleStart                          (** at the start of [idle_thread_func] *)
  | IdleYield.                         (** behind [idle_yield] *)

(** The messages on the serial port. *)
Inductive event :=
  | Running (thread_id cpu i : Z)      (** Thread %d running on CPU %d (tick %d) *)
  | Finished (thread_id : Z)           (** Thread %d finished *)
  | Exited (thread cpu : Z).           (** Thread %p exited on CPU %d *)

(** The system, the code that runs, the places of the suspended code by the
    address of its context, and the messages. *)
Record run := Run {
  ru_sys : system;
  ru_now : point;
  ru_saved : gmap Z point;
  ru_log : list event
}.

(** What the compiled code has done when it calls [switch_context]: the words it
    has written to its stack, the stack pointer with the return address on top,
    and the registers. *)
Record frame := Frame {
  fr_writes : list (Z * Z);
  fr_sp : Z;
  fr_regs : list Z
}.

Section code.
Context {LK : Linker} {RS : RunSymbols}.

(** The address at which the code goes on. *)
Definition label (p : point) : Z :=
  match p with
  | InSched => after_run
  | DemoStart _ => demo_thread_func
  | DemoYield _ _ => after_yield
  | DemoExit _ | DemoHalt _ => after_exit
  | IdleStart => idle_thread_func
  | IdleYield => after_idle
  end.

Definition on_run {A} (c : M system A) : M run A := λ s,
  match c (ru_sys s) with
  | Ret (a, sys) => Ret (a, Run sys (ru_now s) (ru_saved s) (ru_log s))
  | Panic msg => Panic msg
  | Undef => Undef
  | OutOfFuel => OutOfFuel
  end.
Definition log (e : event) : M run () := modify (λ s, Run (ru_sys s) (ru_now s) (ru_saved s) (ru_log s ++ [e])).
Definition go_on (p : point) : M run () := modify (λ s, Run (ru_sys s) p (ru_saved s) (ru_log s)).

(** ** The switch *)

(** The code that a context leads to: a thread that starts has its argument in
    rdi, other code its variables where it left them. *)
Definition resume (saved : gmap Z point) (ctx rip : Z) (regs : list Z) : option point :=
  if rip =? demo_thread_func then DemoStart <$> regs !! RDI
  else if rip =? idle_thread_func then Some IdleStart
  else p ← saved !! ctx; if label p =? rip then Some p else None.

(** The stack when the registers have been pushed, and the context's address. *)
Definition pushed (m : mem) (here : point) (regs : list Z) (fr : frame) : mem * Z :=
  let m := fold_left (λ m w, store64 m w.1 w.2) (fr_writes fr) m in
  push_regs regs (store64 m (fr_sp fr) (label here)) (fr_sp fr).

(** [switch_context(old, new)], called by the code that goes on at [here]; the
    code of [Context.switch_context], for a variable [old] in memory or in the
    structure of a CPU. *)
Definition switch (here : point) (fr : frame) (old : cpu_ref + Z) (new : Z) : M run () := λ s,
  let k := sy_kmem (ru_sys s) in
  let regs := <[RSI := new]> (match old with inr a => <[RDI := a]> (fr_regs fr) | inl _ => fr_regs fr end) in
  let '(m, sp) := pushed (km_mem k) here regs fr in
  let set_old := match old with
                 | inr a => on_kmem (wr64 a sp)
                 | inl cpu => update cpu (λ c, set_sched (idle_thread c) sp (scheduler_ready c) c)
                 end in
  match set_old (set_kmem (set_mem m k) (ru_sys s)) with
  | Ret (_, sys) =>
      let m := km_mem (sy_kmem sys) in
      let '(l, sp') := pop_regs REGS m new in
      let saved := <[sp := here]> (ru_saved s) in
      match resume saved new (load64 m sp') l with
      | Some p => Ret ((), Run sys p saved (ru_log s))
      | None => Undef
      end
  | Panic msg => Panic msg
  | Undef => Undef
  | OutOfFuel => OutOfFuel
  end.

(** ** The code between switches *)

(** What follows a function that may switch: it goes on at [back] when it
    returns, and at [here] when the CPU comes back to it. *)
Definition perform (fr : frame) (back here : point) (a : action) : M run () :=
  match a with
  | Return => go_on back
  | Switch old new => switch here fr old new
  end.

(** [demo_thread_func] from the test of its loop on. *)
Definition demo_body (fr : frame) (thread_id i : Z) : M run () :=
  if i <? 5 then
    let* cpu := on_run mycpu in
    let* c := on_run (deref cpu) in
    do* log (Running thread_id (cpu_index c) i) in
    let* a := on_run sched_yield in
    perform fr (DemoYield thread_id i) (DemoYield thread_id i) a
  else
    do* log (Finished thread_id) in
    let* cpu := on_run mycpu in
    let* c := on_run (deref cpu) in
    let* a := on_run sched_exit in
    match a with
    | Return => go_on (DemoHalt thread_id)
    | Switch old new =>
        do* log (Exited (current_thread c) (cpu_index c)) in
        switch (DemoExit thread_id) fr old new
    end.

(** [idle_thread_func] up to its next [idle_yield]: [hlt] has waited for an
    interrupt. *)
Definition idle_body (fr : frame) : M run () :=
  do* on_run sti in
  let* a := on_run idle_yield in
  perform fr IdleYield IdleYield a.

(** The running code up to its next switch. *)
Definition step (fr : frame) : M run () :=
  let* s := get in
  match ru_now s with
  | InSched => let* a := on_run sched_run_round in perform fr InSched InSched a
  | DemoStart arg => demo_body fr (u32 arg) 0
  | DemoYield thread_id i => demo_body fr thread_id (i + 1)
  | DemoExit _ => panic "sched_exit returned"
  | DemoHalt _ => ret ()
  | IdleStart | IdleYield => idle_body fr
  end.

(** ** Runs *)

Section runs.
(** The stack of the scheduler. *)
Context (lo hi : Z).

(** The bounds of the stack of the running code. *)
Definition stack_bounds (s : run) : Z * Z :=
  match ru_now s with
  | InSched => (lo, hi)
  | _ =>
      match (let* cpu := mycpu in deref cpu) (ru_sys s) with
      | Ret (c, sys) =>
          let top := load64 (km_mem (sy_kmem sys)) (current_thread c + TH_STACK) in
          (top - PGSIZE, top)
      | _ => (0, 0)
      end
  end.

(** The frame is on the stack of the running code, and the registers are
    64-bit words. *)
Definition frame_in (lo hi : Z) (fr : frame) : Prop :=
  lo + 120 ≤ fr_sp fr ∧ fr_sp fr + 8 ≤ hi ∧
  Forall (λ w, lo ≤ w.1 ∧ w.1 + 8 ≤ hi) (fr_writes fr) ∧
  length (fr_regs fr) = REGS ∧ Forall (λ r, 0 ≤ r < 2 ^ 64) (fr_regs fr).
Definition frame_ok (s : run) (fr : frame) : Prop := frame_in (stack_bounds s).1 (stack_bounds s).2 fr.

(** Whatever the compiled code does on its stacks, the run gets to a state
    with [Q] after finitely many steps. *)
Inductive reaches (Q : run → Prop) (s : run) : Prop :=
  | reaches_now : Q s → reaches Q s
  | reaches_step mid : (∃ fr, frame_ok s fr) →
      (∀ fr, frame_ok s fr → ∃ s', step fr s = Ret ((), s') ∧ mid s') →
      (∀ s', mid s' → reaches Q s') → reaches Q s.

(** The executions from a state. *)
Inductive executes : run → run → Prop :=
  | executes_refl s : executes s s
  | executes_step s s1 s2 fr : frame_ok s fr → step fr s = Ret ((), s1) → executes s1 s2 → executes s s2.

(** No execution stops, panics or faults. *)
Definition can_step (s : run) : Prop :=
  (∃ fr, frame_ok s fr) ∧ ∀ fr, frame_ok s fr → ∃ s', step fr s = Ret ((), s').
Definition safe (s : run) : Prop := ∀ s', executes s s' → can_step s'.

Lemma reaches_safe Q s : reaches Q s → (∀ s', Q s' → safe s') → safe s.
Proof.
  induction 1 as [s Hs|s mid Hex Hstep _ IH]; intros HQ; [by apply HQ|]. intros s' He. destruct He as [s|s s1 s2 fr Hfr E He].
  - split; [exact Hex|]. intros fr Hfr. destruct (Hstep fr Hfr) as (s1 & E & _). by exists s1.
  - destruct (Hstep fr Hfr) as (s1' & E' & Hm). rewrite E in E'. injection E' as <-. exact (IH s1 Hm HQ s2 He).
Qed.

Lemma reaches_trans Q R s : reaches Q s → (∀ s', Q s' → reaches R s') → reaches R s.
Proof.
  induction 1 as [s Hs|s mid Hex Hstep _ IH]; intros HQ; [by apply HQ|]. eapply reaches_step; [done..|].
  intros s' Hs'. by apply IH.
Qed.
End runs.
End code.

(** * Properties *)

(** ** The memory of a switch *)

Section switching.
Context {LK : Linker} {RS : RunSymbols}.

Lemma label_range p : 0 ≤ label p < 2 ^ 64.
Proof.
  pose proof symbols_range as H. rewrite !Forall_cons in H. destruct H as (? & ? & ? & ? & ? & ? & _). by destruct p.
Qed.

Lemma writes_change lo hi ws : ∀ m, Forall (λ w, lo ≤ w.1 ∧ w.1 + 8 ≤ hi) ws →
  only_changes m (fold_left (λ m w, store64 m w.1 w.2) ws m) lo (hi - lo).
Proof.
  induction ws as [|[a v] ws IH]; intros m H; [apply only_changes_refl|]. apply Forall_cons in H as [[H1 H2] H]. cbn [fold_left fst snd] in *.
  eapply only_changes_trans; [|by apply IH]. eapply only_changes_sub; [apply store64_changes|lia|lia].
Qed.

(** Pushing the registers writes the context of the code that goes on at [here],
    and nothing outside the stack. *)
Lemma pushed_spec lo hi m here regs fr :
  frame_in lo hi fr → length regs = REGS → Forall (λ r, 0 ≤ r < 2 ^ 64) regs →
  ∃ m', pushed m here regs fr = (m', fr_sp fr - 120) ∧ only_changes m m' lo (hi - lo) ∧
    context_at m' (fr_sp fr - 120) regs (label here).
Proof.
  intros (Hlo & Hhi & Hw & _) Hlen Hregs. unfold pushed. set (m1 := fold_left _ _ m). set (m2 := store64 m1 (fr_sp fr) (label here)).
  pose proof (writes_change lo hi _ m Hw) as H1. fold m1 in H1.
  destruct (push_regs_spec regs m2 (fr_sp fr) Hregs) as (m' & E & Hch & Hl). rewrite Hlen in E, Hch, Hl. unfold REGS in *.
  change (8 * Z.of_nat 15) with 120 in *. exists m'. split; [exact E|]. split.
  - eapply (only_changes_trans _ m1); [exact H1|]. eapply (only_changes_trans _ m2); [eapply only_changes_sub; [apply store64_changes|lia|lia]|].
    eapply only_changes_sub; [exact Hch|lia|lia].
  - split; [exact Hl|]. unfold REGS. change (8 * Z.of_nat 15) with 120. replace (fr_sp fr - 120 + 120) with (fr_sp fr) by lia.
    rewrite (load64_agree m2 m') by (eapply only_changes_agree; [exact Hch|lia]). apply load64_store64, label_range.
Qed.

(** A context read back. *)
Lemma pop_context m a l ip : context_at m a l ip → pop_regs REGS m a = (l, a + 8 * Z.of_nat REGS) ∧ load64 m (a + 8 * Z.of_nat REGS) = ip.
Proof. intros [<- <-]. by rewrite pop_regs_spec. Qed.

(** What the memory holds of suspended code. *)
Definition leads_to (m : mem) (saved : gmap Z point) (a : Z) (p : point) : Prop :=
  ∃ l, context_at m a l (label p) ∧
    match p with
    | DemoStart arg => l !! RDI = Some arg
    | IdleStart => True
    | DemoHalt _ => False
    | _ => saved !! a = Some p
    end.

Lemma leads_to_resume m saved a p : leads_to m saved a p →
  resume saved a (load64 m (a + 8 * Z.of_nat REGS)) (pop_regs REGS m a).1 = Some p.
Proof.
  intros (l & Hc & Hp). destruct (pop_context _ _ _ _ Hc) as [-> ->]. cbn [fst]. pose proof symbols_distinct as Hd.
  rewrite !NoDup_cons, !not_elem_of_cons in Hd. destruct Hd as ((D1 & D2 & D3 & D4 & D5 & _) & (D6 & D7 & D8 & D9 & _) & _).
  unfold resume. destruct p; cbn [label] in *; rewrite ?Z.eqb_refl, ?(proj2 (Z.eqb_neq _ _)) by congruence;
    rewrite ?Hp; cbn; rewrite ?Z.eqb_refl; try done.
Qed.

Lemma leads_to_kept m m' saved a b here p :
  agree m m' b CTX_SIZE → a ≠ b → leads_to m saved b p → leads_to m' (<[a := here]> saved) b p.
Proof.
  intros Ha Hne (l & Hc & Hp). exists l. split; [by eapply context_at_agree|]. destruct p; rewrite ?lookup_insert_ne by done; done.
Qed.

Lemma leads_to_agree m m' saved b p : agree m m' b CTX_SIZE → leads_to m saved b p → leads_to m' saved b p.
Proof. intros Ha (l & Hc & Hp). exists l. split; [by eapply context_at_agree|done]. Qed.

(** Code that can be suspended: it goes on behind a switch. *)
Definition behind_switch (p : point) : Prop :=
  match p with InSched | DemoYield _ _ | DemoExit _ | IdleYield => True | _ => False end.

Lemma leads_to_here m saved a l here : behind_switch here → context_at m a l (label here) → leads_to m (<[a := here]> saved) a here.
Proof. intros Hb Hc. exists l. split; [done|]. destruct here; try done; apply lookup_insert_eq. Qed.

(** [n] bytes at [a] are not on the stack. *)
Definition off_stack (lo hi a n : Z) : Prop := a + n ≤ lo ∨ hi ≤ a.

(** The registers at the call are words. *)
Lemma call_regs fr new old : length (fr_regs fr) = REGS → Forall (λ r, 0 ≤ r < 2 ^ 64) (fr_regs fr) →
  0 ≤ new < 2 ^ 64 → match old : cpu_ref + Z with inr a => 0 ≤ a < 2 ^ 64 | inl _ => True end →
  let regs := <[RSI := new]> (match old with inr a => <[RDI := a]> (fr_regs fr) | inl _ => fr_regs fr end) in
  length regs = REGS ∧ Forall (λ r, 0 ≤ r < 2 ^ 64) regs.
Proof.
  intros Hl Hr Hn Ho regs. unfold regs. split; [rewrite length_insert; destruct old; rewrite ?length_insert; done|].
  apply Forall_insert; [|done]. destruct old; [done|by apply Forall_insert].
Qed.

(** The scheduler hands the CPU to the code that [new] leads to. *)
Lemma switch_from_sched s i c lo hi fr new p (m := km_mem (sy_kmem (ru_sys s))) (a := fr_sp fr - 120) :
  percpus (ru_sys s) !! i = Some c → frame_in lo hi fr → leads_to m (ru_saved s) new p →
  off_stack lo hi new CTX_SIZE → 0 ≤ new < 2 ^ 64 →
  ∃ m', switch InSched fr (inl (Cpu i)) new s = Ret ((), Run
      (put_cpu (Cpu i) (set_sched (idle_thread c) a (scheduler_ready c) c) (set_kmem (set_mem m' (sy_kmem (ru_sys s))) (ru_sys s)))
      p (<[a := InSched]> (ru_saved s)) (ru_log s)) ∧
    only_changes m m' lo (hi - lo) ∧ leads_to m' (<[a := InSched]> (ru_saved s)) a InSched.
Proof.
  intros Hd Hfr Hto Hoff Hnew. pose proof Hfr as (Hlo & Hhi & _ & Hlen & Hregs).
  destruct (call_regs fr new (inl (Cpu i)) Hlen Hregs Hnew I) as [Hl' Hr'].
  destruct (pushed_spec lo hi m InSched _ fr Hfr Hl' Hr') as (m' & E & Hch & Hctx). fold a in E, Hctx. exists m'.
  split; [|split; [exact Hch|by eapply leads_to_here]].
  unfold switch. cbv zeta. fold m. rewrite E.
  rewrite (update_cpu i _ _ c) by exact Hd. cbn [sy_kmem put_cpu set_percpus set_kmem set_mem km_mem].
  assert (leads_to m' (<[a := InSched]> (ru_saved s)) new p) as Hto'.
  { eapply leads_to_kept; [|unfold off_stack, CTX_SIZE in Hoff; unfold a; lia|exact Hto].
    eapply only_changes_agree; [exact Hch|]. unfold off_stack in Hoff. lia. }
  pose proof (leads_to_resume _ _ _ _ Hto') as Hres. rewrite pop_regs_spec in Hres |- *. cbn [fst] in Hres. rewrite Hres. done.
Qed.

(** A thread hands the CPU to the code that [new] leads to, and its context is
    in its structure. *)
Lemma switch_from_thread s here t lo hi fr new p (m := km_mem (sy_kmem (ru_sys s))) (a := fr_sp fr - 120) :
  behind_switch here → frame_in lo hi fr → leads_to m (ru_saved s) new p →
  off_stack lo hi new CTX_SIZE → off_stack lo hi t 8 → apart new CTX_SIZE t 8 → 0 ≤ new < 2 ^ 64 → 0 ≤ t < 2 ^ 64 → 0 ≤ lo → hi < 2 ^ 64 →
  ∃ m', switch here fr (inr (t + TH_CONTEXT)) new s = Ret ((), Run (set_kmem (set_mem m' (sy_kmem (ru_sys s))) (ru_sys s))
      p (<[a := here]> (ru_saved s)) (ru_log s)) ∧
    (∀ b n, off_stack lo hi b n → apart b n t 8 → agree m m' b n) ∧ load64 m' (t + TH_CONTEXT) = a ∧
    leads_to m' (<[a := here]> (ru_saved s)) a here.
Proof.
  intros Hb Hfr Hto Hoff Hoff' Hap Hnew Ht H0 H64. pose proof Hfr as (Hlo & Hhi & _ & Hlen & Hregs).
  unfold TH_CONTEXT. rewrite Z.add_0_r.
  destruct (call_regs fr new (inr t) Hlen Hregs Hnew Ht) as [Hl' Hr'].
  destruct (pushed_spec lo hi m here _ fr Hfr Hl' Hr') as (m1 & E & Hch & Hctx). fold a in E, Hctx.
  unfold off_stack, apart, CTX_SIZE in *.
  set (m' := store64 m1 t a).
  assert (∀ b n, b + n ≤ lo ∨ hi ≤ b → b + n ≤ t ∨ t + 8 ≤ b → agree m m' b n) as Hkeep.
  { intros b n H1 H2. eapply agree_trans; [eapply only_changes_agree; [exact Hch|lia]|].
    eapply only_changes_agree; [apply store64_changes|lia]. }
  exists m'. split; [|split; [exact Hkeep|split; [apply load64_store64; unfold a; lia|]]].
  - unfold switch. cbv zeta. fold m. rewrite E. unfold on_kmem, wr64.
    cbn [sy_kmem set_kmem set_mem km_mem]. fold m'.
    assert (leads_to m' (<[a := here]> (ru_saved s)) new p) as Hto'.
    { eapply leads_to_kept; [|unfold a; lia|exact Hto]. unfold CTX_SIZE. apply Hkeep; lia. }
    pose proof (leads_to_resume _ _ _ _ Hto') as Hres. rewrite pop_regs_spec in Hres |- *. cbn [fst] in Hres. rewrite Hres. done.
  - eapply leads_to_here; [done|]. eapply context_at_agree; [|exact Hctx]. eapply only_changes_agree; [apply store64_changes|].
    unfold CTX_SIZE, a. lia.
Qed.
End switching.
