(* ===== verification/DemoRun.v ===== *)
(** * The demo threads run

    [demo_thread_func] ([kernel/main.c]) prints five times, hands the CPU back
    after each, and exits.  Here the threads in the queue of a CPU run in the
    model of [Switching.v], with the scheduler and the idle thread, until all have
    exited and the CPU idles. *)

From S2P Require Import Prelude Memory Kalloc Ring Threads Context Percpu Spinlock SmpSched SchedRound Switching.

(** ** Suspended threads *)

(** A thread, with its node in a queue, the page of its stack and the place where
    it goes on. *)
Record task := Task { tk_node : Z; tk_thread : Z; tk_stack : Z; tk_point : point }.
Definition entry (x : task) : Z * Z := (tk_node x, tk_thread x).
Abbreviation entries l := (fmap (M:=list) entry l).
Definition own (x : task) : list Z := [tk_thread x; tk_stack x].
Definition pages (l : list task) : list Z := l ≫= own.

Section tasks.
Context {LK : Linker} {RS : RunSymbols}.

(** The stack pointer in the structure is the top of the stack. *)
Definition has_stack (m : mem) (x : task) : Prop := load64 m (tk_thread x + TH_STACK) = tk_stack x + PGSIZE.

(** The thread's context is on its stack and leads to its place. *)
Definition suspended (m : mem) (saved : gmap Z point) (x : task) : Prop :=
  let a := load64 m (tk_thread x + TH_CONTEXT) in
  has_stack m x ∧ tk_stack x ≤ a ∧ a + CTX_SIZE ≤ tk_stack x + PGSIZE ∧ leads_to m saved a (tk_point x).
Definition waiting (m : mem) (saved : gmap Z point) (x : task) : Prop :=
  thread_runnable m (tk_thread x) = true ∧ suspended m saved x.
Definition exited (m : mem) (x : task) : Prop := load32 m (tk_thread x + TH_STATE) = state_code EXIT.

(** [a] is on none of the stacks. *)
Definition away (a : Z) (l : list task) : Prop := ∀ y, y ∈ l → a < tk_stack y ∨ tk_stack y + PGSIZE ≤ a.

Lemma own_pages x l : x ∈ l → tk_thread x ∈ pages l ∧ tk_stack x ∈ pages l.
Proof. intros Hx. unfold pages. rewrite !list_elem_of_bind. split; exists x; (split; [|done]); [left|right; left]. Qed.

Lemma page_load m m' t off : agree m m' t PGSIZE → 0 ≤ off → off + 8 ≤ PGSIZE → load64 m' (t + off) = load64 m (t + off).
Proof. intros H ??. apply load64_agree. eapply agree_sub; [exact H|lia..]. Qed.

Lemma suspended_kept m m' saved a here x :
  agree m m' (tk_thread x) PGSIZE → agree m m' (tk_stack x) PGSIZE → a < tk_stack x ∨ tk_stack x + PGSIZE ≤ a →
  suspended m saved x → suspended m' (<[a := here]> saved) x.
Proof.
  intros Ht Hst Ha (H1 & H2 & H3 & H4). unfold suspended, has_stack. unfold PGSIZE, CTX_SIZE, TH_CONTEXT, TH_STACK in *.
  rewrite !(page_load m m') by (done || unfold PGSIZE; lia). split; [done|]. split; [done|]. split; [done|].
  eapply leads_to_kept; [|lia|exact H4]. unfold CTX_SIZE. eapply agree_sub; [exact Hst|lia..].
Qed.

Lemma waiting_kept m m' ps saved a here l :
  others_kept m m' ps → Forall page_ok (pages l) → (∀ p, p ∈ pages l → p ∉ ps) → away a l →
  Forall (waiting m saved) l → Forall (waiting m' (<[a := here]> saved)) l.
Proof.
  intros Ho Hp Hd Ha Hw. apply Forall_forall. intros x Hx. destruct (own_pages x l Hx) as [H1 H2].
  destruct (proj1 (Forall_forall _ _) Hw x Hx) as [Hr Hs]. rewrite Forall_forall in Hp.
  assert (agree m m' (tk_thread x) PGSIZE) as A1 by (apply Ho; auto). assert (agree m m' (tk_stack x) PGSIZE) as A2 by (apply Ho; auto).
  split; [by rewrite (runnable_agree m m')|]. eapply suspended_kept; [exact A1|exact A2|by apply Ha|exact Hs].
Qed.

Lemma exited_kept m m' ps l :
  others_kept m m' ps → Forall page_ok (pages l) → (∀ p, p ∈ pages l → p ∉ ps) → Forall (exited m) l → Forall (exited m') l.
Proof.
  intros Ho Hp Hd Hw. apply Forall_forall. intros x Hx. destruct (own_pages x l Hx) as [H1 _]. rewrite Forall_forall in Hp.
  pose proof (proj1 (Forall_forall _ _) Hw x Hx) as He. unfold exited, load32 in *. rewrite (load_agree m m'); [done|].
  eapply agree_sub; [apply (proj1 Ho (tk_thread x)); [by apply Hp|by apply Hd]|unfold TH_STATE, PGSIZE; lia..].
Qed.

(** ** The stacks and the queues *)

(** The scheduler's stack is from [lo] to [hi]; those pages of the allocator
    that it is in are [ss]. *)
Context (i : nat) (lo hi : Z) (ss : list Z).
Context (Hrange : 0 ≤ lo ∧ lo + 128 ≤ hi < 2 ^ 64) (Hapart : ∀ q, page_ok q → (q ∉ ss) → hi ≤ q ∨ q + PGSIZE ≤ lo)
  (Htables : hi ≤ p4_table ∨ p4_table + 4 * PGSIZE ≤ lo).

(** The executing CPU is [i], with the structure [c]; the threads [all] have
    pages of their own, which are not in the queues, not free and not the
    scheduler's. *)
Record world (sys : system) (c : percpu) (fl : list Z) (ls : list (list (Z * Z))) (all : list task) : Prop := {
  wo_cpu : on_cpu sys (Cpu i) c;
  wo_queues : queues sys fl ls;
  wo_distinct : NoDup (pages all);
  wo_pages : Forall page_ok (pages all);
  wo_own : ∀ p, p ∈ pages all → p ∉ (concat ls).*1 ++ fl;
  wo_sched : ∀ p, p ∈ ss → (p ∉ pages all) ∧ (p ∉ (concat ls).*1 ++ fl)
}.

Lemma world_perm sys c fl ls all all' : pages all ≡ₚ pages all' → world sys c fl ls all → world sys c fl ls all'.
Proof using Type.
  intros Hp [H1 H2 H3 H4 H5 H6]. split; [done|done|by rewrite <- Hp|by rewrite <- Hp| |].
  - intros p. rewrite <- Hp. apply H5.
  - intros p Hin. rewrite <- Hp. by apply H6.
Qed.

Lemma region_kept m m' : only_changes m m' lo (hi - lo) → others_kept m m' ss.
Proof using Hapart Htables.
  intros Hch. split; [|eapply only_changes_agree; [exact Hch|lia]].
  intros q Hq Hn. eapply only_changes_agree; [exact Hch|]. destruct (Hapart q Hq Hn); lia.
Qed.

Lemma region_away a l sys c fl ls : world sys c fl ls l → lo ≤ a < hi → away a l.
Proof using Hapart.
  intros [_ _ _ Hp _ Hs] Ha y Hy. destruct (own_pages y l Hy) as [_ Hst].
  assert (tk_stack y ∉ ss) as Hn by (intros Hin; exact (proj1 (Hs _ Hin) Hst)).
  destruct (Hapart (tk_stack y) (proj1 (Forall_forall _ _) Hp _ Hst) Hn); lia.
Qed.

(** ** The states between steps *)

Abbreviation mem_of s := (km_mem (sy_kmem (ru_sys s))).

(** The scheduler runs; the threads [ts] wait in the queue, those of [gone] have
    exited. *)
Record at_sched (s : run) (c : percpu) (fl : list Z) (ls : list (list (Z * Z))) (idle : task) (ts gone : list task) : Prop := {
  as_now : ru_now s = InSched;
  as_world : world (ru_sys s) c fl ls (idle :: ts ++ gone);
  as_queue : ls !! i = Some (entries ts);
  as_idle : idle_thread c = tk_thread idle;
  as_suspended : suspended (mem_of s) (ru_saved s) idle;
  as_waiting : Forall (waiting (mem_of s) (ru_saved s)) ts;
  as_gone : Forall (exited (mem_of s)) gone
}.

(** The scheduler waits, its context in the structure of the CPU. *)
Definition sched_waits (s : run) (c : percpu) : Prop :=
  lo ≤ scheduler_ctx c ∧ scheduler_ctx c + CTX_SIZE ≤ hi ∧ leads_to (mem_of s) (ru_saved s) (scheduler_ctx c) InSched.

(** The thread [x] runs; it is the last of the queue. *)
Record at_thread (s : run) (c : percpu) (fl : list Z) (ls : list (list (Z * Z))) (idle x : task) (ts gone : list task) : Prop := {
  at_now : ru_now s = tk_point x;
  at_world : world (ru_sys s) c fl ls (x :: idle :: ts ++ gone);
  at_queue : ls !! i = Some (entries ts ++ [entry x]);
  at_idle_thread : idle_thread c = tk_thread idle;
  at_current : current_thread c = tk_thread x;
  at_stack : has_stack (mem_of s) x;
  at_sched_waits : sched_waits s c;
  at_suspended : suspended (mem_of s) (ru_saved s) idle;
  at_waiting : Forall (waiting (mem_of s) (ru_saved s)) ts;
  at_gone : Forall (exited (mem_of s)) gone
}.

(** The idle thread runs. *)
Record at_idle (s : run) (c : percpu) (fl : list Z) (ls : list (list (Z * Z))) (idle : task) (gone : list task) : Prop := {
  ai_now : ru_now s = tk_point idle;
  ai_world : world (ru_sys s) c fl ls (idle :: gone);
  ai_queue : ls !! i = Some [];
  ai_idle : idle_thread c = tk_thread idle;
  ai_current : current_thread c = tk_thread idle;
  ai_stack : has_stack (mem_of s) idle;
  ai_sched_waits : sched_waits s c;
  ai_gone : Forall (exited (mem_of s)) gone
}.

(** The state of a thread is in its structure, not on its stack. *)
Lemma state_stored m t st v b : page_ok t → page_ok st → t ≠ st → agree m (store32 m (t + TH_STATE) v) st PGSIZE ∧
  (b + 8 ≤ t + TH_STATE → load64 (store32 m (t + TH_STATE) v) b = load64 m b).
Proof using Type.
  intros Pt Pst Hne. pose proof (pages_disjoint t st (proj1 Pt) (proj1 Pst) Hne). unfold TH_STATE, PGSIZE in *. split.
  - eapply only_changes_agree; [apply (store_changes m (t + 48) 4)|lia].
  - intros Hb. apply load64_agree. eapply only_changes_agree; [apply (store_changes m (t + 48) 4)|lia].
Qed.

(** ** The scheduler hands over *)

(** What follows when the scheduler has chosen the thread [x]: it runs, and
    everything else is as it was. *)
Lemma hand_over s sys1 c1 x fr fl ls1 rest (m := mem_of s) :
  ru_now s = InSched → world sys1 c1 fl ls1 (x :: rest) → suspended m (ru_saved s) x →
  km_mem (sy_kmem sys1) = store32 m (tk_thread x + TH_STATE) (state_code ON_CPU) → frame_in lo hi fr →
  sched_run_round (ru_sys s) = Ret (Switch (inl (Cpu i)) (load64 m (tk_thread x + TH_CONTEXT)), sys1) →
  ∃ s' c', step fr s = Ret ((), s') ∧ ru_now s' = tk_point x ∧ world (ru_sys s') c' fl ls1 (x :: rest) ∧
    c' = set_sched (idle_thread c1) (scheduler_ctx c') (scheduler_ready c1) c1 ∧ has_stack (mem_of s') x ∧ sched_waits s' c' ∧
    ru_log s' = ru_log s ∧ others_kept m (mem_of s') (tk_thread x :: ss) ∧
    ∃ a, ru_saved s' = <[a := InSched]> (ru_saved s) ∧ lo ≤ a < hi.
Proof using Hrange Hapart Htables.
  intros Hnow Hw Hs Em Hfr Er. pose proof Hw as [Hc Hq Hnd Hpg Hown Hss].
  cbn [pages mbind list_bind own app] in Hnd, Hpg. rewrite !Forall_cons in Hpg. destruct Hpg as (Pt & Pst & _).
  rewrite NoDup_cons, not_elem_of_cons in Hnd. destruct Hnd as ((Hne & _) & _).
  destruct (own_pages x (x :: rest) ltac:(left)) as [It Ist].
  set (t := tk_thread x) in *. set (st := tk_stack x) in *. set (m1 := km_mem (sy_kmem sys1)) in *.
  destruct Hs as (S1 & S2 & S3 & S4). unfold has_stack in S1. fold t st in S1, S2, S3, S4. set (new := load64 m (t + TH_CONTEXT)) in *.
  pose proof (λ b, state_stored m t st (state_code ON_CPU) b Pt Pst Hne) as Hst. rewrite <- Em in Hst.
  assert (st ∉ ss) as Nst by (intros Hin; exact (proj1 (Hss _ Hin) Ist)). assert (t ∉ ss) as Nt by (intros Hin; exact (proj1 (Hss _ Hin) It)).
  pose proof (Hapart st Pst Nst) as Dst. pose proof (page_ok_u64 _ Pst) as Rst. pose proof Pst as [_ Pst2].
  destruct (switch_from_sched (Run sys1 InSched (ru_saved s) (ru_log s)) i c1 lo hi fr new (tk_point x)) as (m' & E & Hch & Hto).
  { by apply on_cpu_lookup. } { exact Hfr. }
  { eapply leads_to_agree; [|exact S4]. cbn [ru_sys]. eapply agree_sub; [apply (Hst 0)|lia..]. }
  { unfold off_stack, CTX_SIZE, PGSIZE in *. lia. } { unfold CTX_SIZE, PGSIZE, PHYSTOP in *. lia. }
  cbn [ru_sys ru_saved ru_log] in E, Hch, Hto. fold m1 in Hch. set (a := fr_sp fr - 120) in *.
  set (c' := set_sched (idle_thread c1) a (scheduler_ready c1) c1) in *.
  pose proof (region_kept _ _ Hch) as Hk.
  exists (Run (put_cpu (Cpu i) c' (set_kmem (set_mem m' (sy_kmem sys1)) sys1)) (tk_point x) (<[a := InSched]> (ru_saved s)) (ru_log s)), c'.
  split; [|split; [done|split; [|split; [done|split; [|split; [|split; [done|split; [|exists a; split; [done|]]]]]]]]].
  - unfold step. rewrite bind_get, Hnow. unfold bind at 1, on_run. rewrite Er. cbn [perform]. rewrite Hnow. exact E.
  - cbn [ru_sys]. split.
    + apply (on_cpu_update _ _ c1); [by apply on_cpu_kmem|done].
    + eapply queues_put; [|exact (on_cpu_lookup _ _ _ Hc)|done|done]. eapply queues_other_pages; [exact Hq|by intros p Hp; apply Hss|exact Hk].
    + apply Hw. + apply Hw. + exact Hown. + exact Hss.
  - unfold has_stack. cbn [ru_sys sy_kmem put_cpu set_percpus set_kmem set_mem km_mem]. fold t st.
    rewrite (page_load m1 m') by (first [by apply Hk | unfold TH_STACK, PGSIZE; lia]). rewrite (proj2 (Hst _)) by (unfold TH_STACK, TH_STATE; lia). exact S1.
  - destruct Hfr as (F1 & F2 & _). split; [cbn; unfold a; lia|]. split; [cbn; unfold a, CTX_SIZE; lia|]. exact Hto.
  - cbn [ru_sys sy_kmem put_cpu set_percpus set_kmem set_mem km_mem]. eapply (others_kept_trans _ m1).
    + rewrite Em. eapply others_kept_sub; [|by apply change_state_others]. intros q ->%list_elem_of_singleton. left.
    + eapply others_kept_sub; [|exact Hk]. intros q Hq'. by right.
  - destruct Hfr as (F1 & F2 & _). unfold a. lia.
Qed.

(** The other threads do not notice what is done to other pages. *)
Lemma rest_kept m m' ps saved a here idle ts gone :
  others_kept m m' ps → Forall page_ok (pages (idle :: ts ++ gone)) → (∀ p, p ∈ pages (idle :: ts ++ gone) → p ∉ ps) →
  away a (idle :: ts ++ gone) → suspended m saved idle → Forall (waiting m saved) ts → Forall (exited m) gone →
  suspended m' (<[a := here]> saved) idle ∧ Forall (waiting m' (<[a := here]> saved)) ts ∧ Forall (exited m') gone.
Proof using Type.
  clear Hrange Hapart Htables. intros Ho Hp Hd Ha Hi Hts Hg. unfold pages in *. rewrite bind_cons, bind_app in Hp, Hd. rewrite !Forall_app in Hp.
  destruct Hp as (P1 & P2 & P3). unfold own in P1. rewrite !Forall_cons in P1. destruct P1 as (Pt & Pst & _).
  split; [|split].
  - eapply suspended_kept; [| |by apply Ha; left|exact Hi]; (apply Ho; [done|]); apply Hd; rewrite !elem_of_app; left; [left|right; left].
  - eapply waiting_kept; [exact Ho|exact P2| | |exact Hts].
    + intros p Hp. apply Hd. rewrite !elem_of_app. tauto.
    + intros y Hy. apply Ha. right. apply elem_of_app. by left.
  - eapply exited_kept; [exact Ho|exact P3| |exact Hg]. intros p Hp. apply Hd. rewrite !elem_of_app. tauto.
Qed.

(** The threads other than [x] are left alone by a change of [x] and of the
    scheduler's stack. *)
Lemma others_pages x rest sys c fl ls :
  world sys c fl ls (x :: rest) → Forall page_ok (pages rest) ∧ (∀ p, p ∈ pages rest → p ∉ own x) ∧ (∀ p, p ∈ pages rest → p ∉ ss).
Proof using Type.
  intros [_ _ Hnd Hpg _ Hss]. unfold pages in *. cbn [mbind list_bind] in *. apply Forall_app in Hpg as [_ Hpg]. split; [done|].
  apply NoDup_app in Hnd as (_ & Hd & _). split; [intros p Hp Hx; exact (Hd p Hx Hp)|].
  intros p Hp Hin. apply (proj1 (Hss p Hin)), elem_of_app. by right.
Qed.

Lemma pick s c fl ls idle x ts gone fr :
  at_sched s c fl ls idle (x :: ts) gone → frame_in lo hi fr →
  ∃ s' c', step fr s = Ret ((), s') ∧ at_thread s' c' fl (<[i := entries ts ++ [entry x]]> ls) idle x ts gone ∧
    ru_log s' = ru_log s ∧ cpu_index c' = cpu_index c.
Proof using Hrange Hapart Htables.
  intros [Hnow Hw Hq Hi Hs Hts Hg] Hfr. pose proof (Forall_cons_1 _ _ _ Hts) as [[Hrun Hsx] Hts'].
  assert (pages (idle :: (x :: ts) ++ gone) ≡ₚ pages (x :: idle :: ts ++ gone)) as Hperm.
  { unfold pages. cbn [app mbind list_bind]. rewrite !app_assoc. by rewrite (Permutation_app_comm (own idle)). }
  apply (world_perm _ _ _ _ _ _ Hperm) in Hw. pose proof Hw as [Hc Hqs Hnd Hpg Hown Hss].
  destruct (own_pages x (x :: idle :: ts ++ gone) ltac:(left)) as [It _].
  assert (thread_page (tk_thread x) fl ls) as Htp by (split; [by apply (proj1 (Forall_forall _ _) Hpg)|by apply Hown]).
  assert (0 ∉ (entries (x :: ts)).*2) as H0.
  { rewrite <- list_fmap_compose. intros (y & E & Hy)%list_elem_of_fmap. cbn in E.
    assert (tk_thread y ∈ pages (x :: idle :: ts ++ gone)) as Hin.
    { apply own_pages. apply elem_of_cons in Hy as [->|Hy]; [left|right; right; apply elem_of_app; by left]. }
    rewrite <- E in Hin. by apply (page_ok_nonzero 0); [apply (proj1 (Forall_forall _ _) Hpg)|]. }
  destruct (run_round_picks (ru_sys s) i c fl ls (tk_node x) (tk_thread x) (entries ts) Hc Hqs Hq H0 Htp Hrun)
    as (sys1 & q & Er & Hq1 & Hc1 & _ & _ & Em).
  set (ls1 := <[i := entries ts ++ [(tk_node x, tk_thread x)]]> ls) in *.
  assert (∀ p, p ∈ (concat ls1).*1 ++ fl ↔ p ∈ (concat ls).*1 ++ fl) as Hsame.
  { intros p. destruct (concat_split ls i _ (entries ts ++ [(tk_node x, tk_thread x)]) Hq) as [H1 H2]. unfold ls1.
    by rewrite H1, H2, fmap_cons, (Permutation_cons_append (entries ts) (entry x)). }
  assert (world sys1 (set_current (tk_thread x) (set_queue q (num_threads c) c)) fl ls1 (x :: idle :: ts ++ gone)) as Hw1.
  { split; [exact Hc1|exact Hq1|exact Hnd|exact Hpg| |].
    - intros p Hp. rewrite Hsame. by apply Hown.
    - intros p Hp. rewrite Hsame. by apply Hss. }
  destruct (hand_over s sys1 _ x fr fl ls1 _ Hnow Hw1 Hsx Em Hfr Er) as (s' & c' & E & Hn & Hw' & Ec & Hst & Hsw & Hlog & Ho & a & Esv & Ha).
  destruct (others_pages _ _ _ _ _ _ Hw') as (P1 & P2 & P3). pose proof (region_away a _ _ _ _ _ Hw' Ha) as Haw.
  assert (∀ p, p ∈ pages (idle :: ts ++ gone) → p ∉ tk_thread x :: ss) as Hd.
  { intros p Hp. rewrite not_elem_of_cons. split; [|by apply P3]. intros ->. apply (P2 _ Hp). left. }
  exists s', c'. split; [exact E|]. split; [|split; [exact Hlog|by rewrite Ec]].
  destruct (rest_kept _ _ _ _ a InSched idle ts gone Ho P1 Hd (λ y Hy, Haw y (list_elem_of_further _ _ _ Hy)) Hs Hts' Hg) as (R1 & R2 & R3). rewrite <- Esv in R1, R2.
  split; [exact Hn|exact Hw'| |by rewrite Ec|by rewrite Ec|exact Hst|exact Hsw|exact R1|exact R2|exact R3].
  apply list_lookup_insert_eq. by eapply lookup_lt_Some.
Qed.

(** ** A thread hands back *)

(** What follows when the thread [x] switches to the scheduler: its context is
    on its stack and leads to [here]. *)
Lemma hand_back sys1 c1 x here now saved lg fr fl ls rest (m1 := km_mem (sy_kmem sys1)) (a := fr_sp fr - 120) :
  world sys1 c1 fl ls (x :: rest) → behind_switch here → has_stack m1 x → frame_in (tk_stack x) (tk_stack x + PGSIZE) fr →
  sched_waits (Run sys1 now saved lg) c1 →
  ∃ sys' (m' := km_mem (sy_kmem sys')),
    switch here fr (inr (tk_thread x + TH_CONTEXT)) (scheduler_ctx c1) (Run sys1 now saved lg) =
      Ret ((), Run sys' InSched (<[a := here]> saved) lg) ∧
    world sys' c1 fl ls (x :: rest) ∧ others_kept m1 m' (own x) ∧ away a rest ∧
    suspended m' (<[a := here]> saved) (Task (tk_node x) (tk_thread x) (tk_stack x) here) ∧
    load32 m' (tk_thread x + TH_STATE) = load32 m1 (tk_thread x + TH_STATE).
Proof using Hrange Hapart Htables.
  intros Hw Hb Hst Hfr (W1 & W2 & W3). pose proof Hw as [Hc Hq Hnd Hpg Hown Hss]. pose proof Hfr as (F1 & F2 & _).
  pose proof (others_pages _ _ _ _ _ _ Hw) as (P1 & P2 & P3).
  cbn [pages mbind list_bind own app] in Hnd, Hpg. rewrite !Forall_cons in Hpg. destruct Hpg as (Pt & Pst & _).
  rewrite NoDup_cons, not_elem_of_cons in Hnd. destruct Hnd as ((Hne & _) & _).
  destruct (own_pages x (x :: rest) ltac:(left)) as [It Ist].
  pose proof (Hapart _ Pst (λ Hin, proj1 (Hss _ Hin) Ist)) as Dst. pose proof (Hapart _ Pt (λ Hin, proj1 (Hss _ Hin) It)) as Dt.
  pose proof (pages_disjoint _ _ (proj1 Pt) (proj1 Pst) Hne) as Dts.
  pose proof (page_ok_u64 _ Pt). pose proof (page_ok_u64 _ Pst). pose proof Pst as [_ Pst2].
  destruct (switch_from_thread (Run sys1 now saved lg) here (tk_thread x) (tk_stack x) (tk_stack x + PGSIZE) fr (scheduler_ctx c1) InSched)
    as (m' & E & Hk & Hctx & Hto); try done; try (unfold off_stack, apart, CTX_SIZE, PGSIZE, PHYSTOP in *; lia).
  cbn [ru_sys ru_saved ru_log] in E, Hk, Hto. fold m1 in Hk. fold a in E, Hctx, Hto.
  assert (others_kept m1 m' (own x)) as Ho.
  { split.
    - intros q Pq Hn. unfold own in Hn. rewrite !not_elem_of_cons in Hn. destruct Hn as (N1 & N2 & _).
      pose proof (pages_disjoint _ _ (proj1 Pq) (proj1 Pt) N1). pose proof (pages_disjoint _ _ (proj1 Pq) (proj1 Pst) N2).
      apply Hk; unfold off_stack, apart, PGSIZE in *; lia.
    - pose proof p4_range. pose proof Pt as [_ Pt2]. apply Hk; unfold off_stack, apart, PGSIZE in *; lia. }
  exists (set_kmem (set_mem m' (sy_kmem sys1)) sys1). split; [exact E|]. split; [|split; [exact Ho|split; [|split]]].
  - split; [by apply on_cpu_kmem| |apply Hw|apply Hw|exact Hown|exact Hss].
    eapply queues_other_pages; [exact Hq| |exact Ho]. intros p Hp. apply Hown. unfold pages. cbn [mbind list_bind]. apply elem_of_app. by left.
  - intros y Hy. destruct (own_pages y rest Hy) as [_ Hys].
    assert (tk_stack y ≠ tk_stack x) as N by (intros E'; apply (P2 _ Hys); rewrite E'; right; left).
    pose proof (pages_disjoint _ _ (proj1 (proj1 (Forall_forall _ _) P1 _ Hys)) (proj1 Pst) N). unfold a, PGSIZE in *. lia.
  - unfold suspended, has_stack. cbn [tk_thread tk_stack tk_point sy_kmem set_kmem set_mem km_mem]. rewrite Hctx.
    split; [|split; [unfold a; lia|split; [unfold a, CTX_SIZE; lia|exact Hto]]].
    rewrite (load64_agree m1); [exact Hst|]. apply Hk; unfold off_stack, apart, TH_STACK, PGSIZE in *; lia.
  - cbn [sy_kmem set_kmem set_mem km_mem]. unfold load32. apply load_agree. apply Hk; unfold off_stack, apart, TH_STATE, PGSIZE in *; lia.
Qed.

(** The thread [thread_id] is before its round [r]. *)
Definition demo_at (p : point) (thread_id r : Z) : Prop :=
  (∃ arg, p = DemoStart arg ∧ thread_id = u32 arg ∧ r = 0) ∨ p = DemoYield thread_id (r - 1).

Lemma demo_step s fr p id r : ru_now s = p → demo_at p id r → step fr s = demo_body fr id r s.
Proof using Type.
  clear Hrange Hapart Htables. unfold step. rewrite bind_get. intros -> [(arg & -> & -> & ->)| ->]; [done|]. by replace (r - 1 + 1) with r by lia.
Qed.

Definition moved_to (x : task) (p : point) : task := Task (tk_node x) (tk_thread x) (tk_stack x) p.

Lemma pages_moved x p l : pages (moved_to x p :: l) = pages (x :: l).
Proof using Type. done. Qed.

Lemma pages_last x p idle ts gone : pages (x :: idle :: ts ++ gone) ≡ₚ pages (idle :: (ts ++ [moved_to x p]) ++ gone).
Proof using Type.
  clear Hrange Hapart Htables. change (pages (moved_to x p :: idle :: ts ++ gone) ≡ₚ pages (idle :: (ts ++ [moved_to x p]) ++ gone)).
  unfold pages. apply bind_Permutation. rewrite <- app_assoc. cbn [app]. by rewrite <- Permutation_middle, perm_swap.
Qed.

(** In its first five rounds the thread reports, and goes to the end of the
    queue. *)
Lemma thread_yields s c fl ls idle x ts gone fr id r :
  at_thread s c fl ls idle x ts gone → demo_at (tk_point x) id r → r < 5 → frame_in (tk_stack x) (tk_stack x + PGSIZE) fr →
  ∃ s', step fr s = Ret ((), s') ∧ at_sched s' c fl ls idle (ts ++ [moved_to x (DemoYield id r)]) gone ∧
    ru_log s' = ru_log s ++ [Running id (cpu_index c) r].
Proof using Hrange Hapart Htables.
  intros [Hnow Hw Hq Hi Hcur Hst (W1 & W2 & W3) Hs Hts Hg] Hat Hr Hfr. pose proof Hw as [Hc Hqs Hnd Hpg Hown Hss].
  pose proof (others_pages _ _ _ _ _ _ Hw) as (P1 & P2 & P3). destruct (own_pages x (x :: idle :: ts ++ gone) ltac:(left)) as [It Ist].
  set (t := tk_thread x) in *. assert (page_ok t) as Pt by (by apply (proj1 (Forall_forall _ _) Hpg)).
  assert (page_ok (tk_stack x)) as Pst by (by apply (proj1 (Forall_forall _ _) Hpg)).
  assert (t ≠ tk_thread idle) as Hni by (intros E; apply (P2 t); [rewrite E; apply own_pages; left|left]).
  assert (t ≠ tk_stack x) as Hne by (cbn [pages mbind list_bind own app] in Hnd; rewrite NoDup_cons, not_elem_of_cons in Hnd; apply Hnd).
  set (m := mem_of s). set (m1 := store32 m (t + TH_STATE) (state_code RUNNABLE)). set (sys1 := set_kmem (set_mem m1 (sy_kmem (ru_sys s))) (ru_sys s)).
  pose proof (change_state_others m t (state_code RUNNABLE) Pt) as Ho1. fold m1 in Ho1.
  pose proof (λ b, state_stored m t (tk_stack x) (state_code RUNNABLE) b Pt Pst Hne) as Hstored. fold m1 in Hstored.
  assert (world sys1 c fl ls (x :: idle :: ts ++ gone)) as Hw1.
  { split; [by apply on_cpu_kmem| |exact Hnd|exact Hpg|exact Hown|exact Hss]. eapply queues_other_pages; [exact Hqs| |exact Ho1].
    intros p ->%list_elem_of_singleton. by apply Hown. }
  set (lg := ru_log s ++ [Running id (cpu_index c) r]).
  destruct (hand_back sys1 c x (DemoYield id r) (ru_now s) (ru_saved s) lg fr fl ls _ Hw1 I) as (sys' & E & Hw' & Ho & Haw & Hsx & Hstate).
  { unfold has_stack. cbn [sys1 sy_kmem set_kmem set_mem km_mem]. rewrite (proj2 (Hstored _)); [exact Hst|unfold TH_STACK, TH_STATE; lia]. }
  { exact Hfr. }
  { split; [exact W1|]. split; [exact W2|]. eapply leads_to_agree; [|exact W3]. cbn [sys1 ru_sys sy_kmem set_kmem set_mem km_mem].
    pose proof (Hapart t Pt (λ Hin, proj1 (Hss _ Hin) It)). eapply only_changes_agree; [apply (store_changes _ (t + TH_STATE) 4)|].
    unfold CTX_SIZE, TH_STATE, PGSIZE in *. lia. }
  change (km_mem (sy_kmem sys1)) with m1 in Ho, Hstate.
  assert (others_kept m (km_mem (sy_kmem sys')) (own x)) as Ho2.
  { eapply others_kept_trans; [eapply others_kept_sub; [|exact Ho1]; intros q ->%list_elem_of_singleton; left|exact Ho]. }
  destruct (rest_kept _ _ _ _ (fr_sp fr - 120) (DemoYield id r) idle ts gone Ho2 P1 P2 Haw Hs Hts Hg) as (R1 & R2 & R3).
  eexists. split; [|split].
  - rewrite (demo_step s fr _ id r Hnow Hat). unfold demo_body. rewrite (proj2 (Z.ltb_lt r 5)) by done.
    unfold bind at 1, on_run at 1. rewrite (proj1 Hc). unfold bind at 1, on_run at 1. cbn [ru_sys]. rewrite (proj2 Hc).
    unfold bind at 1, log, modify. cbn [ru_sys ru_now ru_saved ru_log]. fold lg. unfold bind at 1, on_run at 1. cbn [ru_sys].
    rewrite (yield_result _ i c t Hc Hcur (page_ok_nonzero _ Pt) ltac:(by rewrite Hi)). exact E.
  - split; [done|eapply world_perm; [apply pages_last|exact Hw']| |exact Hi|exact R1| |exact R3].
    + by rewrite fmap_app.
    + apply Forall_app. split; [exact R2|]. apply Forall_singleton. split; [|exact Hsx]. unfold thread_runnable.
      change ((load32 (km_mem (sy_kmem sys')) (tk_thread x + TH_STATE) =? state_code RUNNABLE) = true). rewrite Hstate. apply runnable_store.
  - done.
Qed.

(** What [sched_exit] does up to its switch: the thread, the last of its queue, is
    marked and taken out, and the page of its node is free. *)
Lemma taken_out_world sys c fl ls x rest ts (t := tk_thread x) (nodes := (entries ts ++ [entry x]).*1) :
  world sys c fl ls (x :: rest) → ls !! i = Some (entries ts ++ [entry x]) → (t ∉ (entries ts).*2) →
  current_thread c = t → t ≠ idle_thread c →
  ∃ sys1 q k (m := km_mem (sy_kmem sys)) (m1 := km_mem (sy_kmem sys1)),
    sched_exit sys = Ret (Switch (inr (t + TH_CONTEXT)) (scheduler_ctx c), sys1) ∧
    world sys1 (set_current 0 (set_queue q k c)) (tk_node x :: fl) (<[i := entries ts]> ls) (x :: rest) ∧
    load32 m1 (t + TH_STATE) = state_code EXIT ∧ others_kept m m1 (t :: nodes) ∧
    agree (store32 m (t + TH_STATE) (state_code EXIT)) m1 t PGSIZE ∧ agree m m1 lo (hi - lo) ∧
    ∀ p, p ∈ nodes → p ∈ (concat ls).*1 ++ fl.
Proof using Hrange Hapart Htables.
  intros Hw Hq Hnt Hcur Hni. pose proof Hw as [Hc Hqs Hnd Hpg Hown Hss]. destruct (own_pages x (x :: rest) ltac:(left)) as [It Ist].
  assert (page_ok t) as Pt by (by apply (proj1 (Forall_forall _ _) Hpg)).
  assert (thread_page t fl ls) as Htp by (split; [done|by apply Hown]).
  destruct (exit_result sys i c fl ls t (tk_node x) (entries ts) Hc Hqs Hq Hnt Htp Hcur Hni)
    as (sys1 & q & k & Ex & Hq1 & Hc1 & He & Ho1 & Hag & Hout).
  change ((entries ts ++ [(tk_node x, t)]).*1) with nodes in Ho1, Hout. set (ls1 := <[i := entries ts]> ls) in *.
  assert ((concat ls1).*1 ++ tk_node x :: fl ≡ₚ (concat ls).*1 ++ fl) as Hperm.
  { destruct (concat_split ls i _ (entries ts) Hq) as [H1 H2]. unfold ls1. rewrite H1, H2, !fmap_app. cbn [fmap list_fmap fst entry].
    rewrite <- !app_assoc. cbn [app]. by rewrite <- !Permutation_middle. }
  assert (∀ p, p ∈ nodes → p ∈ (concat ls).*1 ++ fl) as Hnodes.
  { intros p Hp. destruct (concat_split ls i _ [] Hq) as [H1 _]. rewrite H1, fmap_app, !elem_of_app. by left; left. }
  exists sys1, q, k. split; [exact Ex|]. split; [|split; [exact He|split; [exact Ho1|split; [exact Hag|split; [|exact Hnodes]]]]].
  - split; [exact Hc1|exact Hq1|exact Hnd|exact Hpg| |]; intros p Hp; rewrite Hperm; [by apply Hown|by apply Hss].
  - intros b Hb. apply Hout. intros p Hp.
    assert (page_ok p ∧ p ∉ ss) as [Pp Np]; [|destruct (Hapart p Pp Np); lia]. apply elem_of_cons in Hp as [->|Hp].
    + split; [done|]. intros Hin. exact (proj1 (Hss _ Hin) It).
    + split; [|intros Hin; exact (proj2 (Hss _ Hin) (Hnodes p Hp))]. destruct Hqs as (_ & _ & Hn & _).
      destruct (concat_split ls i _ [] Hq) as [H1 _]. rewrite H1, fmap_app in Hn. apply Forall_app in Hn as [Hn _].
      exact (proj1 (Forall_forall _ _) Hn p Hp).
Qed.

(** After them it takes itself out of the queue; the page of its node is free. *)
Lemma thread_exits s c fl ls idle x ts gone fr id r :
  at_thread s c fl ls idle x ts gone → demo_at (tk_point x) id r → 5 ≤ r → frame_in (tk_stack x) (tk_stack x + PGSIZE) fr →
  ∃ s' c', step fr s = Ret ((), s') ∧ at_sched s' c' (tk_node x :: fl) (<[i := entries ts]> ls) idle ts (x :: gone) ∧
    ru_log s' = ru_log s ++ [Finished id; Exited (tk_thread x) (cpu_index c)] ∧ cpu_index c' = cpu_index c.
Proof using Hrange Hapart Htables.
  intros [Hnow Hw Hq Hi Hcur Hst (W1 & W2 & W3) Hs Hts Hg] Hat Hr Hfr. pose proof Hw as [Hc Hqs Hnd Hpg Hown Hss].
  pose proof (others_pages _ _ _ _ _ _ Hw) as (P1 & P2 & P3). destruct (own_pages x (x :: idle :: ts ++ gone) ltac:(left)) as [It Ist].
  set (t := tk_thread x) in *.
  assert (t ≠ tk_thread idle) as Hni by (intros E; apply (P2 t); [rewrite E; apply own_pages; left|left]).
  assert (t ∉ (entries ts).*2) as Hnt.
  { rewrite <- list_fmap_compose. intros (y & E & Hy)%list_elem_of_fmap. apply (P2 t); [|left]. rewrite E. apply own_pages. right. apply elem_of_app. by left. }
  destruct (taken_out_world _ c fl ls x _ ts Hw Hq Hnt Hcur ltac:(by rewrite Hi)) as (sys1 & q & k & Ex & Hw1 & He & Ho1 & Hag & Hregion & Hnodes).
  set (m := mem_of s) in *. set (m1 := km_mem (sy_kmem sys1)) in *. set (c1 := set_current 0 (set_queue q k c)) in *.
  set (nodes := (entries ts ++ [entry x]).*1) in *. set (ls1 := <[i := entries ts]> ls) in *. fold t in Ex, Ho1, Hag.
  set (lg := (ru_log s ++ [Finished id]) ++ [Exited t (cpu_index c)]).
  destruct (hand_back sys1 c1 x (DemoExit id) (ru_now s) (ru_saved s) lg fr _ ls1 _ Hw1 I) as (sys' & E & Hw' & Ho & Haw & Hsx & Hstate).
  { unfold has_stack. fold m1 t. rewrite (page_load _ _ _ _ Hag) by (unfold TH_STACK, PGSIZE; lia).
    rewrite (load64_agree m); [exact Hst|]. eapply only_changes_agree; [apply (store_changes m (t + TH_STATE) 4)|unfold TH_STACK, TH_STATE; lia]. }
  { exact Hfr. }
  { split; [exact W1|]. split; [exact W2|]. eapply leads_to_agree; [|exact W3]. eapply agree_sub; [exact Hregion|cbn; lia|unfold CTX_SIZE in *; cbn in *; lia]. }
  fold m1 t in Ho, Hstate.
  assert (others_kept m (km_mem (sy_kmem sys')) (own x ++ nodes)) as Ho2.
  { eapply others_kept_trans; (eapply others_kept_sub; [|first [exact Ho1|exact Ho]]); intros p Hp; apply elem_of_app;
      [apply elem_of_cons in Hp as [-> | ?]; [left; left|by right]|by left]. }
  assert (∀ p, p ∈ pages (idle :: ts ++ gone) → p ∉ own x ++ nodes) as Hd.
  { intros p Hp. rewrite not_elem_of_app. split; [by apply P2|]. intros Hn. apply (Hown p); [|by apply Hnodes].
    unfold pages. rewrite bind_cons. apply elem_of_app. by right. }
  destruct (rest_kept _ _ _ _ (fr_sp fr - 120) (DemoExit id) idle ts gone Ho2 P1 Hd Haw Hs Hts Hg) as (R1 & R2 & R3).
  exists (Run sys' InSched (<[fr_sp fr - 120 := DemoExit id]> (ru_saved s)) lg), c1. split; [|split; [|split; [by unfold lg; rewrite <- app_assoc|done]]].
  - rewrite (demo_step s fr _ id r Hnow Hat). unfold demo_body. rewrite (proj2 (Z.ltb_ge r 5)) by done.
    unfold bind at 1, log at 1, modify at 1. unfold bind at 1, on_run at 1. cbn [ru_sys]. rewrite (proj1 Hc).
    unfold bind at 1, on_run at 1. cbn [ru_sys]. rewrite (proj2 Hc). unfold bind at 1, on_run at 1. cbn [ru_sys]. rewrite Ex.
    cbn [ru_sys ru_now ru_saved ru_log]. unfold bind at 1, log at 1, modify at 1. cbn [ru_sys ru_now ru_saved ru_log]. rewrite Hcur. fold lg. exact E.
  - split; [done| | |exact Hi|exact R1|exact R2|].
    + eapply world_perm; [|exact Hw']. unfold pages. apply bind_Permutation. by rewrite <- Permutation_middle, perm_swap.
    + apply list_lookup_insert_eq. by eapply lookup_lt_Some.
    + apply Forall_cons. split; [|exact R3]. unfold exited. cbn [ru_sys]. fold t. rewrite Hstate. exact He.
Qed.

(** ** Idling *)

Definition idle_at (p : point) : Prop := p = IdleStart ∨ p = IdleYield.

Lemma pick_idle s c fl ls idle gone fr :
  at_sched s c fl ls idle [] gone → frame_in lo hi fr →
  ∃ s' c', step fr s = Ret ((), s') ∧ at_idle s' c' fl ls idle gone ∧ ru_log s' = ru_log s.
Proof using Hrange Hapart Htables.
  intros [Hnow Hw Hq Hi Hs _ Hg] Hfr. cbn [app] in Hw. pose proof Hw as [Hc Hqs Hnd Hpg Hown Hss].
  destruct (own_pages idle (idle :: gone) ltac:(left)) as [It _].
  assert (thread_page (tk_thread idle) fl ls) as Htp by (split; [by apply (proj1 (Forall_forall _ _) Hpg)|by apply Hown]).
  destruct (run_round_idles (ru_sys s) i c fl ls (tk_thread idle) Hc Hqs Hq Hi Htp) as (sys1 & Er & Hq1 & Hc1 & Em).
  assert (world sys1 (set_current (tk_thread idle) c) fl ls (idle :: gone)) as Hw1 by (by split).
  destruct (hand_over s sys1 _ idle fr fl ls _ Hnow Hw1 Hs Em Hfr Er) as (s' & c' & E & Hn & Hw' & Ec & Hst & Hsw & Hlog & Ho & a & Esv & Ha).
  destruct (others_pages _ _ _ _ _ _ Hw') as (P1 & P2 & P3).
  exists s', c'. split; [exact E|]. split; [|exact Hlog]. split; [exact Hn|exact Hw'|exact Hq|by rewrite Ec|by rewrite Ec|exact Hst|exact Hsw|].
  eapply exited_kept; [exact Ho|exact P1| |exact Hg]. intros p Hp. rewrite not_elem_of_cons. split; [|by apply P3].
  intros ->. apply (P2 _ Hp). left.
Qed.

Lemma idle_returns s c fl ls idle gone fr :
  at_idle s c fl ls idle gone → idle_at (tk_point idle) → frame_in (tk_stack idle) (tk_stack idle + PGSIZE) fr →
  ∃ s', step fr s = Ret ((), s') ∧ at_sched s' c fl ls (moved_to idle IdleYield) [] gone ∧ ru_log s' = ru_log s.
Proof using Hrange Hapart Htables.
  intros [Hnow Hw Hq Hi Hcur Hst Hsw Hg] Hat Hfr. pose proof (others_pages _ _ _ _ _ _ Hw) as (P1 & P2 & P3).
  pose proof Hw as [Hc Hqs Hnd Hpg Hown Hss]. set (sys1 := set_if true (ru_sys s)).
  assert (on_cpu sys1 (Cpu i) c) as Hc1.
  { unfold sys1. rewrite <- (put_same (Cpu i) c (ru_sys s)) by apply Hc. by eapply on_cpu_put. }
  assert (world sys1 c fl ls (idle :: gone)) as Hw1 by (by split).
  destruct (hand_back sys1 c idle IdleYield (ru_now s) (ru_saved s) (ru_log s) fr fl ls gone Hw1 I Hst Hfr Hsw) as (sys' & E & Hw' & Ho & Haw & Hsx & _).
  exists (Run sys' InSched (<[fr_sp fr - 120 := IdleYield]> (ru_saved s)) (ru_log s)). split; [|split; [|done]].
  - assert (step fr s = idle_body fr s) as -> by (unfold step; rewrite bind_get, Hnow; by destruct Hat as [-> | ->]).
    unfold idle_body, bind at 1, on_run at 1, sti, modify. fold sys1. unfold bind at 1, on_run at 1. cbn [ru_sys].
    rewrite (idle_yield_result sys1 i c Hc1). rewrite Hi. exact E.
  - split; [done|by eapply world_perm; [|exact Hw']|exact Hq|exact Hi|exact Hsx|by apply Forall_nil_2|].
    eapply exited_kept; [exact Ho|exact P1|exact P2|exact Hg].
Qed.

(** ** Runs *)

Abbreviation reaches := (reaches lo hi).
Abbreviation frame_ok := (frame_ok lo hi).

(** A frame at the end of a stack. *)
Lemma some_frame a b : a + 128 ≤ b → ∃ fr, frame_in a b fr.
Proof using Type.
  clear Hrange Hapart Htables. intros H. exists (Frame [] (b - 8) (replicate REGS 0)). split; [cbn; lia|]. split; [cbn; lia|]. split; [constructor|].
  split; [done|]. apply Forall_replicate. lia.
Qed.

Lemma sched_frames s c fl ls idle ts gone : at_sched s c fl ls idle ts gone → stack_bounds lo hi s = (lo, hi).
Proof using Type. clear Hrange Hapart Htables. intros H. unfold stack_bounds. by rewrite (as_now _ _ _ _ _ _ _ H). Qed.

Lemma thread_frames sys c x now saved lg :
  on_cpu sys (Cpu i) c → current_thread c = tk_thread x → has_stack (km_mem (sy_kmem sys)) x → now ≠ InSched →
  stack_bounds lo hi (Run sys now saved lg) = (tk_stack x, tk_stack x + PGSIZE).
Proof using Type.
  clear Hrange Hapart Htables. intros [Hm Hd] Hcur Hst Hn. unfold stack_bounds. cbn [ru_now ru_sys].
  rewrite (bind_ret _ _ _ _ _ Hm), Hd, Hcur, Hst. destruct now; try done; f_equal; lia.
Qed.

Lemma demo_not_sched p id r : demo_at p id r → p ≠ InSched.
Proof using Type. clear. intros [(? & -> & _)| ->]; done. Qed.

(** The first thread of the queue is chosen and runs up to its next switch. *)
Lemma runs_next s c fl ls idle x ts gone id r Q :
  at_sched s c fl ls idle (x :: ts) gone → demo_at (tk_point x) id r →
  (∀ s1 c1 fr, at_thread s1 c1 fl (<[i := entries ts ++ [entry x]]> ls) idle x ts gone → ru_log s1 = ru_log s →
    cpu_index c1 = cpu_index c → frame_in (tk_stack x) (tk_stack x + PGSIZE) fr → ∃ s', step fr s1 = Ret ((), s') ∧ Q s') →
  reaches Q s.
Proof using Hrange Hapart Htables.
  intros H Hat HQ. set (ls1 := <[i := entries ts ++ [entry x]]> ls) in *.
  apply (reaches_step _ _ _ _ (λ s', ∃ c', at_thread s' c' fl ls1 idle x ts gone ∧ ru_log s' = ru_log s ∧ cpu_index c' = cpu_index c)).
  - unfold Switching.frame_ok. rewrite (sched_frames _ _ _ _ _ _ _ H). apply some_frame. cbn. lia.
  - intros fr Hfr. unfold Switching.frame_ok in Hfr. rewrite (sched_frames _ _ _ _ _ _ _ H) in Hfr.
    destruct (pick _ _ _ _ _ _ _ _ fr H Hfr) as (s' & c' & E & Ht & Hl & Hx). exists s'. split; [exact E|]. by exists c'.
  - intros s1 (c1 & H1 & Hlog & Hidx).
    assert (stack_bounds lo hi s1 = (tk_stack x, tk_stack x + PGSIZE)) as Hb.
    { destruct s1 as [sys now saved lg]. pose proof H1 as [Hnow Hw _ _ Hcur Hst _ _ _ _]. cbn [ru_sys ru_now] in *.
      apply (thread_frames sys c1); [apply Hw|exact Hcur|exact Hst|]. rewrite Hnow. by eapply demo_not_sched. }
    apply (reaches_step _ _ _ _ Q).
    + unfold Switching.frame_ok. rewrite Hb. apply some_frame. cbn. unfold PGSIZE. lia.
    + intros fr Hfr. unfold Switching.frame_ok in Hfr. rewrite Hb in Hfr. by apply (HQ s1 c1).
    + apply reaches_now.
Qed.

(** The first thread of the queue runs once. *)
Lemma turn s c fl ls idle x ts gone id r (y := moved_to x (DemoYield id r)) :
  at_sched s c fl ls idle (x :: ts) gone → demo_at (tk_point x) id r → r < 5 →
  reaches (λ s', ∃ c', at_sched s' c' fl (<[i := entries (ts ++ [y])]> ls) idle (ts ++ [y]) gone ∧
    cpu_index c' = cpu_index c ∧ ru_log s' = ru_log s ++ [Running id (cpu_index c) r]) s.
Proof using Hrange Hapart Htables.
  intros H Hat Hr. eapply runs_next; [exact H|exact Hat|]. intros s1 c1 fr H1 Hlog Hidx Hfr.
  destruct (thread_yields _ _ _ _ _ _ _ _ fr id r H1 Hat Hr Hfr) as (s' & E & Hs & Hl). exists s'. split; [exact E|].
  exists c1. split; [|split; [exact Hidx|by rewrite Hl, Hlog, Hidx]]. rewrite fmap_app. exact Hs.
Qed.

(** The first thread of the queue finishes. *)
Lemma last_turn s c fl ls idle x ts gone id r :
  at_sched s c fl ls idle (x :: ts) gone → demo_at (tk_point x) id r → 5 ≤ r →
  reaches (λ s', ∃ c', at_sched s' c' (tk_node x :: fl) (<[i := entries ts]> ls) idle ts (x :: gone) ∧
    cpu_index c' = cpu_index c ∧ ru_log s' = ru_log s ++ [Finished id; Exited (tk_thread x) (cpu_index c)]) s.
Proof using Hrange Hapart Htables.
  intros H Hat Hr. eapply runs_next; [exact H|exact Hat|]. intros s1 c1 fr H1 Hlog Hidx Hfr.
  destruct (thread_exits _ _ _ _ _ _ _ _ fr id r H1 Hat Hr Hfr) as (s' & c' & E & Hs & Hl & Hx). exists s'. split; [exact E|].
  exists c'. split; [|split; [by rewrite Hx|by rewrite Hl, Hlog, Hidx]]. by rewrite list_insert_insert_eq in Hs.
Qed.

(** ** Rounds *)

(** The threads behind their round [r]. *)
Definition advance (r : Z) (ts : list task) (ids : list Z) : list task :=
  zip_with (λ x id, moved_to x (DemoYield id r)) ts ids.
Definition before (r : Z) : list task → list Z → Prop := Forall2 (λ x id, demo_at (tk_point x) id r).

Lemma advance_before r ts ids : before r ts ids → before (r + 1) (advance r ts ids) ids.
Proof using Type.
  clear Hrange Hapart Htables. unfold before, advance. induction 1 as [|x id ts ids H _ IH]; cbn [zip_with]; constructor; [|done].
  right. cbn. f_equal. lia.
Qed.

Lemma advance_entries r ts ids : before r ts ids → entries (advance r ts ids) = entries ts.
Proof using Type. clear Hrange Hapart Htables. unfold before, advance. induction 1 as [|x id ts ids H _ IH]; cbn; [done|]. by f_equal. Qed.

(** Every thread of the queue runs once, in the order of the queue. *)
Lemma one_round r idle gone fl ts ids : before r ts ids → r < 5 → ∀ behind s c ls,
  at_sched s c fl ls idle (ts ++ behind) gone →
  reaches (λ s', ∃ c', at_sched s' c' fl (<[i := entries (behind ++ advance r ts ids)]> ls) idle (behind ++ advance r ts ids) gone ∧
    cpu_index c' = cpu_index c ∧ ru_log s' = ru_log s ++ ((λ id, Running id (cpu_index c) r) <$> ids)) s.
Proof using Hrange Hapart Htables.
  intros Hb Hr. unfold before, advance in *. induction Hb as [|x id ts ids Hat _ IH]; intros behind s c ls H; cbn [zip_with fmap list_fmap].
  - apply reaches_now. exists c. rewrite !app_nil_r. cbn [app] in H. rewrite list_insert_id by apply H. done.
  - eapply reaches_trans; [exact (turn _ _ _ _ _ _ _ _ _ _ H Hat Hr)|]. intros s1 (c1 & H1 & Hx1 & Hl1). rewrite <- app_assoc in H1.
    eapply reaches_trans; [exact (IH _ _ _ _ H1)|]. intros s2 (c2 & H2 & Hx2 & Hl2). apply reaches_now. exists c2.
    rewrite list_insert_insert_eq, <- app_assoc in H2. split; [exact H2|]. split; [by rewrite Hx2|].
    rewrite Hl2, Hl1, Hx1, <- app_assoc. done.
Qed.

(** The reports of the rounds from [r] to the fifth. *)
Definition reports (cpu r : Z) (ids : list Z) : list event :=
  seqZ r (5 - r) ≫= λ r, (λ id, Running id cpu r) <$> ids.
Definition endings (cpu : Z) (threads ids : list Z) : list event :=
  concat (zip_with (λ t id, [Finished id; Exited t cpu]) threads ids).

Lemma all_rounds n : ∀ r ts ids s c fl ls idle gone, 5 - r = Z.of_nat n → before r ts ids →
  at_sched s c fl ls idle ts gone →
  reaches (λ s', ∃ c' ts', at_sched s' c' fl ls idle ts' gone ∧ before 5 ts' ids ∧ entries ts' = entries ts ∧
    cpu_index c' = cpu_index c ∧ ru_log s' = ru_log s ++ reports (cpu_index c) r ids) s.
Proof using Hrange Hapart Htables.
  induction n as [|n IH]; intros r ts ids s c fl ls idle gone Hn Hb H.
  - apply reaches_now. exists c, ts. replace r with 5 in Hb |- * by lia. unfold reports. cbn. rewrite app_nil_r. done.
  - pose proof H as H'. rewrite <- (app_nil_r ts) in H'.
    eapply reaches_trans; [eapply one_round; [exact Hb|lia|exact H']|]. intros s1 (c1 & H1 & Hx1 & Hl1). cbn [app] in H1.
    rewrite (advance_entries _ _ _ Hb), list_insert_id in H1 by apply H.
    eapply reaches_trans; [exact (IH (r + 1) _ ids _ _ _ _ _ _ ltac:(lia) (advance_before _ _ _ Hb) H1)|].
    intros s2 (c2 & ts2 & H2 & Hb2 & He2 & Hx2 & Hl2). apply reaches_now. exists c2, ts2. split; [exact H2|]. split; [exact Hb2|].
    split; [by rewrite He2, (advance_entries _ _ _ Hb)|]. split; [by rewrite Hx2|]. rewrite Hl2, Hl1, Hx1, <- app_assoc.
    unfold reports at 2. rewrite (seqZ_cons r (5 - r)) by lia. replace (Z.pred (5 - r)) with (5 - (r + 1)) by lia. done.
Qed.

(** Every thread of the queue exits, in the order of the queue. *)
Lemma all_exit ts ids : before 5 ts ids → ∀ s c fl ls idle gone, at_sched s c fl ls idle ts gone →
  reaches (λ s', ∃ c', at_sched s' c' (reverse (tk_node <$> ts) ++ fl) (<[i := []]> ls) idle [] (reverse ts ++ gone) ∧
    cpu_index c' = cpu_index c ∧ ru_log s' = ru_log s ++ endings (cpu_index c) (tk_thread <$> ts) ids) s.
Proof using Hrange Hapart Htables.
  unfold before, endings. induction 1 as [|x id ts ids Hat _ IH]; intros s c fl ls idle gone H; cbn [zip_with fmap list_fmap concat].
  - apply reaches_now. exists c. rewrite app_nil_r, list_insert_id by apply H. done.
  - eapply reaches_trans; [exact (last_turn _ _ _ _ _ _ _ _ _ _ H Hat ltac:(lia))|]. intros s1 (c1 & H1 & Hx1 & Hl1).
    eapply reaches_trans; [exact (IH _ _ _ _ _ _ H1)|]. intros s2 (c2 & H2 & Hx2 & Hl2). apply reaches_now. exists c2.
    rewrite list_insert_insert_eq in H2. rewrite !reverse_cons, <- !app_assoc. split; [exact H2|]. split; [by rewrite Hx2|].
    rewrite Hl2, Hl1, Hx1, <- app_assoc. done.
Qed.

Lemma entries_parts ts ts' : entries ts' = entries ts → tk_node <$> ts' = tk_node <$> ts ∧ tk_thread <$> ts' = tk_thread <$> ts.
Proof using Type.
  clear. intros E. split.
  - change tk_node with (fst ∘ entry). by rewrite !(list_fmap_compose entry fst), E.
  - change tk_thread with (snd ∘ entry). by rewrite !(list_fmap_compose entry snd), E.
Qed.

(** All threads of the queue report five times, in turn, and exit. *)
Lemma all_finish s c fl ls idle ts ids gone :
  before 0 ts ids → at_sched s c fl ls idle ts gone →
  reaches (λ s', ∃ c' gone', at_sched s' c' (reverse (tk_node <$> ts) ++ fl) (<[i := []]> ls) idle [] gone' ∧
    tk_thread <$> gone' = reverse (tk_thread <$> ts) ++ (tk_thread <$> gone) ∧
    ru_log s' = ru_log s ++ reports (cpu_index c) 0 ids ++ endings (cpu_index c) (tk_thread <$> ts) ids) s.
Proof using Hrange Hapart Htables.
  intros Hb H. eapply reaches_trans; [exact (all_rounds 5 0 _ _ _ _ _ _ _ _ eq_refl Hb H)|].
  intros s1 (c1 & ts1 & H1 & Hb1 & He & Hx1 & Hl1). destruct (entries_parts _ _ He) as [En Et].
  eapply reaches_trans; [exact (all_exit _ _ Hb1 _ _ _ _ _ _ H1)|]. intros s2 (c2 & H2 & Hx2 & Hl2). apply reaches_now.
  rewrite En in H2. exists c2, (reverse ts1 ++ gone). split; [exact H2|]. split.
  - by rewrite fmap_app, fmap_reverse, Et.
  - by rewrite Hl2, Hl1, Hx1, Et, <- app_assoc.
Qed.

(** ** Idling for ever *)

Definition idling (s : run) : Prop := ∃ c fl ls idle gone,
  idle_at (tk_point idle) ∧ (at_sched s c fl ls idle [] gone ∨ at_idle s c fl ls idle gone).

Lemma idle_frames s c fl ls idle gone : at_idle s c fl ls idle gone → idle_at (tk_point idle) →
  stack_bounds lo hi s = (tk_stack idle, tk_stack idle + PGSIZE).
Proof using Type.
  clear Hrange Hapart Htables. intros [Hnow Hw _ _ Hcur Hst _ _] Hat. destruct s as [sys now saved lg]. cbn [ru_sys ru_now] in *.
  apply (thread_frames sys c); [apply Hw|exact Hcur|exact Hst|]. rewrite Hnow. by destruct Hat as [-> | ->].
Qed.

(** The scheduler and the idle thread hand the CPU to each other. *)
Lemma idling_step s : idling s → (∃ fr, frame_ok s fr) ∧
  ∀ fr, frame_ok s fr → ∃ s', step fr s = Ret ((), s') ∧ idling s' ∧ ru_log s' = ru_log s.
Proof using Hrange Hapart Htables.
  intros (c & fl & ls & idle & gone & Hat & [H|H]); unfold Switching.frame_ok.
  - rewrite (sched_frames _ _ _ _ _ _ _ H). split; [apply some_frame; cbn; lia|]. intros fr Hfr.
    destruct (pick_idle _ _ _ _ _ _ fr H Hfr) as (s' & c' & E & H' & Hl). exists s'. split; [exact E|]. split; [|exact Hl].
    exists c', fl, ls, idle, gone. split; [exact Hat|by right].
  - rewrite (idle_frames _ _ _ _ _ _ H Hat). split; [apply some_frame; cbn; unfold PGSIZE; lia|]. intros fr Hfr.
    destruct (idle_returns _ _ _ _ _ _ fr H Hat Hfr) as (s' & E & H' & Hl). exists s'. split; [exact E|]. split; [|exact Hl].
    exists c, fl, ls, (moved_to idle IdleYield), gone. split; [by right|by left].
Qed.

Abbreviation executes := (executes lo hi).

Lemma idling_executes s s' : executes s s' → idling s → idling s' ∧ ru_log s' = ru_log s.
Proof using Hrange Hapart Htables.
  induction 1 as [s|s s1 s2 fr Hfr E _ IH]; intros H; [done|]. destruct (proj2 (idling_step s H) fr Hfr) as (s1' & E' & H1 & Hl).
  rewrite E in E'. injection E' as <-. destruct (IH H1) as [H2 Hl2]. split; [exact H2|]. by rewrite Hl2.
Qed.
End tasks.
