(* ===== verification/Proc.v ===== *)
(** * Processes and their scheduler ([kernel/sched/proc.c], [scheduler.c])

    The first scheduler of the kernel: a list of processes, each with a list of
    threads.  The process list has the same code as the thread lists, see
    [Threads.v]. *)

From S2P Require Import Prelude Memory Kalloc Ring Threads Context Percpu Spinlock SmpSched.

(** [struct proc] *)
Definition PR_PID : Z := 0.
Definition PR_KILLED : Z := 8.
Definition PR_THREADS : Z := 16.

Definition ROUNDS_PER_PROC : Z := 5.

(** The variables of [proc.c] and [scheduler.c], [current_pid] being static in
    [generate_pid]. *)
Record procs := Procs {
  pr_sys : system;
  pid_lock : spinlock;
  proc_lock : spinlock;
  proc_list : Z;
  current_pid : Z;
  current_proc_rounds : Z;
  kcontext_ptr : Z
}.

Definition in_sys {A} (c : M system A) : M procs A := λ s,
  match c (pr_sys s) with
  | Ret (a, sys) =>
      Ret (a, Procs sys (pid_lock s) (proc_lock s) (proc_list s) (current_pid s)
                (current_proc_rounds s) (kcontext_ptr s))
  | Panic msg => Panic msg
  | Undef => Undef
  | OutOfFuel => OutOfFuel
  end.
Definition with_pid_lock (c : spinlock → M system spinlock) : M procs () := λ s,
  match c (pid_lock s) (pr_sys s) with
  | Ret (lk, sys) =>
      Ret ((), Procs sys lk (proc_lock s) (proc_list s) (current_pid s)
                 (current_proc_rounds s) (kcontext_ptr s))
  | Panic msg => Panic msg
  | Undef => Undef
  | OutOfFuel => OutOfFuel
  end.
Definition with_proc_lock (c : spinlock → M system spinlock) : M procs () := λ s,
  match c (proc_lock s) (pr_sys s) with
  | Ret (lk, sys) =>
      Ret ((), Procs sys (pid_lock s) lk (proc_list s) (current_pid s)
                 (current_proc_rounds s) (kcontext_ptr s))
  | Panic msg => Panic msg
  | Undef => Undef
  | OutOfFuel => OutOfFuel
  end.
Definition set_proc_list (l : Z) : M procs () := modify (λ s,
  Procs (pr_sys s) (pid_lock s) (proc_lock s) l (current_pid s) (current_proc_rounds s) (kcontext_ptr s)).
Definition set_current_pid (p : Z) : M procs () := modify (λ s,
  Procs (pr_sys s) (pid_lock s) (proc_lock s) (proc_list s) p (current_proc_rounds s) (kcontext_ptr s)).
Definition set_rounds (r : Z) : M procs () := modify (λ s,
  Procs (pr_sys s) (pid_lock s) (proc_lock s) (proc_list s) (current_pid s) r (kcontext_ptr s)).
Definition kmem_of {A} (c : M kmem A) : M procs A := in_sys (on_kmem c).

(** ** Process lists *)

Definition push_proc_list (list proc : Z) : M kmem Z := push_list list proc.
Definition pop_proc_list {LK : Linker} (list : Z) : M kmem (Z * Z) :=
  pop_list "Empty proc list while popping" list.
Definition shift_proc_list (list : Z) : M kmem Z :=
  if list =? 0 then panic "Empty proc list while shifting" else rd64 (list + ND_NEXT).
Definition peek_proc_list (list : Z) : M kmem Z :=
  if list =? 0 then panic "Empty proc list while peeking" else rd64 (list + ND_DATA).

(** ** Processes *)

(** The pid passes through an [int]. *)
Definition generate_pid : M procs Z :=
  do* with_pid_lock (acquire_spinlock 1) in
  let* s := get in
  let local_pid := s32 (current_pid s) in
  do* set_current_pid (u64 (current_pid s + 1)) in
  do* with_pid_lock release_spinlock in
  ret (u64 local_pid).

Definition allocproc : M procs Z :=
  let* proc := kmem_of kalloc in
  if proc =? 0 then panic "Failed to alloc proc"
  else
    let* pid := generate_pid in
    do* kmem_of (wr64 (proc + PR_THREADS) 0) in
    do* kmem_of (wr32 (proc + PR_KILLED) 0) in
    do* with_proc_lock (acquire_spinlock 1) in
    let* s := get in
    let* l := kmem_of (push_proc_list (proc_list s) proc) in
    do* set_proc_list l in
    do* with_proc_lock release_spinlock in
    ret proc.

(** [push_thread_list(&(proc->threads), thread)] *)
Definition proc_push_thread (proc thread : Z) : M kmem () :=
  let* l := rd64 (proc + PR_THREADS) in
  let* l := push_thread_list l thread in
  wr64 (proc + PR_THREADS) l.

(** [thread_function] is the address of that function; [arg1], [arg2],
    [arg_value1] and [arg_value2] those of the static variables. *)
Definition procinit (thread_function arg1 arg2 arg_value1 arg_value2 : Z) : M procs Z :=
  do* modify (λ s, Procs (pr_sys s) (init_spinlock (pid_lock s) "pid_lock")
        (init_spinlock (proc_lock s) "proc_lock") (proc_list s) (current_pid s)
        (current_proc_rounds s) (kcontext_ptr s)) in
  let* init_proc := allocproc in
  do* kmem_of (wr64 (arg1 + 8) 4) in
  do* kmem_of (wr64 arg1 arg_value1) in
  do* kmem_of (wr64 (arg2 + 8) 4) in
  do* kmem_of (wr64 arg2 arg_value2) in
  let* new_thread1 := kmem_of (create_thread thread_function 1 arg1) in
  let* new_thread2 := kmem_of (create_thread thread_function 1 arg2) in
  do* kmem_of (change_thread_state new_thread1 RUNNABLE) in
  do* kmem_of (change_thread_state new_thread2 RUNNABLE) in
  do* kmem_of (proc_push_thread init_proc new_thread1) in
  do* kmem_of (proc_push_thread init_proc new_thread2) in
  let* s := get in
  ret (proc_list s).

(** ** The scheduler *)

(** [peek_thread_list(proc->threads)] and [shift_thread_list(&(proc->threads))] *)
Definition proc_peek (proc : Z) : M kmem Z :=
  let* l := rd64 (proc + PR_THREADS) in
  peek_thread_list l.
Definition proc_shift (proc : Z) : M kmem () :=
  let* l := rd64 (proc + PR_THREADS) in
  let* l := shift_thread_list l in
  wr64 (proc + PR_THREADS) l.

(** The inner loop: a runnable thread of [proc], or none after a round. *)
Fixpoint thread_loop (fuel : nat) (proc first_thread : Z) : M kmem (option Z) :=
  match fuel with
  | O => out_of_fuel
  | S fuel =>
      let* t := proc_peek proc in
      do* proc_shift proc in
      let* s := get in
      if thread_runnable (km_mem s) t then ret (Some t)
      else
        let* t' := proc_peek proc in
        if t' =? first_thread then ret None else thread_loop fuel proc first_thread
  end.

(** One turn of the outer loop: the threads of the first process. *)
Definition proc_turn : M procs (option Z) :=
  let* s := get in
  let* proc := kmem_of (peek_proc_list (proc_list s)) in
  let* threads := kmem_of (rd64 (proc + PR_THREADS)) in
  if threads =? 0 then panic "schedule: proc with no threads"
  else
    let* first_thread := kmem_of (proc_peek proc) in
    kmem_of (thread_loop ring_fuel proc first_thread).

Definition shift_procs : M procs () :=
  let* s := get in
  let* l := kmem_of (shift_proc_list (proc_list s)) in
  set_proc_list l.

Fixpoint proc_loop (fuel : nat) (first_proc : Z) : M procs Z :=
  match fuel with
  | O => out_of_fuel
  | S fuel =>
      let* r := proc_turn in
      match r with
      | Some t => ret t
      | None =>
          do* set_rounds 0 in
          do* shift_procs in
          let* s := get in
          let* p := kmem_of (peek_proc_list (proc_list s)) in
          if p =? first_proc then panic "shcedule: no available threads"
          else proc_loop fuel first_proc
      end
  end.

Definition get_next_thread : M procs Z :=
  let* s := get in
  if proc_list s =? 0 then panic "schedule: no procs"
  else
    let* first_proc := kmem_of (peek_proc_list (proc_list s)) in
    do* (if ROUNDS_PER_PROC <=? current_proc_rounds s then
           do* set_rounds 0 in
           shift_procs
         else ret ()) in
    proc_loop ring_fuel first_proc.

(** One round of [scheduler], up to the switch from the context behind
    [kcontext_ptr] into that of the thread it picked, which is the result. *)
Definition scheduler_round : M procs Z :=
  let* next := get_next_thread in
  let* cpu := in_sys mycpu in
  do* in_sys (update cpu (set_current next)) in
  kmem_of (rd64 (next + TH_CONTEXT)).

(** [yield]: the arguments of the switch, the address of the thread's context
    variable and the scheduler's context. *)
Definition yield : M procs (Z * Z) :=
  let* cpu := in_sys mycpu in
  let* c := in_sys (deref cpu) in
  let* s := get in
  ret (current_thread c + TH_CONTEXT, kcontext_ptr s).

(** * Properties *)

Section threads.
Context {LK : Linker}.

(** The process [proc] has the threads [l]. *)
Definition proc_ok (k : kmem) (fl : list Z) (proc : Z) (l : list (Z * Z)) : Prop :=
  page_ok proc ∧ (proc ∉ l.*1 ++ fl) ∧ (proc ∉ l.*2) ∧ Forall page_ok l.*2 ∧
  queue_ok k fl (load64 (km_mem k) (proc + PR_THREADS)) l.

(** Changing the variable [proc->threads] changes no list. *)
Lemma proc_store k fl proc l h h' :
  page_ok proc → (proc ∉ l.*1 ++ fl) → 0 ≤ h' < 2 ^ 64 → queue_ok k fl h l → h' = default 0 (hd_error l.*1) →
  queue_ok (set_mem (store64 (km_mem k) (proc + PR_THREADS) h') k) fl
    (load64 (store64 (km_mem k) (proc + PR_THREADS) h') (proc + PR_THREADS)) l.
Proof.
  intros Hp Hn Hh (Hf & Hnd & Hpages & _ & Hr & Hd) ->. rewrite load64_store64 by done.
  assert (only_changes (km_mem k) (store64 (km_mem k) (proc + PR_THREADS) (default 0 (hd_error l.*1))) proc PGSIZE) as Hch
    by (eapply only_changes_sub; [apply store64_changes|unfold PR_THREADS; lia|unfold PR_THREADS, PGSIZE; lia]).
  rewrite not_elem_of_app in Hn. destruct Hn as [Hn1 Hn2]. split; [|split; [done|split; [done|]]].
  - eapply free_list_frame; [done|]. eapply pages_kept_only_changes; [done|apply Hp|apply Hf|done].
  - eapply queue_frame; [|done]. eapply pages_kept_only_changes; [done|apply Hp|done|done].
Qed.

Lemma proc_shift_result k fl proc n t l :
  proc_ok k fl proc ((n, t) :: l) →
  proc_peek proc k = Ret (t, k) ∧
  ∃ k', proc_shift proc k = Ret ((), k') ∧ proc_ok k' fl proc (l ++ [(n, t)]) ∧
    only_changes (km_mem k) (km_mem k') proc PGSIZE.
Proof.
  intros (Hp & Hn & Hn2 & Hpt & Hq).
  assert (load64 (km_mem k) (proc + PR_THREADS) = n) as Hh by apply Hq. rewrite Hh in Hq.
  destruct (queue_elem_ok _ _ _ _ n t Hq ltac:(left)) as [Hnp Hdat].
  pose proof (page_ok_nonzero _ Hnp) as Hn0. apply Z.eqb_neq in Hn0.
  destruct (shift_list_result _ _ _ _ _ Hq) as [Hnx Hq'].
  split.
  - unfold proc_peek, bind, rd64. rewrite Hh. unfold peek_thread_list. rewrite Hn0. unfold rd64.
    by rewrite <- Hdat.
  - eexists. split.
    { unfold proc_shift, bind at 1, rd64 at 1. rewrite Hh. unfold shift_thread_list. rewrite Hn0.
      unfold bind, rd64. fold (nx (km_mem k) n). rewrite Hnx. reflexivity. }
    assert (page_ok (default n (hd_error l.*1))) as Hhp.
    { destruct Hq' as (_ & _ & Hpages & _). destruct l as [|[a b] l]; [done|]. by inversion Hpages. }
    split.
    + split; [done|]. rewrite fmap_app. cbn [fmap list_fmap fst snd] in Hn, Hn2 |- *.
      split; [clear -Hn; set_solver|].
      rewrite fmap_app. cbn [fmap list_fmap snd].
      split; [clear -Hn2; set_solver|].
      split; [apply Forall_app; cbn [fmap list_fmap snd] in Hpt; apply Forall_cons in Hpt as [? ?]; split; [done|by constructor]|].
      eapply proc_store; [done| |by apply page_ok_u64|exact Hq'|by destruct l].
      rewrite fmap_app. cbn [fmap list_fmap fst]. clear -Hn. set_solver.
    + cbn [km_mem set_mem]. eapply only_changes_sub; [apply store64_changes|unfold PR_THREADS; lia|unfold PR_THREADS, PGSIZE; lia].
Qed.

Lemma runnable_other m m' proc t :
  only_changes m m' proc PGSIZE → page_ok proc → page_ok t → t ≠ proc →
  thread_runnable m' t = thread_runnable m t.
Proof.
  intros Hch Hp Ht Hne. apply runnable_agree. eapply only_changes_agree; [exact Hch|].
  apply pages_disjoint; [apply Ht|apply Hp|done].
Qed.

Lemma thread_loop_result fuel k fl proc d0 l1 n t l2 m0 :
  proc_ok k fl proc (((n, t) :: l2) ++ l1) → hd_error (l1 ++ (n, t) :: l2).*2 = Some d0 →
  NoDup (l1 ++ (n, t) :: l2).*2 → only_changes m0 (km_mem k) proc PGSIZE → (length l2 < fuel)%nat →
  ∃ k', only_changes m0 (km_mem k') proc PGSIZE ∧
  match next_runnable m0 l1 ((n, t) :: l2) with
  | Some (t', l') => thread_loop fuel proc d0 k = Ret (Some t', k') ∧ proc_ok k' fl proc l'
  | None => thread_loop fuel proc d0 k = Ret (None, k') ∧ proc_ok k' fl proc (l1 ++ (n, t) :: l2)
  end.
Proof.
  revert fuel k l1 n t. induction l2 as [|[n2 t2] l2 IH];
    intros [|fuel] k l1 n t Hok Hd0 Hnd Hch Hfuel; simpl in Hfuel; try lia.
  all: destruct (proc_shift_result k fl proc n t _ Hok) as (Epeek & k1 & Eshift & Hok1 & Hch1).
  all: assert (only_changes m0 (km_mem k1) proc PGSIZE) as Hch' by (by eapply only_changes_trans).
  all: assert (thread_runnable (km_mem k1) t = thread_runnable m0 t) as Hrun
    by (pose proof Hok as (Hp & _ & Hn2 & Hpt & _); cbn [app fmap list_fmap snd] in Hn2, Hpt;
        apply Forall_cons in Hpt as [? _]; rewrite not_elem_of_cons in Hn2;
        eapply runnable_other; [done..|]; intros ->; tauto).
  all: cbn [thread_loop]; rewrite (bind_ret _ _ _ _ _ Epeek), (bind_ret _ _ _ _ _ Eshift), bind_get, Hrun.
  all: cbn [next_runnable app] in *; destruct (thread_runnable m0 t).
  - exists k1. done.
  - destruct (l1 ++ [(n, t)]) as [|[nh th] lr] eqn:El; [by destruct l1|]. cbn [fmap list_fmap snd hd_error] in Hd0.
    injection Hd0 as <-. destruct (proc_shift_result k1 fl proc nh th lr Hok1) as (Ep & _).
    exists k1. rewrite (bind_ret _ _ _ _ _ Ep), Z.eqb_refl. done.
  - exists k1. split; [done|]. split; [done|]. by rewrite <- app_assoc in Hok1.
  - rewrite <- app_assoc in Hok1. cbn [app] in Hok1.
    destruct (proc_shift_result k1 fl proc n2 t2 _ Hok1) as (Ep & _). rewrite (bind_ret _ _ _ _ _ Ep).
    destruct (Z.eqb_spec t2 d0) as [->|Hne].
    { exfalso. destruct l1 as [|[a b] l1]; cbn [app fmap list_fmap snd hd_error] in Hd0, Hnd;
        injection Hd0 as ->; apply NoDup_cons in Hnd as [Hx _]; apply Hx; [left|].
      rewrite fmap_app, elem_of_app. right. cbn [fmap list_fmap snd]. right. left. }
    replace (l1 ++ (n, t) :: (n2, t2) :: l2) with ((l1 ++ [(n, t)]) ++ (n2, t2) :: l2) in *
      by (by rewrite <- app_assoc).
    apply (IH fuel k1 (l1 ++ [(n, t)]) n2 t2); try done. lia.
Qed.

(** The state with another memory. *)
Definition with_kmem (k : kmem) (s : procs) : procs :=
  Procs (set_kmem k (pr_sys s)) (pid_lock s) (proc_lock s) (proc_list s) (current_pid s)
    (current_proc_rounds s) (kcontext_ptr s).
Definition pr_mem (s : procs) : mem := km_mem (sy_kmem (pr_sys s)).

Lemma kmem_of_ret {A} (c : M kmem A) s a k :
  c (sy_kmem (pr_sys s)) = Ret (a, k) → kmem_of c s = Ret (a, with_kmem k s).
Proof. intros E. unfold kmem_of, in_sys. by rewrite (on_kmem_ret _ _ _ _ E). Qed.

Lemma with_kmem_same s : with_kmem (sy_kmem (pr_sys s)) s = s.
Proof. by destruct s as [[]]. Qed.

Lemma kmem_of_pure {A} (c : M kmem A) s a :
  c (sy_kmem (pr_sys s)) = Ret (a, sy_kmem (pr_sys s)) → kmem_of c s = Ret (a, s).
Proof. intros E. rewrite (kmem_of_ret _ _ _ _ E). by rewrite with_kmem_same. Qed.

(** The process at the head of the list is [proc], with the threads [l], of
    which no two are the same. *)
Definition first_proc_ok (s : procs) (fl : list Z) (proc : Z) (l : list (Z * Z)) : Prop :=
  page_ok (proc_list s) ∧ proc_list s ≠ proc ∧ load64 (pr_mem s) (proc_list s + ND_DATA) = proc ∧
  proc_ok (sy_kmem (pr_sys s)) fl proc l ∧ NoDup l.*2 ∧ current_proc_rounds s < ROUNDS_PER_PROC.

Lemma get_next_thread_result s fl proc l t l' :
  first_proc_ok s fl proc l → next_runnable (pr_mem s) [] l = Some (t, l') →
  ∃ k', get_next_thread s = Ret (t, with_kmem k' s) ∧
    only_changes (pr_mem s) (km_mem k') proc PGSIZE ∧ first_proc_ok (with_kmem k' s) fl proc l'.
Proof.
  intros (Hpl & Hne & Hdat & Hok & Hnd & Hrounds) Hnext.
  pose proof (page_ok_nonzero _ Hpl) as Hpl0. apply Z.eqb_neq in Hpl0.
  destruct l as [|[n d] l]; [done|].
  assert (peek_proc_list (proc_list s) (sy_kmem (pr_sys s)) = Ret (proc, sy_kmem (pr_sys s))) as Epeek.
  { unfold peek_proc_list. rewrite Hpl0. unfold rd64. by rewrite <- Hdat. }
  destruct (proc_shift_result _ _ _ _ _ _ Hok) as (Ep & _).
  assert (load64 (pr_mem s) (proc + PR_THREADS) = n) as Hh by (apply Hok).
  assert (n ≠ 0) as Hn0.
  { destruct Hok as (_ & _ & _ & _ & Hq). destruct (queue_without _ _ _ [] _ _ _ Hq) as (Hn & _).
    by apply page_ok_nonzero. }
  assert (length l < ring_fuel)%nat as Hfuel.
  { destruct Hok as (_ & _ & _ & _ & Hq). apply queue_fuel in Hq. simpl in Hq. lia. }
  destruct (thread_loop_result ring_fuel (sy_kmem (pr_sys s)) fl proc d [] n d l (pr_mem s))
    as (k' & Hch & Hres); [by rewrite app_nil_r|done|done|apply only_changes_refl|lia|].
  rewrite Hnext in Hres. destruct Hres as [Eloop Hok'].
  exists k'. split; [|split; [done|]].
  - unfold get_next_thread. rewrite bind_get, Hpl0.
    rewrite (bind_ret _ _ _ _ _ (kmem_of_pure _ _ _ Epeek)).
    destruct (Z.leb_spec ROUNDS_PER_PROC (current_proc_rounds s)); [lia|].
    unfold bind at 1, ret at 1. assert (∃ f, ring_fuel = S f) as [f Ef].
    { unfold ring_fuel, count_fuel. change (PHYSTOP / PGSIZE) with 32768. exists (Z.to_nat 32768). lia. }
    assert (proc_turn s = Ret (Some t, with_kmem k' s)) as Eturn.
    { unfold proc_turn. rewrite bind_get, (bind_ret _ _ _ _ _ (kmem_of_pure _ _ _ Epeek)).
      rewrite (bind_ret _ _ _ _ _ (kmem_of_pure (rd64 (proc + PR_THREADS)) s n ltac:(unfold rd64; by rewrite <- Hh))).
      destruct (Z.eqb_spec n 0); [done|].
      rewrite (bind_ret _ _ _ _ _ (kmem_of_pure _ _ _ Ep)). by apply kmem_of_ret. }
    rewrite Ef. cbn [proc_loop]. by rewrite (bind_ret _ _ _ _ _ Eturn).
  - destruct (next_runnable_some _ _ _ _ _ Hnext) as (l1 & n' & l2 & El & -> & _).
    split; [done|]. split; [done|]. split; [|split; [done|split; [|done]]].
    + unfold pr_mem. cbn [pr_sys with_kmem sy_kmem set_kmem proc_list]. 
      transitivity (load64 (pr_mem s) (proc_list s + ND_DATA)); [|done].
      apply load64_agree. eapply agree_sub; [eapply only_changes_agree; [exact Hch|]|..].
      * apply (pages_disjoint (proc_list s) proc); [apply Hpl|apply Hok|done].
      * unfold ND_DATA. lia.
      * unfold ND_DATA, PGSIZE. lia.
    + rewrite El in Hnd. cbn [app]. rewrite Permutation_app_comm. rewrite <- app_assoc. done.
Qed.

(** [n] calls in a row, and what they return. *)
Fixpoint next_threads (n : nat) : M procs (list Z) :=
  match n with
  | O => ret []
  | S n =>
      let* t := get_next_thread in
      let* ts := next_threads n in
      ret (t :: ts)
  end.

Lemma next_runnable_exists m before l :
  Exists (λ t, thread_runnable m t = true) l.*2 → is_Some (next_runnable m before l).
Proof.
  revert before. induction l as [|[n d] l IH]; intros before; cbn [fmap list_fmap snd]; [by inversion 1|].
  rewrite Exists_cons. cbn [next_runnable]. destruct (thread_runnable m d); [by eexists|].
  intros [?|?]; [done|]. by apply IH.
Qed.

(** The runnable threads of [l], in order. *)
Definition runnables (m : mem) (l : list (Z * Z)) : list Z := filter (λ t, thread_runnable m t = true) l.*2.

(** [n] turns of the threads [ts]: the first of them goes to the end. *)
Fixpoint turns (n : nat) (ts : list Z) : list Z :=
  match n, ts with
  | S n, t :: ts => t :: turns n (ts ++ [t])
  | _, _ => []
  end.

Lemma turns_lookup n : ∀ ts i, ts ≠ [] → (i < n)%nat → turns n ts !! i = ts !! (i mod length ts)%nat.
Proof using Type.
  induction n as [|n IH]; intros ts i Hne Hi; [lia|]. destruct ts as [|t ts]; [done|]. cbn [turns].
  destruct i as [|i]; [by rewrite Nat.Div0.mod_0_l|]. cbn [lookup list_lookup]. change (list_lookup i ?x) with (x !! i).
  rewrite IH by (lia || by destruct ts). rewrite length_app. cbn [length]. rewrite Nat.add_1_r.
  set (k := S (length ts)). pose proof (Nat.mod_upper_bound i k ltac:(lia)) as Hk.
  pose proof (Nat.Div0.add_mod i 1 k) as Hs. rewrite Nat.add_1_r in Hs. rewrite Hs.
  destruct (decide ((i mod k)%nat = length ts)) as [E|E].
  - rewrite E. rewrite list_lookup_middle by done. destruct (decide (length ts = 0%nat)) as [E0|E0].
    + unfold k. rewrite E0. done.
    + rewrite (Nat.mod_small 1 k) by lia. rewrite Nat.add_1_r. fold k. by rewrite Nat.Div0.mod_same.
  - rewrite lookup_app_l by lia. rewrite (Nat.mod_small 1 k) by lia. rewrite Nat.add_1_r, (Nat.mod_small (S _) k) by lia. done.
Qed.

Lemma turns_length n : ∀ ts, ts ≠ [] → length (turns n ts) = n.
Proof using Type.
  induction n as [|n IH]; intros [|t ts] Hne; try done. cbn [turns length]. rewrite IH; [done|]. by destruct ts.
Qed.

Lemma runnables_agree m m' l : (∀ t, t ∈ l.*2 → thread_runnable m' t = thread_runnable m t) → runnables m' l = runnables m l.
Proof using Type.
  unfold runnables. induction l.*2 as [|t ts IH]; intros H; [done|].
  rewrite !filter_cons, (H t ltac:(left)), IH by (intros x Hx; apply H; by right). done.
Qed.

(** Taking the first runnable thread is a turn. *)
Lemma runnables_turn m l1 nd t l2 :
  Forall (λ x, thread_runnable m x = false) l1.*2 → thread_runnable m t = true →
  ∃ ts, runnables m (l1 ++ (nd, t) :: l2) = t :: ts ∧ runnables m (l2 ++ l1 ++ [(nd, t)]) = ts ++ [t].
Proof using Type.
  intros H1 Ht. exists (runnables m l2). unfold runnables.
  assert (filter (λ t, thread_runnable m t = true) l1.*2 = []) as E1.
  { clear -H1. induction H1 as [|x l Hx _ IH]; [done|]. rewrite filter_cons_False by congruence. exact IH. }
  rewrite !fmap_app, !filter_app, E1. cbn [fmap list_fmap snd]. by rewrite !filter_cons_True by done.
Qed.

Lemma next_threads_turns fl proc n : ∀ s l,
  first_proc_ok s fl proc l → runnables (pr_mem s) l ≠ [] →
  ∃ s', next_threads n s = Ret (turns n (runnables (pr_mem s) l), s') ∧
    proc_list s' = proc_list s ∧ current_proc_rounds s' = current_proc_rounds s.
Proof.
  induction n as [|n IH]; intros s l Hok Hne; [by exists s|].
  destruct (next_runnable_exists (pr_mem s) [] l) as [[t l'] Hnext].
  { apply Exists_exists. destruct (runnables (pr_mem s) l) as [|x r] eqn:E; [done|]. exists x.
    assert (x ∈ runnables (pr_mem s) l) as Hx by (rewrite E; left). unfold runnables in Hx.
    apply list_elem_of_filter in Hx as [? ?]. done. }
  destruct (get_next_thread_result s fl proc l t l' Hok Hnext) as (k' & E & Hch & Hok').
  destruct (next_runnable_some _ _ _ _ _ Hnext) as (l1 & nd & l2 & El & El' & Hrun & Hnot).
  assert (∀ x, x ∈ l.*2 → thread_runnable (km_mem k') x = thread_runnable (pr_mem s) x) as Hsame.
  { destruct Hok as (_ & _ & _ & (Hp & _ & Hn2 & Hpt & _) & _). intros x Hx.
    eapply runnable_other; [exact Hch|done| |by intros ->].
    by apply (proj1 (Forall_forall _ _) Hpt). }
  destruct (runnables_turn (pr_mem s) l1 nd t l2 Hnot Hrun) as (ts & E1 & E2).
  assert (runnables (pr_mem (with_kmem k' s)) l' = ts ++ [t]) as Er.
  { rewrite <- E2, El'. apply runnables_agree. intros x Hx. apply Hsame. rewrite El. clear -Hx. cbn [app] in Hx.
    rewrite !fmap_app, !elem_of_app in *. cbn [fmap list_fmap snd] in *. rewrite elem_of_cons in *.
    rewrite elem_of_nil in Hx. tauto. }
  destruct (IH (with_kmem k' s) l' Hok') as (s' & E' & Hpl & Hr); [rewrite Er; by destruct ts|].
  exists s'. cbn [next_threads]. rewrite (bind_ret _ _ _ _ _ E), (bind_ret _ _ _ _ _ E'), Er, El, E1. done.
Qed.

(** C28. The scheduler of processes starves: [current_proc_rounds] is compared
    with the limit of 5 rounds but never incremented, so that, when the first
    process has a runnable thread and no thread changes its state between the
    calls, [get_next_thread] returns, however often it is called, exactly the
    runnable threads of that process in turn - the [i]-th call the one with the
    index [i] modulo their number -, and the list of processes does not advance. *)
Theorem get_next_thread_starves s fl proc l n (r := runnables (pr_mem s) l) :
  first_proc_ok s fl proc l → r ≠ [] →
  ∃ ts s', next_threads n s = Ret (ts, s') ∧ length ts = n ∧
    (∀ i, (i < n)%nat → ts !! i = r !! (i mod length r)%nat) ∧
    proc_list s' = proc_list s ∧ current_proc_rounds s' = current_proc_rounds s.
Proof.
  intros Hok Hne. destruct (next_threads_turns fl proc n s l Hok Hne) as (s' & E & Hpl & Hr).
  exists (turns n r), s'. split; [exact E|]. split; [by apply turns_length|]. split; [|done].
  intros i Hi. by apply turns_lookup.
Qed.
End threads.

(** ** Witness *)

(** Two processes: the first, at 0x600000, with the runnable threads 0x500000 and
    0x580000 and, between them, 0x540000, which waits; the second, at 0x680000, with
    the runnable thread 0x5C0000. *)
Definition demo_thread_node (n next prev d : Z) (m : mem) : mem :=
  store64 (store64 (store64 m (n + ND_DATA) d) (n + ND_NEXT) next) (n + ND_PREV) prev.
Definition demo_threads : list (Z * Z) := [(0x400000, 0x500000); (0x440000, 0x540000); (0x480000, 0x580000)].
Definition demo_procs_kmem : kmem :=
  Kmem (foldr (λ x m, store32 m (x.1 + TH_STATE) (state_code x.2))
    (demo_thread_node 0x700000 0x780000 0x780000 0x600000 (demo_thread_node 0x780000 0x700000 0x700000 0x680000
      (demo_thread_node 0x400000 0x440000 0x480000 0x500000 (demo_thread_node 0x440000 0x480000 0x400000 0x540000
        (demo_thread_node 0x480000 0x400000 0x440000 0x580000 (demo_thread_node 0x4C0000 0x4C0000 0x4C0000 0x5C0000
          (store64 (store64 (km_mem demo_kmem) (0x600000 + PR_THREADS) 0x400000) (0x680000 + PR_THREADS) 0x4C0000)))))))
    [(0x500000, RUNNABLE); (0x540000, WAIT); (0x580000, RUNNABLE); (0x5C0000, RUNNABLE)]) (km_freelist demo_kmem).
Definition demo_procs : procs :=
  Procs (set_kmem demo_procs_kmem demo_smp) (Spinlock 0 "pid_lock") (Spinlock 0 "proc_lock") 0x700000 0 0 0x800000.

Lemma demo_procs_ok : first_proc_ok (LK := demo_linker) demo_procs [0x300000; 0x200000] 0x600000 demo_threads.
Proof.
  split; [split; vm_compute; done|]. split; [done|]. split; [vm_compute; reflexivity|].
  split; [|split; [apply (bool_decide_unpack _); vm_compute; exact I|reflexivity]].
  split; [split; vm_compute; done|].
  split; [apply (bool_decide_unpack _); vm_compute; exact I|].
  split; [apply (bool_decide_unpack _); vm_compute; exact I|].
  split; [apply (bool_decide_unpack _); vm_compute; exact I|].
  split; [|split; [|split]].
  - split; [vm_compute; done|]. split; apply (bool_decide_unpack _); vm_compute; exact I.
  - apply (bool_decide_unpack _). vm_compute. exact I.
  - apply (bool_decide_unpack _). vm_compute. exact I.
  - split; [vm_compute; reflexivity|]. split; [repeat split; vm_compute; reflexivity|].
    apply (bool_decide_unpack _). vm_compute. exact I.
Qed.

(** Seven calls: the two runnable threads of the first process take turns, and the
    thread of the second process never runs. *)
Lemma get_next_thread_starves_witness :
  ∃ s', next_threads 7 demo_procs =
    Ret ([0x500000; 0x580000; 0x500000; 0x580000; 0x500000; 0x580000; 0x500000], s') ∧ proc_list s' = 0x700000.
Proof.
  destruct (get_next_thread_starves (LK := demo_linker) demo_procs [0x300000; 0x200000] 0x600000
    demo_threads 7 demo_procs_ok) as (ts & s' & E & Hlen & Hts & Hpl & _).
  - vm_compute. discriminate.
  - exists s'. split; [|exact Hpl]. rewrite E. do 2 f_equal. apply list_eq. intros i.
    destruct (decide (i < 7)%nat) as [Hi|Hi].
    + rewrite (Hts i Hi). do 7 (destruct i as [|i]; [vm_compute; reflexivity|]). lia.
    + rewrite !lookup_ge_None_2; [done|cbn; lia|lia].
Defined.
