(* ===== verification/Mutex.v ===== *)
(** * Mutexes ([kernel/sync/mutex.c])

    A mutex is a spinlock in a page of its own and a list of the threads that
    wait.  [acquire_mutex] is cut where it calls [yield]: its first part ends
    with the arguments of the switch, and [resume_mutex] is what the thread
    does when it is switched back to. *)

From S2P Require Import Prelude Memory Kalloc Ring Threads Context Percpu Spinlock SmpSched Proc.

(** [struct mutex], and the name in [struct spinlock] *)
Definition MX_SPINLOCK : Z := 0.
Definition MX_THREADS : Z := 8.
Definition SL_NAME : Z := 8.

(** The operations of [Spinlock.v] on a lock at the address [a]; they do not
    use its name. *)
Definition lock_at (a : Z) (c : spinlock → M system spinlock) : M system () :=
  let* w := on_kmem (rd32 a) in
  let* lk := c (Spinlock w "") in
  on_kmem (wr32 a (lk_word lk)).
Definition holding_at (a : Z) : M system Z :=
  let* w := on_kmem (rd32 a) in
  holding_spinlock (Spinlock w "").

(** [init_spinlock] on a lock in memory: a byte and the name. *)
Definition init_lock_at (a name : Z) : M kmem () :=
  do* (λ k, Ret ((), set_mem (store8 (km_mem k) a 0) k)) in
  wr64 (a + SL_NAME) name.

Definition init_mutex (lk name : Z) : M kmem () :=
  let* sp := kalloc in
  do* wr64 (lk + MX_SPINLOCK) sp in
  do* wr64 (lk + MX_THREADS) 0 in
  let* sp := rd64 (lk + MX_SPINLOCK) in
  init_lock_at sp name.

(** [lk->spinlock] *)
Definition mutex_lock (lk : Z) : M procs Z := kmem_of (rd64 (lk + MX_SPINLOCK)).

(** The mutex is acquired, or the thread calls [yield], which switches from
    the context saved in [*old] to [new]. *)
Inductive acquired := Acquired | Yields (old new : Z).

(** From the label [check_mutex] on. *)
Definition check_mutex (fuel : nat) (lk : Z) : M procs acquired :=
  let* sp := mutex_lock lk in
  let* locked := in_sys (holding_at sp) in
  if locked =? 0 then
    let* sp := mutex_lock lk in
    do* in_sys (lock_at sp (acquire_spinlock fuel)) in
    ret Acquired
  else
    let* cpu := in_sys mycpu in
    let* c := in_sys (deref cpu) in
    let* l := kmem_of (rd64 (lk + MX_THREADS)) in
    let* l := kmem_of (push_thread_list l (current_thread c)) in
    do* kmem_of (wr64 (lk + MX_THREADS) l) in
    let* cpu := in_sys mycpu in
    let* c := in_sys (deref cpu) in
    do* kmem_of (change_thread_state (current_thread c) WAIT) in
    let* y := yield in
    ret (Yields (fst y) (snd y)).

Definition acquire_mutex (fuel : nat) (lk : Z) : M procs acquired :=
  if lk =? 0 then panic "panic in acquire_mutex" else check_mutex fuel lk.

(** After [yield] has returned. *)
Definition resume_mutex (fuel : nat) (lk : Z) : M procs acquired :=
  let* sp := mutex_lock lk in
  let* locked := in_sys (holding_at sp) in
  if negb (locked =? 0) then panic "acquire_mutex: spinlock in not free"
  else check_mutex fuel lk.

Section mutex.
Context {LK : Linker}.

Definition release_mutex (lk : Z) : M procs () :=
  let* sp := mutex_lock lk in
  let* s := get in
  if byte_at (pr_mem s) sp =? 0 then panic "release_mutex"
  else
    let* l := kmem_of (rd64 (lk + MX_THREADS)) in
    if l =? 0 then
      let* sp := mutex_lock lk in
      in_sys (lock_at sp release_spinlock)
    else
      let* tl := kmem_of (pop_thread_list l) in
      do* kmem_of (wr64 (lk + MX_THREADS) (snd tl)) in
      kmem_of (change_thread_state (fst tl) RUNNABLE).

Definition destroy_mutex (lk : Z) : M kmem () := kfree lk.

(** * Properties *)

(** ** Locks in memory *)

Lemma mycpu_kmem k s r : mycpu s = Ret (r, s) → mycpu (set_kmem k s) = Ret (r, set_kmem k s).
Proof.
  unfold mycpu. rewrite !bind_get. cbn [percpu_fully_initialized set_kmem].
  destruct (percpu_fully_initialized s); cbn [negb]; [|by intros [= <-]].
  unfold bind, get_apic_id, gets. cbn [apic_to_cpu sy_hw ncpu percpus set_kmem].
  repeat case_match; intros [=]; by subst.
Qed.

Lemma deref_kmem k s r c : deref r s = Ret (c, s) → deref r (set_kmem k s) = Ret (c, set_kmem k s).
Proof.
  destruct r as [|i]; simpl; [by intros [= <-]|]. destruct (percpus s !! i); by intros [=]; subst.
Qed.

Lemma cli_inv_kmem k s r c : cli_inv s r c → cli_inv (set_kmem k s) r c.
Proof. intros ([H1 H2] & H3). split; [|done]. split; [by apply mycpu_kmem|by apply deref_kmem]. Qed.

Lemma left_section_kmem k s r c : left_section (set_kmem k s) r c = set_kmem k (left_section s r c).
Proof. by destruct r. Qed.
Lemma entered_kmem k s r c : entered (set_kmem k s) r c = set_kmem k (entered s r c).
Proof. by destruct r. Qed.

Lemma sy_kmem_left s r c : sy_kmem (left_section s r c) = sy_kmem s.
Proof. by destruct r. Qed.
Lemma sy_kmem_entered s r c : sy_kmem (entered s r c) = sy_kmem s.
Proof. by destruct r. Qed.
Lemma set_kmem_same s : set_kmem (sy_kmem s) s = s.
Proof. by destruct s. Qed.

Lemma byte_load32 m a : Z.land (load32 m a) 0xFF = byte_at m a.
Proof.
  rewrite (land_ones_mod _ 8 _ ltac:(lia) eq_refl). unfold load32.
  pose proof (byte_at_range m a). pose proof (byte_at_range m (a + 1)).
  simpl. zlia.
Qed.

Lemma holding_at_result s r c a :
  cli_inv s r c → holding_at a s = Ret (byte_at (km_mem (sy_kmem s)) a, left_section s r c).
Proof.
  intros Hinv. unfold holding_at. unfold bind at 1, on_kmem, rd32. rewrite set_kmem_same.
  rewrite (holding_result _ _ _ _ Hinv). unfold is_locked. cbn [lk_word]. by rewrite byte_load32.
Qed.

Lemma acquire_at_free s r c a fuel :
  cli_inv s r c → load32 (km_mem (sy_kmem s)) a = 0 →
  lock_at a (acquire_spinlock (S fuel)) s =
    Ret ((), set_kmem (set_mem (store32 (km_mem (sy_kmem s)) a 1) (sy_kmem s)) (entered s r c)).
Proof.
  intros Hinv Hw. unfold lock_at. unfold bind at 1, on_kmem at 1, rd32. rewrite set_kmem_same.
  destruct (acquire_free s r c (Spinlock (load32 (km_mem (sy_kmem s)) a) "") fuel Hinv Hw) as [E _].
  rewrite (bind_ret _ _ _ _ _ E). unfold on_kmem, wr32. by rewrite sy_kmem_entered.
Qed.

Lemma acquire_at_held s r c a fuel :
  cli_inv s r c → load32 (km_mem (sy_kmem s)) a ≠ 0 → lock_at a (acquire_spinlock fuel) s = OutOfFuel.
Proof.
  intros Hinv Hw. unfold lock_at. unfold bind at 1, on_kmem at 1, rd32. rewrite set_kmem_same.
  destruct (acquire_held_release_free s r c (Spinlock (load32 (km_mem (sy_kmem s)) a) "")
    (cli_room_le 16 1 _ _ _ ltac:(lia) Hinv)) as [E _].
  unfold bind. by rewrite E.
Qed.

Lemma release_at_entered s r c a k :
  cli_inv s r c → load32 (km_mem k) a = 1 →
  lock_at a release_spinlock (set_kmem k (entered s r c)) =
    Ret ((), set_kmem (set_mem (store32 (km_mem k) a 0) k) (left_section s r c)).
Proof.
  intros Hinv Hw. unfold lock_at. unfold bind at 1, on_kmem at 1, rd32.
  rewrite set_kmem_same. cbn [sy_kmem set_kmem]. rewrite Hw.
  rewrite <- entered_kmem. rewrite (bind_ret _ _ _ _ _ (release_entered _ _ _ "" (cli_inv_kmem k _ _ _ Hinv))).
  rewrite left_section_kmem. reflexivity.
Qed.

(** ** Lifting to the scheduler's state *)

Definition with_sys (sys : system) (s : procs) : procs :=
  Procs sys (pid_lock s) (proc_lock s) (proc_list s) (current_pid s)
    (current_proc_rounds s) (kcontext_ptr s).

Lemma in_sys_ret {A} (c : M system A) s a sys :
  c (pr_sys s) = Ret (a, sys) → in_sys c s = Ret (a, with_sys sys s).
Proof. intros E. unfold in_sys. by rewrite E. Qed.

Lemma bind_in_sys {A B} (c : M system A) (f : A → M procs B) s a sys :
  c (pr_sys s) = Ret (a, sys) → bind (in_sys c) f s = f a (with_sys sys s).
Proof. intros E. by rewrite (bind_ret _ _ _ _ _ (in_sys_ret _ _ _ _ E)). Qed.

Lemma bind_in_sys_pure {A B} (c : M system A) (f : A → M procs B) s a :
  c (pr_sys s) = Ret (a, pr_sys s) → bind (in_sys c) f s = f a s.
Proof. intros E. rewrite (bind_in_sys _ _ _ _ _ E). by destruct s. Qed.

Lemma bind_kmem_of {A B} (c : M kmem A) (f : A → M procs B) s a k :
  c (sy_kmem (pr_sys s)) = Ret (a, k) → bind (kmem_of c) f s = f a (with_kmem k s).
Proof. intros E. by rewrite (bind_ret _ _ _ _ _ (kmem_of_ret _ _ _ _ E)). Qed.

Lemma bind_mutex_lock {A} lk (f : Z → M procs A) s :
  bind (mutex_lock lk) f s = f (load64 (pr_mem s) (lk + MX_SPINLOCK)) s.
Proof.
  unfold mutex_lock. rewrite (bind_kmem_of _ _ _ _ _ eq_refl). by rewrite with_kmem_same.
Qed.

Lemma bind_rd64_of {A} a (f : Z → M procs A) s :
  bind (kmem_of (rd64 a)) f s = f (load64 (pr_mem s) a) s.
Proof. rewrite (bind_kmem_of _ _ _ _ _ eq_refl). by rewrite with_kmem_same. Qed.

(** ** An uncontended mutex *)

Lemma load32_zero m a i : load32 m a = 0 → 0 ≤ i < 4 → byte_at m (a + i) = 0.
Proof.
  unfold load32. simpl. pose proof (byte_at_range m a). pose proof (byte_at_range m (a + 1)).
  pose proof (byte_at_range m (a + 1 + 1)). pose proof (byte_at_range m (a + 1 + 1 + 1)).
  intros Hz Hi.
  assert (i = 0 ∨ i = 1 ∨ i = 2 ∨ i = 3) as [-> | [-> | [-> | ->]]] by lia;
    rewrite ?Z.add_0_r; replace (a + 2) with (a + 1 + 1) by lia;
    replace (a + 3) with (a + 1 + 1 + 1) by lia; lia.
Qed.

Lemma relocked_mem m a : load32 m a = 0 → mem_equiv m (store32 (store32 m a 1) a 0).
Proof.
  intros Hz b. destruct (decide (a ≤ b < a + 4)) as [Hb|Hb].
  - replace b with (a + (b - a)) by lia. rewrite (load32_zero m) by (done || lia).
    apply load32_zero; [|lia]. unfold load32, store32. by rewrite load_store_same.
  - transitivity (byte_at (store32 m a 1) b); apply store_changes; lia.
Qed.

Lemma load32_store32 m a v : 0 ≤ v < 2 ^ 32 → load32 (store32 m a v) a = v.
Proof. intros. unfold load32, store32. rewrite load_store_same. by apply Z.mod_small. Qed.

(** A mutex whose spinlock word is 0 and that nobody waits for: acquiring
    it returns with the spinlock held and interrupts off, and releasing it
    frees the spinlock and restores the memory and the interrupt flag. *)
Theorem mutex_uncontended s r c lk sp fuel (m := pr_mem s) :
  cli_inv (pr_sys s) r c → lk ≠ 0 → load64 m (lk + MX_SPINLOCK) = sp →
  load64 m (lk + MX_THREADS) = 0 → load32 m sp = 0 → apart sp 4 lk 16 →
  ∃ s1, acquire_mutex (S fuel) lk s = Ret (Acquired, s1) ∧
    load32 (pr_mem s1) sp = 1 ∧ hw_if (sy_hw (pr_sys s1)) = false ∧
    ∃ s2, release_mutex lk s1 = Ret ((), s2) ∧
      mem_equiv m (pr_mem s2) ∧ hw_if (sy_hw (pr_sys s2)) = hw_if (sy_hw (pr_sys s)).
Proof.
  intros Hinv Hlk Hsp Hl Hw Hap. pose proof (left_section_cli _ _ _ Hinv) as Hinv1.
  set (sys1 := left_section (pr_sys s) r c) in *. set (c1 := opened (pr_sys s) c) in *.
  set (k1 := set_mem (store32 m sp 1) (sy_kmem (pr_sys s))).
  assert (sy_kmem sys1 = sy_kmem (pr_sys s)) as Hk by apply sy_kmem_left.
  assert (byte_at m sp = 0) as Hb by (rewrite <- (Z.add_0_r sp); by apply load32_zero).
  assert (load32 (km_mem (sy_kmem sys1)) sp = 0) as Hw1 by (rewrite Hk; exact Hw).
  exists (with_sys (set_kmem k1 (entered sys1 r c1)) s).
  assert (∀ a, apart sp 4 a 8 → load64 (store32 m sp 1) a = load64 m a) as Hfr.
  { intros a Ha. apply load64_agree. eapply only_changes_agree; [apply store_changes|]. unfold apart in Ha. lia. }
  split; [|split; [|split; [by destruct r|]]].
  - unfold acquire_mutex, check_mutex. apply Z.eqb_neq in Hlk. rewrite Hlk, bind_mutex_lock.
    fold m. rewrite Hsp. rewrite (bind_in_sys _ _ _ _ _ (holding_at_result _ _ _ sp Hinv)).
    fold (pr_mem s) m. rewrite Hb. cbn [Z.eqb]. fold sys1. rewrite bind_mutex_lock.
    replace (pr_mem (with_sys sys1 s)) with m by (unfold pr_mem; cbn [pr_sys with_sys]; by rewrite Hk).
    rewrite Hsp.
    rewrite (bind_in_sys _ _ (with_sys sys1 s) _ _ (acquire_at_free sys1 r c1 sp fuel Hinv1 Hw1)).
    unfold ret. cbn [with_sys]. by rewrite Hk.
  - by apply load32_store32.
  - eexists. split.
    + unfold release_mutex. rewrite bind_mutex_lock, bind_get.
      change (pr_mem (with_sys (set_kmem k1 (entered sys1 r c1)) s)) with (store32 m sp 1).
      rewrite Hfr by (unfold apart, MX_SPINLOCK in *; lia). rewrite Hsp.
      rewrite <- byte_load32, load32_store32 by lia. change (Z.land 1 255 =? 0) with false. cbv iota.
      rewrite bind_rd64_of.
      change (pr_mem (with_sys (set_kmem k1 (entered sys1 r c1)) s)) with (store32 m sp 1).
      rewrite Hfr by (unfold apart, MX_THREADS in *; lia). rewrite Hl. cbn [Z.eqb].
      rewrite bind_mutex_lock.
      change (pr_mem (with_sys (set_kmem k1 (entered sys1 r c1)) s)) with (store32 m sp 1).
      rewrite Hfr by (unfold apart, MX_SPINLOCK in *; lia). rewrite Hsp.
      apply in_sys_ret, release_at_entered; [done|]. by apply load32_store32.
    + split; [by apply relocked_mem|]. by destruct r.
Qed.

(** ** A mutex after [init_mutex] *)

Lemma load32_bytes m a b0 b :
  byte_at m a = b0 → (∀ i, 1 ≤ i < 4 → byte_at m (a + i) = b) →
  load32 m a = b0 + 256 * (b + 256 * (b + 256 * b)).
Proof.
  intros H0 H. unfold load32. cbn [load]. rewrite H0.
  replace (a + 1 + 1 + 1) with (a + 3) by lia. replace (a + 1 + 1) with (a + 2) by lia.
  rewrite !H by lia. lia.
Qed.

(** [init_spinlock] clears one byte of the four that [xchg] exchanges. *)
Lemma init_mutex_result k p fl lk name :
  free_list k (p :: fl) → page_ok lk → lk ∉ p :: fl →
  ∃ k', init_mutex lk name k = Ret ((), k') ∧ free_list k' fl ∧
    load64 (km_mem k') (lk + MX_SPINLOCK) = p ∧ load64 (km_mem k') (lk + MX_THREADS) = 0 ∧
    byte_at (km_mem k') p = 0 ∧ load32 (km_mem k') p = 0x05050500.
Proof.
  intros Hf Hlk Hn. destruct (kalloc_rep k p fl Hf) as (k1 & Ek & Hf1 & _ & H5).
  assert (page_ok p) as Hp by (destruct Hf as (_ & _ & Hpf); by inversion Hpf).
  apply not_elem_of_cons in Hn as [Hlp Hn].
  assert (p ∉ fl) as Hpf by (destruct Hf as (_ & Hnd & _); by apply NoDup_cons in Hnd as [? _]).
  pose proof (pages_disjoint lk p (proj1 Hlk) (proj1 Hp) Hlp) as Hdis. unfold PGSIZE in Hdis, H5.
  set (m2 := store64 (store64 (km_mem k1) (lk + MX_SPINLOCK) p) (lk + MX_THREADS) 0).
  assert (load64 m2 (lk + MX_SPINLOCK) = p) as E2.
  { subst m2. rewrite load64_store64_other by (unfold MX_SPINLOCK, MX_THREADS; lia).
    apply load64_store64. by apply page_ok_u64. }
  set (m3 := store8 m2 p 0). set (m4 := store64 m3 (p + SL_NAME) name).
  assert (only_changes m2 m4 p PGSIZE) as Hch.
  { eapply only_changes_trans; (eapply only_changes_sub; [apply store_changes|..]);
      unfold SL_NAME, PGSIZE; lia. }
  assert (∀ a, lk ≤ a → a + 8 ≤ lk + 4096 → load64 m4 a = load64 m2 a) as Hfr.
  { intros a Ha Ha'. apply load64_agree. eapply only_changes_agree; [exact Hch|]. unfold PGSIZE. lia. }
  assert (∀ b, p ≤ b < p + 4096 → byte_at m2 b = 5) as H2.
  { intros b Hb. rewrite <- (H5 b Hb). transitivity (byte_at (store64 (km_mem k1) (lk + MX_SPINLOCK) p) b);
      apply store64_changes; unfold MX_SPINLOCK, MX_THREADS; lia. }
  assert (∀ b, p ≤ b < p + 8 → byte_at m4 b = byte_at m3 b) as H43
    by (intros b Hb; apply store64_changes; unfold SL_NAME; lia).
  assert (byte_at m4 p = 0) as H0.
  { rewrite H43 by lia. unfold m3, store8. simpl. rewrite byte_at_insert. by rewrite decide_True. }
  exists (set_mem m4 k1). split; [|split; [|split; [|split; [|split; [done|]]]]]; cbn [km_mem set_mem].
  - unfold init_mutex, init_lock_at. rewrite (bind_ret _ _ _ _ _ Ek). unfold bind, wr64, rd64.
    cbn [km_mem set_mem]. fold m2. rewrite E2. reflexivity.
  - eapply free_list_frame; [exact Hf1|]. apply Forall_forall. intros q Hq.
    assert (page_ok q) as Hqp by (by apply (proj1 (Forall_forall _ _) (proj2 (proj2 Hf1)))).
    assert (q ≠ p ∧ q ≠ lk) as [Hqn Hql] by (split; by intros ->).
    pose proof (pages_disjoint q p (proj1 Hqp) (proj1 Hp) Hqn).
    pose proof (pages_disjoint q lk (proj1 Hqp) (proj1 Hlk) Hql).
    eapply agree_trans; [|eapply only_changes_agree; [exact Hch|done]].
    unfold m2. eapply agree_trans; (eapply only_changes_agree; [apply store64_changes|]);
      unfold PGSIZE, MX_SPINLOCK, MX_THREADS in *; lia.
  - rewrite Hfr by (unfold MX_SPINLOCK; lia). done.
  - rewrite Hfr by (unfold MX_THREADS; lia). subst m2. by apply load64_store64.
  - rewrite (load32_bytes m4 p 0 5); [done|done|]. intros i Hi. rewrite H43 by lia.
    rewrite <- (H2 (p + i)) by lia. apply store_changes. lia.
Qed.

(** C29. A mutex can never be acquired: [init_mutex] leaves the bytes of the
    allocated page that follow [is_locked] as the allocator filled them,
    [holding_spinlock] reports the lock free, and the first [acquire_mutex]
    spins for ever in [acquire_spinlock], whose [xchg] sees all four bytes. *)
Theorem mutex_first_acquire_hangs s r c p fl lk name :
  cli_inv (pr_sys s) r c → free_list (sy_kmem (pr_sys s)) (p :: fl) → page_ok lk → lk ∉ p :: fl →
  ∃ s1, kmem_of (init_mutex lk name) s = Ret ((), s1) ∧
    load64 (pr_mem s1) (lk + MX_SPINLOCK) = p ∧ byte_at (pr_mem s1) p = 0 ∧
    ∀ fuel, acquire_mutex fuel lk s1 = OutOfFuel.
Proof.
  intros Hinv Hf Hlk Hn.
  destruct (init_mutex_result _ p fl lk name Hf Hlk Hn) as (k' & E & Hf' & Hsp & Hl & Hb & Hw).
  exists (with_kmem k' s). split; [by apply kmem_of_ret|]. split; [done|]. split; [done|]. intros fuel.
  apply (cli_inv_kmem k') in Hinv. pose proof (left_section_cli _ _ _ Hinv) as Hinv1.
  unfold acquire_mutex, check_mutex. pose proof (page_ok_nonzero _ Hlk) as Hlk0. apply Z.eqb_neq in Hlk0.
  rewrite Hlk0, bind_mutex_lock. change (pr_mem (with_kmem k' s)) with (km_mem k'). rewrite Hsp.
  rewrite (bind_in_sys _ _ (with_kmem k' s) _ _ (holding_at_result _ _ _ p Hinv)).
  change (km_mem (sy_kmem (pr_sys (with_kmem k' s)))) with (km_mem k').
  cbn [sy_kmem set_kmem]. rewrite Hb. cbn [Z.eqb]. rewrite bind_mutex_lock.
  set (sys1 := left_section (set_kmem k' (pr_sys s)) r c) in *.
  assert (sy_kmem sys1 = k') as Hk by apply sy_kmem_left.
  unfold pr_mem. cbn [pr_sys with_sys]. rewrite Hk, Hsp. unfold bind, in_sys. cbn [pr_sys with_sys].
  rewrite (acquire_at_held sys1 r _ p fuel Hinv1); [done|]. rewrite Hk, Hw. lia.
Qed.

(** ** A contended mutex *)

(** A change in another page. *)
Lemma page_agree m m' q a :
  only_changes m m' q PGSIZE → page_ok q → page_ok a → a ≠ q → agree m m' a PGSIZE.
Proof.
  intros Hch Hq Ha Hne. eapply only_changes_agree; [exact Hch|].
  apply pages_disjoint; [apply Ha|apply Hq|done].
Qed.

Lemma agree_load64 m m' a off :
  agree m m' a PGSIZE → 0 ≤ off → off + 8 ≤ PGSIZE → load64 m' (a + off) = load64 m (a + off).
Proof. intros H ? ?. apply load64_agree. eapply agree_sub; [exact H|lia..]. Qed.

Lemma agree_byte m m' a : agree m m' a PGSIZE → byte_at m' a = byte_at m a.
Proof. intros H. apply H. unfold PGSIZE. lia. Qed.

Lemma queue_ok_other k fl h l q m' :
  page_ok q → q ∉ l.*1 ++ fl → only_changes (km_mem k) m' q PGSIZE → queue_ok k fl h l →
  queue_ok (set_mem m' k) fl h l.
Proof.
  intros Hq [Hn1 Hn2]%not_elem_of_app Hch (Hf & Hnd & Hp & Hqu).
  split; [|split; [done|split; [done|]]].
  - eapply free_list_frame; [done|]. eapply pages_kept_only_changes; [done|apply Hq|apply Hf|done].
  - eapply queue_frame; [|done]. eapply pages_kept_only_changes; [done|apply Hq|done|done].
Qed.

Lemma field_changes m a off n v :
  0 ≤ off → off + Z.of_nat n ≤ PGSIZE → only_changes m (store m (a + off) n v) a PGSIZE.
Proof. intros. eapply only_changes_sub; [apply store_changes|lia..]. Qed.

(** The mutex [lk] with the spinlock [sp], which is held, and a thread [t], in
    pages of their own. *)
Definition held_mutex (k : kmem) (fl : list Z) (lk sp t head : Z) : Prop :=
  page_ok lk ∧ page_ok sp ∧ page_ok t ∧ NoDup (lk :: sp :: t :: fl) ∧
  load64 (km_mem k) (lk + MX_SPINLOCK) = sp ∧ load64 (km_mem k) (lk + MX_THREADS) = head ∧
  byte_at (km_mem k) sp ≠ 0.

(** The part of [check_mutex] for a held mutex, on memory: the thread [t] is
    appended to the list and put to sleep. *)
Definition wait_on (lk t : Z) : M kmem () :=
  let* l := rd64 (lk + MX_THREADS) in
  let* l := push_thread_list l t in
  do* wr64 (lk + MX_THREADS) l in
  change_thread_state t WAIT.

Lemma held_pages (lk sp t p : Z) (fl : list Z) :
  NoDup (lk :: sp :: t :: p :: fl) →
  lk ≠ sp ∧ lk ≠ t ∧ lk ≠ p ∧ sp ≠ t ∧ sp ≠ p ∧ t ≠ p ∧ (lk ∉ fl) ∧ (sp ∉ fl) ∧ t ∉ fl.
Proof. rewrite !NoDup_cons, !not_elem_of_cons. tauto. Qed.

Lemma wait_on_result k p fl lk sp t :
  free_list k (p :: fl) → held_mutex k (p :: fl) lk sp t 0 →
  ∃ k', wait_on lk t k = Ret ((), k') ∧ queue_ok k' fl p [(p, t)] ∧ held_mutex k' fl lk sp t p ∧
    agree (km_mem k) (km_mem k') sp PGSIZE ∧
    load32 (km_mem k') (t + TH_STATE) = state_code WAIT.
Proof.
  intros Hf (Hlk & Hsp & Ht & Hnd & Hl1 & Hl2 & Hb).
  pose proof (held_pages _ _ _ _ _ Hnd) as (H1 & H2 & H3 & H4 & H5 & H6 & H7 & H8 & H9).
  assert (page_ok p) as Hp by (destruct Hf as (_ & _ & Hpf); by inversion Hpf).
  assert (queue_ok k (p :: fl) 0 []) as Hq.
  { split; [done|]. split; [|done]. by destruct Hf as (_ & ? & _). }
  destruct (push_list_result k fl p 0 [] t Hq (page_ok_u64 _ Ht)) as (k1 & E1 & Hq1 & Ho1).
  cbn [fmap list_fmap hd_error default app] in E1, Hq1, Ho1. cbn [default from_option] in E1, Hq1.
  assert (∀ a, page_ok a → a ≠ p → agree (km_mem k) (km_mem k1) a PGSIZE) as Ha1.
  { intros a Hap Hne. apply (proj1 Ho1 a Hap). by intros ->%list_elem_of_singleton. }
  set (m2 := store64 (km_mem k1) (lk + MX_THREADS) p).
  assert (only_changes (km_mem k1) m2 lk PGSIZE) as Hc2
    by (apply field_changes; unfold MX_THREADS, PGSIZE; lia).
  set (m3 := store32 m2 (t + TH_STATE) (state_code WAIT)).
  assert (only_changes m2 m3 t PGSIZE) as Hc3 by (apply field_changes; unfold TH_STATE, PGSIZE; lia).
  exists (set_mem m3 k1). split; [|split; [|split; [|split]]]; cbn [km_mem set_mem].
  - unfold wait_on. unfold bind at 1, rd64 at 1. rewrite Hl2. rewrite (bind_ret _ _ _ _ _ E1). reflexivity.
  - apply (queue_ok_other (set_mem m2 k1) fl p [(p, t)] t m3); [done| |done|].
    + cbn [fmap list_fmap fst app]. rewrite not_elem_of_cons. done.
    + apply (queue_ok_other k1 fl p [(p, t)] lk m2); [done| |done|done].
      cbn [fmap list_fmap fst app]. rewrite not_elem_of_cons. done.
  - split; [done|]. split; [done|]. split; [done|].
    pose proof (page_agree _ _ _ lk Hc3 Ht Hlk H2) as A3.
    split; [|split; [|split]]; cbn [km_mem set_mem].
    + revert Hnd. rewrite !NoDup_cons, !not_elem_of_cons. tauto.
    + rewrite (agree_load64 _ _ _ _ A3) by (unfold MX_SPINLOCK, PGSIZE; lia).
      unfold m2. rewrite load64_store64_other by (unfold MX_SPINLOCK, MX_THREADS; lia).
      rewrite (agree_load64 _ _ _ _ (Ha1 lk Hlk H3)) by (unfold MX_SPINLOCK, PGSIZE; lia). done.
    + rewrite (agree_load64 _ _ _ _ A3) by (unfold MX_THREADS, PGSIZE; lia).
      apply load64_store64. by apply page_ok_u64.
    + rewrite (agree_byte _ _ _ (page_agree _ _ _ sp Hc3 Ht Hsp H4)).
      rewrite (agree_byte _ _ _ (page_agree _ _ _ sp Hc2 Hlk Hsp ltac:(done))).
      by rewrite (agree_byte _ _ _ (Ha1 sp Hsp H5)).
  - eapply agree_trans; [by apply Ha1|]. eapply agree_trans; [by apply (page_agree _ _ lk)|].
    by apply (page_agree _ _ t).
  - by apply load32_store32.
Qed.

(** The part of [release_mutex] for a mutex that is waited for, on memory. *)
Definition wake_one (lk l : Z) : M kmem () :=
  let* tl := pop_thread_list l in
  do* wr64 (lk + MX_THREADS) (snd tl) in
  change_thread_state (fst tl) RUNNABLE.

Lemma wake_one_result k p fl lk sp t :
  queue_ok k fl p [(p, t)] → held_mutex k fl lk sp t p → p ∉ [lk; sp; t] →
  ∃ k', wake_one lk p k = Ret ((), k') ∧ free_list k' (p :: fl) ∧ held_mutex k' (p :: fl) lk sp t 0 ∧
    agree (km_mem k) (km_mem k') sp PGSIZE ∧
    load32 (km_mem k') (t + TH_STATE) = state_code RUNNABLE.
Proof.
  intros Hq (Hlk & Hsp & Ht & Hnd & Hl1 & Hl2 & Hb) Hnp.
  rewrite !not_elem_of_cons in Hnp. destruct Hnp as (N1 & N2 & N3 & _).
  destruct (queue_elem_ok _ _ _ _ p t Hq ltac:(left)) as [Hp _].
  destruct (pop_list_result "Empty thread list while popping" k fl p t [] Hq)
    as (k1 & E1 & Hf1 & Hc1 & _).
  assert (NoDup (lk :: sp :: t :: p :: fl)) as Hnd'.
  { pose proof (proj1 (proj2 Hf1)) as Hpf. revert Hnd Hpf.
    rewrite !NoDup_cons, !not_elem_of_cons. intuition congruence. }
  pose proof (held_pages _ _ _ _ _ Hnd') as (H1 & H2 & H3 & H4 & H5 & H6 & H7 & H8 & H9).
  set (m2 := store64 (km_mem k1) (lk + MX_THREADS) 0).
  assert (only_changes (km_mem k1) m2 lk PGSIZE) as Hc2
    by (apply field_changes; unfold MX_THREADS, PGSIZE; lia).
  set (m3 := store32 m2 (t + TH_STATE) (state_code RUNNABLE)).
  assert (only_changes m2 m3 t PGSIZE) as Hc3 by (apply field_changes; unfold TH_STATE, PGSIZE; lia).
  pose proof (page_agree _ _ _ lk Hc3 Ht Hlk H2) as A3.
  assert (agree (km_mem k) m3 sp PGSIZE) as Asp.
  { eapply agree_trans; [by apply (page_agree _ _ p)|].
    eapply agree_trans; [by apply (page_agree _ _ lk)|]. by apply (page_agree _ _ t). }
  exists (set_mem m3 k1). split; [|split; [|split; [|split]]]; cbn [km_mem set_mem].
  - unfold wake_one, pop_thread_list. rewrite (bind_ret _ _ _ _ _ E1). reflexivity.
  - apply (free_list_frame (set_mem m2 k1)).
    + apply (free_list_frame k1); [done|]. eapply pages_kept_only_changes; [exact Hc2|apply Hlk|apply Hf1|].
      by rewrite not_elem_of_cons.
    + eapply pages_kept_only_changes; [exact Hc3|apply Ht|apply Hf1|]. by rewrite not_elem_of_cons.
  - split; [done|]. split; [done|]. split; [done|]. split; [done|]. cbn [km_mem set_mem].
    split; [|split].
    + rewrite (agree_load64 _ _ _ _ A3) by (unfold MX_SPINLOCK, PGSIZE; lia).
      unfold m2. rewrite load64_store64_other by (unfold MX_SPINLOCK, MX_THREADS; lia).
      rewrite (agree_load64 (km_mem k) (km_mem k1)); [done|by apply (page_agree _ _ p)|unfold MX_SPINLOCK, PGSIZE; lia..].
    + rewrite (agree_load64 _ _ _ _ A3) by (unfold MX_THREADS, PGSIZE; lia).
      by apply load64_store64.
    + by rewrite (agree_byte _ _ _ Asp).
  - exact Asp.
  - by apply load32_store32.
Qed.

Lemma current_opened s c : current_thread (opened s c) = current_thread c.
Proof. unfold opened. by case_match. Qed.

Lemma check_mutex_held s r c lk sp k1 fuel (t := current_thread c) :
  cli_inv (pr_sys s) r c → load64 (pr_mem s) (lk + MX_SPINLOCK) = sp → byte_at (pr_mem s) sp ≠ 0 →
  wait_on lk t (sy_kmem (pr_sys s)) = Ret ((), k1) →
  check_mutex fuel lk s = Ret (Yields (t + TH_CONTEXT) (kcontext_ptr s),
    with_sys (set_kmem k1 (left_section (pr_sys s) r c)) s).
Proof.
  intros Hinv Hsp Hb E1. pose proof (left_section_cli _ _ _ Hinv) as ([Hc1 Hd1] & _).
  set (sys1 := left_section (pr_sys s) r c) in *.
  set (c1 := opened (pr_sys s) c) in *. assert (current_thread c1 = t) as Hct by apply current_opened.
  unfold check_mutex. rewrite bind_mutex_lock, Hsp.
  rewrite (bind_in_sys _ _ s _ _ (holding_at_result _ _ _ sp Hinv)). fold (pr_mem s).
  apply Z.eqb_neq in Hb. rewrite Hb. fold sys1.
  rewrite (bind_in_sys_pure mycpu _ (with_sys sys1 s) _ Hc1), (bind_in_sys_pure _ _ (with_sys sys1 s) _ Hd1), Hct.
  assert (sy_kmem sys1 = sy_kmem (pr_sys s)) as Hk by apply sy_kmem_left.
  unfold wait_on in E1. unfold bind at 1, rd64 at 1 in E1.
  rewrite bind_rd64_of. unfold pr_mem at 1. cbn [pr_sys with_sys]. rewrite Hk.
  destruct (push_thread_list (load64 (km_mem (sy_kmem (pr_sys s))) (lk + MX_THREADS)) t (sy_kmem (pr_sys s)))
    as [[l k2]| | |] eqn:Epush; unfold bind at 1 in E1; rewrite Epush in E1; try done.
  rewrite (bind_kmem_of _ _ (with_sys sys1 s) l k2) by (cbn [pr_sys with_sys]; by rewrite Hk).
  rewrite (bind_kmem_of _ _ (with_kmem k2 (with_sys sys1 s)) _ _ eq_refl).
  cbn [with_kmem pr_sys with_sys sy_kmem set_kmem].
  unfold bind at 1, wr64 at 1 in E1. set (k3 := set_mem _ _) in *.
  rewrite (bind_in_sys_pure mycpu _ _ r) by (exact (mycpu_kmem k3 sys1 r Hc1)).
  rewrite (bind_in_sys_pure _ _ _ c1) by (exact (deref_kmem k3 sys1 r c1 Hd1)). rewrite Hct.
  rewrite (bind_kmem_of _ _ (with_kmem k3 (with_kmem k2 (with_sys sys1 s))) _ _ E1).
  unfold yield. rewrite bind_assoc. rewrite (bind_in_sys_pure mycpu _ _ r) by (exact (mycpu_kmem k1 sys1 r Hc1)).
  rewrite bind_assoc. rewrite (bind_in_sys_pure _ _ _ c1) by (exact (deref_kmem k1 sys1 r c1 Hd1)). by rewrite <- Hct.
Qed.

Lemma release_mutex_wakes s lk sp p k' :
  load64 (pr_mem s) (lk + MX_SPINLOCK) = sp → byte_at (pr_mem s) sp ≠ 0 →
  load64 (pr_mem s) (lk + MX_THREADS) = p → p ≠ 0 →
  wake_one lk p (sy_kmem (pr_sys s)) = Ret ((), k') →
  release_mutex lk s = Ret ((), with_kmem k' s).
Proof.
  intros Hsp Hb Hl Hp E. unfold release_mutex. rewrite bind_mutex_lock, bind_get, Hsp.
  apply Z.eqb_neq in Hb. rewrite Hb, bind_rd64_of, Hl. apply Z.eqb_neq in Hp. rewrite Hp.
  unfold wake_one in E. destruct (pop_thread_list p (sy_kmem (pr_sys s))) as [[tl k4]| | |] eqn:Epop;
    unfold bind at 1 in E; rewrite Epop in E; try done.
  rewrite (bind_kmem_of _ _ _ _ _ Epop), (bind_kmem_of _ _ (with_kmem k4 s) _ _ eq_refl).
  unfold bind at 1, wr64 at 1 in E.
  exact (kmem_of_ret _ (with_kmem _ (with_kmem k4 s)) _ _ E).
Qed.

(** C30. A contended mutex: a thread that finds the mutex held goes to the list
    of waiters, sleeps and yields; the holder's [release_mutex] empties the
    list and wakes the thread, but leaves the spinlock held, so that the woken
    thread, whenever and on whatever processor it resumes, panics. *)
Theorem mutex_contended s r c p fl lk sp fuel (t := current_thread c) :
  cli_inv (pr_sys s) r c → free_list (sy_kmem (pr_sys s)) (p :: fl) →
  held_mutex (sy_kmem (pr_sys s)) (p :: fl) lk sp t 0 →
  ∃ s1, acquire_mutex fuel lk s = Ret (Yields (t + TH_CONTEXT) (kcontext_ptr s), s1) ∧
    load32 (pr_mem s1) (t + TH_STATE) = state_code WAIT ∧
    queue_ok (sy_kmem (pr_sys s1)) fl (load64 (pr_mem s1) (lk + MX_THREADS)) [(p, t)] ∧
    ∀ s2, sy_kmem (pr_sys s2) = sy_kmem (pr_sys s1) →
      ∃ s3, release_mutex lk s2 = Ret ((), s3) ∧
        load32 (pr_mem s3) (t + TH_STATE) = state_code RUNNABLE ∧
        load64 (pr_mem s3) (lk + MX_THREADS) = 0 ∧ byte_at (pr_mem s3) sp = byte_at (pr_mem s) sp ∧
        ∀ s4 r4 c4, cli_inv (pr_sys s4) r4 c4 → pr_mem s4 = pr_mem s3 →
          resume_mutex fuel lk s4 = Panic "acquire_mutex: spinlock in not free".
Proof.
  intros Hinv Hf Hm. destruct (wait_on_result _ _ _ _ _ _ Hf Hm) as (k1 & E1 & Hq1 & Hm1 & A1 & Hs1).
  pose proof Hm as (Hlk & _ & _ & Hnd & Hsp & _ & Hb). pose proof (page_ok_nonzero _ Hlk) as Hlk0.
  set (sys1 := left_section (pr_sys s) r c).
  exists (with_sys (set_kmem k1 sys1) s). split; [|split; [done|split]].
  - unfold acquire_mutex. apply Z.eqb_neq in Hlk0. rewrite Hlk0. by apply (check_mutex_held s r c lk sp k1).
  - change (pr_mem (with_sys (set_kmem k1 sys1) s)) with (km_mem k1).
    cbn [pr_sys with_sys sy_kmem set_kmem]. destruct Hm1 as (_ & _ & _ & _ & _ & -> & _). done.
  - intros s2 Hk2. cbn [pr_sys with_sys sy_kmem set_kmem] in Hk2.
    pose proof Hm1 as (_ & _ & _ & _ & Hsp1 & Hl1 & Hb1).
    destruct (queue_elem_ok _ _ _ _ p t Hq1 ltac:(left)) as [Hp _].
    assert (p ∉ [lk; sp; t]) as Hnp.
    { apply held_pages in Hnd. rewrite !not_elem_of_cons. rewrite elem_of_nil. intuition congruence. }
    destruct (wake_one_result _ _ _ _ _ _ Hq1 Hm1 Hnp) as (k3 & E3 & Hf3 & Hm3 & A3 & Hs3).
    destruct Hm3 as (_ & _ & _ & _ & Hsp3 & Hl3 & Hb3).
    exists (with_kmem k3 s2). split; [|split; [done|split; [done|split]]].
    + apply (release_mutex_wakes s2 lk sp p k3); unfold pr_mem; rewrite ?Hk2; try done.
      by apply page_ok_nonzero.
    + transitivity (byte_at (km_mem k1) sp); [by apply agree_byte|by apply agree_byte].
    + intros s4 r4 c4 Hinv4 Hk4. change (pr_mem (with_kmem k3 s2)) with (km_mem k3) in Hk4.
      unfold resume_mutex. rewrite bind_mutex_lock, Hk4, Hsp3.
      rewrite (bind_in_sys _ _ s4 _ _ (holding_at_result _ _ _ sp Hinv4)).
      fold (pr_mem s4). rewrite Hk4. apply Z.eqb_neq in Hb3. by rewrite Hb3.
Qed.
End mutex.

(** ** Witnesses *)

(** A mutex at 0x500000 with the spinlock 0x600000, and the running thread
    0x700000; the pages 0x300000 and 0x200000 are free. *)
Definition demo_mutex_cpu : percpu := set_current 0x700000 (demo_smp_cpu 0).
Definition demo_mutex (word : Z) : procs :=
  Procs (set_kmem (Kmem (store32 (store64 (store64 (km_mem demo_kmem) (0x500000 + MX_SPINLOCK) 0x600000)
            (0x500000 + MX_THREADS) 0) 0x600000 word) 0x300000) (put_cpu (Cpu 0) demo_mutex_cpu demo_smp))
    (Spinlock 0 "pid_lock") (Spinlock 0 "proc_lock") 0 0 0 0x800000.

Lemma demo_mutex_cli w : cli_inv (pr_sys (demo_mutex w)) (Cpu 0) demo_mutex_cpu.
Proof. apply cli_inv_outside; [split|]; reflexivity. Qed.

Lemma demo_mutex_free w : free_list (LK := demo_linker) (sy_kmem (pr_sys (demo_mutex w))) [0x300000; 0x200000].
Proof.
  split; [|split; [apply (bool_decide_unpack _); vm_compute; exact I|]].
  - split; [reflexivity|]. split; [vm_compute; reflexivity|]. vm_compute. reflexivity.
  - repeat (constructor; [split; vm_compute; done|]). constructor.
Qed.

Lemma mutex_uncontended_witness :
  ∃ s1, acquire_mutex 1 0x500000 (demo_mutex 0) = Ret (Acquired, s1) ∧
    ∃ s2, release_mutex (LK := demo_linker) 0x500000 s1 = Ret ((), s2).
Proof.
  destruct (mutex_uncontended (LK := demo_linker) (demo_mutex 0) (Cpu 0) demo_mutex_cpu 0x500000 0x600000 0
    (demo_mutex_cli 0)) as (s1 & E1 & _ & _ & s2 & E2 & _).
  - discriminate.
  - vm_compute. reflexivity.
  - vm_compute. reflexivity.
  - vm_compute. reflexivity.
  - right. vm_compute. discriminate.
  - exists s1. split; [exact E1|]. exists s2. exact E2.
Defined.

Lemma mutex_first_acquire_hangs_witness :
  ∃ s1, kmem_of (init_mutex 0x500000 0) (demo_mutex 0) = Ret ((), s1) ∧
    ∀ fuel, acquire_mutex fuel 0x500000 s1 = OutOfFuel.
Proof.
  destruct (mutex_first_acquire_hangs (LK := demo_linker) (demo_mutex 0) (Cpu 0) demo_mutex_cpu 0x300000
    [0x200000] 0x500000 0 (demo_mutex_cli 0) (demo_mutex_free 0)) as (s1 & E1 & _ & _ & E2).
  - split; vm_compute; done.
  - apply (bool_decide_unpack _). vm_compute. exact I.
  - exists s1. split; [exact E1|exact E2].
Defined.

Lemma mutex_contended_witness :
  ∃ s1, acquire_mutex 0 0x500000 (demo_mutex 1) = Ret (Yields 0x700000 0x800000, s1) ∧
    load32 (pr_mem s1) (0x700000 + TH_STATE) = 3 ∧
    ∃ s3, release_mutex (LK := demo_linker) 0x500000 s1 = Ret ((), s3) ∧
      load32 (pr_mem s3) (0x700000 + TH_STATE) = 1.
Proof.
  destruct (mutex_contended (LK := demo_linker) (demo_mutex 1) (Cpu 0) demo_mutex_cpu 0x300000 [0x200000]
    0x500000 0x600000 0 (demo_mutex_cli 1) (demo_mutex_free 1)) as (s1 & E1 & Hs1 & _ & Hrel).
  - split; [split; vm_compute; done|]. split; [split; vm_compute; done|]. split; [split; vm_compute; done|].
    split; [apply (bool_decide_unpack _); vm_compute; exact I|].
    split; [vm_compute; reflexivity|]. split; [vm_compute; reflexivity|]. vm_compute. discriminate.
  - destruct (Hrel s1 eq_refl) as (s3 & E3 & Hs3 & _).
    exists s1. split; [exact E1|]. split; [exact Hs1|]. exists s3. split; [exact E3|exact Hs3].
Defined.
