(* ===== verification/Acpi.v ===== *)
(** * ACPI tables ([kernel/desc/acpi.c], [rsdp.c], [rsdt.c])

    The tables are read from physical memory, through pointers that
    [map_mmio] maps one to one.  The mapping itself is an interface: what the
    parser needs is stated by a class, which the page tables implement. *)

From S2P Require Import Prelude Memory Kalloc Paging PageTree StrUtils.

(** ** Layout of the structures *)

(** [struct ACPISDTHeader]: the table's signature, length and the rest. *)
Definition SDT_SIGNATURE : Z := 0.
Definition SDT_LENGTH : Z := 4.
Definition SDT_SIZE : Z := 36.

(** [struct RSDP_t] and [struct XSDP_t] (packed). *)
Definition RSDP_SIGNATURE : Z := 0.
Definition RSDP_REVISION : Z := 15.
Definition RSDP_RSDT_ADDRESS : Z := 16.
Definition XSDP_LENGTH : Z := 20.
Definition XSDP_XSDT_ADDRESS : Z := 24.

(** [struct RSDT_t] and [struct XSDT_t]: the array behind the header. *)
Definition RSDT_POINTERS : Z := SDT_SIZE.

Definition EBDA_SEG : Z := 0x40E.
Definition BIOS_MEM_START : Z := 0x000E0000.
Definition BIOS_MEM_END : Z := 0x00100000.
Definition ONE_KB : Z := 1024.

(** ** Checksums *)

(** [for (i = 0; i < len; i++) sum += p[i];] for the [n] bytes from [p] on. *)
Fixpoint checksum_loop (m : mem) (p : Z) (n : nat) (sum : Z) : Z :=
  match n with
  | O => sum
  | S n => checksum_loop m (p + 1) n (u8 (sum + byte_at m p))
  end.
Definition acpi_checksum_ok (m : mem) (p len : Z) : bool :=
  checksum_loop m p (Z.to_nat len) 0 =? 0.

(** ** The root pointer *)

(** The three tests of the loop of [scan_rsdp], in order: each one that fails
    is a [continue]. *)
Definition rsdp_at (m : mem) (r : Z) : bool :=
  if negb (memcmp_lit m (r + RSDP_SIGNATURE) (chars "RSD PTR ") =? 0) then false
  else if negb (acpi_checksum_ok m r 20) then false
  else if (2 <=? byte_at m (r + RSDP_REVISION)) &&
          negb (acpi_checksum_ok m r (load32 m (r + XSDP_LENGTH))) then false
  else true.

Fixpoint scan_loop (fuel : nat) (m : mem) (p stop : Z) : outcome Z :=
  match fuel with
  | O => OutOfFuel
  | S fuel =>
      if p <? stop then
        if rsdp_at m p then Ret p else scan_loop fuel m (u64 (p + 16)) stop
      else Ret 0
  end.
Definition scan_rsdp (m : mem) (start stop : Z) : outcome Z :=
  scan_loop (S (Z.to_nat ((stop - start) / 16 + 1))) m start stop.

(** The static variables of [rsdp.c] and [rsdt.c]; the [extended] flag of
    [rsdp.c] is never assigned and [is_xsdp] always returns false. *)
Record acpi := Acpi {
  ac_kmem : kmem;
  rsdp_ptr : Z;
  rsdt_root_ptr : Z;
  extended : bool
}.
Definition is_xsdp (_ : acpi) : bool := false.

Definition init_rsdp : M acpi () := λ s,
  let m := km_mem (ac_kmem s) in
  let ebda_addr := Z.shiftl (load16 m EBDA_SEG) 4 in
  match scan_rsdp m ebda_addr (ebda_addr + ONE_KB) with
  | Ret found =>
      match (if found =? 0 then scan_rsdp m BIOS_MEM_START BIOS_MEM_END else Ret found) with
      | Ret found => Ret ((), Acpi (ac_kmem s) found (rsdt_root_ptr s) (extended s))
      | Panic msg => Panic msg
      | Undef => Undef
      | OutOfFuel => OutOfFuel
      end
  | Panic msg => Panic msg
  | Undef => Undef
  | OutOfFuel => OutOfFuel
  end.

(** ** The interface to the page tables *)

Class Mmio := mm_map : Z → Z → M kmem Z.

(** The kernel's: [map_mmio] on the tables of [cr3]. *)
Definition paging_mmio {WS : WideShift} (cr3 : Z) : Mmio := map_mmio cr3.

(** What the parser relies on, in a state [ok] and for the ranges in [dom]:
    the call returns null or the address it was given, and the bytes [kept] are
    not changed. *)
Class MmioSpec (MM : Mmio) (ok : kmem → Prop) (kept : Z → Prop) (dom : Z → Z → Prop) := {
  mm_map_spec s pa size :
    ok s → dom pa size →
    ∃ r s', mm_map pa size s = Ret (r, s') ∧ (r = 0 ∨ r = pa) ∧ ok s' ∧
      ∀ b, kept b → byte_at (km_mem s') b = byte_at (km_mem s) b
}.

(** The page tables keep it, for the bytes that are neither in a table nor
    free. *)
Section paging_mmio.
Context {LK : Linker} {WS : WideShift}.

Definition paging_ok (cr3 : Z) (kept : Z → Prop) (s : kmem) : Prop :=
  ∃ l, free_list s l ∧ tree_ok (km_mem s) cr3 l ∧ ∀ b, kept b → unowned (km_mem s) cr3 l b.

Definition paging_dom (pa size : Z) : Prop := 0 ≤ pa ∧ 0 ≤ size ∧ pa + size + 3 * PGSIZE ≤ 2 ^ 48.

#[export] Instance paging_mmio_spec cr3 kept :
  MmioSpec (paging_mmio cr3) (paging_ok cr3 kept) kept paging_dom.
Proof.
  split. intros s pa size (l & Hf & Ht & Hk) (Hpa & Hsize & Hmax). unfold mm_map, paging_mmio, map_mmio.
  pose proof (PGROUNDDOWN_eq pa) as Hround.
  assert (0 ≤ pa - PGROUNDDOWN pa < PGSIZE) as Hoff by (rewrite Hround; unfold PGSIZE; zlia).
  assert (0 ≤ PGROUNDDOWN pa) as Hpos by (rewrite Hround; unfold PGSIZE; zlia).
  rewrite (u64_small (pa - PGROUNDDOWN pa)) by (unfold PGSIZE in *; lia).
  rewrite u64_small by (unfold PGSIZE in *; lia).
  destruct (map_pages_rep s l cr3 (PGROUNDDOWN pa) (PGROUNDDOWN pa) (size + (pa - PGROUNDDOWN pa))
    (Z.lor PTE_W PTE_PCD) Hf Ht) as (r & s' & l' & E & Hf' & [Ht' Hun] & _); try lia;
    try (unfold PGSIZE in *; lia).
  rewrite (bind_ret _ _ _ _ _ E). exists (if negb (r =? 0) then 0 else pa), s'.
  split; [by destruct (r =? 0)|]. split; [destruct (r =? 0); auto|]. split.
  - exists l'. split; [done|]. split; [done|]. intros b Hb. by apply Hun, Hk.
  - intros b Hb. by apply Hun, Hk.
Qed.
End paging_mmio.

(** ** The root table *)

Section rsdt.
Context {MM : Mmio}.

Definition on_mem {A} (c : M kmem A) : M acpi A := λ s,
  match c (ac_kmem s) with
  | Ret (a, k) => Ret (a, Acpi k (rsdp_ptr s) (rsdt_root_ptr s) (extended s))
  | Panic msg => Panic msg
  | Undef => Undef
  | OutOfFuel => OutOfFuel
  end.
Definition set_root (root : Z) (ext : bool) : M acpi () := λ s,
  Ret ((), Acpi (ac_kmem s) (rsdp_ptr s) root ext).
Definition the_mem : M acpi mem := gets (λ s, km_mem (ac_kmem s)).

Definition init_rsdt (rsdp : Z) : M acpi () :=
  if rsdp =? 0 then ret ()
  else
    let* m := the_mem in
    let is_xsdt_table := 2 <=? byte_at m (rsdp + RSDP_REVISION) in
    let rsdt_phys := if is_xsdt_table then load64 m (rsdp + XSDP_XSDT_ADDRESS)
                     else load32 m (rsdp + RSDP_RSDT_ADDRESS) in
    let* header_mapped := on_mem (mm_map rsdt_phys PGSIZE) in
    if header_mapped =? 0 then ret ()
    else
      let* m := the_mem in
      let table_length := load32 m (header_mapped + SDT_LENGTH) in
      let* mapped := (if PGSIZE <? table_length then on_mem (mm_map rsdt_phys table_length)
                      else ret header_mapped) in
      if mapped =? 0 then ret ()
      else
        let* m := the_mem in
        if negb (acpi_checksum_ok m mapped table_length) then set_root 0 false
        else set_root mapped is_xsdt_table.

(** The subtraction is done on 64 bits and the quotient truncated to 32. *)
Definition rsdt_get_entry_count (s : acpi) : Z :=
  if rsdt_root_ptr s =? 0 then 0
  else
    let entry_size := if extended s then 8 else 4 in
    u32 (u64 (load32 (km_mem (ac_kmem s)) (rsdt_root_ptr s + SDT_LENGTH) - SDT_SIZE) / entry_size).

(** [PointerToOtherSDT[i]] *)
Definition rsdt_entry (s : acpi) (i : Z) : Z :=
  let m := km_mem (ac_kmem s) in
  if extended s then load64 m (rsdt_root_ptr s + RSDT_POINTERS + 8 * i)
  else load32 m (rsdt_root_ptr s + RSDT_POINTERS + 4 * i).

(** The loop of [rsdt_find_table] over [n] entries from [i] on. *)
Fixpoint find_loop (n : nat) (i : Z) (signature : list Z) : M acpi Z :=
  match n with
  | O => ret 0
  | S n =>
      let* s := get in
      let phys_addr := rsdt_entry s i in
      if (phys_addr =? 0) || (phys_addr <? PGSIZE) then find_loop n (i + 1) signature
      else
        let* header := on_mem (mm_map phys_addr PGSIZE) in
        if header =? 0 then find_loop n (i + 1) signature
        else
          let* m := the_mem in
          if memcmp_lit m (header + SDT_SIGNATURE) signature =? 0 then
            let table_len := load32 m (header + SDT_LENGTH) in
            let* header := on_mem (mm_map phys_addr table_len) in
            if header =? 0 then ret 0
            else
              let* m := the_mem in
              if negb (acpi_checksum_ok m header table_len) then ret 0 else ret header
          else find_loop n (i + 1) signature
  end.

(** [signature] is the four characters compared. *)
Definition rsdt_find_table (signature : list Z) : M acpi Z :=
  let* s := get in
  if rsdt_root_ptr s =? 0 then ret 0
  else find_loop (Z.to_nat (rsdt_get_entry_count s)) 0 signature.
End rsdt.

(** [for (i = 0; i < table_size; i++) new[i] = old[i];] *)
Fixpoint copy_bytes (m : mem) (new old : Z) (n : nat) : mem :=
  match n with
  | O => m
  | S n => copy_bytes (store8 m new (byte_at m old)) (new + 1) (old + 1) n
  end.

(** The common part of [rsdt_copy_to_safe_memory] and
    [madt_copy_to_safe_memory]: the copy of the table at [old], or null. *)
Definition copy_to_safe_memory (old : Z) : M kmem Z :=
  let* m := gets km_mem in
  let table_size := load32 m (old + SDT_LENGTH) in
  let* new := kalloc in
  if new =? 0 then ret 0
  else
    do* kmemset new 0 4096 in
    do* modify (λ s, set_mem (copy_bytes (km_mem s) new old (Z.to_nat table_size)) s) in
    ret new.

Definition rsdt_copy_to_safe_memory : M acpi () :=
  let* s := get in
  if rsdt_root_ptr s =? 0 then ret ()
  else
    let* new := on_mem (copy_to_safe_memory (rsdt_root_ptr s)) in
    if new =? 0 then ret () else set_root new (extended s).

(** * Properties *)

(** ** Checksums *)

Definition byte_sum (m : mem) (p : Z) (n : nat) : Z := foldr Z.add 0 (bytes_at m p n).

Lemma checksum_loop_sum m p n sum :
  checksum_loop m p n sum mod 256 = (sum + byte_sum m p n) mod 256.
Proof.
  revert p sum. induction n as [|n IH]; intros p sum; cbn [checksum_loop].
  - unfold byte_sum. simpl. by rewrite Z.add_0_r.
  - rewrite IH. unfold byte_sum. cbn [bytes_at foldr]. unfold u8.
    rewrite Z.add_mod_idemp_l by lia. f_equal. lia.
Qed.

Lemma checksum_loop_range m p n sum : 0 ≤ sum < 256 → 0 ≤ checksum_loop m p n sum < 256.
Proof.
  revert p sum. induction n as [|n IH]; intros p sum Hs; [done|]. apply IH, u8_range.
Qed.

(** The checksum test is the one ACPI defines: the bytes add up to zero modulo
    256. *)
Lemma acpi_checksum_ok_spec m p len :
  acpi_checksum_ok m p len = true ↔ byte_sum m p (Z.to_nat len) mod 256 = 0.
Proof.
  unfold acpi_checksum_ok. rewrite Z.eqb_eq.
  pose proof (checksum_loop_range m p (Z.to_nat len) 0 ltac:(lia)) as Hr.
  pose proof (checksum_loop_sum m p (Z.to_nat len) 0) as Hs. rewrite Z.mod_small in Hs by done.
  rewrite Hs. done.
Qed.

(** ** Finding the root pointer *)

Lemma scan_loop_result fuel m p stop :
  0 ≤ p → stop + 16 ≤ 2 ^ 64 → Z.max 0 ((stop - p) / 16 + 1) < Z.of_nat fuel →
  (∃ j, 0 ≤ j ∧ p + 16 * j < stop ∧ rsdp_at m (p + 16 * j) = true ∧
     (∀ i, 0 ≤ i < j → rsdp_at m (p + 16 * i) = false) ∧
     scan_loop fuel m p stop = Ret (p + 16 * j)) ∨
  ((∀ i, 0 ≤ i → p + 16 * i < stop → rsdp_at m (p + 16 * i) = false) ∧
   scan_loop fuel m p stop = Ret 0).
Proof.
  intros Hp Hstop. revert p Hp. induction fuel as [|fuel IH]; intros p Hp Hfuel; [lia|].
  cbn [scan_loop]. destruct (Z.ltb_spec p stop) as [Hlt|Hge].
  2: { right. split; [|done]. lia. }
  destruct (rsdp_at m p) eqn:E.
  { left. exists 0. rewrite Z.mul_0_r, Z.add_0_r. split_and!; try done; try lia. }
  rewrite u64_small by lia.
  assert (∀ i, p + 16 + 16 * i = p + 16 * (i + 1)) as Hstep by lia.
  destruct (IH (p + 16)) as [(j & Hj & Hjs & Hat & Hbefore & ->)|[Hnone ->]]; [lia|zlia|left|right].
  - exists (j + 1). rewrite Hstep in Hat, Hjs |- *. split_and!; try done; try lia.
    intros i Hi. destruct (decide (i = 0)) as [->|]; [by rewrite Z.mul_0_r, Z.add_0_r|].
    specialize (Hbefore (i - 1) ltac:(lia)). rewrite Hstep in Hbefore.
    by replace (i - 1 + 1) with i in Hbefore by lia.
  - split; [|done]. intros i Hi His. destruct (decide (i = 0)) as [->|]; [by rewrite Z.mul_0_r, Z.add_0_r|].
    specialize (Hnone (i - 1) ltac:(lia)). rewrite Hstep in Hnone.
    replace (i - 1 + 1) with i in Hnone by lia. by apply Hnone.
Qed.

Lemma memcmp_lit_zero m p lit :
  Forall (λ c, 0 ≤ c < 256) lit → memcmp_lit m p lit = 0 ↔ bytes_at m p (length lit) = lit.
Proof.
  intros Hl. revert p. induction Hl as [|c lit Hc Hl IH]; intros p; [done|].
  cbn [memcmp_lit bytes_at length]. rewrite u8_small by done.
  destruct (Z.eqb_spec (byte_at m p) c) as [->|Hne].
  - rewrite IH. split; [by intros ->|by intros [= ?]].
  - split; [lia|]. by intros [= ? _].
Qed.

(** A root pointer as ACPI defines it. *)
Definition valid_rsdp (m : mem) (r : Z) : Prop :=
  bytes_at m r 8 = chars "RSD PTR " ∧ byte_sum m r 20 mod 256 = 0 ∧
  (2 ≤ byte_at m (r + RSDP_REVISION) →
   byte_sum m r (Z.to_nat (load32 m (r + XSDP_LENGTH))) mod 256 = 0).

Lemma rsdp_at_spec m r : rsdp_at m r = true ↔ valid_rsdp m r.
Proof.
  unfold rsdp_at, valid_rsdp. pose proof (acpi_checksum_ok_spec m r 20) as H20.
  pose proof (acpi_checksum_ok_spec m r (load32 m (r + XSDP_LENGTH))) as Hlen.
  pose proof (memcmp_lit_zero m r (chars "RSD PTR ")) as Hsig.
  rewrite <- Hlen. change (Z.to_nat 20) with 20%nat in H20. rewrite <- H20.
  rewrite <- Hsig by (repeat constructor; vm_compute; congruence).
  unfold RSDP_SIGNATURE. rewrite Z.add_0_r.
  clear H20 Hlen Hsig. generalize (memcmp_lit m r (chars "RSD PTR ")) (acpi_checksum_ok m r 20)
    (acpi_checksum_ok m r (load32 m (r + XSDP_LENGTH))) (byte_at m (r + RSDP_REVISION)).
  intros sig b1 b2 rev. destruct (Z.eqb_spec sig 0), b1, b2, (Z.leb_spec 2 rev); simpl; naive_solver lia.
Qed.

(** [r] is the first valid root pointer of the region in steps of 16 bytes, or
    null if there is none. *)
Definition first_rsdp (m : mem) (start stop r : Z) : Prop :=
  (∃ j, 0 ≤ j ∧ r = start + 16 * j ∧ r < stop ∧ valid_rsdp m r ∧
     ∀ i, 0 ≤ i < j → ¬ valid_rsdp m (start + 16 * i)) ∨
  (r = 0 ∧ ∀ i, 0 ≤ i → start + 16 * i < stop → ¬ valid_rsdp m (start + 16 * i)).

Lemma scan_rsdp_result m start stop :
  0 ≤ start → stop + 16 ≤ 2 ^ 64 → ∃ r, scan_rsdp m start stop = Ret r ∧ first_rsdp m start stop r.
Proof.
  intros H1 H2. assert (∀ r, rsdp_at m r = false ↔ ¬ valid_rsdp m r) as Hf.
  { intros r. rewrite <- rsdp_at_spec. by destruct (rsdp_at m r). }
  destruct (scan_loop_result (S (Z.to_nat ((stop - start) / 16 + 1))) m start stop)
    as [(j & Hj & Hjs & Hat & Hbefore & E)|[Hnone E]]; [done|done|lia|..].
  - exists (start + 16 * j). split; [exact E|]. left. exists j. split_and!; try done; [by apply rsdp_at_spec|].
    intros i Hi. by apply Hf, Hbefore.
  - exists 0. split; [exact E|]. right. split; [done|]. intros i Hi His. by apply Hf, Hnone.
Qed.

(** [init_rsdp] terminates and sets the pointer to the first valid root
    pointer (signature, checksum of the first 20 bytes and, from revision 2 on,
    of the whole structure) of the first kilobyte of the extended BIOS data
    area, and if there is none to the first one of the BIOS area. *)
Theorem init_rsdp_spec s (m := km_mem (ac_kmem s)) :
  let ebda := 16 * load16 m EBDA_SEG in
  ∃ r1 r2, first_rsdp m ebda (ebda + ONE_KB) r1 ∧ first_rsdp m BIOS_MEM_START BIOS_MEM_END r2 ∧
    init_rsdp s =
      Ret ((), Acpi (ac_kmem s) (if r1 =? 0 then r2 else r1) (rsdt_root_ptr s) (extended s)).
Proof.
  intros ebda. pose proof (load_range m EBDA_SEG 2) as Hr. simpl Z.pow in Hr.
  assert (Z.shiftl (load16 m EBDA_SEG) 4 = ebda) as Hsh.
  { rewrite Z.shiftl_mul_pow2 by lia. unfold ebda. lia. }
  assert (0 ≤ ebda ≤ 1048560) as He by (unfold ebda, load16; lia).
  destruct (scan_rsdp_result m ebda (ebda + ONE_KB)) as (r1 & E1 & H1); [lia|unfold ONE_KB; lia|].
  destruct (scan_rsdp_result m BIOS_MEM_START BIOS_MEM_END) as (r2 & E2 & H2);
    [unfold BIOS_MEM_START; lia|unfold BIOS_MEM_END; lia|].
  exists r1, r2. split; [done|]. split; [done|]. unfold init_rsdp. fold m. rewrite Hsh, E1.
  destruct (r1 =? 0); [by rewrite E2|done].
Qed.

(** ** Finding a table *)

(** The tables the search returns: an entry that is no small number, with the
    signature and a valid checksum. *)
Definition table_ok (m : mem) (signature : list Z) (a : Z) : Prop :=
  PGSIZE ≤ a ∧ bytes_at m a (length signature) = signature ∧
  byte_sum m a (Z.to_nat (load32 m (a + SDT_LENGTH))) mod 256 = 0.

(** The search when every table can be mapped: the first entry with the
    signature decides. *)
Fixpoint find_spec (m : mem) (signature : list Z) (l : list Z) : Z :=
  match l with
  | [] => 0
  | a :: l =>
      if a <? PGSIZE then find_spec m signature l
      else if bool_decide (bytes_at m a (length signature) = signature) then
        if byte_sum m a (Z.to_nat (load32 m (a + SDT_LENGTH))) mod 256 =? 0 then a else 0
      else find_spec m signature l
  end.

Lemma bytes_at_agree m m' p n : agree m m' p (Z.of_nat n) → bytes_at m' p n = bytes_at m p n.
Proof.
  revert p. induction n as [|n IH]; intros p Ha; [done|]. cbn [bytes_at].
  rewrite (Ha p) by lia. f_equal. apply IH. intros b Hb. apply Ha. lia.
Qed.

Lemma load32_agree m m' a : agree m m' a 4 → load32 m' a = load32 m a.
Proof. intros Ha. by apply load_agree. Qed.

Section find.
Context {MM : Mmio} {ok : kmem → Prop} {kept : Z → Prop} {dom : Z → Z → Prop}.
Context `{!MmioSpec MM ok kept dom}.

(** No mapping fails. *)
Definition always_maps : Prop :=
  ∀ s pa size r s', ok s → dom pa size → mm_map pa size s = Ret (r, s') → r = pa.

Definition kept_range (a n : Z) : Prop := ∀ b, a ≤ b < a + n → kept b.

(** The bytes of the table at [a] that are read, and its place in memory. *)
Definition readable (m : mem) (a : Z) : Prop :=
  kept_range a (Z.max SDT_SIZE (load32 m (a + SDT_LENGTH))) ∧
  dom a PGSIZE ∧ dom a (load32 m (a + SDT_LENGTH)).

(** The memory [m'] shows the tables that [m] has. *)
Definition shows (m m' : mem) : Prop := ∀ b, kept b → byte_at m' b = byte_at m b.

Lemma shows_agree m m' a n : shows m m' → kept_range a n → agree m m' a n.
Proof using Type. intros Hs Hk b Hb. by apply Hs, Hk. Qed.

Lemma map_kept m0 s pa size rp root ext :
  ok s → shows m0 (km_mem s) → dom pa size →
  ∃ r k', on_mem (mm_map pa size) (Acpi s rp root ext) = Ret (r, Acpi k' rp root ext) ∧
    (r = 0 ∨ r = pa) ∧ ok k' ∧ shows m0 (km_mem k') ∧
    (always_maps → r = pa).
Proof.
  intros Hok Hs Hd. destruct (mm_map_spec s pa size Hok Hd) as (r & k' & E & Hr & Hok' & Hb).
  exists r, k'. split; [unfold on_mem; cbn [ac_kmem]; by rewrite E|]. split; [done|]. split; [done|].
  split; [intros b Hkb; rewrite (Hb b Hkb); apply Hs; exact Hkb|]. intros Ht. exact (Ht s pa size r k' Hok Hd E).
Qed.

Lemma header_shown m m' a :
  shows m m' → readable m a → load32 m' (a + SDT_LENGTH) = load32 m (a + SDT_LENGTH).
Proof.
  intros Hs [Hk _]. apply load32_agree, (shows_agree _ _ _ _ Hs). intros b Hb. apply Hk.
  unfold SDT_LENGTH, SDT_SIZE in *. lia.
Qed.

Lemma table_shown m m' a n :
  shows m m' → readable m a → Z.of_nat n ≤ Z.max SDT_SIZE (load32 m (a + SDT_LENGTH)) →
  bytes_at m' a n = bytes_at m a n.
Proof.
  intros Hs [Hk _] Hn. apply bytes_at_agree, (shows_agree _ _ _ _ Hs). intros b Hb. apply Hk. lia.
Qed.

Lemma find_loop_result m rp root ext sig n i k l (total := always_maps) :
  ok k → shows m (km_mem k) → Forall (λ c, 0 ≤ c < 256) sig → Z.of_nat (length sig) ≤ SDT_SIZE →
  length l = n →
  (∀ j a, l !! j = Some a → (∀ k', shows m (km_mem k') →
     rsdt_entry (Acpi k' rp root ext) (i + Z.of_nat j) = a) ∧ (PGSIZE ≤ a → readable m a)) →
  ∃ r k', find_loop n i sig (Acpi k rp root ext) = Ret (r, Acpi k' rp root ext) ∧ ok k' ∧
    shows m (km_mem k') ∧ (r = 0 ∨ (r ∈ l ∧ table_ok m sig r)) ∧ (total → r = find_spec m sig l).
Proof.
  intros Hok Hs Hsig Hlen. revert i k l Hok Hs. induction n as [|n IH]; intros i k l Hok Hs Hl Hent.
  { apply nil_length_inv in Hl as ->. exists 0, k. split_and!; try done. by left. }
  destruct l as [|a l]; [done|]. injection Hl as Hl.
  destruct (Hent 0%nat a eq_refl) as [Ha Hread]. rewrite Z.add_0_r in Ha.
  assert (∀ k', ok k' → shows m (km_mem k') →
    ∃ r k'', find_loop n (i + 1) sig (Acpi k' rp root ext) = Ret (r, Acpi k'' rp root ext) ∧ ok k'' ∧
    shows m (km_mem k'') ∧ (r = 0 ∨ (r ∈ a :: l ∧ table_ok m sig r)) ∧ (total → r = find_spec m sig l)) as Hnext.
  { intros k' Hok' Hs'. destruct (IH (i + 1) k' l Hok' Hs' Hl) as (r & k'' & E & ? & ? & Hr & Ht).
    - intros j b Hj. destruct (Hent (S j) b Hj) as [Hb ?]. split; [|done]. intros k2 Hk2.
      rewrite <- (Hb k2 Hk2). f_equal. lia.
    - exists r, k''. split_and!; try done. destruct Hr as [?|[? ?]]; [by left|right]. split; [by right|done]. }
  cbn [find_loop]. unfold bind at 1, get at 1. rewrite (Ha k Hs). cbn [find_spec].
  destruct (Z.ltb_spec a PGSIZE) as [Hsmall|Hbig].
  { rewrite orb_true_r. by apply Hnext. }
  destruct (Z.eqb_spec a 0) as [?|_]; [unfold PGSIZE in *; lia|]. cbn [orb].
  specialize (Hread Hbig). pose proof (load32_range m (a + SDT_LENGTH)) as Hl32.
  pose proof (proj2 Hread) as [Hd1 Hd2]. unfold PGSIZE in Hbig.
  destruct (map_kept m k a PGSIZE rp root ext Hok Hs) as (h & k1 & E1 & Hh & Hok1 & Hs1 & Ht1); [done|].
  rewrite (bind_ret _ _ _ _ _ E1). destruct Hh as [->| ->].
  { destruct (Hnext k1 Hok1 Hs1) as (r & k2 & E & ? & ? & ? & _). exists r, k2. split_and!; try done.
    intros Htot. specialize (Ht1 Htot). lia. }
  destruct (Z.eqb_spec a 0) as [?|_]; [lia|]. unfold bind at 1, the_mem at 1, gets at 1. cbn [ac_kmem].
  unfold SDT_SIGNATURE. rewrite Z.add_0_r. rewrite (header_shown m (km_mem k1)) by done.
  pose proof (memcmp_lit_zero (km_mem k1) a sig Hsig) as Hcmp.
  rewrite (table_shown m (km_mem k1)) in Hcmp by (done || lia).
  destruct (Z.eqb_spec (memcmp_lit (km_mem k1) a sig) 0) as [E0|E0].
  2: { rewrite bool_decide_eq_false_2 by tauto. by apply Hnext. }
  rewrite bool_decide_eq_true_2 by tauto.
  set (len := load32 m (a + SDT_LENGTH)) in *.
  destruct (map_kept m k1 a len rp root ext Hok1 Hs1) as (h & k2 & E2 & Hh & Hok2 & Hs2 & Ht2); [done|].
  rewrite (bind_ret _ _ _ _ _ E2). destruct Hh as [->| ->].
  { exists 0, k2. split_and!; try done; [by left|]. intros Htot. specialize (Ht2 Htot). lia. }
  destruct (Z.eqb_spec a 0) as [?|_]; [lia|]. unfold bind at 1, the_mem at 1, gets at 1. cbn [ac_kmem].
  pose proof (acpi_checksum_ok_spec (km_mem k2) a len) as Hsum. unfold byte_sum in Hsum.
  rewrite (table_shown m (km_mem k2)) in Hsum by (done || lia). fold (byte_sum m a (Z.to_nat len)) in Hsum.
  destruct (acpi_checksum_ok (km_mem k2) a len); cbn [negb].
  - rewrite (proj2 (Z.eqb_eq _ _)) by (by apply Hsum). exists a, k2. split_and!; try done.
    right. split; [left|]. split; [unfold PGSIZE; lia|]. split; [tauto|]. by apply Hsum.
  - destruct (Z.eqb_spec (byte_sum m a (Z.to_nat len) mod 256) 0) as [E|E]; [by apply Hsum in E|].
    exists 0, k2. split_and!; try done. by left.
Qed.

(** The entries of the root table. *)
Definition rsdt_entries (s : acpi) : list Z := rsdt_entry s <$> seqZ 0 (rsdt_get_entry_count s).

Lemma rsdt_entry_shown m k rp root (ext : bool) i cnt :
  shows m (km_mem k) → kept_range root (SDT_SIZE + (if ext then 8 else 4) * cnt) → 0 ≤ i < cnt →
  rsdt_entry (Acpi k rp root ext) i =
  if ext then load64 m (root + RSDT_POINTERS + 8 * i) else load32 m (root + RSDT_POINTERS + 4 * i).
Proof.
  intros Hs Hk Hi. unfold rsdt_entry. cbn [ac_kmem rsdt_root_ptr extended].
  destruct ext; [apply load64_agree|apply load32_agree]; apply (shows_agree _ _ _ _ Hs);
    intros b Hb; apply Hk; unfold RSDT_POINTERS, SDT_SIZE in *; lia.
Qed.

(** The entries of a root table in the memory [m]. *)
Definition root_entries (m : mem) (root : Z) (ext : bool) : list Z :=
  rsdt_entries (Acpi (Kmem m 0) 0 root ext).
Definition root_kept (m : mem) (root : Z) (ext : bool) : Prop :=
  kept_range root
    (SDT_SIZE + (if ext then 8 else 4) * rsdt_get_entry_count (Acpi (Kmem m 0) 0 root ext)).

Lemma entry_count_shown m k rp root ext :
  shows m (km_mem k) → root_kept m root ext →
  rsdt_get_entry_count (Acpi k rp root ext) = rsdt_get_entry_count (Acpi (Kmem m 0) 0 root ext).
Proof.
  intros Hs Hk. unfold root_kept in Hk. set (cnt := rsdt_get_entry_count (Acpi (Kmem m 0) 0 root ext)) in *.
  assert (0 ≤ cnt) as Hc.
  { unfold cnt, rsdt_get_entry_count. destruct (_ =? 0); [lia|apply u32_range]. }
  unfold cnt, rsdt_get_entry_count. cbn [ac_kmem rsdt_root_ptr extended km_mem].
  rewrite (load32_agree m (km_mem k)); [done|]. apply (shows_agree _ _ _ _ Hs). intros b Hb. apply Hk.
  unfold SDT_LENGTH, SDT_SIZE in *. destruct ext; lia.
Qed.

Lemma rsdt_find_table_result m k rp root ext (sig : list Z) :
  ok k → shows m (km_mem k) → root ≠ 0 → Forall (λ c, 0 ≤ c < 256) sig →
  Z.of_nat (length sig) ≤ SDT_SIZE → root_kept m root ext →
  (∀ a, a ∈ root_entries m root ext → PGSIZE ≤ a → readable m a) →
  ∃ r k', rsdt_find_table sig (Acpi k rp root ext) = Ret (r, Acpi k' rp root ext) ∧
    ok k' ∧ shows m (km_mem k') ∧
    (r = 0 ∨ (r ∈ root_entries m root ext ∧ table_ok m sig r)) ∧
    (always_maps → r = find_spec m sig (root_entries m root ext)).
Proof.
  intros Hok Hs Hroot Hsig Hlen Hk Hread. pose proof (entry_count_shown m k rp root ext Hs Hk) as Hcnt.
  unfold rsdt_find_table, bind, get. cbn [rsdt_root_ptr].
  destruct (Z.eqb_spec root 0) as [?|_]; [done|]. rewrite Hcnt. unfold root_kept in Hk.
  set (s0 := Acpi (Kmem m 0) 0 root ext) in *. set (cnt := rsdt_get_entry_count s0) in *.
  destruct (find_loop_result m rp root ext sig (Z.to_nat cnt) 0 k (root_entries m root ext))
    as (r & k' & E & Hok' & Hs' & Hr & Ht); try done.
  - unfold root_entries, rsdt_entries. rewrite length_fmap, length_seqZ. done.
  - intros j a Hj. split; [|apply Hread; by eapply list_elem_of_lookup_2].
    intros k' Hs'. unfold root_entries, rsdt_entries in Hj. rewrite list_lookup_fmap in Hj.
    fold s0 cnt in Hj. destruct (seqZ 0 cnt !! j) as [x|] eqn:Ex; [|done]. injection Hj as <-.
    apply lookup_seqZ in Ex as [-> Hlt]. rewrite !Z.add_0_l. unfold s0.
    rewrite (rsdt_entry_shown m k' rp root ext _ cnt), (rsdt_entry_shown m (Kmem m 0) 0 root ext _ cnt); try done; lia.
  - exists r, k'. by split_and!.
Qed.

(** [init_rsdt] maps and records a root table whose checksum is right. *)
Lemma init_rsdt_result m k rsdp rp root0 ext0 (x := 2 <=? byte_at m (rsdp + RSDP_REVISION))
    (root := if x then load64 m (rsdp + XSDP_XSDT_ADDRESS) else load32 m (rsdp + RSDP_RSDT_ADDRESS)) :
  ok k → shows m (km_mem k) → always_maps → rsdp ≠ 0 → root ≠ 0 → kept_range rsdp 32 → readable m root →
  byte_sum m root (Z.to_nat (load32 m (root + SDT_LENGTH))) mod 256 = 0 →
  ∃ k', init_rsdt rsdp (Acpi k rp root0 ext0) = Ret ((), Acpi k' rp root x) ∧ ok k' ∧ shows m (km_mem k').
Proof.
  intros Hok Hs Htot Hr Hroot Hkr Hread Hsum. set (len := load32 m (root + SDT_LENGTH)) in *.
  assert (agree m (km_mem k) rsdp 32) as Ha by (by apply shows_agree).
  unfold init_rsdt. rewrite (proj2 (Z.eqb_neq _ _)) by done. unfold bind at 1, the_mem at 1, gets at 1.
  cbn [ac_kmem]. rewrite (Ha (rsdp + RSDP_REVISION)) by (unfold RSDP_REVISION; lia).
  rewrite (load64_agree m) by (eapply agree_sub; [done|unfold XSDP_XSDT_ADDRESS; lia..]).
  rewrite (load32_agree m (km_mem k) (rsdp + RSDP_RSDT_ADDRESS))
    by (eapply agree_sub; [done|unfold RSDP_RSDT_ADDRESS; lia..]).
  fold x root. pose proof Hread as (_ & Hd1 & Hd2). fold len in Hd2.
  destruct (map_kept m k root PGSIZE rp root0 ext0 Hok Hs Hd1) as (h & k1 & E1 & _ & Hok1 & Hs1 & Ht1).
  rewrite (Ht1 Htot) in E1. rewrite (bind_ret _ _ _ _ _ E1), (proj2 (Z.eqb_neq _ _)) by done.
  unfold bind at 1, the_mem at 1, gets at 1. cbn [ac_kmem]. rewrite (header_shown m) by done. fold len.
  assert (∃ k2, (if PGSIZE <? len then on_mem (mm_map root len) else ret root) (Acpi k1 rp root0 ext0) =
    Ret (root, Acpi k2 rp root0 ext0) ∧ ok k2 ∧ shows m (km_mem k2)) as (k2 & E2 & Hok2 & Hs2).
  { destruct (PGSIZE <? len); [|by exists k1].
    destruct (map_kept m k1 root len rp root0 ext0 Hok1 Hs1 Hd2) as (h2 & k2 & E2 & _ & Hok2 & Hs2 & Ht2).
    rewrite (Ht2 Htot) in E2. by exists k2. }
  rewrite (bind_ret _ _ _ _ _ E2), (proj2 (Z.eqb_neq _ _)) by done.
  unfold bind, the_mem, gets. cbn [ac_kmem].
  pose proof (load32_range m (root + SDT_LENGTH)) as Hl. fold len in Hl.
  assert (acpi_checksum_ok (km_mem k2) root len = true) as ->.
  { apply acpi_checksum_ok_spec. unfold byte_sum. rewrite (table_shown m (km_mem k2)); [exact Hsum|done|done|lia]. }
  exists k2. by split_and!.
Qed.

(** *** The search for the root pointer *)

(** The bytes that the search reads in a region are kept. *)
Definition scan_kept (m : mem) (start stop : Z) : Prop :=
  ∀ r, start ≤ r < stop → (r - start) mod 16 = 0 → kept_range r 8 ∧
    (memcmp_lit m r (chars "RSD PTR ") = 0 → kept_range r 36 ∧
     (2 ≤ byte_at m (r + RSDP_REVISION) → kept_range r (load32 m (r + XSDP_LENGTH)))).

Lemma checksum_agree m m' a n : agree m m' a n → acpi_checksum_ok m' a n = acpi_checksum_ok m a n.
Proof using Type.
  intros Ha. unfold acpi_checksum_ok. f_equal.
  assert (∀ k a sum, agree m m' a (Z.of_nat k) → checksum_loop m' a k sum = checksum_loop m a k sum) as Hk.
  { induction k as [|k IH]; intros b sum Hb; [done|]. cbn [checksum_loop]. rewrite (Hb b) by lia.
    apply IH. eapply agree_sub; [exact Hb|lia..]. }
  apply Hk. intros b Hb. apply Ha. lia.
Qed.

Lemma memcmp_lit_agree m m' lit : ∀ p,
  agree m m' p (Z.of_nat (length lit)) → memcmp_lit m' p lit = memcmp_lit m p lit.
Proof using Type.
  induction lit as [|c lit IH]; intros p Ha; [done|]. cbn [memcmp_lit length] in *.
  rewrite (Ha p) by lia. rewrite IH; [done|]. eapply agree_sub; [exact Ha|lia..].
Qed.

Lemma rsdp_at_shown m m' start stop r :
  shows m m' → scan_kept m start stop → start ≤ r < stop → (r - start) mod 16 = 0 → rsdp_at m' r = rsdp_at m r.
Proof using Type.
  intros Hs Hk Hr H16. destruct (Hk r Hr H16) as [H8 Hsig]. pose proof (shows_agree _ _ _ _ Hs H8) as Ha8.
  unfold rsdp_at. change (RSDP_SIGNATURE) with 0 in *. rewrite Z.add_0_r in *.
  rewrite (memcmp_lit_agree m m') by exact Ha8.
  destruct (Z.eqb_spec (memcmp_lit m r (chars "RSD PTR ")) 0) as [E|_]; [|done]. cbn [negb].
  destruct (Hsig E) as [H36 Hext]. pose proof (shows_agree _ _ _ _ Hs H36) as Ha.
  rewrite (checksum_agree m m' r 20) by (eapply agree_sub; [exact Ha|lia..]).
  rewrite (Ha (r + RSDP_REVISION)) by (unfold RSDP_REVISION; lia).
  rewrite (load32_agree m m' (r + XSDP_LENGTH)) by (eapply agree_sub; [exact Ha|unfold XSDP_LENGTH; lia..]).
  destruct (Z.leb_spec 2 (byte_at m (r + RSDP_REVISION))) as [H2|_]; [|done].
  by rewrite (checksum_agree m m') by (by apply shows_agree, Hext).
Qed.

Lemma scan_shown m m' start stop :
  shows m m' → scan_kept m start stop → 0 ≤ start → stop + 16 ≤ 2 ^ 64 →
  scan_rsdp m' start stop = scan_rsdp m start stop.
Proof using Type.
  intros Hs Hk H0 Hmax. unfold scan_rsdp.
  assert (∀ fuel p, start ≤ p → (p - start) mod 16 = 0 →
    scan_loop fuel m' p stop = scan_loop fuel m p stop) as Hl; [|apply Hl; [lia|by rewrite Z.sub_diag]].
  induction fuel as [|fuel IH]; intros p Hp H16; [done|]. cbn [scan_loop].
  destruct (Z.ltb_spec p stop); [|done]. rewrite (rsdp_at_shown m m' start stop) by (done || lia).
  destruct (rsdp_at m p); [done|]. rewrite u64_small by lia. apply IH; [lia|zlia].
Qed.

(** The search finds the same root pointer in any memory that shows the
    regions it reads. *)
Lemma init_rsdp_shown m k rp root ext rsdp (ebda := Z.shiftl (load16 m EBDA_SEG) 4) :
  shows m (km_mem k) → kept_range EBDA_SEG 2 →
  scan_kept m ebda (ebda + ONE_KB) → scan_kept m BIOS_MEM_START BIOS_MEM_END →
  init_rsdp (Acpi (Kmem m 0) 0 0 false) = Ret ((), Acpi (Kmem m 0) rsdp 0 false) →
  init_rsdp (Acpi k rp root ext) = Ret ((), Acpi k rsdp root ext).
Proof using Type.
  intros Hs Hseg Hk1 Hk2. unfold init_rsdp. cbn [ac_kmem km_mem rsdt_root_ptr extended].
  assert (load16 (km_mem k) EBDA_SEG = load16 m EBDA_SEG) as -> by (by apply load_agree, shows_agree).
  fold ebda. assert (0 ≤ ebda < 2 ^ 20) as He.
  { pose proof (load_range m EBDA_SEG 2) as Hr. unfold ebda, load16. rewrite Z.shiftl_mul_pow2 by lia. simpl Z.pow in *. lia. }
  rewrite (scan_shown m (km_mem k)) by (done || unfold ONE_KB; lia).
  rewrite (scan_shown m (km_mem k)) by (done || unfold BIOS_MEM_START, BIOS_MEM_END; lia).
  destruct (scan_rsdp m ebda (ebda + ONE_KB)) as [f1| | |]; try done.
  destruct (f1 =? 0); [destruct (scan_rsdp m BIOS_MEM_START BIOS_MEM_END)|]; try done; by intros [= ->].
Qed.

(** [rsdt_find_table] terminates and returns null or an entry of the root
    table, above the first page, that carries the signature and whose checksum
    is right; the tables themselves are not changed.  When no mapping fails,
    the first entry with the signature decides: it is returned if its checksum
    is right, and null otherwise. *)
Theorem rsdt_find_table_spec s (sig : list Z) (m := km_mem (ac_kmem s)) :
  ok (ac_kmem s) → rsdt_root_ptr s ≠ 0 → Forall (λ c, 0 ≤ c < 256) sig →
  Z.of_nat (length sig) ≤ SDT_SIZE →
  kept_range (rsdt_root_ptr s) (SDT_SIZE + (if extended s then 8 else 4) * rsdt_get_entry_count s) →
  (∀ a, a ∈ rsdt_entries s → PGSIZE ≤ a → readable m a) →
  ∃ r s', rsdt_find_table sig s = Ret (r, s') ∧ ok (ac_kmem s') ∧ shows m (km_mem (ac_kmem s')) ∧
    rsdt_root_ptr s' = rsdt_root_ptr s ∧
    (r = 0 ∨ (r ∈ rsdt_entries s ∧ table_ok m sig r)) ∧
    (always_maps → r = find_spec m sig (rsdt_entries s)).
Proof.
  intros Hok Hroot Hsig Hlen Hk Hread. destruct s as [k rp root ext].
  destruct (rsdt_find_table_result m k rp root ext sig) as (r & k' & E & ? & ? & ? & ?); try done.
  eexists r, _. by split_and!.
Qed.
End find.

(** ** Copying a table *)

Lemma copy_bytes_byte m new old n b :
  new + Z.of_nat n ≤ old ∨ old + Z.of_nat n ≤ new →
  byte_at (copy_bytes m new old n) b =
  if decide (new ≤ b < new + Z.of_nat n) then byte_at m (old + (b - new)) else byte_at m b.
Proof.
  revert m new old. induction n as [|n IH]; intros m new old Hd; cbn [copy_bytes].
  { rewrite decide_False by lia. done. }
  assert (∀ c, byte_at (store8 m new (byte_at m old)) c =
    if decide (c = new) then byte_at m old else byte_at m c) as Hst.
  { intros c. unfold store8. cbn [store]. rewrite byte_at_insert.
    pose proof (byte_at_range m old) as Hr. rewrite (Z.mod_small _ 256) by lia.
    rewrite u8_small by lia. repeat case_decide; congruence. }
  rewrite IH by lia. rewrite !Hst. repeat case_decide; subst; try lia; f_equal; lia.
Qed.

Section copy.
Context {LK : Linker}.

Lemma copy_to_safe_memory_result s p fl old (m := km_mem s) (len := load32 m (old + SDT_LENGTH)) :
  free_list s (p :: fl) → (p + Z.max len PGSIZE ≤ old ∨ old + len ≤ p) →
  ∃ s', copy_to_safe_memory old s = Ret (p, s') ∧
    (∀ b, byte_at (km_mem s') b =
      if decide (p ≤ b < p + len) then byte_at m (old + (b - p))
      else if decide (p ≤ b < p + PGSIZE) then 0 else byte_at m b) ∧
    (len ≤ PGSIZE → free_list s' fl).
Proof.
  intros Hf Hd. destruct (kalloc_rep s p fl Hf) as (s1 & Ek & Hf1 & Hch & _).
  assert (page_ok p) as Hp by (destruct Hf as (_ & _ & Hpf); by inversion Hpf).
  pose proof (page_ok_nonzero p Hp) as Hp0. pose proof (load32_range m (old + SDT_LENGTH)) as Hr. fold len in Hr.
  unfold copy_to_safe_memory, bind at 1, gets at 1. fold m len.
  rewrite (bind_ret _ _ _ _ _ Ek). destruct (Z.eqb_spec p 0) as [?|_]; [done|].
  eexists. split; [reflexivity|]. cbn [km_mem set_mem].
  assert (∀ c, byte_at (memset (km_mem s1) p 0 4096) c =
    if decide (p ≤ c < p + PGSIZE) then 0 else byte_at m c) as Hms.
  { intros c. case_decide as Hc.
    - rewrite memset_inside by (unfold PGSIZE in *; lia). done.
    - rewrite (memset_changes (km_mem s1) p 0 4096 ltac:(lia) c) by (unfold PGSIZE in *; lia).
      apply Hch. lia. }
  assert (∀ b, byte_at (copy_bytes (memset (km_mem s1) p 0 4096) p old (Z.to_nat len)) b =
    if decide (p ≤ b < p + len) then byte_at m (old + (b - p))
    else if decide (p ≤ b < p + PGSIZE) then 0 else byte_at m b) as Hb.
  { intros b. rewrite copy_bytes_byte by lia. rewrite !Hms. rewrite Z2Nat.id by lia.
    case_decide; [|done]. rewrite decide_False by (unfold PGSIZE in *; lia). done. }
  split; [exact Hb|]. intros Hlen.
  eapply (free_list_frame s1); [done|]. eapply pages_kept_only_changes; [|apply Hp|apply Hf1|].
  - intros b Hout. rewrite Hb. rewrite !decide_False by lia. symmetry. by apply Hch.
  - destruct Hf as (_ & Hnd & _). by apply NoDup_cons in Hnd as [? _].
Qed.

(** A copy that fits its page is faithful. *)
Lemma copied_bytes m m' p old n len :
  (∀ b, p ≤ b < p + len → byte_at m' b = byte_at m (old + (b - p))) → Z.of_nat n ≤ len →
  bytes_at m' p n = bytes_at m old n.
Proof.
  intros Hb. revert p old len Hb. induction n as [|n IH]; intros p old len Hb Hn; [done|].
  cbn [bytes_at]. rewrite Hb by lia. f_equal; [f_equal; lia|].
  apply (IH _ _ (len - 1)); [|lia]. intros b Hr. rewrite Hb by lia. f_equal. lia.
Qed.

(** C24. The copy of a table into allocated memory is faithful, byte for byte,
    but it is as long as the table says, in a single page: when the length is at
    most 4096 the rest of the page is zero and nothing else changes, and when it
    is larger the bytes behind the page are overwritten as well. *)
Theorem copy_to_safe_memory_spec s p fl old (m := km_mem s) (len := load32 m (old + SDT_LENGTH)) :
  free_list s (p :: fl) → (p + Z.max len PGSIZE ≤ old ∨ old + len ≤ p) →
  ∃ s', copy_to_safe_memory old s = Ret (p, s') ∧
    bytes_at (km_mem s') p (Z.to_nat len) = bytes_at m old (Z.to_nat len) ∧
    (len ≤ PGSIZE → only_changes m (km_mem s') p PGSIZE) ∧
    (∀ b, p + PGSIZE ≤ b < p + len → byte_at (km_mem s') b = byte_at m (old + (b - p))).
Proof.
  intros Hf Hd. destruct (copy_to_safe_memory_result s p fl old Hf Hd) as (s' & E & Hb & _).
  fold m len in Hb. pose proof (load32_range m (old + SDT_LENGTH)) as Hr. fold len in Hr.
  exists s'. split; [done|]. split; [|split].
  - apply (copied_bytes _ _ _ _ _ len); [|lia]. intros b Hin. rewrite Hb. by rewrite decide_True by lia.
  - intros Hlen b Hout. rewrite Hb. rewrite !decide_False by lia. done.
  - intros b Hin. rewrite Hb. rewrite decide_True; [done|]. unfold PGSIZE in *. lia.
Qed.
End copy.

(** A table whose length field is smaller than its header passes the checksum
    when the bytes it does count add up to zero (with length zero, always), and
    is then taken to have about [2^32] entries. *)
Theorem rsdt_short_length s :
  rsdt_root_ptr s ≠ 0 → load32 (km_mem (ac_kmem s)) (rsdt_root_ptr s + SDT_LENGTH) = 0 →
  acpi_checksum_ok (km_mem (ac_kmem s)) (rsdt_root_ptr s) 0 = true ∧
  rsdt_get_entry_count s = if extended s then 4294967291 else 4294967287.
Proof.
  intros Hr Hl. split; [done|]. unfold rsdt_get_entry_count. rewrite Hl.
  destruct (Z.eqb_spec (rsdt_root_ptr s) 0); [done|]. by destruct (extended s).
Qed.

(** ** Witnesses *)

(** A root table at 0x8000 whose only entry is a table "APIC" at 0x9000, with
    the page tables of [demo_root]. *)
Definition demo_tables : kmem :=
  Kmem (<[0x8004 := 40]> (<[0x8025 := 0x90]> (<[0x9000 := 0x41]> (<[0x9001 := 0x50]>
    (<[0x9002 := 0x49]> (<[0x9003 := 0x43]> (<[0x9004 := 36]> (<[0x9009 := 191]>
    (km_mem demo_paging))))))))) 0x500000.
Definition demo_acpi : acpi := Acpi demo_tables 0x7000 0x8000 false.
Definition demo_kept (b : Z) : Prop := 0x8000 ≤ b < 0xA000.

Lemma demo_tables_ok : paging_ok (LK := demo_linker) demo_root demo_kept demo_tables.
Proof.
  assert (∀ i, index_ok i → load64 (km_mem demo_tables) (demo_root + 8 * i) = 0) as Hz.
  { intros i Hi. apply load_zeros. intros b Hb. unfold byte_at, demo_tables, demo_paging.
    cbn [km_mem]. unfold index_ok, demo_root in *. rewrite !lookup_insert_ne by lia. done. }
  exists demo_pages. split; [|split].
  - split_and!; [vm_compute; done|by apply (bool_decide_unpack _)|].
    repeat constructor; vm_compute; congruence.
  - apply empty_root_ok; [vm_compute; done..|by apply (bool_decide_unpack _)|done].
  - intros b Hb. unfold demo_kept in Hb. split.
    + intros p Hp. unfold PGSIZE. unfold demo_pages in Hp. rewrite !elem_of_cons, elem_of_nil in Hp. lia.
    + intros path t Hp Ht. destruct (empty_root_tables _ _ _ _ Hz Hp Ht) as [_ ->].
      unfold demo_root, PGSIZE. lia.
Qed.

Lemma rsdt_find_table_spec_witness :
  ∃ r s', rsdt_find_table (MM := paging_mmio (WS := x86_shl) demo_root) (chars "APIC") demo_acpi = Ret (r, s') ∧
    (r = 0 ∨ (r ∈ [0x9000] ∧ table_ok (km_mem demo_tables) (chars "APIC") r)).
Proof.
  destruct (rsdt_find_table_spec (MM := paging_mmio (WS := x86_shl) demo_root)
    (ok := paging_ok (LK := demo_linker) demo_root demo_kept) (kept := demo_kept) (dom := paging_dom)
    demo_acpi (chars "APIC")) as (r & s' & E & _ & _ & _ & Hr & _).
  - exact demo_tables_ok.
  - discriminate.
  - repeat constructor; vm_compute; congruence.
  - vm_compute. congruence.
  - intros b. change (rsdt_root_ptr demo_acpi) with 0x8000.
    change (SDT_SIZE + _) with 40. unfold demo_kept. lia.
  - change (rsdt_entries demo_acpi) with [0x9000]. intros a ->%list_elem_of_singleton _. split.
    + intros b. change (Z.max SDT_SIZE (load32 (km_mem (ac_kmem demo_acpi)) (0x9000 + SDT_LENGTH))) with 36.
      unfold demo_kept. lia.
    + split; vm_compute; split_and!; congruence.
  - exists r, s'. split; [exact E|exact Hr].
Defined.

Lemma copy_to_safe_memory_spec_witness :
  ∃ s', copy_to_safe_memory 0x9000 demo_tables = Ret (0x500000, s') ∧
    bytes_at (km_mem s') 0x500000 36 = bytes_at (km_mem demo_tables) 0x9000 36.
Proof.
  destruct (copy_to_safe_memory_spec (LK := demo_linker) demo_tables 0x500000
    [0x400000; 0x300000; 0x200000] 0x9000) as (s' & E & Hb & _).
  - split_and!; [vm_compute; done| |].
    + apply (bool_decide_unpack _). vm_compute. exact I.
    + repeat constructor; vm_compute; congruence.
  - right. vm_compute. congruence.
  - exists s'. split; [exact E|exact Hb].
Defined.
