(* ===== verification/Madt.v ===== *)
(** * The table of interrupt controllers ([kernel/desc/madt.c])

    [init_madt] finds the table "APIC" and collects the processors and the
    I/O APICs from its entries, which are a type, a length and a body each. *)

From S2P Require Import Prelude Memory Kalloc StrUtils Acpi.

Definition MADT_ENTRY_LAPIC : Z := 0.
Definition MADT_ENTRY_IOAPIC : Z := 1.
Definition MADT_ENTRY_LAPIC_OVERRIDE : Z := 5.
Definition MADT_ENTRY_X2APIC : Z := 9.
Definition LAPIC_FLAG_ENABLED : Z := 1.
Definition MADT_MAX_CPUS : Z := 64.
Definition MAX_IOAPICS : Z := 8.

(** [struct MADT_t]: the header, the address of the local APIC and flags. *)
Definition MADT_LAPIC_ADDR : Z := SDT_SIZE.
Definition MADT_SIZE : Z := SDT_SIZE + 8.

Record CPUInfo := mkCPUInfo {
  ci_apic_id : Z;
  ci_acpi_id : Z;
  ci_flags : Z;
  ci_is_bsp : bool;
  ci_enabled : bool
}.
Record IOAPICEntry := mkIOAPICEntry { io_id : Z; io_address : Z; io_gsi_base : Z }.

(** The static variables of [madt.c]. *)
Record madt := Madt {
  madt_ptr : Z;
  lapic_address : Z;
  cpus : list CPUInfo;
  cpu_count : Z;
  ioapics : list IOAPICEntry;
  ioapic_count : Z
}.

(** ** Getters *)

Definition get_cpu_info (s : madt) (index : Z) : option CPUInfo :=
  if cpu_count s <=? index then None else cpus s !! Z.to_nat index.
Definition get_ioapic_info (s : madt) (index : Z) : option IOAPICEntry :=
  if ioapic_count s <=? index then None else ioapics s !! Z.to_nat index.

(** ** Entries *)

(** The assignments to [cpus[cpu_count]] of the two cases for processors. *)
Definition add_cpu (acpi_id apic_id flags : Z) (s : madt) : madt :=
  if cpu_count s <? MADT_MAX_CPUS then
    Madt (madt_ptr s) (lapic_address s)
      (<[Z.to_nat (cpu_count s) := mkCPUInfo apic_id acpi_id flags (cpu_count s =? 0)
           (negb (Z.land flags LAPIC_FLAG_ENABLED =? 0))]> (cpus s))
      (u32 (cpu_count s + 1)) (ioapics s) (ioapic_count s)
  else s.

Definition add_ioapic (id addr gsi : Z) (s : madt) : madt :=
  if ioapic_count s <? MAX_IOAPICS then
    Madt (madt_ptr s) (lapic_address s) (cpus s) (cpu_count s)
      (<[Z.to_nat (ioapic_count s) := mkIOAPICEntry id addr gsi]> (ioapics s))
      (u32 (ioapic_count s + 1))
  else s.

Definition set_lapic_address (a : Z) (s : madt) : madt :=
  Madt (madt_ptr s) a (cpus s) (cpu_count s) (ioapics s) (ioapic_count s).

(** The [switch] over the type of the entry at [entry]. *)
Definition parse_entry (m : mem) (entry : Z) (s : madt) : madt :=
  let ty := byte_at m entry in
  if ty =? MADT_ENTRY_LAPIC then
    add_cpu (byte_at m (entry + 2)) (byte_at m (entry + 3)) (load32 m (entry + 4)) s
  else if ty =? MADT_ENTRY_IOAPIC then
    add_ioapic (byte_at m (entry + 2)) (load32 m (entry + 4)) (load32 m (entry + 8)) s
  else if ty =? MADT_ENTRY_LAPIC_OVERRIDE then
    set_lapic_address (u32 (load64 m (entry + 4))) s
  else if ty =? MADT_ENTRY_X2APIC then
    add_cpu (u8 (load32 m (entry + 12))) (u8 (load32 m (entry + 4))) (load32 m (entry + 8)) s
  else s.

Fixpoint parse_loop (fuel : nat) (m : mem) (entry_ptr end_ptr : Z) (s : madt) : outcome madt :=
  match fuel with
  | O => OutOfFuel
  | S fuel =>
      if entry_ptr <? end_ptr then
        let len := byte_at m (entry_ptr + 1) in
        if (len <? 2) || (end_ptr <? entry_ptr + len) then Ret s
        else parse_loop fuel m (entry_ptr + len) end_ptr (parse_entry m entry_ptr s)
      else Ret s
  end.

(** Every round but the last advances by at least two bytes. *)
Definition parse_madt_entries (m : mem) (a : Z) (s : madt) : outcome madt :=
  let len := load32 m (a + SDT_LENGTH) in
  parse_loop (S (Z.to_nat len)) m (a + MADT_SIZE) (a + len) s.

Section init.
Context {MM : Mmio}.

Definition init_madt (s : madt) : M acpi madt :=
  let s := Madt 0 0 (cpus s) 0 (ioapics s) 0 in
  let* header := rsdt_find_table (chars "APIC") in
  if header =? 0 then ret s
  else
    let* m := the_mem in
    let s := Madt header (load32 m (header + MADT_LAPIC_ADDR)) (cpus s) (cpu_count s)
               (ioapics s) (ioapic_count s) in
    λ st, match parse_madt_entries m header s with
          | Ret s => Ret (s, st)
          | Panic msg => Panic msg
          | Undef => Undef
          | OutOfFuel => OutOfFuel
          end.
End init.

Definition madt_copy_to_safe_memory (s : madt) : M acpi madt :=
  if madt_ptr s =? 0 then ret s
  else
    let* new := on_mem (copy_to_safe_memory (madt_ptr s)) in
    if new =? 0 then ret s
    else ret (Madt new (lapic_address s) (cpus s) (cpu_count s) (ioapics s) (ioapic_count s)).

(** * Properties *)

(** ** Any contents of the table *)

(** The counters stay inside the arrays, and the first processor is the only
    one marked as the bootstrap processor. *)
Definition madt_ok (s : madt) : Prop :=
  length (cpus s) = Z.to_nat MADT_MAX_CPUS ∧ length (ioapics s) = Z.to_nat MAX_IOAPICS ∧
  0 ≤ cpu_count s ≤ MADT_MAX_CPUS ∧ 0 ≤ ioapic_count s ≤ MAX_IOAPICS ∧
  ∀ i c, get_cpu_info s i = Some c → 0 ≤ i →
    ci_is_bsp c = (i =? 0) ∧ ci_enabled c = Z.testbit (ci_flags c) 0.

Lemma land_1 f : negb (Z.land f LAPIC_FLAG_ENABLED =? 0) = Z.testbit f 0.
Proof.
  unfold LAPIC_FLAG_ENABLED. change 1 with (Z.ones 1). rewrite Z.land_ones by lia.
  change (2 ^ 1) with 2. rewrite Zmod_odd, Z.bit0_odd. by destruct (Z.odd f).
Qed.

Lemma add_cpu_ok acpi_id apic_id flags s : madt_ok s → madt_ok (add_cpu acpi_id apic_id flags s).
Proof.
  intros Hok. pose proof Hok as (H1 & H2 & H3 & H4 & H5). unfold add_cpu, MADT_MAX_CPUS in *.
  destruct (Z.ltb_spec (cpu_count s) 64) as [Hlt|]; [|done]. rewrite u32_small by lia.
  unfold madt_ok. cbn [cpus ioapics cpu_count ioapic_count].
  split; [by rewrite length_insert|]. split; [done|]. split; [unfold MADT_MAX_CPUS; lia|]. split; [done|].
  intros i c. unfold get_cpu_info. cbn [cpus cpu_count].
  destruct (Z.leb_spec (cpu_count s + 1) i) as [|Hi]; [done|]. intros Hc Hi0.
  destruct (decide (i = cpu_count s)) as [->|Hne].
  - rewrite list_lookup_insert_eq in Hc by (rewrite H1; lia). injection Hc as <-.
    split; [done|]. apply land_1.
  - rewrite list_lookup_insert_ne in Hc by lia. apply H5; [|done].
    unfold get_cpu_info. destruct (Z.leb_spec (cpu_count s) i); [lia|done].
Qed.

Lemma add_ioapic_ok id addr gsi s : madt_ok s → madt_ok (add_ioapic id addr gsi s).
Proof.
  intros Hok. pose proof Hok as (H1 & H2 & H3 & H4 & H5). unfold add_ioapic, MAX_IOAPICS in *.
  destruct (Z.ltb_spec (ioapic_count s) 8) as [Hlt|]; [|done]. rewrite u32_small by lia.
  unfold madt_ok. cbn [cpus ioapics cpu_count ioapic_count].
  split; [done|]. split; [by rewrite length_insert|]. split; [done|]. split; [unfold MAX_IOAPICS; lia|done].
Qed.

Lemma parse_entry_ok m a s : madt_ok s → madt_ok (parse_entry m a s).
Proof.
  intros Hok. unfold parse_entry. repeat case_match; try done; by apply add_cpu_ok || by apply add_ioapic_ok.
Qed.

Lemma parse_loop_ok fuel m p e s :
  madt_ok s → e - p < Z.of_nat fuel → (0 < fuel)%nat →
  ∃ s', parse_loop fuel m p e s = Ret s' ∧ madt_ok s'.
Proof.
  revert p s. induction fuel as [|fuel IH]; intros p s Hok Hf Hpos; [lia|]. cbn [parse_loop].
  destruct (Z.ltb_spec p e); [|by exists s].
  destruct (Z.ltb_spec (byte_at m (p + 1)) 2); [by exists s|].
  destruct (Z.ltb_spec e (p + byte_at m (p + 1))); [by exists s|]. cbn [orb].
  apply IH; [by apply parse_entry_ok|lia|lia].
Qed.

(** C25. Whatever the memory holds, parsing the table terminates, writes inside
    the two arrays only, marks exactly the first processor as the bootstrap
    processor and enables those whose flag says so. *)
Theorem parse_madt_entries_safe m a s :
  madt_ok s → ∃ s', parse_madt_entries m a s = Ret s' ∧ madt_ok s'.
Proof.
  intros Hok. pose proof (load32_range m (a + SDT_LENGTH)). apply parse_loop_ok; [done| |lia].
  unfold MADT_SIZE, SDT_SIZE. lia.
Qed.

(** ** Well-formed tables *)

(** The entries the code knows, and the others. *)
Inductive madt_entry :=
  | ELapic (acpi_id apic_id flags : Z)
  | EIoapic (id addr gsi : Z)
  | EOverride (addr : Z)
  | EX2apic (id flags uid : Z)
  | EOther (ty : Z) (body : list Z).

(** [n] bytes, least significant first. *)
Fixpoint le (n : nat) (v : Z) : list Z :=
  match n with
  | O => []
  | S n => v mod 256 :: le n (v / 256)
  end.

(** The bytes of an entry, as ACPI lays them out. *)
Definition encode_entry (e : madt_entry) : list Z :=
  match e with
  | ELapic acpi_id apic_id flags => [0; 8; acpi_id; apic_id] ++ le 4 flags
  | EIoapic id addr gsi => [1; 12; id; 0] ++ le 4 addr ++ le 4 gsi
  | EOverride addr => [5; 12; 0; 0] ++ le 8 addr
  | EX2apic id flags uid => [9; 16; 0; 0] ++ le 4 id ++ le 4 flags ++ le 4 uid
  | EOther ty body => [ty; 2 + Z.of_nat (length body)] ++ body
  end.

Definition entry_wf (e : madt_entry) : Prop :=
  match e with
  | ELapic a p f => 0 ≤ f < 2 ^ 32
  | EIoapic i a g => 0 ≤ a < 2 ^ 32 ∧ 0 ≤ g < 2 ^ 32
  | EOverride a => 0 ≤ a < 2 ^ 64
  | EX2apic i f u => 0 ≤ i < 2 ^ 32 ∧ 0 ≤ f < 2 ^ 32 ∧ 0 ≤ u < 2 ^ 32
  | EOther ty body => ty ∉ [0; 1; 5; 9]
  end.

(** What an entry does to the collected data. *)
Definition apply_entry (e : madt_entry) (s : madt) : madt :=
  match e with
  | ELapic a p f => add_cpu a p f s
  | EIoapic i a g => add_ioapic i a g s
  | EOverride a => set_lapic_address (u32 a) s
  | EX2apic i f u => add_cpu (u8 u) (u8 i) f s
  | EOther _ _ => s
  end.

Lemma le_length n v : length (le n v) = n.
Proof. revert v. induction n as [|n IH]; intros v; simpl; [done|]. by rewrite IH. Qed.

Lemma bytes_at_length m a n : length (bytes_at m a n) = n.
Proof. revert a. induction n as [|n IH]; intros a; simpl; [done|]. by rewrite IH. Qed.

Lemma bytes_at_app m a n1 n2 :
  bytes_at m a (n1 + n2) = bytes_at m a n1 ++ bytes_at m (a + Z.of_nat n1) n2.
Proof.
  revert a. induction n1 as [|n1 IH]; intros a; cbn [bytes_at Nat.add app]; [by rewrite Z.add_0_r|].
  rewrite IH. by replace (a + Z.of_nat (S n1)) with (a + 1 + Z.of_nat n1) by lia.
Qed.

(** The bytes [l] lie at [a]. *)
Definition at_addr (m : mem) (a : Z) (l : list Z) : Prop := bytes_at m a (length l) = l.

Lemma at_addr_app m a l1 l2 :
  at_addr m a (l1 ++ l2) ↔ at_addr m a l1 ∧ at_addr m (a + Z.of_nat (length l1)) l2.
Proof.
  unfold at_addr. rewrite length_app, bytes_at_app. split.
  - intros E. apply app_inj_1 in E; [done|]. apply bytes_at_length.
  - by intros [-> ->].
Qed.

Lemma at_addr_cons m a b l : at_addr m a (b :: l) ↔ byte_at m a = b ∧ at_addr m (a + 1) l.
Proof. unfold at_addr. cbn [length bytes_at]. split; [by intros [= ? ?]|by intros [-> ->]]. Qed.

Lemma load_le m a n v : at_addr m a (le n v) → 0 ≤ v < 256 ^ Z.of_nat n → load m a n = v.
Proof.
  revert a v. induction n as [|n IH]; intros a v Ha Hv; [simpl in *; lia|].
  cbn [le load] in *. apply at_addr_cons in Ha as [-> Ha].
  rewrite Nat2Z.inj_succ, Z.pow_succ_r in Hv by lia.
  rewrite (IH _ (v / 256)); [zlia|done|]. zlia.
Qed.

Lemma load32_le m a v : at_addr m a (le 4 v) → 0 ≤ v < 2 ^ 32 → load32 m a = v.
Proof. intros Ha Hv. by apply load_le. Qed.
Lemma load64_le m a v : at_addr m a (le 8 v) → 0 ≤ v < 2 ^ 64 → load64 m a = v.
Proof. intros Ha Hv. by apply load_le. Qed.

(** The parser reads an entry back. *)
Lemma parse_entry_encoded m a e s :
  entry_wf e → at_addr m a (encode_entry e) → parse_entry m a s = apply_entry e s.
Proof.
  intros Hwf Ha. destruct e; cbn [encode_entry entry_wf] in *;
    repeat rewrite at_addr_app in Ha; repeat rewrite at_addr_cons in Ha; cbn [length] in Ha;
    rewrite ?le_length in Ha; unfold parse_entry; cbn [apply_entry];
    change (Z.of_nat 4) with 4 in Ha;
    replace (a + 1 + 1 + 1) with (a + 3) in Ha by lia; replace (a + 1 + 1) with (a + 2) in Ha by lia;
    replace (a + 4 + 4 + 4) with (a + 12) in Ha by lia; replace (a + 4 + 4) with (a + 8) in Ha by lia.
  - destruct Ha as ((-> & _ & H2 & H3 & _) & Hf).
    by rewrite H2, H3, (load32_le _ _ flags).
  - destruct Hwf as [Hw1 Hw2]. destruct Ha as ((-> & _ & H2 & _ & _) & Hf1 & Hf2).
    by rewrite H2, (load32_le _ _ addr), (load32_le _ _ gsi).
  - destruct Ha as ((-> & _) & Hf).
    by rewrite (load64_le _ _ addr).
  - destruct Hwf as (Hw1 & Hw2 & Hw3). destruct Ha as ((-> & _) & Hf1 & Hf2 & Hf3).
    by rewrite (load32_le _ _ id), (load32_le _ _ flags), (load32_le _ _ uid).
  - destruct Ha as ((-> & _) & _). rewrite !not_elem_of_cons in Hwf.
    unfold MADT_ENTRY_LAPIC, MADT_ENTRY_IOAPIC, MADT_ENTRY_LAPIC_OVERRIDE, MADT_ENTRY_X2APIC.
    repeat (rewrite (proj2 (Z.eqb_neq _ _)) by tauto). done.
Qed.

Lemma encode_entry_len m a e :
  at_addr m a (encode_entry e) → byte_at m (a + 1) = Z.of_nat (length (encode_entry e)).
Proof.
  destruct e; cbn [encode_entry app]; rewrite !at_addr_cons; intros (_ & -> & _);
    cbn [length]; rewrite ?length_app, ?le_length; lia.
Qed.

(** What the entry of an I/O APIC holds, and that no other is taken for one. *)
Lemma entry_bytes m p e :
  entry_wf e → at_addr m p (encode_entry e) →
  match e with
  | EIoapic i ad g => byte_at m p = 1 ∧ byte_at m (p + 2) = i ∧ load32 m (p + 4) = ad ∧ load32 m (p + 8) = g
  | _ => byte_at m p ≠ 1
  end.
Proof.
  intros Hwf Ha. destruct e; cbn [encode_entry entry_wf] in *;
    repeat rewrite at_addr_app in Ha; repeat rewrite at_addr_cons in Ha; cbn [length] in Ha;
    rewrite ?le_length in Ha; change (Z.of_nat 4) with 4 in Ha;
    replace (p + 1 + 1 + 1) with (p + 3) in Ha by lia; replace (p + 1 + 1) with (p + 2) in Ha by lia;
    replace (p + 4 + 4) with (p + 8) in Ha by lia.
  - destruct Ha as ((-> & _) & _). lia.
  - destruct Ha as ((-> & _ & -> & _) & Hf1 & Hf2). split; [done|]. split; [done|].
    split; apply load32_le; tauto.
  - destruct Ha as ((-> & _) & _). lia.
  - destruct Ha as ((-> & _) & _). lia.
  - destruct Ha as ((-> & _) & _). rewrite !not_elem_of_cons in Hwf. tauto.
Qed.

Lemma parse_loop_encoded m es : ∀ fuel a s,
  Forall entry_wf es → at_addr m a (concat (encode_entry <$> es)) →
  (length (concat (encode_entry <$> es)) < fuel)%nat →
  parse_loop fuel m a (a + Z.of_nat (length (concat (encode_entry <$> es)))) s =
  Ret (foldl (λ s e, apply_entry e s) s es).
Proof.
  induction es as [|e es IH]; intros [|fuel] a s Hwf Ha Hf; try lia; cbn [parse_loop fmap list_fmap concat] in *.
  { simpl. rewrite Z.add_0_r, (proj2 (Z.ltb_ge a a)) by lia. done. }
  apply Forall_cons in Hwf as [He Hwf]. apply at_addr_app in Ha as [Ha Hrest].
  rewrite length_app in Hf |- *. set (rest := concat (encode_entry <$> es)) in *.
  assert (2 ≤ length (encode_entry e))%nat as Hlen.
  { destruct e; cbn [encode_entry app length]; lia. }
  rewrite (encode_entry_len _ _ _ Ha).
  destruct (Z.ltb_spec a (a + Z.of_nat (length (encode_entry e) + length rest))); [|lia].
  destruct (Z.ltb_spec (Z.of_nat (length (encode_entry e))) 2); [lia|].
  destruct (Z.ltb_spec (a + Z.of_nat (length (encode_entry e) + length rest))
    (a + Z.of_nat (length (encode_entry e)))); [lia|]. cbn [orb foldl].
  rewrite (parse_entry_encoded _ _ _ _ He Ha).
  replace (a + Z.of_nat (length (encode_entry e) + length rest))
    with (a + Z.of_nat (length (encode_entry e)) + Z.of_nat (length rest)) by lia.
  apply IH; [done|done|lia].
Qed.

(** The processors and the I/O APICs of a list of entries, and the address of
    the local APIC they override. *)
Definition cpu_of (e : madt_entry) : option (Z * Z * Z) :=
  match e with
  | ELapic a p f => Some (p, a, f)
  | EX2apic i f u => Some (u8 i, u8 u, f)
  | _ => None
  end.
Definition cpu_infos (es : list madt_entry) : list CPUInfo :=
  imap (λ i '(p, a, f), mkCPUInfo p a f (i =? 0)%nat (Z.testbit f 0)) (omap cpu_of es).
Definition ioapic_infos (es : list madt_entry) : list IOAPICEntry :=
  omap (λ e, match e with EIoapic i a g => Some (mkIOAPICEntry i a g) | _ => None end) es.
Definition override_of (addr : Z) (es : list madt_entry) : Z :=
  default addr (last (omap (λ e, match e with EOverride a => Some (u32 a) | _ => None end) es)).

(** The arrays hold the first of the entries [es] seen so far. *)
Definition collected (addr : Z) (es : list madt_entry) (s : madt) : Prop :=
  madt_ok s ∧
  cpu_count s = Z.min MADT_MAX_CPUS (Z.of_nat (length (cpu_infos es))) ∧
  take (Z.to_nat (cpu_count s)) (cpus s) = take (Z.to_nat MADT_MAX_CPUS) (cpu_infos es) ∧
  ioapic_count s = Z.min MAX_IOAPICS (Z.of_nat (length (ioapic_infos es))) ∧
  take (Z.to_nat (ioapic_count s)) (ioapics s) = take (Z.to_nat MAX_IOAPICS) (ioapic_infos es) ∧
  lapic_address s = override_of addr es.

(** Appending to an array of which the first [n] elements are used. *)
Lemma array_append {A} (arr l : list A) (x : A) (max n : nat) :
  length arr = max → n = min max (length l) → take n arr = take max l → (n < max)%nat →
  take (S n) (<[n := x]> arr) = take max (l ++ [x]).
Proof.
  intros Hlen Hn Ht Hlt. assert (n = length l) as -> by lia.
  rewrite (take_S_r (<[length l := x]> arr) (length l) x)
    by (apply list_lookup_insert_eq; lia).
  rewrite take_insert_ge by lia. rewrite Ht, !take_ge; [done|rewrite length_app; simpl; lia|lia].
Qed.

Lemma cpu_infos_snoc es p a f e :
  cpu_of e = Some (p, a, f) →
  cpu_infos (es ++ [e]) =
  cpu_infos es ++ [mkCPUInfo p a f (length (cpu_infos es) =? 0)%nat (Z.testbit f 0)].
Proof.
  intros E. unfold cpu_infos. rewrite omap_app. cbn [omap list_omap]. rewrite E.
  rewrite imap_app, length_imap. cbn [imap]. rewrite Nat.add_0_r. done.
Qed.

Lemma cpu_infos_same es e : cpu_of e = None → cpu_infos (es ++ [e]) = cpu_infos es.
Proof. intros E. unfold cpu_infos. rewrite omap_app. cbn [omap list_omap]. by rewrite E, app_nil_r. Qed.

Lemma add_cpu_collected addr es e p a f s :
  collected addr es s → cpu_of e = Some (p, a, f) → collected addr (es ++ [e]) (add_cpu a p f s).
Proof.
  intros (Hok & Hn & Ht & Hin & Hit & Ha) He.
  assert (collected addr (es ++ [e]) (add_cpu a p f s) ↔
    madt_ok (add_cpu a p f s) ∧
    cpu_count (add_cpu a p f s) = Z.min MADT_MAX_CPUS (Z.of_nat (length (cpu_infos es)) + 1) ∧
    take (Z.to_nat (cpu_count (add_cpu a p f s))) (cpus (add_cpu a p f s)) =
      take (Z.to_nat MADT_MAX_CPUS) (cpu_infos (es ++ [e]))) as ->.
  { unfold collected. rewrite (cpu_infos_snoc _ _ _ _ _ He), length_app.
    assert (ioapic_infos (es ++ [e]) = ioapic_infos es ∧ override_of addr (es ++ [e]) = override_of addr es) as [-> ->].
    { unfold ioapic_infos, override_of. rewrite !omap_app. by destruct e; simpl in *; rewrite ?app_nil_r. }
    assert (ioapic_count (add_cpu a p f s) = ioapic_count s ∧ ioapics (add_cpu a p f s) = ioapics s ∧
      lapic_address (add_cpu a p f s) = lapic_address s) as (-> & -> & ->)
      by (unfold add_cpu; by case_match).
    cbn [length]. rewrite Nat2Z.inj_add. tauto. }
  split; [by apply add_cpu_ok|]. pose proof Hok as (Hlen & _ & Hc & _).
  rewrite (cpu_infos_snoc _ _ _ _ _ He). unfold add_cpu, MADT_MAX_CPUS in *.
  destruct (Z.ltb_spec (cpu_count s) 64) as [Hlt|Hge]; cbn [cpu_count cpus].
  - rewrite u32_small by lia. split; [lia|].
    replace (Z.to_nat (cpu_count s + 1)) with (S (Z.to_nat (cpu_count s))) by lia.
    rewrite land_1. rewrite (array_append _ (cpu_infos es) _ (Z.to_nat 64)); [|done|lia|done|lia].
    do 4 f_equal. destruct (Z.eqb_spec (cpu_count s) 0), (Nat.eqb_spec (length (cpu_infos es)) 0); lia || done.
  - split; [lia|]. rewrite Ht. rewrite take_app_le by lia. done.
Qed.

Lemma add_ioapic_collected addr es i a g s :
  collected addr es s → collected addr (es ++ [EIoapic i a g]) (add_ioapic i a g s).
Proof.
  intros (Hok & Hn & Ht & Hin & Hit & Ha). pose proof Hok as (_ & Hlen & _ & Hc & _).
  split; [by apply add_ioapic_ok|]. rewrite cpu_infos_same by done.
  assert (ioapic_infos (es ++ [EIoapic i a g]) = ioapic_infos es ++ [mkIOAPICEntry i a g]) as ->
    by (unfold ioapic_infos; by rewrite omap_app).
  assert (override_of addr (es ++ [EIoapic i a g]) = override_of addr es) as ->
    by (unfold override_of; rewrite omap_app; simpl; by rewrite app_nil_r).
  rewrite length_app. unfold add_ioapic, MAX_IOAPICS in *.
  destruct (Z.ltb_spec (ioapic_count s) 8) as [Hlt|Hge]; cbn [length cpu_count cpus ioapic_count ioapics lapic_address].
  - split; [done|]. split; [done|]. rewrite u32_small by lia. split; [lia|]. split; [|done].
    replace (Z.to_nat (ioapic_count s + 1)) with (S (Z.to_nat (ioapic_count s))) by lia.
    by rewrite (array_append _ (ioapic_infos es) _ (Z.to_nat 8)) by (done || lia).
  - split; [done|]. split; [done|]. split; [lia|]. split; [|done]. rewrite Hit.
    by rewrite take_app_le by lia.
Qed.

Lemma apply_entry_collected addr es e s :
  collected addr es s → collected addr (es ++ [e]) (apply_entry e s).
Proof.
  intros Hc. destruct e as [a p f|i a g|a|i f u|ty body]; cbn [apply_entry].
  - by apply add_cpu_collected.
  - by apply add_ioapic_collected.
  - destruct Hc as (Hok & Hn & Ht & Hin & Hit & Ha). unfold collected. rewrite cpu_infos_same by done.
    assert (ioapic_infos (es ++ [EOverride a]) = ioapic_infos es) as ->
      by (unfold ioapic_infos; rewrite omap_app; simpl; by rewrite app_nil_r).
    split_and!; try done. unfold override_of. rewrite omap_app. simpl. by rewrite last_snoc.
  - by apply add_cpu_collected.
  - destruct Hc as (Hok & Hn & Ht & Hin & Hit & Ha). unfold collected. rewrite cpu_infos_same by done.
    unfold ioapic_infos, override_of in *. rewrite !omap_app. simpl. by rewrite !app_nil_r.
Qed.

Lemma fold_collected addr es : ∀ es0 s, collected addr es0 s →
  collected addr (es0 ++ es) (foldl (λ s e, apply_entry e s) s es).
Proof.
  induction es as [|e es IH]; intros es0 s Hs; cbn [foldl]; [by rewrite app_nil_r|].
  specialize (IH (es0 ++ [e]) _ (apply_entry_collected _ _ e _ Hs)). by rewrite <- app_assoc in IH.
Qed.

Lemma parse_madt_result m a s es :
  madt_ok s → cpu_count s = 0 → ioapic_count s = 0 → Forall entry_wf es →
  load32 m (a + SDT_LENGTH) = MADT_SIZE + Z.of_nat (length (concat (encode_entry <$> es))) →
  at_addr m (a + MADT_SIZE) (concat (encode_entry <$> es)) →
  parse_madt_entries m a s = Ret (foldl (λ s e, apply_entry e s) s es) ∧
  collected (lapic_address s) es (foldl (λ s e, apply_entry e s) s es).
Proof.
  intros Hok Hc Hi Hwf Hlen Ha. unfold parse_madt_entries. rewrite Hlen, Z.add_assoc.
  rewrite parse_loop_encoded; [|done|done|unfold MADT_SIZE, SDT_SIZE; lia].
  split; [reflexivity|]. apply (fold_collected _ es []).
  split; [done|]. rewrite Hc, Hi. by split_and!.
Qed.

(** C26. Round trip: from a table that encodes the entries [es], the parser
    collects the first 64 processors (of both kinds) in order, the first 8 I/O
    APICs in order, and the last override of the local APIC's address. *)
Theorem parse_madt_entries_encoded m a s es :
  madt_ok s → cpu_count s = 0 → ioapic_count s = 0 → Forall entry_wf es →
  load32 m (a + SDT_LENGTH) = MADT_SIZE + Z.of_nat (length (concat (encode_entry <$> es))) →
  at_addr m (a + MADT_SIZE) (concat (encode_entry <$> es)) →
  ∃ s', parse_madt_entries m a s = Ret s' ∧ collected (lapic_address s) es s'.
Proof.
  intros Hok Hc Hi Hwf Hlen Ha. eexists. by apply parse_madt_result.
Qed.

(** ** Witnesses *)

Definition demo_madt : madt :=
  Madt 0 0xFEE00000 (replicate 64 (mkCPUInfo 0 0 0 false false)) 0 (replicate 8 (mkIOAPICEntry 0 0 0)) 0.
Definition demo_entries : list madt_entry :=
  [ELapic 0 0 1; ELapic 1 2 1; EIoapic 5 0xFEC00000 0; EOther 2 [0; 0; 2; 0; 0; 0; 0; 0]; EX2apic 300 0 3].

(** The memory with the bytes [l] at [a]. *)
Fixpoint place (a : Z) (l : list Z) (m : mem) : mem :=
  match l with
  | [] => m
  | b :: l => <[a := b]> (place (a + 1) l m)
  end.

Lemma place_other a l m b : b < a ∨ a + Z.of_nat (length l) ≤ b → byte_at (place a l m) b = byte_at m b.
Proof.
  revert a. induction l as [|x l IH]; intros a Hb; [done|]. cbn [place length] in *.
  rewrite byte_at_insert, decide_False by lia. apply IH. lia.
Qed.
Definition demo_madt_mem : mem :=
  place 0x9000 (chars "APIC" ++ le 4 (44 + 54)) (place 0x902C (concat (encode_entry <$> demo_entries)) ∅).

Lemma demo_madt_ok : madt_ok demo_madt.
Proof.
  split; [done|]. split; [done|]. split; [vm_compute; split; congruence|].
  split; [vm_compute; split; congruence|]. intros i c. unfold get_cpu_info. cbn [cpu_count demo_madt].
  destruct (Z.leb_spec 0 i); [done|lia].
Qed.

Lemma parse_madt_entries_safe_witness :
  ∃ s', parse_madt_entries demo_madt_mem 0x9000 demo_madt = Ret s' ∧ madt_ok s'.
Proof. apply (parse_madt_entries_safe demo_madt_mem 0x9000 demo_madt). exact demo_madt_ok. Defined.

Lemma parse_madt_entries_encoded_witness :
  ∃ s', parse_madt_entries demo_madt_mem 0x9000 demo_madt = Ret s' ∧
    collected 0xFEE00000 demo_entries s'.
Proof.
  apply (parse_madt_entries_encoded demo_madt_mem 0x9000 demo_madt demo_entries).
  - exact demo_madt_ok.
  - reflexivity.
  - reflexivity.
  - repeat constructor; try (vm_compute; congruence). apply (bool_decide_unpack _). vm_compute. exact I.
  - vm_compute. reflexivity.
  - vm_compute. reflexivity.
Defined.
