(* ===== verification/Lapic.v ===== *)
(** * The local APIC ([kernel/apic/lapic.c])

    As for the I/O APICs, the chip is a parameter: [LapicBus] the loads and
    stores at its registers, [LapicChip] what the driver relies on.  A load of
    the command register changes the chip: the time passes in which an
    interrupt is delivered. *)

From S2P Require Import Prelude Memory.

Definition LAPIC_ID : Z := 0x0020.
Definition LAPIC_VERSION : Z := 0x0030.
Definition LAPIC_TPR : Z := 0x0080.
Definition LAPIC_EOI : Z := 0x00B0.
Definition LAPIC_SVR : Z := 0x00F0.
Definition LAPIC_ESR : Z := 0x0280.
Definition LAPIC_ICRLO : Z := 0x0300.
Definition LAPIC_ICRHI : Z := 0x0310.
Definition LAPIC_TIMER : Z := 0x0320.
Definition LAPIC_PERF : Z := 0x0340.
Definition LAPIC_LINT0 : Z := 0x0350.
Definition LAPIC_LINT1 : Z := 0x0360.
Definition LAPIC_ERROR : Z := 0x0370.
Definition LAPIC_TIMER_ICR : Z := 0x0380.
Definition LAPIC_TIMER_DCR : Z := 0x03E0.

Definition LAPIC_SVR_ENABLE : Z := 0x00000100.
Definition LAPIC_TIMER_PERIODIC : Z := 0x00020000.
Definition LAPIC_TIMER_MASKED : Z := 0x00010000.
Definition LAPIC_ICR_INIT : Z := 0x00000500.
Definition LAPIC_ICR_STARTUP : Z := 0x00000600.
Definition LAPIC_ICR_DELIVS : Z := 0x00001000.
Definition LAPIC_ICR_ASSERT : Z := 0x00004000.
Definition LAPIC_ICR_DEASSERT : Z := 0x00000000.
Definition LAPIC_ICR_LEVEL : Z := 0x00008000.
Definition LAPIC_TIMER_DIV_16 : Z := 0x03.
Definition LAPIC_SPURIOUS_VECTOR : Z := 0xFF.
Definition LAPIC_TIMER_VECTOR : Z := 32.
Definition LAPIC_ERROR_VECTOR : Z := 51.

(** ** The chip *)

Class LapicBus (D : Type) := {
  lb_write : D → Z → Z → D;
  lb_read : D → Z → Z * D
}.

(** The registers that hold what is written to them, with the bits that do. *)
Definition lapic_rw (r : Z) : option Z :=
  if r =? LAPIC_TPR then Some 0xFF
  else if r =? LAPIC_SVR then Some 0x1FF
  else if r =? LAPIC_ICRHI then Some 0xFF000000
  else if r =? LAPIC_TIMER then Some 0x300FF
  else if r =? LAPIC_PERF then Some 0x107FF
  else if r =? LAPIC_LINT0 then Some 0x1A7FF
  else if r =? LAPIC_LINT1 then Some 0x1A7FF
  else if r =? LAPIC_ERROR then Some 0x100FF
  else if r =? LAPIC_TIMER_ICR then Some 0xFFFFFFFF
  else if r =? LAPIC_TIMER_DCR then Some 0xB
  else None.

(** [lreg] is the contents of these registers and of the two constant ones;
    [ipis] the interprocessor interrupts that were sent, oldest first, with
    destination and command; [in_service] the vectors that have not been
    acknowledged, of which a write to the EOI register takes the first, which has the
    highest priority; [pending] for how many more loads the command
    register shows that the last one is being delivered. *)
Class LapicChip (D : Type) {B : LapicBus D} := {
  lapic_base : Z;
  lreg : D → Z → Z;
  ipis : D → list (Z * Z);
  in_service : D → list Z;
  pending : D → nat;
  max_polls : nat;
  base_range : 0 < lapic_base < 2 ^ 32;
  lreg_range d r : 0 ≤ lreg d r < 2 ^ 32;
  pending_bound d : (pending d ≤ max_polls)%nat;
  write_rw d r mask v r' : lapic_rw r = Some mask → Z.land v mask = v →
    lreg (lb_write d (lapic_base + r) v) r' = if decide (r = r') then v else lreg d r';
  write_rw_ipis d r mask v : lapic_rw r = Some mask →
    ipis (lb_write d (lapic_base + r) v) = ipis d ∧ in_service (lb_write d (lapic_base + r) v) = in_service d;
  write_ack d r v : r = LAPIC_EOI ∨ r = LAPIC_ESR →
    (∀ r', lreg (lb_write d (lapic_base + r) v) r' = lreg d r') ∧
    ipis (lb_write d (lapic_base + r) v) = ipis d;
  write_eoi d : in_service (lb_write d (lapic_base + LAPIC_EOI) 0) = tail (in_service d);
  write_esr d v : in_service (lb_write d (lapic_base + LAPIC_ESR) v) = in_service d;
  write_command d v :
    (∀ r', lreg (lb_write d (lapic_base + LAPIC_ICRLO) v) r' = lreg d r') ∧
    ipis (lb_write d (lapic_base + LAPIC_ICRLO) v) =
      ipis d ++ [(Z.shiftr (lreg d LAPIC_ICRHI) 24, v)] ∧
    in_service (lb_write d (lapic_base + LAPIC_ICRLO) v) = in_service d;
  read_quiet d a : (∀ r, lreg (snd (lb_read d a)) r = lreg d r) ∧ ipis (snd (lb_read d a)) = ipis d ∧
    in_service (snd (lb_read d a)) = in_service d;
  read_const d r : r = LAPIC_ID ∨ r = LAPIC_VERSION → fst (lb_read d (lapic_base + r)) = lreg d r;
  read_command d :
    (Z.land (fst (lb_read d (lapic_base + LAPIC_ICRLO))) LAPIC_ICR_DELIVS = 0 ↔ pending d = O) ∧
    pending (snd (lb_read d (lapic_base + LAPIC_ICRLO))) = pred (pending d)
}.

(** ** The driver *)

(** The variable [lapic], null before [lapic_init], and the chip. *)
Record lapic_driver (D : Type) := LapicDriver { lapic : Z; ldev : D }.
#[global] Arguments LapicDriver {D}.
#[global] Arguments lapic {D}.
#[global] Arguments ldev {D}.

Section driver.
Context {D : Type} {B : LapicBus D}.

(** [&lapic[reg >> 2]] *)
Definition reg_addr (s : lapic_driver D) (r : Z) : Z := lapic s + 4 * Z.shiftr r 2.

Definition lapic_write (r value : Z) : M (lapic_driver D) () := modify (λ s,
  if lapic s =? 0 then s
  else LapicDriver (lapic s) (lb_write (ldev s) (reg_addr s r) (u32 value))).

Definition lapic_read (r : Z) : M (lapic_driver D) Z := λ s,
  if lapic s =? 0 then Ret (0, s)
  else
    let '(v, d) := lb_read (ldev s) (reg_addr s r) in
    Ret (v, LapicDriver (lapic s) d).

Definition lapic_is_available (s : lapic_driver D) : bool := negb (lapic s =? 0).

Definition lapic_get_id : M (lapic_driver D) Z :=
  let* s := get in
  if lapic s =? 0 then ret 0
  else
    let* v := lapic_read LAPIC_ID in
    ret (u8 (Z.shiftr v 24)).

(** [get_lapic_address] is the address that [madt.c] found. *)
Definition lapic_init (get_lapic_address : Z) : M (lapic_driver D) () :=
  if get_lapic_address =? 0 then ret ()
  else
    do* modify (λ s, LapicDriver get_lapic_address (ldev s)) in
    do* lapic_write LAPIC_SVR (Z.lor LAPIC_SVR_ENABLE LAPIC_SPURIOUS_VECTOR) in
    do* lapic_write LAPIC_TPR 0 in
    do* lapic_write LAPIC_ERROR LAPIC_ERROR_VECTOR in
    do* lapic_write LAPIC_ESR 0 in
    do* lapic_write LAPIC_ESR 0 in
    do* lapic_write LAPIC_EOI 0 in
    do* lapic_write LAPIC_LINT0 LAPIC_TIMER_MASKED in
    do* lapic_write LAPIC_LINT1 LAPIC_TIMER_MASKED in
    let* version := lapic_read LAPIC_VERSION in
    do* (if 4 <=? Z.shiftr version 16 then lapic_write LAPIC_PERF LAPIC_TIMER_MASKED else ret ()) in
    do* lapic_write LAPIC_ERROR LAPIC_ERROR_VECTOR in
    do* lapic_write LAPIC_ESR 0 in
    do* lapic_write LAPIC_ESR 0 in
    do* lapic_write LAPIC_EOI 0 in
    let* id := lapic_get_id in
    ret ().

Definition lapic_eoi : M (lapic_driver D) () :=
  let* s := get in
  if lapic s =? 0 then ret () else lapic_write LAPIC_EOI 0.

Definition lapic_timer_start (vector initial_count : Z) : M (lapic_driver D) () :=
  let* s := get in
  if lapic s =? 0 then ret ()
  else
    do* lapic_write LAPIC_TIMER_DCR LAPIC_TIMER_DIV_16 in
    do* lapic_write LAPIC_TIMER (Z.lor LAPIC_TIMER_PERIODIC (u8 vector)) in
    lapic_write LAPIC_TIMER_ICR initial_count.

Definition lapic_timer_stop : M (lapic_driver D) () :=
  let* s := get in
  if lapic s =? 0 then ret ()
  else
    do* lapic_write LAPIC_TIMER LAPIC_TIMER_MASKED in
    lapic_write LAPIC_TIMER_ICR 0.

Fixpoint lapic_ipi_wait (fuel : nat) : M (lapic_driver D) () :=
  match fuel with
  | O => out_of_fuel
  | S fuel =>
      let* v := lapic_read LAPIC_ICRLO in
      if Z.land v LAPIC_ICR_DELIVS =? 0 then ret () else lapic_ipi_wait fuel
  end.

(** Destination, command and wait. *)
Definition send_command (fuel : nat) (apic_id command : Z) : M (lapic_driver D) () :=
  do* lapic_write LAPIC_ICRHI (Z.shiftl (u8 apic_id) 24) in
  do* lapic_write LAPIC_ICRLO command in
  lapic_ipi_wait fuel.

Definition lapic_send_ipi (fuel : nat) (apic_id vector : Z) : M (lapic_driver D) () :=
  let* s := get in
  if lapic s =? 0 then ret () else send_command fuel apic_id vector.

Definition lapic_send_init (fuel : nat) (apic_id : Z) : M (lapic_driver D) () :=
  let* s := get in
  if lapic s =? 0 then ret ()
  else
    do* send_command fuel apic_id (Z.lor (Z.lor LAPIC_ICR_INIT LAPIC_ICR_LEVEL) LAPIC_ICR_ASSERT) in
    send_command fuel apic_id (Z.lor (Z.lor LAPIC_ICR_INIT LAPIC_ICR_LEVEL) LAPIC_ICR_DEASSERT).

Definition lapic_send_sipi (fuel : nat) (apic_id vector : Z) : M (lapic_driver D) () :=
  let* s := get in
  if lapic s =? 0 then ret ()
  else send_command fuel apic_id (Z.lor LAPIC_ICR_STARTUP (u8 vector)).
End driver.

(** * Properties *)

Section properties.
Context {D : Type} {B : LapicBus D} {C : LapicChip D}.
Implicit Types (d : D) (c : M (lapic_driver D) ()).

(** Register contents after the writes [l]. *)
Definition written (f : Z → Z) (l : list (Z * Z)) : Z → Z :=
  foldl (λ f w r, if decide (fst w = r) then snd w else f r) f l.

(** [c], run by a driver that has found its chip, returns, having written [l]
    to the registers, sent the interrupts [ps] and acknowledged [n] interrupts. *)
Definition effect (c : M (lapic_driver D) ()) (l ps : list (Z * Z)) (n : nat) : Prop := ∀ d, ∃ d',
  c (LapicDriver lapic_base d) = Ret ((), LapicDriver lapic_base d') ∧
  (∀ r, lreg d' r = written (lreg d) l r) ∧ ipis d' = ipis d ++ ps ∧ in_service d' = drop n (in_service d).

Lemma written_ext f g l : (∀ r, f r = g r) → ∀ r, written f l r = written g l r.
Proof.
  revert f g. induction l as [|w l IH]; intros f g H r; [apply H|].
  cbn [written foldl]. apply IH. intros x. by rewrite H.
Qed.

Lemma effect_ret : effect (ret ()) [] [] 0.
Proof. intros d. exists d. split; [done|]. split; [done|]. by rewrite app_nil_r. Qed.

Lemma effect_seq c1 c2 l1 l2 ps1 ps2 n1 n2 :
  effect c1 l1 ps1 n1 → effect c2 l2 ps2 n2 → effect (do* c1 in c2) (l1 ++ l2) (ps1 ++ ps2) (n1 + n2).
Proof.
  intros H1 H2 d. destruct (H1 d) as (d1 & E1 & Hr1 & Hi1 & Hs1). destruct (H2 d1) as (d2 & E2 & Hr2 & Hi2 & Hs2).
  exists d2. rewrite (bind_ret _ _ _ _ _ E1). split; [done|]. split; [|split; [|by rewrite Hs2, Hs1, drop_drop]].
  - intros r. rewrite Hr2. unfold written at 2. rewrite foldl_app. fold (written (lreg d) l1).
    by apply written_ext.
  - by rewrite Hi2, Hi1, app_assoc.
Qed.

(** A register whose offset is a multiple of 4. *)
Lemma reg_addr_base d r : r mod 4 = 0 → reg_addr (LapicDriver lapic_base d) r = lapic_base + r.
Proof. intros H. unfold reg_addr. cbn [lapic]. rewrite Z.shiftr_div_pow2 by lia. change (2 ^ 2) with 4. zlia. Qed.

Lemma base_nonzero : (lapic_base =? 0) = false.
Proof. apply Z.eqb_neq. pose proof base_range. lia. Qed.

Lemma lapic_write_eq r v d :
  r mod 4 = 0 → lapic_write r v (LapicDriver lapic_base d) =
    Ret ((), LapicDriver lapic_base (lb_write d (lapic_base + r) (u32 v))).
Proof.
  intros H. unfold lapic_write, modify. cbn [lapic]. rewrite base_nonzero. cbn [ldev].
  by rewrite reg_addr_base.
Qed.

Lemma effect_write_rw r mask v :
  lapic_rw r = Some mask → r mod 4 = 0 → 0 ≤ v < 2 ^ 32 → Z.land v mask = v →
  effect (lapic_write r v) [(r, v)] [] 0.
Proof.
  intros Hr H4 Hv Hm d. rewrite lapic_write_eq, u32_small by done. eexists. split; [done|]. split.
  - intros r'. by rewrite (write_rw _ _ mask).
  - rewrite app_nil_r. by apply (write_rw_ipis _ _ mask).
Qed.

Lemma effect_write_eoi : effect (lapic_write LAPIC_EOI 0) [] [] 1.
Proof.
  intros d. rewrite lapic_write_eq by done. eexists. split; [done|]. rewrite app_nil_r.
  destruct (write_ack d LAPIC_EOI (u32 0) ltac:(by left)) as [Hr Hi]. split; [exact Hr|]. split; [exact Hi|]. apply write_eoi.
Qed.

Lemma effect_write_esr : effect (lapic_write LAPIC_ESR 0) [] [] 0.
Proof.
  intros d. rewrite lapic_write_eq by done. eexists. split; [done|]. rewrite app_nil_r.
  destruct (write_ack d LAPIC_ESR (u32 0) ltac:(by right)) as [Hr Hi]. split; [exact Hr|]. split; [exact Hi|]. apply write_esr.
Qed.

Lemma lapic_read_eq r d :
  r mod 4 = 0 → lapic_read r (LapicDriver lapic_base d) =
    Ret (fst (lb_read d (lapic_base + r)), LapicDriver lapic_base (snd (lb_read d (lapic_base + r)))).
Proof.
  intros H. unfold lapic_read. cbn [lapic]. rewrite base_nonzero. cbn [ldev]. rewrite reg_addr_base by done.
  by destruct (lb_read _ _).
Qed.

Ltac lapic_effects := repeat first
  [ apply effect_seq
  | eapply effect_write_rw; [reflexivity|reflexivity|vm_compute; intuition discriminate|reflexivity] ].

(** Delivery takes at most [max_polls] loads. *)
Lemma effect_wait fuel : (max_polls < fuel)%nat → effect (lapic_ipi_wait fuel) [] [] 0.
Proof.
  intros Hf d. assert (pending d < fuel)%nat as Hp by (pose proof (pending_bound d); lia).
  clear Hf. revert d Hp. induction fuel as [|fuel IH]; intros d Hp; [lia|]. cbn [lapic_ipi_wait].
  rewrite (bind_ret _ _ _ _ _ (lapic_read_eq LAPIC_ICRLO d eq_refl)).
  destruct (read_command d) as [Hz Hn]. destruct (read_quiet d (lapic_base + LAPIC_ICRLO)) as (Hq & Hi & Hs).
  set (d1 := snd (lb_read d (lapic_base + LAPIC_ICRLO))) in *.
  destruct (Z.eqb_spec (Z.land (fst (lb_read d (lapic_base + LAPIC_ICRLO))) LAPIC_ICR_DELIVS) 0) as [E|E].
  - exists d1. split; [done|]. split; [done|]. by rewrite app_nil_r, Hi, Hs.
  - assert (pending d ≠ O) as Hp0 by tauto. destruct (IH d1) as (d2 & E2 & Hr2 & Hi2 & Hs2); [lia|].
    exists d2. split; [done|]. split; [|by rewrite Hi2, Hi, Hs2, Hs].
    intros r. rewrite Hr2. cbn [written foldl]. apply Hq.
Qed.

Lemma effect_command v : 0 ≤ v < 2 ^ 32 →
  ∀ d, ∃ d', lapic_write LAPIC_ICRLO v (LapicDriver lapic_base d) = Ret ((), LapicDriver lapic_base d') ∧
    (∀ r, lreg d' r = lreg d r) ∧ ipis d' = ipis d ++ [(Z.shiftr (lreg d LAPIC_ICRHI) 24, v)] ∧ in_service d' = in_service d.
Proof.
  intros Hv d. rewrite lapic_write_eq, u32_small by done. eexists. split; [done|]. apply write_command.
Qed.

Lemma shifted_byte x : Z.land (Z.shiftl (u8 x) 24) 0xFF000000 = Z.shiftl (u8 x) 24 ∧
  0 ≤ Z.shiftl (u8 x) 24 < 2 ^ 32 ∧ Z.shiftr (Z.shiftl (u8 x) 24) 24 = u8 x.
Proof.
  pose proof (u8_range x) as Hx. split; [|split].
  - change 0xFF000000 with (Z.shiftl 0xFF 24). rewrite <- Z.shiftl_land. f_equal.
    change 0xFF with (Z.ones 8). rewrite Z.land_ones by lia. by apply Z.mod_small.
  - rewrite Z.shiftl_mul_pow2 by lia. lia.
  - by rewrite Z.shiftr_shiftl_l, Z.sub_diag, Z.shiftl_0_r by lia.
Qed.

Lemma effect_send_command fuel apic_id v :
  (max_polls < fuel)%nat → 0 ≤ v < 2 ^ 32 →
  effect (send_command fuel apic_id v) [(LAPIC_ICRHI, Z.shiftl (u8 apic_id) 24)] [(u8 apic_id, v)] 0.
Proof.
  intros Hf Hv d. destruct (shifted_byte apic_id) as (Hm & Hr & Hs). unfold send_command.
  destruct (effect_write_rw LAPIC_ICRHI 0xFF000000 (Z.shiftl (u8 apic_id) 24) eq_refl eq_refl Hr Hm d)
    as (d1 & E1 & Hr1 & Hi1 & Hs1). rewrite (bind_ret _ _ _ _ _ E1).
  destruct (effect_command v Hv d1) as (d2 & E2 & Hr2 & Hi2 & Hs2). rewrite (bind_ret _ _ _ _ _ E2).
  destruct (effect_wait fuel Hf d2) as (d3 & E3 & Hr3 & Hi3 & Hs3). exists d3. split; [done|].
  split; [|split; [|by rewrite Hs3, Hs2, Hs1]].
  - intros r. rewrite Hr3. cbn [written foldl]. by rewrite Hr2, Hr1.
  - rewrite Hi3, Hi2, Hi1, !app_nil_r, Hr1. cbn [written foldl fst snd]. by rewrite decide_True, Hs by done.
Qed.

Lemma effect_guarded c l ps n :
  effect c l ps n → effect (let* s := get in if lapic s =? 0 then ret () else c) l ps n.
Proof. intros H d. rewrite bind_get. cbn [lapic]. rewrite base_nonzero. apply H. Qed.

Lemma effect_send_init fuel apic_id :
  (max_polls < fuel)%nat →
  effect (lapic_send_init fuel apic_id)
    [(LAPIC_ICRHI, Z.shiftl (u8 apic_id) 24); (LAPIC_ICRHI, Z.shiftl (u8 apic_id) 24)]
    [(u8 apic_id, 0xC500); (u8 apic_id, 0x8500)] 0.
Proof.
  intros Hf. apply effect_guarded.
  apply (effect_seq _ _ [_] [_] [_] [_] 0 0); apply effect_send_command; done.
Qed.

Lemma effect_send_sipi fuel apic_id vector :
  (max_polls < fuel)%nat →
  effect (lapic_send_sipi fuel apic_id vector)
    [(LAPIC_ICRHI, Z.shiftl (u8 apic_id) 24)] [(u8 apic_id, Z.lor 0x600 (u8 vector))] 0.
Proof.
  intros Hf. apply effect_guarded, effect_send_command; [done|]. pose proof (u8_range vector).
  apply lor_range; unfold LAPIC_ICR_STARTUP; lia.
Qed.

(** A read of a constant register in the middle of a sequence. *)
Lemma effect_read r (f : Z → M (lapic_driver D) ()) l ps n d v :
  (r = LAPIC_ID ∨ r = LAPIC_VERSION) → lreg d r = v → effect (f v) l ps n →
  ∃ d', bind (lapic_read r) f (LapicDriver lapic_base d) = Ret ((), LapicDriver lapic_base d') ∧
    (∀ r, lreg d' r = written (lreg d) l r) ∧ ipis d' = ipis d ++ ps ∧ in_service d' = drop n (in_service d).
Proof.
  intros Hr Hv Hf. rewrite (bind_ret _ _ _ _ _ (lapic_read_eq r d ltac:(by destruct Hr; subst))).
  rewrite read_const, Hv by done. destruct (read_quiet d (lapic_base + r)) as (Hq & Hi & Hs).
  destruct (Hf (snd (lb_read d (lapic_base + r)))) as (d' & E & Hr' & Hi' & Hs').
  exists d'. split; [done|]. split; [|by rewrite Hi', Hi, Hs', Hs]. intros x. rewrite Hr'. by apply written_ext.
Qed.

(** The registers after [lapic_init]. *)
Definition init_regs (f : Z → Z) (r : Z) : Z :=
  if decide (r = LAPIC_SVR) then 0x1FF
  else if decide (r = LAPIC_TPR) then 0
  else if decide (r = LAPIC_ERROR) then 51
  else if decide (r = LAPIC_LINT0 ∨ r = LAPIC_LINT1) then 0x10000
  else if decide (r = LAPIC_PERF ∧ 4 ≤ Z.shiftr (f LAPIC_VERSION) 16) then 0x10000
  else f r.

(** The writes of [lapic_init] before and after it reads the version. *)
Definition init_writes : list (Z * Z) :=
  [(LAPIC_SVR, 0x1FF); (LAPIC_TPR, 0); (LAPIC_ERROR, 51); (LAPIC_LINT0, 0x10000); (LAPIC_LINT1, 0x10000)].
Definition late_writes (version : Z) : list (Z * Z) :=
  (if 4 <=? Z.shiftr version 16 then [(LAPIC_PERF, 0x10000)] else []) ++ [(LAPIC_ERROR, 51)].

Lemma init_regs_written f r :
  written f (init_writes ++ late_writes (f LAPIC_VERSION)) r = init_regs f r.
Proof.
  unfold init_writes, late_writes, init_regs.
  destruct (Z.leb_spec 4 (Z.shiftr (f LAPIC_VERSION) 16)); cbn [app written foldl fst snd];
    repeat case_decide; destruct_and?; subst; try done; lia || tauto || naive_solver.
Qed.

Lemma effect_get_id {c} l ps n : effect c l ps n → effect (let* _ := lapic_get_id in c) l ps n.
Proof.
  intros H d. unfold lapic_get_id. rewrite bind_assoc, bind_get. cbn [lapic]. rewrite base_nonzero.
  rewrite bind_assoc. apply (effect_read LAPIC_ID _ l ps n d _ ltac:(auto) eq_refl). exact H.
Qed.

(** [lapic_init] from the read of the version on. *)
Definition init_late (version : Z) : M (lapic_driver D) () :=
  do* (if 4 <=? Z.shiftr version 16 then lapic_write LAPIC_PERF LAPIC_TIMER_MASKED else ret ()) in
  do* lapic_write LAPIC_ERROR LAPIC_ERROR_VECTOR in
  do* lapic_write LAPIC_ESR 0 in
  do* lapic_write LAPIC_ESR 0 in
  do* lapic_write LAPIC_EOI 0 in
  let* id := lapic_get_id in
  ret ().

Lemma effect_late version : effect (init_late version) (late_writes version) [] 1.
Proof.
  apply (effect_seq _ _ _ [_] [] [] 0 1).
  - case_match; [|apply effect_ret]. lapic_effects.
  - apply (effect_seq _ _ [_] [] [] [] 0 1); [lapic_effects|].
    do 2 (apply (effect_seq _ _ [] [] [] [] 0 1); [apply effect_write_esr|]).
    apply (effect_seq _ _ [] [] [] [] 1 0); [apply effect_write_eoi|].
    apply effect_get_id, effect_ret.
Qed.

Lemma lapic_init_result s :
  ∃ d', lapic_init lapic_base s = Ret ((), LapicDriver lapic_base d') ∧
    (∀ r, lreg d' r = init_regs (lreg (ldev s)) r) ∧ ipis d' = ipis (ldev s) ∧
    in_service d' = drop 2 (in_service (ldev s)).
Proof.
  set (d := ldev s).
  assert (effect (do* lapic_write LAPIC_SVR (Z.lor LAPIC_SVR_ENABLE LAPIC_SPURIOUS_VECTOR) in
    do* lapic_write LAPIC_TPR 0 in
    do* lapic_write LAPIC_ERROR LAPIC_ERROR_VECTOR in
    do* lapic_write LAPIC_ESR 0 in
    do* lapic_write LAPIC_ESR 0 in
    do* lapic_write LAPIC_EOI 0 in
    do* lapic_write LAPIC_LINT0 LAPIC_TIMER_MASKED in
    lapic_write LAPIC_LINT1 LAPIC_TIMER_MASKED) init_writes [] 1) as Hearly.
  { do 3 (apply (effect_seq _ _ [_] (_ :: _) [] [] 0 1); [lapic_effects|]).
    do 2 (apply (effect_seq _ _ [] (_ :: _) [] [] 0 1); [apply effect_write_esr|]).
    apply (effect_seq _ _ [] (_ :: _) [] [] 1 0); [apply effect_write_eoi|].
    apply (effect_seq _ _ [_] [_] [] [] 0 0); lapic_effects. }
  destruct (Hearly d) as (d1 & E1 & Hr1 & Hi1 & Hs1).
  destruct (effect_read LAPIC_VERSION init_late _ _ _ d1 _ ltac:(auto) eq_refl (effect_late (lreg d1 LAPIC_VERSION)))
    as (d2 & E2 & Hr2 & Hi2 & Hs2).
  exists d2. split; [|split; [|split; [|by rewrite Hs2, Hs1, drop_drop]]].
  - unfold lapic_init. rewrite base_nonzero. unfold bind at 1, modify. fold d.
    rewrite <- E2. unfold bind in E1 |- *.
    repeat match goal with
    | H : match ?x with _ => _ end = Ret _ |- _ => destruct x as [[? ?]| | |]; try discriminate H
    end. rewrite E1. reflexivity.
  - intros r. rewrite Hr2, (written_ext _ _ _ Hr1). fold d.
    replace (lreg d1 LAPIC_VERSION) with (lreg d LAPIC_VERSION) by (by rewrite Hr1).
    rewrite <- init_regs_written. unfold written. by rewrite foldl_app.
  - by rewrite Hi2, Hi1, !app_nil_r.
Qed.

(** [lapic_init] with the address from the table enables the chip with
    spurious vector 255, accepts all priorities, routes errors to vector 51
    and masks both local inputs and, where there is one, the performance
    counter's; it leaves every other register (the timer's among them), sends
    no interrupt, acknowledges two, and the driver is available from then on.
    With no address it does nothing. *)
Theorem lapic_init_spec s :
  (∃ d', lapic_init lapic_base s = Ret ((), LapicDriver lapic_base d') ∧
     (∀ r, lreg d' r = init_regs (lreg (ldev s)) r) ∧ ipis d' = ipis (ldev s) ∧
     in_service d' = drop 2 (in_service (ldev s))) ∧
  lapic_init 0 s = Ret ((), s).
Proof. split; [apply lapic_init_result|done]. Qed.

Lemma get_id_result d :
  ∃ d', lapic_get_id (LapicDriver lapic_base d) = Ret (u8 (Z.shiftr (lreg d LAPIC_ID) 24), LapicDriver lapic_base d') ∧
    (∀ r, lreg d' r = lreg d r) ∧ ipis d' = ipis d ∧ in_service d' = in_service d.
Proof.
  exists (snd (lb_read d (lapic_base + LAPIC_ID))). split; [|apply read_quiet].
  unfold lapic_get_id. rewrite bind_get. cbn [lapic]. rewrite base_nonzero.
  rewrite (bind_ret _ _ _ _ _ (lapic_read_eq LAPIC_ID d eq_refl)). by rewrite read_const by auto.
Qed.

(** [lapic_timer_start] sets the timer to periodic interrupts on the vector,
    with the bus clock divided by 16, and nothing else; [lapic_timer_stop] masks
    it and clears the count. *)
Theorem lapic_timer_spec vector count :
  0 ≤ count < 2 ^ 32 →
  effect (lapic_timer_start vector count)
    [(LAPIC_TIMER_DCR, 3); (LAPIC_TIMER, 0x20000 + u8 vector); (LAPIC_TIMER_ICR, count)] [] 0 ∧
  effect lapic_timer_stop [(LAPIC_TIMER, 0x10000); (LAPIC_TIMER_ICR, 0)] [] 0.
Proof.
  intros Hc. pose proof (u8_range vector) as Hv. split; apply effect_guarded.
  - apply (effect_seq _ _ [_] [_; _] [] [] 0 0); [lapic_effects|].
    assert (Z.lor LAPIC_TIMER_PERIODIC (u8 vector) = 0x20000 + u8 vector) as ->.
    { rewrite Z.lor_comm. rewrite Z.add_comm. apply (lor_disjoint_add (u8 vector) 1 17); lia. }
    apply (effect_seq _ _ [_] [_] [] [] 0 0).
    + eapply effect_write_rw; [reflexivity|reflexivity|lia|].
      replace (0x20000 + u8 vector) with (Z.lor (u8 vector) (Z.shiftl 1 17))
        by (rewrite (lor_disjoint_add (u8 vector) 1 17); lia).
      rewrite Z.land_lor_distr_l. f_equal. assert (Z.land (u8 vector) 0xFF = u8 vector) as <-.
      { change 0xFF with (Z.ones 8). rewrite Z.land_ones by lia. by apply Z.mod_small. }
      by rewrite <- Z.land_assoc.
    + eapply effect_write_rw; [reflexivity|reflexivity|lia|].
      change 0xFFFFFFFF with (Z.ones 32). rewrite Z.land_ones by lia. by apply Z.mod_small.
  - apply (effect_seq _ _ [_] [_] [] [] 0 0); lapic_effects.
Qed.
End properties.

(** ** A chip in software

    The registers, the interrupts that were sent, whether the last one is still
    being delivered (it is for one load), and the interrupts in service. *)

Record soft_lapic := SoftLapic { sl_regs : gmap Z Z; sl_ipis : list (Z * Z); sl_busy : bool; sl_isr : list Z }.

Definition SOFT_BASE : Z := 0xFEE00000.
Definition soft_lreg (d : soft_lapic) (r : Z) : Z :=
  if r =? LAPIC_VERSION then 0x00050014 else u32 (default 0 (sl_regs d !! r)).

#[export] Instance soft_lapic_bus : LapicBus soft_lapic := {|
  lb_write d a v :=
    let r := a - SOFT_BASE in
    match lapic_rw r with
    | Some mask => SoftLapic (<[r := Z.land v mask]> (sl_regs d)) (sl_ipis d) (sl_busy d) (sl_isr d)
    | None =>
        if r =? LAPIC_ICRLO then
          SoftLapic (sl_regs d) (sl_ipis d ++ [(Z.shiftr (soft_lreg d LAPIC_ICRHI) 24, v)]) true (sl_isr d)
        else if r =? LAPIC_EOI then SoftLapic (sl_regs d) (sl_ipis d) (sl_busy d) (tail (sl_isr d))
        else d
    end;
  lb_read d a :=
    let r := a - SOFT_BASE in
    if r =? LAPIC_ICRLO then
      (if sl_busy d then LAPIC_ICR_DELIVS else 0, SoftLapic (sl_regs d) (sl_ipis d) false (sl_isr d))
    else (soft_lreg d r, d)
|}.

Lemma lapic_rw_range r mask : lapic_rw r = Some mask → r ≠ LAPIC_VERSION ∧ 0 ≤ mask < 2 ^ 32.
Proof.
  intros H. split; [by intros ->|]. revert H. unfold lapic_rw. repeat case_match; intros [=]; lia.
Qed.

#[export] Instance soft_lapic_chip : LapicChip soft_lapic.
Proof.
  refine {| lapic_base := SOFT_BASE; lreg := soft_lreg; ipis := sl_ipis; in_service := sl_isr;
            pending d := if sl_busy d then 1%nat else O; max_polls := 1%nat |};
    cbn [lb_write lb_read soft_lapic_bus].
  - done.
  - intros d r. unfold soft_lreg. case_match; [lia|]. apply u32_range.
  - intros d. case_match; lia.
  - intros d r mask v r' Hr Hm. replace (SOFT_BASE + r - SOFT_BASE) with r by lia. rewrite Hr, Hm.
    destruct (lapic_rw_range _ _ Hr) as [Hv Hmask]. unfold soft_lreg. cbn [sl_regs]. case_decide.
    + subst r'. rewrite (proj2 (Z.eqb_neq _ _)) by done. rewrite lookup_insert_eq. change (default 0 (Some v)) with v.
      unfold u32. change 4294967296 with (2 ^ 32). rewrite <- Hm, <- Z.land_ones, <- Z.land_assoc by lia.
      rewrite (Z.land_ones mask 32), Z.mod_small by lia. done.
    + by rewrite lookup_insert_ne.
  - intros d r mask v Hr. replace (SOFT_BASE + r - SOFT_BASE) with r by lia. by rewrite Hr.
  - intros d r v Hr. replace (SOFT_BASE + r - SOFT_BASE) with r by lia. by destruct Hr; subst.
  - done.
  - done.
  - done.
  - intros d a. by case_match.
  - intros d r Hr. replace (SOFT_BASE + r - SOFT_BASE) with r by lia. by destruct Hr; subst.
  - intros d. cbn. by destruct (sl_busy d).
Defined.

Lemma lapic_init_spec_witness :
  ∃ d', lapic_init 0xFEE00000 (LapicDriver 0 (SoftLapic ∅ [] false [])) = Ret ((), LapicDriver 0xFEE00000 d') ∧
    lreg d' LAPIC_SVR = 0x1FF ∧ lreg d' LAPIC_PERF = 0x10000.
Proof.
  destruct (lapic_init_spec (LapicDriver 0 (SoftLapic ∅ [] false []))) as [(d' & E & Hr & _) _].
  exists d'. split; [exact E|]. rewrite !Hr. split; reflexivity.
Defined.
