(* ===== verification/Ioapic.v ===== *)
(** * The I/O APICs ([kernel/apic/ioapic.c])

    The driver reads the I/O APICs from the table of [Madt.v], masks all their
    pins and routes single interrupts.  The chips are not part of the kernel:
    [IoapicBus] is what the driver does to them, and [IoapicChips] what the
    driver relies on, from the data sheet of the chip. *)

From S2P Require Import Prelude Memory Kalloc Acpi Madt.

Definition IOAPIC_REGSEL : Z := 0x00.
Definition IOAPIC_REGWIN : Z := 0x10.
Definition IOAPIC_REG_VER : Z := 0x01.
Definition IOAPIC_REG_TABLE : Z := 0x10.
Definition IOAPIC_DELMOD_FIXED : Z := 0.
Definition IOAPIC_DESTMOD_PHYSICAL : Z := 0.
Definition IOAPIC_INTPOL_HIGH : Z := 0.
Definition IOAPIC_TRIGGER_EDGE : Z := 0.
Definition IOAPIC_MASKED : Z := 0x00010000.

Record IOAPICInfo := mkIOAPICInfo {
  id : Z;
  address : Z;
  gsi_base : Z;
  max_redirect : Z;
  regs : Z
}.

(** ** The chips *)

(** 32-bit stores and loads at the addresses of the chips. *)
Class IoapicBus (D : Type) := {
  bus_write : D → Z → Z → D;
  bus_read : D → Z → Z
}.

(** The fields of a redirection entry that software sets: the delivery status
    and the remote IRR are read-only, other bits are reserved. *)
Definition rw_mask (r : Z) : Z := if Z.even r then 0x1AFFF else 0xFF000000.

(** A chip with registers at [b] and [max + 1] redirection entries is
    [chip_at b = Some max].  [IOREGSEL] selects the register that [IOWIN]
    reads and writes. *)
Class IoapicChips (D : Type) {B : IoapicBus D} := {
  chip_at : Z → option Z;
  sel : D → Z → Z;
  reg : D → Z → Z → Z;
  reg_range d b r : 0 ≤ reg d b r < 2 ^ 32;
  chip_version d b max : chip_at b = Some max → 0 ≤ max < 120 ∧
    Z.land (Z.shiftr (reg d b IOAPIC_REG_VER) 16) 0xFF = max;
  select_sel d b max v b' max' : chip_at b = Some max → chip_at b' = Some max' → 0 ≤ v < 256 →
    sel (bus_write d (b + IOAPIC_REGSEL) v) b' = if decide (b = b') then v else sel d b';
  select_reg d b max v b' max' r : chip_at b = Some max → chip_at b' = Some max' → 0 ≤ v < 256 →
    Z.land (reg (bus_write d (b + IOAPIC_REGSEL) v) b' r) (rw_mask r) = Z.land (reg d b' r) (rw_mask r);
  window_read d b max : chip_at b = Some max → bus_read d (b + IOAPIC_REGWIN) = reg d b (sel d b);
  window_sel d b max v b' max' : chip_at b = Some max → chip_at b' = Some max' →
    sel (bus_write d (b + IOAPIC_REGWIN) v) b' = sel d b';
  window_reg d b max v b' max' r : chip_at b = Some max → chip_at b' = Some max' →
    IOAPIC_REG_TABLE ≤ sel d b ≤ IOAPIC_REG_TABLE + 2 * max + 1 → 0 ≤ v < 2 ^ 32 →
    Z.land (reg (bus_write d (b + IOAPIC_REGWIN) v) b' r) (rw_mask r) =
    if decide (b = b' ∧ sel d b = r) then Z.land v (rw_mask r) else Z.land (reg d b' r) (rw_mask r)
}.

(** ** The driver *)

(** The static variables, and the chips. *)
Record driver (D : Type) := Driver { ioapics : list IOAPICInfo; ioapic_count : Z; dev : D }.
#[global] Arguments Driver {D}.
#[global] Arguments ioapics {D}.
#[global] Arguments ioapic_count {D}.
#[global] Arguments dev {D}.

Section driver.
Context {D : Type} {B : IoapicBus D}.

Definition mmio_write (a v : Z) : M (driver D) () :=
  modify (λ s, Driver (ioapics s) (ioapic_count s) (bus_write (dev s) a v)).
Definition mmio_read (a : Z) : M (driver D) Z := gets (λ s, bus_read (dev s) a).

Definition ioapic_write (base r value : Z) : M (driver D) () :=
  do* mmio_write (base + IOAPIC_REGSEL) (u8 r) in
  mmio_write (base + IOAPIC_REGWIN) value.
Definition ioapic_read (base r : Z) : M (driver D) Z :=
  do* mmio_write (base + IOAPIC_REGSEL) (u8 r) in
  mmio_read (base + IOAPIC_REGWIN).

Fixpoint for_gsi_loop (l : list IOAPICInfo) (gsi : Z) : option IOAPICInfo :=
  match l with
  | [] => None
  | a :: l =>
      let gsi_end := u32 (gsi_base a + max_redirect a + 1) in
      if (gsi_base a <=? gsi) && (gsi <? gsi_end) then Some a else for_gsi_loop l gsi
  end.
Definition ioapic_for_gsi (gsi : Z) : M (driver D) (option IOAPICInfo) :=
  gets (λ s, for_gsi_loop (take (Z.to_nat (ioapic_count s)) (ioapics s)) gsi).

Definition ioapic_is_available (s : driver D) : bool := 0 <? ioapic_count s.
Definition ioapic_get_count (s : driver D) : Z := ioapic_count s.

Definition ioapic_set_entry (irq vector dest flags : Z) : M (driver D) () :=
  let irq := u8 irq in
  let* ioapic := ioapic_for_gsi irq in
  match ioapic with
  | None => ret ()
  | Some a =>
      let idx := u8 (irq - gsi_base a) in
      let low := u32 (Z.lor (u8 vector) flags) in
      let high := u32 (Z.shiftl (u8 dest) 24) in
      do* ioapic_write (regs a) (IOAPIC_REG_TABLE + 2 * idx) low in
      do* ioapic_write (regs a) (IOAPIC_REG_TABLE + 2 * idx + 1) high in
      let* read_low := ioapic_read (regs a) (IOAPIC_REG_TABLE + 2 * idx) in
      let* read_high := ioapic_read (regs a) (IOAPIC_REG_TABLE + 2 * idx + 1) in
      ret ()
  end.

Definition ioapic_enable_irq (irq vector dest : Z) : M (driver D) () :=
  let flags := Z.lor (Z.lor (Z.lor IOAPIC_DELMOD_FIXED IOAPIC_DESTMOD_PHYSICAL)
                 IOAPIC_INTPOL_HIGH) IOAPIC_TRIGGER_EDGE in
  ioapic_set_entry irq vector dest flags.

(** The words it prints, when there is a chip for [irq]. *)
Definition ioapic_debug_irq (irq : Z) : M (driver D) (option (Z * Z)) :=
  let irq := u8 irq in
  let* ioapic := ioapic_for_gsi irq in
  match ioapic with
  | None => ret None
  | Some a =>
      let idx := u8 (irq - gsi_base a) in
      let* low := ioapic_read (regs a) (IOAPIC_REG_TABLE + 2 * idx) in
      let* high := ioapic_read (regs a) (IOAPIC_REG_TABLE + 2 * idx + 1) in
      ret (Some (low, high))
  end.

Definition ioapic_disable_irq (irq : Z) : M (driver D) () :=
  let irq := u8 irq in
  let* ioapic := ioapic_for_gsi irq in
  match ioapic with
  | None => ret ()
  | Some a =>
      let idx := u8 (irq - gsi_base a) in
      let* low := ioapic_read (regs a) (IOAPIC_REG_TABLE + 2 * idx) in
      let low := Z.lor low IOAPIC_MASKED in
      ioapic_write (regs a) (IOAPIC_REG_TABLE + 2 * idx) low
  end.

(** The assignments to [ioapics[ioapic_count]] for the entry at [entry]. *)
Definition record_ioapic (m : mem) (entry : Z) : M (driver D) () :=
  let addr := load32 m (entry + 4) in
  let* ver := ioapic_read addr IOAPIC_REG_VER in
  let info := mkIOAPICInfo (byte_at m (entry + 2)) addr (load32 m (entry + 8))
                (Z.land (Z.shiftr ver 16) 0xFF) addr in
  modify (λ s, Driver (<[Z.to_nat (ioapic_count s) := info]> (ioapics s))
                 (u32 (ioapic_count s + 1)) (dev s)).

(** The first loop of [ioapic_init], over the entries of the table. *)
Fixpoint find_loop (fuel : nat) (m : mem) (entry_ptr end_ptr : Z) : M (driver D) () :=
  match fuel with
  | O => out_of_fuel
  | S fuel =>
      let* s := get in
      if (entry_ptr <? end_ptr) && (ioapic_count s <? MAX_IOAPICS) then
        do* (if byte_at m entry_ptr =? MADT_ENTRY_IOAPIC then record_ioapic m entry_ptr else ret ()) in
        find_loop fuel m (entry_ptr + byte_at m (entry_ptr + 1)) end_ptr
      else ret ()
  end.

(** The inner loop over the pins: [irq] is a byte. *)
Fixpoint mask_pins (fuel : nat) (a : IOAPICInfo) (irq : Z) : M (driver D) () :=
  match fuel with
  | O => out_of_fuel
  | S fuel =>
      if irq <=? max_redirect a then
        do* ioapic_disable_irq (u32 (gsi_base a + irq)) in
        mask_pins fuel a (u8 (irq + 1))
      else ret ()
  end.

Fixpoint mask_loop (fuel : nat) (i : Z) : M (driver D) () :=
  match fuel with
  | O => out_of_fuel
  | S fuel' =>
      let* s := get in
      if i <? ioapic_count s then
        match ioapics s !! Z.to_nat i with
        | None => undef
        | Some a =>
            do* mask_pins fuel a 0 in
            mask_loop fuel' (u32 (i + 1))
        end
      else ret ()
  end.

(** [fuel] bounds each of the loops. *)
Definition ioapic_init (fuel : nat) (m : mem) (get_madt : Z) : M (driver D) () :=
  if get_madt =? 0 then ret ()
  else
    do* modify (λ s, Driver (ioapics s) 0 (dev s)) in
    do* find_loop fuel m (get_madt + MADT_SIZE) (get_madt + load32 m (get_madt + SDT_LENGTH)) in
    let* s := get in
    if ioapic_count s =? 0 then ret ()
    else mask_loop fuel 0.
End driver.

(** * Properties *)

Section properties.
Context {D : Type} {B : IoapicBus D} {C : IoapicChips D}.
Implicit Types (s : driver D) (d : D) (a : IOAPICInfo).

(** What software can set of the register [r] of the chip [b]. *)
Definition field (d : D) (b r : Z) : Z := Z.land (reg d b r) (rw_mask r).

(** [d'] has [v] in the register [r] of [b] and is [d] otherwise. *)
Definition set_field (d d' : D) (b r v : Z) : Prop := ∀ b' max' r', chip_at b' = Some max' →
  field d' b' r' = if decide (b = b' ∧ r = r') then Z.land v (rw_mask r) else field d b' r'.
Definition same_fields (d d' : D) : Prop := ∀ b' max' r', chip_at b' = Some max' →
  field d' b' r' = field d b' r'.

(** The entry of the pin [n]: the fields of its two registers. *)
Definition low_reg (n : Z) : Z := IOAPIC_REG_TABLE + 2 * n.
Definition pin (d : D) (b n : Z) : Z * Z := (field d b (low_reg n), field d b (low_reg n + 1)).

(** Only the entry of the pin [n] of [b] has changed, to [e]. *)
Definition set_pin (d d' : D) (b n : Z) (e : Z * Z) : Prop := ∀ b' max' n', chip_at b' = Some max' →
  pin d' b' n' = if decide (b = b' ∧ n = n') then e else pin d b' n'.

Lemma same_fields_trans d1 d2 d3 : same_fields d1 d2 → same_fields d2 d3 → same_fields d1 d3.
Proof. intros H1 H2 b m r Hb. by rewrite (H2 b m r Hb), (H1 b m r Hb). Qed.

Lemma ioapic_write_result s b max r v :
  chip_at b = Some max → IOAPIC_REG_TABLE ≤ r ≤ IOAPIC_REG_TABLE + 2 * max + 1 → 0 ≤ v < 2 ^ 32 →
  ∃ d', ioapic_write b r v s = Ret ((), Driver (ioapics s) (ioapic_count s) d') ∧
    set_field (dev s) d' b r v.
Proof.
  intros Hb Hr Hv. pose proof (chip_version (dev s) _ _ Hb) as [Hmax _]. unfold IOAPIC_REG_TABLE in *.
  eexists. split; [reflexivity|]. cbn [dev]. rewrite u8_small by lia.
  set (d1 := bus_write (dev s) (b + IOAPIC_REGSEL) r).
  assert (sel d1 b = r) as Hs by (unfold d1; rewrite (select_sel _ _ max _ _ max) by (done || lia); by rewrite decide_True).
  intros b' max' r' Hb'. unfold field.
  rewrite (window_reg _ _ max _ _ max'); [|done|done|rewrite Hs; unfold IOAPIC_REG_TABLE; lia|done].
  rewrite Hs. case_decide as Hd; [by destruct Hd as [_ ->]|].
  apply (select_reg _ _ max _ _ max'); (done || lia).
Qed.

Lemma ioapic_read_result s b max r :
  chip_at b = Some max → 0 ≤ r < 256 →
  ∃ d', ioapic_read b r s = Ret (reg d' b r, Driver (ioapics s) (ioapic_count s) d') ∧
    same_fields (dev s) d'.
Proof.
  intros Hb Hr. unfold ioapic_read, mmio_write, mmio_read, modify, gets, bind. rewrite u8_small by lia.
  cbn [dev]. set (d1 := bus_write (dev s) (b + IOAPIC_REGSEL) r). exists d1.
  rewrite (window_read d1 b max Hb).
  replace (sel d1 b) with r
    by (unfold d1; rewrite (select_sel _ _ max _ _ max) by (done || lia); by rewrite decide_True).
  split; [done|]. intros b' max' r' Hb'. apply (select_reg _ _ max _ _ max'); (done || lia).
Qed.

Lemma set_field_pin d d' b n v :
  set_field d d' b (low_reg n) v → set_pin d d' b n (Z.land v 0x1AFFF, snd (pin d b n)).
Proof.
  intros H b' max' n' Hb'. unfold pin. rewrite !(H b' max' _ Hb').
  assert (rw_mask (low_reg n) = 0x1AFFF) as ->
    by (unfold rw_mask, low_reg, IOAPIC_REG_TABLE; rewrite Z.even_add, Z.even_mul; done).
  unfold low_reg, IOAPIC_REG_TABLE. repeat case_decide; try lia; [|done].
  by destruct_and?; subst.
Qed.

Lemma set_field_pin_high d d' b n v :
  set_field d d' b (low_reg n + 1) v → set_pin d d' b n (fst (pin d b n), Z.land v 0xFF000000).
Proof.
  intros H b' max' n' Hb'. unfold pin. rewrite !(H b' max' _ Hb').
  assert (rw_mask (low_reg n + 1) = 0xFF000000) as ->
    by (unfold rw_mask, low_reg, IOAPIC_REG_TABLE; rewrite !Z.even_add, Z.even_mul; done).
  unfold low_reg, IOAPIC_REG_TABLE. repeat case_decide; try lia; [|done].
  by destruct_and?; subst.
Qed.

(** The chip [a] found for the interrupt [gsi] is there, with the number of
    entries recorded for it. *)
Definition routed (s : driver D) (gsi : Z) (a : IOAPICInfo) : Prop :=
  0 ≤ gsi < 256 ∧ 0 ≤ gsi_base a ∧ chip_at (regs a) = Some (max_redirect a) ∧
  for_gsi_loop (take (Z.to_nat (ioapic_count s)) (ioapics s)) gsi = Some a.

Lemma for_gsi_range l gsi a :
  for_gsi_loop l gsi = Some a → 0 ≤ gsi_base a → 0 ≤ max_redirect a → gsi < 256 →
  gsi_base a ≤ gsi ≤ gsi_base a + max_redirect a.
Proof.
  induction l as [|x l IH]; cbn [for_gsi_loop]; [done|].
  destruct (Z.leb_spec (gsi_base x) gsi); cbn [andb]; [|done].
  destruct (Z.ltb_spec gsi (u32 (gsi_base x + max_redirect x + 1))) as [Hlt|]; [|done].
  intros [= ->] ? ? ?. zlia.
Qed.

Lemma routed_pin s gsi a :
  routed s gsi a → (0 ≤ gsi - gsi_base a ≤ max_redirect a ∧ max_redirect a < 120) ∧ u8 (gsi - gsi_base a) = gsi - gsi_base a.
Proof.
  intros (Hg & Hb & Hc & Hf). pose proof (chip_version (dev s) _ _ Hc) as [Hm _].
  pose proof (for_gsi_range _ _ _ Hf Hb ltac:(lia) ltac:(lia)). split; [lia|]. apply u8_small. lia.
Qed.

Lemma set_entry_result s gsi a vector dest flags (n := gsi - gsi_base a) :
  routed s gsi a → 0 ≤ flags < 2 ^ 32 →
  ∃ d', ioapic_set_entry gsi vector dest flags s = Ret ((), Driver (ioapics s) (ioapic_count s) d') ∧
    set_pin (dev s) d' (regs a) n
      (Z.land (u32 (Z.lor (u8 vector) flags)) 0x1AFFF, Z.land (u32 (Z.shiftl (u8 dest) 24)) 0xFF000000).
Proof.
  intros Hr Hfl. pose proof (routed_pin _ _ _ Hr) as [Hn Hu]. fold n in Hn, Hu.
  destruct Hr as (Hg & Hb & Hc & Hf).
  unfold ioapic_set_entry, ioapic_for_gsi. rewrite u8_small by lia. unfold gets, bind at 1. rewrite Hf.
  fold n. rewrite Hu. fold (low_reg n).
  assert (16 ≤ low_reg n < 255 ∧ low_reg n + 1 ≤ 16 + 2 * max_redirect a + 1) as Hlr
    by (unfold low_reg, IOAPIC_REG_TABLE; lia).
  destruct (ioapic_write_result s (regs a) _ (low_reg n) (u32 (Z.lor (u8 vector) flags)) Hc)
    as (d1 & E1 & H1); [unfold IOAPIC_REG_TABLE; lia|apply u32_range|].
  rewrite (bind_ret _ _ _ _ _ E1).
  set (s1 := Driver (ioapics s) (ioapic_count s) d1).
  destruct (ioapic_write_result s1 (regs a) _ (low_reg n + 1) (u32 (Z.shiftl (u8 dest) 24)) Hc)
    as (d2 & E2 & H2); [unfold IOAPIC_REG_TABLE; lia|apply u32_range|].
  rewrite (bind_ret _ _ _ _ _ E2). set (s2 := Driver (ioapics s1) (ioapic_count s1) d2).
  destruct (ioapic_read_result s2 (regs a) _ (low_reg n) Hc) as (d3 & E3 & H3); [lia|].
  rewrite (bind_ret _ _ _ _ _ E3). set (s3 := Driver (ioapics s2) (ioapic_count s2) d3).
  destruct (ioapic_read_result s3 (regs a) _ (low_reg n + 1) Hc) as (d4 & E4 & H4); [lia|].
  rewrite (bind_ret _ _ _ _ _ E4). exists d4. split; [reflexivity|].
  apply set_field_pin in H1. apply set_field_pin_high in H2. cbn [dev s1 s2 s3] in *.
  intros b' max' n' Hb'. transitivity (pin d2 b' n').
  { unfold pin. by rewrite !(same_fields_trans _ _ _ H3 H4 b' max' _ Hb'). }
  rewrite (H2 b' max' n' Hb'), (H1 b' max' n' Hb'), (H1 (regs a) _ n Hc), (decide_True _ _ (conj eq_refl eq_refl)).
  by case_decide.
Qed.

Lemma disable_irq_result s gsi a (n := gsi - gsi_base a) :
  routed s gsi a →
  ∃ d', ioapic_disable_irq gsi s = Ret ((), Driver (ioapics s) (ioapic_count s) d') ∧
    set_pin (dev s) d' (regs a) n
      (Z.lor (fst (pin (dev s) (regs a) n)) IOAPIC_MASKED, snd (pin (dev s) (regs a) n)).
Proof.
  intros Hr. pose proof (routed_pin _ _ _ Hr) as [Hn Hu]. fold n in Hn, Hu.
  destruct Hr as (Hg & Hb & Hc & Hf).
  unfold ioapic_disable_irq, ioapic_for_gsi. rewrite u8_small by lia. unfold gets, bind at 1. rewrite Hf.
  fold n. rewrite Hu. fold (low_reg n).
  assert (16 ≤ low_reg n < 255 ∧ low_reg n + 1 ≤ 16 + 2 * max_redirect a + 1) as Hlr
    by (unfold low_reg, IOAPIC_REG_TABLE; lia).
  destruct (ioapic_read_result s (regs a) _ (low_reg n) Hc) as (d1 & E1 & H1); [lia|].
  rewrite (bind_ret _ _ _ _ _ E1). set (s1 := Driver (ioapics s) (ioapic_count s) d1).
  destruct (ioapic_write_result s1 (regs a) _ (low_reg n) (Z.lor (reg d1 (regs a) (low_reg n)) IOAPIC_MASKED) Hc)
    as (d2 & E2 & H2).
  { unfold IOAPIC_REG_TABLE; lia. }
  { apply lor_range; [lia|apply reg_range|done]. }
  exists d2. split; [exact E2|]. apply set_field_pin in H2. cbn [dev s1] in H2.
  intros b' max' n' Hb'. rewrite (H2 b' max' n' Hb'). unfold pin. rewrite !(H1 b' max' _ Hb'), !(H1 (regs a) _ _ Hc).
  case_decide; [|done]. cbn [fst snd]. f_equal.
  rewrite <- (H1 (regs a) _ (low_reg n) Hc). unfold field.
  assert (rw_mask (low_reg n) = 0x1AFFF) as ->
    by (unfold rw_mask, low_reg, IOAPIC_REG_TABLE; rewrite Z.even_add, Z.even_mul; done).
  rewrite Z.land_lor_distr_l. done.
Qed.

Lemma byte_low_mask x : 0 ≤ x < 256 → Z.land x 0x1AFFF = x.
Proof.
  intros Hx. assert (Z.land x 0xFF = x) as <-.
  { change 0xFF with (Z.ones 8). rewrite Z.land_ones by lia. by apply Z.mod_small. }
  by rewrite <- Z.land_assoc.
Qed.

Lemma enable_irq_result s gsi a vector dest (n := gsi - gsi_base a) :
  routed s gsi a →
  ∃ d1, ioapic_enable_irq gsi vector dest s = Ret ((), Driver (ioapics s) (ioapic_count s) d1) ∧
    set_pin (dev s) d1 (regs a) n (u8 vector, u8 dest * 2 ^ 24).
Proof.
  intros Hr. pose proof (u8_range vector) as Hv. pose proof (u8_range dest) as Hd.
  destruct (set_entry_result s gsi a vector dest 0 Hr ltac:(lia)) as (d1 & E1 & H1).
  fold n in H1. rewrite Z.lor_0_r, u32_small in H1 by lia.
  rewrite Z.shiftl_mul_pow2, u32_small in H1 by lia.
  assert (Z.land (u8 dest * 2 ^ 24) 0xFF000000 = u8 dest * 2 ^ 24) as Hdm.
  { change 0xFF000000 with (Z.shiftl 0xFF 24). rewrite <- Z.shiftl_mul_pow2 by lia.
    rewrite <- Z.shiftl_land. f_equal. change 0xFF with (Z.ones 8). rewrite Z.land_ones by lia.
    by apply Z.mod_small. }
  rewrite byte_low_mask, Hdm in H1 by done. by exists d1.
Qed.

(** C31. Routing an interrupt: [ioapic_enable_irq] sets the pin of the chip that
    serves the interrupt to the vector and the destination, fixed, physical,
    active high, edge-triggered and not masked; [ioapic_disable_irq] then masks
    it and keeps the rest.  Neither changes any other pin of any chip. *)
Theorem ioapic_enable_disable s gsi a vector dest (n := gsi - gsi_base a) :
  routed s gsi a →
  ∃ s1, ioapic_enable_irq gsi vector dest s = Ret ((), s1) ∧
    set_pin (dev s) (dev s1) (regs a) n (u8 vector, u8 dest * 2 ^ 24) ∧
    ∃ s2, ioapic_disable_irq gsi s1 = Ret ((), s2) ∧
      set_pin (dev s1) (dev s2) (regs a) n (u8 vector + IOAPIC_MASKED, u8 dest * 2 ^ 24) ∧
      ioapics s2 = ioapics s ∧ ioapic_count s2 = ioapic_count s.
Proof.
  intros Hr. pose proof (u8_range vector) as Hv.
  destruct (enable_irq_result s gsi a vector dest Hr) as (d1 & E1 & H1). fold n in H1.
  set (s1 := Driver (ioapics s) (ioapic_count s) d1) in *.
  exists s1. split; [exact E1|]. split; [exact H1|].
  destruct (disable_irq_result s1 gsi a Hr) as (d2 & E2 & H2). fold n in H2.
  change (dev s1) with d1 in H2.
  rewrite (H1 (regs a) (max_redirect a) n) in H2 by apply Hr.
  rewrite (decide_True _ _ (conj eq_refl eq_refl)) in H2. cbn [fst snd] in H2.
  eexists. split; [exact E2|]. split; [|done]. cbn [dev].
  replace (u8 vector + IOAPIC_MASKED) with (Z.lor (u8 vector) IOAPIC_MASKED); [done|].
  apply (lor_disjoint_add (u8 vector) 1 16); lia.
Qed.

(** ** Masking all pins *)

Definition masked (e : Z * Z) : Z * Z := (Z.lor (fst e) IOAPIC_MASKED, snd e).

Lemma mask_pins_result a k : ∀ fuel s i,
  (∀ n, 0 ≤ n ≤ max_redirect a → routed s (gsi_base a + n) a) → 0 ≤ max_redirect a →
  0 ≤ i → max_redirect a + 1 - i = Z.of_nat k → (k < fuel)%nat →
  ∃ d', mask_pins fuel a i s = Ret ((), Driver (ioapics s) (ioapic_count s) d') ∧
    ∀ b max n, chip_at b = Some max → 0 ≤ n ≤ max →
      pin d' b n = if decide (regs a = b ∧ i ≤ n) then masked (pin (dev s) b n) else pin (dev s) b n.
Proof.
  assert (∀ s, routed s (gsi_base a + 0) a → chip_at (regs a) = Some (max_redirect a)) as Hchip
    by (intros s Hr; apply Hr).
  induction k as [|k IH]; intros [|fuel] s i Hr Hm Hi Hk Hf; try lia; cbn [mask_pins].
  - destruct (Z.leb_spec i (max_redirect a)); [lia|]. exists (dev s). split; [by destruct s|].
    intros b max n Hb Hn. rewrite decide_False; [done|]. intros [<- Hin].
    rewrite (Hchip s) in Hb by (apply Hr; lia). injection Hb as <-. lia.
  - destruct (Z.leb_spec i (max_redirect a)); [|lia].
    pose proof (Hr i ltac:(lia)) as Hri. pose proof (routed_pin _ _ _ Hri) as [Hp _].
    destruct (disable_irq_result s _ a Hri) as (d1 & E1 & H1). pose proof Hri as (Hg & Hg0 & _).
    rewrite u32_small by lia. rewrite (bind_ret _ _ _ _ _ E1).
    replace (gsi_base a + i - gsi_base a) with i in H1 by lia.
    set (s1 := Driver (ioapics s) (ioapic_count s) d1) in *.
    rewrite u8_small by lia. destruct (IH fuel s1 (i + 1)) as (d2 & E2 & Hpin); [exact Hr|lia..|].
    exists d2. split; [exact E2|]. intros b max n Hb Hn. rewrite (Hpin b max n Hb Hn). cbn [dev s1].
    rewrite (H1 b max n Hb). unfold masked. repeat case_decide; destruct_and?; subst; try done; try lia.
Qed.

(** The chips [l] are there, serve the interrupts below 256 and no interrupt
    twice. *)
Definition chips_ok (l : list IOAPICInfo) : Prop :=
  Forall (λ a, chip_at (regs a) = Some (max_redirect a) ∧ 0 ≤ gsi_base a ∧
    0 ≤ max_redirect a ∧ gsi_base a + max_redirect a < 256) l ∧
  NoDup (regs <$> l) ∧
  ∀ i j a b, l !! i = Some a → l !! j = Some b → i ≠ j →
    gsi_base a + max_redirect a < gsi_base b ∨ gsi_base b + max_redirect b < gsi_base a.

Lemma for_gsi_found l a n :
  chips_ok l → a ∈ l → 0 ≤ n ≤ max_redirect a → for_gsi_loop l (gsi_base a + n) = Some a.
Proof.
  intros (Hall & Hnd & Hap) Hin Hn. induction l as [|x l IH]; [by apply elem_of_nil in Hin|].
  cbn [for_gsi_loop]. apply Forall_cons in Hall as [(Hx1 & Hx2 & Hx3 & Hx4) Hall].
  apply elem_of_cons in Hin as [->|Hin].
  - rewrite u32_small by lia. destruct (Z.leb_spec (gsi_base x) (gsi_base x + n)); [|lia].
    destruct (Z.ltb_spec (gsi_base x + n) (gsi_base x + max_redirect x + 1)); [done|lia].
  - cbn [fmap list_fmap] in Hnd. apply NoDup_cons in Hnd as [_ Hnd].
    apply list_elem_of_lookup in Hin as [j Hj].
    pose proof (Hap 0%nat (S j) x a eq_refl Hj ltac:(lia)) as Hdis.
    assert (for_gsi_loop l (gsi_base a + n) = Some a) as E.
    { apply IH; [done|done| |by eapply list_elem_of_lookup_2].
      intros i k a' b' Hi Hk Hne. apply (Hap (S i) (S k)); [done|done|lia]. }
    destruct (Z.leb_spec (gsi_base x) (gsi_base a + n)); cbn [andb]; [|done].
    destruct (Z.ltb_spec (gsi_base a + n) (u32 (gsi_base x + max_redirect x + 1))) as [Hlt|]; [|done].
    exfalso. rewrite u32_small in Hlt by lia. lia.
Qed.

(** The driver knows the chips [l]. *)
Definition knows (s : driver D) (l : list IOAPICInfo) : Prop :=
  ioapic_count s = Z.of_nat (length l) ∧ (length l ≤ 8)%nat ∧
  take (length l) (ioapics s) = l ∧ length (ioapics s) = 8%nat.

Lemma knows_lookup s l i a : knows s l → l !! i = Some a → ioapics s !! i = Some a.
Proof.
  intros (_ & _ & Ht & _) Hi. rewrite <- Ht in Hi. apply lookup_take_Some in Hi. apply Hi.
Qed.

Lemma knows_routed s l a n :
  knows s l → chips_ok l → a ∈ l → 0 ≤ n ≤ max_redirect a → routed s (gsi_base a + n) a.
Proof.
  intros (Hc & _ & Ht & _) Hok Hin Hn. pose proof Hok as (Hall & _).
  pose proof (proj1 (Forall_forall _ _) Hall a Hin) as (H1 & H2 & H3 & H4).
  split; [lia|]. split; [done|]. split; [done|]. rewrite Hc, Nat2Z.id, Ht. by apply for_gsi_found.
Qed.

Lemma mask_loop_result l k : ∀ fuel s i,
  knows s l → chips_ok l → (i + k = length l)%nat → (k + 121 < fuel)%nat →
  ∃ d', mask_loop fuel (Z.of_nat i) s = Ret ((), Driver (ioapics s) (ioapic_count s) d') ∧
    ∀ b max n, chip_at b = Some max → 0 ≤ n ≤ max →
      pin d' b n = if decide (b ∈ regs <$> drop i l) then masked (pin (dev s) b n) else pin (dev s) b n.
Proof.
  induction k as [|k IH]; intros [|fuel] s i Hk Hok Hi Hf; try lia; cbn [mask_loop]; rewrite bind_get.
  all: pose proof Hk as (Hc & Hle & Ht & Hlen).
  - destruct (Z.ltb_spec (Z.of_nat i) (ioapic_count s)); [lia|]. exists (dev s). split; [by destruct s|].
    intros b max n Hb Hn. rewrite drop_ge by lia. rewrite decide_False; [done|]. apply not_elem_of_nil.
  - destruct (Z.ltb_spec (Z.of_nat i) (ioapic_count s)); [|lia]. rewrite Nat2Z.id.
    destruct (lookup_lt_is_Some_2 l i ltac:(lia)) as [a Ha]. rewrite (knows_lookup _ _ _ _ Hk Ha).
    pose proof (list_elem_of_lookup_2 _ _ _ Ha) as Hin.
    pose proof (proj1 (Forall_forall _ _) (proj1 Hok) a Hin) as (Hca & Hg & Hm & Hg').
    pose proof (chip_version (dev s) _ _ Hca) as [Hmax _].
    destruct (mask_pins_result a (Z.to_nat (max_redirect a + 1)) (S fuel) s 0) as (d1 & E1 & H1); [|lia..|].
    { intros n Hn. by apply (knows_routed s l). }
    rewrite (bind_ret _ _ _ _ _ E1). rewrite u32_small by lia.
    replace (Z.of_nat i + 1) with (Z.of_nat (S i)) by lia.
    destruct (IH fuel (Driver (ioapics s) (ioapic_count s) d1) (S i)) as (d2 & E2 & H2); [done|done|lia|lia|].
    exists d2. split; [exact E2|]. intros b max n Hb Hn. rewrite (H2 b max n Hb Hn). cbn [dev].
    rewrite (H1 b max n Hb Hn), (drop_S l a i Ha). cbn [fmap list_fmap].
    assert (regs a ∉ regs <$> drop (S i) l) as Hnin.
    { destruct Hok as (_ & Hnd & _). rewrite <- (take_drop i l), fmap_app, (drop_S l a i Ha) in Hnd.
      apply NoDup_app in Hnd as (_ & _ & Hnd). cbn [fmap list_fmap] in Hnd. by apply NoDup_cons in Hnd as [? _]. }
    set (rest := regs <$> drop (S i) l) in *. clearbody rest. clear -Hnin Hn.
    destruct (decide (b ∈ rest)) as [Hbr|Hbr].
    + rewrite (decide_True (P := b ∈ regs a :: rest)) by (by right).
      rewrite decide_False; [done|]. by intros [<- _].
    + destruct (decide (regs a = b)) as [<-|Hne].
      * rewrite (decide_True (P := regs a ∈ regs a :: rest)) by left. by rewrite decide_True by (split; [done|lia]).
      * rewrite (decide_False (P := b ∈ regs a :: rest)) by (rewrite elem_of_cons; intros [->|?]; done).
        rewrite decide_False; [done|]. by intros [? _].
Qed.

(** ** [ioapic_init] *)

(** What the driver records for an entry of the table. *)
Definition info_of (e : IOAPICEntry) : IOAPICInfo :=
  mkIOAPICInfo (io_id e) (io_address e) (io_gsi_base e) (default 0 (chip_at (io_address e))) (io_address e).

Lemma record_ioapic_result s l m p i ad g max :
  knows s l → (length l < 8)%nat → chip_at ad = Some max →
  byte_at m (p + 2) = i → load32 m (p + 4) = ad → load32 m (p + 8) = g →
  ∃ s', record_ioapic m p s = Ret ((), s') ∧ knows s' (l ++ [info_of (mkIOAPICEntry i ad g)]) ∧
    same_fields (dev s) (dev s').
Proof.
  intros (Hc & Hle & Ht & Hlen) Hlt Hchip E2 E4 E8. unfold record_ioapic. rewrite E2, E4, E8.
  destruct (ioapic_read_result s ad max IOAPIC_REG_VER Hchip) as (d1 & E1 & H1); [unfold IOAPIC_REG_VER; lia|].
  rewrite (bind_ret _ _ _ _ _ E1). destruct (chip_version d1 ad max Hchip) as [_ ->].
  eexists. split; [reflexivity|]. split; [|exact H1]. unfold knows. cbn [ioapics ioapic_count].
  rewrite Hc, u32_small, Nat2Z.id by lia. rewrite length_app. cbn [length].
  split; [lia|]. split; [lia|]. split; [|by rewrite length_insert].
  rewrite Nat.add_1_r. unfold info_of. cbn [io_id io_address io_gsi_base]. rewrite Hchip. cbn [default].
  rewrite (take_S_r _ _ (mkIOAPICInfo i ad g max ad)) by (apply list_lookup_insert_eq; lia).
  by rewrite take_insert_ge, Ht by lia.
Qed.

Lemma ioapic_find_result m es : ∀ fuel s l p,
  knows s l → (length l + length (ioapic_infos es) ≤ 8)%nat → Forall entry_wf es →
  at_addr m p (concat (encode_entry <$> es)) →
  Forall (λ e, is_Some (chip_at (io_address e))) (ioapic_infos es) → (length es < fuel)%nat →
  ∃ s', find_loop fuel m p (p + Z.of_nat (length (concat (encode_entry <$> es)))) s = Ret ((), s') ∧
    knows s' (l ++ (info_of <$> ioapic_infos es)) ∧ same_fields (dev s) (dev s').
Proof.
  induction es as [|e es IH]; intros [|fuel] s l p Hk Hlen Hwf Ha Hch Hf;
    cbn [length] in Hf; try lia; cbn [find_loop]; rewrite bind_get.
  { cbn [fmap list_fmap concat length]. rewrite (proj2 (Z.ltb_ge p _)) by lia. cbn [andb].
    exists s. split; [done|]. rewrite app_nil_r. split; [done|]. intros ? ? ?; done. }
  apply Forall_cons in Hwf as [He Hwf]. cbn [fmap list_fmap concat] in Ha |- *.
  apply at_addr_app in Ha as [Ha Hrest]. rewrite length_app.
  set (rest := concat (encode_entry <$> es)) in *.
  assert (2 ≤ length (encode_entry e))%nat as Hel by (destruct e; cbn [encode_entry app length]; lia).
  pose proof (entry_bytes _ _ _ He Ha) as Hbytes. rewrite (encode_entry_len _ _ _ Ha).
  rewrite (proj2 (Z.ltb_lt p _)) by lia. cbn [andb].
  replace (p + Z.of_nat (length (encode_entry e) + length rest))
    with (p + Z.of_nat (length (encode_entry e)) + Z.of_nat (length rest)) by lia.
  destruct (Z.ltb_spec (ioapic_count s) MAX_IOAPICS) as [Hlt|Hge].
  2: { pose proof Hk as (Hc & Hle & _). unfold MAX_IOAPICS in Hge.
    assert (ioapic_infos (e :: es) = []) as -> by (apply nil_length_inv; lia).
    exists s. split; [done|]. cbn [fmap list_fmap]. rewrite app_nil_r. split; [done|]. intros ? ? ?; done. }
  destruct e as [| i ad g | | |]; cbv beta iota in Hbytes;
    try (rewrite (proj2 (Z.eqb_neq _ _)) by exact Hbytes; apply (IH fuel s l); (done || lia)).
  destruct Hbytes as (-> & E2 & E4 & E8). cbn [ioapic_infos omap list_omap length] in Hlen, Hch.
  fold (ioapic_infos es) in Hlen, Hch. change (1 =? MADT_ENTRY_IOAPIC) with true. cbv iota.
  apply Forall_cons in Hch as [[max Hmax] Hch]. cbn [io_address] in Hmax.
  destruct (record_ioapic_result s l m p i ad g max Hk ltac:(lia) Hmax E2 E4 E8) as (s1 & E & Hk1 & Hs1).
  rewrite (bind_ret _ _ _ _ _ E).
  destruct (IH fuel s1 (l ++ [info_of (mkIOAPICEntry i ad g)]) (p + Z.of_nat (length (encode_entry (EIoapic i ad g)))))
    as (s2 & Ef & Hk2 & Hs2); [done|rewrite length_app; cbn [length]; lia|done|done|done|lia|].
  exists s2. split; [exact Ef|]. rewrite <- app_assoc in Hk2. split; [exact Hk2|]. by eapply same_fields_trans.
Qed.

Lemma ioapic_init_result fuel m p es s (n := length (concat (encode_entry <$> es)))
    (l := info_of <$> ioapic_infos es) :
  p ≠ 0 → load32 m (p + SDT_LENGTH) = MADT_SIZE + Z.of_nat n →
  Forall entry_wf es → at_addr m (p + MADT_SIZE) (concat (encode_entry <$> es)) →
  length (ioapics s) = 8%nat → (length l ≤ 8)%nat → chips_ok l → (length es + 130 < fuel)%nat →
  ∃ s', ioapic_init fuel m p s = Ret ((), s') ∧
    knows s' l ∧
    ∀ b max k, chip_at b = Some max → 0 ≤ k ≤ max →
      pin (dev s') b k = if decide (b ∈ regs <$> l) then masked (pin (dev s) b k) else pin (dev s) b k.
Proof.
  intros Hp Hlen Hwf Ha Harr Hl8 Hok Hf. unfold ioapic_init. apply Z.eqb_neq in Hp. rewrite Hp.
  unfold bind at 1, modify. rewrite Hlen, Z.add_assoc. set (s0 := Driver (ioapics s) 0 (dev s)).
  assert (knows s0 []) as Hk0 by (split; [done|]; split; [cbn; lia|done]).
  destruct (ioapic_find_result m es fuel s0 [] (p + MADT_SIZE) Hk0) as (s1 & E1 & Hk1 & Hs1); try done.
  { cbn [length]. subst l. rewrite length_fmap in Hl8. lia. }
  { destruct Hok as (Hall & _). subst l. rewrite Forall_fmap in Hall.
    eapply Forall_impl; [exact Hall|]. intros e (Hc & _). eexists. exact Hc. }
  { lia. }
  cbn [app] in Hk1. fold l in Hk1. fold n in E1. rewrite (bind_ret _ _ _ _ _ E1), bind_get.
  pose proof Hk1 as (Hc1 & _). cbn [dev s0] in Hs1.
  assert (∀ b max k, chip_at b = Some max → pin (dev s1) b k = pin (dev s) b k) as Hpin
    by (intros b max k Hb; unfold pin; by rewrite !(Hs1 b max _ Hb)).
  destruct (Z.eqb_spec (ioapic_count s1) 0) as [Hz|Hz].
  - exists s1. split; [done|]. split; [done|]. intros b max k Hb Hk.
    assert (l = []) as -> by (apply nil_length_inv; lia). rewrite decide_False by apply not_elem_of_nil.
    by apply (Hpin b max).
  - destruct (mask_loop_result l (length l) fuel s1 0 Hk1 Hok) as (d2 & E2 & H2); [lia|lia|].
    eexists. split; [exact E2|]. split; [done|]. intros b max k Hb Hk. cbn [dev].
    rewrite (H2 b max k Hb Hk), drop_0, (Hpin b max k Hb). done.
Qed.

(** [ioapic_init] on a well-formed table: every I/O APIC of the table is
    recorded, in order and with its number of pins, and every pin of each of
    them is masked; nothing else of a redirection entry changes, and no entry
    of a chip that is not in the table.  The chips must serve interrupts below
    256, each interrupt by one chip. *)
Theorem ioapic_init_masks fuel m p es s (n := length (concat (encode_entry <$> es)))
    (l := info_of <$> ioapic_infos es) :
  p ≠ 0 → load32 m (p + SDT_LENGTH) = MADT_SIZE + Z.of_nat n →
  Forall entry_wf es → at_addr m (p + MADT_SIZE) (concat (encode_entry <$> es)) →
  length (ioapics s) = 8%nat → (length l ≤ 8)%nat → chips_ok l → (length es + 130 < fuel)%nat →
  ∃ s', ioapic_init fuel m p s = Ret ((), s') ∧
    ioapic_count s' = Z.of_nat (length l) ∧ take (length l) (ioapics s') = l ∧
    ∀ b max k, chip_at b = Some max → 0 ≤ k ≤ max →
      pin (dev s') b k = if decide (b ∈ regs <$> l) then masked (pin (dev s) b k) else pin (dev s) b k.
Proof.
  intros H1 H2 H3 H4 H5 H6 H7 H8.
  destruct (ioapic_init_result fuel m p es s H1 H2 H3 H4 H5 H6 H7 H8) as (s' & E & (Hc & _ & Ht & _) & Hpin).
  by exists s'.
Qed.

(** [ioapic_init] does not check the length of an entry: a table whose
    first entry is not an I/O APIC and has length 0, at which the parser of
    [madt.c] stops, makes it loop for ever. *)
Theorem ioapic_init_hangs m p s :
  p ≠ 0 → MADT_SIZE < load32 m (p + SDT_LENGTH) →
  byte_at m (p + MADT_SIZE) ≠ MADT_ENTRY_IOAPIC → byte_at m (p + MADT_SIZE + 1) = 0 →
  (∀ fuel, ioapic_init fuel m p s = OutOfFuel) ∧
  ∀ t, parse_madt_entries m p t = Ret t.
Proof.
  intros Hp Hlen Hty Hl0. split.
  - intros fuel. unfold ioapic_init. apply Z.eqb_neq in Hp. rewrite Hp.
    unfold bind at 1, modify. set (s0 := Driver (ioapics s) 0 (dev s)).
    assert (find_loop fuel m (p + MADT_SIZE) (p + load32 m (p + SDT_LENGTH)) s0 = OutOfFuel) as E.
    { induction fuel as [|fuel IH]; [done|]. cbn [find_loop]. rewrite bind_get.
      rewrite (proj2 (Z.ltb_lt (p + MADT_SIZE) _)) by lia. change (ioapic_count s0 <? MAX_IOAPICS) with true.
      cbn [andb]. rewrite (proj2 (Z.eqb_neq _ _)) by exact Hty. unfold bind, ret.
      by rewrite Hl0, Z.add_0_r. }
    unfold bind. by rewrite E.
  - intros t. unfold parse_madt_entries. cbn [parse_loop].
    rewrite (proj2 (Z.ltb_lt (p + MADT_SIZE) _)) by lia. by rewrite Hl0.
Qed.
End properties.

(** ** Chips in software *)

(** Two chips of 24 pins each: the selected registers, and the registers. *)
Record soft_chips := SoftChips { sc_sel : gmap Z Z; sc_reg : gmap (Z * Z) Z }.

Definition soft_at (b : Z) : option Z :=
  if decide (b = 0xFEC00000 ∨ b = 0xFEC01000) then Some 23 else None.
Definition soft_sel (d : soft_chips) (b : Z) : Z := default 0 (sc_sel d !! b).
Definition soft_reg (d : soft_chips) (b r : Z) : Z :=
  if r =? IOAPIC_REG_VER then 0x00170020 else u32 (default 0 (sc_reg d !! (b, r))).

#[export] Instance soft_bus : IoapicBus soft_chips := {|
  bus_write d a v :=
    match soft_at a, soft_at (a - IOAPIC_REGWIN) with
    | Some _, _ => SoftChips (<[a := Z.land v 0xFF]> (sc_sel d)) (sc_reg d)
    | None, Some _ =>
        let b := a - IOAPIC_REGWIN in
        let r := soft_sel d b in
        SoftChips (sc_sel d)
          (<[(b, r) := Z.lor (Z.land v (rw_mask r)) (Z.ldiff (soft_reg d b r) (rw_mask r))]> (sc_reg d))
    | None, None => d
    end;
  bus_read d a :=
    match soft_at (a - IOAPIC_REGWIN) with
    | Some _ => soft_reg d (a - IOAPIC_REGWIN) (soft_sel d (a - IOAPIC_REGWIN))
    | None => 0xFFFFFFFF
    end
|}.

Lemma soft_at_some b max : soft_at b = Some max →
  max = 23 ∧ soft_at (b + IOAPIC_REGSEL) = Some 23 ∧ soft_at (b + IOAPIC_REGWIN) = None ∧
  b + IOAPIC_REGWIN - IOAPIC_REGWIN = b ∧ b + IOAPIC_REGSEL = b.
Proof.
  unfold soft_at, IOAPIC_REGWIN, IOAPIC_REGSEL. intros H. rewrite Z.add_0_r. repeat case_decide; simplify_eq; lia || (split_and!; (done || lia)).
Qed.

Lemma soft_write_sel d b max v : soft_at b = Some max →
  bus_write d (b + IOAPIC_REGSEL) v = SoftChips (<[b := Z.land v 0xFF]> (sc_sel d)) (sc_reg d).
Proof. intros (_ & H & _ & _ & E)%soft_at_some. cbn. by rewrite H, E. Qed.

Lemma soft_write_win d b max v (r := soft_sel d b) : soft_at b = Some max →
  bus_write d (b + IOAPIC_REGWIN) v = SoftChips (sc_sel d)
    (<[(b, r) := Z.lor (Z.land v (rw_mask r)) (Z.ldiff (soft_reg d b r) (rw_mask r))]> (sc_reg d)).
Proof. intros Hb. pose proof (soft_at_some _ _ Hb) as (_ & _ & H & E & _). cbn. by rewrite H, E, Hb. Qed.

Lemma rw_mask_u32 r : Z.land (Z.ones 32) (rw_mask r) = rw_mask r.
Proof. unfold rw_mask. by destruct (Z.even r). Qed.

Lemma land_u32_mask x r : Z.land (u32 x) (rw_mask r) = Z.land x (rw_mask r).
Proof.
  unfold u32. change 4294967296 with (2 ^ 32). rewrite <- Z.land_ones by lia.
  by rewrite <- Z.land_assoc, rw_mask_u32.
Qed.

Lemma land_ldiff x y : Z.land y (Z.ldiff x y) = 0.
Proof.
  apply Z.bits_inj'. intros i Hi. rewrite Z.land_spec, Z.ldiff_spec, Z.bits_0.
  by destruct (Z.testbit x i), (Z.testbit y i).
Qed.

#[export] Instance soft_chips_ok : IoapicChips soft_chips.
Proof.
  refine {| chip_at := soft_at; sel := soft_sel; reg := soft_reg |}.
  - intros d b r. unfold soft_reg. case_match; [lia|]. apply u32_range.
  - intros d b max (-> & _)%soft_at_some. split; [lia|]. done.
  - intros d b max v b' max' Hb Hb' Hv. rewrite (soft_write_sel _ _ _ _ Hb). unfold soft_sel. cbn [sc_sel].
    case_decide; [subst|by rewrite lookup_insert_ne].
    rewrite lookup_insert_eq. cbn. change 255 with (Z.ones 8). rewrite Z.land_ones by lia. by apply Z.mod_small.
  - intros d b max v b' max' r Hb Hb' Hv. by rewrite (soft_write_sel _ _ _ _ Hb).
  - intros d b max Hb. pose proof (soft_at_some _ _ Hb) as (_ & _ & _ & E & _). cbn. by rewrite E, Hb.
  - intros d b max v b' max' Hb Hb'. by rewrite (soft_write_win _ _ _ _ Hb).
  - intros d b max v b' max' r Hb Hb' Hs Hv. rewrite (soft_write_win _ _ _ _ Hb).
    unfold soft_reg at 1. cbn [sc_reg]. unfold IOAPIC_REG_TABLE, IOAPIC_REG_VER in *.
    destruct (Z.eqb_spec r 1) as [->|Hr]; [rewrite decide_False by lia; done|].
    rewrite land_u32_mask. case_decide as Hd.
    + destruct Hd as [-> Hr']. rewrite Hr', lookup_insert_eq. change (default 0 (Some ?x)) with x.
      rewrite Z.land_lor_distr_l, <- Z.land_assoc, Z.land_diag, (Z.land_comm (Z.ldiff _ _)), land_ldiff.
      by rewrite Z.lor_0_r.
    + rewrite lookup_insert_ne by (intros [= <- <-]; tauto). unfold soft_reg.
      rewrite (proj2 (Z.eqb_neq _ _)) by exact Hr. by rewrite land_u32_mask.
Defined.

(** ** Witnesses *)

Definition demo_chips : soft_chips := SoftChips ∅ (<[(0xFEC00000, 0x12) := 0x5021]> ∅).
Definition demo_info : IOAPICInfo := mkIOAPICInfo 0 0xFEC00000 0 23 0xFEC00000.
Definition demo_driver : driver soft_chips := Driver (replicate 8 demo_info) 1 demo_chips.

(** The keyboard's interrupt 1 goes to vector 33 of processor 2. *)
Lemma ioapic_enable_disable_witness :
  ∃ s1, ioapic_enable_irq 1 33 2 demo_driver = Ret ((), s1) ∧
    pin (dev s1) 0xFEC00000 1 = (33, 0x2000000).
Proof.
  destruct (ioapic_enable_disable demo_driver 1 demo_info 33 2) as (s1 & E1 & H1 & _).
  - split; [lia|]. split; [cbn; lia|]. split; reflexivity.
  - exists s1. split; [exact E1|]. rewrite (H1 0xFEC00000 23 1 eq_refl). reflexivity.
Defined.

(** A table with a processor and the two I/O APICs. *)
Definition demo_io_entries : list madt_entry :=
  [ELapic 0 0 1; EIoapic 0 0xFEC00000 0; EIoapic 1 0xFEC01000 24].
Definition demo_io_table : mem :=
  place 0x9000 (replicate 4 0 ++ le 4 (44 + 32) ++ replicate 36 0 ++
    concat (encode_entry <$> demo_io_entries)) ∅.

Lemma ioapic_init_masks_witness :
  ∃ s', ioapic_init 134 demo_io_table 0x9000 (Driver (replicate 8 demo_info) 0 demo_chips) = Ret ((), s') ∧
    pin (dev s') 0xFEC00000 1 = (0x10021, 0) ∧ pin (dev s') 0xFEC01000 23 = (0x10000, 0).
Proof.
  destruct (ioapic_init_masks 134 demo_io_table 0x9000 demo_io_entries
    (Driver (replicate 8 demo_info) 0 demo_chips)) as (s' & E & _ & _ & Hpin).
  - discriminate.
  - vm_compute. reflexivity.
  - repeat (constructor; [cbn; lia|]). constructor.
  - vm_compute. reflexivity.
  - reflexivity.
  - cbn. lia.
  - split; [|split].
    + repeat (constructor; [split; [reflexivity|]; vm_compute; split_and!; (discriminate || reflexivity)|]).
      constructor.
    + apply (bool_decide_unpack _). vm_compute. exact I.
    + intros [|[|i]] [|[|j]] a b Ha Hb Hij; try done; injection Ha as <-; injection Hb as <-; vm_compute; auto.
  - cbn. lia.
  - exists s'. split; [exact E|].
    rewrite (Hpin 0xFEC00000 23 1), (Hpin 0xFEC01000 23 23) by (reflexivity || lia). split; vm_compute; reflexivity.
Defined.

(** An entry of type 2 and length 0. *)
Lemma ioapic_init_hangs_witness :
  ∀ fuel, ioapic_init fuel (place 0x9000 (replicate 4 0 ++ le 4 54 ++ replicate 36 0 ++ [2; 0]) ∅) 0x9000
    demo_driver = OutOfFuel.
Proof.
  destruct (ioapic_init_hangs (place 0x9000 (replicate 4 0 ++ le 4 54 ++ replicate 36 0 ++ [2; 0]) ∅) 0x9000
    demo_driver) as [H _].
  - discriminate.
  - vm_compute. reflexivity.
  - vm_compute. discriminate.
  - vm_compute. reflexivity.
  - exact H.
Defined.
