(* ===== verification/Idt.v ===== *)
(** * The interrupt descriptor table ([kernel/idt/idt.c])

    [setup_idt] fills the table of 256 gates, silences the legacy controllers,
    starts the two kinds of APIC and the keyboard controller, and turns
    interrupts on.  It composes [Lapic.v] and [Ioapic.v]. *)

From S2P Require Import Prelude Memory Kalloc Acpi Madt Percpu Lapic Ioapic.

Definition MAX_INTERRUPTS : Z := 256.
Definition APIC_TIMER_VECTOR : Z := 32.
Definition APIC_KEYBOARD_VECTOR : Z := 33.
Definition PIC1_DATA : Z := 0x21.
Definition PIC2_DATA : Z := 0xA1.

Record InterruptDescriptor64 := Gate {
  offset_1 : Z;
  selector : Z;
  ist : Z;
  type_attributes : Z;
  offset_2 : Z;
  offset_3 : Z;
  zero : Z
}.
Record IDTR := Idtr { limit : Z; base : Z }.

Definition GATE_SIZE : Z := 16.
Definition gate_zero : InterruptDescriptor64 := Gate 0 0 0 0 0 0 0.

(** The addresses of the handlers and of the table. *)
Class IdtSymbols := {
  default_handler : Z;
  timer_interrupt : Z;
  keyboard_handler : Z;
  interrupt_handler : nat → Z;
  shared_idt_addr : Z;
  handlers_range v : 0 ≤ default_handler < 2 ^ 64 ∧ 0 ≤ timer_interrupt < 2 ^ 64 ∧
    0 ≤ keyboard_handler < 2 ^ 64 ∧ 0 ≤ interrupt_handler v < 2 ^ 64
}.

(** ** Gates *)

(** A negative index writes in front of the table. *)
Definition make_interrupt (idt : list InterruptDescriptor64) (array_index handler : Z)
    : outcome (list InterruptDescriptor64) :=
  if MAX_INTERRUPTS <=? array_index then Ret idt
  else if array_index <? 0 then Undef
  else
    match idt !! Z.to_nat array_index with
    | None => Undef
    | Some g =>
        Ret (<[Z.to_nat array_index :=
          Gate (u16 handler) 0x08 (ist g) 0x8E (u16 (Z.shiftr handler 16))
            (u32 (Z.shiftr handler 32)) (zero g)]> idt)
    end.

Fixpoint default_loop {IS : IdtSymbols} (n : nat) (i : Z) (idt : list InterruptDescriptor64)
    : outcome (list InterruptDescriptor64) :=
  match n with
  | O => Ret idt
  | S n => idt ← make_interrupt idt i default_handler; default_loop n (i + 1) idt
  end.

(** The calls for the vectors [0] to [31]. *)
Fixpoint exception_loop {IS : IdtSymbols} (vs : list nat) (idt : list InterruptDescriptor64)
    : outcome (list InterruptDescriptor64) :=
  match vs with
  | [] => Ret idt
  | v :: vs => idt ← make_interrupt idt (Z.of_nat v) (interrupt_handler v); exception_loop vs idt
  end.

(** The part of [setup_idt] on the table. *)
Definition fill_idt {IS : IdtSymbols} : outcome (list InterruptDescriptor64) :=
  let idt := replicate 256 gate_zero in
  idt ← default_loop 256 0 idt;
  idt ← make_interrupt idt APIC_TIMER_VECTOR timer_interrupt;
  idt ← make_interrupt idt APIC_KEYBOARD_VECTOR keyboard_handler;
  exception_loop (seq 0 32) idt.

(** ** Ports *)

Class PortBus (P : Type) := {
  port_in : Z → P → Z * P;
  port_out : Z → Z → P → P
}.

Record machine (DL DI P : Type) := Machine {
  shared_idt : list InterruptDescriptor64;
  idtr : IDTR;
  m_lapic : lapic_driver DL;
  m_ioapic : driver DI;
  m_ports : P;
  m_if : bool
}.
#[global] Arguments Machine {DL DI P}.
#[global] Arguments shared_idt {DL DI P}.
#[global] Arguments idtr {DL DI P}.
#[global] Arguments m_lapic {DL DI P}.
#[global] Arguments m_ioapic {DL DI P}.
#[global] Arguments m_ports {DL DI P}.
#[global] Arguments m_if {DL DI P}.

Section setup.
Context {IS : IdtSymbols} {DL DI P : Type}.
Context {LB : LapicBus DL} {IB : IoapicBus DI} {PB : PortBus P}.
Abbreviation st := (machine DL DI P).

Definition on_lapic {A} (c : M (lapic_driver DL) A) : M st A := λ s,
  match c (m_lapic s) with
  | Ret (a, l) => Ret (a, Machine (shared_idt s) (idtr s) l (m_ioapic s) (m_ports s) (m_if s))
  | Panic msg => Panic msg
  | Undef => Undef
  | OutOfFuel => OutOfFuel
  end.
Definition on_ioapic {A} (c : M (driver DI) A) : M st A := λ s,
  match c (m_ioapic s) with
  | Ret (a, i) => Ret (a, Machine (shared_idt s) (idtr s) (m_lapic s) i (m_ports s) (m_if s))
  | Panic msg => Panic msg
  | Undef => Undef
  | OutOfFuel => OutOfFuel
  end.
Definition set_table (idt : list InterruptDescriptor64) : M st () := modify (λ s,
  Machine idt (idtr s) (m_lapic s) (m_ioapic s) (m_ports s) (m_if s)).
Definition lidt (r : IDTR) : M st () := modify (λ s,
  Machine (shared_idt s) r (m_lapic s) (m_ioapic s) (m_ports s) (m_if s)).
Definition sti_idt : M st () := modify (λ s,
  Machine (shared_idt s) (idtr s) (m_lapic s) (m_ioapic s) (m_ports s) true).

Definition outb (port val : Z) : M st () := modify (λ s,
  Machine (shared_idt s) (idtr s) (m_lapic s) (m_ioapic s) (port_out port (u8 val) (m_ports s)) (m_if s)).
Definition inb (port : Z) : M st Z := λ s,
  let '(v, p) := port_in port (m_ports s) in
  Ret (v, Machine (shared_idt s) (idtr s) (m_lapic s) (m_ioapic s) p (m_if s)).

(** [while (inb(0x64) & 0x02);] and [while (!(inb(0x64) & 0x01));] *)
Fixpoint wait_input (fuel : nat) : M st () :=
  match fuel with
  | O => out_of_fuel
  | S fuel =>
      let* v := inb 0x64 in
      if negb (Z.land v 0x02 =? 0) then wait_input fuel else ret ()
  end.
Fixpoint wait_output (fuel : nat) : M st () :=
  match fuel with
  | O => out_of_fuel
  | S fuel =>
      let* v := inb 0x64 in
      if Z.land v 0x01 =? 0 then wait_output fuel else ret ()
  end.

Definition enable_keyboard (fuel : nat) : M st () :=
  do* wait_input fuel in
  do* outb 0x64 0xAE in
  do* wait_input fuel in
  do* outb 0x64 0x20 in
  do* wait_output fuel in
  let* config := inb 0x60 in
  let config := u8 (Z.lor config 0x01) in
  do* wait_input fuel in
  do* outb 0x64 0x60 in
  do* wait_input fuel in
  outb 0x60 config.

Definition idt_register : IDTR := Idtr (u16 (GATE_SIZE * MAX_INTERRUPTS - 1)) shared_idt_addr.

(** [m], [get_madt] and [get_lapic_address] are the memory and what [madt.c]
    found; [fuel] bounds the loops. *)
Definition setup_idt (fuel : nat) (m : mem) (get_madt get_lapic_address : Z) : M st () :=
  let* idt := λ s, match fill_idt with
                   | Ret idt => Ret (idt, s)
                   | Panic msg => Panic msg
                   | Undef => Undef
                   | OutOfFuel => OutOfFuel
                   end in
  do* set_table idt in
  do* lidt idt_register in
  do* outb PIC1_DATA 0xff in
  do* outb PIC2_DATA 0xff in
  do* on_lapic (lapic_init get_lapic_address) in
  do* on_ioapic (ioapic_init fuel m get_madt) in
  let* logged := on_lapic lapic_get_id in
  let* dest := on_lapic lapic_get_id in
  do* on_ioapic (ioapic_enable_irq 1 APIC_KEYBOARD_VECTOR dest) in
  do* enable_keyboard fuel in
  do* on_lapic (lapic_timer_start APIC_TIMER_VECTOR 10000000) in
  sti_idt.

Definition setup_idt_ap : M st () :=
  do* lidt idt_register in
  on_lapic (lapic_timer_start APIC_TIMER_VECTOR 10000000).
End setup.

(** * Properties *)

(** ** Gates *)

(** What the processor does for a vector, as the architecture decodes a gate:
    the address it jumps to, and in which code segment. *)
Definition gate_offset (g : InterruptDescriptor64) : Z :=
  offset_1 g + offset_2 g * 2 ^ 16 + offset_3 g * 2 ^ 32.
Definition gate_present (g : InterruptDescriptor64) : bool := Z.testbit (type_attributes g) 7.
Definition gate_dpl (g : InterruptDescriptor64) : Z := Z.land (Z.shiftr (type_attributes g) 5) 3.
Definition gate_type (g : InterruptDescriptor64) : Z := Z.land (type_attributes g) 0xF.

(** A present interrupt gate (type 14) to [handler] in the kernel's code
    segment, usable by the kernel only, on the current stack. *)
Definition gate_to (handler : Z) (g : InterruptDescriptor64) : Prop :=
  gate_offset g = handler ∧ selector g = GDT_KERNEL_CODE ∧ gate_present g = true ∧
  gate_dpl g = 0 ∧ gate_type g = 14 ∧ ist g = 0 ∧ zero g = 0.

Section gates.
Context {IS : IdtSymbols}.

(** The handler of a vector. *)
Definition handler_of (v : nat) : Z :=
  if decide (v < 32)%nat then interrupt_handler v
  else if decide (v = 32)%nat then timer_interrupt
  else if decide (v = 33)%nat then keyboard_handler
  else default_handler.

(** A table whose gates, where [f] says so, lead to handlers. *)
Definition table_to (f : nat → option Z) (idt : list InterruptDescriptor64) : Prop :=
  length idt = 256%nat ∧ ∀ v g, idt !! v = Some g → ist g = 0 ∧ zero g = 0 ∧
    match f v with Some h => gate_to h g | None => True end.

Lemma offset_split h : 0 ≤ h < 2 ^ 64 →
  u16 h + u16 (Z.shiftr h 16) * 2 ^ 16 + u32 (Z.shiftr h 32) * 2 ^ 32 = h.
Proof.
  intros Hh. rewrite !Z.shiftr_div_pow2 by lia. change (2 ^ 16) with 65536. change (2 ^ 32) with 4294967296. zlia.
Qed.

Lemma make_interrupt_result f idt (v : nat) h :
  table_to f idt → (v < 256)%nat → 0 ≤ h < 2 ^ 64 →
  ∃ idt', make_interrupt idt (Z.of_nat v) h = Ret idt' ∧
    table_to (λ w, if decide (w = v) then Some h else f w) idt'.
Proof.
  intros [Hlen Hg] Hv Hh. unfold make_interrupt, MAX_INTERRUPTS.
  destruct (Z.leb_spec 256 (Z.of_nat v)); [lia|]. destruct (Z.ltb_spec (Z.of_nat v) 0); [lia|].
  rewrite Nat2Z.id. destruct (lookup_lt_is_Some_2 idt v) as [g Eg]; [lia|]. rewrite Eg.
  eexists. split; [done|]. destruct (Hg _ _ Eg) as (Hi & Hz & _).
  split; [by rewrite length_insert|]. intros w g' Hw. destruct (decide (w = v)) as [->|Hne].
  - rewrite list_lookup_insert_eq in Hw by lia. injection Hw as <-. split; [done|]. split; [done|].
    split; [by apply offset_split|]. by repeat split.
  - rewrite list_lookup_insert_ne in Hw by done. by apply Hg.
Qed.

Lemma default_loop_result n : ∀ (i : nat) f idt,
  table_to f idt → (i + n = 256)%nat →
  ∃ idt', default_loop n (Z.of_nat i) idt = Ret idt' ∧
    table_to (λ w, if decide (i ≤ w < 256)%nat then Some default_handler else f w) idt'.
Proof.
  induction n as [|n IH]; intros i f idt Ht Hi; cbn [default_loop].
  - exists idt. split; [done|]. destruct Ht as [Hlen Hg]. split; [done|]. intros v g Hv.
    rewrite decide_False by lia. by apply Hg.
  - destruct (make_interrupt_result f idt i default_handler Ht) as (idt1 & E1 & Ht1); [lia|apply (handlers_range 0)|].
    rewrite E1. cbn [mbind outcome_bind]. replace (Z.of_nat i + 1) with (Z.of_nat (S i)) by lia.
    destruct (IH (S i) _ _ Ht1) as (idt2 & E2 & Hlen & Hg); [lia|]. exists idt2. split; [done|].
    split; [done|]. intros v g Hv. destruct (Hg v g Hv) as (H1 & H2 & H3). split; [done|]. split; [done|].
    pose proof (lookup_lt_Some _ _ _ Hv). rewrite Hlen in *.
    destruct (decide (i ≤ v < 256)%nat); repeat case_decide; try done; lia.
Qed.

Lemma exception_loop_result vs : ∀ f idt,
  table_to f idt → Forall (λ v, (v < 256)%nat) vs →
  ∃ idt', exception_loop vs idt = Ret idt' ∧
    table_to (λ w, if decide (w ∈ vs) then Some (interrupt_handler w) else f w) idt'.
Proof.
  induction vs as [|v vs IH]; intros f idt Ht Hvs; cbn [exception_loop].
  - exists idt. split; [done|]. destruct Ht as [Hlen Hg]. split; [done|]. intros w g Hw.
    rewrite decide_False by apply not_elem_of_nil. by apply Hg.
  - apply Forall_cons in Hvs as [Hv Hvs].
    destruct (make_interrupt_result f idt v (interrupt_handler v) Ht Hv) as (idt1 & E1 & Ht1); [apply (handlers_range v)|].
    rewrite E1. cbn [mbind outcome_bind].
    destruct (IH _ _ Ht1 Hvs) as (idt2 & E2 & Hlen & Hg). exists idt2. split; [done|].
    split; [done|]. intros w g Hw. destruct (Hg w g Hw) as (H1 & H2 & H3). split; [done|]. split; [done|].
    destruct (decide (w ∈ vs)) as [Hin|Hin].
    + rewrite (decide_True (P := w ∈ v :: vs)) by (by right). done.
    + destruct (decide (w = v)) as [->|Hne]; [rewrite decide_True by left; done|].
      rewrite decide_False; [done|]. rewrite elem_of_cons. tauto.
Qed.

Lemma fill_idt_result :
  ∃ idt, fill_idt = Ret idt ∧ length idt = 256%nat ∧
    ∀ v g, idt !! v = Some g → gate_to (handler_of v) g.
Proof.
  unfold fill_idt. assert (table_to (λ _, None) (replicate 256 gate_zero)) as H0.
  { split; [by rewrite length_replicate|]. intros v g Hg. apply lookup_replicate in Hg as [-> _]. done. }
  destruct (default_loop_result 256 0 _ _ H0 ltac:(lia)) as (idt1 & E1 & H1). change (Z.of_nat 0) with 0 in E1.
  rewrite E1. cbn [mbind outcome_bind].
  destruct (make_interrupt_result _ _ 32 timer_interrupt H1) as (idt2 & E2 & H2); [lia|apply (handlers_range 0)|].
  change (Z.of_nat 32) with APIC_TIMER_VECTOR in E2. rewrite E2. cbn [mbind outcome_bind].
  destruct (make_interrupt_result _ _ 33 keyboard_handler H2) as (idt3 & E3 & H3); [lia|apply (handlers_range 0)|].
  change (Z.of_nat 33) with APIC_KEYBOARD_VECTOR in E3. rewrite E3. cbn [mbind outcome_bind].
  destruct (exception_loop_result (seq 0 32) _ _ H3) as (idt4 & E4 & Hlen & Hg).
  { apply Forall_forall. intros v Hv. apply elem_of_seq in Hv. lia. }
  exists idt4. split; [done|]. split; [done|]. intros v g Hv. destruct (Hg v g Hv) as (_ & _ & H).
  pose proof (lookup_lt_Some _ _ _ Hv) as Hlt. rewrite Hlen in Hlt. revert H. unfold handler_of.
  destruct (decide (v < 32)%nat) as [Hv32|Hv32].
  - by rewrite decide_True by (apply elem_of_seq; lia).
  - rewrite (decide_False (P := v ∈ seq 0 32)) by (rewrite elem_of_seq; lia).
    destruct (decide (v = 33)%nat) as [->|]; [by rewrite decide_False by lia|].
    destruct (decide (v = 32)%nat); [done|]. by rewrite decide_True by lia.
Qed.
End gates.

(** ** The keyboard controller

    What [enable_keyboard] relies on, from the documentation of the 8042: a
    configuration byte that the commands 0x20 and 0x60 read and write, a buffer
    of bytes for the processor, and a status register that says whether a byte
    written to the controller is still being processed (for [busy] more loads)
    and whether a byte can be read (after [delay] more loads); and of the pair of
    8259A on the same bus, which are initialised, that a write to the data port is
    the mask of its eight interrupts ([irq_masks], master and slave). *)
Class Ps2 (P : Type) {PB : PortBus P} := {
  config : P → Z;
  out_buf : P → list Z;
  expects : P → bool;
  busy : P → nat;
  delay : P → nat;
  irq_masks : P → Z * Z;
  max_wait : nat;
  config_range p : 0 ≤ config p < 256;
  busy_bound p : (busy p ≤ max_wait)%nat;
  delay_bound p : (delay p ≤ max_wait)%nat;
  status_read p (v := fst (port_in 0x64 p)) (p' := snd (port_in 0x64 p)) :
    config p' = config p ∧ out_buf p' = out_buf p ∧ expects p' = expects p ∧
    busy p' = pred (busy p) ∧ delay p' = pred (delay p) ∧
    (Z.land v 2 = 0 ↔ busy p = O) ∧ (Z.land v 1 ≠ 0 ↔ out_buf p ≠ [] ∧ delay p = O);
  data_read p b l : out_buf p = b :: l → delay p = O →
    fst (port_in 0x60 p) = b ∧ out_buf (snd (port_in 0x60 p)) = l ∧
    config (snd (port_in 0x60 p)) = config p ∧ expects (snd (port_in 0x60 p)) = expects p;
  command_enable p : busy p = O →
    config (port_out 0x64 0xAE p) = Z.clearbit (config p) 4 ∧ out_buf (port_out 0x64 0xAE p) = out_buf p;
  command_read p : busy p = O →
    config (port_out 0x64 0x20 p) = config p ∧ out_buf (port_out 0x64 0x20 p) = out_buf p ++ [config p];
  command_write p : busy p = O →
    config (port_out 0x64 0x60 p) = config p ∧ out_buf (port_out 0x64 0x60 p) = out_buf p ∧
    expects (port_out 0x64 0x60 p) = true;
  data_write p v : busy p = O → expects p = true → 0 ≤ v < 256 →
    config (port_out 0x60 v p) = v ∧ out_buf (port_out 0x60 v p) = out_buf p;
  pic_write p port v : port = PIC1_DATA ∨ port = PIC2_DATA →
    config (port_out port v p) = config p ∧ out_buf (port_out port v p) = out_buf p;
  pic_mask1 p v : 0 ≤ v < 256 → irq_masks (port_out PIC1_DATA v p) = (v, snd (irq_masks p));
  pic_mask2 p v : 0 ≤ v < 256 → irq_masks (port_out PIC2_DATA v p) = (fst (irq_masks p), v);
  masks_kept p port v : port = 0x60 ∨ port = 0x64 →
    irq_masks (port_out port v p) = irq_masks p ∧ irq_masks (snd (port_in port p)) = irq_masks p
}.

Section machine.
Context {IS : IdtSymbols} {DL DI P : Type}.
Context {LB : LapicBus DL} {LC : LapicChip DL} {IB : IoapicBus DI} {IC : IoapicChips DI}.
Context {PB : PortBus P} {KB : Ps2 P}.
Abbreviation st := (machine DL DI P).
Implicit Types (s : st).

Definition with_ports (p : P) (s : st) : st :=
  Machine (shared_idt s) (idtr s) (m_lapic s) (m_ioapic s) p (m_if s).

Lemma with_ports_twice p p' s : with_ports p (with_ports p' s) = with_ports p s.
Proof. done. Qed.

Lemma inb_eq port s : inb port s = Ret (fst (port_in port (m_ports s)), with_ports (snd (port_in port (m_ports s))) s).
Proof. unfold inb. by destruct (port_in port (m_ports s)). Qed.

Lemma wait_input_result fuel s :
  (max_wait < fuel)%nat → ∃ p', wait_input fuel s = Ret ((), with_ports p' s) ∧ busy p' = O ∧
    config p' = config (m_ports s) ∧ out_buf p' = out_buf (m_ports s) ∧ expects p' = expects (m_ports s) ∧
    irq_masks p' = irq_masks (m_ports s).
Proof.
  intros Hf. assert (busy (m_ports s) < fuel)%nat as Hb by (pose proof (busy_bound (m_ports s)); lia).
  clear Hf. revert s Hb. induction fuel as [|fuel IH]; intros s Hb; [lia|]. cbn [wait_input].
  rewrite (bind_ret _ _ _ _ _ (inb_eq 0x64 s)).
  destruct (status_read (m_ports s)) as (Hc & Ho & He & Hbu & _ & Hz & _).
  pose proof (proj2 (masks_kept (m_ports s) 0x64 0 ltac:(by right))) as Hk.
  set (p1 := snd (port_in 0x64 (m_ports s))) in *.
  destruct (Z.eqb_spec (Z.land (fst (port_in 0x64 (m_ports s))) 2) 0) as [E|E]; cbn [negb].
  - exists p1. apply Hz in E. rewrite E in Hbu. done.
  - assert (busy (m_ports s) ≠ O) by tauto. destruct (IH (with_ports p1 s)) as (p2 & E2 & Hr); [cbn; lia|].
    exists p2. cbn [m_ports with_ports] in Hr. rewrite Hc, Ho, He, Hk in Hr. done.
Qed.

Lemma wait_output_result fuel s :
  (max_wait < fuel)%nat → out_buf (m_ports s) ≠ [] →
  ∃ p', wait_output fuel s = Ret ((), with_ports p' s) ∧ delay p' = O ∧
    config p' = config (m_ports s) ∧ out_buf p' = out_buf (m_ports s) ∧ expects p' = expects (m_ports s) ∧
    irq_masks p' = irq_masks (m_ports s).
Proof.
  intros Hf Hout. assert (delay (m_ports s) < fuel)%nat as Hb by (pose proof (delay_bound (m_ports s)); lia).
  clear Hf. revert s Hb Hout. induction fuel as [|fuel IH]; intros s Hb Hout; [lia|]. cbn [wait_output].
  rewrite (bind_ret _ _ _ _ _ (inb_eq 0x64 s)).
  destruct (status_read (m_ports s)) as (Hc & Ho & He & _ & Hd & _ & Hz).
  pose proof (proj2 (masks_kept (m_ports s) 0x64 0 ltac:(by right))) as Hk.
  set (p1 := snd (port_in 0x64 (m_ports s))) in *.
  destruct (Z.eqb_spec (Z.land (fst (port_in 0x64 (m_ports s))) 1) 0) as [E|E].
  - assert (delay (m_ports s) ≠ O) by tauto.
    destruct (IH (with_ports p1 s)) as (p2 & E2 & Hr); [cbn; lia|cbn; by rewrite Ho|].
    exists p2. cbn [m_ports with_ports] in Hr. rewrite Hc, Ho, He, Hk in Hr. done.
  - exists p1. apply Hz in E as [_ E]. rewrite E in Hd. done.
Qed.

(** The configuration with the port and its interrupt enabled. *)
Definition keyboard_on (c : Z) : Z := Z.lor (Z.clearbit c 4) 1.

Lemma enable_keyboard_result fuel s :
  (max_wait < fuel)%nat → out_buf (m_ports s) = [] →
  ∃ p', enable_keyboard fuel s = Ret ((), with_ports p' s) ∧
    config p' = keyboard_on (config (m_ports s)) ∧ out_buf p' = [] ∧ irq_masks p' = irq_masks (m_ports s).
Proof.
  intros Hf Hout. unfold enable_keyboard.
  assert (∀ q v, irq_masks (port_out 0x64 v q) = irq_masks q) as K64 by (intros q v; apply masks_kept; by right).
  assert (∀ q v, irq_masks (port_out 0x60 v q) = irq_masks q) as K60 by (intros q v; apply masks_kept; by left).
  destruct (wait_input_result fuel s Hf) as (p1 & E1 & B1 & C1 & O1 & _ & K1). rewrite (bind_ret _ _ _ _ _ E1).
  set (p2 := port_out 0x64 0xAE p1). destruct (command_enable p1 B1) as [C2 O2]. fold p2 in C2, O2.
  rewrite (bind_ret (outb 0x64 0xAE) _ _ () (with_ports p2 s)) by done.
  destruct (wait_input_result fuel (with_ports p2 s) Hf) as (p3 & E3 & B3 & C3 & O3 & _ & K3).
  rewrite (bind_ret _ _ _ _ _ E3), with_ports_twice.
  set (p4 := port_out 0x64 0x20 p3). destruct (command_read p3 B3) as [C4 O4]. fold p4 in C4, O4.
  rewrite (bind_ret (outb 0x64 0x20) _ _ () (with_ports p4 s)) by done.
  assert (out_buf p4 = [config p3]) as Hp4 by (rewrite O4, O3; cbn; by rewrite O2, O1, Hout).
  destruct (wait_output_result fuel (with_ports p4 s) Hf) as (p5 & E5 & D5 & C5 & O5 & _ & K5); [cbn; by rewrite Hp4|].
  rewrite (bind_ret _ _ _ _ _ E5), with_ports_twice. cbn [m_ports with_ports] in C5, O5.
  rewrite Hp4 in O5. destruct (data_read p5 _ _ O5 D5) as (V6 & O6 & C6 & _).
  rewrite (bind_ret _ _ _ _ _ (inb_eq 0x60 (with_ports p5 s))). cbn [m_ports with_ports]. rewrite V6, with_ports_twice.
  set (p6 := snd (port_in 0x60 p5)) in *. cbn [m_ports with_ports] in C3.
  destruct (wait_input_result fuel (with_ports p6 s) Hf) as (p7 & E7 & B7 & C7 & O7 & _ & K7).
  rewrite (bind_ret _ _ _ _ _ E7), with_ports_twice. cbn [m_ports with_ports] in C7, O7.
  set (p8 := port_out 0x64 0x60 p7). destruct (command_write p7 B7) as (C8 & O8 & X8). fold p8 in C8, O8, X8.
  rewrite (bind_ret (outb 0x64 0x60) _ _ () (with_ports p8 s)) by done.
  destruct (wait_input_result fuel (with_ports p8 s) Hf) as (p9 & E9 & B9 & C9 & O9 & X9 & K9).
  rewrite (bind_ret _ _ _ _ _ E9), with_ports_twice. cbn [m_ports with_ports] in C9, O9, X9.
  rewrite X8 in X9. eexists. split; [reflexivity|]. cbn [m_ports with_ports].
  destruct (data_write p9 (u8 (u8 (Z.lor (config p3) 1))) B9 X9 (u8_range _)) as [-> ->]. split; [|split].
  - pose proof (config_range p3) as Hr. rewrite C3, C2, C1 in *. unfold keyboard_on.
    assert (0 ≤ Z.lor (Z.clearbit (config (m_ports s)) 4) 1 < 256)
      as Hl by (apply (lor_range _ _ 8); lia).
    rewrite (u8_small (Z.lor _ _)) by exact Hl. by apply u8_small.
  - by rewrite O9, O8, O7, O6.
  - cbn [m_ports with_ports] in K1, K3, K5, K7, K9. rewrite K60, K9. unfold p8. rewrite K64, K7. unfold p6.
    rewrite (proj2 (masks_kept p5 0x60 0 ltac:(by left))), K5. unfold p4. rewrite K64, K3. unfold p2. by rewrite K64.
Qed.

Lemma on_lapic_ret {A} (c : M (lapic_driver DL) A) s a l :
  c (m_lapic s) = Ret (a, l) →
  on_lapic c s = Ret (a, Machine (shared_idt s) (idtr s) l (m_ioapic s) (m_ports s) (m_if s)).
Proof. intros E. unfold on_lapic. by rewrite E. Qed.
Lemma on_ioapic_ret {A} (c : M (driver DI) A) s a i :
  c (m_ioapic s) = Ret (a, i) →
  on_ioapic c s = Ret (a, Machine (shared_idt s) (idtr s) (m_lapic s) i (m_ports s) (m_if s)).
Proof. intros E. unfold on_ioapic. by rewrite E. Qed.

(** The run of [setup_idt], from those of the drivers it calls. *)
Lemma setup_idt_run fuel m p idt s d1 i1 d2 d3 i2 p6 d7
    (p0 := port_out PIC2_DATA (u8 0xff) (port_out PIC1_DATA (u8 0xff) (m_ports s)))
    (s5 := Machine idt idt_register (LapicDriver lapic_base d3) i2 p0 (m_if s)) :
  fill_idt = Ret idt →
  lapic_init lapic_base (m_lapic s) = Ret ((), LapicDriver lapic_base d1) →
  ioapic_init fuel m p (m_ioapic s) = Ret ((), i1) →
  lapic_get_id (LapicDriver lapic_base d1) =
    Ret (u8 (Z.shiftr (lreg d1 LAPIC_ID) 24), LapicDriver lapic_base d2) →
  lapic_get_id (LapicDriver lapic_base d2) =
    Ret (u8 (Z.shiftr (lreg d2 LAPIC_ID) 24), LapicDriver lapic_base d3) →
  ioapic_enable_irq 1 APIC_KEYBOARD_VECTOR (u8 (Z.shiftr (lreg d2 LAPIC_ID) 24)) i1 = Ret ((), i2) →
  enable_keyboard fuel s5 = Ret ((), with_ports p6 s5) →
  lapic_timer_start APIC_TIMER_VECTOR 10000000 (LapicDriver lapic_base d3) =
    Ret ((), LapicDriver lapic_base d7) →
  setup_idt fuel m p lapic_base s =
    Ret ((), Machine idt idt_register (LapicDriver lapic_base d7) i2 p6 true).
Proof.
  intros Eidt E1 E2 E3 E4 E5 E6 E7. unfold setup_idt. rewrite Eidt.
  unfold bind at 1 2 3 4 5, set_table, lidt, outb, modify. cbn [shared_idt idtr m_lapic m_ioapic m_ports m_if].
  fold p0. rewrite (bind_ret _ _ _ _ _ (on_lapic_ret _ (Machine idt idt_register (m_lapic s) (m_ioapic s) p0 (m_if s)) _ _ E1)).
  cbn [shared_idt idtr m_lapic m_ioapic m_ports m_if].
  rewrite (bind_ret _ _ _ _ _ (on_ioapic_ret _ (Machine idt idt_register _ (m_ioapic s) p0 (m_if s)) _ _ E2)).
  cbn [shared_idt idtr m_lapic m_ioapic m_ports m_if].
  rewrite (bind_ret _ _ _ _ _ (on_lapic_ret _ (Machine idt idt_register (LapicDriver lapic_base d1) i1 p0 (m_if s)) _ _ E3)).
  cbn [shared_idt idtr m_lapic m_ioapic m_ports m_if].
  rewrite (bind_ret _ _ _ _ _ (on_lapic_ret _ (Machine idt idt_register (LapicDriver lapic_base d2) i1 p0 (m_if s)) _ _ E4)).
  cbn [shared_idt idtr m_lapic m_ioapic m_ports m_if].
  rewrite (bind_ret _ _ _ _ _ (on_ioapic_ret _ (Machine idt idt_register (LapicDriver lapic_base d3) i1 p0 (m_if s)) _ _ E5)).
  cbn [shared_idt idtr m_lapic m_ioapic m_ports m_if]. fold s5.
  rewrite (bind_ret _ _ _ _ _ E6).
  rewrite (bind_ret _ _ _ _ _ (on_lapic_ret _ (with_ports p6 s5) _ _ E7)). reflexivity.
Qed.

(** What [setup_idt] leaves. *)
Lemma setup_idt_result fuel m (p : Z) es s (n := length (concat (encode_entry <$> es)))
    (l := info_of <$> ioapic_infos es) a :
  p ≠ 0 → load32 m (p + SDT_LENGTH) = MADT_SIZE + Z.of_nat n →
  Forall entry_wf es → at_addr m (p + MADT_SIZE) (concat (encode_entry <$> es)) →
  length (ioapics (m_ioapic s)) = 8%nat → (length l ≤ 8)%nat → chips_ok l →
  (length es + 130 < fuel)%nat → (max_wait < fuel)%nat → out_buf (m_ports s) = [] →
  a ∈ l → gsi_base a ≤ 1 ≤ gsi_base a + max_redirect a →
  ∃ s' d, setup_idt fuel m p lapic_base s = Ret ((), s') ∧
    (∀ v, (v < 256)%nat → ∃ g, shared_idt s' !! v = Some g ∧ gate_to (handler_of v) g) ∧
    idtr s' = Idtr (16 * 256 - 1) shared_idt_addr ∧
    m_lapic s' = LapicDriver lapic_base d ∧
    (∀ r, lreg d r = written (init_regs (lreg (ldev (m_lapic s))))
       [(LAPIC_TIMER_DCR, 3); (LAPIC_TIMER, 0x20000 + 32); (LAPIC_TIMER_ICR, 10000000)] r) ∧
    pin (dev (m_ioapic s')) (regs a) (1 - gsi_base a) =
      (33, u8 (Z.shiftr (lreg (ldev (m_lapic s)) LAPIC_ID) 24) * 2 ^ 24) ∧
    (∀ b max k, chip_at b = Some max → b ∈ regs <$> l → 0 ≤ k ≤ max →
       (b, k) ≠ (regs a, 1 - gsi_base a) →
       pin (dev (m_ioapic s')) b k = masked (pin (dev (m_ioapic s)) b k)) ∧
    irq_masks (m_ports s') = (0xff, 0xff) ∧
    config (m_ports s') = keyboard_on (config (m_ports s)) ∧ m_if s' = true.
Proof.
  intros Hp Hlen Hwf Ha Harr Hl8 Hok Hf Hfw Hout Hin Hg.
  destruct fill_idt_result as (idt & Eidt & Hilen & Hgates).
  set (p0 := port_out PIC2_DATA (u8 0xff) (port_out PIC1_DATA (u8 0xff) (m_ports s))).
  assert (config p0 = config (m_ports s) ∧ out_buf p0 = []) as [Hc0 Ho0].
  { unfold p0. destruct (pic_write (port_out PIC1_DATA (u8 0xff) (m_ports s)) PIC2_DATA (u8 0xff) (or_intror eq_refl)) as [-> ->].
    destruct (pic_write (m_ports s) PIC1_DATA (u8 0xff) (or_introl eq_refl)) as [-> ->].
    split; [reflexivity|exact Hout]. }
  assert (irq_masks p0 = (0xff, 0xff)) as Hk0.
  { unfold p0. rewrite (pic_mask2 _ _ (u8_range 0xff)), (pic_mask1 _ _ (u8_range 0xff)). reflexivity. }
  destruct (lapic_init_result (m_lapic s)) as (d1 & E1 & R1 & _).
  destruct (ioapic_init_result fuel m p es (m_ioapic s) Hp Hlen Hwf Ha Harr Hl8 Hok Hf) as (i1 & E2 & Hk & Hpin).
  destruct (get_id_result d1) as (d2 & E3 & R2 & _). destruct (get_id_result d2) as (d3 & E4 & R3 & _).
  assert (routed i1 1 a) as Hr.
  { pose proof (knows_routed i1 l a (1 - gsi_base a) Hk Hok Hin ltac:(lia)) as Hr.
    by replace (gsi_base a + (1 - gsi_base a)) with 1 in Hr by lia. }
  destruct (enable_irq_result i1 1 a APIC_KEYBOARD_VECTOR (u8 (Z.shiftr (lreg d2 LAPIC_ID) 24)) Hr)
    as (i2 & E5 & Hset).
  set (i2' := Driver (ioapics i1) (ioapic_count i1) i2) in *.
  set (s5 := Machine idt idt_register (LapicDriver lapic_base d3) i2' p0 (m_if s)).
  destruct (enable_keyboard_result fuel s5 Hfw Ho0) as (p6 & E6 & Hc6 & _ & Hk6). cbn [m_ports s5] in Hc6, Hk6.
  destruct (proj1 (lapic_timer_spec APIC_TIMER_VECTOR 10000000 ltac:(lia)) d3) as (d7 & E7 & R7 & _).
  eexists (Machine idt idt_register (LapicDriver lapic_base d7) i2' p6 true), d7.
  split; [|split; [|split; [|split; [|split; [|split; [|split; [|split; [|split]]]]]]]]; cbn [shared_idt idtr m_lapic m_ioapic m_ports m_if].
  - by apply (setup_idt_run fuel m p idt s d1 i1 d2 d3 i2' p6 d7).
  - intros v Hv. destruct (lookup_lt_is_Some_2 idt v) as [g Eg]; [rewrite Hilen; exact Hv|].
    exists g. split; [exact Eg|exact (Hgates v g Eg)].
  - reflexivity.
  - reflexivity.
  - intros r. rewrite R7. apply written_ext. intros x. rewrite R3, R2. apply R1.
  - cbn [dev i2']. rewrite (Hset (regs a) (max_redirect a)) by apply Hr.
    rewrite (decide_True _ _ (conj eq_refl eq_refl)), R2, R1. f_equal. f_equal. apply u8_small, u8_range.
  - intros b max k Hb Hbl Hkk Hne. cbn [dev i2']. rewrite (Hset b max k Hb).
    rewrite decide_False by (intros [<- <-]; apply Hne; reflexivity). rewrite (Hpin b max k Hb Hkk). fold l.
    apply decide_True. exact Hbl.
  - rewrite Hk6. exact Hk0.
  - rewrite Hc6, Hc0. reflexivity.
  - reflexivity.
Qed.
(** C32. After [setup_idt], with an I/O APIC [a] that serves interrupt 1: all 256
    vectors have a present gate to their handler in the kernel's code segment,
    the register covers the table exactly, both legacy controllers have all their
    interrupts masked, the local APIC is as [lapic_init] leaves it but for the
    timer, which is periodic on vector 32 with a count of 10,000,000 and the clock
    divided by 16, the keyboard's pin is routed to vector 33 of this processor and
    every other pin of every I/O APIC is masked, the keyboard port and its
    interrupt are enabled and the rest of the controller's configuration kept,
    and interrupts are on. *)
Theorem setup_idt_spec fuel m (p : Z) es s (n := length (concat (encode_entry <$> es)))
    (l := info_of <$> ioapic_infos es) a :
  p ≠ 0 → load32 m (p + SDT_LENGTH) = MADT_SIZE + Z.of_nat n →
  Forall entry_wf es → at_addr m (p + MADT_SIZE) (concat (encode_entry <$> es)) →
  length (ioapics (m_ioapic s)) = 8%nat → (length l ≤ 8)%nat → chips_ok l →
  (length es + 130 < fuel)%nat → (max_wait < fuel)%nat → out_buf (m_ports s) = [] →
  a ∈ l → gsi_base a ≤ 1 ≤ gsi_base a + max_redirect a →
  ∃ s' d, setup_idt fuel m p lapic_base s = Ret ((), s') ∧
    (∀ v, (v < 256)%nat → ∃ g, shared_idt s' !! v = Some g ∧ gate_to (handler_of v) g) ∧
    idtr s' = Idtr (16 * 256 - 1) shared_idt_addr ∧
    m_lapic s' = LapicDriver lapic_base d ∧
    (∀ r, lreg d r = written (init_regs (lreg (ldev (m_lapic s))))
       [(LAPIC_TIMER_DCR, 3); (LAPIC_TIMER, 0x20000 + 32); (LAPIC_TIMER_ICR, 10000000)] r) ∧
    pin (dev (m_ioapic s')) (regs a) (1 - gsi_base a) =
      (33, u8 (Z.shiftr (lreg (ldev (m_lapic s)) LAPIC_ID) 24) * 2 ^ 24) ∧
    (∀ b max k, chip_at b = Some max → b ∈ regs <$> l → 0 ≤ k ≤ max →
       (b, k) ≠ (regs a, 1 - gsi_base a) →
       pin (dev (m_ioapic s')) b k = masked (pin (dev (m_ioapic s)) b k)) ∧
    irq_masks (m_ports s') = (0xff, 0xff) ∧
    config (m_ports s') = keyboard_on (config (m_ports s)) ∧ m_if s' = true.
Proof. apply setup_idt_result. Qed.
End machine.

(** ** A controller in software, and the witness *)

(** Busy for one load of the status register after each byte written to it. *)
Record soft_ps2 := SoftPs2 { sp_config : Z; sp_out : list Z; sp_expects : bool; sp_busy : bool; sp_masks : Z * Z }.

#[export] Instance soft_ports : PortBus soft_ps2 := {|
  port_in port p :=
    if port =? 0x64 then
      ((if sp_busy p then 2 else match sp_out p with [] => 0 | _ => 1 end),
       SoftPs2 (sp_config p) (sp_out p) (sp_expects p) false (sp_masks p))
    else if port =? 0x60 then
      match sp_out p with
      | [] => (0, p)
      | b :: l => (b, SoftPs2 (sp_config p) l (sp_expects p) (sp_busy p) (sp_masks p))
      end
    else (0, p);
  port_out port v p :=
    if port =? 0x64 then
      if v =? 0xAE then SoftPs2 (Z.clearbit (u8 (sp_config p)) 4) (sp_out p) (sp_expects p) true (sp_masks p)
      else if v =? 0x20 then SoftPs2 (sp_config p) (sp_out p ++ [u8 (sp_config p)]) (sp_expects p) true (sp_masks p)
      else if v =? 0x60 then SoftPs2 (sp_config p) (sp_out p) true true (sp_masks p)
      else p
    else if (port =? 0x60) && sp_expects p then SoftPs2 v (sp_out p) false true (sp_masks p)
    else if port =? PIC1_DATA then SoftPs2 (sp_config p) (sp_out p) (sp_expects p) (sp_busy p) (v, snd (sp_masks p))
    else if port =? PIC2_DATA then SoftPs2 (sp_config p) (sp_out p) (sp_expects p) (sp_busy p) (fst (sp_masks p), v)
    else p
|}.

Lemma clearbit_byte x : 0 ≤ x < 256 → 0 ≤ Z.clearbit x 4 < 256.
Proof.
  intros Hx. assert (Z.clearbit x 4 mod 2 ^ 8 = Z.clearbit x 4) as <-; [|apply Z.mod_pos_bound; lia].
  rewrite <- Z.land_ones, Z.clearbit_spec' by lia. apply Z.bits_inj'. intros i Hi.
  rewrite Z.land_spec, Z.ldiff_spec.
  destruct (Z.testbit x i) eqn:E; [|done]. rewrite Z.ones_spec_low, andb_true_r; [done|].
  split; [done|]. destruct (Z.ltb_spec i 8) as [|Hi8]; [lia|]. exfalso.
  rewrite (Z.bits_above_log2 x i) in E; [done|lia|]. destruct (decide (x = 0)) as [->|]; [cbn; lia|].
  assert (Z.log2 x < 8) by (apply Z.log2_lt_pow2; lia). lia.
Qed.

#[export] Instance soft_ps2_ok : Ps2 soft_ps2.
Proof.
  refine {| config p := u8 (sp_config p); out_buf := sp_out; expects := sp_expects;
            busy p := if sp_busy p then 1%nat else O; delay p := if sp_busy p then 1%nat else O;
            irq_masks := sp_masks; max_wait := 1%nat |}; cbn [port_in port_out soft_ports].
  - intros p. apply u8_range.
  - intros p. case_match; lia.
  - intros p. case_match; lia.
  - intros p. cbn. destruct (sp_busy p), (sp_out p); cbn; naive_solver.
  - intros p b l Ho Hd. cbn. by rewrite Ho.
  - intros p Hb. cbn. split; [|done]. apply u8_small, clearbit_byte, u8_range.
  - intros p Hb. cbn. done.
  - intros p Hb. done.
  - intros p v Hb He Hv. rewrite He. cbn. split; [by apply u8_small|done].
  - intros p port v [-> | ->]; done.
  - done.
  - done.
  - intros p port v [-> | ->]; cbn; (split; [|by destruct (sp_out p)]); repeat case_match; done.
Defined.

Definition demo_symbols : IdtSymbols.
Proof. refine {| default_handler := 0x101000; timer_interrupt := 0x102000; keyboard_handler := 0x103000;
  interrupt_handler v := 0x110000; shared_idt_addr := 0x120000 |}. lia. Defined.

Definition demo_machine : machine soft_lapic soft_chips soft_ps2 :=
  Machine [] (Idtr 0 0) (LapicDriver 0 (SoftLapic ∅ [] false [])) (Driver (replicate 8 demo_info) 0 demo_chips)
    (SoftPs2 0x30 [] false false (0, 0)) false.

Lemma setup_idt_spec_witness :
  ∃ s', setup_idt (IS := demo_symbols) 134 demo_io_table 0x9000 0xFEE00000 demo_machine = Ret ((), s') ∧
    pin (dev (m_ioapic s')) 0xFEC00000 1 = (33, 0) ∧ irq_masks (m_ports s') = (0xff, 0xff) ∧
    config (m_ports s') = 0x21 ∧ m_if s' = true.
Proof.
  destruct (setup_idt_spec (IS := demo_symbols) 134 demo_io_table 0x9000 demo_io_entries demo_machine
    (mkIOAPICInfo 0 0xFEC00000 0 23 0xFEC00000)) as (s' & d & E & _ & _ & _ & _ & Hk & _ & Hm & Hc & Hif).
  - discriminate.
  - vm_compute. reflexivity.
  - repeat (constructor; [cbn; lia|]). constructor.
  - vm_compute. reflexivity.
  - reflexivity.
  - cbn. lia.
  - split; [|split].
    + repeat (constructor; [split; [reflexivity|]; vm_compute; split_and!; (discriminate || reflexivity)|]).
      constructor.
    + apply (bool_decide_unpack _). vm_compute. exact I.
    + intros [|[|i]] [|[|j]] a b Ha Hb Hij; try done; injection Ha as <-; injection Hb as <-; vm_compute; auto.
  - cbn. lia.
  - cbn. lia.
  - reflexivity.
  - left.
  - cbn. lia.
  - exists s'. split; [exact E|]. split; [exact Hk|]. split; [exact Hm|]. split; [rewrite Hc; reflexivity|exact Hif].
Defined.
