(* ===== verification/Legacy.v ===== *)
(** * The legacy interrupt controllers and timer ([kernel/pic], [kernel/pit])

    The drivers of the pair of 8259A controllers ([pic/pic.c]) and of the 8254
    timer ([pit/pit.asm]), which the kernel had before the APICs.  The chips are
    behind the ports of [Idt.v]; [Pics] and [PitChip] state what their data sheets
    say about the writes to them. *)

From S2P Require Import Prelude Memory Kalloc Idt.

Definition PIC1 : Z := 0x20.
Definition PIC2 : Z := 0xA0.
Definition PIC1_COMMAND : Z := PIC1.
Definition PIC2_COMMAND : Z := PIC2.
Definition PIC_EOI : Z := 0x20.
Definition ICW1 : Z := 0x11.
Definition PIC_MASTER_OFFSET : Z := 32.
Definition PIC_SLAVE_OFFSET : Z := 40.
Definition ICW3_MASTER : Z := 0x04.
Definition ICW3_SLAVE : Z := 0x02.
Definition ICW4_8086 : Z := 0x01.

Section drivers.
Context {P : Type} {PB : PortBus P}.

Definition outb (port val : Z) : M P () := modify (port_out port (u8 val)).

Definition pic_send_eoi (irq : Z) : M P () :=
  do* (if PIC_SLAVE_OFFSET <=? irq then outb PIC2_COMMAND PIC_EOI else ret ()) in
  outb PIC1_COMMAND PIC_EOI.

Definition pic_init : M P () :=
  do* outb PIC1_COMMAND ICW1 in
  do* outb PIC2_COMMAND ICW1 in
  do* outb PIC1_DATA PIC_MASTER_OFFSET in
  do* outb PIC2_DATA PIC_SLAVE_OFFSET in
  do* outb PIC1_DATA ICW3_MASTER in
  do* outb PIC2_DATA ICW3_SLAVE in
  do* outb PIC1_DATA ICW4_8086 in
  outb PIC2_DATA ICW4_8086.

(** The bytes of [ax]. *)
Definition al (ax : Z) : Z := u8 ax.
Definition ah (ax : Z) : Z := u8 (Z.shiftr ax 8).

Definition send_values_to_sched : M P () :=
  let ax := 0x7FFF in
  do* outb 0x40 (al ax) in
  outb 0x40 (ah ax).

(** [init_pit] has no return of its own: it runs into [send_values_to_sched]. *)
Definition init_pit : M P () :=
  do* outb 0x43 0x38 in
  send_values_to_sched.

Definition stop_timer : M P () :=
  let ax := 0 in
  do* outb 0x40 (al ax) in
  outb 0x40 (ah ax).

(** A write of a byte. *)
Lemma run_outb (port val : Z) (k : M P ()) p : 0 ≤ val < 256 → (do* outb port val in k) p = k (port_out port val p).
Proof. intros H. unfold outb, u8. by rewrite Z.mod_small. Qed.
Lemma run_out (port val : Z) p : 0 ≤ val < 256 → outb port val p = Ret ((), port_out port val p).
Proof. intros H. unfold outb, u8. by rewrite Z.mod_small. Qed.
End drivers.

(** ** The interrupt controllers *)

(** A controller: which word of the initialisation it waits for, the first
    vector, the cascade and mode words, the mask, and the lines in service. *)
Inductive phase := Ready | Wait2 | Wait3 | Wait4.
Record pic := Pic {
  pic_phase : phase;
  pic_base : Z;
  pic_cascade : Z;
  pic_mode : Z;
  pic_mask : Z;
  pic_isr : list nat
}.

(** A write to the command port: with bit 4, ICW1 (here always with a cascade
    and an ICW4, bits 1 and 0); otherwise, with 0x20, the end of the interrupt of
    the highest priority in service.  [pic_isr] has that one first. *)
Definition pic_command (v : Z) (c : pic) : pic :=
  if Z.land v 0x13 =? 0x11 then Pic Wait2 (pic_base c) (pic_cascade c) (pic_mode c) 0 []
  else if v =? 0x20 then Pic (pic_phase c) (pic_base c) (pic_cascade c) (pic_mode c) (pic_mask c) (tail (pic_isr c))
  else c.

(** A write to the data port: the next word of the initialisation, or the mask. *)
Definition pic_data (v : Z) (c : pic) : pic :=
  match pic_phase c with
  | Ready => Pic Ready (pic_base c) (pic_cascade c) (pic_mode c) v (pic_isr c)
  | Wait2 => Pic Wait3 (Z.land v 0xF8) (pic_cascade c) (pic_mode c) (pic_mask c) (pic_isr c)
  | Wait3 => Pic Wait4 (pic_base c) v (pic_mode c) (pic_mask c) (pic_isr c)
  | Wait4 => Pic Ready (pic_base c) (pic_cascade c) v (pic_mask c) (pic_isr c)
  end.

Class Pics (P : Type) {PB : PortBus P} := {
  master : P → pic;
  slave : P → pic;
  write_master_command p v : v = ICW1 ∨ v = PIC_EOI → master (port_out 0x20 v p) = pic_command v (master p) ∧ slave (port_out 0x20 v p) = slave p;
  write_slave_command p v : v = ICW1 ∨ v = PIC_EOI → master (port_out 0xA0 v p) = master p ∧ slave (port_out 0xA0 v p) = pic_command v (slave p);
  write_master_data p v : 0 ≤ v < 256 → master (port_out 0x21 v p) = pic_data v (master p) ∧ slave (port_out 0x21 v p) = slave p;
  write_slave_data p v : 0 ≤ v < 256 → master (port_out 0xA1 v p) = master p ∧ slave (port_out 0xA1 v p) = pic_data v (slave p)
}.

(** What the controllers do with an interrupt on line [n] of 16: the vector for
    the processor, and the lines in service after it.  The slave is on line 2 of
    the master. *)
Definition vector (m s : pic) (n : nat) : Z :=
  if decide (n < 8)%nat then pic_base m + Z.of_nat n else pic_base s + Z.of_nat (n - 8).
Definition in_service (m s : pic) (n : nat) : list nat * list nat :=
  if decide (n < 8)%nat then (n :: pic_isr m, pic_isr s) else (2%nat :: pic_isr m, (n - 8)%nat :: pic_isr s).

Definition pic_ready (base cascade : Z) (c : pic) : Prop :=
  pic_phase c = Ready ∧ pic_base c = base ∧ pic_cascade c = cascade ∧ pic_mode c = ICW4_8086.

Section pics.
Context {P : Type} {PB : PortBus P} {PC : Pics P}.

(** The effect of the eight writes on the two controllers. *)
Lemma master_data p v : 0 ≤ v < 256 → master (port_out PIC1_DATA v p) = pic_data v (master p).
Proof. intros. by apply write_master_data. Qed.
Lemma master_other_data p v : 0 ≤ v < 256 → slave (port_out PIC1_DATA v p) = slave p.
Proof. intros. by apply write_master_data. Qed.
Lemma slave_data p v : 0 ≤ v < 256 → slave (port_out PIC2_DATA v p) = pic_data v (slave p).
Proof. intros. by apply write_slave_data. Qed.
Lemma slave_other_data p v : 0 ≤ v < 256 → master (port_out PIC2_DATA v p) = master p.
Proof. intros. by apply write_slave_data. Qed.
Lemma master_command p v : v = ICW1 ∨ v = PIC_EOI → master (port_out PIC1_COMMAND v p) = pic_command v (master p).
Proof. intros. by apply write_master_command. Qed.
Lemma master_other_command p v : v = ICW1 ∨ v = PIC_EOI → slave (port_out PIC1_COMMAND v p) = slave p.
Proof. intros. by apply write_master_command. Qed.
Lemma slave_command p v : v = ICW1 ∨ v = PIC_EOI → slave (port_out PIC2_COMMAND v p) = pic_command v (slave p).
Proof. intros. by apply write_slave_command. Qed.
Lemma slave_other_command p v : v = ICW1 ∨ v = PIC_EOI → master (port_out PIC2_COMMAND v p) = master p.
Proof. intros. by apply write_slave_command. Qed.

Lemma eoi_isr c : pic_isr (pic_command PIC_EOI c) = tail (pic_isr c).
Proof. done. Qed.

(** [pic_init] sets both controllers up from any state: the master with the
    vectors from 32 on and the slave on its line 2, the slave with those from 40
    on; no line is masked, and none in service. *)
Theorem pic_init_spec p :
  ∃ p', pic_init p = Ret ((), p') ∧ pic_ready 32 4 (master p') ∧ pic_ready 40 2 (slave p') ∧
    pic_mask (master p') = 0 ∧ pic_mask (slave p') = 0 ∧ pic_isr (master p') = [] ∧ pic_isr (slave p') = [].
Proof.
  eexists. split.
  - unfold pic_init. do 7 (rewrite run_outb by (vm_compute; split; congruence)). reflexivity.
  - change (u8 ICW4_8086) with ICW4_8086.
    repeat (rewrite ?slave_data, ?slave_other_data, ?master_data, ?master_other_data, ?master_command, ?master_other_command,
      ?slave_command, ?slave_other_command by first [by left | vm_compute; split; congruence]).
    done.
Qed.

(** After [pic_init], line [n] interrupts with the vector [32 + n], and
    [pic_send_eoi] of that vector takes exactly this interrupt out of service, at
    both controllers when it came through the slave. *)
Theorem pic_eoi_spec p p1 n :
  pic_ready 32 4 (master p) → pic_ready 40 2 (slave p) → (n < 16)%nat →
  in_service (master p) (slave p) n = (pic_isr (master p1), pic_isr (slave p1)) →
  vector (master p) (slave p) n = 32 + Z.of_nat n ∧
  ∃ p', pic_send_eoi (32 + Z.of_nat n) p1 = Ret ((), p') ∧
    pic_isr (master p') = pic_isr (master p) ∧ pic_isr (slave p') = pic_isr (slave p).
Proof.
  intros (_ & Hm & _) (_ & Hs & _) Hn Hin. unfold vector. rewrite Hm, Hs. split; [case_decide; lia|].
  unfold pic_send_eoi, PIC_SLAVE_OFFSET. unfold in_service in Hin. destruct (decide (n < 8)%nat) as [Hlt|Hge]; injection Hin as Em Es.
  - rewrite (proj2 (Z.leb_gt 40 _)) by lia. eexists. split; [reflexivity|]. change (u8 PIC_EOI) with PIC_EOI.
    rewrite master_command, master_other_command by (by right). rewrite eoi_isr, <- Em, Es. by split.
  - rewrite (proj2 (Z.leb_le 40 _)) by lia. eexists. split; [reflexivity|]. change (u8 PIC_EOI) with PIC_EOI.
    rewrite master_command, master_other_command, slave_command, slave_other_command by (by right). rewrite !eoi_isr, <- Em, <- Es. by split.
Qed.
End pics.

(** ** The timer *)

(** Channel 0: the mode, the count as it was written (0 counts as 65536), and
    the low byte of a count that is being written. *)
Record pit := Pit {
  pit_mode : Z;
  pit_count : Z;
  pit_low : option Z
}.

(** The number of clock ticks of a count. *)
Definition pit_period (t : pit) : Z := if pit_count t =? 0 then 65536 else pit_count t.

(** The control word for channel 0, low byte first, binary (bits 7 to 4 and 0
    are 0011 and 0): bits 3 to 1 are the mode. *)
Definition pit_control (v : Z) (t : pit) : pit := Pit (Z.land (Z.shiftr v 1) 7) (pit_count t) None.

Definition pit_write (v : Z) (t : pit) : pit :=
  match pit_low t with
  | None => Pit (pit_mode t) (pit_count t) (Some v)
  | Some low => Pit (pit_mode t) (low + 256 * v) None
  end.

Class PitChip (P : Type) {PB : PortBus P} := {
  channel0 : P → pit;
  write_control p v : Z.land v 0xF1 = 0x30 → 0 ≤ v < 256 → channel0 (port_out 0x43 v p) = pit_control v (channel0 p);
  write_count p v : 0 ≤ v < 256 → channel0 (port_out 0x40 v p) = pit_write v (channel0 p)
}.

Section pit.
Context {P : Type} {PB : PortBus P} {PT : PitChip P}.

(** [init_pit] gives channel 0 the count 32767, whatever it was doing, but in
    mode 4, in which it counts down once: not in mode 3, the square wave.
    [stop_timer] does not stop it either: the count 0 is the longest one. *)
Theorem pit_spec p :
  (∃ p', init_pit p = Ret ((), p') ∧ pit_mode (channel0 p') = 4 ∧ pit_period (channel0 p') = 32767) ∧
  (pit_low (channel0 p) = None →
   ∃ p', stop_timer p = Ret ((), p') ∧ pit_mode (channel0 p') = pit_mode (channel0 p) ∧ pit_period (channel0 p') = 65536).
Proof.
  split.
  - eexists. split.
    + unfold init_pit, send_values_to_sched. do 2 (rewrite run_outb by (vm_compute; split; congruence)).
      rewrite run_out by (vm_compute; split; congruence). reflexivity.
    + rewrite !write_count, write_control by first [reflexivity | vm_compute; split; congruence]. by split.
  - intros Hlow. eexists. split.
    + unfold stop_timer. rewrite run_outb by (vm_compute; split; congruence).
      rewrite run_out by (vm_compute; split; congruence). reflexivity.
    + rewrite !write_count by (vm_compute; split; congruence). change (u8 0) with 0. unfold pit_write. rewrite Hlow. by split.
Qed.
End pit.

(** ** Chips *)

(** The two controllers and the timer behind the ports. *)
Record chips := Chips { ch_master : pic; ch_slave : pic; ch_pit : pit }.

#[global] Instance chips_ports : PortBus chips := {|
  port_in _ p := (0, p);
  port_out port v p :=
    match p with
    | Chips m s t =>
        if port =? 0x20 then Chips (pic_command v m) s t
        else if port =? 0x21 then Chips (pic_data v m) s t
        else if port =? 0xA0 then Chips m (pic_command v s) t
        else if port =? 0xA1 then Chips m (pic_data v s) t
        else if port =? 0x43 then Chips m s (pit_control v t)
        else if port =? 0x40 then Chips m s (pit_write v t)
        else p
    end
|}.

#[global, refine] Instance chips_pics : Pics chips := {| master := ch_master; slave := ch_slave |}.
Proof. all: by intros []. Defined.

#[global, refine] Instance chips_pit : PitChip chips := {| channel0 := ch_pit |}.
Proof. all: by intros []. Defined.

Definition demo_chips : chips :=
  Chips (Pic Ready 8 0 0 255 [0%nat]) (Pic Ready 112 0 0 255 []) (Pit 3 0 None).

(** The real-time clock, line 8, after [pic_init]. *)
Lemma pic_eoi_spec_witness :
  let m := Pic Ready 32 4 1 0 [] in let s := Pic Ready 40 2 1 0 [] in
  ∃ p', pic_send_eoi 40 (Chips (Pic Ready 32 4 1 0 [2%nat]) (Pic Ready 40 2 1 0 [0%nat]) (Pit 3 0 None)) = Ret ((), p') ∧
    pic_isr (master p') = [] ∧ pic_isr (slave p') = [].
Proof.
  exact (proj2 (pic_eoi_spec (Chips (Pic Ready 32 4 1 0 []) (Pic Ready 40 2 1 0 []) (Pit 3 0 None))
    (Chips (Pic Ready 32 4 1 0 [2%nat]) (Pic Ready 40 2 1 0 [0%nat]) (Pit 3 0 None)) 8
    ltac:(by split_and!) ltac:(by split_and!) ltac:(lia) eq_refl)).
Defined.

Example pic_init_demo : ∃ p', pic_init demo_chips = Ret ((), p') ∧ pic_base (master p') = 32 ∧ pic_isr (master p') = [].
Proof. destruct (pic_init_spec demo_chips) as (p' & E & (_ & Hb & _) & _ & _ & _ & Hi & _). by exists p'. Qed.

Lemma pit_spec_witness :
  ∃ p', stop_timer demo_chips = Ret ((), p') ∧ pit_mode (channel0 p') = 3 ∧ pit_period (channel0 p') = 65536.
Proof. exact (proj2 (pit_spec demo_chips) eq_refl). Defined.
