(* ===== verification/Handlers.v ===== *)
(** * Interrupt handlers ([kernel/idt/interrupt_handlers.c])

    The keyboard handler drives the terminals of [Tty.v]; the timer handler
    counts ticks for the scheduler of [SmpSched.v].  Both acknowledge the
    interrupt at the local APIC. *)

From S2P Require Import Prelude Memory Kalloc Percpu Spinlock StrUtils Printf Tty Threads SmpSched Lapic Ioapic Idt.
From Stdlib Require Import Ascii.

Definition F1 : Z := 0x3B.

(** What the handlers reach: the terminals (with the processors), the ports and
    the local APIC. *)
Record desk (DL P : Type) := Desk { d_console : console; d_ports : P; d_lapic : lapic_driver DL }.
#[global] Arguments Desk {DL P}.
#[global] Arguments d_console {DL P}.
#[global] Arguments d_ports {DL P}.
#[global] Arguments d_lapic {DL P}.

Section handlers.
Context {DL P : Type} {LB : LapicBus DL} {PB : PortBus P}.
Abbreviation st := (desk DL P).

Definition on_console {A} (c : M console A) : M st A := λ s,
  match c (d_console s) with
  | Ret (a, k) => Ret (a, Desk k (d_ports s) (d_lapic s))
  | Panic msg => Panic msg
  | Undef => Undef
  | OutOfFuel => OutOfFuel
  end.
Definition on_apic {A} (c : M (lapic_driver DL) A) : M st A := λ s,
  match c (d_lapic s) with
  | Ret (a, l) => Ret (a, Desk (d_console s) (d_ports s) l)
  | Panic msg => Panic msg
  | Undef => Undef
  | OutOfFuel => OutOfFuel
  end.
Definition on_system {A} (c : M system A) : M console A := λ s,
  match c (co_sys s) with
  | Ret (a, sys) => Ret (a, Tty.with_sys s sys)
  | Panic msg => Panic msg
  | Undef => Undef
  | OutOfFuel => OutOfFuel
  end.
Definition in_port (port : Z) : M st Z := λ s,
  let '(v, p) := port_in port (d_ports s) in Ret (v, Desk (d_console s) p (d_lapic s)).

(** What a scan code does. *)
Definition handle_key (res : Z) : M console () :=
  if (F1 <=? res) && (res <? F1 + Z.of_nat TERMINALS_NUMBER) then set_tty (u8 (res - F1))
  else printf (chars "%x ") [VarArg res None].

Fixpoint keyboard_loop (fuel : nat) (status : Z) : M st () :=
  match fuel with
  | O => out_of_fuel
  | S fuel =>
      if negb (Z.land status 1 =? 0) then
        let* res := in_port 0x60 in
        let* cpu := on_console (on_system mycpu) in
        do* on_console (handle_key res) in
        let* status := in_port 0x64 in
        keyboard_loop fuel status
      else ret ()
  end.

Definition keyboard_handler (fuel : nat) : M st () :=
  let* status := in_port 0x64 in
  do* keyboard_loop fuel status in
  do* on_console (print (chars (String "010" EmptyString) ++ [0])) in
  on_apic lapic_eoi.

Definition default_handler : M console () := print (chars "unknown interrupt" ++ [10; 0]).

(** [cpu->timer_ticks++] *)
Definition count_tick (c : percpu) : percpu :=
  Percpu (pc_self c) (apic_id c) (cpu_index c) (is_bsp c) (started c) (ncli c) (intena c)
    (current_thread c) (idle_thread c) (run_queue c) (scheduler_ctx c) (num_threads c)
    (scheduler_ready c) (u64 (timer_ticks c + 1)) (tss c) (int_stack c) (kstack c) (gdt c) (pc_gdt_ptr c).

Definition timer_interrupt : M st () :=
  let* cpu := on_console (on_system mycpu) in
  do* on_console (on_system (update cpu count_tick)) in
  do* on_apic lapic_eoi in
  let* c := on_console (on_system (deref cpu)) in
  if scheduler_ready c then on_console (on_system sched_tick) else ret ().

Definition error_messages : list string :=
  ["division_error"; "debug"; "non-maskable interrupt"; "breakpoint"; "overflow"; "bound range exceeded";
   "invalid opcode"; "device not available"; "double fault"; "pidor nahui blyat"; "invalid tss";
   "segment not present"; "stack-segment fault"; "general protection fault"; "page fault"; "reserved";
   "x87 floating-point exception"; "alignment check"; "machine check"; "simd floating-point exception";
   "virtualization exception"; "control protection exception"; "reserved"; "reserved"; "reserved";
   "reserved"; "reserved"; "reserved"; "hypervisor injection exception"; "vmm communication exception";
   "security exception"; "reserved"].

(** What it prints before it loops for ever; [cr2] is the register. *)
Definition interrupt_handler (error_code interrupt_number cr2 : Z) : M console () :=
  match error_messages !! Z.to_nat interrupt_number with
  | None => undef
  | Some msg =>
      do* printf (chars "Interrupt number %d (%s), error_code: %b" ++ [10])
            [VarArg interrupt_number None; VarArg 1 (Some (chars msg ++ [0])); VarArg error_code None] in
      printf (chars "CR2: %x" ++ [10]) [VarArg cr2 None]
  end.
End handlers.

(** * Properties *)

(** ** The terminals, abstractly

    The active terminal and the contents of all of them. *)
Definition screens : Type := nat * list tty_structure.

Definition text_of (format : list Z) (args : list vararg) : list Z :=
  match interpret text_sink format args [] with Ret (_, t) => t | _ => [] end.
Definition key_text (res : Z) : list Z := text_of (chars "%x ") [VarArg res None].
Definition switch_text (k : nat) : list Z := text_of (chars "TTY %d" ++ [10]) [VarArg (Z.of_nat k) None].

Definition type_on (i : nat) (text : list Z) (l : list tty_structure) : list tty_structure :=
  alter (λ t, type_text t text) i l.

(** A function key switches to its terminal, which announces itself; another
    key types its code on the active one. *)
Definition key_step (a : screens) (res : Z) : screens :=
  if decide (F1 ≤ res < F1 + 7) then
    (Z.to_nat (res - F1), type_on (Z.to_nat (res - F1)) (switch_text (Z.to_nat (res - F1))) (snd a))
  else (fst a, type_on (fst a) (key_text res) (snd a)).

(** The console [s] shows [a] and can be printed on by the processor [r]. *)
Definition console_is (s : console) (a : screens) (r : cpu_ref) : Prop :=
  active_tty s = Some (fst a) ∧ tty_terminals s = snd a ∧ length (snd a) = 7%nat ∧ (fst a < 7)%nat ∧
  Forall tty_ok (snd a) ∧ (∀ i t, snd a !! i = Some t → tty_id t = Z.of_nat i) ∧
  length (vga_memory s) = CELLS ∧ (∃ c, cli_inv (co_sys s) r c) ∧
  lk_word (printf_spinlock s) = 0 ∧ lk_word (print_spinlock s) = 0.

Lemma console_is_type s i l r text v sys :
  console_is s (i, l) r → length v = CELLS → (∃ c, cli_inv sys r c) →
  ∀ t, l !! i = Some t →
  console_is (showing (Tty.with_sys s sys) i (type_text t text) v) (i, type_on i text l) r.
Proof.
  intros (Ha & Ht & Hl & Hi & Hok & Hid & _ & _ & Hlk) Hv Hsys t Hit. unfold console_is. cbn [fst snd] in *.
  assert (type_on i text l = <[i := type_text t text]> l) as Halt.
  { apply list_eq. intros j. unfold type_on. destruct (decide (i = j)) as [<-|Hne].
    - rewrite list_lookup_alter_eq, Hit, list_lookup_insert_eq by lia. done.
    - by rewrite list_lookup_alter_ne, list_lookup_insert_ne. }
  cbn [showing Tty.with_sys active_tty tty_terminals vga_memory co_sys printf_spinlock print_spinlock].
  rewrite Halt, Ht. split; [done|]. split; [done|]. split; [by rewrite length_insert|]. split; [done|].
  pose proof (proj1 (Forall_lookup _ _) Hok _ _ Hit) as Htok.
  split; [apply Forall_insert; [done|by apply type_text_ok]|]. split; [|done].
  intros j t' Hj. destruct (decide (i = j)) as [<-|Hne].
  - rewrite list_lookup_insert_eq in Hj by lia. injection Hj as <-. rewrite type_text_id. by apply Hid.
  - rewrite list_lookup_insert_ne in Hj by done. by apply Hid.
Qed.

Lemma console_is_ready s i l r :
  console_is s (i, l) r → ∃ t c, l !! i = Some t ∧ console_ready s i t r c.
Proof.
  intros (Ha & Ht & Hl & Hi & Hok & Hid & Hv & [c Hc] & Hlk1 & Hlk2). cbn [fst snd] in *.
  destruct (lookup_lt_is_Some_2 l i) as [t Hit]; [lia|]. exists t, c. split; [done|].
  split; [done|]. split; [by rewrite Ht|]. split; [by apply (proj1 (Forall_lookup _ _) Hok i)|]. done.
Qed.

Lemma printf_is s i l r format args text :
  console_is s (i, l) r → interpret text_sink format args [] = Ret ((), text) → (0 ∉ text) →
  ∃ s', printf format args s = Ret ((), s') ∧ console_is s' (i, type_on i text l) r.
Proof.
  intros Hs Htext H0. destruct (console_is_ready _ _ _ _ Hs) as (t & c & Hit & Hr).
  destruct (printf_result s i t r c format args text Hr Htext H0) as (v & E & Hv & _ & _).
  eexists. split; [exact E|]. apply console_is_type; [done|done| |done].
  eexists. apply left_section_cli. apply Hr.
Qed.

Lemma print_is s i l r str :
  console_is s (i, l) r → Forall (λ c, c ≠ 0) str →
  ∃ s', print (str ++ [0]) s = Ret ((), s') ∧ console_is s' (i, type_on i str l) r ∧
    ∀ t, snd (i, type_on i str l) !! i = Some t → vga_memory s' = tty_buffer t.
Proof.
  intros Hs Hstr. destruct (console_is_ready _ _ _ _ Hs) as (t & c & Hit & Hr).
  pose proof Hr as (Ha & Ht & Hok & Hv & Hc & Hl1 & Hl2). pose proof (lookup_lt_Some _ _ _ Ht) as Hi.
  pose proof (print_showing s i t (vga_memory s) r c str [] Hi Hok Hv Hstr Hc Hl2) as Epr.
  rewrite <- (showing_self s i t Ha Ht) in Epr. eexists. split; [exact Epr|].
  assert (length (tty_buffer (type_text t str)) = CELLS) as Hb by (by apply type_text_ok).
  split.
  - apply (console_is_type s i l r str _ (left_section (co_sys s) r c)); [done|done| |done].
    eexists. by apply left_section_cli.
  - intros t'. cbn [snd]. unfold type_on. rewrite list_lookup_alter_eq, Hit. intros [= <-]. done.
Qed.

(** The texts, for the numbers that occur. *)
Lemma key_text_ok res : 0 ≤ res < 256 →
  interpret text_sink (chars "%x ") [VarArg res None] [] = Ret ((), key_text res) ∧ (0 ∉ key_text res).
Proof.
  intros Hres.
  assert (Forall (λ res, interpret text_sink (chars "%x ") [VarArg res None] [] = Ret ((), key_text res) ∧
    (0 ∉ key_text res)) (seqZ 0 256)) as Hall.
  { repeat (constructor; [split; [vm_compute; reflexivity|apply (bool_decide_unpack _); vm_compute; exact I]|]).
    constructor. }
  apply (proj1 (Forall_forall _ _) Hall res). apply elem_of_seqZ. lia.
Qed.

Lemma switch_text_ok (k : nat) : (k < 7)%nat →
  interpret text_sink (chars "TTY %d" ++ [10]) [VarArg (Z.of_nat k) None] [] = Ret ((), switch_text k) ∧
  (0 ∉ switch_text k).
Proof.
  intros Hk. do 7 (destruct k as [|k];
    [split; [vm_compute; reflexivity|apply (bool_decide_unpack _); vm_compute; exact I]|]). lia.
Qed.

Lemma set_tty_is s a r (k : nat) :
  console_is s a r → (k < 7)%nat →
  ∃ s', set_tty (Z.of_nat k) s = Ret ((), s') ∧ console_is s' (k, type_on k (switch_text k) (snd a)) r.
Proof.
  intros Hs Hk. destruct a as [i l]. unfold set_tty. change (Z.of_nat TERMINALS_NUMBER) with 7.
  destruct (Z.leb_spec 7 (Z.of_nat k)); [lia|]. rewrite Nat2Z.id. unfold bind at 1 2, modify. cbn [snd].
  set (s1 := set_active (Some k) (set_vga (clear_vga (vga_memory s)) s)).
  assert (console_is s1 (k, l) r) as Hs1.
  { destruct Hs as (Ha & Ht & Hl & Hi & Hok & Hid & Hv & Hc & Hlk). split; [done|]. split; [done|].
    split; [done|]. split; [done|]. split; [done|]. split; [done|]. split; [|done].
    cbn [vga_memory set_active set_vga s1]. unfold clear_vga, clear_bytes. rewrite length_imap. done. }
  destruct (console_is_ready _ _ _ _ Hs1) as (t & c & Hit & Hr).
  assert (active s1 = Ret (t, s1)) as Eact.
  { unfold active. destruct Hr as (-> & Ht & _). cbn [mbind option_bind]. by rewrite Ht. }
  rewrite (bind_ret _ _ _ _ _ Eact).
  assert (tty_id t = Z.of_nat k) as -> by (apply Hs1; done).
  destruct (switch_text_ok k Hk) as [Htext H0].
  destruct (printf_is s1 k l r _ _ _ Hs1 Htext H0) as (s2 & E2 & Hs2).
  unfold LOG. rewrite (bind_ret _ _ _ _ _ E2).
  destruct (console_is_ready _ _ _ _ Hs2) as (t2 & c2 & Hit2 & Hr2).
  pose proof Hr2 as (Ha2 & Ht2 & Hok2 & Hv2 & Hc2 & _). pose proof (lookup_lt_Some _ _ _ Ht2) as Hi2.
  pose proof (refresh_showing s2 k Hi2 t2 (vga_memory s2) Hok2 Hv2) as Eref.
  rewrite <- (showing_self s2 k t2 Ha2 Ht2) in Eref. eexists. split; [exact Eref|].
  pose proof (console_is_type s2 k _ r [] (tty_buffer t2) (co_sys s2) Hs2 (proj1 Hok2)
    (ex_intro _ c2 Hc2) t2 Hit2) as Hres.
  unfold type_on in Hres at 1. cbn [type_text fold_left] in Hres. rewrite list_alter_id in Hres by done.
  by destruct s2.
Qed.

Lemma handle_key_is s a r res :
  console_is s a r → 0 ≤ res < 256 →
  ∃ s', handle_key res s = Ret ((), s') ∧ console_is s' (key_step a res) r.
Proof.
  intros Hs Hres. unfold handle_key, key_step, F1. change (Z.of_nat TERMINALS_NUMBER) with 7.
  destruct (Z.leb_spec 0x3B res) as [H1|H1]; cbn [andb].
  - destruct (Z.ltb_spec res (0x3B + 7)) as [H2|H2].
    + rewrite decide_True by lia. rewrite u8_small by lia.
      rewrite <- (Z2Nat.id (res - 0x3B)) by lia. rewrite Nat2Z.id. apply (set_tty_is s a r); [done|lia].
    + rewrite decide_False by lia. destruct a as [i l]. destruct (key_text_ok res Hres) as [Ht H0].
      by apply (printf_is s i l r).
  - rewrite decide_False by lia. destruct a as [i l]. destruct (key_text_ok res Hres) as [Ht H0].
    by apply (printf_is s i l r).
Qed.

Section keyboard.
Context {DL P : Type} {LB : LapicBus DL} {LC : LapicChip DL} {PB : PortBus P} {KB : Ps2 P}.
Implicit Types (s : desk DL P).

Lemma in_port_eq port s :
  in_port port s = Ret (fst (port_in port (d_ports s)), Desk (d_console s) (snd (port_in port (d_ports s))) (d_lapic s)).
Proof. unfold in_port. by destruct (port_in port (d_ports s)). Qed.

Lemma on_console_ret {A} (c : M console A) s a k :
  c (d_console s) = Ret (a, k) → on_console c s = Ret (a, Desk k (d_ports s) (d_lapic s)).
Proof. intros E. unfold on_console. by rewrite E. Qed.

Lemma console_mycpu k a r : console_is k a r → on_system mycpu k = Ret (r, k).
Proof.
  intros (_ & _ & _ & _ & _ & _ & _ & (c & ((Hm & _) & _)) & _). unfold on_system. rewrite Hm.
  by destruct k.
Qed.

(** The loop, entered with a fresh status: it handles the first bytes of the
    buffer, all of them when the controller shows each byte at once. *)
Lemma keyboard_loop_result fuel : ∀ s a r l p0,
  console_is (d_console s) a r → d_ports s = snd (port_in 0x64 p0) → out_buf p0 = l →
  Forall (λ b, 0 ≤ b < 256) l → (length l < fuel)%nat →
  ∃ k p l1 l2, keyboard_loop fuel (fst (port_in 0x64 p0)) s = Ret ((), Desk k p (d_lapic s)) ∧
    l = l1 ++ l2 ∧ out_buf p = l2 ∧ console_is k (foldl key_step a l1) r ∧
    ((∀ p, delay p = O) → l2 = []).
Proof.
  induction fuel as [|fuel IH]; intros s a r l p0 Hs Hp Hl Hb Hf; [lia|]. cbn [keyboard_loop].
  destruct (status_read p0) as (_ & Ho & _ & _ & Hd & _ & Hst). rewrite <- Hp in Ho, Hd.
  destruct (Z.eqb_spec (Z.land (fst (port_in 0x64 p0)) 1) 0) as [Hz|Hnz]; cbn [negb].
  { exists (d_console s), (d_ports s), [], l. split; [by destruct s|]. split; [done|]. rewrite Ho, Hl.
    split; [done|]. split; [done|]. intros Hdel. destruct l as [|b l]; [done|]. exfalso.
    assert (out_buf p0 ≠ [] ∧ delay p0 = O) as Hx by (split; [by rewrite Hl|apply Hdel]).
    apply Hst in Hx. done. }
  apply Hst in Hnz as [Hne Hd0]. rewrite Hd0 in Hd. rewrite Hl in Ho, Hne.
  destruct l as [|b l]; [done|]. apply Forall_cons in Hb as [Hbb Hb].
  destruct (data_read (d_ports s) b l Ho Hd) as (V & Ho1 & _ & _).
  rewrite (bind_ret _ _ _ _ _ (in_port_eq 0x60 s)), V. set (p1 := snd (port_in 0x60 (d_ports s))) in *.
  rewrite (bind_ret _ _ _ _ _ (on_console_ret _ (Desk (d_console s) p1 (d_lapic s)) _ _ (console_mycpu _ _ _ Hs))).
  cbn [d_ports d_lapic].
  destruct (handle_key_is (d_console s) a r b Hs Hbb) as (k1 & E1 & Hs1).
  rewrite (bind_ret _ _ _ _ _ (on_console_ret _ (Desk (d_console s) p1 (d_lapic s)) _ _ E1)). cbn [d_ports d_lapic].
  rewrite (bind_ret _ _ _ _ _ (in_port_eq 0x64 (Desk k1 p1 (d_lapic s)))). cbn [d_ports d_lapic d_console].
  destruct (IH (Desk k1 (snd (port_in 0x64 p1)) (d_lapic s)) (key_step a b) r l p1)
    as (k & p & l1 & l2 & E & Hl12 & Ho2 & Hk & Hall); [done|done|done|done|cbn [length] in Hf; lia|].
  exists k, p, (b :: l1), l2. split; [exact E|]. split; [by rewrite Hl12|]. done.
Qed.

(** C33. The keyboard handler refines the abstract terminals: it takes bytes from
    the controller as long as it reports any, each function key F1 to F7
    switches to its terminal, every other code is typed in hexadecimal on the
    active one, a line break follows, and the screen then shows the active
    terminal.  If the controller shows each byte at once (its [delay] is 0) no byte
    is left.  The handler always returns, acknowledges exactly one interrupt, the
    one in service with the highest priority, and leaves the registers of the local
    APIC as they were. *)
Theorem keyboard_handler_spec fuel s a r l d :
  console_is (d_console s) a r → d_lapic s = LapicDriver lapic_base d → out_buf (d_ports s) = l →
  Forall (λ b, 0 ≤ b < 256) l → (length l < fuel)%nat →
  ∃ s' l1 l2 d', keyboard_handler fuel s = Ret ((), s') ∧ l = l1 ++ l2 ∧ out_buf (d_ports s') = l2 ∧
    ((∀ p, delay p = O) → l2 = []) ∧
    let a' := foldl key_step a l1 in
    let a'' := (fst a', type_on (fst a') [10] (snd a')) in
    console_is (d_console s') a'' r ∧
    (∀ t, snd a'' !! fst a'' = Some t → vga_memory (d_console s') = tty_buffer t) ∧
    d_lapic s' = LapicDriver lapic_base d' ∧ in_service d' = tail (in_service d) ∧
    (∀ x, lreg d' x = lreg d x) ∧ ipis d' = ipis d.
Proof.
  intros Hs Hlap Hl Hb Hf. unfold keyboard_handler.
  rewrite (bind_ret _ _ _ _ _ (in_port_eq 0x64 s)). set (s1 := Desk _ _ _).
  destruct (keyboard_loop_result fuel s1 a r l (d_ports s) Hs eq_refl Hl Hb Hf)
    as (k & p & l1 & l2 & E & Hl12 & Ho & Hk & Hall).
  rewrite (bind_ret _ _ _ _ _ E). destruct (foldl key_step a l1) as [i scr] eqn:Ea.
  destruct (print_is k i scr r [10] Hk) as (k2 & E2 & Hk2 & Hv2); [by apply Forall_singleton|].
  change (chars (String "010" EmptyString) ++ [0]) with ([10] ++ [0]).
  rewrite (bind_ret _ _ _ _ _ (on_console_ret _ (Desk k p (d_lapic s1)) _ _ E2)).
  destruct (effect_guarded _ _ _ _ effect_write_eoi d) as (d' & E3 & Hr3 & Hi3 & Hs3).
  exists (Desk k2 p (LapicDriver lapic_base d')), l1, l2, d'. split.
  - unfold on_apic. cbn [d_lapic s1]. rewrite Hlap. unfold lapic_eoi. rewrite E3. reflexivity.
  - split; [done|]. split; [done|]. split; [done|]. rewrite Ea. cbn [fst snd d_console d_lapic].
    split; [exact Hk2|]. split; [exact Hv2|]. split; [done|]. split; [exact Hs3|]. split; [exact Hr3|]. by rewrite Hi3, app_nil_r.
Qed.

(** The timer handler counts a tick for the processor it runs on and
    acknowledges the interrupt; it changes nothing else and never switches. *)
Theorem timer_interrupt_spec s r c d :
  on_cpu (co_sys (d_console s)) r c → d_lapic s = LapicDriver lapic_base d →
  ∃ d', timer_interrupt s =
      Ret ((), Desk (Tty.with_sys (d_console s) (put_cpu r (count_tick c) (co_sys (d_console s))))
                 (d_ports s) (LapicDriver lapic_base d')) ∧
    in_service d' = tail (in_service d) ∧ (∀ x, lreg d' x = lreg d x) ∧ ipis d' = ipis d.
Proof.
  intros [Hm Hd] Hlap. set (sys := co_sys (d_console s)) in *. set (sys1 := put_cpu r (count_tick c) sys).
  destruct (effect_guarded _ _ _ _ effect_write_eoi d) as (d' & E & Hr & Hi & Hs).
  exists d'. rewrite app_nil_r in Hi. split; [|done].
  assert (on_cpu sys1 r (count_tick c)) as [Hm1 Hd1].
  { pose proof (on_cpu_put sys r c (count_tick c) (hw_if (sy_hw sys)) (conj Hm Hd) eq_refl) as Hc.
    rewrite set_if_same in Hc by (by destruct r). exact Hc. }
  unfold timer_interrupt.
  rewrite (bind_ret _ _ _ r s) by (unfold on_console, on_system; fold sys; rewrite Hm; by destruct s as [[] ? ?]).
  rewrite (bind_ret _ _ _ () (Desk (Tty.with_sys (d_console s) sys1) (d_ports s) (d_lapic s)))
    by (unfold on_console, on_system; fold sys; by rewrite (update_put _ _ _ _ Hd)).
  rewrite (bind_ret _ _ _ () (Desk (Tty.with_sys (d_console s) sys1) (d_ports s) (LapicDriver lapic_base d')))
    by (unfold on_apic; cbn [d_lapic]; rewrite Hlap; unfold lapic_eoi; by rewrite E).
  rewrite (bind_ret _ _ _ (count_tick c) (Desk (Tty.with_sys (d_console s) sys1) (d_ports s) (LapicDriver lapic_base d')))
    by (unfold on_console, on_system; cbn [d_console co_sys Tty.with_sys]; by rewrite Hd1).
  destruct (scheduler_ready (count_tick c)); [|done].
  unfold on_console, on_system. cbn [d_console co_sys Tty.with_sys].
  assert (sched_tick sys1 = Ret ((), sys1)) as ->; [|done].
  unfold sched_tick. rewrite (bind_ret _ _ _ _ _ Hm1), (bind_ret _ _ _ _ _ Hd1). by case_match.
Qed.
End keyboard.

(** ** Witness *)

(** The terminals after [init_tty]; the second function key has been pressed. *)
Definition demo_desk : desk soft_lapic soft_ps2 :=
  Desk (Console_ (initial_tty <$> seq 0 7) (Some 0%nat) (replicate CELLS blank) (Spinlock 0 "printf")
          (Spinlock 0 "print") demo_system)
    (SoftPs2 0x21 [0x3C] false false (0xff, 0xff)) (LapicDriver 0xFEE00000 (SoftLapic ∅ [] false [33])).

Lemma demo_desk_is : console_is (d_console demo_desk) (0%nat, initial_tty <$> seq 0 7) EarlyCpu.
Proof.
  split; [done|]. split; [done|]. split; [done|]. split; [cbn; lia|].
  split; [apply Forall_fmap, Forall_forall; intros i _; apply initial_tty_ok|].
  split; [|split; [cbn [vga_memory d_console demo_desk]; by rewrite length_replicate|]].
  - intros i t. cbn [snd]. rewrite list_lookup_fmap. intros Hi.
    destruct (seq 0 7 !! i) as [j|] eqn:Ej; [|done]. apply lookup_seq in Ej as [-> Hlt].
    injection Hi as <-. cbn [tty_id initial_tty]. rewrite u8_small; [done|lia].
  - split; [|done]. exists percpu_zero. apply cli_inv_outside; [split|]; reflexivity.
Qed.

Lemma keyboard_handler_spec_witness :
  ∃ s', keyboard_handler 2 demo_desk = Ret ((), s') ∧
    (out_buf (d_ports s') = [] → active_tty (d_console s') = Some 1%nat) ∧
    in_service (ldev (d_lapic s')) = [].
Proof.
  destruct (keyboard_handler_spec (LC := soft_lapic_chip) (KB := soft_ps2_ok) 2 demo_desk (0%nat, initial_tty <$> seq 0 7) EarlyCpu [0x3C] (SoftLapic ∅ [] false [33])
    demo_desk_is eq_refl eq_refl) as (s' & l1 & l2 & d' & E & Hl & Ho & _ & (Ha & _) & _ & Hd & Hi & _).
  - apply Forall_singleton. lia.
  - cbn. lia.
  - exists s'. split; [exact E|]. split; [|rewrite Hd; exact Hi]. intros H. rewrite H in Ho. rewrite <- Ho, app_nil_r in Hl. rewrite <- Hl in Ha. exact Ha.
Defined.
