(* ===== verification/SchedTypes.v ===== *)
(** * Types of the per-CPU and scheduler state

    The per-CPU tables and the scheduler's code ([kernel/sched/percpu.c],
    [kernel/sched/smp_sched.c]) use indices into fixed arrays: the table of the
    CPUs, and the map from APIC identifiers to it.  A state is well typed when the
    arrays have their sizes, the indices that are stored are in range, and the
    numbers are within the C types of their fields.  Every operation keeps the
    state well typed, accesses no array out of range and overflows no [int],
    as long as there are not more open [pushcli] sections than an [int] counts. *)

From S2P Require Import Prelude Memory Kalloc Ring Threads Context Percpu Spinlock SmpSched Handlers.

(** ** Well-typed states *)

Definition word (v : Z) : Prop := 0 ≤ v < 2 ^ 64.

(** [d] bounds the number of open [pushcli] sections. *)
Record cpu_typed (d : Z) (c : percpu) : Prop := {
  ct_apic_id : 0 ≤ apic_id c < 256;
  ct_cpu_index : 0 ≤ cpu_index c < MAX_CPUS;
  ct_ncli : 0 ≤ ncli c ≤ d;
  ct_intena : 0 ≤ intena c ≤ FL_IF;
  ct_timer_ticks : word (timer_ticks c);
  ct_num_threads : 0 ≤ num_threads c < 2 ^ 32;
  ct_current : word (current_thread c);
  ct_idle : word (idle_thread c);
  ct_queue : word (run_queue c);
  ct_int_stack : word (int_stack c);
  ct_kstack : word (kstack c)
}.

Definition kmem_typed (k : kmem) : Prop := word (km_freelist k).

Record typed (d : Z) (s : system) : Prop := {
  ty_kmem : kmem_typed (sy_kmem s);
  ty_cpus : Forall (cpu_typed d) (percpus s);
  ty_early : cpu_typed d (early_bsp_percpu s);
  ty_length : length (percpus s) = Z.to_nat MAX_CPUS;
  ty_ncpu : 0 ≤ ncpu s ≤ MAX_CPUS;
  ty_map_length : length (apic_to_cpu s) = 256%nat;
  ty_map : Forall (λ x, -1 ≤ x < MAX_CPUS) (apic_to_cpu s);
  ty_hw : 0 ≤ hw_apic_id (sy_hw s) < 256
}.

Definition valid_ref (r : cpu_ref) : Prop := match r with EarlyCpu => True | Cpu i => (i < 64)%nat end.

(** ** Operations that keep a property *)

(** [c] has defined behaviour from the states with [P], and where it returns it
    leaves [P] and returns a value with [Q]. *)
Definition Keeps {S A} (P : S → Prop) (Q : A → Prop) (c : M S A) : Prop := ∀ s, P s →
  match c s with
  | Ret (a, s') => P s' ∧ Q a
  | Undef => False
  | Panic _ | OutOfFuel => True
  end.

Definition anything {A} (_ : A) : Prop := True.

Section keeps.
Context {S : Type} (P : S → Prop).

Lemma keeps_ret {A} (Q : A → Prop) a : Q a → Keeps P Q (ret a).
Proof. by intros H s Hs. Qed.

Lemma keeps_bind {A B} (Q : A → Prop) (R : B → Prop) c k :
  Keeps P Q c → (∀ a, Q a → Keeps P R (k a)) → Keeps P R (bind c k).
Proof.
  intros Hc Hk s Hs. unfold bind. specialize (Hc s Hs). destruct (c s) as [[a s']| | |]; try done.
  destruct Hc as [Hs' Ha]. by apply Hk.
Qed.

Lemma keeps_get {B} (R : B → Prop) k : (∀ s, P s → Keeps P R (k s)) → Keeps P R (bind get k).
Proof. intros Hk s Hs. unfold bind, get. by apply (Hk s). Qed.

Lemma keeps_gets {A} (Q : A → Prop) f : (∀ s, P s → Q (f s)) → Keeps P Q (gets f).
Proof. intros H s Hs. split; [done|by apply H]. Qed.

Lemma keeps_modify f : (∀ s, P s → P (f s)) → Keeps P anything (modify f).
Proof. intros H s Hs. split; [by apply H|done]. Qed.

Lemma keeps_if {A} (Q : A → Prop) (b : bool) c d : (b = true → Keeps P Q c) → (b = false → Keeps P Q d) → Keeps P Q (if b then c else d).
Proof. destruct b; auto. Qed.

Lemma keeps_panic {A} (Q : A → Prop) msg : Keeps P Q (panic msg).
Proof. done. Qed.

Lemma keeps_fuel {A} (Q : A → Prop) : Keeps P Q out_of_fuel.
Proof. done. Qed.

Lemma keeps_weaken {A} (Q R : A → Prop) c : Keeps P Q c → (∀ a, Q a → R a) → Keeps P R c.
Proof. intros Hc H s Hs. specialize (Hc s Hs). destruct (c s) as [[a s']| | |]; try done. destruct Hc. auto. Qed.
End keeps.

(** Following the code; the hints say what the operations keep. *)
Create HintDb keeps discriminated.
#[export] Hint Opaque Keeps M : keeps.
Ltac keep :=
  lazymatch goal with
  | |- ∀ _, _ => intro; keep
  | |- Keeps _ _ (panic _) => apply keeps_panic
  | |- Keeps _ _ out_of_fuel => apply keeps_fuel
  | |- Keeps _ ?Q (ret _) => first [is_evar Q; apply (keeps_ret _ anything); exact I | apply keeps_ret; eauto with keeps]
  | |- Keeps _ _ (if _ then _ else _) => apply keeps_if; keep
  | |- Keeps _ _ (bind get _) => apply keeps_get; keep
  | |- Keeps _ _ (bind _ _) => eapply keeps_bind; [keep|keep]
  | |- _ => eauto with keeps
  end.

(** ** The allocator and the threads *)

Section memory.
Context {LK : Linker}.
Abbreviation keeps_k := (Keeps kmem_typed).

Lemma rd64_typed a : keeps_k word (rd64 a).
Proof. intros s Hs. split; [done|apply load64_range]. Qed.
Lemma wr64_typed a v : keeps_k anything (wr64 a v).
Proof. by intros s Hs. Qed.
Lemma wr32_typed a v : keeps_k anything (wr32 a v).
Proof. by intros s Hs. Qed.
Lemma kmemset_typed p v n : keeps_k anything (kmemset p v n).
Proof. by intros s Hs. Qed.

Lemma kalloc_typed : keeps_k word kalloc.
Proof.
  intros [m h] Hs. unfold kalloc. cbn. destruct (h =? 0); (split; [|exact Hs]); [exact Hs|]. cbn. apply load64_range.
Qed.

Lemma kfree_typed p : keeps_k anything (kfree p).
Proof.
  intros s Hs. unfold kfree. destruct (_ || _) eqn:E; [done|]. rewrite !orb_false_iff in E. destruct E as [[_ E1] E2].
  apply Z.ltb_ge in E1. apply Z.leb_gt in E2. split; [|done]. pose proof KEND_range. unfold kmem_typed, word, KSTART, PHYSTOP in *. cbn. lia.
Qed.
#[local] Hint Resolve rd64_typed wr64_typed wr32_typed kmemset_typed kalloc_typed kfree_typed keeps_ret : keeps.
#[local] Hint Unfold anything : keeps.

Lemma state_typed t st : keeps_k anything (change_thread_state t st).
Proof. apply wr32_typed. Qed.

Lemma push_typed l d : word l → keeps_k word (push_thread_list l d).
Proof. intros Hl. unfold push_thread_list, push_list. keep. Qed.

Lemma create_thread_typed f n a : keeps_k word (create_thread f n a).
Proof. unfold create_thread, init_thread. keep. Qed.
End memory.
#[export] Hint Resolve rd64_typed wr64_typed wr32_typed kmemset_typed kalloc_typed kfree_typed state_typed push_typed
  create_thread_typed keeps_ret : keeps.
#[export] Hint Unfold anything : keeps.

(** ** The CPUs *)

(** What decides which structure is the executing processor's, and how many
    [pushcli] sections are open. *)
Definition depths (s : system) : list (Z * Z) :=
  (λ c, (apic_id c, ncli c)) <$> early_bsp_percpu s :: percpus s.
Definition view (s : system) : bool * Z * bool * Z * list Z * list (Z * Z) :=
  (percpu_fully_initialized s, hw_apic_id (sy_hw s), hw_if (sy_hw s), ncpu s, apic_to_cpu s, depths s).

(** Well typed, with a fixed view: what the operations keep that open no section. *)
Definition typed_at d v (s : system) : Prop := typed d s ∧ view s = v.

Lemma at_typed {A} d (Q : A → Prop) c : (∀ v, Keeps (typed_at d v) Q c) → Keeps (typed d) Q c.
Proof. intros H s Hs. specialize (H (view s) s (conj Hs eq_refl)). destruct (c s) as [[a s']| | |]; try done. by destruct H as [[??] ?]. Qed.

Lemma cpu_typed_le d d' c : d ≤ d' → cpu_typed d c → cpu_typed d' c.
Proof. intros Hd []. split; try done. lia. Qed.

Lemma typed_le d d' s : d ≤ d' → typed d s → typed d' s.
Proof.
  intros Hd []. split; try done; [|by eapply cpu_typed_le]. eapply Forall_impl; [done|]. intros c. by apply cpu_typed_le.
Qed.

Lemma typed_nonneg d s : typed d s → 0 ≤ d.
Proof. intros Hs. pose proof (ct_ncli _ _ (ty_early _ _ Hs)). lia. Qed.

Lemma typed_depths d s : typed d s → Forall (λ x, snd x ≤ d) (depths s).
Proof.
  intros [_ H1 H2 _ _ _ _ _]. apply Forall_fmap. constructor; [apply H2|]. eapply Forall_impl; [done|]. intros c Hc. apply Hc.
Qed.

(** The number of open sections is all that [d] bounds. *)
Lemma typed_shallow d d' s : typed d' s → Forall (λ x, snd x ≤ d) (depths s) → typed d s.
Proof.
  intros [H1 H2 H3 H4 H5 H6 H7 H8] Hd. unfold depths in Hd. rewrite Forall_fmap in Hd.
  apply Forall_cons in Hd as [He Hd]. unfold compose, snd in He, Hd.
  split; try done; [|destruct H3; split; try done; lia].
  apply Forall_forall. intros c Hc. pose proof (proj1 (Forall_forall _ _) H2 c Hc) as []. split; try done.
  pose proof (proj1 (Forall_forall _ _) Hd c Hc) as Hn. cbn in Hn. lia.
Qed.

Lemma put_typed d r c' s : typed d s → cpu_typed d c' → typed d (put_cpu r c' s).
Proof.
  intros [H1 H2 H3 H4 H5 H6 H7 H8] Hc. destruct r as [|i]; split; try done; cbn [put_cpu set_percpus percpus].
  - by apply Forall_insert.
  - by rewrite length_insert.
Qed.

Lemma find_apic_id_bound l id i n j : find_apic_id l id i n = Some j → (j < length l)%nat.
Proof.
  revert i. induction n as [|n IH]; intros i; [done|]. cbn [find_apic_id]. destruct (l !! i) eqn:E; [|done].
  destruct (_ =? _); [intros [= <-]; by eapply lookup_lt_Some|apply IH].
Qed.

(** [mycpu] returns a reference into the table or the early structure. *)
Lemma mycpu_result d s : typed d s → ∃ r, mycpu s = Ret (r, s) ∧ valid_ref r.
Proof.
  intros Hs. unfold mycpu, bind, get, get_apic_id, gets, ret. destruct (negb _); [by exists EarlyCpu|].
  pose proof (ty_hw _ _ Hs) as Hid. set (id := hw_apic_id (sy_hw s)) in *.
  destruct (lookup_lt_is_Some_2 (apic_to_cpu s) (Z.to_nat id)) as [idx Hidx]; [rewrite (ty_map_length _ _ Hs); lia|]. rewrite Hidx.
  pose proof (proj1 (Forall_lookup _ _) (ty_map _ _ Hs) _ _ Hidx) as Hr. cbn in Hr. unfold MAX_CPUS in Hr.
  destruct (_ || _) eqn:E.
  - destruct (find_apic_id _ _ _ _) as [j|] eqn:Ej; eexists; (split; [reflexivity|]); cbn; [|lia].
    apply find_apic_id_bound in Ej. rewrite (ty_length _ _ Hs) in Ej. exact Ej.
  - apply orb_false_iff in E as [E _]. apply Z.ltb_ge in E. eexists. split; [reflexivity|]. cbn. lia.
Qed.

Lemma deref_result d r s : typed d s → valid_ref r → ∃ c, deref r s = Ret (c, s) ∧ cpu_typed d c.
Proof.
  intros Hs Hr. destruct r as [|i]; cbn [deref]; [eexists; split; [done|apply Hs]|].
  destruct (lookup_lt_is_Some_2 (percpus s) i) as [c Hc]; [rewrite (ty_length _ _ Hs); exact Hr|]. rewrite Hc.
  exists c. split; [done|]. exact (proj1 (Forall_lookup _ _) (ty_cpus _ _ Hs) i c Hc).
Qed.

(** A well-typed processor has a structure. *)
Lemma typed_on_cpu d s : typed d s → ∃ r c, on_cpu s r c ∧ valid_ref r ∧ cpu_typed d c.
Proof.
  intros Hs. destruct (mycpu_result d s Hs) as (r & Em & Hr). destruct (deref_result d r s Hs Hr) as (c & Ed & Hc). by exists r, c.
Qed.

Lemma update_typed_d d r f : valid_ref r → (∀ c, cpu_typed d c → cpu_typed d (f c)) → Keeps (typed d) anything (update r f).
Proof.
  intros Hr Hf s Hs. destruct (deref_result d r s Hs Hr) as (c & E & Hc). rewrite (update_put r f s c E).
  split; [|done]. apply put_typed; [done|]. by apply Hf.
Qed.

(** ** Depths *)

Definition ref_index (r : cpu_ref) : nat := match r with EarlyCpu => 0 | Cpu i => S i end.

Lemma deref_depths r c s : deref r s = Ret (c, s) → depths s !! ref_index r = Some (apic_id c, ncli c).
Proof.
  intros E. unfold depths. rewrite list_lookup_fmap. destruct r as [|i]; cbn in *; [by injection E as ->|].
  destruct (percpus s !! i); [by injection E as ->|done].
Qed.

Lemma depths_put r c s : depths (put_cpu r c s) = <[ref_index r := (apic_id c, ncli c)]> (depths s).
Proof. unfold depths. rewrite <- (list_fmap_insert (λ c, (apic_id c, ncli c)) _ _ c). by destruct r. Qed.

Lemma put_same_depths r c c' s : deref r s = Ret (c, s) → apic_id c' = apic_id c → ncli c' = ncli c →
  depths (put_cpu r c' s) = depths s.
Proof. intros E H1 H2. rewrite depths_put. apply list_insert_id. rewrite (deref_depths r c) by done. by rewrite H1, H2. Qed.

Lemma put_view r c c' s : deref r s = Ret (c, s) → apic_id c' = apic_id c → ncli c' = ncli c →
  view (put_cpu r c' s) = view s.
Proof. intros E H1 H2. unfold view. rewrite (put_same_depths r c) by done. by destruct r. Qed.

Lemma find_apic_id_depths (l l' : list percpu) : (λ c, (apic_id c, ncli c)) <$> l = (λ c, (apic_id c, ncli c)) <$> l' →
  ∀ id n i, find_apic_id l id i n = find_apic_id l' id i n.
Proof.
  intros E id n. induction n as [|n IH]; intros i; [done|]. cbn [find_apic_id].
  assert ((λ c, (apic_id c, ncli c)) <$> l !! i = (λ c, (apic_id c, ncli c)) <$> l' !! i) as Ei by (by rewrite <- !list_lookup_fmap, E).
  destruct (l !! i), (l' !! i); try discriminate; [|done]. injection Ei as -> _. by rewrite IH.
Qed.

(** The view decides which structure is the processor's. *)
Lemma mycpu_view s s' r : view s = view s' → mycpu s = Ret (r, s) → mycpu s' = Ret (r, s').
Proof.
  intros E. injection E as E1 E2 _ E4 E5 _ _ E7. unfold mycpu, bind, get, get_apic_id, gets, ret, undef. cbv beta.
  rewrite E1. destruct (negb _); cbv beta iota; [by intros [= ->]|]. rewrite E2, E4, E5.
  destruct (apic_to_cpu s' !! _); [|done]. rewrite (find_apic_id_depths _ _ E7).
  destruct (_ || _); [destruct (find_apic_id _ _ _ _)|]; by intros [= ->].
Qed.

(** Operations that keep the view. *)
Section at_view.
Context (d : Z) (v : bool * Z * bool * Z * list Z * list (Z * Z)).
Abbreviation keeps_t := (Keeps (typed_at d v)).

Lemma on_kmem_typed {A} (Q : A → Prop) (c : M kmem A) : Keeps kmem_typed Q c → keeps_t Q (on_kmem c).
Proof.
  intros Hc s [Hs Hv]. unfold on_kmem. specialize (Hc _ (ty_kmem _ _ Hs)). destruct (c (sy_kmem s)) as [[a k]| | |]; try done.
  destruct Hc as [Hk Ha]. split; [|exact Ha]. split; [|exact Hv]. destruct Hs. by split.
Qed.

Lemma deref_typed r : valid_ref r → keeps_t (cpu_typed d) (deref r).
Proof. intros Hr s Hs. destruct (deref_result d r s (proj1 Hs) Hr) as (c & -> & Hc). by split. Qed.

(** The assignment changes neither the identifier nor the depth. *)
Definition same_depth (f : percpu → percpu) : Prop := ∀ c, apic_id (f c) = apic_id c ∧ ncli (f c) = ncli c.

Lemma update_typed r f : valid_ref r → same_depth f → (∀ c, cpu_typed d c → cpu_typed d (f c)) → keeps_t anything (update r f).
Proof.
  intros Hr Hsame Hf s [Hs Hv]. destruct (deref_result d r s Hs Hr) as (c & E & Hc). rewrite (update_put r f s c E).
  split; [|done]. split; [apply put_typed; [done|]; by apply Hf|]. destruct (Hsame c). by rewrite (put_view r c).
Qed.

Lemma mycpu_typed : keeps_t valid_ref mycpu.
Proof. intros s Hs. destruct (mycpu_result d s (proj1 Hs)) as (r & -> & Hr). by split. Qed.
End at_view.

Lemma flag_typed d b : Keeps (typed d) anything (modify (set_if b)).
Proof. apply keeps_modify. intros s [H1 H2 H3 H4 H5 H6 H7 H8]. by split. Qed.

(** The assignments to fields. *)
Section fields.
Context (d : Z).
Abbreviation cpu_typed := (cpu_typed d).
Lemma set_started_typed v c : cpu_typed c → cpu_typed (set_started v c).
Proof. intros []. by split. Qed.
Lemma set_current_typed v c : word v → cpu_typed c → cpu_typed (set_current v c).
Proof. intros ? []. by split. Qed.
Lemma set_queue_typed q n c : word q → 0 ≤ n < 2 ^ 32 → cpu_typed c → cpu_typed (set_queue q n c).
Proof. intros ?? []. by split. Qed.
Lemma set_sched_typed t x b c : word t → cpu_typed c → cpu_typed (set_sched t x b c).
Proof. intros ? []. by split. Qed.
Lemma set_stacks_typed st ks c : word st → word ks → cpu_typed c → cpu_typed (set_stacks st ks c).
Proof. intros ?? []. by split. Qed.
Lemma set_tss_typed t c : cpu_typed c → cpu_typed (set_tss t c).
Proof. intros []. by split. Qed.
Lemma set_gdt_typed g p c : cpu_typed c → cpu_typed (set_gdt g p c).
Proof. intros []. by split. Qed.
Lemma count_tick_typed c : cpu_typed c → cpu_typed (count_tick c).
Proof. intros []. split; try done. apply u64_range. Qed.
Lemma opened_typed s c : cpu_typed c → cpu_typed (opened s c).
Proof. intros []. unfold opened. case_match; split; try done. cbn. destruct (hw_if _); unfold FL_IF; lia. Qed.
End fields.

Lemma zero_word : word 0.
Proof. unfold word. lia. Qed.
Lemma u32_typed v : 0 ≤ u32 v < 2 ^ 32.
Proof. apply u32_range. Qed.

#[export] Hint Extern 1 (same_depth _) => (intros ?; split; reflexivity) : keeps.
#[export] Hint Resolve on_kmem_typed deref_typed update_typed mycpu_typed flag_typed set_started_typed count_tick_typed
  set_current_typed set_queue_typed set_sched_typed set_stacks_typed set_tss_typed set_gdt_typed zero_word u32_typed
  ct_apic_id ct_cpu_index ct_num_threads ct_current ct_idle ct_queue ct_int_stack ct_kstack : keeps.

(** ** Sections *)

(** [pushcli] opens one more section. *)
Lemma pushcli_typed d s : typed d s → d < INT_MAX → ∃ r c, on_cpu s r c ∧ valid_ref r ∧ cpu_typed d c ∧
  pushcli s = Ret ((), entered s r c) ∧ typed (d + 1) (entered s r c).
Proof.
  intros Hs Hd. destruct (typed_on_cpu d s Hs) as (r & c & Hc & Hr & Ht). pose proof (ct_ncli _ _ Ht) as Hn.
  exists r, c. split; [done|]. split; [done|]. split; [done|]. split; [apply pushcli_result; [done|lia]|].
  pose proof (put_typed (d + 1) r (set_ncli (ncli c + 1) (opened s c)) s) as Hput.
  destruct Hput as [H1 H2 H3 H4 H5 H6 H7 H8]; [apply (typed_le d); [lia|done]| |by split].
  pose proof (opened_typed d s c Ht) as []. split; try done. cbn. lia.
Qed.

Lemma popcli_typed d : d ≤ INT_MAX → Keeps (typed d) anything popcli.
Proof.
  intros Hd s Hs. destruct (typed_on_cpu d s Hs) as (r & c & Hc & Hr & Ht). pose proof (ct_ncli _ _ Ht) as Hn.
  destruct (hw_if (sy_hw s)) eqn:Hif; [unfold popcli, read_eflags, bind, gets; by rewrite Hif|].
  destruct (decide (0 < ncli c)) as [Hp|Hp].
  - rewrite (popcli_result s r c Hc Hif) by lia. split; [|done].
    destruct (put_typed d r (set_ncli (ncli c - 1) c) s Hs) as [H1 H2 H3 H4 H5 H6 H7 H8]; [|by split].
    destruct Ht. split; try done. cbn. lia.
  - unfold popcli, read_eflags, bind at 1, gets. rewrite Hif. change (negb (Z.land 0 FL_IF =? 0)) with false. cbv iota.
    destruct Hc as [Hm Hc]. rewrite (bind_ret _ _ _ _ _ Hm).
    rewrite (bind_ret _ _ _ _ _ (add_ncli_result _ _ _ (-1) Hc ltac:(unfold INT_MIN, INT_MAX in *; lia))).
    rewrite (bind_ret _ _ _ _ _ (deref_put _ _ _ _ Hc)). cbn [ncli set_ncli].
    destruct (Z.ltb_spec (ncli c + -1) 0); [done|lia].
Qed.

(** A held lock is released at the depth at which it was taken. *)
Lemma release_typed d s r c lk s2 : typed d s → d + 2 ≤ INT_MAX → on_cpu s r c → cpu_typed d c → lk_word lk = 1 →
  typed_at (d + 1) (view (entered s r c)) s2 →
  ∃ lk' s3, release_spinlock lk s2 = Ret (lk', s3) ∧ typed d s3.
Proof.
  intros Hs Hd Hc Ht Hlk [Hs2 Hv]. pose proof (ct_ncli _ _ Ht) as Hn.
  assert (on_cpu (entered s r c) r (set_ncli (ncli c + 1) (opened s c))) as [Hm1 Hd1].
  { eapply on_cpu_put; [done|]. unfold opened. by case_match. }
  pose proof (mycpu_view _ _ r (eq_sym Hv) Hm1) as Hm2.
  assert (depths s2 = depths (entered s r c)) as Hdep by exact (f_equal snd Hv).
  assert (hw_if (sy_hw s2) = false) as Hif2 by exact (f_equal (λ x, x.1.1.1.2) Hv).
  assert (valid_ref r) as Hr by (destruct (mycpu_result _ _ Hs) as (r' & E & ?); destruct Hc as [E' _]; congruence).
  destruct (deref_result _ r s2 Hs2 Hr) as (c2 & Hd2 & Ht2).
  pose proof (deref_depths _ _ _ Hd2) as L2. rewrite Hdep, (deref_depths _ _ _ Hd1) in L2. injection L2 as Ei En. cbn in Ei, En.
  destruct lk as [w nm]. cbn in Hlk. subst w.
  assert (cli_room 1 s2 r c2) as Hroom by (split; [done|]; split; [lia|done]).
  eexists _, _. split; [apply (release_held s2 r c2 nm Hroom); lia|].
  apply (typed_shallow d (d + 1)).
  - destruct (put_typed (d + 1) r (set_ncli (ncli c2 - 1) c2) s2 Hs2) as [H1 H2 H3 H4 H5 H6 H7 H8]; [|by split].
    destruct Ht2. split; try done. cbn. lia.
  - match goal with |- Forall _ (depths (set_if _ ?y)) => change (Forall (λ x, snd x ≤ d) (depths y)) end.
    rewrite depths_put, Hdep. change (depths (entered s r c)) with (depths (put_cpu r (set_ncli (ncli c + 1) (opened s c)) s)).
    rewrite depths_put, list_insert_insert_eq. apply Forall_insert; [by apply typed_depths|]. cbn. lia.
Qed.

(** ** Initialisation *)

#[export] Hint Resolve at_typed | 5 : keeps.

Section init.
Context {LK : Linker} {PS : PercpuSymbol} (d : Z).
Abbreviation keeps_t := (Keeps (typed d)).

Lemma load_gdt_typed i : (i < 64)%nat → keeps_t anything (percpu_load_gdt i).
Proof.
  intros Hi. unfold percpu_load_gdt. eapply keeps_bind; [apply at_typed; intros v; by apply (deref_typed d v (Cpu i))|]. intros c _.
  apply keeps_modify. intros s [H1 H2 H3 H4 H5 H6 H7 H8]. by split.
Qed.
Lemma setup_gdt_typed i : (i < 64)%nat → keeps_t anything (percpu_setup_gdt i).
Proof. intros Hi. unfold percpu_setup_gdt. apply update_typed_d; [exact Hi|]. intros c Hc. by apply set_gdt_typed. Qed.
Lemma setup_tss_typed i : (i < 64)%nat → keeps_t anything (setup_tss i).
Proof. intros Hi. unfold setup_tss. apply update_typed_d; [exact Hi|]. intros c Hc. by apply set_tss_typed. Qed.
#[local] Hint Resolve load_gdt_typed setup_gdt_typed setup_tss_typed : keeps.

Lemma clear_typed p : keeps_t anything (clear_page p).
Proof. unfold clear_page. keep. Qed.
#[local] Hint Resolve clear_typed : keeps.

Lemma alloc_stacks_typed n : ∀ i, (i + n ≤ 64)%nat → keeps_t anything (alloc_stacks_loop i n).
Proof.
  induction n as [|n IH]; intros i Hi; cbn [alloc_stacks_loop]; [keep|].
  assert (valid_ref (Cpu i) ∧ (i < 64)%nat) as [Hr Hi'] by (cbn; lia). specialize (IH (S i) ltac:(lia)). destruct i; keep.
Qed.

Lemma apic_map_typed id index s : 0 ≤ id < 256 → -1 ≤ index < MAX_CPUS → typed d s →
  typed d (set_apic_map (<[Z.to_nat id := index]> (apic_to_cpu s)) s).
Proof.
  intros Hid Hi [H1 H2 H3 H4 H5 H6 H7 H8]. split; try done; cbn [set_apic_map apic_to_cpu]; [by rewrite length_insert|by apply Forall_insert].
Qed.

Lemma get_apic_id_typed : keeps_t (λ id, 0 ≤ id < 256) get_apic_id.
Proof. apply keeps_gets. intros s Hs. apply (ty_hw _ _ Hs). Qed.
#[local] Hint Resolve get_apic_id_typed : keeps.

Lemma init_bsp_typed total : 0 ≤ total → keeps_t anything (percpu_init_bsp total).
Proof.
  intros Ht. unfold percpu_init_bsp. eapply keeps_bind; [apply keeps_modify|intros _ _; eapply keeps_bind; [apply get_apic_id_typed|intros id Hid]].
  - intros s [H1 H2 H3 H4 H5 H6 H7 H8]. split; try done; cbn [ncpu apic_to_cpu].
    + unfold MAX_CPUS. destruct (Z.ltb_spec 64 total); lia.
    + apply Forall_replicate. unfold MAX_CPUS. lia.
  - eapply keeps_bind; [apply update_typed_d; [cbn; lia|]|intros _ _; apply keeps_modify].
    + intros c [_ _ [Hn1 Hn2] _ _ _ _ _ _ _ _]. split; first [exact Hid | exact zero_word | split; reflexivity | cbn; lia | split; done].
    + intros s Hs. destruct (apic_map_typed id 0 s Hid ltac:(unfold MAX_CPUS; lia) Hs). by split.
Qed.

Lemma init_ap_typed index : 0 ≤ index → keeps_t anything (percpu_init_ap index).
Proof.
  intros H0. unfold percpu_init_ap. apply keeps_get. intros s Hs. apply keeps_if; [keep|intros E]. apply orb_false_iff in E as [E _].
  apply Z.leb_gt in E. pose proof (ty_ncpu _ _ Hs) as Hn. unfold MAX_CPUS in Hn. assert (valid_ref (Cpu (Z.to_nat index))) as Hr by (cbn; lia).
  assert (Z.to_nat index < 64)%nat as Hi by lia.
  eapply keeps_bind; [apply get_apic_id_typed|intros id Hid]. eapply keeps_bind; [apply update_typed_d; [exact Hr|]|intros _ _].
  - intros c []. split; try done; try exact zero_word; cbn; unfold MAX_CPUS, FL_IF; lia.
  - eapply keeps_bind; [apply keeps_modify; intros s' Hs'; apply apic_map_typed; [exact Hid|unfold MAX_CPUS; lia|exact Hs']|keep].
Qed.

Lemma create_idle_typed f : Keeps kmem_typed word (create_idle_thread f).
Proof. unfold create_idle_thread. keep. Qed.
#[local] Hint Resolve create_idle_typed : keeps.

Lemma init_cpu_typed f : keeps_t anything (sched_init_cpu f).
Proof.
  unfold sched_init_cpu. eapply keeps_bind; [keep|]. intros r Hr. eapply keeps_bind.
  { apply update_typed_d; [exact Hr|]. intros c Hc. apply set_sched_typed; [apply Hc|]. apply set_queue_typed; [apply zero_word|lia|exact Hc]. }
  keep.
Qed.
End init.

(** ** The scheduler *)

(** The operations on a queue and the choice of a thread open no section. *)
Section bodies.
Context {LK : Linker} (d : Z) (v : bool * Z * bool * Z * list Z * list (Z * Z)).
Abbreviation keeps_t := (Keeps (typed_at d v)).

Lemma queue_add_typed r t : valid_ref r → keeps_t anything (runqueue_add_unlocked r t).
Proof. intros Hr. unfold runqueue_add_unlocked. keep. Qed.

Lemma unlink_typed r n : valid_ref r → keeps_t anything (runqueue_unlink r n).
Proof. intros Hr. unfold runqueue_unlink, unlink_links. keep. Qed.
#[local] Hint Resolve queue_add_typed unlink_typed : keeps.

Lemma remove_loop_typed fuel r t start : valid_ref r → ∀ n, keeps_t anything (remove_loop fuel r t start n).
Proof. intros Hr. induction fuel as [|fuel IH]; intros n; cbn [remove_loop]; keep. Qed.
#[local] Hint Resolve remove_loop_typed : keeps.

Lemma queue_remove_typed r t : valid_ref r → keeps_t anything (runqueue_remove_unlocked r t).
Proof. intros Hr. unfold runqueue_remove_unlocked. keep. Qed.
#[local] Hint Resolve queue_remove_typed : keeps.

Lemma get_next_loop_typed fuel r start : valid_ref r → ∀ n, keeps_t word (get_next_loop fuel r start n).
Proof. intros Hr. induction fuel as [|fuel IH]; intros n; cbn [get_next_loop]; keep. Qed.
#[local] Hint Resolve get_next_loop_typed : keeps.

Lemma queue_next_typed r : valid_ref r → keeps_t word (runqueue_get_next r).
Proof. intros Hr. unfold runqueue_get_next. keep. Qed.
#[local] Hint Resolve queue_next_typed : keeps.

Lemma get_next_typed : keeps_t word sched_get_next.
Proof. unfold sched_get_next. keep. Qed.
#[local] Hint Resolve get_next_typed : keeps.

Lemma migrate_typed fuel r r' start : valid_ref r → valid_ref r' → ∀ n, keeps_t anything (migrate_loop fuel r r' start n).
Proof. intros Hr Hr'. induction fuel as [|fuel IH]; intros n; cbn [migrate_loop]; keep. Qed.

Lemma remove_from_cpus_typed t n : ∀ i, (i + n ≤ 64)%nat → keeps_t anything (remove_from_cpus i n t).
Proof.
  induction n as [|n IH]; intros i Hi; cbn [remove_from_cpus]; [keep|]. assert (valid_ref (Cpu i)) as Hr by (cbn; lia).
  specialize (IH (S i) ltac:(lia)). keep.
Qed.

Lemma yield_typed : keeps_t anything sched_yield.
Proof. unfold sched_yield. keep. Qed.
Lemma exit_typed : keeps_t anything sched_exit.
Proof. unfold sched_exit. keep. Qed.
Lemma idle_yield_typed : keeps_t anything idle_yield.
Proof. unfold idle_yield. keep. Qed.
Lemma run_enter_typed : keeps_t anything sched_run_enter.
Proof. unfold sched_run_enter. keep. Qed.
Lemma tick_typed : keeps_t anything (let* cpu := mycpu in update cpu count_tick).
Proof. keep. Qed.
End bodies.
#[export] Hint Resolve queue_add_typed remove_from_cpus_typed get_next_typed migrate_typed yield_typed exit_typed idle_yield_typed
  run_enter_typed tick_typed : keeps.

Section sched.
Context {LK : Linker}.

Lemma run_round_typed d : Keeps (typed d) anything sched_run_round.
Proof. unfold sched_run_round, sti. keep. Qed.

(** ** With the scheduler's lock *)

Definition sched_typed (d : Z) (s : sched) : Prop := typed d (sc_sys s).

(** Inside the critical section. *)
Definition held_at d v (s : sched) : Prop := typed_at d v (sc_sys s) ∧ lk_word (sched_lock s) = 1.

Lemma on_sys_typed {A} d (Q : A → Prop) c : Keeps (typed d) Q c → Keeps (sched_typed d) Q (on_sys c).
Proof. intros Hc s Hs. unfold on_sys. specialize (Hc _ Hs). by destruct (c (sc_sys s)) as [[a k]| | |]. Qed.

Lemma on_sys_held {A} d v (Q : A → Prop) c : Keeps (typed_at d v) Q c → Keeps (held_at d v) Q (on_sys c).
Proof.
  intros Hc s [Hs Hl]. unfold on_sys. specialize (Hc _ Hs). destruct (c (sc_sys s)) as [[a k]| | |]; try done.
  destruct Hc. by split.
Qed.
#[local] Hint Resolve on_sys_typed on_sys_held : keeps.

(** [c] has defined behaviour from the states with [P] and leads to [P']. *)
Definition Leads (P P' : sched → Prop) (c : M sched ()) : Prop := ∀ s, P s →
  match c s with
  | Ret (_, s') => P' s'
  | Undef => False
  | Panic _ | OutOfFuel => True
  end.

Lemma leads_bind {A} (P P' : sched → Prop) (Q : A → Prop) c k :
  Keeps P Q c → (∀ a, Q a → Leads P P' (k a)) → Leads P P' (bind c k).
Proof.
  intros Hc Hk s Hs. unfold bind. specialize (Hc s Hs). destruct (c s) as [[a s']| | |]; try done.
  destruct Hc as [Hs' Ha]. by apply Hk.
Qed.

Lemma leads_get (P P' : sched → Prop) k : (∀ s, P s → Leads P P' (k s)) → Leads P P' (bind get k).
Proof. intros Hk s Hs. unfold bind, get. by apply (Hk s). Qed.

Lemma leads_panic (P P' : sched → Prop) c msg : Leads P P' c → Leads P P' (do* c in panic msg).
Proof. intros Hc s Hs. unfold bind. specialize (Hc s Hs). by destruct (c s) as [[a s']| | |]. Qed.

(** A critical section: its end is reached, and the lock released there, with as
    many sections open as before. *)
Lemma section_typed d c : d + 2 ≤ INT_MAX →
  (∀ v, Leads (held_at (d + 1) v) (sched_typed d) (with_sched_lock release_spinlock) → Leads (held_at (d + 1) v) (sched_typed d) c) →
  Keeps (sched_typed d) anything (do* with_sched_lock (acquire_spinlock 1) in c).
Proof.
  intros Hd Hc [lk ini sys] Hs. destruct (pushcli_typed d sys Hs ltac:(lia)) as (r & c0 & Hon & Hr & Ht & E & He).
  specialize (Hc (view (entered sys r c0))). unfold bind, with_sched_lock at 1. cbn [sched_lock sc_sys sched_initialized].
  unfold acquire_spinlock. rewrite (bind_ret _ _ _ _ _ E). cbn [spin xchg]. destruct (Z.eqb_spec (lk_word lk) 0) as [_|_]; [|done].
  unfold ret. change (u32 1) with 1.
  assert (Leads (held_at (d + 1) (view (entered sys r c0))) (sched_typed d) (with_sched_lock release_spinlock)) as Hrel.
  { intros s2 [Hs2 Hl2]. destruct (release_typed d sys r c0 (sched_lock s2) (sc_sys s2)) as (lk' & s3 & E3 & Hs3); [done..|].
    unfold with_sched_lock. by rewrite E3. }
  specialize (Hc Hrel (Sched (Spinlock 1 (lk_name lk)) ini (entered sys r c0))).
  destruct (c _) as [[[] s']| | |]; [split; [apply Hc|done]|done|apply Hc|done]; (split; [by split|done]).
Qed.

(** The indices that the searches return are in range. *)
Lemma least_loaded_range l : (length l ≤ 64)%nat → ∀ n i mn mc, 0 ≤ mc < 64 → 0 ≤ least_loaded_loop l i n mn mc < 64.
Proof.
  intros Hl. induction n as [|n IH]; intros i mn mc Hm; [done|]. cbn [least_loaded_loop]. destruct (l !! i) eqn:E; [|done].
  apply lookup_lt_Some in E. destruct (_ && _); apply IH; lia.
Qed.

Lemma balance_range l : (length l ≤ 64)%nat → ∀ n i a, 0 ≤ max_cpu a < 64 → 0 ≤ min_cpu a < 64 →
  0 ≤ max_cpu (balance_loop l i n a) < 64 ∧ 0 ≤ min_cpu (balance_loop l i n a) < 64.
Proof.
  intros Hl. induction n as [|n IH]; intros i a H1 H2; [done|]. cbn [balance_loop]. destruct (l !! i) eqn:E; [|done].
  apply lookup_lt_Some in E. destruct (started _); [|by apply IH]. apply IH; repeat case_match; cbn; lia.
Qed.

Lemma typed_length d s : typed d s → (length (percpus s) ≤ 64)%nat.
Proof. intros Hs. rewrite (ty_length _ _ Hs). unfold MAX_CPUS. lia. Qed.

Section locked.
Context (d : Z) (Hd : d + 2 ≤ INT_MAX).

Lemma enqueue_typed v i t : (i < 64)%nat → Leads (held_at (d + 1) v) (sched_typed d) (with_sched_lock release_spinlock) →
  Leads (held_at (d + 1) v) (sched_typed d) (do* on_sys (on_kmem (change_thread_state t RUNNABLE)) in
    do* on_sys (runqueue_add_unlocked (Cpu i) t) in with_sched_lock release_spinlock).
Proof using Type.
  intros Hi Hrel. assert (valid_ref (Cpu i)) as Hr by exact Hi.
  eapply leads_bind; [keep|intros _ _]. eapply leads_bind; [keep|intros _ _]. exact Hrel.
Qed.

Lemma add_typed t cpu : Keeps (sched_typed d) anything (sched_add_thread t cpu).
Proof using Hd.
  unfold sched_add_thread. apply keeps_if; [keep|intros _]. apply section_typed; [done|]. intros v Hrel. apply leads_get.
  intros s [[Hs _] _]. pose proof (ty_ncpu _ _ Hs) as Hn. unfold MAX_CPUS in Hn.
  destruct (Z.ltb_spec cpu 0); [|destruct (Z.leb_spec (ncpu (sc_sys s)) cpu)].
  - apply enqueue_typed; [|done].
    pose proof (least_loaded_range _ (typed_length _ _ Hs) (Z.to_nat (ncpu (sc_sys s))) 0 UINT32_MAX 0). unfold sched_find_least_loaded. lia.
  - by apply leads_panic.
  - apply enqueue_typed; [lia|done].
Qed.

Lemma remove_typed t : Keeps (sched_typed d) anything (sched_remove_thread t).
Proof using Hd.
  unfold sched_remove_thread. apply keeps_if; [keep|intros _]. apply section_typed; [done|]. intros v Hrel. apply leads_get.
  intros s [[Hs _] _]. pose proof (ty_ncpu _ _ Hs) as Hn. unfold MAX_CPUS in Hn.
  pose proof (remove_from_cpus_typed (d + 1) v t (Z.to_nat (ncpu (sc_sys s))) 0 ltac:(lia)) as H.
  eapply leads_bind; [keep|intros _ _]. exact Hrel.
Qed.

Lemma balance_typed : Keeps (sched_typed d) anything sched_balance.
Proof using Hd.
  unfold sched_balance. apply keeps_get. intros s Hs. cbv zeta.
  pose proof (balance_range _ (typed_length _ _ Hs) (Z.to_nat (ncpu (sc_sys s))) 0 (Loads 0 0 UINT32_MAX 0) ltac:(cbn; lia) ltac:(cbn; lia)) as [H1 H2].
  set (a := balance_loop _ _ _ _) in *. apply keeps_if; [keep|intros _]. apply section_typed; [done|]. intros v Hrel.
  assert (valid_ref (Cpu (Z.to_nat (max_cpu a))) ∧ valid_ref (Cpu (Z.to_nat (min_cpu a)))) as [R1 R2] by (cbn; lia).
  eapply leads_bind; [keep|intros c _]. eapply leads_bind; [keep|intros _ _]. exact Hrel.
Qed.
End locked.

(** ** Any sequence of operations *)

Context {PS : PercpuSymbol}.

Inductive operation :=
  | Op_init_bsp (total_cpus : Z) | Op_alloc_stacks | Op_init_ap (index : Z) | Op_pushcli | Op_popcli
  | Op_sched_init | Op_sched_init_cpu (idle_thread_func : Z) | Op_add_thread (thread cpu_index : Z) | Op_remove_thread (thread : Z)
  | Op_balance | Op_tick | Op_get_next | Op_yield | Op_exit | Op_idle_yield | Op_run_enter | Op_run_round.

Definition discard {S A} (c : M S A) : M S () := let* _ := c in ret ().

Definition operate (o : operation) : M sched () :=
  match o with
  | Op_init_bsp n => on_sys (percpu_init_bsp n)
  | Op_alloc_stacks => on_sys percpu_alloc_stacks
  | Op_init_ap i => on_sys (percpu_init_ap i)
  | Op_pushcli => on_sys pushcli
  | Op_popcli => on_sys popcli
  | Op_sched_init => sched_init
  | Op_sched_init_cpu f => on_sys (sched_init_cpu f)
  | Op_add_thread t i => sched_add_thread t i
  | Op_remove_thread t => sched_remove_thread t
  | Op_balance => sched_balance
  | Op_tick => on_sys (let* cpu := mycpu in update cpu count_tick)
  | Op_get_next => discard (on_sys sched_get_next)
  | Op_yield => discard (on_sys sched_yield)
  | Op_exit => discard (on_sys sched_exit)
  | Op_idle_yield => discard (on_sys idle_yield)
  | Op_run_enter => on_sys sched_run_enter
  | Op_run_round => discard (on_sys sched_run_round)
  end.

(** The arguments that C declares as unsigned are not negative. *)
Definition op_ok (o : operation) : Prop :=
  match o with Op_init_bsp n => 0 ≤ n | Op_init_ap i => 0 ≤ i | _ => True end.

Fixpoint operate_all (l : list operation) : M sched () :=
  match l with
  | [] => ret ()
  | o :: l => do* operate o in operate_all l
  end.

#[local] Hint Resolve run_round_typed init_cpu_typed add_typed remove_typed balance_typed : keeps.

Lemma alloc_typed d : Keeps (typed d) anything percpu_alloc_stacks.
Proof.
  unfold percpu_alloc_stacks. apply keeps_get. intros s Hs. pose proof (ty_ncpu _ _ Hs) as Hn. unfold MAX_CPUS in Hn.
  apply alloc_stacks_typed. lia.
Qed.

(** The sections that an operation leaves open. *)
Definition opens (o : operation) : Z := match o with Op_pushcli => 1 | _ => 0 end.
Definition opens_all (l : list operation) : Z := foldr (λ o n, opens o + n) 0 l.

Lemma operate_keeps d o : op_ok o → d + 2 ≤ INT_MAX → o ≠ Op_pushcli → Keeps (sched_typed d) anything (operate o).
Proof.
  intros Ho Hd Hne. destruct o; cbn [operate]; unfold discard; try solve [keep].
  - by apply on_sys_typed, init_bsp_typed.
  - apply on_sys_typed, alloc_typed.
  - by apply on_sys_typed, init_ap_typed.
  - done.
  - apply on_sys_typed, popcli_typed. lia.
  - by intros s Hs.
Qed.

Lemma operate_typed d o : op_ok o → d + 2 ≤ INT_MAX → Leads (sched_typed d) (sched_typed (d + opens o)) (operate o).
Proof.
  intros Ho Hd s Hs. assert (o = Op_pushcli ∨ o ≠ Op_pushcli ∧ opens o = 0) as [-> | [Hne ->]] by (destruct o; auto).
  - destruct (pushcli_typed d _ Hs ltac:(lia)) as (r & c & _ & _ & _ & E & He). cbn [operate opens]. unfold on_sys. by rewrite E.
  - pose proof (operate_keeps d o Ho Hd Hne s Hs) as H. rewrite Z.add_0_r. destruct (operate o s) as [[[] s']| | |]; try done. apply H.
Qed.

Lemma operate_all_typed l : Forall op_ok l → ∀ d, d + opens_all l + 2 ≤ INT_MAX →
  Leads (sched_typed d) (sched_typed (d + opens_all l)) (operate_all l).
Proof.
  induction 1 as [|o l Ho _ IH]; intros d Hd s Hs; cbn [operate_all opens_all foldr] in *; [by rewrite Z.add_0_r|].
  fold (opens_all l) in *. assert (0 ≤ opens o ∧ 0 ≤ opens_all l) as [H1 H2].
  { split; [by destruct o|]. clear. induction l as [|o l IH]; cbn; [done|]. fold (opens_all l). destruct o; cbn; lia. }
  pose proof (operate_typed d o Ho ltac:(lia) s Hs) as H. unfold bind. destruct (operate o s) as [[[] s']| | |]; try done.
  rewrite Z.add_assoc. apply IH; [lia|exact H].
Qed.

End sched.

(** ** Witness *)

(** The state in which the kernel is loaded, with a free list of two pages. *)
Definition loaded : sched :=
  Sched (Spinlock 0 "") false
    (System demo_kmem (replicate 64 percpu_zero) 0 (replicate 256 0) percpu_zero false (Processor 3 false (GdtPtr 0 0) 0 0 0)).

Lemma loaded_typed : sched_typed 0 loaded.
Proof.
  assert (cpu_typed 0 percpu_zero) as Hz by (split; try exact zero_word; cbn; unfold MAX_CPUS, FL_IF; lia).
  split; [vm_compute; split; congruence| |exact Hz|reflexivity|vm_compute; split; congruence|reflexivity| |vm_compute; split; congruence].
  - apply Forall_replicate. exact Hz.
  - apply Forall_replicate. unfold MAX_CPUS. lia.
Qed.

Definition loaded_operations : list operation :=
  [Op_init_bsp 100; Op_sched_init; Op_add_thread 0x300000 (-1); Op_balance; Op_run_enter; Op_run_round; Op_exit; Op_init_ap 70; Op_pushcli; Op_pushcli; Op_add_thread 0x200000 0; Op_tick; Op_popcli].

Definition loaded_result : outcome (() * sched) :=
  operate_all (LK := demo_linker) (PS := demo_percpu_symbol) loaded_operations loaded.

Lemma loaded_returns : match loaded_result with Ret _ => true | _ => false end = true.
Proof. vm_compute. reflexivity. Qed.

