(* ===== verification/ApStartup.v ===== *)
(** * Starting the other processors ([kernel/apic/ap_startup.c])

    The bootstrap processor copies the trampoline below 1 MB, and wakes each
    enabled processor of the table of [Madt.v] with the INIT-SIPI-SIPI sequence
    of [Lapic.v]; the woken processor runs [ap_entry].  The counter of started
    processors changes while the bootstrap processor waits: what its reads of
    it return is a parameter.  Delays are left out. *)

From S2P Require Import Prelude Memory Kalloc Paging PageTree Percpu Context SmpSched Lapic Ioapic Idt Acpi Madt.
From Stdlib Require Import Sorted.

Definition AP_TRAMPOLINE_ADDR : Z := 0x8000.
Definition AP_STACK_SIZE : Z := 0x4000.
Definition TRAMPOLINE_CR3 : Z := 0xE0.
Definition TRAMPOLINE_STACK : Z := 0xE8.
Definition TRAMPOLINE_ENTRY : Z := 0xF0.

(** The trampoline in the kernel image, the address of [ap_entry] and that of
    the idle function. *)
Class ApSymbols := {
  ap_trampoline_start : Z;
  ap_trampoline_size : Z;
  ap_entry_addr : Z;
  idle_func_addr : Z;
  trampoline_fits : 0 ≤ ap_trampoline_size ≤ PGSIZE;
  entry_range : 0 ≤ ap_entry_addr < 2 ^ 64
}.

(** [for (i = 0; i < n; i++) dest[i] = src[i];] *)
Fixpoint copy_loop (n : nat) (dest src : Z) (m : mem) : mem :=
  match n with
  | O => m
  | S n => copy_loop n (dest + 1) (src + 1) (store8 m dest (byte_at m src))
  end.

Record boot (D : Type) := Boot { b_kmem : kmem; b_lapic : lapic_driver D }.
#[global] Arguments Boot {D}.
#[global] Arguments b_kmem {D}.
#[global] Arguments b_lapic {D}.

Section ap.
Context {LK : Linker} {WS : WideShift} {AS : ApSymbols} {D : Type} {LB : LapicBus D}.

Definition boot_kmem {A} (c : M kmem A) : M (boot D) A := λ s,
  match c (b_kmem s) with
  | Ret (a, k) => Ret (a, Boot k (b_lapic s))
  | Panic msg => Panic msg
  | Undef => Undef
  | OutOfFuel => OutOfFuel
  end.
Definition boot_lapic {A} (c : M (lapic_driver D) A) : M (boot D) A := λ s,
  match c (b_lapic s) with
  | Ret (a, l) => Ret (a, Boot (b_kmem s) l)
  | Panic msg => Panic msg
  | Undef => Undef
  | OutOfFuel => OutOfFuel
  end.

Definition setup_trampoline (page_table : Z) : M kmem () :=
  do* map_low_memory page_table 0 (PGSIZE * 16) in
  do* (λ k, Ret ((), set_mem (copy_loop (Z.to_nat ap_trampoline_size) AP_TRAMPOLINE_ADDR
                                ap_trampoline_start (km_mem k)) k)) in
  do* wr64 (AP_TRAMPOLINE_ADDR + TRAMPOLINE_CR3) page_table in
  do* wr64 (AP_TRAMPOLINE_ADDR + TRAMPOLINE_STACK) 0 in
  wr64 (AP_TRAMPOLINE_ADDR + TRAMPOLINE_ENTRY) ap_entry_addr.

(** [for (int i = 0; i < 1000; i++) if (ap_started_count > old_count) return true;]
    where [polls] are the values read from [ap_started_count]. *)
Fixpoint poll_loop (n : nat) (i : nat) (polls : nat → Z) (old_count : Z) : bool :=
  match n with
  | O => false
  | S n => if old_count <? polls i then true else poll_loop n (S i) polls old_count
  end.

Definition start_ap (fuel : nat) (polls : nat → Z) (apic_id stack : Z) : M (boot D) bool :=
  do* boot_kmem (wr64 (AP_TRAMPOLINE_ADDR + TRAMPOLINE_STACK) (u64 (stack + AP_STACK_SIZE))) in
  let old_count := polls O in
  do* boot_lapic (lapic_send_init fuel apic_id) in
  do* boot_lapic (lapic_send_sipi fuel apic_id 0x08) in
  do* boot_lapic (lapic_send_sipi fuel apic_id 0x08) in
  ret (poll_loop 1000 1 polls old_count).

(** The stack for a processor, null when there is no page. *)
Definition ap_stack : M kmem Z :=
  let* stack := kalloc in
  if stack =? 0 then ret 0
  else
    do* kmemset stack 0 AP_STACK_SIZE in
    ret stack.

(** The loop over the [n] processors from [i] on; [env i] are the reads of the
    counter while processor [i] is started. *)
Fixpoint start_loop (fuel n i : nat) (env : nat → nat → Z) (md : madt) (bsp_apic_id started : Z)
    : M (boot D) Z :=
  match n with
  | O => ret started
  | S n =>
      match get_cpu_info md (Z.of_nat i) with
      | None => start_loop fuel n (S i) env md bsp_apic_id started
      | Some cpu =>
          if negb (ci_enabled cpu) then start_loop fuel n (S i) env md bsp_apic_id started
          else if ci_apic_id cpu =? bsp_apic_id then start_loop fuel n (S i) env md bsp_apic_id started
          else
            let* stack := boot_kmem ap_stack in
            if stack =? 0 then start_loop fuel n (S i) env md bsp_apic_id started
            else
              let* ok := start_ap fuel (env i) (ci_apic_id cpu) stack in
              start_loop fuel n (S i) env md bsp_apic_id (if ok then u32 (started + 1) else started)
      end
  end.

Definition start_all_aps (fuel : nat) (env : nat → nat → Z) (md : madt) (page_table : Z) : M (boot D) Z :=
  do* boot_kmem (setup_trampoline page_table) in
  let* bsp_apic_id := boot_lapic lapic_get_id in
  start_loop fuel (Z.to_nat (cpu_count md)) 0 env md bsp_apic_id 0.
End ap.

(** ** [ap_entry] *)

(** The processor that runs it: the scheduler's view, the table of interrupts
    with the APICs, and the two counters. *)
Record ap_state (DL DI P : Type) := ApState {
  a_sys : system;
  a_machine : machine DL DI P;
  next_cpu_index : Z;
  ap_started_count : Z
}.
#[global] Arguments ApState {DL DI P}.
#[global] Arguments a_sys {DL DI P}.
#[global] Arguments a_machine {DL DI P}.
#[global] Arguments next_cpu_index {DL DI P}.
#[global] Arguments ap_started_count {DL DI P}.

Section ap_entry.
Context {AS : ApSymbols} {PS : PercpuSymbol} {IS : IdtSymbols} {DL DI P : Type}.
Context {LB : LapicBus DL} {IB : IoapicBus DI} {PB : PortBus P}.
Abbreviation st := (ap_state DL DI P).

Definition ap_sys {A} (c : M system A) : M st A := λ s,
  match c (a_sys s) with
  | Ret (a, sys) => Ret (a, ApState sys (a_machine s) (next_cpu_index s) (ap_started_count s))
  | Panic msg => Panic msg
  | Undef => Undef
  | OutOfFuel => OutOfFuel
  end.
Definition ap_machine {A} (c : M (machine DL DI P) A) : M st A := λ s,
  match c (a_machine s) with
  | Ret (a, m) => Ret (a, ApState (a_sys s) m (next_cpu_index s) (ap_started_count s))
  | Panic msg => Panic msg
  | Undef => Undef
  | OutOfFuel => OutOfFuel
  end.

(** Up to the loop of the scheduler, whose rounds are [sched_run_round]. *)
Definition ap_entry (get_lapic_address : Z) : M st () :=
  let* my_index := λ s, Ret (next_cpu_index s,
    ApState (a_sys s) (a_machine s) (u32 (next_cpu_index s + 1)) (ap_started_count s)) in
  do* ap_sys (percpu_init_ap my_index) in
  do* ap_machine (on_lapic (lapic_init get_lapic_address)) in
  do* modify (λ s, ApState (a_sys s) (a_machine s) (next_cpu_index s) (u32 (ap_started_count s + 1))) in
  let* cpu := ap_sys mycpu in
  do* ap_machine setup_idt_ap in
  do* ap_sys (sched_init_cpu idle_func_addr) in
  do* ap_sys sti in
  let* cpu := ap_sys mycpu in
  do* ap_sys (update cpu (λ c, set_sched (idle_thread c) (scheduler_ctx c) true c)) in
  ap_sys sched_run_enter.
End ap_entry.

(** * Properties *)

Section stacks.
Context {LK : Linker}.

(** ** Stacks *)

(** [ap_stack] gives out one page but clears four. *)
Lemma ap_stack_result k p l :
  free_list k (p :: l) → Forall (λ q, q < p) l →
  ∃ k', ap_stack k = Ret (p, k') ∧ free_list k' l ∧
    only_changes (km_mem k) (km_mem k') p AP_STACK_SIZE ∧
    ∀ b, p ≤ b < p + AP_STACK_SIZE → byte_at (km_mem k') b = 0.
Proof.
  intros Hf Hlt. destruct (kalloc_rep k p l Hf) as (k1 & E1 & Hf1 & Hch1 & _).
  assert (page_ok p) as Hp by (destruct Hf as (_ & _ & Hpf); by inversion Hpf).
  pose proof (page_ok_nonzero _ Hp) as Hp0. apply Z.eqb_neq in Hp0.
  set (m2 := memset (km_mem k1) p 0 AP_STACK_SIZE).
  assert (only_changes (km_mem k1) m2 p AP_STACK_SIZE) as Hch2 by (by apply memset_changes).
  exists (set_mem m2 k1). split; [|split; [|split]].
  - unfold ap_stack. rewrite (bind_ret _ _ _ _ _ E1), Hp0. reflexivity.
  - eapply free_list_frame; [done|]. apply Forall_forall. intros q Hq.
    pose proof (proj1 (Forall_forall _ _) Hlt q Hq) as Hqp. cbv beta in Hqp.
    destruct (proj1 (Forall_forall _ _) (proj2 (proj2 Hf1)) q Hq) as [Hqm _]. destruct Hp as [Hpm _].
    eapply only_changes_agree; [exact Hch2|]. unfold PGSIZE in *. zlia.
  - eapply only_changes_trans; [|exact Hch2].
    eapply only_changes_sub; [exact Hch1|lia|unfold AP_STACK_SIZE, PGSIZE; lia].
  - intros b Hb. cbn [km_mem set_mem]. unfold m2. by rewrite memset_inside.
Qed.

Lemma ap_stack_empty k : free_list k [] → ap_stack k = Ret (0, k).
Proof. intros Hf. unfold ap_stack. by rewrite (bind_ret _ _ _ _ _ (kalloc_empty k Hf)). Qed.

(** The pages of a fresh allocator, which come from the top. *)
Lemma page_range_app p n k :
  page_range p (n + k) = page_range p n ++ page_range (p + PGSIZE * Z.of_nat n) k.
Proof.
  revert p. induction n as [|n IH]; intros p; cbn [page_range app Nat.add].
  - by replace (p + PGSIZE * Z.of_nat 0) with p by lia.
  - rewrite IH. by replace (p + PGSIZE + PGSIZE * Z.of_nat n) with (p + PGSIZE * Z.of_nat (S n)) by lia.
Qed.

Lemma rev_page_range_below p n : Forall (λ q, q < p + PGSIZE * Z.of_nat n) (rev (page_range p n)).
Proof.
  apply Forall_forall. intros q Hq. apply list_elem_of_In, in_rev, list_elem_of_In in Hq.
  apply page_range_elem in Hq as (i & Hi & ->). unfold PGSIZE. lia.
Qed.

Lemma rev_page_range_sorted p n : StronglySorted (λ a b, b < a) (rev (page_range p n)).
Proof.
  induction n as [|n IH]; [constructor|]. replace (S n) with (n + 1)%nat by lia.
  rewrite page_range_app, rev_app_distr. cbn [page_range rev app]. constructor; [done|].
  apply rev_page_range_below.
Qed.

(** The next free page, when it lies right above the stack, loses its link. *)
Lemma ap_stack_cuts k p l :
  free_list k (p :: p + PGSIZE :: l) → ∃ k', ap_stack k = Ret (p, k') ∧ free_list k' [p + PGSIZE].
Proof.
  intros Hf. destruct (kalloc_rep k p _ Hf) as (k1 & E1 & (Hc & _ & [Hq _]%Forall_cons) & _).
  assert (page_ok p) as Hp by (destruct Hf as (_ & _ & Hpf); by inversion Hpf).
  pose proof (page_ok_nonzero _ Hp) as Hp0. apply Z.eqb_neq in Hp0.
  exists (set_mem (memset (km_mem k1) p 0 AP_STACK_SIZE) k1). split.
  - unfold ap_stack. by rewrite (bind_ret _ _ _ _ _ E1), Hp0.
  - split; [|split; [apply NoDup_singleton|by apply Forall_singleton]]. cbn [chain] in Hc |- *.
    destruct Hc as [Hh _]. split; [exact Hh|]. apply load_zeros. intros b Hb. cbn [km_mem set_mem].
    rewrite memset_inside; [done|]. unfold AP_STACK_SIZE, PGSIZE in *. lia.
Qed.

(** C34. A stack for another processor overwrites pages that belong to others:
    [start_all_aps] allocates one page of 4 KB but clears 16 KB and hands out the
    end of these as the stack.  With the free list in descending order, which
    [kinit] builds, the three pages that were allocated before it are cleared,
    whatever their owners keep there in the meantime, and the stack lies in them.
    When the next free page lies right above it, as after two pages are freed
    from the top down, that page loses its link and is the last one of the free
    list: all the pages behind it are lost. *)
Theorem ap_stack_clobbers k base n (top := base + PGSIZE * (Z.of_nat n + 1)) :
  (free_list k (rev (page_range base (n + 4))) →
   ∃ q1 q2 q3 k1, alloc_n 3 k = Ret ([q3; q2; q1], k1) ∧
     q1 = top ∧ q2 = top + PGSIZE ∧ q3 = top + 2 * PGSIZE ∧
     ∀ k2, free_list k2 (rev (page_range base (n + 1))) →
       ∃ p k3, ap_stack k2 = Ret (p, k3) ∧ p = top - PGSIZE ∧
         (∀ b, q1 ≤ b < q3 + PGSIZE → byte_at (km_mem k3) b = 0) ∧
         p + AP_STACK_SIZE = q3 + PGSIZE) ∧
  ∀ k p l, free_list k (p :: p + PGSIZE :: l) →
    ∃ k', ap_stack k = Ret (p, k') ∧ free_list k' [p + PGSIZE].
Proof.
  split; [|apply ap_stack_cuts]. intros Hf. assert (rev (page_range base (n + 4)) =
    top + 2 * PGSIZE :: top + PGSIZE :: top :: rev (page_range base (n + 1))) as E.
  { replace (n + 4)%nat with (n + 1 + 3)%nat by lia. rewrite page_range_app, rev_app_distr.
    cbn [page_range rev app]. unfold top.
    f_equal; [unfold PGSIZE; lia|]. f_equal; [unfold PGSIZE; lia|]. f_equal. unfold PGSIZE. lia. }
  rewrite E in Hf. destruct (alloc_n_rep 3 k _ Hf) as (k1 & E1 & _); [cbn; lia|].
  exists top, (top + PGSIZE), (top + 2 * PGSIZE), k1. split; [exact E1|]. split; [done|]. split; [done|].
  split; [done|]. intros k2 Hf2.
  assert (rev (page_range base (n + 1)) = top - PGSIZE :: rev (page_range base n)) as E2.
  { rewrite page_range_app, rev_app_distr. cbn [page_range rev app]. f_equal. unfold top. lia. }
  rewrite E2 in Hf2. destruct (ap_stack_result k2 _ _ Hf2) as (k3 & E3 & _ & _ & H0).
  { eapply Forall_impl; [apply rev_page_range_below|]. intros q Hq. cbv beta in *. unfold top. lia. }
  exists (top - PGSIZE), k3. split; [done|]. split; [done|]. unfold AP_STACK_SIZE, PGSIZE in *.
  split; [|lia]. intros b Hb. apply H0. lia.
Qed.
End stacks.

(** ** The trampoline *)

Lemma copy_loop_byte n : ∀ dest src m b,
  src + Z.of_nat n ≤ dest ∨ dest + Z.of_nat n ≤ src →
  byte_at (copy_loop n dest src m) b =
  if decide (dest ≤ b < dest + Z.of_nat n) then byte_at m (src + (b - dest)) else byte_at m b.
Proof.
  induction n as [|n IH]; intros dest src m b Hdis; cbn [copy_loop]; [by rewrite decide_False by lia|].
  rewrite IH by lia. unfold store8. cbn [store].
  rewrite !byte_at_insert. pose proof (byte_at_range m src).
  destruct (decide (dest + 1 ≤ b < dest + 1 + Z.of_nat n)) as [H1|H1].
  - rewrite (decide_True (P := dest ≤ b < _)) by lia. rewrite decide_False by lia. f_equal. lia.
  - destruct (decide (dest ≤ b < dest + Z.of_nat (S n))) as [H2|H2].
    + assert (dest = b) as -> by lia. rewrite decide_True by done. rewrite u8_small by (rewrite Z.mod_small; lia).
      rewrite Z.mod_small by lia. f_equal. lia.
    + rewrite decide_False by lia. done.
Qed.

Section startup.
Context {LK : Linker} {WS : WideShift} {AS : ApSymbols}.

(** Memory below the kernel holds no free page. *)
Lemma low_frame k l m' :
  free_list k l → only_changes (km_mem k) m' AP_TRAMPOLINE_ADDR PGSIZE → free_list (set_mem m' k) l.
Proof.
  intros Hf Hch. eapply free_list_frame; [done|]. apply Forall_forall. intros q Hq.
  destruct (proj1 (Forall_forall _ _) (proj2 (proj2 Hf)) q Hq) as [_ Hq2].
  eapply only_changes_agree; [exact Hch|]. pose proof KEND_range.
  unfold AP_TRAMPOLINE_ADDR, PGSIZE, KSTART in *. lia.
Qed.

Lemma tramp_store m off v : 0 ≤ off → off + 8 ≤ PGSIZE →
  only_changes m (store64 m (AP_TRAMPOLINE_ADDR + off) v) AP_TRAMPOLINE_ADDR PGSIZE.
Proof. intros. eapply only_changes_sub; [apply store64_changes|lia..]. Qed.

(** [setup_trampoline] puts the code at 0x8000, with the page table and the
    entry point in the slots where the code looks for them. *)
Lemma setup_trampoline_result k l root :
  free_list k l → tree_ok (km_mem k) root l → (48 ≤ length l)%nat → 0 ≤ root < 2 ^ 64 →
  (∀ b, ap_trampoline_start ≤ b < ap_trampoline_start + ap_trampoline_size → unowned (km_mem k) root l b) →
  apart ap_trampoline_start ap_trampoline_size AP_TRAMPOLINE_ADDR PGSIZE →
  ∃ k' used l', setup_trampoline root k = Ret ((), k') ∧ l = used ++ l' ∧
    (length l ≤ length l' + 48)%nat ∧ free_list k' l' ∧
    (∀ i, 0 ≤ i < Z.min 0xE0 ap_trampoline_size →
       byte_at (km_mem k') (AP_TRAMPOLINE_ADDR + i) = byte_at (km_mem k) (ap_trampoline_start + i)) ∧
    load64 (km_mem k') (AP_TRAMPOLINE_ADDR + TRAMPOLINE_CR3) = root ∧
    load64 (km_mem k') (AP_TRAMPOLINE_ADDR + TRAMPOLINE_ENTRY) = ap_entry_addr ∧
    ∀ b, unowned (km_mem k) root l b → b < AP_TRAMPOLINE_ADDR ∨ AP_TRAMPOLINE_ADDR + PGSIZE ≤ b →
      byte_at (km_mem k') b = byte_at (km_mem k) b.
Proof.
  intros Hf Ht Hl Hroot Hsrc Hap. pose proof trampoline_fits as Hfit. pose proof entry_range as Hentry.
  destruct (map_low_memory_rep k l root 0 (PGSIZE * 16) 16 Hf Ht) as (k1 & l1 & E1 & Hf1 & Hs1 & Hl1 & [used Hu] & _);
    [done|lia|done|unfold PGSIZE; lia|lia|].
  set (n := Z.to_nat ap_trampoline_size).
  set (m2 := copy_loop n AP_TRAMPOLINE_ADDR ap_trampoline_start (km_mem k1)).
  assert (∀ b, byte_at m2 b = if decide (AP_TRAMPOLINE_ADDR ≤ b < AP_TRAMPOLINE_ADDR + Z.of_nat n)
    then byte_at (km_mem k1) (ap_trampoline_start + (b - AP_TRAMPOLINE_ADDR)) else byte_at (km_mem k1) b) as Hb2
    by (intros b; apply copy_loop_byte; unfold apart, n, AP_TRAMPOLINE_ADDR, PGSIZE in *; lia).
  assert (only_changes (km_mem k1) m2 AP_TRAMPOLINE_ADDR PGSIZE) as Hc2.
  { intros b Hb. rewrite Hb2, decide_False; [done|]. unfold n, PGSIZE in *. lia. }
  set (m3 := store64 m2 (AP_TRAMPOLINE_ADDR + TRAMPOLINE_CR3) root).
  set (m4 := store64 m3 (AP_TRAMPOLINE_ADDR + TRAMPOLINE_STACK) 0).
  set (m5 := store64 m4 (AP_TRAMPOLINE_ADDR + TRAMPOLINE_ENTRY) ap_entry_addr).
  assert (only_changes (km_mem k1) m5 AP_TRAMPOLINE_ADDR PGSIZE) as Hc5.
  { eapply only_changes_trans; [exact Hc2|].
    eapply only_changes_trans; [|eapply only_changes_trans]; apply tramp_store;
      unfold TRAMPOLINE_CR3, TRAMPOLINE_STACK, TRAMPOLINE_ENTRY, PGSIZE; lia. }
  exists (set_mem m5 k1), used, l1. split; [|split; [done|split; [lia|split; [|split; [|split; [|split]]]]]].
  - unfold setup_trampoline. rewrite (bind_ret _ _ _ _ _ E1). reflexivity.
  - by apply low_frame.
  - intros i Hi. cbn [km_mem set_mem]. transitivity (byte_at m2 (AP_TRAMPOLINE_ADDR + i)).
    { transitivity (byte_at m4 (AP_TRAMPOLINE_ADDR + i)); [|transitivity (byte_at m3 (AP_TRAMPOLINE_ADDR + i))];
        apply store64_changes; unfold TRAMPOLINE_CR3, TRAMPOLINE_STACK, TRAMPOLINE_ENTRY; lia. }
    rewrite Hb2, decide_True by (unfold n; lia).
    replace (AP_TRAMPOLINE_ADDR + i - AP_TRAMPOLINE_ADDR) with i by lia.
    apply Hs1. apply Hsrc. lia.
  - cbn [km_mem set_mem]. unfold m5, m4, m3, TRAMPOLINE_CR3, TRAMPOLINE_STACK, TRAMPOLINE_ENTRY.
    rewrite !load64_store64_other by lia. by apply load64_store64.
  - cbn [km_mem set_mem]. by apply load64_store64.
  - intros b Hb Hout. cbn [km_mem set_mem]. rewrite (Hc5 b Hout). by apply Hs1.
Qed.

(** ** Waking the processors *)

Context {D : Type} {LB : LapicBus D} {LC : LapicChip D}.

(** The sequence for one processor: INIT asserted and deasserted, and twice
    STARTUP with page 8. *)
Definition wake_ipis (apic_id : Z) : list (Z * Z) :=
  [(u8 apic_id, 0xC500); (u8 apic_id, 0x8500); (u8 apic_id, 0x608); (u8 apic_id, 0x608)].

(** The processors of the table from [i] on that are to be started. *)
Fixpoint to_start (md : madt) (bsp : Z) (n i : nat) : list (nat * Z) :=
  match n with
  | O => []
  | S n =>
      match get_cpu_info md (Z.of_nat i) with
      | Some c => if ci_enabled c && negb (ci_apic_id c =? bsp) then [(i, ci_apic_id c)] else []
      | None => []
      end ++ to_start md bsp n (S i)
  end.

(** One of the 1000 reads of the counter after the wake-up finds it above the
    read before it. *)
Definition came_up (polls : nat → Z) : Prop := ∃ n, (1 ≤ n ≤ 1000)%nat ∧ polls O < polls n.

Lemma poll_loop_true polls old n : ∀ i,
  poll_loop n i polls old = true ↔ ∃ j, (i ≤ j < i + n)%nat ∧ old < polls j.
Proof using Type.
  induction n as [|n IH]; intros i; cbn [poll_loop].
  { split; [done|]. intros (j & Hj & _). lia. }
  destruct (Z.ltb_spec old (polls i)) as [Hlt|Hge].
  - split; [|done]. intros _. exists i. split; [lia|done].
  - rewrite IH. split; intros (j & Hj & Hlt); exists j; (split; [|done]); [lia|].
    assert (j ≠ i) by (intros ->; lia). lia.
Qed.

Lemma came_up_poll polls : came_up polls ↔ poll_loop 1000 1 polls (polls O) = true.
Proof using Type. rewrite poll_loop_true. split; intros (j & Hj & Hlt); exists j; (split; [lia|done]). Qed.

#[global] Instance came_up_dec polls : Decision (came_up polls).
Proof using Type.
  refine (cast_if (decide (poll_loop 1000 1 polls (polls O) = true))); by rewrite came_up_poll.
Defined.

Lemma came_up_result polls : poll_loop 1000 1 polls (polls O) = bool_decide (came_up polls).
Proof using Type. apply eq_bool_prop_intro. rewrite bool_decide_spec, came_up_poll. apply Is_true_true. Qed.

Lemma start_ap_result fuel polls apic_id stack k l d :
  (max_polls < fuel)%nat → free_list k l →
  ∃ k' d', start_ap fuel polls apic_id stack (Boot k (LapicDriver lapic_base d)) =
      Ret (bool_decide (came_up polls), Boot k' (LapicDriver lapic_base d')) ∧ free_list k' l ∧
    ipis d' = ipis d ++ wake_ipis apic_id.
Proof.
  intros Hf Hfree. unfold start_ap.
  set (k1 := set_mem (store64 (km_mem k) (AP_TRAMPOLINE_ADDR + TRAMPOLINE_STACK) (u64 (stack + AP_STACK_SIZE))) k).
  rewrite (bind_ret _ _ _ () (Boot k1 (LapicDriver lapic_base d))) by done.
  destruct (effect_send_init fuel apic_id Hf d) as (d1 & E1 & _ & Hi1 & _).
  rewrite (bind_ret _ _ _ () (Boot k1 (LapicDriver lapic_base d1))) by (unfold boot_lapic; cbn [b_lapic]; by rewrite E1).
  destruct (effect_send_sipi fuel apic_id 8 Hf d1) as (d2 & E2 & _ & Hi2 & _).
  rewrite (bind_ret _ _ _ () (Boot k1 (LapicDriver lapic_base d2))) by (unfold boot_lapic; cbn [b_lapic]; by rewrite E2).
  destruct (effect_send_sipi fuel apic_id 8 Hf d2) as (d3 & E3 & _ & Hi3 & _).
  rewrite (bind_ret _ _ _ () (Boot k1 (LapicDriver lapic_base d3))) by (unfold boot_lapic; cbn [b_lapic]; by rewrite E3).
  exists k1, d3. split; [by rewrite <- came_up_result|]. split.
  - apply low_frame; [done|]. apply tramp_store; unfold TRAMPOLINE_STACK, PGSIZE; lia.
  - rewrite Hi3, Hi2, Hi1. rewrite <- !app_assoc. done.
Qed.

Lemma start_loop_result fuel env md bsp n : ∀ i k l d started,
  (max_polls < fuel)%nat → free_list k l → StronglySorted (λ a b, b < a) l →
  (length (to_start md bsp n i) ≤ length l)%nat → 0 ≤ started → started + Z.of_nat n < 2 ^ 32 →
  ∃ k' d', start_loop fuel n i env md bsp started (Boot k (LapicDriver lapic_base d)) =
      Ret (started + Z.of_nat (length (filter (λ x, came_up (env (fst x))) (to_start md bsp n i))),
        Boot k' (LapicDriver lapic_base d')) ∧
    ipis d' = ipis d ++ concat ((λ x, wake_ipis (snd x)) <$> to_start md bsp n i).
Proof.
  induction n as [|n IH]; intros i k l d started Hf Hfree Hsort Hlen H0 Hmax; cbn [start_loop to_start].
  { exists k, d. cbn. rewrite Z.add_0_r, app_nil_r. done. }
  cbn [to_start] in Hlen.
  destruct (get_cpu_info md (Z.of_nat i)) as [c|]; cbn [app] in Hlen |- *; [|apply (IH (S i) k l); (done || lia)].
  destruct (ci_enabled c); cbn [negb andb app] in Hlen |- *; [|apply (IH (S i) k l); (done || lia)].
  destruct (ci_apic_id c =? bsp); cbn [negb app] in Hlen |- *; [apply (IH (S i) k l); (done || lia)|].
  cbn [length] in Hlen. destruct l as [|p l]; cbn [length] in Hlen; [lia|].
  apply StronglySorted_inv in Hsort as [Hsort Hlt].
  destruct (ap_stack_result k p l Hfree Hlt) as (k1 & E1 & Hf1 & _).
  rewrite (bind_ret _ _ _ p (Boot k1 (LapicDriver lapic_base d))) by (unfold boot_kmem; cbn [b_kmem]; by rewrite E1).
  assert (page_ok p) as Hp by (destruct Hfree as (_ & _ & Hpf); by inversion Hpf).
  pose proof (page_ok_nonzero _ Hp) as Hp0. apply Z.eqb_neq in Hp0. rewrite Hp0.
  destruct (start_ap_result fuel (env i) (ci_apic_id c) p k1 l d Hf Hf1) as (k2 & d2 & E2 & Hf2 & Hi2).
  rewrite (bind_ret _ _ _ _ _ E2).
  destruct (IH (S i) k2 l d2 (if bool_decide (came_up (env i)) then u32 (started + 1) else started))
    as (k3 & d3 & E3 & Hi3); [done|done|done|lia|..].
  { case_bool_decide; [|done]. apply u32_range. }
  { case_bool_decide; [rewrite u32_small by lia|]; lia. }
  exists k3, d3. split.
  - rewrite E3. f_equal. f_equal. cbn [fst]. case_bool_decide as Ec.
    + rewrite filter_cons_True by done. cbn [length]. rewrite u32_small by lia. lia.
    + by rewrite filter_cons_False.
  - rewrite Hi3, Hi2. cbn [fmap list_fmap concat snd]. by rewrite app_assoc.
Qed.

(** Without another enabled processor only the trampoline is set up: the pages in
    use and the free list keep what they hold. *)
Lemma start_alone md bsp fuel env n : ∀ i started (s : boot D),
  to_start md bsp n i = [] → start_loop fuel n i env md bsp started s = Ret (started, s).
Proof using Type.
  induction n as [|n IH]; intros i started s Hnone; cbn [start_loop to_start] in *; [done|].
  destruct (get_cpu_info md (Z.of_nat i)) as [c|]; [|by apply IH].
  apply app_eq_nil in Hnone as [Hc Hn]. destruct (ci_enabled c); cbn [negb andb] in *; [|by apply IH].
  destruct (ci_apic_id c =? bsp); [by apply IH|done].
Qed.

Lemma start_all_alone fuel env md k l d root (bsp := u8 (Z.shiftr (lreg d LAPIC_ID) 24)) :
  free_list k l → tree_ok (km_mem k) root l → 0 ≤ root < 2 ^ 64 → (48 ≤ length l)%nat →
  to_start md bsp (Z.to_nat (cpu_count md)) 0 = [] →
  (∀ b, ap_trampoline_start ≤ b < ap_trampoline_start + ap_trampoline_size → unowned (km_mem k) root l b) →
  apart ap_trampoline_start ap_trampoline_size AP_TRAMPOLINE_ADDR PGSIZE →
  ∃ k' d' used l', start_all_aps fuel env md root (Boot k (LapicDriver lapic_base d)) =
      Ret (0, Boot k' (LapicDriver lapic_base d')) ∧
    l = used ++ l' ∧ (length l ≤ length l' + 48)%nat ∧ free_list k' l' ∧ ipis d' = ipis d ∧
    ∀ b, unowned (km_mem k) root l b → b < AP_TRAMPOLINE_ADDR ∨ AP_TRAMPOLINE_ADDR + PGSIZE ≤ b →
      byte_at (km_mem k') b = byte_at (km_mem k) b.
Proof.
  intros Hfree Htree Hroot Hlen Hnone Hsrc Hap.
  destruct (setup_trampoline_result k l root Hfree Htree Hlen Hroot Hsrc Hap)
    as (k1 & used & l1 & E1 & Hl & Hlen1 & Hf1 & _ & _ & _ & Hk).
  destruct (get_id_result d) as (d1 & E2 & _ & Hi1 & _). fold bsp in E2.
  exists k1, d1, used, l1. split; [|done]. unfold start_all_aps.
  rewrite (bind_ret _ _ _ () (Boot k1 (LapicDriver lapic_base d))) by (unfold boot_kmem; cbn [b_kmem]; by rewrite E1).
  rewrite (bind_ret _ _ _ bsp (Boot k1 (LapicDriver lapic_base d1))) by (unfold boot_lapic; cbn [b_lapic]; by rewrite E2).
  by apply start_alone.
Qed.

End startup.

(** ** Witnesses *)

(** Memory in which the pages [l] are chained. *)
Fixpoint chain_mem (l : list Z) (m : mem) : mem :=
  match l with
  | [] => m
  | p :: l' => store64 (chain_mem l' m) p (default 0 (hd_error l'))
  end.

Lemma chain_mem_other l m b : Forall (λ p, b < p) l → byte_at (chain_mem l m) b = byte_at m b.
Proof.
  induction l as [|p l IH]; cbn [chain_mem]; [done|]. intros [Hp Hl]%Forall_cons.
  rewrite <- IH by done. apply store64_changes. lia.
Qed.

Definition demo_free (n : nat) : list Z := rev (page_range 0x200000 n).
Definition demo_boot_kmem (n : nat) : kmem := Kmem (chain_mem (demo_free n) ∅) (default 0 (hd_error (demo_free n))).

Lemma demo_free_4 : free_list (LK := demo_linker) (demo_boot_kmem 4) (demo_free 4).
Proof.
  split; [vm_compute; repeat split|]. split; [apply (bool_decide_unpack _); vm_compute; exact I|].
  apply (bool_decide_unpack _). vm_compute. exact I.
Qed.
Lemma demo_free_1 : free_list (LK := demo_linker) (demo_boot_kmem 1) (demo_free 1).
Proof.
  split; [vm_compute; repeat split|]. split; [apply (bool_decide_unpack _); vm_compute; exact I|].
  apply (bool_decide_unpack _). vm_compute. exact I.
Qed.
Lemma demo_free_50 : free_list (LK := demo_linker) (demo_boot_kmem 50) (demo_free 50).
Proof.
  split; [vm_compute; repeat split|]. split; [apply (bool_decide_unpack _); vm_compute; exact I|].
  apply (bool_decide_unpack _). vm_compute. exact I.
Qed.

Lemma ap_stack_clobbers_witness :
  ∃ k1, alloc_n 3 (demo_boot_kmem 4) = Ret ([0x203000; 0x202000; 0x201000], k1) ∧
    ∃ k3, ap_stack (demo_boot_kmem 1) = Ret (0x200000, k3) ∧
      ∀ b, 0x201000 ≤ b < 0x204000 → byte_at (km_mem k3) b = 0.
Proof.
  destruct (proj1 (ap_stack_clobbers (LK := demo_linker) (demo_boot_kmem 4) 0x200000 0) demo_free_4)
    as (q1 & q2 & q3 & k1 & E1 & H1 & H2 & H3 & Hap).
  destruct (Hap (demo_boot_kmem 1) demo_free_1) as (p & k3 & E3 & Hp & Hz & _).
  vm_compute in H1, H2, H3, Hp. subst q1 q2 q3 p.
  exists k1. split; [exact E1|]. exists k3. split; [exact E3|]. exact Hz.
Defined.

(** A trampoline of 256 bytes at 0x140000. *)
Definition demo_ap_symbols : ApSymbols.
Proof.
  refine {| ap_trampoline_start := 0x140000; ap_trampoline_size := 256; ap_entry_addr := 0x101000;
            idle_func_addr := 0x102000 |}; unfold PGSIZE; lia.
Defined.

(** Two processors are enabled, the one with identifier 0 running. *)
Definition demo_cpus : madt :=
  Madt 0x9000 0xFEE00000 [mkCPUInfo 0 0 1 true true; mkCPUInfo 2 1 1 false true; mkCPUInfo 3 2 0 false false] 3 [] 0.

Lemma demo_free_above p : p ∈ demo_free 50 → 0x200000 ≤ p.
Proof.
  assert (Forall (λ p, 0x200000 ≤ p) (demo_free 50)) as Hall
    by (apply (bool_decide_unpack _); vm_compute; exact I).
  apply (proj1 (Forall_forall _ _) Hall).
Qed.

Lemma demo_root_zero i : index_ok i → load64 (km_mem (demo_boot_kmem 50)) (0x10000 + 8 * i) = 0.
Proof.
  intros Hi. apply load_zeros. intros b Hb. unfold index_ok in Hi. cbn [km_mem demo_boot_kmem].
  rewrite chain_mem_other; [done|]. apply Forall_forall. intros p Hp%demo_free_above. lia.
Qed.

Lemma demo_boot_tree : tree_ok (km_mem (demo_boot_kmem 50)) 0x10000 (demo_free 50).
Proof.
  apply empty_root_ok; [vm_compute; done..|apply (bool_decide_unpack _); vm_compute; exact I|].
  apply demo_root_zero.
Qed.

