(* ===== verification/Boot.v ===== *)
(** * From the boot loader to the kernel's page tables

    The tables that [x86_64/boot/boot.asm] sets up before it enters 64-bit
    mode, and the first steps of [kernel_main] on them: [kinit] frees the memory
    between the kernel and 2 MB, [kvminit] maps the memory up to 128 MB with
    tables taken from it. *)

From S2P Require Import Prelude Memory Kalloc Paging PageTree.

(** ** The tables of [boot.asm] *)

(** The four tables follow each other, from [p4_table] on, in the kernel's bss
    section. *)
Section setup.
Context {LK : Linker}.

Definition p3_table : Z := p4_table + 4096.
Definition p2_table : Z := p3_table + 4096.
Definition p1_table : Z := p2_table + 4096.

(** The loop [.map_p1_table], from the value [ecx] of the counter on. *)
Fixpoint map_p1_table (n : nat) (ecx : Z) (m : mem) : mem :=
  match n with
  | O => m
  | S n => map_p1_table n (ecx + 1) (store32 m (p1_table + ecx * 8) (Z.lor (u32 (0x1000 * ecx)) 3))
  end.

Definition page_tables_setup (m : mem) : mem :=
  let m := store32 m p4_table (Z.lor p3_table 3) in
  let m := store32 m p3_table (Z.lor p2_table 3) in
  let m := store32 m p2_table (Z.lor p1_table 3) in
  map_p1_table 512 0 m.
End setup.

(** * Properties *)

(** ** What the tables hold *)

Lemma load_split m n k : ∀ a,
  load m a (n + k) = load m a n + 256 ^ Z.of_nat n * load m (a + Z.of_nat n) k.
Proof.
  induction n as [|n IH]; intros a; cbn [load Nat.add].
  - change (256 ^ Z.of_nat 0) with 1. replace (a + Z.of_nat 0) with a by lia. lia.
  - rewrite IH. replace (a + 1 + Z.of_nat n) with (a + Z.of_nat (S n)) by lia.
    rewrite (Nat2Z.inj_succ n), Z.pow_succ_r by lia. lia.
Qed.

(** A 32-bit store into a word that is zero. *)
Lemma load64_store32_zero m a v :
  (∀ b, a ≤ b < a + 8 → byte_at m b = 0) → 0 ≤ v < 2 ^ 32 → load64 (store32 m a v) a = v.
Proof.
  intros Hz Hv. change (load64 (store32 m a v) a) with (load (store32 m a v) a 8).
  rewrite (load_split _ 4 4). change (Z.of_nat 4) with 4.
  assert (load (store32 m a v) (a + 4) 4 = 0) as ->.
  { apply (load_zeros _ (a + 4) 4). intros x Hx. unfold store32.
    rewrite (store_changes m a 4 v x) by lia. apply Hz. lia. }
  unfold store32. rewrite load_store_same. rewrite Z.mod_small by lia. lia.
Qed.

Lemma load64_store32_other m a v b :
  b + 8 ≤ a ∨ a + 4 ≤ b → load64 (store32 m a v) b = load64 m b.
Proof. intros. apply (load_store_other m a 4 v b 8). lia. Qed.

Section tables.
Context {LK : Linker} {WS : WideShift}.

(** An aligned address with the two low bits set is the entry the kernel
    itself writes for a writable page. *)
Lemma present_writable p :
  p mod PGSIZE = 0 → 0 ≤ p < 2 ^ 32 → Z.lor p 3 = encode_page_entry (flags_entry p PTE_W).
Proof.
  intros Hp Hr. rewrite encode_sum by apply flags_entry_wf. unfold flags_entry.
  cbn [pe_p pe_rw pe_us pe_pwt pe_pcd pe_a pe_d pe_rsvd pe_ign1 pe_address].
  rewrite pe_address_mask. unfold PGSIZE in *. rewrite Z.mod_small by zlia.
  replace p with (Z.shiftl (p / 4096) 12) at 1 by (rewrite Z.shiftl_mul_pow2 by lia; zlia).
  rewrite Z.lor_comm, lor_disjoint_add by lia.
  change (bit_set (Z.land PTE_W PTE_W)) with true. change (bit_set (Z.land PTE_W PTE_U)) with false.
  change (bit_set (Z.land PTE_W PTE_PWT)) with false. change (bit_set (Z.land PTE_W PTE_PCD)) with false.
  cbn [Z.b2z]. lia.
Qed.

Lemma map_p1_result n : ∀ ecx m,
  0 ≤ ecx → ecx + Z.of_nat n ≤ 512 →
  (∀ b, p1_table + 8 * ecx ≤ b < p1_table + 4096 → byte_at m b = 0) →
  only_changes m (map_p1_table n ecx m) p1_table PGSIZE ∧
  ∀ i, 0 ≤ i < 512 → load64 (map_p1_table n ecx m) (p1_table + 8 * i) =
    if decide (ecx ≤ i < ecx + Z.of_nat n) then Z.lor (u32 (0x1000 * i)) 3
    else load64 m (p1_table + 8 * i).
Proof.
  induction n as [|n IH]; intros ecx m H0 Hn Hz; cbn [map_p1_table].
  { split; [done|]. intros i Hi. rewrite decide_False by lia. done. }
  set (v := Z.lor (u32 (0x1000 * ecx)) 3). set (m1 := store32 m (p1_table + ecx * 8) v).
  assert (only_changes m m1 p1_table PGSIZE) as Hc1.
  { eapply only_changes_sub; [apply store_changes|unfold PGSIZE; lia..]. }
  destruct (IH (ecx + 1) m1) as [Hc2 Hl]; [lia|lia| |].
  { intros b Hb. unfold m1, store32. rewrite (store_changes m (p1_table + ecx * 8) 4 v b) by lia.
    apply Hz. lia. }
  split; [by eapply only_changes_trans|]. intros i Hi. rewrite Hl by done.
  destruct (decide (i = ecx)) as [->|Hne].
  - rewrite decide_False by lia. rewrite decide_True by lia. unfold m1.
    replace (p1_table + ecx * 8) with (p1_table + 8 * ecx) by lia. apply load64_store32_zero.
    + intros b Hb. apply Hz. lia.
    + unfold v. apply (lor_range _ _ 32); [lia|apply u32_range|lia].
  - unfold m1. rewrite load64_store32_other by lia. repeat case_decide; lia || done.
Qed.

Context (m : mem) (Hz : ∀ b, p4_table ≤ b < p4_table + 4 * PGSIZE → byte_at m b = 0).
Let m' := page_tables_setup m.

Lemma table_addresses : p3_table = p4_table + PGSIZE ∧ p2_table = p4_table + 2 * PGSIZE ∧
  p1_table = p4_table + 3 * PGSIZE ∧ KSTART ≤ p4_table < PHYSTOP ∧ p4_table + 4 * PGSIZE ≤ KEND.
Proof using Type.
  pose proof p4_range. pose proof KEND_range. unfold p1_table, p2_table, p3_table, PGSIZE in *. lia.
Qed.

(** The words of the four tables. *)
Lemma setup_words :
  (∀ k i, 0 ≤ k < 3 → index_ok i → load64 m' (p4_table + PGSIZE * k + 8 * i) =
     if decide (i = 0) then Z.lor (p4_table + PGSIZE * (k + 1)) 3 else 0) ∧
  (∀ i, index_ok i → load64 m' (p1_table + 8 * i) = Z.lor (PGSIZE * i) 3) ∧
  only_changes m m' p4_table (4 * PGSIZE).
Proof using Hz.
  pose proof table_addresses as (E3 & E2 & E1 & Hr & Hk). pose proof KEND_range as HK.
  pose proof p4_aligned as Hal. unfold index_ok, PGSIZE, KSTART, PHYSTOP in *.
  assert (∀ k, 0 < k ≤ 3 → 0 ≤ Z.lor (p4_table + 4096 * k) 3 < 2 ^ 32) as Hv
    by (intros k Hk'; apply (lor_range _ _ 32); lia).
  unfold m', page_tables_setup. rewrite E1, E2, E3.
  set (m1 := store32 m _ _). set (m2 := store32 m1 _ _). set (m3 := store32 m2 _ _).
  assert (∀ b, (b < p4_table ∨ p4_table + 4 ≤ b) → (b < p4_table + 4096 ∨ p4_table + 4100 ≤ b) →
    (b < p4_table + 2 * 4096 ∨ p4_table + 2 * 4096 + 4 ≤ b) → byte_at m3 b = byte_at m b) as Hb3.
  { intros b B1 B2 B3. unfold m3, m2, m1, store32.
    rewrite (store_changes _ (p4_table + 2 * 4096) 4 _ b) by lia.
    rewrite (store_changes _ (p4_table + 4096) 4 _ b) by lia.
    by rewrite (store_changes _ p4_table 4 _ b) by lia. }
  destruct (map_p1_result 512 0 m3) as [Hc Hl]; [lia|lia| |]; rewrite ?E1 in *; fold m3.
  { intros b Hb. rewrite Hb3 by lia. apply Hz. lia. }
  assert (∀ a, a + 8 ≤ p4_table + 3 * 4096 → load64 (map_p1_table 512 0 m3) a = load64 m3 a) as Hlow.
  { intros a Ha. apply load64_agree. eapply only_changes_agree; [exact Hc|unfold PGSIZE; lia]. }
  split; [|split].
  - intros k i Hk' Hi. rewrite Hlow by lia. case_decide as Hi0.
    + subst i. rewrite Z.add_0_r.
      assert (k = 0 ∨ k = 1 ∨ k = 2) as [-> | [-> | ->]] by lia.
      * rewrite Z.mul_0_r, Z.add_0_r. unfold m3, m2. rewrite !load64_store32_other by lia.
        apply load64_store32_zero; [intros b Hb; apply Hz; lia|apply (Hv 1); lia].
      * rewrite Z.mul_1_r. unfold m3. rewrite load64_store32_other by lia.
        replace (p4_table + 4096 * (1 + 1)) with (p4_table + 2 * 4096) by lia.
        apply load64_store32_zero; [|apply (Hv 2); lia]. intros b Hb. unfold m1, store32.
        rewrite (store_changes _ p4_table 4 _ b) by lia. apply Hz. lia.
      * replace (p4_table + 4096 * 2) with (p4_table + 2 * 4096) by lia.
        replace (p4_table + 4096 * (2 + 1)) with (p4_table + 3 * 4096) by lia.
        apply load64_store32_zero; [|apply (Hv 3); lia]. intros b Hb. unfold m2, m1, store32.
        rewrite (store_changes _ (p4_table + 4096) 4 _ b) by lia.
        rewrite (store_changes _ p4_table 4 _ b) by lia. apply Hz. lia.
    + apply (load_zeros _ _ 8). intros b Hb. rewrite Hb3 by lia. apply Hz. lia.
  - intros i Hi. rewrite Hl by done. rewrite decide_True by lia. rewrite u32_small by lia. done.
  - intros b Hb. rewrite Hc by (unfold PGSIZE; lia). apply Hb3; lia.
Qed.

(** The only tables are the four of [boot.asm]. *)
Lemma boot_child k i : 0 ≤ k < 3 → index_ok i →
  child m' (p4_table + PGSIZE * k) i = if decide (i = 0) then Some (p4_table + PGSIZE * (k + 1)) else None.
Proof using Hz WS.
  intros Hk Hi. destruct setup_words as (Hw & _). unfold child. rewrite Hw by done.
  pose proof table_addresses as (_ & _ & _ & Hr & Hend). pose proof KEND_range.
  pose proof p4_aligned as Hal. case_decide; [|done].
  unfold PGSIZE, KSTART, PHYSTOP in *.
  rewrite present_writable by (unfold PGSIZE; zlia). rewrite decode_encode by apply flags_entry_wf.
  cbn [pe_p flags_entry]. f_equal. rewrite entry_target_flags by lia. rewrite PGROUNDDOWN_eq.
  unfold PGSIZE. zlia.
Qed.

Lemma boot_table_at path t : path_ok path →
  table_at m' p4_table path = Some t ↔
  path = replicate (length path) 0 ∧ t = p4_table + PGSIZE * Z.of_nat (length path).
Proof using Hz WS.
  revert t. induction path as [|i path IH] using rev_ind; intros t Hok.
  { simpl. rewrite Z.mul_0_r, Z.add_0_r. naive_solver. }
  apply path_ok_snoc in Hok as (Hok & Hi & Hlen). rewrite table_at_snoc, length_app.
  cbn [length]. rewrite Nat.add_1_r, replicate_S_end, Nat2Z.inj_succ.
  destruct (table_at m' p4_table path) as [t'|] eqn:E; cbn [mbind option_bind].
  - destruct (proj1 (IH t' Hok) eq_refl) as [Hp ->]. rewrite boot_child by (done || lia).
    rewrite <- Hp. case_decide as H0.
    + subst i. split; [intros [= <-]; split; [done|lia]|]. by intros [_ ->].
    + split; [done|]. intros [Heq _]. by apply app_inj_2 in Heq as [_ [= Heq]].
  - split; [done|]. intros [Heq _]. apply app_inj_2 in Heq as [Heq _]; [|done].
    assert (None = Some (p4_table + PGSIZE * Z.of_nat (length path))) as [=].
    by apply (IH _ Hok).
Qed.

(** They form a well-formed tree, apart from any pages behind the kernel, and
    map the first 2 MB to themselves, writable. *)
Lemma boot_tree l : (∀ p, p ∈ l → KEND ≤ p) → tree_ok m' p4_table l.
Proof using Hz WS.
  intros Hl. pose proof table_addresses as (_ & _ & _ & Hr & Hend). pose proof KEND_range.
  pose proof p4_aligned as Hal. split.
  - intros path t Hok [_ ->]%boot_table_at; [|done]. destruct Hok as [_ Hlen].
    unfold PGSIZE, KSTART, PHYSTOP in *. split; zlia.
  - intros path path' t Hok Hok' [-> ->]%boot_table_at [-> Heq]%boot_table_at; [|done..].
    rewrite !length_replicate in *. f_equal. unfold PGSIZE in *. lia.
  - intros path t Hok [_ ->]%boot_table_at Hin; [|done]. destruct Hok as [_ Hlen].
    specialize (Hl _ Hin). unfold PGSIZE in *. lia.
Qed.

Lemma boot_mapping va :
  mapping m' p4_table va =
  if decide (on_pages va 0 INIT_PHYSTOP) then Some (flags_entry (vpn va * PGSIZE) PTE_W) else None.
Proof using Hz WS.
  destruct setup_words as (_ & Hw & _). pose proof table_addresses as (_ & _ & E1 & _ & _).
  assert (0 ≤ vpn va < 2 ^ 36) as Hv by (unfold vpn; zlia).
  assert (va_path va = [0; 0; 0] ↔ on_pages va 0 INIT_PHYSTOP) as Hpath.
  { unfold va_path, on_pages. rewrite !level_index_eq. unfold vpn, INIT_PHYSTOP, PGSIZE in *.
    split; [intros [= H3 H2 H1]|intros Ho; repeat f_equal]; simpl Z.pow in *; zlia. }
  assert (level_index va 0 = vpn va mod 512) as H0.
  { rewrite level_index_eq. unfold vpn, PGSIZE. simpl Z.pow. zlia. }
  unfold mapping, pte_of. destruct (table_at m' p4_table (va_path va)) as [t|] eqn:E.
  - apply boot_table_at in E as [Hp ->]; [|apply va_path_ok].
    rewrite decide_True by (apply Hpath, Hp). apply Hpath in Hp. cbn [mbind option_bind].
    change (Z.of_nat (length (va_path va))) with 3. rewrite <- (Z.mul_comm 3), <- E1.
    rewrite Hw by apply level_index_ok. rewrite H0.
    assert (vpn va mod 512 = vpn va) as -> by (unfold on_pages, INIT_PHYSTOP, PGSIZE in *; zlia).
    rewrite present_writable by (unfold on_pages, INIT_PHYSTOP, PGSIZE in *; zlia).
    rewrite decode_encode by apply flags_entry_wf. cbn [pe_p flags_entry]. by rewrite Z.mul_comm.
  - cbn [mbind option_bind]. rewrite decide_False; [done|]. intros Hp. apply Hpath in Hp.
    assert (None = Some (p4_table + PGSIZE * 3)) as [=]. rewrite <- E.
    apply boot_table_at; [apply va_path_ok|]. rewrite Hp. done.
Qed.
End tables.

(** ** [kvminit] *)

(** The indices of the two upper levels. *)
Definition upper (va : Z) : list Z := [level_index va 3; level_index va 2].

Lemma region_path va va' : va / 2 ^ 21 = va' / 2 ^ 21 → va_path va = va_path va'.
Proof.
  intros Heq. unfold va_path. rewrite !level_index_eq.
  assert (∀ k, 0 ≤ k → va / 2 ^ (21 + k) = va' / 2 ^ (21 + k)) as Hk.
  { intros k Hk. rewrite Z.pow_add_r, <- !Z.div_div by (try apply Z.pow_pos_nonneg; lia). by rewrite Heq. }
  change (12 + Z.of_nat 3 * 9) with (21 + 18). change (12 + Z.of_nat 2 * 9) with (21 + 9).
  change (12 + Z.of_nat 1 * 9) with (21 + 0). by rewrite !Hk by lia.
Qed.

Lemma gigabyte_path va va' : va / 2 ^ 30 = va' / 2 ^ 30 → upper va = upper va'.
Proof.
  intros Heq. unfold upper. rewrite !level_index_eq.
  change (12 + Z.of_nat 3 * 9) with (30 + 9). change (12 + Z.of_nat 2 * 9) with 30.
  rewrite Z.pow_add_r, <- !Z.div_div by (try apply Z.pow_pos_nonneg; lia). by rewrite Heq.
Qed.

Section kvm.
Context {LK : Linker} {WS : WideShift} {rep : kmem → list Z → Prop}.
Context `{!Allocator kalloc kfree rep}.

(** The pages [c] that a walk to [addr] and the first tables of [k] further
    regions of 2 MB in its gigabyte can take. *)
Definition affords (m : mem) (root addr : Z) (k c : nat) : Prop :=
  (pte_of m root addr ≠ None ∧ c = k) ∨
  (table_at m root (upper addr) ≠ None ∧ c = (k + 1)%nat) ∨
  c = (k + 3)%nat.

Lemma walk_loop_child level s t t' va alloc :
  child (km_mem s) t (level_index va (S level)) = Some t' →
  walk_loop (S level) t va alloc s = walk_loop level t' va alloc s.
Proof.
  unfold child. cbn [walk_loop]. erewrite bind_ret by done. destruct (pe_p _); [|done].
  by intros [= ->].
Qed.

Lemma walk_affords s l root addr k c :
  rep s l → tree_ok (km_mem s) root l → affords (km_mem s) root addr k c → (c ≤ length l)%nat →
  ∃ r s' l', walk root addr true s = Ret (r, s') ∧ tree_grows rep s s' root l l' ∧
    pte_of (km_mem s') root addr = Some r ∧ 0 < r ∧ (length l + k ≤ length l' + c)%nat.
Proof.
  intros Hr Ht Ha Hc. destruct Ha as [[Hp ->]|[[Hu ->]| ->]].
  - destruct (pte_of (km_mem s) root addr) as [pte|] eqn:E; [|done].
    exists pte, s, l. split; [by apply walk_existing|]. split; [by apply tree_grows_refl|].
    split; [done|]. split; [by eapply pte_pos|lia].
  - destruct (table_at (km_mem s) root (upper addr)) as [t|] eqn:E; [|done].
    destruct (walk_loop_alloc 1 s root l (upper addr) t addr Hr Ht E)
      as (r & s' & l' & Ew & Hg & Hl & Hres); [done|].
    exists r, s', l'. split.
    + rewrite <- Ew. unfold walk. unfold upper in E. cbn [table_at] in E.
      destruct (child (km_mem s) root (level_index addr 3)) as [t3|] eqn:E3; [|done]. cbn [mbind option_bind] in E.
      destruct (child (km_mem s) t3 (level_index addr 2)) as [t2|] eqn:E2; [|done]. injection E as ->.
      rewrite (walk_loop_child _ _ _ _ _ _ E3). by apply walk_loop_child.
    + split; [done|]. destruct Hres as [(_ & -> & Hlen)|[? ?]]; [lia|]. split_and!; [done..|lia].
  - destruct (walk_alloc s root l addr Hr Ht) as (r & s' & l' & Ew & Hg & Hl & Hres).
    exists r, s', l'. split; [done|]. split; [done|].
    destruct Hres as [(_ & -> & Hlen)|[? ?]]; [lia|]. split_and!; [done..|lia].
Qed.

Lemma table_upper m root va :
  table_at m root (va_path va) ≠ None → table_at m root (upper va) ≠ None.
Proof.
  unfold upper, va_path. cbn [table_at]. intros Hta E. apply Hta.
  destruct (child m root (level_index va 3)) as [t3|]; [|done]. cbn [mbind option_bind] in *.
  by destruct (child m t3 (level_index va 2)).
Qed.

(** The loop of [kvminit] inside the gigabyte [g], up to one page before
    [stop]; [k] regions of 2 MB follow the one of [addr]. *)
Lemma kvm_loop_rep g n : ∀ fuel s l root addr stop k c,
  rep s l → tree_ok (km_mem s) root l → addr mod PGSIZE = 0 → 0 ≤ addr →
  stop = addr + PGSIZE * (Z.of_nat n + 1) → stop ≤ 2 ^ 47 →
  2 ^ 30 * g ≤ addr → stop - PGSIZE ≤ 2 ^ 30 * (g + 1) →
  Z.of_nat k = (stop - PGSIZE - 1) / 2 ^ 21 - addr / 2 ^ 21 ∨ n = O →
  affords (km_mem s) root addr k c ∨ n = O → (c ≤ length l)%nat → (n < fuel)%nat →
  ∃ s' l', kvm_loop fuel root addr stop s = Ret ((), s') ∧ rep s' l' ∧
    tree_step s s' root l l' ∧ (length l ≤ length l' + c)%nat ∧ (∃ used, l = used ++ l') ∧
    range_mapped s s' root addr (stop - PGSIZE) addr PTE_W.
Proof.
  induction n as [|n IH]; intros [|fuel] s l root addr stop k c Hr Ht Ha H0 Hstop Hmax Hg1 Hg2 Hk Haf Hc Hf;
    try lia; cbn [kvm_loop]; rewrite u64_small by (unfold PGSIZE in *; lia).
  - rewrite (proj2 (Z.ltb_ge _ _)) by (unfold PGSIZE in *; lia). exists s, l.
    split_and!; [done..|by apply tree_step_refl|lia|by exists []|]. intros va. rewrite decide_False; [done|].
    unfold on_pages, PGSIZE in *. zlia.
  - rewrite (proj2 (Z.ltb_lt _ _)) by (unfold PGSIZE in *; lia).
    destruct Hk as [Hk|?]; [|done]. destruct Haf as [Haf|?]; [|done].
    destruct (walk_affords s l root addr k c Hr Ht Haf Hc) as (r & s1 & l1 & Ew & Hg & Hpte & Hpos & Hl1).
    rewrite (bind_ret _ _ _ _ _ Ew). rewrite (proj2 (Z.eqb_neq _ _)) by lia.
    destruct Hg as [Hr1 Ht1 [used1 ->] Hm1 Htab Hu1 Ha1].
    assert (tree_step s s1 root (used1 ++ l1) l1) as Hst1 by done.
    pose proof (flags_entry_wf addr PTE_W) as Hwf. pose proof (encode_range _ Hwf) as Henc.
    destruct (write_pte s1 l1 root addr r (encode_page_entry (flags_entry addr PTE_W)))
      as (s2 & Hs2 & Hr2 & Ht2 & Hm2); [done..|lia|].
    rewrite decode_encode in Hm2 by done. cbn [pe_p flags_entry] in Hm2.
    unfold init_entry. rewrite table_entry_flags, (bind_ret _ _ _ _ _ Hs2).
    assert (table_at (km_mem s2) root (va_path addr) ≠ None) as Hta.
    { intros E. pose proof (Hm2 addr) as Hx. rewrite decide_True in Hx by done.
      unfold mapping, pte_of in Hx. rewrite E in Hx. done. }
    destruct (IH fuel s2 l1 root (addr + PGSIZE) stop
      (if decide (addr / 2 ^ 21 = (addr + PGSIZE) / 2 ^ 21) then k else pred k) k)
      as (s' & l' & Hs' & Hr' & Ht' & Hl' & [used ->] & Hmap); try done.
    + apply Ht2.
    + unfold PGSIZE in *. zlia.
    + unfold PGSIZE in *. lia.
    + unfold PGSIZE in *. lia.
    + unfold PGSIZE in *. lia.
    + destruct n as [|n]; [by right|left]. unfold PGSIZE in *. case_decide; zlia.
    + destruct n as [|n]; [by right|left]. case_decide as Hreg.
      * left. split; [|done]. unfold pte_of. rewrite <- (region_path _ _ Hreg).
        by destruct (table_at (km_mem s2) root (va_path addr)).
      * right. left. split; [|unfold PGSIZE in *; zlia].
        rewrite (gigabyte_path _ addr) by (unfold PGSIZE in *; zlia).
        by apply table_upper.
    + lia.
    + lia.
    + exists s', l'. split; [done|]. split; [done|].
      split; [exact (tree_step_trans _ _ _ _ _ _ _ Hst1 (tree_step_trans _ _ _ _ _ _ _ Ht2 Ht'))|].
      split; [lia|]. split; [exists (used1 ++ used); by rewrite app_assoc|].
      eapply range_mapped_step; [done|unfold PGSIZE in *; lia|unfold PGSIZE in *; lia|unfold PGSIZE in *; zlia| |exact Hmap].
      intros va. rewrite Hm2, Hm1. done.
Qed.
End kvm.

(** ** [kinit] and [kvminit] on the tables of [boot.asm] *)

(** Memory that changes outside the tables of a tree leaves the tree alone. *)
Lemma tree_kept m m' root l :
  tree_ok m root l →
  (∀ path t, path_ok path → table_at m root path = Some t → agree m m' t PGSIZE) →
  (∀ path, path_ok path → table_at m' root path = table_at m root path) ∧ tree_ok m' root l ∧
  ∀ va, mapping m' root va = mapping m root va.
Proof.
  intros Ht Ha.
  assert (∀ t j, index_ok j → agree m m' t PGSIZE → agree m m' (t + 8 * j) 8) as Hsub.
  { intros t j Hj Hag. pose proof (entry_in_page t j Hj). eapply agree_sub; [exact Hag|lia..]. }
  assert (∀ path, path_ok path → table_at m' root path = table_at m root path) as Htab.
  { apply (table_at_unchanged m m' root l Ht). intros path t j Hp Hat.
    apply path_ok_snoc in Hp as (Hp & Hj & _). by eapply child_agree, Hsub, Ha. }
  split; [done|]. split.
  - destruct Ht as [T1 T2 T3]. split.
    + intros path t Hp. rewrite Htab by done. by apply T1.
    + intros path path' t Hp Hp'. rewrite !Htab by done. by apply T2.
    + intros path t Hp. rewrite Htab by done. by apply T3.
  - intros va. unfold mapping, pte_of. rewrite Htab by apply va_path_ok.
    destruct (table_at m root (va_path va)) as [t|] eqn:E; [|done]. cbn [mbind option_bind].
    rewrite (load64_agree m m'); [done|].
    eapply Hsub, Ha; [apply level_index_ok|apply va_path_ok|exact E].
Qed.

Section boot.
Context {LK : Linker} {WS : WideShift}.

(** The pages that the first call of [kinit] frees, in the order of the list. *)
Definition low_pages : list Z :=
  rev (page_range (PGROUNDUP KEND) (kinit_count (PGROUNDUP KEND) INIT_PHYSTOP)).

(** The steps of [kernel_main] that set up the page tables, on the tables that
    cr3 points to. *)
Definition boot_memory : M kmem Z :=
  do* kinit KEND INIT_PHYSTOP in
  kvminit p4_table INIT_PHYSTOP PHYSTOP.

Lemma low_pages_elem p : KEND ≤ INIT_PHYSTOP → p ∈ low_pages →
  page_ok p ∧ p + PGSIZE < INIT_PHYSTOP.
Proof.
  intros Hk Hp. unfold low_pages in Hp. rewrite list_elem_of_In, <- in_rev, <- list_elem_of_In, page_range_elem in Hp.
  destruct Hp as (i & Hi & ->). pose proof KEND_range. unfold page_ok, kinit_count in *.
  rewrite PGROUNDUP_eq in * by (unfold KSTART, PHYSTOP, PGSIZE in *; lia).
  unfold KSTART, PHYSTOP, INIT_PHYSTOP, PGSIZE in *. zlia.
Qed.

(** Freeing pages keeps a tree that they are not part of. *)
Lemma kinit_step s s' root l :
  tree_ok (km_mem s) root l → (∀ p, p ∈ l → p mod PGSIZE = 0) → changes_pages (km_mem s) (km_mem s') l →
  tree_step s s' root l l ∧ ∀ va, mapping (km_mem s') root va = mapping (km_mem s) root va.
Proof.
  intros Ht Hl Hch.
  destruct (tree_kept (km_mem s) (km_mem s') root l Ht) as (Htab & Ht' & Hm).
  { intros path t Hp Hat b Hb. apply Hch. intros q Hq.
    destruct (tree_pages _ _ _ Ht _ _ Hp Hat) as [_ Htm]. pose proof (tree_free _ _ _ Ht _ _ Hp Hat) as Htf.
    pose proof (pages_disjoint q t (Hl q Hq) Htm ltac:(congruence)). lia. }
  split; [|done]. split; [exact Ht'|]. split.
  - intros b [Hb1 Hb2]. split; [by apply Hch|]. split; [done|].
    intros path t Hp. rewrite Htab by done. by apply Hb2.
  - split; [|intros p Hp; by left]. intros path t Hp Hat. by rewrite Htab.
Qed.

Context (m : mem) (Hz : ∀ b, p4_table ≤ b < p4_table + 4 * PGSIZE → byte_at m b = 0).

Lemma boot_memory_result (s := Kmem (page_tables_setup m) 0) :
  KEND ≤ INIT_PHYSTOP → (63 ≤ length low_pages)%nat →
  ∃ s' l, boot_memory s = Ret (p4_table, s') ∧ free_list s' l ∧
    tree_step s s' p4_table low_pages l ∧ (∃ used, low_pages = used ++ l) ∧
    (length low_pages ≤ length l + 63)%nat ∧
    ∀ va, mapping (km_mem s') p4_table va =
      if decide (on_pages va 0 (PHYSTOP - PGSIZE)) then Some (flags_entry (vpn va * PGSIZE) PTE_W)
      else None.
Proof using Hz WS.
  intros Hk Hn. pose proof KEND_range as HK.
  assert (∀ p, p ∈ low_pages → KEND ≤ p) as Hlow by (intros p Hp; apply low_pages_elem in Hp as [[_ ?] _]; lia).
  pose proof (boot_tree m Hz low_pages Hlow) as Ht0.
  destruct (kinit_result s [] KEND INIT_PHYSTOP) as (s1 & E1 & Hf1 & Hc1);
    [split_and!; [done|apply NoDup_nil_2|apply Forall_nil_2]|lia| |unfold PHYSTOP, INIT_PHYSTOP in *; lia
    |intros ?? ?%not_elem_of_nil; done|].
  { rewrite PGROUNDUP_eq by (unfold KSTART, PHYSTOP, PGSIZE in *; lia).
    unfold KSTART, PHYSTOP, INIT_PHYSTOP, PGSIZE in *. zlia. }
  rewrite app_nil_r in Hf1. fold low_pages in Hf1.
  destruct (kinit_step s s1 p4_table low_pages Ht0) as [Hst1 Hm1];
    [intros p Hp; by apply low_pages_elem in Hp as [[? _] _]| |].
  { intros b Hb. apply Hc1. intros q Hq. apply Hb. unfold low_pages.
    by rewrite list_elem_of_In, <- in_rev, <- list_elem_of_In. }
  assert (PGROUNDUP INIT_PHYSTOP = INIT_PHYSTOP) as Hup by reflexivity.
  destruct (kvm_loop_rep 0 (Z.to_nat 32255) (range_fuel INIT_PHYSTOP PHYSTOP) s1 low_pages p4_table INIT_PHYSTOP PHYSTOP 62 63)
    as (s2 & l & E2 & Hf2 & Hst2 & Hl2 & Hu2 & Hm2); try done; try (unfold PHYSTOP, PGSIZE; lia).
  - apply Hst1.
  - by left.
  - left. right. left. split; [|done]. rewrite (gigabyte_path _ 0) by done. apply table_upper. intros E.
    pose proof (Hm1 0) as Hx. cbn [km_mem s] in Hx. rewrite (boot_mapping m Hz 0) in Hx.
    unfold mapping, pte_of in Hx. rewrite E in Hx. done.
  - unfold range_fuel, PHYSTOP, INIT_PHYSTOP, PGSIZE. zlia.
  - exists s2, l. split_and!; try done.
    + unfold boot_memory. rewrite (bind_ret _ _ _ _ _ E1). unfold kvminit. rewrite Hup.
      by rewrite (bind_ret _ _ _ _ _ E2).
    + by eapply tree_step_trans.
    + intros va. rewrite Hm2, Hm1. cbn [km_mem s]. rewrite (boot_mapping m Hz va).
      unfold frame_in, on_pages, PHYSTOP, INIT_PHYSTOP, PGSIZE in *.
      repeat case_decide; try done; try zlia. do 2 f_equal. zlia.
Qed.
(** What belongs to neither the boot tables nor the pages behind the kernel. *)
Lemma boot_unowned b :
  KEND ≤ INIT_PHYSTOP → b < p4_table ∨ p4_table + 4 * PGSIZE ≤ b → b < KEND ∨ INIT_PHYSTOP ≤ b →
  unowned (page_tables_setup m) p4_table low_pages b ∧ byte_at (page_tables_setup m) b = byte_at m b.
Proof using Hz WS.
  intros Hk Hb1 Hb2. split; [split|].
  - intros p Hp. apply low_pages_elem in Hp as [[_ ?] ?]; [|done]. unfold PGSIZE in *. lia.
  - intros path t Hok [_ ->]%(boot_table_at m Hz); [|done]. destruct Hok as [_ ?]. unfold PGSIZE in *. lia.
  - apply (setup_words m Hz). done.
Qed.
End boot.

Lemma vpn_small va : 0 ≤ va < 2 ^ 48 → vpn va = va / PGSIZE.
Proof. intros. unfold vpn. apply Z.mod_small. unfold PGSIZE. zlia. Qed.

(** A page mapped to itself. *)
Lemma identity_translate m root va flags :
  0 ≤ va < 2 ^ 48 → mapping m root va = Some (flags_entry (vpn va * PGSIZE) flags) →
  translate m root va = va.
Proof.
  intros Hva Hm. unfold translate. rewrite Hm, vpn_small by done.
  rewrite entry_target_flags by (unfold PGSIZE; zlia). rewrite frame_offset by (unfold PGSIZE; zlia).
  rewrite PGROUNDDOWN_eq. unfold PGSIZE. zlia.
Qed.

(** The first steps of [kernel_main], on the tables that [boot.asm] leaves:
    when at least 63 pages fit between the kernel and 2 MB, [kinit] and
    [kvminit] return the boot processor's tables, every address below 128 MB
    but those of the last page is then mapped to itself and no other address is
    mapped, the tables form a well-formed tree, the pages that were not used for
    tables (all but at most 63) are free, and memory outside the tables and the
    pages behind the kernel is not touched. *)
Theorem boot_memory_spec {LK : Linker} {WS : WideShift} m
    (s := Kmem (page_tables_setup m) 0) :
  (∀ b, p4_table ≤ b < p4_table + 4 * PGSIZE → byte_at m b = 0) →
  KEND ≤ INIT_PHYSTOP → (63 ≤ length low_pages)%nat →
  ∃ s' l used, boot_memory s = Ret (p4_table, s') ∧
    (∀ va, 0 ≤ va < PHYSTOP - PGSIZE → va_to_pa p4_table va s' = Ret (va, s')) ∧
    (∀ va, PHYSTOP - PGSIZE ≤ va < 2 ^ 48 → va_to_pa p4_table va s' = Ret (0, s')) ∧
    tree_ok (km_mem s') p4_table l ∧
    free_list s' l ∧ low_pages = used ++ l ∧ (length used ≤ 63)%nat ∧
    ∀ b, b < p4_table ∨ p4_table + 4 * PGSIZE ≤ b → b < KEND ∨ INIT_PHYSTOP ≤ b →
      byte_at (km_mem s') b = byte_at m b.
Proof.
  intros Hz Hk Hn.
  destruct (boot_memory_result m Hz Hk Hn) as (s' & l & E & Hf & (Ht & Hu & _) & [used Hl] & Hlen & Hm).
  assert (∀ va, 0 ≤ va < 2 ^ 48 → on_pages va 0 (PHYSTOP - PGSIZE) ↔ va < PHYSTOP - PGSIZE) as Hon.
  { intros va Hva. unfold on_pages. rewrite vpn_small by done. unfold PHYSTOP, PGSIZE. zlia. }
  exists s', l, used. split_and!; try done.
  - intros va Hva. rewrite (va_to_pa_rep _ _ _ _ Ht). do 2 f_equal.
    assert (0 ≤ va < 2 ^ 48) as Hva' by (unfold PHYSTOP, PGSIZE in *; lia).
    eapply identity_translate; [done|]. rewrite Hm. apply decide_True. apply Hon; [exact Hva'|apply Hva].
  - intros va Hva. rewrite (va_to_pa_rep _ _ _ _ Ht). unfold translate. rewrite Hm.
    rewrite decide_False; [done|]. rewrite Hon by (unfold PHYSTOP, PGSIZE in *; lia). lia.
  - rewrite Hl, length_app in Hlen. lia.
  - intros b Hb1 Hb2. destruct (boot_unowned m Hz b Hk Hb1 Hb2) as [Hun Hb].
    destruct (Hu b Hun) as [Heq _]. rewrite Heq. exact Hb.
Qed.

(** ** Witness *)

Lemma boot_memory_spec_witness :
  ∃ s', boot_memory (LK := demo_linker) (WS := x86_shl)
      (Kmem (page_tables_setup (LK := demo_linker) ∅) 0) = Ret (0x100000, s') ∧
    va_to_pa (WS := x86_shl) 0x100000 0x7ffe123 s' = Ret (0x7ffe123, s').
Proof.
  destruct (boot_memory_spec (LK := demo_linker) (WS := x86_shl) ∅) as (s' & l & used & H1 & H2 & _).
  - intros b _. reflexivity.
  - vm_compute. congruence.
  - apply Nat.leb_le. vm_compute. reflexivity.
  - exists s'. split; [exact H1|]. apply H2. vm_compute. split; congruence.
Defined.
