(* ===== verification/SelfTests.v ===== *)
(** * The kernel's self tests ([kernel/lib/src/test.c])

    The tests that the kernel runs on itself when it is built with TEST: of the
    page allocator, of the page tables and of memory that is reached through a
    mapping.  They are modelled as they are written, with their error paths: the
    loads and stores of a test, at test addresses and at the addresses of pages
    alike, go through the page tables.  The theorem is that every one of them
    reports success from a well-formed state with enough free pages in which the
    memory is identity mapped, and that they leave no mapping behind. *)

From S2P Require Import Prelude Memory Kalloc Paging PageTree Boot.

(** ** Access through the page tables

    A load or store at a virtual address goes where the tables say; without a
    mapping (or, for a store, without the permission) it faults. *)

Definition mmu (tbl va : Z) (write : bool) : M kmem Z := λ s,
  match mapping (km_mem s) tbl va with
  | Some e => if write && negb (pe_rw e) then Undef else Ret (translate (km_mem s) tbl va, s)
  | None => Undef
  end.

Definition vrd64 (tbl va : Z) : M kmem Z := let* pa := mmu tbl va false in rd64 pa.
Definition vwr64 (tbl va v : Z) : M kmem () := let* pa := mmu tbl va true in wr64 pa v.

Definition vrd8 (tbl va : Z) : M kmem Z := let* pa := mmu tbl va false in gets (λ s, byte_at (km_mem s) pa).

(** [memset], a byte at a time. *)
Fixpoint vmemset_loop (tbl byte_ptr byte_value : Z) (num : nat) : M kmem () :=
  match num with
  | O => ret ()
  | S num' =>
      let* pa := mmu tbl byte_ptr true in
      do* modify (λ s, set_mem (<[pa := byte_value]> (km_mem s)) s) in
      vmemset_loop tbl (byte_ptr + 1) byte_value num'
  end.
Definition vmemset (tbl ptr value num : Z) : M kmem () := vmemset_loop tbl ptr (u8 value) (Z.to_nat num).

(** ** The tests *)

Definition test_addition : M kmem bool :=
  let a := 1 in
  let b := 2 in
  ret (a + b =? 3).

Section tests.
Context {LK : Linker} {WS : WideShift}.
(** What [rcr3] returns. *)
Context (cr3 : Z).

Definition test_page_entry_encode_decode : M kmem bool :=
  let original := PageEntry true true false false false true false false 0 0x12345 0 false in
  let encoded := encode_page_entry original in
  let decoded := decode_page_entry encoded in
  ret (eqb (pe_p decoded) (pe_p original) && eqb (pe_rw decoded) (pe_rw original) &&
       eqb (pe_us decoded) (pe_us original) && (pe_address decoded =? pe_address original) &&
       eqb (pe_a decoded) (pe_a original)).

Definition test_page_entry_flags : M kmem bool :=
  let ro_entry := PageEntry true false false false false false false false 0 0x1000 0 false in
  let ro_decoded := decode_page_entry (encode_page_entry ro_entry) in
  if pe_rw ro_decoded || negb (pe_p ro_decoded) then ret false
  else
    let user_entry := PageEntry true true true false false false false false 0 0x2000 0 false in
    let user_decoded := decode_page_entry (encode_page_entry user_entry) in
    ret (pe_us user_decoded && pe_rw user_decoded).

Definition test_kalloc_returns_aligned_memory : M kmem bool :=
  let* page := kalloc in
  if page =? 0 then ret false
  else
    let is_aligned := page mod PGSIZE =? 0 in
    do* kfree page in
    ret is_aligned.

(** [kfree] of the pages of an array, in order. *)
Fixpoint free_pages (pages : list Z) : M kmem () :=
  match pages with
  | [] => ret ()
  | p :: pages => do* kfree p in free_pages pages
  end.

(** [n] calls of [kalloc] into an array that holds [pages] so far; when one
    fails, the pages are freed and the test fails. *)
Fixpoint alloc_pages (n : nat) (pages : list Z) : M kmem (option (list Z)) :=
  match n with
  | O => ret (Some pages)
  | S n =>
      let* p := kalloc in
      if p =? 0 then do* free_pages pages in ret None
      else alloc_pages n (pages ++ [p])
  end.

Definition counted : M kmem Z := λ s,
  match count_pages s with
  | Ret n => Ret (n, s)
  | Panic msg => Panic msg
  | Undef => Undef
  | OutOfFuel => OutOfFuel
  end.

Definition test_kalloc_kfree_consistency : M kmem bool :=
  let* initial_count := counted in
  let* pages := alloc_pages 5 [] in
  match pages with
  | None => ret false
  | Some pages =>
      let* after_alloc_count := counted in
      do* free_pages pages in
      let* after_free_count := counted in
      ret ((u64 (initial_count - after_alloc_count) =? 5) && (after_free_count =? initial_count))
  end.

(** [if (page) kfree(page)] *)
Definition free_if (page : Z) : M kmem () := if page =? 0 then ret () else kfree page.

Definition test_allocations_are_distinct : M kmem bool :=
  let* page1 := kalloc in
  let* page2 := kalloc in
  let* page3 := kalloc in
  if (page1 =? 0) || (page2 =? 0) || (page3 =? 0) then
    do* free_if page1 in
    do* free_if page2 in
    do* free_if page3 in
    ret false
  else
    let success := negb (page1 =? page2) && negb (page2 =? page3) && negb (page1 =? page3) in
    do* kfree page1 in
    do* kfree page2 in
    do* kfree page3 in
    ret success.

(** [c1 && c2], and the comparisons of the tests. *)
Definition and_then (c1 c2 : M kmem bool) : M kmem bool := let* b := c1 in if b then c2 else ret false.
Definition holds64 (va v : Z) : M kmem bool := let* x := vrd64 cr3 va in ret (x =? v).
Definition holds8 (va v : Z) : M kmem bool := let* x := vrd8 cr3 va in ret (x =? v).

Definition test_memory_write_read : M kmem bool :=
  let* page := kalloc in
  if page =? 0 then ret false
  else
    let test_pattern := 0xDEADBEEFCAFEBABE in
    do* vwr64 cr3 (page + 8 * 0) test_pattern in
    do* vwr64 cr3 (page + 8 * 100) (u64 (test_pattern + 1)) in
    do* vwr64 cr3 (page + 8 * 511) (u64 (test_pattern + 2)) in
    let* success :=
      and_then (and_then (holds64 (page + 8 * 0) test_pattern) (holds64 (page + 8 * 100) (u64 (test_pattern + 1))))
        (holds64 (page + 8 * 511) (u64 (test_pattern + 2))) in
    do* kfree page in
    ret success.

Definition test_memset_fills_correctly : M kmem bool :=
  let* page := kalloc in
  if page =? 0 then ret false
  else
    do* vmemset cr3 page 0xAB PGSIZE in
    let* success :=
      and_then (and_then (holds8 page 0xAB) (holds8 (page + PGSIZE / 2) 0xAB)) (holds8 (page + (PGSIZE - 1)) 0xAB) in
    do* kfree page in
    ret success.

Definition test_memory_isolation : M kmem bool :=
  let* page1 := kalloc in
  let* page2 := kalloc in
  if (page1 =? 0) || (page2 =? 0) then
    do* free_if page1 in
    do* free_if page2 in
    ret false
  else
    do* vmemset cr3 page1 0 PGSIZE in
    do* vmemset cr3 page2 0 PGSIZE in
    do* vwr64 cr3 page1 0x1234567890ABCDEF in
    let* success := holds64 page2 0 in
    do* kfree page1 in
    do* kfree page2 in
    ret success.

Definition test_cr3_valid_pagetable : M kmem bool := ret ((cr3 mod PGSIZE =? 0) && negb (cr3 =? 0)).

Definition test_walk_existing_mapping : M kmem bool :=
  let* entry := walk cr3 KSTART false in
  if entry =? 0 then ret false
  else
    let* raw := vrd64 cr3 entry in
    ret (pe_p (decode_page_entry raw)).

Definition test_walk_allocates_new_entry : M kmem bool :=
  let test_va := 0x400000000 in
  let* _ := walk cr3 test_va false in
  let* entry_with_alloc := walk cr3 test_va true in
  if entry_with_alloc =? 0 then ret false else ret (negb (entry_with_alloc =? 0)).

Definition test_map_page : M kmem bool :=
  let* phys_page := kalloc in
  if phys_page =? 0 then ret false
  else
    let test_va := 0x500000000 in
    let* result := map_page cr3 test_va phys_page PTE_W in
    if negb (result =? 0) then do* kfree phys_page in ret false
    else
      do* vwr64 cr3 test_va 0xCAFEBABEDEADBEEF in
      let* success := holds64 test_va 0xCAFEBABEDEADBEEF in
      let* success := and_then (ret success) (holds64 phys_page 0xCAFEBABEDEADBEEF) in
      do* unmap_page cr3 test_va in
      do* kfree phys_page in
      ret success.

Definition test_va_to_pa : M kmem bool :=
  let* phys_page := kalloc in
  if phys_page =? 0 then ret false
  else
    let test_va := 0x600000000 in
    let expected_pa := phys_page in
    let* result := map_page cr3 test_va expected_pa PTE_W in
    if negb (result =? 0) then do* kfree phys_page in ret false
    else
      let* translated_pa := va_to_pa cr3 test_va in
      let success := translated_pa =? expected_pa in
      let offset := 0x123 in
      let* translated_with_offset := va_to_pa cr3 (test_va + offset) in
      let success := success && (translated_with_offset =? u64 (expected_pa + offset)) in
      do* unmap_page cr3 test_va in
      do* kfree phys_page in
      ret success.

Definition test_unmap_page : M kmem bool :=
  let* phys_page := kalloc in
  if phys_page =? 0 then ret false
  else
    let test_va := 0x700000000 in
    let* result := map_page cr3 test_va phys_page PTE_W in
    if negb (result =? 0) then do* kfree phys_page in ret false
    else
      let* pa_before := va_to_pa cr3 test_va in
      if pa_before =? 0 then do* kfree phys_page in ret false
      else
        do* unmap_page cr3 test_va in
        let* pa_after := va_to_pa cr3 test_va in
        let success := pa_after =? 0 in
        do* kfree phys_page in
        ret success.

(** The loops of [test_map_pages_range] over the array, from the address [va] on:
    mapping (until one fails), writing [0x1000 + i], reading back (until one
    differs), cleaning up. *)
Fixpoint map_range (va : Z) (pages : list Z) : M kmem bool :=
  match pages with
  | [] => ret true
  | p :: pages =>
      let* result := map_page cr3 va p PTE_W in
      if negb (result =? 0) then ret false else map_range (va + PGSIZE) pages
  end.

Fixpoint write_range (va i : Z) (pages : list Z) : M kmem () :=
  match pages with
  | [] => ret ()
  | _ :: pages => do* vwr64 cr3 va (0x1000 + i) in write_range (va + PGSIZE) (i + 1) pages
  end.

Fixpoint check_range (i : Z) (pages : list Z) : M kmem bool :=
  match pages with
  | [] => ret true
  | p :: pages =>
      let* v := vrd64 cr3 p in
      if negb (v =? 0x1000 + i) then ret false else check_range (i + 1) pages
  end.

Fixpoint cleanup_range (va : Z) (pages : list Z) : M kmem () :=
  match pages with
  | [] => ret ()
  | p :: pages =>
      do* unmap_page cr3 va in
      do* kfree p in
      cleanup_range (va + PGSIZE) pages
  end.

Definition test_map_pages_range : M kmem bool :=
  let* phys_pages := alloc_pages 3 [] in
  match phys_pages with
  | None => ret false
  | Some phys_pages =>
      let test_va := 0x800000000 in
      let* success := map_range test_va phys_pages in
      let* success :=
        if success then
          do* write_range test_va 0 phys_pages in
          check_range 0 phys_pages
        else ret success in
      do* cleanup_range test_va phys_pages in
      ret success
  end.

(** ** Reports *)

Inductive report := OK | Failure | Skipped.

(** [CHECK] maps a result to 1 or -1. *)
Definition CHECK (test_fn : M kmem bool) : M kmem Z :=
  let* r := test_fn in
  ret (if r then 1 else -1).

(** [TEST_REPORT]: a macro, whose argument [status] is the call of the test; it
    is evaluated again for the second comparison. *)
Definition TEST_REPORT (status : M kmem Z) : M kmem report :=
  let* v := status in
  if 0 <? v then ret OK
  else
    let* v := status in
    if v <? 0 then ret Failure else ret Skipped.

Definition all_tests : list (M kmem bool) :=
  [test_addition; test_page_entry_encode_decode; test_page_entry_flags;
   test_kalloc_returns_aligned_memory; test_kalloc_kfree_consistency; test_allocations_are_distinct;
   test_memory_write_read; test_memset_fills_correctly; test_memory_isolation;
   test_cr3_valid_pagetable; test_walk_existing_mapping; test_walk_allocates_new_entry;
   test_map_page; test_va_to_pa; test_unmap_page; test_map_pages_range].

Fixpoint run_all (tests : list (M kmem bool)) : M kmem (list report) :=
  match tests with
  | [] => ret []
  | t :: tests =>
      let* r := TEST_REPORT (CHECK t) in
      let* rs := run_all tests in
      ret (r :: rs)
  end.

Definition run_tests : M kmem (list report) := run_all all_tests.
End tests.

(** * Properties *)

Section passing.
Context {LK : Linker} {WS : WideShift} (cr3 : Z).

(** The end of the memory that the kernel maps to itself. *)
Definition LIM : Z := PHYSTOP - PGSIZE.

(** The pages [l] are free, and the pages [hs] are held by a test: they are
    neither free nor tables.  All of them and the tables lie below [LIM]. *)
Record inv (s : kmem) (l hs : list Z) : Prop := {
  inv_free : free_list s l;
  inv_tree : tree_ok (km_mem s) cr3 l;
  inv_nodup : NoDup (hs ++ l);
  inv_held p : p ∈ hs → page_ok p ∧
    ∀ path t, path_ok path → table_at (km_mem s) cr3 path = Some t → t ≠ p;
  inv_low b : LIM ≤ b → unowned (km_mem s) cr3 l b;
  inv_held_low p : p ∈ hs → p + PGSIZE ≤ LIM
}.

(** All addresses are mapped as before. *)
Definition same (s s' : kmem) : Prop := ∀ va, mapping (km_mem s') cr3 va = mapping (km_mem s) cr3 va.

Lemma same_trans s1 s2 s3 : same s1 s2 → same s2 s3 → same s1 s3.
Proof using Type. intros H1 H2 va. by rewrite H2. Qed.

(** A change of one page that is not a table. *)
Lemma page_change s l hs p s' :
  inv s l hs → page_ok p → only_changes (km_mem s) (km_mem s') p PGSIZE →
  (∀ path t, path_ok path → table_at (km_mem s) cr3 path = Some t → t ≠ p) →
  tree_ok (km_mem s') cr3 l ∧ same s s' ∧
  (∀ path, path_ok path → table_at (km_mem s') cr3 path = table_at (km_mem s) cr3 path).
Proof using Type.
  intros Hi Hp Hch Ht. destruct (tree_kept (km_mem s) (km_mem s') cr3 l (inv_tree _ _ _ Hi)) as (T1 & T2 & T3); [|done].
  intros path t Hpath Hat. eapply only_changes_agree; [exact Hch|].
  destruct (tree_pages _ _ _ (inv_tree _ _ _ Hi) _ _ Hpath Hat) as [_ Htm].
  destruct (pages_disjoint t p Htm (proj1 Hp) (Ht _ _ Hpath Hat)); lia.
Qed.

Lemma tree_ok_sub m root l l' : tree_ok m root l → (∀ x, x ∈ l' → x ∈ l) → tree_ok m root l'.
Proof using Type.
  intros [T1 T2 T3] Hs. split; [done|done|]. intros path t Hp Hat Hin. by apply (T3 path t Hp Hat), Hs.
Qed.

Lemma kept_page m m' p hs :
  only_changes m m' p PGSIZE → page_ok p → Forall page_ok hs → (p ∉ hs) → pages_kept m m' hs.
Proof using Type. intros Hch Hp Hhs Hn. by apply (pages_kept_only_changes m m' p hs Hch (proj1 Hp)). Qed.

Lemma held_ok s l hs : inv s l hs → Forall page_ok hs.
Proof using Type. intros Hi. apply Forall_forall. intros p Hp. by apply (inv_held _ _ _ Hi). Qed.

Lemma inv_alloc s p l hs : inv s (p :: l) hs →
  ∃ s', kalloc s = Ret (p, s') ∧ inv s' l (p :: hs) ∧ same s s' ∧ pages_kept (km_mem s) (km_mem s') hs ∧ p ≠ 0.
Proof using Type.
  intros Hi. destruct (kalloc_rep s p l (inv_free _ _ _ Hi)) as (s' & E & Hf & Hch & _).
  pose proof (inv_free _ _ _ Hi) as (_ & _ & [Hp _]%Forall_cons).
  assert (∀ path t, path_ok path → table_at (km_mem s) cr3 path = Some t → t ≠ p) as Ht.
  { intros path t Hpath Hat ->. apply (tree_free _ _ _ (inv_tree _ _ _ Hi) _ _ Hpath Hat). left. }
  destruct (page_change s _ hs p s' Hi Hp Hch Ht) as (T1 & T2 & T3).
  assert (NoDup (p :: hs ++ l)) as Hnd by (rewrite Permutation_middle; apply (inv_nodup _ _ _ Hi)).
  exists s'. split; [exact E|]. split; [|split; [exact T2|split; [|by apply page_ok_nonzero]]].
  - split; [exact Hf| |exact Hnd| | |].
    + eapply tree_ok_sub; [exact T1|]. intros x Hx. by right.
    + intros q Hq. assert (page_ok q ∧ ∀ path t, path_ok path → table_at (km_mem s) cr3 path = Some t → t ≠ q) as [Q1 Q2].
      { apply elem_of_cons in Hq as [->|Hq]; [done|by apply (inv_held _ _ _ Hi)]. }
      split; [done|]. intros path t Hpath. rewrite T3 by done. by apply Q2.
    + intros b Hb. destruct (inv_low _ _ _ Hi b Hb) as [U1 U2].
      split; [intros q Hq; apply U1; by right|]. intros path t Hpath. rewrite T3 by done. by apply U2.
    + intros q [->|Hq]%elem_of_cons; [|by apply (inv_held_low _ _ _ Hi)].
      destruct (decide (p + PGSIZE ≤ LIM)) as [|Hgt]; [done|]. exfalso.
      destruct (inv_low _ _ _ Hi (p + PGSIZE - 1) ltac:(lia)) as [U1 _]. apply (U1 p ltac:(left)). unfold PGSIZE. lia.
  - eapply kept_page; [exact Hch|exact Hp|by eapply held_ok|].
    apply NoDup_cons in Hnd as [Hn _]. rewrite not_elem_of_app in Hn. tauto.
Qed.

Lemma inv_write s l hs p m' : inv s l hs → p ∈ hs → only_changes (km_mem s) m' p PGSIZE →
  inv (set_mem m' s) l hs ∧ same s (set_mem m' s).
Proof using Type.
  intros Hi Hp Hch. destruct (inv_held _ _ _ Hi p Hp) as [Hpok Ht].
  destruct (page_change s l hs p (set_mem m' s) Hi Hpok Hch Ht) as (T1 & T2 & T3). split; [|done]. split.
  - apply free_list_frame; [apply Hi|]. eapply kept_page; [exact Hch|exact Hpok|apply Hi|].
    pose proof (inv_nodup _ _ _ Hi) as Hnd. apply NoDup_app in Hnd as (_ & Hd & _). by apply Hd.
  - exact T1.
  - apply Hi.
  - intros q Hq. destruct (inv_held _ _ _ Hi q Hq) as [Q1 Q2]. split; [done|]. intros path t Hpath. rewrite T3 by done. by apply Q2.
  - intros b Hb. destruct (inv_low _ _ _ Hi b Hb) as [U1 U2]. split; [exact U1|]. intros path t Hpath. rewrite T3 by done. by apply U2.
  - apply Hi.
Qed.

Lemma inv_release s l hs1 p hs2 : inv s l (hs1 ++ p :: hs2) →
  ∃ s', kfree p s = Ret ((), s') ∧ inv s' (p :: l) (hs1 ++ hs2) ∧ same s s' ∧
    pages_kept (km_mem s) (km_mem s') (hs1 ++ hs2).
Proof using Type.
  intros Hi. destruct (inv_held _ _ _ Hi p) as [Hp Ht]; [apply elem_of_app; right; left|].
  assert (NoDup (p :: (hs1 ++ hs2) ++ l)) as Hnd.
  { pose proof (inv_nodup _ _ _ Hi) as H. rewrite <- Permutation_middle in H. done. }
  pose proof Hnd as Hnd'. apply NoDup_cons in Hnd' as [Hn _]. rewrite not_elem_of_app in Hn. destruct Hn as [Hnh Hnl].
  destruct (kfree_rep s p l (inv_free _ _ _ Hi) Hp Hnl) as (s' & E & Hf & Hch).
  destruct (page_change s l _ p s' Hi Hp Hch Ht) as (T1 & T2 & T3).
  assert (∀ q, q ∈ hs1 ++ hs2 → q ∈ hs1 ++ p :: hs2) as Hsub.
  { intros q. rewrite !elem_of_app, elem_of_cons. tauto. }
  exists s'. split; [exact E|]. split; [|split; [exact T2|]].
  - split; [exact Hf| | | | |].
    + destruct T1 as [A1 A2 A3]. split; [done|done|]. intros path t Hpath Hat. rewrite not_elem_of_cons.
      split; [|by eapply A3]. rewrite T3 in Hat by done. by eapply Ht.
    + rewrite <- Permutation_middle. exact Hnd.
    + intros q Hq. destruct (inv_held _ _ _ Hi q (Hsub q Hq)) as [Q1 Q2]. split; [done|].
      intros path t Hpath. rewrite T3 by done. by apply Q2.
    + intros b Hb. destruct (inv_low _ _ _ Hi b Hb) as [U1 U2]. split.
      * intros q [->|Hq]%elem_of_cons; [|by apply U1]. pose proof (inv_held_low _ _ _ Hi p ltac:(apply elem_of_app; right; left)). lia.
      * intros path t Hpath. rewrite T3 by done. by apply U2.
    + intros q Hq. by apply (inv_held_low _ _ _ Hi), Hsub.
  - eapply kept_page; [exact Hch|exact Hp| |done]. eapply (Forall_impl (λ q, page_ok q)); [|done].
    apply Forall_forall. intros q Hq. apply (inv_held _ _ _ Hi q (Hsub q Hq)).
Qed.

(** A held page is left alone by the operations on the tables. *)
Lemma held_unowned s l hs p b : inv s l hs → p ∈ hs → p ≤ b < p + PGSIZE → unowned (km_mem s) cr3 l b.
Proof using Type.
  intros Hi Hp Hb. destruct (inv_held _ _ _ Hi p Hp) as [Hpok Ht]. split.
  - intros q Hq Hbq. pose proof (inv_free _ _ _ Hi) as (_ & _ & Hl). pose proof (proj1 (Forall_forall _ _) Hl q Hq) as Hqok.
    pose proof (inv_nodup _ _ _ Hi) as Hnd. apply NoDup_app in Hnd as (_ & Hd & _).
    destruct (pages_disjoint p q (proj1 Hpok) (proj1 Hqok)); [intros ->; by apply (Hd q)|lia..].
  - intros path t Hpath Hat Hbt. destruct (tree_pages _ _ _ (inv_tree _ _ _ Hi) _ _ Hpath Hat) as [_ Htm].
    destruct (pages_disjoint t p Htm (proj1 Hpok) (Ht _ _ Hpath Hat)); lia.
Qed.

Lemma inv_tables s s' l l' hs : inv s l hs → free_list s' l' → tree_step s s' cr3 l l' →
  inv s' l' hs ∧ pages_kept (km_mem s) (km_mem s') hs.
Proof using Type.
  intros Hi Hf (Ht & Hu & _). assert (∀ p b, p ∈ hs → p ≤ b < p + PGSIZE →
    byte_at (km_mem s') b = byte_at (km_mem s) b ∧ unowned (km_mem s') cr3 l' b) as Hh.
  { intros p b Hp Hb. by apply Hu, (held_unowned s l hs p). }
  assert (∀ p, p ∈ hs → (p ∉ l') ∧ ∀ path t, path_ok path → table_at (km_mem s') cr3 path = Some t → t ≠ p) as Hp'.
  { intros p Hp. destruct (Hh p p Hp) as [_ [U1 U2]]; [unfold PGSIZE; lia|]. split.
    - intros Hin. apply (U1 p Hin). unfold PGSIZE. lia.
    - intros path t Hpath Hat ->. apply (U2 _ _ Hpath Hat). unfold PGSIZE. lia. }
  split; [split; [exact Hf|exact Ht| | | |]|].
  - pose proof (inv_nodup _ _ _ Hi) as Hnd. apply NoDup_app in Hnd as (H1 & _ & _). apply NoDup_app.
    split; [exact H1|]. split; [intros p Hp; by apply Hp'|apply Hf].
  - intros p Hp. split; [by apply (inv_held _ _ _ Hi)|by apply Hp'].
  - intros b Hb. apply Hu, (inv_low _ _ _ Hi b Hb).
  - apply Hi.
  - apply Forall_forall. intros p Hp b Hb. by apply (Hh p b Hp).
Qed.

Lemma inv_map s l hs va p : inv s l hs → p ∈ hs → mapping (km_mem s) cr3 va = None → (3 ≤ length l)%nat →
  ∃ s' l', map_page cr3 va p PTE_W s = Ret (0, s') ∧ inv s' l' hs ∧ pages_kept (km_mem s) (km_mem s') hs ∧
    (length l ≤ length l' + 3)%nat ∧ remapped s s' cr3 va (Some (flags_entry p PTE_W)).
Proof using Type.
  intros Hi Hp Hm Hlen. destruct (inv_held _ _ _ Hi p Hp) as [Hpok _].
  assert (0 ≤ p < 2 ^ 48) as Hpr.
  { destruct Hpok as [_ Hr]. pose proof KEND_range. unfold KSTART, PHYSTOP in *. lia. }
  destruct (map_page_rep s l cr3 va p PTE_W (inv_free _ _ _ Hi) (inv_tree _ _ _ Hi) Hpr)
    as (r & s' & l' & E & Hf & Hstep & Hl & Hres).
  destruct (inv_tables s s' l l' hs Hi Hf Hstep) as [Hi' Hk].
  destruct Hres as [(-> & _ & Hre)|[(_ & (e & He & _) & _)|(_ & Hlt & _)]]; [|congruence|lia].
  exists s', l'. split; [exact E|]. split; [exact Hi'|]. split; [exact Hk|]. split; [exact Hl|].
  assert (PGROUNDDOWN p = p) as Hpd; [|by rewrite Hpd in Hre].
  destruct Hpok as [Hpm _]. rewrite PGROUNDDOWN_eq. unfold PGSIZE in *. zlia.
Qed.

Lemma inv_unmap s l hs va : inv s l hs →
  ∃ s', unmap_page cr3 va s = Ret ((), s') ∧ inv s' l hs ∧ pages_kept (km_mem s) (km_mem s') hs ∧ remapped s s' cr3 va None.
Proof using Type.
  intros Hi. destruct (unmap_page_rep s l cr3 va (inv_free _ _ _ Hi) (inv_tree _ _ _ Hi)) as (s' & E & Hf & Hstep & Hre).
  destruct (inv_tables s s' l l hs Hi Hf Hstep) as [Hi' Hk]. by exists s'.
Qed.

(** ** The tests pass *)

(** The addresses that the tests map, which are not mapped before. *)
Definition test_vas : list Z :=
  [0x500000000; 0x600000000; 0x700000000; 0x800000000; 0x800001000; 0x800002000].

(** The memory below [LIM] is mapped to itself, and can be written. *)
Definition identity (s : kmem) : Prop := ∀ va, 0 ≤ va < LIM → ∃ flags,
  mapping (km_mem s) cr3 va = Some (flags_entry (vpn va * PGSIZE) flags) ∧ pe_rw (flags_entry (vpn va * PGSIZE) flags) = true.

Definition good (s : kmem) : Prop := identity s ∧ Forall (λ va, mapping (km_mem s) cr3 va = None) test_vas.

Lemma identity_same s s' : same s s' → identity s → identity s'.
Proof using Type. intros Hs Hid va Hva. rewrite Hs. by apply Hid. Qed.

(** Changes of the mapping above [LIM] leave it. *)
Lemma identity_above s s' : identity s →
  (∀ va, 0 ≤ va < LIM → mapping (km_mem s') cr3 va = mapping (km_mem s) cr3 va) → identity s'.
Proof using Type. intros Hid Ho va Hva. rewrite Ho by done. by apply Hid. Qed.

Lemma low_vpn va va' : 0 ≤ va < LIM → PHYSTOP ≤ va' < 2 ^ 48 → vpn va ≠ vpn va'.
Proof using Type. intros H1 H2. unfold LIM, PHYSTOP, PGSIZE in *. rewrite !vpn_small by lia. unfold PGSIZE. zlia. Qed.

Lemma mmu_identity s a w : identity s → 0 ≤ a < LIM → mmu cr3 a w s = Ret (a, s).
Proof using Type.
  intros Hid Ha. destruct (Hid a Ha) as (flags & Hm & Hw). unfold mmu. rewrite Hm, Hw, andb_false_r.
  rewrite (identity_translate _ _ a flags) by (done || unfold LIM, PHYSTOP, PGSIZE in *; lia). done.
Qed.

Lemma vrd_identity s a : identity s → 0 ≤ a < LIM → vrd64 cr3 a s = Ret (load64 (km_mem s) a, s).
Proof using Type. intros Hid Ha. unfold vrd64. by rewrite (bind_ret _ _ _ _ _ (mmu_identity s a false Hid Ha)). Qed.
Lemma vrd8_identity s a : identity s → 0 ≤ a < LIM → vrd8 cr3 a s = Ret (byte_at (km_mem s) a, s).
Proof using Type. intros Hid Ha. unfold vrd8. by rewrite (bind_ret _ _ _ _ _ (mmu_identity s a false Hid Ha)). Qed.
Lemma vwr_identity s a v : identity s → 0 ≤ a < LIM → vwr64 cr3 a v s = Ret ((), set_mem (store64 (km_mem s) a v) s).
Proof using Type. intros Hid Ha. unfold vwr64. by rewrite (bind_ret _ _ _ _ _ (mmu_identity s a true Hid Ha)). Qed.

Lemma holds_identity s a v : identity s → 0 ≤ a < LIM → load64 (km_mem s) a = v → holds64 cr3 a v s = Ret (true, s).
Proof using Type.
  intros Hid Ha Hv. unfold holds64. rewrite (bind_ret _ _ _ _ _ (vrd_identity s a Hid Ha)), Hv. unfold ret. by rewrite Z.eqb_refl.
Qed.
Lemma holds8_identity s a v : identity s → 0 ≤ a < LIM → byte_at (km_mem s) a = v → holds8 cr3 a v s = Ret (true, s).
Proof using Type.
  intros Hid Ha Hv. unfold holds8. rewrite (bind_ret _ _ _ _ _ (vrd8_identity s a Hid Ha)), Hv. unfold ret. by rewrite Z.eqb_refl.
Qed.
Lemma and_then_true c1 c2 (s : kmem) : c1 s = Ret (true, s) → c2 s = Ret (true, s) → and_then c1 c2 s = Ret (true, s).
Proof using Type. intros E1 E2. unfold and_then. by rewrite (bind_ret _ _ _ _ _ E1). Qed.

Lemma held_range s l hs p : inv s l hs → p ∈ hs → 0 < p ∧ p + PGSIZE ≤ LIM.
Proof using Type.
  intros Hi Hp. destruct (inv_held _ _ _ Hi p Hp) as [[_ Hr] _]. pose proof KEND_range. split; [unfold KSTART in *; lia|].
  by apply (inv_held_low _ _ _ Hi).
Qed.

Lemma vmemset_identity l hs p v n : ∀ s a, inv s l hs → p ∈ hs → identity s → p ≤ a → a + Z.of_nat n ≤ p + PGSIZE →
  vmemset_loop cr3 a v n s = Ret ((), set_mem (memset_loop (km_mem s) a v n) s).
Proof using Type.
  induction n as [|n IH]; intros s a Hi Hp Hid H1 H2; cbn [vmemset_loop memset_loop]; [by destruct s|].
  pose proof (held_range _ _ _ _ Hi Hp). rewrite (bind_ret _ _ _ _ _ (mmu_identity s a true Hid ltac:(lia))).
  set (s1 := set_mem (<[a := v]> (km_mem s)) s). rewrite (bind_ret _ _ s () s1) by done.
  destruct (inv_write s l hs p (<[a := v]> (km_mem s)) Hi Hp) as [Hi1 M1].
  { intros b Hb. rewrite byte_at_insert. rewrite decide_False by lia. done. }
  rewrite (IH s1 (a + 1) Hi1 Hp (identity_same _ _ M1 Hid)) by lia. done.
Qed.

Lemma good_same s s' : same s s' → good s → good s'.
Proof using Type.
  intros Hs [Hid Hn]. split; [by eapply identity_same|]. eapply Forall_impl; [exact Hn|]. intros va Hva. by rewrite Hs.
Qed.

Lemma good_va s va : good s → va ∈ test_vas → mapping (km_mem s) cr3 va = None.
Proof using Type. intros [_ Hn]. by apply (proj1 (Forall_forall _ _) Hn). Qed.

(** With twelve free pages the test succeeds; it leaves all but [u] of the pages
    free, and all mappings as they were. *)
Definition passes (t : M kmem bool) (u : nat) : Prop :=
  ∀ s l, inv s l [] → good s → (12 ≤ length l)%nat →
  ∃ s' l', t s = Ret (true, s') ∧ inv s' l' [] ∧ (length l ≤ length l' + u)%nat ∧ same s s'.

Lemma passes_pure t u : (∀ s, good s → t s = Ret (true, s)) → passes t u.
Proof using Type. intros Ht s l Hi Hg _. exists s, l. split; [by apply Ht|]. split; [done|]. split; [lia|done]. Qed.

Lemma pass_entries : passes test_page_entry_encode_decode 0 ∧ passes test_page_entry_flags 0.
Proof using Type.
  split; apply passes_pure; intros s _.
  - unfold test_page_entry_encode_decode. by rewrite decode_encode by (split_and!; simpl; lia || done).
  - unfold test_page_entry_flags. by rewrite !decode_encode by (split_and!; simpl; lia || done).
Qed.

Lemma pass_aligned : passes test_kalloc_returns_aligned_memory 0.
Proof using Type.
  intros s [|p l] Hi _ Hlen; [simpl in Hlen; lia|]. destruct (inv_alloc s p l [] Hi) as (s1 & E1 & Hi1 & M1 & _ & Hp).
  destruct (inv_held _ _ _ Hi1 p ltac:(left)) as [[Hpm _] _].
  destruct (inv_release s1 l [] p [] Hi1) as (s2 & E2 & Hi2 & M2 & _). exists s2, (p :: l).
  split; [|split; [done|split; [lia|by eapply same_trans]]].
  unfold test_kalloc_returns_aligned_memory. rewrite (bind_ret _ _ _ _ _ E1), (proj2 (Z.eqb_neq p 0)) by done.
  rewrite (bind_ret _ _ _ _ _ E2). by rewrite Hpm.
Qed.

Lemma inv_counted s l hs : inv s l hs → counted s = Ret (Z.of_nat (length l), s).
Proof using Type. intros Hi. unfold counted. by rewrite (count_pages_spec s l (inv_free _ _ _ Hi)). Qed.

Lemma alloc_pages_result n : ∀ s l hs, inv s l hs → (n ≤ length l)%nat →
  ∃ s', alloc_pages n hs s = Ret (Some (hs ++ take n l), s') ∧ inv s' (drop n l) (hs ++ take n l) ∧ same s s'.
Proof using Type.
  induction n as [|n IH]; intros s l hs Hi Hn.
  - exists s. rewrite take_0, app_nil_r. by split_and!.
  - destruct l as [|p l]; [simpl in Hn; lia|]. destruct (inv_alloc s p l hs Hi) as (s1 & E1 & Hi1 & M1 & _ & Hp).
    assert (inv s1 l (hs ++ [p])) as Hi1'.
    { destruct Hi1 as [A1 A2 A3 A4 A5 A6]. split; [done|done|by rewrite <- (Permutation_cons_append hs p)| |done|];
        intros q Hq; [apply A4|apply A6]; by rewrite <- (Permutation_cons_append hs p) in Hq. }
    destruct (IH s1 l (hs ++ [p]) Hi1') as (s' & E & Hi' & M'); [simpl in Hn; lia|].
    exists s'. cbn [alloc_pages take drop]. rewrite (bind_ret _ _ _ _ _ E1), (proj2 (Z.eqb_neq p 0)) by done.
    rewrite <- app_assoc in E, Hi'. split; [exact E|]. split; [exact Hi'|by eapply same_trans].
Qed.

Lemma free_pages_result hs : ∀ s l, inv s l hs →
  ∃ s', free_pages hs s = Ret ((), s') ∧ inv s' (rev hs ++ l) [] ∧ same s s'.
Proof using Type.
  induction hs as [|p hs IH]; intros s l Hi.
  - by exists s.
  - destruct (inv_release s l [] p hs Hi) as (s1 & E1 & Hi1 & M1 & _).
    destruct (IH s1 (p :: l) Hi1) as (s' & E & Hi' & M'). exists s'. cbn [free_pages rev].
    rewrite (bind_ret _ _ _ _ _ E1), <- app_assoc. split; [exact E|]. split; [exact Hi'|by eapply same_trans].
Qed.

Lemma pass_consistency : passes test_kalloc_kfree_consistency 0.
Proof using Type.
  intros s l Hi _ Hlen. destruct (alloc_pages_result 5 s l [] Hi) as (s1 & E1 & Hi1 & M1); [lia|].
  destruct (free_pages_result _ s1 _ Hi1) as (s2 & E2 & Hi2 & M2).
  assert (length (rev (take 5 l) ++ drop 5 l) = length l) as Hl2 by (rewrite length_app, length_rev, length_take, length_drop; lia).
  exists s2, (rev (take 5 l) ++ drop 5 l). split; [|split; [exact Hi2|split; [lia|by eapply same_trans]]].
  unfold test_kalloc_kfree_consistency.
  rewrite (bind_ret _ _ _ _ _ (inv_counted _ _ _ Hi)), (bind_ret _ _ _ _ _ E1), (bind_ret _ _ _ _ _ (inv_counted _ _ _ Hi1)).
  cbn [app]. rewrite (bind_ret _ _ _ _ _ E2), (bind_ret _ _ _ _ _ (inv_counted _ _ _ Hi2)).
  cbn [app]. rewrite Hl2, length_drop, Z.eqb_refl. unfold ret.
  replace (Z.of_nat (length l) - Z.of_nat (length l - 5)) with 5 by lia. done.
Qed.

Lemma pass_distinct : passes test_allocations_are_distinct 0.
Proof using Type.
  intros s [|p1 [|p2 [|p3 l]]] Hi _ Hlen; try (simpl in Hlen; lia).
  destruct (inv_alloc s _ _ _ Hi) as (s1 & E1 & Hi1 & M1 & _ & H1). destruct (inv_alloc s1 _ _ _ Hi1) as (s2 & E2 & Hi2 & M2 & _ & H2).
  destruct (inv_alloc s2 _ _ _ Hi2) as (s3 & E3 & Hi3 & M3 & _ & H3).
  pose proof (inv_nodup _ _ _ Hi3) as Hnd. cbn [app] in Hnd. rewrite !NoDup_cons, !not_elem_of_cons in Hnd.
  destruct Hnd as ((N1 & N2 & _) & (N3 & _) & _).
  destruct (inv_release s3 l [p3; p2] p1 [] Hi3) as (s4 & E4 & Hi4 & M4 & _).
  destruct (inv_release s4 _ [p3] p2 [] Hi4) as (s5 & E5 & Hi5 & M5 & _). destruct (inv_release s5 _ [] p3 [] Hi5) as (s6 & E6 & Hi6 & M6 & _).
  exists s6, (p3 :: p2 :: p1 :: l). split; [|split; [exact Hi6|split; [simpl; lia|]]].
  - unfold test_allocations_are_distinct. rewrite (bind_ret _ _ _ _ _ E1), (bind_ret _ _ _ _ _ E2), (bind_ret _ _ _ _ _ E3).
    rewrite (proj2 (Z.eqb_neq p1 0)), (proj2 (Z.eqb_neq p2 0)), (proj2 (Z.eqb_neq p3 0)) by done. cbn [orb].
    rewrite (bind_ret _ _ _ _ _ E4), (bind_ret _ _ _ _ _ E5), (bind_ret _ _ _ _ _ E6).
    by rewrite (proj2 (Z.eqb_neq p1 p2)), (proj2 (Z.eqb_neq p2 p3)), (proj2 (Z.eqb_neq p1 p3)) by congruence.
  - repeat (eapply same_trans; [eassumption|]). done.
Qed.

(** Stores into a held page. *)
Lemma inv_store s l hs p off v : inv s l hs → p ∈ hs → 0 ≤ off → off + 8 ≤ PGSIZE →
  inv (set_mem (store64 (km_mem s) (p + off) v) s) l hs ∧ same s (set_mem (store64 (km_mem s) (p + off) v) s).
Proof using Type.
  intros Hi Hp H1 H2. apply (inv_write s l hs p); [done|done|]. eapply only_changes_sub; [apply store64_changes|lia..].
Qed.

Lemma inv_memset s l hs p v : inv s l hs → p ∈ hs →
  inv (set_mem (memset (km_mem s) p v PGSIZE) s) l hs ∧ same s (set_mem (memset (km_mem s) p v PGSIZE) s).
Proof using Type. intros Hi Hp. apply (inv_write s l hs p); [done|done|]. by apply memset_changes. Qed.

Lemma vmemset_page s l hs p v : inv s l hs → p ∈ hs → identity s →
  vmemset cr3 p v PGSIZE s = Ret ((), set_mem (memset (km_mem s) p v PGSIZE) s).
Proof using Type. intros Hi Hp Hid. apply (vmemset_identity l hs p); [done..|lia|unfold PGSIZE; lia]. Qed.

Lemma pass_write_read : passes (test_memory_write_read cr3) 0.
Proof using Type.
  intros s [|p l] Hi [Hid _] Hlen; [simpl in Hlen; lia|]. destruct (inv_alloc s p l [] Hi) as (s1 & E1 & Hi1 & M1 & _ & Hp).
  assert (p ∈ [p]) as Hin by left. set (pat := 0xDEADBEEFCAFEBABE).
  destruct (inv_store s1 l [p] p (8 * 0) pat Hi1 Hin) as [Hi2 M2]; [unfold PGSIZE; lia..|]. set (s2 := set_mem _ s1) in *.
  destruct (inv_store s2 l [p] p (8 * 100) (u64 (pat + 1)) Hi2 Hin) as [Hi3 M3]; [unfold PGSIZE; lia..|]. set (s3 := set_mem _ s2) in *.
  destruct (inv_store s3 l [p] p (8 * 511) (u64 (pat + 2)) Hi3 Hin) as [Hi4 M4]; [unfold PGSIZE; lia..|]. set (s4 := set_mem _ s3) in *.
  destruct (inv_release s4 l [] p [] Hi4) as (s5 & E5 & Hi5 & M5 & _). exists s5, (p :: l).
  assert (load64 (km_mem s4) (p + 8 * 0) = pat ∧ load64 (km_mem s4) (p + 8 * 100) = u64 (pat + 1) ∧
    load64 (km_mem s4) (p + 8 * 511) = u64 (pat + 2)) as (L1 & L2 & L3).
  { subst s4 s3 s2. cbn [km_mem set_mem]. change (u64 (pat + 1)) with (pat + 1). change (u64 (pat + 2)) with (pat + 2). unfold pat.
    repeat first [rewrite load64_store64 by lia|rewrite load64_store64_other by lia]. done. }
  split; [|split; [exact Hi5|split; [lia|repeat (eapply same_trans; [eassumption|]); done]]].
  unfold test_memory_write_read. rewrite (bind_ret _ _ _ _ _ E1), (proj2 (Z.eqb_neq p 0)) by done. cbv zeta.
  pose proof (held_range _ _ _ _ Hi1 Hin) as Hr. unfold PGSIZE in Hr.
  pose proof (identity_same _ _ M1 Hid) as D1. pose proof (identity_same _ _ M2 D1) as D2.
  pose proof (identity_same _ _ M3 D2) as D3. pose proof (identity_same _ _ M4 D3) as D4.
  rewrite (bind_ret _ _ _ _ _ (vwr_identity s1 (p + 8 * 0) pat D1 ltac:(lia))). fold s2.
  rewrite (bind_ret _ _ _ _ _ (vwr_identity s2 (p + 8 * 100) _ D2 ltac:(lia))). fold s3.
  rewrite (bind_ret _ _ _ _ _ (vwr_identity s3 (p + 8 * 511) _ D3 ltac:(lia))). fold s4.
  rewrite (bind_ret _ _ s4 true s4); [by rewrite (bind_ret _ _ _ _ _ E5)|].
  apply and_then_true; [apply and_then_true|]; apply holds_identity; (done || lia).
Qed.

Lemma pass_memset : passes (test_memset_fills_correctly cr3) 0.
Proof using Type.
  intros s [|p l] Hi [Hid _] Hlen; [simpl in Hlen; lia|]. destruct (inv_alloc s p l [] Hi) as (s1 & E1 & Hi1 & M1 & _ & Hp).
  destruct (inv_memset s1 l [p] p 0xAB Hi1 ltac:(left)) as [Hi2 M2]. set (s2 := set_mem _ s1) in *.
  destruct (inv_release s2 l [] p [] Hi2) as (s3 & E3 & Hi3 & M3 & _). exists s3, (p :: l).
  assert (∀ b, p ≤ b < p + PGSIZE → byte_at (km_mem s2) b = 0xAB) as Hb.
  { intros b Hb. subst s2. cbn [km_mem set_mem]. by rewrite memset_inside. }
  split; [|split; [exact Hi3|split; [lia|repeat (eapply same_trans; [eassumption|]); done]]].
  unfold test_memset_fills_correctly. rewrite (bind_ret _ _ _ _ _ E1), (proj2 (Z.eqb_neq p 0)) by done.
  pose proof (held_range _ _ _ _ Hi1 ltac:(left)) as Hr. unfold PGSIZE in Hr.
  pose proof (identity_same _ _ M1 Hid) as D1. pose proof (identity_same _ _ M2 D1) as D2.
  rewrite (bind_ret _ _ _ _ _ (vmemset_page s1 l [p] p 0xAB Hi1 ltac:(left) D1)). fold s2.
  rewrite (bind_ret _ _ s2 true s2); [by rewrite (bind_ret _ _ _ _ _ E3)|].
  apply and_then_true; [apply and_then_true|]; (apply holds8_identity; [done|unfold PGSIZE; zlia|apply Hb; unfold PGSIZE; zlia]).
Qed.

Lemma pass_isolation : passes (test_memory_isolation cr3) 0.
Proof using Type.
  intros s [|p [|q l]] Hi [Hid _] Hlen; try (simpl in Hlen; lia).
  destruct (inv_alloc s _ _ _ Hi) as (s1 & E1 & Hi1 & M1 & _ & H1). destruct (inv_alloc s1 _ _ _ Hi1) as (s2 & E2 & Hi2 & M2 & _ & H2).
  assert (p ∈ [q; p] ∧ q ∈ [q; p]) as [Hpin Hqin] by (split; [right; left|left]).
  destruct (inv_memset s2 l [q; p] p 0 Hi2 Hpin) as [Hi3 M3]. set (s3 := set_mem _ s2) in *.
  destruct (inv_memset s3 l [q; p] q 0 Hi3 Hqin) as [Hi4 M4]. set (s4 := set_mem _ s3) in *.
  destruct (inv_store s4 l [q; p] p 0 0x1234567890ABCDEF Hi4 Hpin) as [Hi5 M5]; [unfold PGSIZE; lia..|]. rewrite Z.add_0_r in *.
  set (s5 := set_mem _ s4) in *.
  destruct (inv_release s5 l [q] p [] Hi5) as (s6 & E6 & Hi6 & M6 & _). destruct (inv_release s6 _ [] q [] Hi6) as (s7 & E7 & Hi7 & M7 & _).
  exists s7, (q :: p :: l). split; [|split; [exact Hi7|split; [simpl; lia|]]].
  2: { pose proof (same_trans _ _ _ M1 M2) as A. pose proof (same_trans _ _ _ M3 (same_trans _ _ _ M4 M5)) as B.
       exact (same_trans _ _ _ A (same_trans _ _ _ B (same_trans _ _ _ M6 M7))). }
  unfold test_memory_isolation. rewrite (bind_ret _ _ _ _ _ E1), (bind_ret _ _ _ _ _ E2).
  rewrite (proj2 (Z.eqb_neq p 0)), (proj2 (Z.eqb_neq q 0)) by done. cbn [orb].
  pose proof (held_range _ _ _ _ Hi2 Hpin) as Hrp. pose proof (held_range _ _ _ _ Hi2 Hqin) as Hrq. unfold PGSIZE in Hrp, Hrq.
  pose proof (identity_same _ _ (same_trans _ _ _ M1 M2) Hid) as D2. pose proof (identity_same _ _ M3 D2) as D3.
  pose proof (identity_same _ _ M4 D3) as D4. pose proof (identity_same _ _ M5 D4) as D5.
  rewrite (bind_ret _ _ _ _ _ (vmemset_page s2 l _ p 0 Hi2 Hpin D2)). fold s3.
  rewrite (bind_ret _ _ _ _ _ (vmemset_page s3 l _ q 0 Hi3 Hqin D3)). fold s4.
  rewrite (bind_ret _ _ _ _ _ (vwr_identity s4 p _ D4 ltac:(lia))). fold s5.
  rewrite (bind_ret _ _ s5 true s5); [by rewrite (bind_ret _ _ _ _ _ E6), (bind_ret _ _ _ _ _ E7)|].
  apply holds_identity; [done|lia|].
  pose proof (inv_nodup _ _ _ Hi5) as Hnd. cbn [app] in Hnd. apply NoDup_cons in Hnd as [Hn _]. rewrite not_elem_of_cons in Hn.
  destruct (inv_held _ _ _ Hi5 p Hpin) as [[Hpm _] _]. destruct (inv_held _ _ _ Hi5 q Hqin) as [[Hqm _] _].
  pose proof (pages_disjoint q p Hqm Hpm (proj1 Hn)) as Hd. subst s5. cbn [km_mem set_mem]. unfold PGSIZE in Hd.
  rewrite load64_store64_other by lia. apply (load_zeros _ q 8). intros b Hb. subst s4. cbn [km_mem set_mem].
  rewrite memset_inside by (unfold PGSIZE; lia); done.
Qed.

(** The entries of the tables lie in the memory that is mapped to itself. *)
Lemma pte_low s l hs va pte : inv s l hs → pte_of (km_mem s) cr3 va = Some pte → 0 ≤ pte < LIM.
Proof using Type.
  intros Hi Hpte. pose proof (pte_pos _ _ _ _ _ (inv_tree _ _ _ Hi) Hpte). split; [lia|].
  destruct (decide (pte < LIM)) as [|Hge]; [done|]. exfalso.
  destruct (inv_low _ _ _ Hi pte ltac:(lia)) as [_ U2]. unfold pte_of in Hpte.
  destruct (table_at (km_mem s) cr3 (va_path va)) as [t|] eqn:Et; [|done]. cbn in Hpte. injection Hpte as <-.
  apply (U2 _ _ (va_path_ok va) Et). pose proof (level_index_ok va 0) as Hx. unfold index_ok, PGSIZE in *. lia.
Qed.

Lemma pass_walks : cr3 mod PGSIZE = 0 → cr3 ≠ 0 →
  passes (test_cr3_valid_pagetable cr3) 0 ∧ passes (test_walk_existing_mapping cr3) 0 ∧
  passes (test_walk_allocates_new_entry cr3) 3.
Proof using Type.
  intros Hm H0. split; [|split].
  - apply passes_pure. intros s _. unfold test_cr3_valid_pagetable. by rewrite Hm, (proj2 (Z.eqb_neq cr3 0)).
  - intros s l Hi [Hid Hn] Hlen. destruct (Hid KSTART ltac:(unfold LIM, KSTART, PHYSTOP, PGSIZE; lia)) as (fl & He & _).
    exists s, l. split; [|split; [done|split; [lia|done]]].
    unfold test_walk_existing_mapping. rewrite (bind_ret _ _ _ _ _ (walk_pure s cr3 KSTART)).
    destruct (mapping_pte _ _ _ _ He) as (pte & Hpte & Hd & Hp). rewrite Hpte. cbn [from_option id].
    pose proof (pte_pos _ _ _ _ _ (inv_tree _ _ _ Hi) Hpte). rewrite (proj2 (Z.eqb_neq pte 0)) by lia.
    rewrite (bind_ret _ _ _ _ _ (vrd_identity s pte Hid ltac:(by eapply pte_low))). unfold ret. by rewrite Hd, Hp.
  - intros s l Hi Hg Hlen. destruct (walk_alloc s cr3 l 0x400000000 (inv_free _ _ _ Hi) (inv_tree _ _ _ Hi))
      as (r & s' & l' & E & Hgr & Hl & Hres). destruct Hres as [(_ & _ & Hlt)|[Hr _]]; [lia|].
    exists s', l'. unfold test_walk_allocates_new_entry. rewrite (bind_ret _ _ _ _ _ (walk_pure s cr3 _)), (bind_ret _ _ _ _ _ E).
    rewrite (proj2 (Z.eqb_neq r 0)) by lia. split; [done|]. split; [|split; [lia|intros va; apply Hgr]].
    eapply inv_tables; [exact Hi|apply Hgr|]. split; [apply Hgr|]. split; [intros b; apply Hgr|apply Hgr].
Qed.

(** ** Mapped pages *)

(** The page [p] is mapped at [va]. *)
Definition mapped (s : kmem) (va p : Z) : Prop := ∀ va', vpn va' = vpn va →
  mapping (km_mem s) cr3 va' = Some (flags_entry p PTE_W).

Lemma mapped_same s s' va p : same s s' → mapped s va p → mapped s' va p.
Proof using Type. intros Hs Hm va' Hva'. rewrite Hs. by apply Hm. Qed.

Lemma mapped_translate s va p va' : mapped s va p → page_ok p → vpn va' = vpn va →
  translate (km_mem s) cr3 va' = p + va' mod PGSIZE.
Proof using Type.
  intros Hm [Hp Hr] Hva'. unfold translate. rewrite (Hm va' Hva'). pose proof KEND_range. unfold KSTART, PHYSTOP in *.
  assert (PGROUNDDOWN p = p) as Hpd by (rewrite PGROUNDDOWN_eq; unfold PGSIZE in *; zlia).
  rewrite entry_target_flags by lia. rewrite Hpd. rewrite <- Hpd at 1. rewrite frame_offset by lia. by rewrite Hpd.
Qed.

(** A store through the mapping reaches the page. *)
Lemma vwr64_mapped s l hs va p v : inv s l hs → p ∈ hs → mapped s va p → va mod PGSIZE = 0 →
  let s' := set_mem (store64 (km_mem s) p v) s in
  vwr64 cr3 va v s = Ret ((), s') ∧ inv s' l hs ∧ same s s'.
Proof using Type.
  intros Hi Hp Hm Hva s'. destruct (inv_held _ _ _ Hi p Hp) as [Hpok _].
  destruct (inv_store s l hs p 0 v Hi Hp) as [Hi' M']; [unfold PGSIZE; lia..|]. rewrite Z.add_0_r in *. split; [|done].
  unfold vwr64, bind, mmu. rewrite (Hm va eq_refl), (mapped_translate s va p va Hm Hpok eq_refl), Hva, Z.add_0_r. done.
Qed.

Lemma vrd64_mapped s va p : page_ok p → mapped s va p → va mod PGSIZE = 0 → vrd64 cr3 va s = Ret (load64 (km_mem s) p, s).
Proof using Type.
  intros Hpok Hm Hva. unfold vrd64, bind, mmu.
  by rewrite (Hm va eq_refl), (mapped_translate s va p va Hm Hpok eq_refl), Hva, Z.add_0_r.
Qed.

Lemma va_to_pa_mapped s l hs va p va' : inv s l hs → p ∈ hs → mapped s va p → vpn va' = vpn va →
  va_to_pa cr3 va' s = Ret (p + va' mod PGSIZE, s).
Proof using Type.
  intros Hi Hp Hm Hva'. rewrite (va_to_pa_rep s l) by apply Hi. rewrite (mapped_translate s va p) by (done || by apply (inv_held _ _ _ Hi)). done.
Qed.

(** What the three tests with one page start with, and what they end with. *)
Lemma map_fresh s l va : inv s l [] → mapping (km_mem s) cr3 va = None → (4 ≤ length l)%nat →
  ∃ p s1 s2 l2, kalloc s = Ret (p, s1) ∧ p ≠ 0 ∧ map_page cr3 va p PTE_W s1 = Ret (0, s2) ∧ inv s2 l2 [p] ∧
    (length l ≤ length l2 + 4)%nat ∧ mapped s2 va p ∧
    ∀ va', vpn va' ≠ vpn va → mapping (km_mem s2) cr3 va' = mapping (km_mem s) cr3 va'.
Proof using Type.
  intros Hi Hn Hlen. destruct l as [|p l]; [simpl in Hlen; lia|].
  destruct (inv_alloc s p l [] Hi) as (s1 & E1 & Hi1 & M1 & _ & Hp).
  destruct (inv_map s1 l [p] va p Hi1 ltac:(left)) as (s2 & l2 & E2 & Hi2 & _ & Hl2 & Hre);
    [by rewrite M1|simpl in Hlen; lia|].
  exists p, s1, s2, l2. split; [exact E1|]. split; [exact Hp|]. split; [exact E2|]. split; [exact Hi2|]. split; [simpl; lia|].
  split; intros va' Hva'; rewrite Hre; [by rewrite decide_True|by rewrite decide_False].
Qed.

Lemma unmap_free s s2 l2 va p : inv s2 l2 [p] → mapping (km_mem s) cr3 va = None →
  (∀ va', vpn va' ≠ vpn va → mapping (km_mem s2) cr3 va' = mapping (km_mem s) cr3 va') →
  ∃ s3 s4, unmap_page cr3 va s2 = Ret ((), s3) ∧ inv s3 l2 [p] ∧ mapping (km_mem s3) cr3 va = None ∧
    kfree p s3 = Ret ((), s4) ∧ inv s4 (p :: l2) [] ∧ same s s4.
Proof using Type.
  intros Hi Hn Ho. destruct (inv_unmap s2 l2 [p] va Hi) as (s3 & E3 & Hi3 & _ & Hre).
  destruct (inv_release s3 l2 [] p [] Hi3) as (s4 & E4 & Hi4 & M4 & _). exists s3, s4.
  split; [exact E3|]. split; [exact Hi3|]. split; [rewrite Hre; by rewrite decide_True|]. split; [exact E4|]. split; [exact Hi4|].
  intros va'. rewrite M4, Hre. case_decide as Hv; [|by apply Ho]. by rewrite (mapping_vpn _ _ va' va Hv).
Qed.

Lemma pass_map_page : passes (test_map_page cr3) 3.
Proof using Type.
  intros s l Hi Hg Hlen. set (va := 0x500000000). pose proof (good_va s va Hg ltac:(left)) as Hn.
  destruct (map_fresh s l va Hi Hn) as (p & s1 & s2 & l2 & E1 & Hp & E2 & Hi2 & Hl2 & Hm & Ho); [lia|].
  destruct (vwr64_mapped s2 l2 [p] va p 0xCAFEBABEDEADBEEF Hi2 ltac:(left) Hm eq_refl) as (E3 & Hi3 & M3). set (s3 := set_mem _ s2) in *.
  destruct (unmap_free s s3 l2 va p Hi3 Hn) as (s4 & s5 & E4 & _ & _ & E5 & Hi5 & M5).
  { intros va' Hva'. rewrite M3. by apply Ho. }
  exists s5, (p :: l2). split; [|split; [exact Hi5|split; [simpl; lia|exact M5]]].
  unfold test_map_page. rewrite (bind_ret _ _ _ _ _ E1), (proj2 (Z.eqb_neq p 0)) by done. cbv zeta.
  rewrite (bind_ret _ _ _ _ _ E2). cbn [Z.eqb negb]. rewrite (bind_ret _ _ _ _ _ E3).
  destruct (inv_held _ _ _ Hi3 p ltac:(left)) as [Hpok _].
  rewrite (bind_ret _ _ s3 true s3).
  2: { unfold holds64. rewrite (bind_ret _ _ _ _ _ (vrd64_mapped s3 va p Hpok (mapped_same _ _ _ _ M3 Hm) eq_refl)).
       unfold ret. by replace (load64 (km_mem s3) p) with 0xCAFEBABEDEADBEEF by (symmetry; by apply load64_store64). }
  pose proof (held_range _ _ _ _ Hi3 ltac:(left)) as Hr. unfold PGSIZE in Hr.
  assert (load64 (km_mem s3) p = 0xCAFEBABEDEADBEEF) as Hp3 by (by apply load64_store64).
  rewrite (bind_ret _ _ s3 true s3); [|apply and_then_true; [done|apply holds_identity; [|lia|done]]].
  2: { apply (identity_above s); [apply Hg|]. intros va' Hva'. rewrite M3. apply Ho, low_vpn; [done|]. unfold va, PHYSTOP. lia. }
  by rewrite (bind_ret _ _ _ _ _ E4), (bind_ret _ _ _ _ _ E5).
Qed.

Lemma pass_va_to_pa : passes (test_va_to_pa cr3) 3.
Proof using Type.
  intros s l Hi Hg Hlen. set (va := 0x600000000). pose proof (good_va s va Hg ltac:(right; left)) as Hn.
  destruct (map_fresh s l va Hi Hn) as (p & s1 & s2 & l2 & E1 & Hp & E2 & Hi2 & Hl2 & Hm & Ho); [lia|].
  destruct (unmap_free s s2 l2 va p Hi2 Hn Ho) as (s3 & s4 & E3 & _ & _ & E4 & Hi4 & M4).
  exists s4, (p :: l2). split; [|split; [exact Hi4|split; [simpl; lia|exact M4]]].
  unfold test_va_to_pa. rewrite (bind_ret _ _ _ _ _ E1), (proj2 (Z.eqb_neq p 0)) by done. cbv zeta.
  rewrite (bind_ret _ _ _ _ _ E2). cbn [Z.eqb negb].
  assert (p ∈ [p]) as Hin by left. destruct (inv_held _ _ _ Hi2 p Hin) as [[_ Hr] _]. pose proof KEND_range.
  rewrite (bind_ret _ _ _ _ _ (va_to_pa_mapped s2 l2 [p] va p va Hi2 Hin Hm eq_refl)).
  rewrite (bind_ret _ _ _ _ _ (va_to_pa_mapped s2 l2 [p] va p (va + 0x123) Hi2 Hin Hm eq_refl)).
  change (va mod PGSIZE) with 0. change ((va + 0x123) mod PGSIZE) with 0x123. unfold KSTART, PHYSTOP in *.
  rewrite Z.add_0_r, Z.eqb_refl, u64_small, Z.eqb_refl by lia.
  by rewrite (bind_ret _ _ _ _ _ E3), (bind_ret _ _ _ _ _ E4).
Qed.

Lemma pass_unmap_page : passes (test_unmap_page cr3) 3.
Proof using Type.
  intros s l Hi Hg Hlen. set (va := 0x700000000). pose proof (good_va s va Hg ltac:(right; right; left)) as Hn.
  destruct (map_fresh s l va Hi Hn) as (p & s1 & s2 & l2 & E1 & Hp & E2 & Hi2 & Hl2 & Hm & Ho); [lia|].
  destruct (unmap_free s s2 l2 va p Hi2 Hn Ho) as (s3 & s4 & E3 & Hi3 & Hn3 & E4 & Hi4 & M4).
  exists s4, (p :: l2). split; [|split; [exact Hi4|split; [simpl; lia|exact M4]]].
  unfold test_unmap_page. rewrite (bind_ret _ _ _ _ _ E1), (proj2 (Z.eqb_neq p 0)) by done. cbv zeta.
  rewrite (bind_ret _ _ _ _ _ E2). cbn [Z.eqb negb].
  rewrite (bind_ret _ _ _ _ _ (va_to_pa_mapped s2 l2 [p] va p va Hi2 ltac:(left) Hm eq_refl)).
  change (va mod PGSIZE) with 0. rewrite Z.add_0_r, (proj2 (Z.eqb_neq p 0)) by done.
  rewrite (bind_ret _ _ _ _ _ E3), (bind_ret _ _ _ _ _ (va_to_pa_rep s3 l2 cr3 va (inv_tree _ _ _ Hi3))).
  unfold translate. rewrite Hn3. by rewrite (bind_ret _ _ _ _ _ E4).
Qed.

(** ** A range of pages *)

(** [va'] is not on one of the [n] pages from [va] on. *)
Definition off_range (va : Z) (n : nat) (va' : Z) : Prop := ∀ i, (i < n)%nat → vpn va' ≠ vpn (va + Z.of_nat i * PGSIZE).

Lemma off_range_S va n va' : off_range va (S n) va' → vpn va' ≠ vpn va ∧ off_range (va + PGSIZE) n va'.
Proof using Type.
  intros H. split.
  - specialize (H 0%nat ltac:(lia)). by rewrite Z.mul_0_l, Z.add_0_r in H.
  - intros i Hi. replace (va + PGSIZE + Z.of_nat i * PGSIZE) with (va + Z.of_nat (S i) * PGSIZE) by lia. apply H. lia.
Qed.

(** The first page is not one of the others. *)
Lemma off_range_next va n : va mod PGSIZE = 0 → 0 ≤ va → va + Z.of_nat (S n) * PGSIZE ≤ 2 ^ 48 → off_range (va + PGSIZE) n va.
Proof using Type.
  intros Hm H0 Hmax i Hi. unfold PGSIZE in *. rewrite !vpn_small by lia. unfold PGSIZE. zlia.
Qed.

(** Whether an address lies on one of the pages of a range can be decided. *)
Lemma off_range_dec va n va' :
  {i | (i < n)%nat ∧ vpn va' = vpn (va + Z.of_nat i * PGSIZE)} + {off_range va n va'}.
Proof using Type.
  induction n as [|n IH]; [right; intros j Hj; lia|]. destruct IH as [(j & Hj & Ej)|Hoff].
  - left. exists j. split; [lia|done].
  - destruct (decide (vpn va' = vpn (va + Z.of_nat n * PGSIZE))) as [E|Hne]; [left; exists n; split; [lia|done]|].
    right. intros j Hj. destruct (decide (j = n)) as [->|]; [done|]. apply Hoff. lia.
Qed.

Lemma map_range_result ps : ∀ va s l hs, inv s l hs → (∀ p, p ∈ ps → p ∈ hs) →
  va mod PGSIZE = 0 → 0 ≤ va → va + Z.of_nat (length ps) * PGSIZE ≤ 2 ^ 48 →
  (∀ i, (i < length ps)%nat → mapping (km_mem s) cr3 (va + Z.of_nat i * PGSIZE) = None) → (3 * length ps ≤ length l)%nat →
  ∃ s' l', map_range cr3 va ps s = Ret (true, s') ∧ inv s' l' hs ∧ (length l ≤ length l' + 3 * length ps)%nat ∧
    (∀ i p, ps !! i = Some p → mapped s' (va + Z.of_nat i * PGSIZE) p) ∧
    (∀ va', off_range va (length ps) va' → mapping (km_mem s') cr3 va' = mapping (km_mem s) cr3 va').
Proof using Type.
  induction ps as [|p ps IH]; intros va s l hs Hi Hin Hm H0 Hmax Hn Hlen.
  - exists s, l. split; [done|]. split; [done|]. split; [lia|]. by split.
  - cbn [length] in *. pose proof (Hn 0%nat ltac:(lia)) as Hn0. rewrite Z.mul_0_l, Z.add_0_r in Hn0.
    destruct (inv_map s l hs va p Hi (Hin p ltac:(left)) Hn0) as (s1 & l1 & E1 & Hi1 & _ & Hl1 & Hre); [lia|].
    pose proof (off_range_next va (length ps) Hm H0 ltac:(lia)) as Hoff.
    destruct (IH (va + PGSIZE) s1 l1 hs Hi1) as (s' & l' & E & Hi' & Hl' & Hmp & Ho).
    { intros q Hq. apply Hin. by right. }
    { unfold PGSIZE in *. zlia. } { unfold PGSIZE in *. lia. } { unfold PGSIZE in *. lia. }
    { intros i Hi'. rewrite Hre, decide_False; [|by apply not_eq_sym, Hoff].
      replace (va + PGSIZE + Z.of_nat i * PGSIZE) with (va + Z.of_nat (S i) * PGSIZE) by lia. apply Hn. lia. }
    { lia. }
    exists s', l'. cbn [map_range]. rewrite (bind_ret _ _ _ _ _ E1). split; [exact E|]. split; [exact Hi'|]. split; [lia|]. split.
    + intros [|i] q Hq.
      * injection Hq as <-. intros va' Hva'. rewrite Z.mul_0_l, Z.add_0_r in Hva'.
        rewrite Ho by (intros i Hi2; rewrite Hva'; by apply Hoff). rewrite Hre. by rewrite decide_True.
      * replace (va + Z.of_nat (S i) * PGSIZE) with (va + PGSIZE + Z.of_nat i * PGSIZE) by lia. by apply Hmp.
    + intros va' [Hv1 Hv2]%off_range_S. rewrite Ho by done. rewrite Hre. by rewrite decide_False.
Qed.

Lemma write_range_result ps : ∀ va k s l hs, inv s l hs → (∀ p, p ∈ ps → p ∈ hs) → NoDup ps →
  va mod PGSIZE = 0 → (∀ i p, ps !! i = Some p → mapped s (va + Z.of_nat i * PGSIZE) p) →
  0 ≤ k → k + Z.of_nat (length ps) < 2 ^ 32 →
  ∃ s', write_range cr3 va k ps s = Ret ((), s') ∧ inv s' l hs ∧ same s s' ∧
    (∀ i p, ps !! i = Some p → load64 (km_mem s') p = 0x1000 + (k + Z.of_nat i)) ∧
    (∀ q, q ∈ hs → (q ∉ ps) → load64 (km_mem s') q = load64 (km_mem s) q).
Proof using Type.
  induction ps as [|p ps IH]; intros va k s l hs Hi Hin Hnd Hm Hmp Hk Hmax.
  - by exists s.
  - cbn [length] in Hmax. apply NoDup_cons in Hnd as [Hnp Hnd]. pose proof (Hmp 0%nat p eq_refl) as Hm0. rewrite Z.mul_0_l, Z.add_0_r in Hm0.
    pose proof (Hin p ltac:(left)) as Hph.
    destruct (vwr64_mapped s l hs va p (0x1000 + k) Hi Hph Hm0 Hm) as (E1 & Hi1 & M1). set (s1 := set_mem _ s) in *.
    destruct (IH (va + PGSIZE) (k + 1) s1 l hs Hi1) as (s' & E & Hi' & M' & Hld & Hoth); [by intros q Hq; apply Hin; right|done|..|lia|lia|].
    { unfold PGSIZE in *. zlia. }
    { intros i q Hq. eapply mapped_same; [exact M1|].
      replace (va + PGSIZE + Z.of_nat i * PGSIZE) with (va + Z.of_nat (S i) * PGSIZE) by lia. by apply Hmp. }
    exists s'. cbn [write_range]. rewrite (bind_ret _ _ _ _ _ E1). split; [exact E|]. split; [exact Hi'|]. split; [by eapply same_trans|].
    destruct (inv_held _ _ _ Hi p Hph) as [[Hpm _] _]. split.
    + intros [|i] q Hq.
      * injection Hq as <-. rewrite Hoth by done. rewrite Z.add_0_r. apply load64_store64. lia.
      * rewrite (Hld i q Hq). lia.
    + intros q Hq [Hqp Hqn]%not_elem_of_cons. rewrite Hoth by done. destruct (inv_held _ _ _ Hi q Hq) as [[Hqm _] _].
      pose proof (pages_disjoint q p Hqm Hpm Hqp). apply load64_store64_other. unfold PGSIZE in *. lia.
Qed.

Lemma check_range_result ps : ∀ k s, identity s → (∀ p, p ∈ ps → 0 ≤ p < LIM) → (∀ i p, ps !! i = Some p → load64 (km_mem s) p = 0x1000 + (k + Z.of_nat i)) →
  check_range cr3 k ps s = Ret (true, s).
Proof using Type.
  induction ps as [|p ps IH]; intros k s Hid Hlow Hld; [done|]. cbn [check_range].
  rewrite (bind_ret _ _ _ _ _ (vrd_identity s p Hid (Hlow p ltac:(left)))).
  rewrite (Hld 0%nat p eq_refl), Z.add_0_r, Z.eqb_refl. apply IH; [done|intros q Hq; apply Hlow; by right|].
  intros i q Hq. rewrite (Hld (S i) q Hq). lia.
Qed.

Lemma cleanup_range_result ps : ∀ va s l, inv s l ps → 
  ∃ s', cleanup_range cr3 va ps s = Ret ((), s') ∧ inv s' (rev ps ++ l) [] ∧
    (∀ va', off_range va (length ps) va' → mapping (km_mem s') cr3 va' = mapping (km_mem s) cr3 va') ∧
    (∀ va' i, (i < length ps)%nat → vpn va' = vpn (va + Z.of_nat i * PGSIZE) → mapping (km_mem s') cr3 va' = None).
Proof using Type.
  induction ps as [|p ps IH]; intros va s l Hi.
  - exists s. split; [done|]. split; [done|]. split; [done|]. intros va' i Hlt. simpl in Hlt. lia.
  - destruct (inv_unmap s l (p :: ps) va Hi) as (s1 & E1 & Hi1 & _ & Hre).
    destruct (inv_release s1 l [] p ps Hi1) as (s2 & E2 & Hi2 & M2 & _).
    destruct (IH (va + PGSIZE) s2 (p :: l) Hi2) as (s' & E & Hi' & Ho & Hn).
    exists s'. cbn [cleanup_range rev]. rewrite (bind_ret _ _ _ _ _ E1), (bind_ret _ _ _ _ _ E2), <- app_assoc.
    split; [exact E|]. split; [exact Hi'|]. split.
    + intros va' [Hv1 Hv2]%off_range_S. rewrite Ho by done. rewrite M2, Hre. by rewrite decide_False.
    + intros va' i Hlt Hv.
      destruct (off_range_dec (va + PGSIZE) (length ps) va') as [(j & Hj & Ej)|Hoff].
      * by apply (Hn va' j).
      * rewrite Ho by done. rewrite M2, Hre. destruct i as [|i].
        { rewrite Z.mul_0_l, Z.add_0_r in Hv. by rewrite decide_True. }
        exfalso. apply (Hoff i); [simpl in Hlt; lia|]. rewrite Hv. f_equal. lia.
Qed.

Lemma pass_range : passes (test_map_pages_range cr3) 9.
Proof using Type.
  intros s l Hi Hg Hlen. set (va := 0x800000000).
  destruct (alloc_pages_result 3 s l [] Hi) as (s1 & E1 & Hi1 & M1); [lia|]. cbn [app] in E1, Hi1.
  set (ps := take 3 l) in *. assert (length ps = 3%nat) as Hps by (unfold ps; rewrite length_take; lia).
  assert (∀ i, (i < 3)%nat → mapping (km_mem s) cr3 (va + Z.of_nat i * PGSIZE) = None) as Hn.
  { intros [|[|[|i]]] Hi3; [..|lia]; apply (good_va s _ Hg); unfold test_vas; rewrite !elem_of_cons; unfold va, PGSIZE; simpl; tauto. }
  destruct (map_range_result ps va s1 (drop 3 l) ps Hi1) as (s2 & l2 & E2 & Hi2 & Hl2 & Hmp & Ho2).
  { done. } { done. } { unfold va. lia. } { rewrite Hps. unfold va, PGSIZE. lia. }
  { rewrite Hps. intros i Hlt. rewrite M1. by apply Hn. } { rewrite Hps, length_drop. lia. }
  rewrite Hps in Hl2, Ho2. rewrite length_drop in Hl2.
  assert (NoDup ps) as Hnd by (pose proof (inv_nodup _ _ _ Hi2) as H; by apply NoDup_app in H as (? & _ & _)).
  destruct (write_range_result ps va 0 s2 l2 ps Hi2) as (s3 & E3 & Hi3 & M3 & Hld & _); [done|done|done|done|lia|rewrite Hps; lia|].
  destruct (cleanup_range_result ps va s3 l2 Hi3) as (s4 & E4 & Hi4 & Ho4 & Hn4). rewrite Hps in Ho4, Hn4.
  exists s4, (rev ps ++ l2). split; [|split; [exact Hi4|split]].
  - unfold test_map_pages_range. rewrite (bind_ret _ _ _ _ _ E1). cbv zeta. rewrite (bind_ret _ _ _ _ _ E2).
    rewrite (bind_ret _ _ s2 true s3); [by rewrite (bind_ret _ _ _ _ _ E4)|].
    rewrite (bind_ret _ _ _ _ _ E3). apply check_range_result; [|intros p Hp|done].
    + apply (identity_above s); [apply Hg|]. intros va' Hva'. rewrite M3, Ho2; [apply M1|].
      intros i Hlt. apply low_vpn; [done|]. unfold va, PHYSTOP, PGSIZE. lia.
    + pose proof (held_range _ _ _ _ Hi3 Hp) as Hr. unfold PGSIZE in Hr. lia.
  - rewrite length_app, length_rev. lia.
  - intros va'. destruct (off_range_dec va 3 va') as [(i & Hi' & Hv)|Hoff].
    + rewrite (Hn4 va' i Hi' Hv). rewrite (mapping_vpn _ _ va' _ Hv). symmetry. by apply Hn.
    + rewrite Ho4, M3, Ho2 by done. apply M1.
Qed.

(** ** All of them *)

Lemma report_passing t u s l : passes t u → inv s l [] → good s → (12 ≤ length l)%nat →
  ∃ s' l', TEST_REPORT (CHECK t) s = Ret (OK, s') ∧ inv s' l' [] ∧ (length l ≤ length l' + u)%nat ∧ same s s'.
Proof using Type.
  intros Ht Hi Hg Hl. destruct (Ht s l Hi Hg Hl) as (s' & l' & E & H). exists s', l'. split; [|exact H].
  unfold TEST_REPORT. rewrite (bind_ret _ _ s 1 s'); [done|]. unfold CHECK. by rewrite (bind_ret _ _ _ _ _ E).
Qed.

Lemma run_all_passing ts us : Forall2 passes ts us → ∀ s l, inv s l [] → good s → (12 + sum_list us ≤ length l)%nat →
  ∃ s' l', run_all ts s = Ret (replicate (length ts) OK, s') ∧ inv s' l' [] ∧
    (length l ≤ length l' + sum_list us)%nat ∧ same s s'.
Proof using Type.
  induction 1 as [|t u ts us Ht Hts IH]; intros s l Hi Hg Hl; cbn [sum_list_with id] in *.
  - exists s, l. split; [done|]. split; [done|]. split; [lia|done].
  - destruct (report_passing t u s l Ht Hi Hg) as (s1 & l1 & E1 & Hi1 & Hl1 & M1); [lia|].
    destruct (IH s1 l1 Hi1 (good_same _ _ M1 Hg)) as (s' & l' & E & Hi' & Hl' & M'); [lia|].
    exists s', l'. cbn [run_all length replicate]. rewrite (bind_ret _ _ _ _ _ E1), (bind_ret _ _ _ _ _ E).
    split; [done|]. split; [done|]. split; [lia|]. by eapply same_trans.
Qed.

(** What each test uses up: the tables that its walks add stay in the tree. *)
Lemma all_tests_pass : cr3 mod PGSIZE = 0 → cr3 ≠ 0 →
  Forall2 passes (all_tests cr3) [0; 0; 0; 0; 0; 0; 0; 0; 0; 0; 0; 3; 3; 3; 3; 9]%nat.
Proof using Type.
  intros Hm H0. destruct pass_entries as [P1 P2], (pass_walks Hm H0) as (P3 & P4 & P5). unfold all_tests.
  repeat apply Forall2_cons_2; try apply Forall2_nil_2; try done.
  - by apply passes_pure.
  - apply pass_aligned.
  - apply pass_consistency.
  - apply pass_distinct.
  - apply pass_write_read.
  - apply pass_memset.
  - apply pass_isolation.
  - apply pass_map_page.
  - apply pass_va_to_pa.
  - apply pass_unmap_page.
  - apply pass_range.
Qed.
End passing.

(** C39. From a well-formed state of the allocator and of the page tables, with at
    least 33 free pages, the memory below the last page of the 128 MB mapped to
    itself and writable, the free pages and the tables in that memory, and the six
    test addresses not mapped, all sixteen self tests report success: no load or
    store that a test makes, at a test address or at the address of a page,
    faults, and no test panics or runs out of pages.  They leave every address
    mapped as it was, the tree well formed, and take at most 21 pages from the
    free list, the tables of their walks. *)
Theorem run_tests_pass `{LK : Linker} `{WS : WideShift} cr3 s l
    (Hf : free_list s l) (Ht : tree_ok (km_mem s) cr3 l) (Hid : identity cr3 s)
    (Hlow : ∀ b, LIM ≤ b → unowned (km_mem s) cr3 l b)
    (Hv : Forall (λ va, mapping (km_mem s) cr3 va = None) test_vas) (Hl : (33 ≤ length l)%nat) :
  ∃ s' l', run_tests cr3 s = Ret (replicate 16 OK, s') ∧
    free_list s' l' ∧ tree_ok (km_mem s') cr3 l' ∧ (length l ≤ length l' + 21)%nat ∧
    ∀ va, mapping (km_mem s') cr3 va = mapping (km_mem s) cr3 va.
Proof.
  destruct (tree_pages _ _ _ Ht [] cr3) as [H0 Hm]; [split; [apply Forall_nil_2|cbn; lia]|done|].
  destruct (run_all_passing cr3 _ _ (all_tests_pass cr3 Hm ltac:(lia)) s l) as (s' & l' & E & Hi & Hl' & M).
  - split; [done|done|apply Hf|by intros p ?%elem_of_nil|done|by intros p ?%elem_of_nil].
  - by split.
  - exact Hl.
  - exists s', l'. split; [exact E|]. split; [apply Hi|]. split; [apply Hi|]. split; [exact Hl'|exact M].
Qed.

Lemma low_on_pages va : 0 ≤ va < LIM → on_pages va 0 (PHYSTOP - PGSIZE).
Proof. intros Hva. unfold on_pages, LIM, PHYSTOP, PGSIZE in *. rewrite vpn_small by lia. unfold PGSIZE. zlia. Qed.

(** In the state that the boot code leaves. *)
Lemma run_tests_pass_witness :
  ∃ s s', boot_memory (LK := demo_linker) (WS := x86_shl)
      (Kmem (page_tables_setup (LK := demo_linker) ∅) 0) = Ret (0x100000, s) ∧
    run_tests (LK := demo_linker) (WS := x86_shl) 0x100000 s = Ret (replicate 16 OK, s').
Proof.
  assert (∀ b, p4_table (Linker := demo_linker) ≤ b < p4_table (Linker := demo_linker) + 4 * PGSIZE → byte_at ∅ b = 0) as Hz
    by (intros b _; reflexivity).
  destruct (boot_memory_result (LK := demo_linker) (WS := x86_shl) ∅ Hz) as (s & l & E & Hf & (Ht & Hu & _) & _ & Hl & Hm).
  - vm_compute. congruence.
  - apply Nat.leb_le. vm_compute. reflexivity.
  - destruct (run_tests_pass (LK := demo_linker) (WS := x86_shl) 0x100000 s l Hf Ht) as (s' & l' & E' & _).
    + intros va Hva. exists PTE_W. split; [|reflexivity]. etransitivity; [exact (Hm va)|]. apply decide_True.
      by apply low_on_pages.
    + intros b Hb. apply Hu.
      apply (boot_unowned (LK := demo_linker) (WS := x86_shl) ∅ Hz b); [vm_compute; congruence| |];
        right; (etransitivity; [|exact Hb]); vm_compute; congruence.
    + unfold test_vas. repeat (apply Forall_cons_2; [rewrite Hm; reflexivity|]). apply Forall_nil_2.
    + assert (length (low_pages (LK := demo_linker)) = 175%nat) as Hlow by (vm_compute; reflexivity).
      rewrite Hlow in Hl. lia.
    + exists s, s'. split; [exact E|exact E'].
Defined.
