(* ===== verification/KernelMain.v ===== *)
(** * The kernel's start ([kernel/main.c]): memory and ACPI

    The part of [kernel_main] that sets up memory: it composes the page
    allocator, the page tables, the search for the ACPI tables and the mapping
    of the interrupt controllers they name.  Everything runs on the tables of
    [boot.asm], which map the memory below 128 MB to itself from [kvminit]
    on. *)

From S2P Require Import Prelude Memory Kalloc Paging PageTree StrUtils Acpi Madt Boot.

Section main.
Context {LK : Linker} {WS : WideShift}.

(** The page tables that cr3 points to. *)
#[local] Instance boot_mmio : Mmio := paging_mmio p4_table.

(** The loop that maps the I/O APICs; it has no check of the length of an
    entry, and [fuel] bounds its turns. *)
Fixpoint map_ioapics (fuel : nat) (kernel_table entry_ptr end_ptr : Z) : M kmem () :=
  match fuel with
  | O => out_of_fuel
  | S fuel =>
      if entry_ptr <? end_ptr then
        let* m := gets km_mem in
        do* (if byte_at m entry_ptr =? MADT_ENTRY_IOAPIC then
               map_apic_region kernel_table (load32 m (entry_ptr + 4)) PGSIZE
             else ret ()) in
        let* m := gets km_mem in
        map_ioapics fuel kernel_table (entry_ptr + byte_at m (entry_ptr + 1)) end_ptr
      else ret ()
  end.

(** The local APIC and the I/O APICs, from what [init_madt] found. *)
Definition map_apics (fuel : nat) (kernel_table : Z) (md : madt) : M kmem () :=
  do* (if lapic_address md =? 0 then ret ()
       else map_apic_region kernel_table (lapic_address md) PGSIZE) in
  if madt_ptr md =? 0 then ret ()
  else
    let* m := gets km_mem in
    map_ioapics fuel kernel_table (madt_ptr md + MADT_SIZE)
      (madt_ptr md + load32 m (madt_ptr md + SDT_LENGTH)).

Definition init_acpi_and_map_apic (fuel : nat) (kernel_table : Z) (md : madt) : M acpi madt :=
  do* init_rsdp in
  let* s := get in
  if rsdp_ptr s =? 0 then panic "Unable to initialize: ACPI unavailable"
  else
    do* init_rsdt (rsdp_ptr s) in
    let* md := init_madt md in
    do* on_mem (map_apics fuel kernel_table md) in
    ret md.

(** [kernel_main] from the first call of [kinit] to the second. *)
Definition init_memory (fuel : nat) (md : madt) : M acpi madt :=
  let* kernel_table := on_mem boot_memory in
  let* md := init_acpi_and_map_apic fuel kernel_table md in
  do* rsdt_copy_to_safe_memory in
  let* md := madt_copy_to_safe_memory md in
  do* on_mem (kinit INIT_PHYSTOP PHYSTOP) in
  ret md.

(** * Properties *)

(** ** The invariant *)

(** Every page below 128 MB but the last is mapped to itself. *)
Definition identity (m : mem) : Prop :=
  ∀ va, on_pages va 0 (PHYSTOP - PGSIZE) →
    ∃ f, mapping m p4_table va = Some (flags_entry (vpn va * PGSIZE) f).

(** The free pages [l] and the tables are below 2 MB, and memory below 128 MB
    is mapped to itself. *)
Record low_ok (k : kmem) (l : list Z) : Prop := {
  low_free : free_list k l;
  low_tree : tree_ok (km_mem k) p4_table l;
  low_identity : identity (km_mem k);
  low_list p : p ∈ l → p + PGSIZE ≤ INIT_PHYSTOP;
  low_tables path t : path_ok path → table_at (km_mem k) p4_table path = Some t → t + PGSIZE ≤ INIT_PHYSTOP
}.

(** What is neither a table nor free stays so along a step of the tree, so the
    tables of the new state are among what the old one owns. *)
Lemma tables_below k k' l l' :
  tree_frame k k' p4_table l l' → (∀ p, p ∈ l → p + PGSIZE ≤ INIT_PHYSTOP) →
  (∀ path t, path_ok path → table_at (km_mem k) p4_table path = Some t → t + PGSIZE ≤ INIT_PHYSTOP) →
  ∀ path t, path_ok path → table_at (km_mem k') p4_table path = Some t → t + PGSIZE ≤ INIT_PHYSTOP.
Proof.
  intros [Ht' Hu] Hl Htab path t Hp Hat. destruct (tree_pages _ _ _ Ht' _ _ Hp Hat) as [_ Htm].
  destruct (decide (t + PGSIZE ≤ INIT_PHYSTOP)) as [?|Hhi]; [done|exfalso].
  assert (unowned (km_mem k) p4_table l t) as Hun.
  { split.
    - intros p Hpl. specialize (Hl p Hpl). unfold INIT_PHYSTOP, PGSIZE in *. zlia.
    - intros path' t' Hp' Hat'. specialize (Htab _ _ Hp' Hat'). unfold INIT_PHYSTOP, PGSIZE in *. zlia. }
  apply Hu in Hun as [_ [_ Hno]]. apply (Hno _ _ Hp Hat). unfold PGSIZE. lia.
Qed.

Lemma low_ok_step k k' l l' :
  low_ok k l → free_list k' l' → tree_frame k k' p4_table l l' → identity (km_mem k') →
  (∃ used, l = used ++ l') → low_ok k' l'.
Proof.
  intros [Hf Ht Hi Hl Htab] Hf' Hst Hi' [used ->]. split; [done|apply Hst|done| |].
  - intros p Hp. apply Hl, elem_of_app. by right.
  - by eapply tables_below.
Qed.

(** Pages mapped to themselves, whatever their flags, keep the identity. *)
Lemma range_identity k k' addr stop flags :
  identity (km_mem k) → addr mod PGSIZE = 0 →
  range_mapped k k' p4_table addr stop addr flags → identity (km_mem k').
Proof.
  intros Hi Ha Hm va Hva. rewrite Hm. case_decide; [|by apply Hi].
  exists flags. do 2 f_equal. unfold frame_in, PGSIZE in *. zlia.
Qed.

(** *** Mapping ACPI tables *)

Definition low_dom (pa size : Z) : Prop := 0 ≤ pa ∧ 0 ≤ size ∧ pa + size ≤ PHYSTOP - PGSIZE.

Lemma map_mmio_low k l pa size :
  low_ok k l → low_dom pa size →
  ∃ k', map_mmio p4_table pa size k = Ret (pa, k') ∧ low_ok k' l ∧ tree_step k k' p4_table l l.
Proof.
  intros Hok (Hpa & Hsize & Hmax). pose proof Hok as [Hf Ht Hi _ _].
  unfold map_mmio. pose proof (PGROUNDDOWN_eq pa) as Hround. set (a := PGROUNDDOWN pa) in *.
  assert (0 ≤ a ≤ pa ∧ a mod PGSIZE = 0) as [Ha Ham] by (rewrite Hround; unfold PGSIZE; zlia).
  unfold PHYSTOP in Hmax.
  rewrite (u64_small (pa - a)) by (unfold PGSIZE in *; lia). rewrite (u64_small (size + _)) by (unfold PGSIZE in *; lia).
  unfold map_pages. rewrite (u64_small (a + _)) by (unfold PGSIZE in *; lia).
  assert (PGROUNDDOWN a = a) as -> by (rewrite PGROUNDDOWN_eq; unfold PGSIZE in *; zlia).
  replace (a + (size + (pa - a))) with (pa + size) by lia.
  set (stop := PGROUNDUP (pa + size)). assert (stop = (pa + size + 4095) / 4096 * 4096) as Hstop
    by (unfold stop; rewrite PGROUNDUP_eq by (unfold PGSIZE in *; lia); unfold PGSIZE; zlia).
  destruct (remap_loop_rep (Z.to_nat ((stop - a) / PGSIZE)) (Z.lor PTE_W PTE_PCD) (range_fuel a stop)
    k l p4_table a a stop) as (k' & E & Hf' & Hst & Hm); try done; try (unfold range_fuel, PGSIZE in *; zlia).
  { intros va Hon. apply Hi. unfold on_pages, PHYSTOP, PGSIZE in *. zlia. }
  rewrite (bind_ret _ _ _ _ _ E). exists k'. split; [done|]. split; [|done].
  eapply low_ok_step; [done|done|by apply tree_step_frame| |by exists []]. by eapply range_identity.
Qed.

Section kept.
Context (kept : Z → Prop) (k0 : kmem) (l : list Z).

(** The states of the search: nothing is allocated, and the bytes [kept] are
    outside the tables and the free pages. *)
Definition search_ok (k : kmem) : Prop :=
  low_ok k l ∧ tree_step k0 k p4_table l l ∧ ∀ b, kept b → unowned (km_mem k) p4_table l b.

#[local] Instance low_mmio_spec : MmioSpec boot_mmio search_ok kept low_dom.
Proof.
  split. intros k pa size (Hok & Hst & Hk) Hd.
  destruct (map_mmio_low k l pa size Hok Hd) as (k' & E & Hok' & Hst').
  exists pa, k'. split; [exact E|]. split; [by right|]. split.
  - split; [done|]. split; [by eapply tree_step_trans|]. intros b Hb. by apply Hst', Hk.
  - intros b Hb. by apply Hst', Hk.
Qed.

Lemma low_always_maps : always_maps (ok := search_ok) (dom := low_dom).
Proof.
  intros k pa size r k' (Hok & _) Hd E.
  destruct (map_mmio_low k l pa size Hok Hd) as (k2 & E2 & _).
  unfold mm_map, boot_mmio, paging_mmio in E. congruence.
Qed.
End kept.
#[local] Existing Instance low_mmio_spec.

(** *** Mapping the interrupt controllers *)

(** A device's page, mapped to itself and not cached. *)
Definition uncached (m : mem) (a : Z) : Prop :=
  mapping m p4_table a = Some (flags_entry a (Z.lor PTE_W PTE_PCD)).

Lemma map_region_low k l a :
  low_ok k l → a mod PGSIZE = 0 → 0 ≤ a → a + PGSIZE ≤ 2 ^ 48 → (3 ≤ length l)%nat →
  ∃ k' l', map_apic_region p4_table a PGSIZE k = Ret ((), k') ∧ low_ok k' l' ∧
    tree_step k k' p4_table l l' ∧ (length l ≤ length l' + 3)%nat ∧ (∃ used, l = used ++ l') ∧
    uncached (km_mem k') a ∧
    ∀ b, b mod PGSIZE = 0 → 0 ≤ b < 2 ^ 48 → uncached (km_mem k) b → uncached (km_mem k') b.
Proof.
  intros Hok Ha H0 Hmax Hl. pose proof Hok as [Hf Ht Hi _ _].
  destruct (map_apic_region_rep k l p4_table a PGSIZE 1 Hf Ht Ha H0 ltac:(done) Hmax Hl)
    as (k' & l' & E & Hf' & Hst & Hlen & Hu & Hm).
  assert (∀ b, b mod PGSIZE = 0 → 0 ≤ b < 2 ^ 48 → on_pages b a (a + PGSIZE) ↔ b = a) as Hon.
  { intros b Hb Hr. unfold on_pages. rewrite vpn_small by done. unfold PGSIZE in *. zlia. }
  assert (∀ b, b mod PGSIZE = 0 → 0 ≤ b < 2 ^ 48 → b = a ∨ uncached (km_mem k) b → uncached (km_mem k') b) as Hun.
  { intros b Hb Hr Hor. unfold uncached. rewrite Hm. case_decide as Hd.
    - apply Hon in Hd as ->; [|done..]. unfold frame_in. rewrite vpn_small by done. do 2 f_equal. lia.
    - destruct Hor as [->|]; [|done]. exfalso. apply Hd. by apply Hon. }
  exists k', l'. split; [done|]. split; [|split_and!; try done].
  - eapply low_ok_step; [done|done|by apply tree_step_frame| |done]. by eapply range_identity.
  - apply Hun; [done|unfold PGSIZE in *; lia|by left].
  - intros b Hb Hr Hunc. apply Hun; [done..|by right].
Qed.

Lemma at_addr_unowned k k' l l' p bs :
  tree_step k k' p4_table l l' → (∀ b, p ≤ b < p + Z.of_nat (length bs) → unowned (km_mem k) p4_table l b) →
  at_addr (km_mem k) p bs → at_addr (km_mem k') p bs.
Proof.
  intros (_ & Hu & _) Hb. unfold at_addr. rewrite (bytes_at_agree (km_mem k) (km_mem k')); [done|]. intros b Hr. by apply Hu, Hb.
Qed.

(** One turn of the loop, on the entry [e]. *)
Lemma map_entry_result k l p e es (all := ioapic_infos (e :: es)) (left := ioapic_infos es) :
  low_ok k l → entry_wf e → at_addr (km_mem k) p (encode_entry e) →
  Forall (λ e, io_address e mod PGSIZE = 0) all → (3 * length all ≤ length l)%nat →
  ∃ k1 l1, (if byte_at (km_mem k) p =? MADT_ENTRY_IOAPIC then
      map_apic_region p4_table (load32 (km_mem k) (p + 4)) PGSIZE else ret ()) k = Ret ((), k1) ∧
    low_ok k1 l1 ∧ tree_step k k1 p4_table l l1 ∧
    (length l + 3 * length left ≤ length l1 + 3 * length all)%nat ∧ (∃ used, l = used ++ l1) ∧
    (∀ x, x ∈ all → x ∈ left ∨ (0 ≤ io_address x < 2 ^ 32 ∧ uncached (km_mem k1) (io_address x))) ∧
    Forall (λ e, io_address e mod PGSIZE = 0) left ∧ (length left ≤ length all)%nat ∧
    ∀ b, b mod PGSIZE = 0 → 0 ≤ b < 2 ^ 48 → uncached (km_mem k) b → uncached (km_mem k1) b.
Proof.
  intros Hok He Ha Hal Hl. pose proof (entry_bytes _ _ _ He Ha) as Hbytes. subst all left.
  assert (byte_at (km_mem k) p ≠ 1 → ioapic_infos (e :: es) = ioapic_infos es) as Hother
    by (destruct e; try done; intros Hne; by destruct Hbytes as [? _]).
  destruct (Z.eqb_spec (byte_at (km_mem k) p) MADT_ENTRY_IOAPIC) as [H1|H1].
  - destruct e as [| i ad g | | |]; cbv beta iota in Hbytes; try done.
    destruct Hbytes as (_ & _ & -> & _). cbn [ioapic_infos omap list_omap] in Hal, Hl |- *.
    fold (ioapic_infos es) in Hal, Hl |- *. apply Forall_cons in Hal as [Had Hal]. cbn [io_address length] in Had, Hl |- *.
    destruct He as [Hr _].
    destruct (map_region_low k l ad Hok Had) as (k1 & l1 & E1 & Hok1 & Hst1 & Hl1 & Hu1 & Hun1 & Hkeep1);
      [lia|unfold PGSIZE; lia|lia|].
    exists k1, l1. split_and!; try done; [lia| |lia]. intros x [->|Hx]%elem_of_cons; [right|by left]. done.
  - rewrite (Hother H1) in *. exists k, l. split_and!; try done; [apply tree_step_refl, Hok|by exists []|].
    intros x Hx. by left.
Qed.

(** The loop over a well-formed table, in memory that nothing else uses. *)
Lemma map_ioapics_result es : ∀ fuel k l p (n := length (concat (encode_entry <$> es))),
  low_ok k l → (∀ b, p ≤ b < p + Z.of_nat n → unowned (km_mem k) p4_table l b) →
  Forall entry_wf es → at_addr (km_mem k) p (concat (encode_entry <$> es)) →
  Forall (λ e, io_address e mod PGSIZE = 0) (ioapic_infos es) →
  (3 * length (ioapic_infos es) ≤ length l)%nat → (length es < fuel)%nat →
  ∃ k' l', map_ioapics fuel p4_table p (p + Z.of_nat n) k = Ret ((), k') ∧ low_ok k' l' ∧
    tree_step k k' p4_table l l' ∧ (length l ≤ length l' + 3 * length (ioapic_infos es))%nat ∧
    (∃ used, l = used ++ l') ∧
    (∀ e, e ∈ ioapic_infos es → uncached (km_mem k') (io_address e)) ∧
    ∀ b, b mod PGSIZE = 0 → 0 ≤ b < 2 ^ 48 → uncached (km_mem k) b → uncached (km_mem k') b.
Proof.
  induction es as [|e es IH]; intros [|fuel] k l p n Hok Hun Hwf Ha Hal Hl Hf; cbn [length] in Hf; try lia;
    cbn [map_ioapics]; subst n.
  { cbn [fmap list_fmap concat length]. rewrite (proj2 (Z.ltb_ge _ _)) by lia. exists k, l.
    split_and!; try done; [apply tree_step_refl, Hok|lia|by exists []|intros ? ?%not_elem_of_nil; done]. }
  apply Forall_cons in Hwf as [He Hwf]. cbn [fmap list_fmap concat] in Ha, Hun |- *.
  apply at_addr_app in Ha as [Ha Hrest]. rewrite length_app in Hun |- *.
  set (rest := concat (encode_entry <$> es)) in *. set (ne := length (encode_entry e)) in *.
  assert (2 ≤ ne)%nat as Hel by (subst ne; destruct e; cbn [encode_entry app length]; lia).
  rewrite (proj2 (Z.ltb_lt p _)) by lia. unfold bind at 1, gets at 1.
  replace (p + Z.of_nat (ne + length rest)) with (p + Z.of_nat ne + Z.of_nat (length rest)) by lia.
  destruct (map_entry_result k l p e es Hok He Ha Hal Hl)
    as (k1 & l1 & E1 & Hok1 & Hst1 & Hl1 & [u1 Hu1] & Hin1 & Hal1 & Hle & Hkeep1).
  rewrite (bind_ret _ _ _ _ _ E1). unfold bind, gets.
  assert (at_addr (km_mem k1) p (encode_entry e)) as Ha1
    by (eapply at_addr_unowned; [done| |done]; intros b Hb; apply Hun; lia).
  rewrite (encode_entry_len _ _ _ Ha1). fold ne.
  destruct (IH fuel k1 l1 (p + Z.of_nat ne) Hok1) as (k2 & l2 & E2 & Hok2 & Hst2 & Hl2 & [u2 Hu2] & Hin2 & Hkeep2).
  - intros b Hb. apply Hst1, Hun. fold rest in Hb. lia.
  - done.
  - eapply at_addr_unowned; [done| |done]. intros b Hb. apply Hun. fold rest in Hb. lia.
  - done.
  - lia.
  - lia.
  - fold rest in E2. exists k2, l2. split; [exact E2|]. split; [done|]. split; [by eapply tree_step_trans|].
    split; [lia|]. split; [exists (u1 ++ u2); by rewrite Hu1, Hu2, app_assoc|]. split; [|by eauto].
    intros x Hx. destruct (Hin1 x Hx) as [?|[Hr Hux]]; [by apply Hin2|].
    apply Hkeep2; [|lia|done]. by apply (proj1 (Forall_forall _ _) Hal).
Qed.

(** All the controllers of a table at [p]. *)
Lemma map_apics_result fuel k l md p es (n := length (concat (encode_entry <$> es))) :
  low_ok k l → madt_ptr md = p → p ≠ 0 →
  load32 (km_mem k) (p + SDT_LENGTH) = MADT_SIZE + Z.of_nat n →
  (∀ b, p ≤ b < p + MADT_SIZE + Z.of_nat n → unowned (km_mem k) p4_table l b) →
  Forall entry_wf es → at_addr (km_mem k) (p + MADT_SIZE) (concat (encode_entry <$> es)) →
  0 ≤ lapic_address md < 2 ^ 32 → lapic_address md mod PGSIZE = 0 →
  Forall (λ e, io_address e mod PGSIZE = 0) (ioapic_infos es) →
  (3 * (1 + length (ioapic_infos es)) ≤ length l)%nat → (length es < fuel)%nat →
  ∃ k' l', map_apics fuel p4_table md k = Ret ((), k') ∧ low_ok k' l' ∧
    tree_step k k' p4_table l l' ∧ (length l ≤ length l' + 3 * (1 + length (ioapic_infos es)))%nat ∧
    (∃ used, l = used ++ l') ∧
    (∀ e, e ∈ ioapic_infos es → uncached (km_mem k') (io_address e)) ∧
    (lapic_address md ≠ 0 → uncached (km_mem k') (lapic_address md)).
Proof.
  intros Hok Hp Hp0 Hlen Hun Hwf Ha Hlr Hlal Hal Hl Hf. unfold map_apics.
  assert (∃ k1 l1, (if lapic_address md =? 0 then ret ()
      else map_apic_region p4_table (lapic_address md) PGSIZE) k = Ret ((), k1) ∧
    low_ok k1 l1 ∧ tree_step k k1 p4_table l l1 ∧ (length l ≤ length l1 + 3)%nat ∧ (∃ used, l = used ++ l1) ∧
    (lapic_address md ≠ 0 → uncached (km_mem k1) (lapic_address md)))
    as (k1 & l1 & E1 & Hok1 & Hst1 & Hl1 & [u1 Hu1] & Hunc1).
  { destruct (Z.eqb_spec (lapic_address md) 0) as [|Hnz].
    - exists k, l. split_and!; try done; [apply tree_step_refl, Hok|lia|by exists []].
    - destruct (map_region_low k l (lapic_address md) Hok Hlal) as (k1 & l1 & E1 & ? & ? & ? & ? & ? & _);
        [lia|unfold PGSIZE; lia|lia|]. exists k1, l1. by split_and!. }
  rewrite (bind_ret _ _ _ _ _ E1), Hp, (proj2 (Z.eqb_neq _ _)) by done. unfold bind, gets.
  rewrite (load32_agree (km_mem k)), Hlen
    by (intros b Hb; apply Hst1, Hun; unfold SDT_LENGTH, MADT_SIZE, SDT_SIZE in *; lia).
  rewrite Z.add_assoc.
  destruct (map_ioapics_result es fuel k1 l1 (p + MADT_SIZE) Hok1)
    as (k2 & l2 & E2 & Hok2 & Hst2 & Hl2 & [u2 Hu2] & Hin2 & Hkeep2); try done; try lia.
  - intros b Hb. apply Hst1, Hun. unfold MADT_SIZE, SDT_SIZE, n in *. lia.
  - eapply at_addr_unowned; [done| |done]. intros b Hb. apply Hun. unfold MADT_SIZE, SDT_SIZE, n in *. lia.
  - exists k2, l2. split; [exact E2|]. split; [done|]. split; [by eapply tree_step_trans|].
    split; [lia|]. split; [exists (u1 ++ u2); by rewrite Hu1, Hu2, app_assoc|]. split; [done|].
    intros Hnz. apply Hkeep2; [done|lia|by apply Hunc1].
Qed.

(** *** The copies and the upper memory *)

(** A table of at most a page is copied to the first free page. *)
Lemma copy_low k p l old (len := load32 (km_mem k) (old + SDT_LENGTH)) :
  low_ok k (p :: l) → 0 < len ≤ PGSIZE →
  (∀ b, old ≤ b < old + len → unowned (km_mem k) p4_table (p :: l) b) →
  ∃ k', copy_to_safe_memory old k = Ret (p, k') ∧ low_ok k' l ∧ tree_frame k k' p4_table (p :: l) l ∧
    bytes_at (km_mem k') p (Z.to_nat len) = bytes_at (km_mem k) old (Z.to_nat len) ∧
    (∀ b, unowned (km_mem k) p4_table (p :: l) b → byte_at (km_mem k') b = byte_at (km_mem k) b) ∧
    only_changes (km_mem k) (km_mem k') p PGSIZE ∧
    (∀ va, mapping (km_mem k') p4_table va = mapping (km_mem k) p4_table va) ∧
    (∀ path, path_ok path → table_at (km_mem k') p4_table path = table_at (km_mem k) p4_table path).
Proof.
  intros Hok Hlen Hun. pose proof Hok as [Hf Ht Hi Hl Htab].
  pose proof (load32_range (km_mem k) (old + SDT_LENGTH)) as Hr. fold len in Hr.
  assert (page_ok p ∧ p ∉ l) as [Hp Hpl].
  { destruct Hf as (_ & Hnd & Hpf). apply NoDup_cons in Hnd as [? _]. by inversion Hpf. }
  destruct (copy_to_safe_memory_result k p l old Hf) as (k' & E & Hb & Hf').
  { fold len. destruct (Hun old) as [Hno _]; [lia|]. destruct (Hun (old + len - 1)) as [Hno2 _]; [lia|].
    specialize (Hno p (list_elem_of_here _ _)). specialize (Hno2 p (list_elem_of_here _ _)).
    unfold PGSIZE in *. lia. }
  fold len in Hb, Hf'. specialize (Hf' (proj2 Hlen)).
  assert (only_changes (km_mem k) (km_mem k') p PGSIZE) as Hch.
  { intros b Hout. rewrite Hb. by rewrite !decide_False by lia. }
  destruct (tree_kept (km_mem k) (km_mem k') p4_table (p :: l) Ht) as (Htab' & Ht' & Hm1).
  { intros path t Hpa Hat. eapply only_changes_agree; [exact Hch|].
    destruct (tree_pages _ _ _ Ht _ _ Hpa Hat) as [_ Htm]. pose proof (tree_free _ _ _ Ht _ _ Hpa Hat) as Hfr.
    apply pages_disjoint; [done|apply Hp|]. intros ->. apply Hfr. left. }
  assert (tree_frame k k' p4_table (p :: l) l) as Hst.
  { split.
    - destruct Ht' as [T1 T2 T3]. split; [done..|]. intros path t Hpa Hat Hin. apply (T3 path t Hpa Hat). by right.
    - intros b [H1 H2]. split; [apply Hch; specialize (H1 p (list_elem_of_here _ _)); lia|].
      split; [intros q Hq; apply H1; by right|]. intros path t Hpa. rewrite Htab' by done. by apply H2. }
  exists k'. split; [done|]. split_and!; try done.
  - eapply low_ok_step; [done..| |by exists [p]]. intros va Hva. rewrite Hm1. by apply Hi.
  - apply (copied_bytes _ _ _ _ _ len); [|lia]. intros b Hin. rewrite Hb. by rewrite decide_True by lia.
  - intros b Hu. by apply Hst.
Qed.

(** The second call of [kinit] frees the rest of the memory. *)
Abbreviation upper_pages := (rev (page_range INIT_PHYSTOP (kinit_count INIT_PHYSTOP PHYSTOP))).

Lemma upper_memory k l :
  low_ok k l → KEND ≤ INIT_PHYSTOP →
  ∃ k', kinit INIT_PHYSTOP PHYSTOP k = Ret ((), k') ∧ free_list k' (upper_pages ++ l) ∧
    tree_ok (km_mem k') p4_table (upper_pages ++ l) ∧
    (∀ va, mapping (km_mem k') p4_table va = mapping (km_mem k) p4_table va) ∧
    (∀ path, path_ok path → table_at (km_mem k') p4_table path = table_at (km_mem k) p4_table path) ∧
    (∀ b, b < INIT_PHYSTOP → byte_at (km_mem k') b = byte_at (km_mem k) b).
Proof.
  intros [Hf Ht Hi Hl Htab] Hk. assert (PGROUNDUP INIT_PHYSTOP = INIT_PHYSTOP) as Hup by reflexivity.
  assert (∀ q, q ∈ page_range INIT_PHYSTOP (kinit_count INIT_PHYSTOP PHYSTOP) → INIT_PHYSTOP ≤ q) as Hge.
  { intros q (i & Hi' & ->)%page_range_elem. unfold PGSIZE. lia. }
  pose proof (kinit_result k l INIT_PHYSTOP PHYSTOP) as Hinit. cbv zeta in Hinit. rewrite Hup in Hinit.
  destruct Hinit as (k' & E & Hf' & Hch).
  - exact Hf.
  - exact Hk.
  - vm_compute. congruence.
  - vm_compute. split; congruence.
  - intros q Hq Hin. specialize (Hge q Hq). specialize (Hl q Hin). unfold PGSIZE in *. lia.
  - assert (∀ b, b < INIT_PHYSTOP → byte_at (km_mem k') b = byte_at (km_mem k) b) as Hb.
    { intros b Hb. apply Hch. intros q Hq. specialize (Hge q Hq). lia. }
    destruct (tree_kept (km_mem k) (km_mem k') p4_table l Ht) as (Htab' & [T1 T2 T3] & Hm).
    { intros path t Hp Hat b Hb'. apply Hb. specialize (Htab _ _ Hp Hat). lia. }
    exists k'. split; [exact E|]. split; [exact Hf'|]. split; [|split; [exact Hm|split; [exact Htab'|exact Hb]]].
    split; [exact T1|exact T2|].
    intros path t Hp Hat [Hin|Hin]%elem_of_app; [|exact (T3 _ _ Hp Hat Hin)].
    rewrite list_elem_of_In, <- in_rev, <- list_elem_of_In in Hin.
    specialize (Hge t Hin). rewrite Htab' in Hat by done. specialize (Htab _ _ Hp Hat). unfold PGSIZE in *. lia.
Qed.

(** *** The firmware's tables *)

(** Memory that the kernel does not use before the second call of [kinit]. *)
Definition outside (b : Z) : Prop :=
  (b < p4_table ∨ p4_table + 4 * PGSIZE ≤ b) ∧ (b < KEND ∨ INIT_PHYSTOP ≤ b).

(** The memory [m] holds a root pointer at [rsdp], which is the one the search
    finds, a root table at [root] ([ext] for an extended one) and the table
    "APIC" at [p] with the entries [es], all in memory outside the kernel and
    below 128 MB, with right checksums; the root table and the table "APIC" have
    at most a page each. *)
Record firmware (m : mem) (rsdp root : Z) (ext : bool) (p : Z) (es : list madt_entry) : Prop := {
  fw_ebda : kept_range (kept := outside) EBDA_SEG 2;
  fw_scan : let ebda := Z.shiftl (load16 m EBDA_SEG) 4 in
    scan_kept (kept := outside) m ebda (ebda + ONE_KB) ∧ scan_kept (kept := outside) m BIOS_MEM_START BIOS_MEM_END;
  fw_rsdp : init_rsdp (Acpi (Kmem m 0) 0 0 false) = Ret ((), Acpi (Kmem m 0) rsdp 0 false);
  fw_rsdp_kept : rsdp ≠ 0 ∧ kept_range (kept := outside) rsdp 32;
  fw_ext : ext = (2 <=? byte_at m (rsdp + RSDP_REVISION));
  fw_root : root = if ext then load64 m (rsdp + XSDP_XSDT_ADDRESS) else load32 m (rsdp + RSDP_RSDT_ADDRESS);
  fw_root_ok : root ≠ 0 ∧ readable (kept := outside) (dom := low_dom) m root ∧ root_kept (kept := outside) m root ext ∧
    byte_sum m root (Z.to_nat (load32 m (root + SDT_LENGTH))) mod 256 = 0 ∧
    0 < load32 m (root + SDT_LENGTH) ≤ PGSIZE;
  fw_entries a : a ∈ root_entries m root ext → PGSIZE ≤ a → readable (kept := outside) (dom := low_dom) m a;
  fw_madt : p ≠ 0 ∧ find_spec m (chars "APIC") (root_entries m root ext) = p;
  fw_madt_length : load32 m (p + SDT_LENGTH) = MADT_SIZE + Z.of_nat (length (concat (encode_entry <$> es))) ∧
    load32 m (p + SDT_LENGTH) ≤ PGSIZE;
  fw_madt_entries : Forall entry_wf es ∧ at_addr m (p + MADT_SIZE) (concat (encode_entry <$> es));
  fw_aligned : override_of (load32 m (p + MADT_LAPIC_ADDR)) es mod PGSIZE = 0 ∧
    Forall (λ e, io_address e mod PGSIZE = 0) (ioapic_infos es)
}.

Lemma find_spec_elem m sig l r : find_spec m sig l = r → r ≠ 0 → r ∈ l ∧ PGSIZE ≤ r.
Proof.
  intros <- Hr. induction l as [|a l IH]; [done|]. cbn [find_spec] in *.
  destruct (Z.ltb_spec a PGSIZE); [destruct (IH Hr); split; [by right|done]|].
  destruct (bool_decide _); [|destruct (IH Hr); split; [by right|done]].
  destruct (_ =? 0); [split; [left|done]|done].
Qed.

Lemma madt_ok_reset md q a : madt_ok md → madt_ok (Madt q a (cpus md) 0 (ioapics md) 0).
Proof.
  intros (H1 & H2 & _). split; [done|]. split; [done|]. split; [vm_compute; split; congruence|].
  split; [vm_compute; split; congruence|]. intros i c. unfold get_cpu_info. cbn [cpu_count].
  destruct (Z.leb_spec 0 i); [done|lia].
Qed.

Lemma apply_entries_ptr es : ∀ s, madt_ptr (foldl (λ s e, apply_entry e s) s es) = madt_ptr s.
Proof.
  induction es as [|e es IH]; intros s; [done|]. cbn [foldl]. rewrite IH.
  destruct e; cbn [apply_entry]; try done; unfold add_cpu, add_ioapic; by case_match.
Qed.

Lemma override_range m a es : 0 ≤ override_of (load32 m a) es < 2 ^ 32.
Proof.
  unfold override_of. destruct (last _) as [x|] eqn:E; cbn [default from_option id]; [|apply load32_range].
  apply last_Some_elem_of in E. apply list_elem_of_omap in E as (e & _ & He).
  destruct e; try done. injection He as <-. apply u32_range.
Qed.

(** *** [init_acpi_and_map_apic] *)

Lemma init_madt_result m k k0 l md rsdp root ext p es :
  search_ok outside k0 l k → shows (kept := outside) m (km_mem k) → firmware m rsdp root ext p es → madt_ok md →
  ∃ md' k', init_madt md (Acpi k rsdp root ext) = Ret (md', Acpi k' rsdp root ext) ∧
    search_ok outside k0 l k' ∧ shows (kept := outside) m (km_mem k') ∧
    collected (load32 m (p + MADT_LAPIC_ADDR)) es md' ∧ madt_ptr md' = p.
Proof.
  intros Hok Hs Hfw Hmd. pose proof (fw_madt _ _ _ _ _ _ Hfw) as [Hp0 Hfind].
  destruct (fw_root_ok _ _ _ _ _ _ Hfw) as (Hroot & _ & Hrk & _).
  destruct (rsdt_find_table_result m k rsdp root ext (chars "APIC") Hok Hs Hroot)
    as (r & k' & E & Hok' & Hs' & _ & Hr).
  { repeat constructor; vm_compute; congruence. }
  { vm_compute. congruence. }
  { exact Hrk. }
  { intros a Ha Hbig. by apply (fw_entries _ _ _ _ _ _ Hfw). }
  rewrite (Hr (low_always_maps _ _ _)), Hfind in E. clear Hr.
  destruct (find_spec_elem _ _ _ _ Hfind Hp0) as [Hin Hbig].
  pose proof (fw_entries _ _ _ _ _ _ Hfw p Hin Hbig) as (Hkp & _).
  destruct (fw_madt_length _ _ _ _ _ _ Hfw) as [Hlen _]. destruct (fw_madt_entries _ _ _ _ _ _ Hfw) as [Hwf Hat].
  pose proof (shows_agree _ _ _ _ Hs' Hkp) as Hag. rewrite Hlen in Hag.
  set (n := length (concat (encode_entry <$> es))) in *.
  assert (∀ off c, 0 ≤ off → off + c ≤ MADT_SIZE + Z.of_nat n → agree m (km_mem k') (p + off) c) as Hsub.
  { intros off c H1 H2. eapply agree_sub; [exact Hag|lia..]. }
  unfold init_madt. rewrite (bind_ret _ _ _ _ _ E), (proj2 (Z.eqb_neq _ _)) by done.
  unfold bind, the_mem, gets. cbn [ac_kmem cpus cpu_count ioapics ioapic_count].
  rewrite (load32_agree m (km_mem k') (p + MADT_LAPIC_ADDR))
    by (apply Hsub; unfold MADT_LAPIC_ADDR, MADT_SIZE, SDT_SIZE; lia).
  destruct (parse_madt_result (km_mem k') p
    (Madt p (load32 m (p + MADT_LAPIC_ADDR)) (cpus md) 0 (ioapics md) 0) es) as [Ep Hc].
  - by apply madt_ok_reset.
  - done.
  - done.
  - done.
  - rewrite (load32_agree m); [done|]. apply Hsub; unfold SDT_LENGTH, MADT_SIZE, SDT_SIZE; lia.
  - unfold at_addr. rewrite (bytes_at_agree m (km_mem k')); [exact Hat|].
    apply Hsub; unfold MADT_SIZE, SDT_SIZE; lia.
  - rewrite Ep. eexists _, k'. split; [reflexivity|].
    split; [exact Hok'|]. split; [exact Hs'|]. split; [exact Hc|apply apply_entries_ptr].
Qed.

Lemma init_acpi_result fuel m k l md rsdp root ext p es :
  low_ok k l → (∀ b, outside b → unowned (km_mem k) p4_table l b) → shows (kept := outside) m (km_mem k) →
  firmware m rsdp root ext p es → madt_ok md →
  (3 * (1 + length (ioapic_infos es)) ≤ length l)%nat → (length es < fuel)%nat →
  ∃ md' k' l', init_acpi_and_map_apic fuel p4_table md (Acpi k 0 0 false) = Ret (md', Acpi k' rsdp root ext) ∧
    low_ok k' l' ∧ tree_step k k' p4_table l l' ∧
    (length l ≤ length l' + 3 * (1 + length (ioapic_infos es)))%nat ∧ (∃ used, l = used ++ l') ∧
    collected (load32 m (p + MADT_LAPIC_ADDR)) es md' ∧ madt_ptr md' = p ∧
    (∀ e, e ∈ ioapic_infos es → uncached (km_mem k') (io_address e)) ∧
    (lapic_address md' ≠ 0 → uncached (km_mem k') (lapic_address md')).
Proof.
  intros Hok Hun Hs Hfw Hmd Hl Hf. unfold init_acpi_and_map_apic.
  destruct (fw_scan _ _ _ _ _ _ Hfw) as [Hsc1 Hsc2]. destruct (fw_rsdp_kept _ _ _ _ _ _ Hfw) as [Hr0 Hrk].
  rewrite (bind_ret _ _ _ _ _ (init_rsdp_shown m k 0 0 false rsdp Hs (fw_ebda _ _ _ _ _ _ Hfw) Hsc1 Hsc2
    (fw_rsdp _ _ _ _ _ _ Hfw))).
  rewrite bind_get. cbn [rsdp_ptr]. rewrite (proj2 (Z.eqb_neq _ _)) by done.
  assert (search_ok outside k l k) as Hsk by (split; [done|]; split; [apply tree_step_refl, Hok|done]).
  destruct (fw_root_ok _ _ _ _ _ _ Hfw) as (Hroot & Hread & _ & Hsum & _).
  pose proof (fw_ext _ _ _ _ _ _ Hfw) as Hext. pose proof (fw_root _ _ _ _ _ _ Hfw) as Hrt.
  destruct (init_rsdt_result m k rsdp rsdp 0 false Hsk Hs (low_always_maps _ _ _) Hr0) as (k1 & E1 & Hok1 & Hs1);
    rewrite <- ?Hext, <- ?Hrt in *; try done.
  rewrite (bind_ret _ _ _ _ _ E1).
  destruct (init_madt_result m k1 k l md rsdp root ext p es Hok1 Hs1 Hfw Hmd) as (md' & k2 & E2 & Hok2 & Hs2 & Hcol & Hptr).
  rewrite (bind_ret _ _ _ _ _ E2). destruct Hok2 as (Hlow2 & Hst2 & Hun2).
  pose proof (fw_madt _ _ _ _ _ _ Hfw) as [Hp0 Hfind]. destruct (find_spec_elem _ _ _ _ Hfind Hp0) as [Hin Hbig].
  pose proof (fw_entries _ _ _ _ _ _ Hfw p Hin Hbig) as (Hkp & _).
  destruct (fw_madt_length _ _ _ _ _ _ Hfw) as [Hlen _]. destruct (fw_madt_entries _ _ _ _ _ _ Hfw) as [Hwf Hat].
  pose proof (shows_agree _ _ _ _ Hs2 Hkp) as Hag. rewrite Hlen in Hag, Hkp.
  destruct (fw_aligned _ _ _ _ _ _ Hfw) as [Hal1 Hal2]. pose proof Hcol as (_ & _ & _ & _ & _ & Hlap).
  pose proof (override_range m (p + MADT_LAPIC_ADDR) es) as Hrange. rewrite <- Hlap in Hal1, Hrange.
  destruct (map_apics_result fuel k2 l md' p es Hlow2 Hptr Hp0) as (k3 & l3 & E3 & Hok3 & Hst3 & Hl3 & Hu3 & Hio & Hla); try done.
  - rewrite (load32_agree m); [done|]. eapply agree_sub; [exact Hag|unfold SDT_LENGTH, MADT_SIZE, SDT_SIZE; lia..].
  - intros b Hb. apply Hun2, Hkp. unfold MADT_SIZE, SDT_SIZE in *. lia.
  - unfold at_addr. rewrite (bytes_at_agree m (km_mem k2)); [exact Hat|].
    eapply agree_sub; [exact Hag|unfold MADT_SIZE, SDT_SIZE; lia..].
  - exists md', k3, l3. split; [|split_and!; try done; by eapply tree_step_trans].
    unfold bind, on_mem. cbn [ac_kmem]. rewrite E3. done.
Qed.

(** *** The copies of both tables *)

Lemma length_shown m k a :
  shows (kept := outside) m (km_mem k) →
  kept_range (kept := outside) a (Z.max SDT_SIZE (load32 m (a + SDT_LENGTH))) →
  load32 (km_mem k) (a + SDT_LENGTH) = load32 m (a + SDT_LENGTH) ∧
  bytes_at (km_mem k) a (Z.to_nat (load32 m (a + SDT_LENGTH))) =
    bytes_at m a (Z.to_nat (load32 m (a + SDT_LENGTH))).
Proof.
  intros Hs Hk. pose proof (shows_agree _ _ _ _ Hs Hk) as Ha. pose proof (load32_range m (a + SDT_LENGTH)).
  split; [apply load32_agree|apply bytes_at_agree]; (eapply agree_sub; [exact Ha|unfold SDT_LENGTH, SDT_SIZE; lia..]).
Qed.

Lemma copies_result m k q1 q2 l root p
    (len1 := load32 m (root + SDT_LENGTH)) (len2 := load32 m (p + SDT_LENGTH)) :
  low_ok k (q1 :: q2 :: l) → (∀ b, outside b → unowned (km_mem k) p4_table (q1 :: q2 :: l) b) →
  shows (kept := outside) m (km_mem k) →
  kept_range (kept := outside) root (Z.max SDT_SIZE len1) → kept_range (kept := outside) p (Z.max SDT_SIZE len2) →
  0 < len1 ≤ PGSIZE → 0 < len2 ≤ PGSIZE →
  ∃ k3 k4, copy_to_safe_memory root k = Ret (q1, k3) ∧ copy_to_safe_memory p k3 = Ret (q2, k4) ∧
    low_ok k4 l ∧ bytes_at (km_mem k4) q1 (Z.to_nat len1) = bytes_at m root (Z.to_nat len1) ∧
    bytes_at (km_mem k4) q2 (Z.to_nat len2) = bytes_at m p (Z.to_nat len2) ∧
    (∀ va, mapping (km_mem k4) p4_table va = mapping (km_mem k) p4_table va) ∧
    (∀ path, path_ok path → table_at (km_mem k4) p4_table path = table_at (km_mem k) p4_table path).
Proof.
  intros Hok Hun Hs Hk1 Hk2 Hl1 Hl2. destruct (length_shown m k root Hs Hk1) as [E1 B1]. fold len1 in E1, B1.
  destruct (copy_low k q1 (q2 :: l) root Hok) as (k3 & C1 & Hok3 & Hst3 & Hb3 & Hu3 & Hch3 & Hm3 & Ht3).
  { by rewrite E1. }
  { rewrite E1. intros b Hb. apply Hun, Hk1. lia. }
  rewrite E1 in Hb3.
  assert (shows (kept := outside) m (km_mem k3)) as Hs3.
  { intros b Hb. rewrite (Hu3 b (Hun b Hb)). by apply Hs. }
  destruct (length_shown m k3 p Hs3 Hk2) as [E2 B2]. fold len2 in E2, B2.
  destruct (copy_low k3 q2 l p Hok3) as (k4 & C2 & Hok4 & Hst4 & Hb4 & Hu4 & Hch4 & Hm4 & Ht4).
  { by rewrite E2. }
  { rewrite E2. intros b Hb. apply Hst3, Hun, Hk2. lia. }
  rewrite E2 in Hb4. exists k3, k4. split; [exact C1|]. split; [exact C2|]. split; [exact Hok4|].
  split; [|split; [by rewrite Hb4|split; [intros va; by rewrite Hm4|intros path Hp; by rewrite Ht4, Ht3]]].
  rewrite (bytes_at_agree (km_mem k3) (km_mem k4)); [by rewrite Hb3|].
  pose proof (low_free _ _ Hok) as (_ & Hnd & Hpg). rewrite !Forall_cons in Hpg. destruct Hpg as ([P1 _] & [P2 _] & _).
  apply NoDup_cons in Hnd as [Hne _]. rewrite not_elem_of_cons in Hne.
  eapply only_changes_agree; [exact Hch4|].
  pose proof (pages_disjoint q1 q2 P1 P2 (proj1 Hne)). unfold PGSIZE in *. lia.
Qed.

(** *** After [kvminit] *)

Lemma boot_low m : (∀ b, p4_table ≤ b < p4_table + 4 * PGSIZE → byte_at m b = 0) →
  KEND ≤ INIT_PHYSTOP → (63 ≤ length low_pages)%nat →
  ∃ k l, boot_memory (Kmem (page_tables_setup m) 0) = Ret (p4_table, k) ∧ low_ok k l ∧
    (∃ used, low_pages = used ++ l) ∧ (length low_pages ≤ length l + 63)%nat ∧
    (∀ b, outside b → unowned (km_mem k) p4_table l b) ∧ shows (kept := outside) m (km_mem k) ∧
    ∀ p, p ∈ low_pages → p ∈ l ∨ ∃ path, path_ok path ∧ table_at (km_mem k) p4_table path = Some p.
Proof.
  intros Hz Hk Hn. destruct (boot_memory_result m Hz Hk Hn) as (k & l & E & Hf & Hst & [used Hl] & Hlen & Hm).
  assert (∀ b, outside b → unowned (km_mem k) p4_table l b ∧ byte_at (km_mem k) b = byte_at m b) as Hout.
  { intros b [Hb1 Hb2]. destruct (boot_unowned m Hz b Hk Hb1 Hb2) as [Hu Hb].
    apply Hst in Hu as [Heq Hu]. split; [exact Hu|]. rewrite Heq. exact Hb. }
  assert (∀ p, p ∈ low_pages → p + PGSIZE ≤ INIT_PHYSTOP) as Hlow.
  { intros p Hp. apply low_pages_elem in Hp as [_ ?]; [lia|exact Hk]. }
  exists k, l. split; [exact E|]. split; [split|].
  - exact Hf.
  - apply Hst.
  - intros va Hva. exists PTE_W. rewrite Hm. by rewrite decide_True.
  - intros p Hp. apply Hlow. rewrite Hl. apply elem_of_app. by right.
  - eapply tables_below; [apply tree_step_frame, Hst|exact Hlow|].
    intros path t Hp [_ ->]%(boot_table_at m Hz); [|done]. destruct Hp as [_ Hp].
    pose proof p4_range. unfold PGSIZE in *. lia.
  - split; [by exists used|]. split; [exact Hlen|]. split; [|split; [|apply Hst]]; intros b Hb; by apply Hout.
Qed.

(** The run of [init_memory], from those of its parts. *)
Lemma init_memory_run fuel md md' m k1 k2 k3 k4 k5 rsdp root ext p q1 q2 :
  boot_memory (Kmem m 0) = Ret (p4_table, k1) →
  init_acpi_and_map_apic fuel p4_table md (Acpi k1 0 0 false) = Ret (md', Acpi k2 rsdp root ext) →
  root ≠ 0 → madt_ptr md' = p → p ≠ 0 → q1 ≠ 0 → q2 ≠ 0 →
  copy_to_safe_memory root k2 = Ret (q1, k3) → copy_to_safe_memory p k3 = Ret (q2, k4) →
  kinit INIT_PHYSTOP PHYSTOP k4 = Ret ((), k5) →
  init_memory fuel md (Acpi (Kmem m 0) 0 0 false) =
    Ret (Madt q2 (lapic_address md') (cpus md') (cpu_count md') (ioapics md') (ioapic_count md'),
         Acpi k5 rsdp q1 ext).
Proof.
  intros E1 E2 Hroot Hptr Hp0 Hq1 Hq2 C1 C2 E5. unfold init_memory.
  rewrite (bind_ret (on_mem boot_memory) _ _ p4_table (Acpi k1 0 0 false))
    by (unfold on_mem; cbn [ac_kmem]; by rewrite E1).
  rewrite (bind_ret _ _ _ _ _ E2).
  unfold rsdt_copy_to_safe_memory, madt_copy_to_safe_memory, bind, get, on_mem, set_root, ret.
  cbn [rsdt_root_ptr ac_kmem]. rewrite (proj2 (Z.eqb_neq root 0)) by done. cbn [ac_kmem].
  rewrite C1. rewrite (proj2 (Z.eqb_neq q1 0)) by done. cbn [ac_kmem rsdp_ptr rsdt_root_ptr extended].
  rewrite Hptr, (proj2 (Z.eqb_neq p 0)) by done. cbn [ac_kmem]. rewrite C2.
  rewrite (proj2 (Z.eqb_neq q2 0)) by done. cbn [ac_kmem rsdp_ptr rsdt_root_ptr extended]. by rewrite E5.
Qed.

Lemma identity_va_to_pa k l va :
  tree_ok (km_mem k) p4_table l → identity (km_mem k) → 0 ≤ va < PHYSTOP - PGSIZE →
  va_to_pa p4_table va k = Ret (va, k).
Proof.
  intros Ht Hi Hva. rewrite (va_to_pa_rep _ _ _ _ Ht). do 2 f_equal.
  assert (0 ≤ va < 2 ^ 48) as Hva' by (unfold PHYSTOP, PGSIZE in *; lia).
  destruct (Hi va) as [f Hf]; [|by eapply identity_translate].
  unfold on_pages. rewrite vpn_small by done. unfold PHYSTOP, PGSIZE in *. zlia.
Qed.

(** The pages below 2 MB: those that are no table and hold no copy are free. *)
Lemma low_accounted k2 k5 m4 l q1 q2 used :
  low_pages = used ++ q1 :: q2 :: l → free_list k2 (q1 :: q2 :: l) → tree_ok m4 p4_table l →
  (∀ path, path_ok path → table_at (km_mem k5) p4_table path = table_at (km_mem k2) p4_table path) →
  (∀ path, path_ok path → table_at (km_mem k5) p4_table path = table_at m4 p4_table path) →
  (∀ q, q ∈ low_pages → q ∈ q1 :: q2 :: l ∨ ∃ path, path_ok path ∧ table_at (km_mem k2) p4_table path = Some q) →
  (q1 ∈ low_pages) ∧ (q2 ∈ low_pages) ∧ q1 ≠ q2 ∧
  ∀ q, q ∈ l ↔ (q ∈ low_pages) ∧ q ≠ q1 ∧ q ≠ q2 ∧ ∀ path, path_ok path → table_at (km_mem k5) p4_table path ≠ Some q.
Proof using Type.
  intros Hl (_ & Hnd & _) Ht4 T2 T4 Ha. rewrite !NoDup_cons, not_elem_of_cons in Hnd. destruct Hnd as ((Hne & Hn1) & Hn2 & _).
  assert (∀ q, q ∈ q1 :: q2 :: l → q ∈ low_pages) as Hin by (intros q Hq; rewrite Hl; apply elem_of_app; by right).
  split; [apply Hin; left|]. split; [apply Hin; right; left|]. split; [exact Hne|]. intros q. split.
  - intros Hq. split; [apply Hin; by do 2 right|]. split; [by intros ->|]. split; [by intros ->|].
    intros path Hp Hat. rewrite T4 in Hat by done. by apply (tree_free _ _ _ Ht4 _ _ Hp Hat).
  - intros (Hq & H1 & H2 & Hno). destruct (Ha q Hq) as [Hx|(path & Hp & Hat)].
    + rewrite !elem_of_cons in Hx. tauto.
    + exfalso. apply (Hno path Hp). by rewrite T2.
Qed.

(** C8. The memory phase of [kernel_main], from the boot tables to the second
    call of [kinit], on a machine whose firmware has left well-formed ACPI tables
    below 128 MB and outside the kernel: it returns; the processors and I/O
    APICs of the table "APIC" are collected; every address below 128 MB but those
    of the last page is still mapped to itself, and the page of the local APIC
    and of every I/O APIC is mapped to itself and not cached; the kernel's copies
    of the root table and of the table "APIC" are byte for byte what the firmware
    left, though the memory that held the originals is free now; and the free
    pages are all those from 2 MB up (but the last) and, of those between the
    kernel's end and 2 MB (but the last), exactly those that are neither a page
    table nor one of the two copies: no page is lost, and none in use is free. *)
Theorem init_memory_spec fuel m md rsdp root ext p es :
  (∀ b, p4_table ≤ b < p4_table + 4 * PGSIZE → byte_at m b = 0) → KEND ≤ INIT_PHYSTOP →
  firmware m rsdp root ext p es → madt_ok md →
  (68 + 3 * length (ioapic_infos es) ≤ length low_pages)%nat → (length es < fuel)%nat →
  ∃ md' s' l, init_memory fuel md (Acpi (Kmem (page_tables_setup m) 0) 0 0 false) = Ret (md', s') ∧
    collected (load32 m (p + MADT_LAPIC_ADDR)) es md' ∧
    (∀ va, 0 ≤ va < PHYSTOP - PGSIZE → va_to_pa p4_table va (ac_kmem s') = Ret (va, ac_kmem s')) ∧
    (lapic_address md' ≠ 0 → uncached (km_mem (ac_kmem s')) (lapic_address md')) ∧
    (∀ e, e ∈ ioapic_infos es → uncached (km_mem (ac_kmem s')) (io_address e)) ∧
    (let len := Z.to_nat (load32 m (root + SDT_LENGTH)) in
     bytes_at (km_mem (ac_kmem s')) (rsdt_root_ptr s') len = bytes_at m root len) ∧
    (let len := Z.to_nat (load32 m (p + SDT_LENGTH)) in
     bytes_at (km_mem (ac_kmem s')) (madt_ptr md') len = bytes_at m p len) ∧
    free_list (ac_kmem s') (upper_pages ++ l) ∧ tree_ok (km_mem (ac_kmem s')) p4_table (upper_pages ++ l) ∧
    (rsdt_root_ptr s' ∈ low_pages) ∧ (madt_ptr md' ∈ low_pages) ∧ rsdt_root_ptr s' ≠ madt_ptr md' ∧
    ∀ q, q ∈ l ↔ (q ∈ low_pages) ∧ q ≠ rsdt_root_ptr s' ∧ q ≠ madt_ptr md' ∧
      ∀ path, path_ok path → table_at (km_mem (ac_kmem s')) p4_table path ≠ Some q.
Proof.
  intros Hz Hk Hfw Hmd Hn Hf.
  destruct (boot_low m Hz Hk) as (k1 & l1 & E1 & Hok1 & [u1 Hu1] & Hl1 & Hun1 & Hs1 & Ha1); [lia|].
  destruct (init_acpi_result fuel m k1 l1 md rsdp root ext p es Hok1 Hun1 Hs1 Hfw Hmd)
    as (md' & k2 & l2 & E2 & Hok2 & Hst2 & Hl2 & [u2 Hu2] & Hcol & Hptr & Hio & Hla); [lia|lia|].
  destruct l2 as [|q1 [|q2 l3]]; [cbn [length] in Hl2; lia..|].
  destruct (fw_root_ok _ _ _ _ _ _ Hfw) as (Hroot & (Hkr & _) & _ & _ & Hlr).
  pose proof (fw_madt _ _ _ _ _ _ Hfw) as [Hp0 Hfind]. destruct (find_spec_elem _ _ _ _ Hfind Hp0) as [Hin Hbig].
  destruct (fw_entries _ _ _ _ _ _ Hfw p Hin Hbig) as (Hkp & _).
  destruct (fw_madt_length _ _ _ _ _ _ Hfw) as [Hlp Hlp2].
  destruct (copies_result m k2 q1 q2 l3 root p) as (k3 & k4 & C1 & C2 & Hok4 & B1 & B2 & Hm4 & Ht4).
  { exact Hok2. }
  { intros b Hb. by apply Hst2, Hun1. }
  { intros b Hb. rewrite (proj1 (proj1 (proj2 Hst2) b (Hun1 b Hb))). by apply Hs1. }
  { exact Hkr. }
  { exact Hkp. }
  { exact Hlr. }
  { split; [rewrite Hlp; unfold MADT_SIZE, SDT_SIZE; lia|exact Hlp2]. }
  destruct (upper_memory k4 l3 Hok4 Hk) as (k5 & E5 & Hf5 & Ht5 & Hm5 & Htab5 & Hb5).
  assert (q1 ≠ 0 ∧ q2 ≠ 0 ∧ q1 + PGSIZE ≤ INIT_PHYSTOP ∧ q2 + PGSIZE ≤ INIT_PHYSTOP) as (Hq1 & Hq2 & Hq1i & Hq2i).
  { pose proof (low_free _ _ Hok2) as (_ & _ & Hpg). rewrite !Forall_cons in Hpg. destruct Hpg as (P1 & P2 & _).
    split; [by apply page_ok_nonzero|]. split; [by apply page_ok_nonzero|].
    split; apply (low_list _ _ Hok2); [left|right; left]. }
  eexists _, (Acpi k5 rsdp q1 ext), l3.
  split; [by eapply init_memory_run|]. split; [exact Hcol|].
  cbn [ac_kmem rsdt_root_ptr lapic_address madt_ptr].
  assert (∀ q n, q + PGSIZE ≤ INIT_PHYSTOP → Z.of_nat n ≤ PGSIZE →
    bytes_at (km_mem k5) q n = bytes_at (km_mem k4) q n) as Hcopy.
  { intros q n Hq Hn'. apply bytes_at_agree. intros b Hb. apply Hb5. lia. }
  split.
  { intros va Hva. eapply identity_va_to_pa; [exact Ht5| |exact Hva].
    intros v Hv. rewrite Hm5. by apply (low_identity _ _ Hok4). }
  split; [intros Hnz; unfold uncached; rewrite Hm5, Hm4; by apply Hla|].
  split; [intros e He; unfold uncached; rewrite Hm5, Hm4; by apply Hio|].
  split; [cbv zeta; rewrite Hcopy, B1; [done|done|lia]|].
  split; [cbv zeta; rewrite Hcopy, B2; [done|done|lia]|].
  split; [exact Hf5|]. split; [exact Ht5|]. apply (low_accounted k2 k5 (km_mem k4) l3 q1 q2 (u1 ++ u2)).
  - by rewrite Hu1, Hu2, app_assoc.
  - eapply low_free, Hok2.
  - eapply low_tree, Hok4.
  - intros path Hp. by rewrite Htab5, Ht4.
  - intros path Hp. by rewrite Htab5.
  - intros q Hq. destruct (Ha1 q Hq) as [Hin'|(path & Hp & Hat)]; [by apply (proj2 (proj2 (proj2 Hst2)))|].
    right. exists path. split; [done|]. by apply (proj1 (proj2 (proj2 Hst2))).
Qed.
End main.

(** ** Witness *)

(** A root pointer at 0xE0000, the root table at 0x700000 and the table "APIC"
    at 0x701000 with a processor and an I/O APIC. *)
Definition fw_es : list madt_entry := [ELapic 0 0 1; EIoapic 5 0xFEC00000 0].
Definition fw_header (sig : list Z) (len sum : Z) : list Z :=
  sig ++ le 4 len ++ [1; sum] ++ replicate 26 0.
Definition fw_mem : mem :=
  place 0xE0000 (chars "RSD PTR " ++ [113] ++ replicate 7 0 ++ le 4 0x700000)
  (place 0x700000 (fw_header (chars "RSDT") 40 26 ++ le 4 0x701000)
  (place 0x701000 (fw_header (chars "APIC") 64 235 ++ le 4 0xFEE00000 ++ le 4 0 ++
     concat (encode_entry <$> fw_es)) ∅)).

Lemma fw_zero b : b < 0xE0000 ∨ 0xE0014 ≤ b < 0x700000 → byte_at fw_mem b = 0.
Proof.
  intros Hb. unfold fw_mem. rewrite !place_other; [done|simpl; lia..].
Qed.

Lemma fw_scan_kept start stop :
  (start = 0 ∧ stop = 1024) ∨ (start = BIOS_MEM_START ∧ stop = BIOS_MEM_END) →
  scan_kept (kept := outside (LK := demo_linker)) fw_mem start stop.
Proof.
  intros Hr r Hrange H16. unfold BIOS_MEM_START, BIOS_MEM_END in Hr.
  assert (∀ a n, a + n ≤ 0x100000 → kept_range (kept := outside (LK := demo_linker)) a n) as Hlow.
  { intros a n Ha b Hb. split; left; [change (b < 0x100000)|change (b < 0x150000)]; lia. }
  split; [apply Hlow; zlia|]. intros Hsig.
  destruct (decide (r = 0xFFFE0)) as [->|]; [vm_compute in Hsig; discriminate|].
  destruct (decide (r = 0xFFFF0)) as [->|]; [vm_compute in Hsig; discriminate|].
  split; [apply Hlow; zlia|]. intros Hrev. exfalso.
  destruct (decide (r = 0xE0000)) as [->|]; [vm_compute in Hrev; by apply Hrev|].
  rewrite fw_zero in Hrev by (unfold RSDP_REVISION; zlia). lia.
Qed.

Lemma fw_readable a : a = 0x700000 ∨ a = 0x701000 →
  readable (kept := outside (LK := demo_linker)) (dom := low_dom) fw_mem a.
Proof.
  intros Ha. assert (load32 fw_mem (a + SDT_LENGTH) ≤ 64 ∧ 0 ≤ load32 fw_mem (a + SDT_LENGTH)) as Hl
    by (destruct Ha as [-> | ->]; vm_compute; split; congruence).
  split; [|unfold low_dom, PHYSTOP, PGSIZE; split; lia].
  intros b Hb. unfold SDT_SIZE in Hb.
  split; right; [change (0x104000 ≤ b)|change (0x200000 ≤ b)]; lia.
Qed.

Lemma fw_ok : firmware (LK := demo_linker) fw_mem 0xE0000 0x700000 false 0x701000 fw_es.
Proof.
  assert (root_entries fw_mem 0x700000 false = [0x701000]) as He by (vm_compute; reflexivity).
  split.
  - intros b Hb. unfold EBDA_SEG in Hb. split; left; [change (b < 0x100000)|change (b < 0x150000)]; lia.
  - assert (Z.shiftl (load16 fw_mem EBDA_SEG) 4 = 0) as -> by (vm_compute; reflexivity).
    split; apply fw_scan_kept; [by left|by right].
  - vm_compute. reflexivity.
  - split; [done|]. intros b Hb. split; left; [change (b < 0x100000)|change (b < 0x150000)]; lia.
  - vm_compute. reflexivity.
  - vm_compute. reflexivity.
  - split; [done|]. split; [apply fw_readable; by left|]. split; [|vm_compute; split_and!; congruence].
    unfold root_kept. change (rsdt_get_entry_count (Acpi (Kmem fw_mem 0) 0 0x700000 false)) with 1.
    intros b Hb. unfold SDT_SIZE in Hb. split; right; [change (0x104000 ≤ b)|change (0x200000 ≤ b)]; lia.
  - intros a Ha _. rewrite He in Ha. apply list_elem_of_singleton in Ha as ->. apply fw_readable. by right.
  - rewrite He. vm_compute. split; congruence.
  - vm_compute. split; congruence.
  - split; [repeat constructor; vm_compute; congruence|vm_compute; reflexivity].
  - split; [vm_compute; reflexivity|repeat constructor].
Qed.

Lemma init_memory_spec_witness :
  ∃ md' s', init_memory (LK := demo_linker) (WS := x86_shl) 3 demo_madt
      (Acpi (Kmem (page_tables_setup (LK := demo_linker) fw_mem) 0) 0 0 false) = Ret (md', s') ∧
    collected 0xFEE00000 fw_es md' ∧
    uncached (LK := demo_linker) (km_mem (ac_kmem s')) 0xFEC00000.
Proof.
  destruct (init_memory_spec (LK := demo_linker) (WS := x86_shl) 3 fw_mem demo_madt
    0xE0000 0x700000 false 0x701000 fw_es) as (md' & s' & l & H1 & H2 & _ & _ & H3 & _).
  - intros b Hb. change (0x100000 ≤ b < 0x104000) in Hb. apply fw_zero. lia.
  - vm_compute. congruence.
  - exact fw_ok.
  - exact demo_madt_ok.
  - apply Nat.leb_le. vm_compute. reflexivity.
  - apply Nat.ltb_lt. vm_compute. reflexivity.
  - exists md', s'. split; [exact H1|]. split; [exact H2|]. apply (H3 (mkIOAPICEntry 5 0xFEC00000 0)). left.
Defined.
