(* ===== verification/DemoThreads.v ===== *)
(** * The first threads ([create_demo_threads], [kernel/main.c])

    [kernel_main] creates two threads for every CPU: it composes the creation
    of a thread with the scheduler's queues.  Every thread has pages of its own,
    so that what is done for the later ones leaves the earlier ones alone. *)

From S2P Require Import Prelude Memory Kalloc Percpu Spinlock Threads Context SmpSched.

(** The body of the inner loop: the next thread number.  [demo_thread_func] is
    the address of that function. *)
Definition demo_thread (demo_thread_func cpu thread_id : Z) : M sched Z :=
  let* thread := on_sys (on_kmem (create_thread demo_thread_func 0 0)) in
  if thread =? 0 then ret thread_id
  else
    let* context := on_sys (on_kmem (rd64 (thread + TH_CONTEXT))) in
    do* on_sys (on_kmem (wr64 (context + CTX_RDI) thread_id)) in
    do* sched_add_thread thread (s32 cpu) in
    ret (u32 (thread_id + 1)).

(** [for (int t = 0; t < 2; t++)] *)
Fixpoint demo_pair (n : nat) (demo_thread_func cpu thread_id : Z) : M sched Z :=
  match n with
  | O => ret thread_id
  | S n =>
      let* thread_id := demo_thread demo_thread_func cpu thread_id in
      demo_pair n demo_thread_func cpu thread_id
  end.

(** [for (uint32_t cpu = 0; cpu < ncpu; cpu++)] *)
Fixpoint demo_cpus (fuel : nat) (demo_thread_func cpu thread_id : Z) : M sched Z :=
  match fuel with
  | O => out_of_fuel
  | S fuel =>
      let* s := get in
      if cpu <? ncpu (sc_sys s) then
        let* thread_id := demo_pair 2 demo_thread_func cpu thread_id in
        demo_cpus fuel demo_thread_func (u32 (cpu + 1)) thread_id
      else ret thread_id
  end.

Definition create_demo_threads (demo_thread_func : Z) : M sched Z :=
  demo_cpus (S (Z.to_nat MAX_CPUS)) demo_thread_func 0 0.

(** * Properties *)

Section demo.
Context {LK : Linker}.
Context (f : Z) (Hf : 0 ≤ f < 2 ^ 64) (r : cpu_ref).

(** The thread [t] with the stack page [st] is ready to run [f] on [id]. *)
Definition ready (m : mem) (id t st : Z) : Prop :=
  thread_runnable m t = true ∧ load64 m (t + TH_CONTEXT) = st + PGSIZE - CTX_SIZE ∧
  load64 m (t + TH_STACK) = st + PGSIZE ∧ context_at m (st + PGSIZE - CTX_SIZE) (first_regs id 0) f.

Lemma ready_agree m m' id t st :
  agree m m' t PGSIZE → agree m m' st PGSIZE → ready m id t st → ready m' id t st.
Proof using Type.
  intros Ht Hst (H1 & H2 & H3 & H4). split; [by rewrite (runnable_agree m m')|]. split; [|split].
  - rewrite (load64_agree m m'); [done|]. eapply agree_sub; [exact Ht|unfold TH_CONTEXT, PGSIZE; lia..].
  - rewrite (load64_agree m m'); [done|]. eapply agree_sub; [exact Ht|unfold TH_STACK, PGSIZE; lia..].
  - eapply context_at_agree; [|done]. eapply agree_sub; [exact Hst|unfold CTX_SIZE, PGSIZE; lia..].
Qed.

(** The memory of the new thread after its number is stored in its context. *)
Lemma numbered_ready m t st ks id (m1 := thread_mem m t st ks f 0 0)
    (m2 := store32 (store64 m1 (st + PGSIZE - CTX_SIZE + CTX_RDI) id) (t + TH_STATE) (state_code RUNNABLE)) :
  page_ok t → page_ok st → page_ok ks → t ≠ st → t ≠ ks → st ≠ ks → 0 ≤ id < 2 ^ 64 →
  ready m2 id t st.
Proof using Hf.
  intros Ht Hst Hks N1 N2 N3 Hid.
  destruct (thread_mem_spec t st ks f 0 0 Ht Hst Hks N1 N2 N3 Hf ltac:(lia) ltac:(lia) m)
    as (T1 & T2 & _ & _ & [T5 T6] & _). fold m1 in T1, T2, T5, T6. clearbody m1.
  pose proof (pages_disjoint t st (proj1 Ht) (proj1 Hst) N1) as Hd.
  unfold ready, context_at, PGSIZE, CTX_SIZE, CTX_RDI, TH_CONTEXT, TH_STACK, TH_STATE in *.
  assert (∀ b, (b + 8 ≤ t + 48 ∨ t + 52 ≤ b) → load64 m2 b = load64 (store64 m1 (st + 4096 - 128 + 40) id) b) as Hs.
  { intros b Hb. apply (load_store_other _ _ 4 _ b 8). lia. }
  split; [apply runnable_store|]. split; [|split].
  - rewrite Hs by lia. rewrite load64_store64_other by lia. exact T1.
  - rewrite Hs by lia. rewrite load64_store64_other by lia. exact T2.
  - split.
    + unfold REGS, first_regs, RDI, RSI in *. cbn [seq fmap list_fmap replicate insert list_insert] in T5 |- *.
      injection T5 as R0 R1 R2 R3 R4 R5 R6 R7 R8 R9 R10 R11 R12 R13 R14.
      rewrite !Hs by lia. read_field.
      by rewrite R0, R1, R2, R3, R4, R6, R7, R8, R9, R10, R11, R12, R13, R14.
    + rewrite Hs by (unfold REGS; lia). rewrite load64_store64_other by (unfold REGS; lia). exact T6.
Qed.

(** What follows the creation of the thread [t] with the memory [m1]. *)
Lemma demo_thread_added s t st ks p fl ls i l id m1 fr
    (m2 := store64 m1 (st + PGSIZE - CTX_SIZE + CTX_RDI) id) :
  unlocked s r → queues (sc_sys s) (t :: st :: ks :: p :: fl) ls → ls !! i = Some l →
  Z.of_nat i < ncpu (sc_sys s) → Z.of_nat i < 2 ^ 31 → 0 ≤ id < 2 ^ 32 - 1 →
  create_thread f 0 0 (sy_kmem (sc_sys s)) = Ret (t, Kmem m1 fr) → free_list (Kmem m1 fr) (p :: fl) →
  others_kept (km_mem (sy_kmem (sc_sys s))) m1 [t; st; ks] →
  load64 m1 (t + TH_CONTEXT) = st + PGSIZE - CTX_SIZE →
  ready (store32 m2 (t + TH_STATE) (state_code RUNNABLE)) id t st →
  ∃ s', demo_thread f (Z.of_nat i) id s = Ret (id + 1, s') ∧ unlocked s' r ∧
    queues (sc_sys s') fl (<[i := l ++ [(p, t)]]> ls) ∧ ncpu (sc_sys s') = ncpu (sc_sys s) ∧
    ready (km_mem (sy_kmem (sc_sys s'))) id t st ∧
    others_kept (km_mem (sy_kmem (sc_sys s))) (km_mem (sy_kmem (sc_sys s'))) (t :: st :: ks :: p :: (concat ls).*1) ∧
    same_roles (sc_sys s) (sc_sys s').
Proof using Type.
  intros Hu Hq Hl Hi Hi31 Hid E1 Hf1 Ho1 T1 Hready. pose proof Hq as (Hfree & Hnd & _).
  pose proof Hfree as (_ & Hndf & Hpg). rewrite !Forall_cons in Hpg. destruct Hpg as (Pt & Pst & Pks & Pp & _).
  rewrite !NoDup_cons, !not_elem_of_cons in Hndf. destruct Hndf as ((N1 & N2 & N3 & N4) & (N5 & N6 & N7) & (N8 & N9) & _).
  apply NoDup_app in Hnd as (_ & Hdis & _).
  assert (only_changes m1 m2 st PGSIZE) as Hch.
  { eapply only_changes_sub; [apply store64_changes|unfold CTX_SIZE, CTX_RDI, PGSIZE; lia..]. }
  assert (others_kept (km_mem (sy_kmem (sc_sys s))) m2 [t; st; ks]) as Ho2.
  { eapply others_kept_trans; [exact Ho1|]. eapply others_kept_page; [exact Pst|right; left|exact Hch]. }
  assert (queues (set_kmem (Kmem m2 fr) (sc_sys s)) (p :: fl) ls) as Hq2.
  { apply (queues_kmem _ _ [t; st; ks]); [exact Hq| |exact Ho2].
    eapply (free_list_frame (Kmem m1 fr)); [exact Hf1|].
    eapply pages_kept_only_changes; [exact Hch|apply Pst|apply Hf1|].
    apply not_elem_of_cons. exact (conj N6 N7). }
  assert (∀ x, x ∈ [t; st; ks; p] → x ∉ (concat ls).*1) as Hnode.
  { intros x Hx Hin. apply (Hdis x Hin).
    rewrite !elem_of_cons in Hx |- *. rewrite elem_of_nil in Hx. clear -Hx. tauto. }
  set (s2 := Sched (sched_lock s) (sched_initialized s) (set_kmem (Kmem m2 fr) (sc_sys s))).
  destruct (sched_add_to_result s2 r p fl ls i l t) as (s' & E3 & Hu3 & Hq3 & _ & _ & Hn3 & Ho3 & Hro).
  { exact (unlocked_kmem _ _ _ Hu). }
  { exact Hq2. }
  { exact Hl. }
  { split; [exact Pt|]. rewrite elem_of_app, elem_of_cons. intros [Hin|[?|?]]; [|exact (N3 H)|exact (N4 H)].
    apply (Hnode t); [left|exact Hin]. }
  { exact Hi. }
  cbn [sc_sys s2 sy_kmem set_kmem km_mem] in Ho3.
  assert (∀ x, x ∈ l.*1 → x ∈ (concat ls).*1) as Hsub.
  { intros x Hx. destruct (concat_split ls i l l Hl) as [-> _]. rewrite fmap_app, elem_of_app. by left. }
  exists s'. split; [|split; [exact Hu3|split; [exact Hq3|split; [exact Hn3|split; [|split; [|exact Hro]]]]]].
  - unfold demo_thread.
    rewrite (bind_ret _ _ _ _ _ (on_sys_ret _ s _ _ (on_kmem_ret _ _ _ _ E1))).
    rewrite (proj2 (Z.eqb_neq _ _)) by (by apply page_ok_nonzero).
    unfold bind at 1 2, on_sys at 1 2, on_kmem at 1 2, rd64, wr64. cbn [sc_sys sched_lock sched_initialized sy_kmem set_kmem km_mem].
    rewrite T1. cbn [sc_sys]. change (Sched _ _ _) with s2 at 1.
    rewrite (bind_ret (sched_add_thread t (s32 (Z.of_nat i))) _ s2 () s'); [|].
    + unfold ret. rewrite u32_small by lia. done.
    + replace (s32 (Z.of_nat i)) with (Z.of_nat i); [exact E3|]. unfold s32. rewrite Z.mod_small; lia.
  - eapply ready_agree; [| |exact Hready].
    + apply Ho3; [exact Pt|]. rewrite not_elem_of_cons. split; [exact N3|].
      intros Hin. apply (Hnode t); [left|exact (Hsub _ Hin)].
    + apply Ho3; [exact Pst|]. rewrite not_elem_of_cons. split; [exact N6|].
      intros Hin. apply (Hnode st); [right; left|exact (Hsub _ Hin)].
  - eapply others_kept_trans; [eapply others_kept_sub; [|exact Ho2]|].
    { intros x Hx. rewrite !elem_of_cons in Hx |- *. rewrite elem_of_nil in Hx. clear -Hx. tauto. }
    eapply others_kept_trans; [eapply others_kept_sub; [|exact (change_state_others m2 t (state_code RUNNABLE) Pt)]|].
    { intros x ->%list_elem_of_singleton. left. }
    eapply others_kept_sub; [|exact Ho3]. intros x [->|Hx]%elem_of_cons; [do 3 right; left|].
    do 4 right. exact (Hsub _ Hx).
Qed.

(** The first three free pages become the thread, its stack and its kernel
    stack, the fourth its node in the queue of the CPU. *)
Lemma demo_thread_result s t st ks p fl ls i l id :
  unlocked s r → queues (sc_sys s) (t :: st :: ks :: p :: fl) ls → ls !! i = Some l →
  Z.of_nat i < ncpu (sc_sys s) → Z.of_nat i < 2 ^ 31 → 0 ≤ id < 2 ^ 32 - 1 →
  ∃ s', demo_thread f (Z.of_nat i) id s = Ret (id + 1, s') ∧ unlocked s' r ∧
    queues (sc_sys s') fl (<[i := l ++ [(p, t)]]> ls) ∧ ncpu (sc_sys s') = ncpu (sc_sys s) ∧
    ready (km_mem (sy_kmem (sc_sys s'))) id t st ∧
    others_kept (km_mem (sy_kmem (sc_sys s))) (km_mem (sy_kmem (sc_sys s'))) (t :: st :: ks :: p :: (concat ls).*1) ∧
    same_roles (sc_sys s) (sc_sys s').
Proof using Hf.
  intros Hu Hq Hl Hi Hi31 Hid. pose proof Hq as (Hfree & _).
  destruct (create_thread_result (sy_kmem (sc_sys s)) t st ks (p :: fl) f 0 0 Hfree Hf) as (m & fr & E1 & Hf1 & Ho1);
    [lia|lia|].
  destruct Hfree as (_ & Hndf & Hpg). rewrite !Forall_cons in Hpg. destruct Hpg as (Pt & Pst & Pks & _).
  rewrite !NoDup_cons, !not_elem_of_cons in Hndf. destruct Hndf as ((N1 & N2 & _) & (N5 & _) & _).
  destruct (thread_mem_spec t st ks f 0 0 Pt Pst Pks N1 N2 N5 Hf ltac:(lia) ltac:(lia) m) as (T1 & _).
  eapply demo_thread_added; [exact Hu|exact Hq|exact Hl|exact Hi|exact Hi31|exact Hid|exact E1|exact Hf1|exact Ho1|exact T1|].
  apply (numbered_ready m t st ks id Pt Pst Pks N1 N2 N5). lia.
Qed.

(** ** The loops *)

(** The pages of a new thread, and its node in a queue. *)
Record thread_pages := ThreadPages { tp_thread : Z; tp_stack : Z; tp_kstack : Z; tp_node : Z }.
Definition pages_of (q : thread_pages) : list Z := [tp_thread q; tp_stack q; tp_kstack q; tp_node q].
Definition item (q : thread_pages) : Z * Z := (tp_node q, tp_thread q).
Abbreviation all_pages qs := (concat (pages_of <$> qs)).
Abbreviation mem_of s := (km_mem (sy_kmem (sc_sys s))).

(** From [s] to [s'] the threads with the pages [qs] and the numbers from [id]
    on have been made, and nothing else but the nodes of the queues [ls] has
    changed. *)
Definition made (s s' : sched) (qs : list thread_pages) (id : Z) (ls : list (list (Z * Z))) : Prop :=
  others_kept (mem_of s) (mem_of s') (all_pages qs ++ (concat ls).*1) ∧ same_roles (sc_sys s) (sc_sys s') ∧
  ∀ k q, qs !! k = Some q → ready (mem_of s') (id + Z.of_nat k) (tp_thread q) (tp_stack q).

Lemma made_nil s id ls : made s s [] id ls.
Proof using Type. split; [apply others_kept_refl|]. split; [apply same_roles_refl|intros k q Hq; done]. Qed.

Lemma nodes_insert (ls : list (list (Z * Z))) i l n d x :
  ls !! i = Some l → x ∈ (concat (<[i := l ++ [(n, d)]]> ls)).*1 ↔ x = n ∨ x ∈ (concat ls).*1.
Proof using Type.
  intros Hl. destruct (concat_split ls i l (l ++ [(n, d)]) Hl) as [-> ->].
  rewrite !fmap_app, !elem_of_app. cbn [fmap list_fmap fst]. rewrite list_elem_of_singleton. clear; tauto.
Qed.

Lemma made_cons s1 s2 s3 q qs id i l ls fl :
  queues (sc_sys s1) (all_pages (q :: qs) ++ fl) ls → ls !! i = Some l →
  made s1 s2 [q] id ls → made s2 s3 qs (id + 1) (<[i := l ++ [item q]]> ls) → made s1 s3 (q :: qs) id ls.
Proof using Type.
  intros (Hfl & Hnd & _) Hl (Ho1 & C1 & R1) (Ho2 & C2 & R2). split; [|split; [by eapply same_roles_trans|]].
  - eapply others_kept_trans; (eapply others_kept_sub; [|eassumption]); intros x;
      cbn [fmap list_fmap concat]; rewrite !elem_of_app.
    + rewrite elem_of_nil. clear; tauto.
    + unfold item. rewrite (nodes_insert _ _ _ _ _ _ Hl). unfold pages_of. rewrite !elem_of_cons. clear; tauto.
  - intros [|k] q' Hq'.
    + injection Hq' as <-. destruct Hfl as (_ & Hndp & Hpg).
      cbn [fmap list_fmap concat pages_of app] in Hnd, Hndp, Hpg.
      rewrite !Forall_cons in Hpg. destruct Hpg as (Pt & Pst & _).
      rewrite !NoDup_cons, !not_elem_of_cons, !not_elem_of_app in Hndp.
      destruct Hndp as ((N1 & N2 & N3 & N4 & _) & (N5 & N6 & N7 & _) & _).
      apply NoDup_app in Hnd as (_ & Hdis & _).
      eapply ready_agree; [..|exact (R1 0%nat q eq_refl)]; apply Ho2; try done;
        rewrite not_elem_of_app; (split; [done|]); unfold item; rewrite (nodes_insert _ _ _ _ _ _ Hl);
        (intros [?|Hin]; [done|]); apply (Hdis _ Hin); rewrite !elem_of_cons; clear; tauto.
    + replace (id + Z.of_nat (S k)) with (id + 1 + Z.of_nat k) by (clear; lia). by apply R2.
Qed.

(** One thread, with the pages as a record. *)
Lemma demo_thread_made s q fl ls i l id :
  unlocked s r → queues (sc_sys s) (pages_of q ++ fl) ls → ls !! i = Some l →
  Z.of_nat i < ncpu (sc_sys s) → Z.of_nat i < 2 ^ 31 → 0 ≤ id < 2 ^ 32 - 1 →
  ∃ s', demo_thread f (Z.of_nat i) id s = Ret (id + 1, s') ∧ unlocked s' r ∧
    queues (sc_sys s') fl (<[i := l ++ [item q]]> ls) ∧ ncpu (sc_sys s') = ncpu (sc_sys s) ∧
    made s s' [q] id ls.
Proof using Hf.
  intros Hu Hq Hl Hi Hi31 Hid. destruct (demo_thread_result s _ _ _ _ _ _ _ _ id Hu Hq Hl Hi Hi31 Hid)
    as (s' & E & Hu' & Hq' & Hn & Hr & Ho & Hro).
  exists s'. split; [exact E|]. split; [exact Hu'|]. split; [exact Hq'|]. split; [exact Hn|]. split; [exact Ho|]. split; [exact Hro|].
  intros [|k] q' Hk; [|done]. injection Hk as <-. rewrite Z.add_0_r. exact Hr.
Qed.

(** The queues after the CPUs from [c] on have been given two threads each. *)
Fixpoint dealt (c : nat) (qs : list thread_pages) (ls : list (list (Z * Z))) : list (list (Z * Z)) :=
  match qs with
  | q1 :: q2 :: qs => dealt (S c) qs (alter (λ l, l ++ [item q1; item q2]) c ls)
  | _ => ls
  end.

Lemma dealt_lookup n : ∀ c qs ls j, length qs = (2 * n)%nat →
  dealt c qs ls !! j =
    (λ l, l ++ if decide (c ≤ j)%nat then item <$> take 2 (drop (2 * (j - c)) qs) else []) <$> ls !! j.
Proof using Type.
  clear f Hf. induction n as [|n IH]; intros c qs ls j Hlen.
  - apply nil_length_inv in Hlen as ->. cbn [dealt]. rewrite drop_nil.
    destruct (ls !! j), (decide _); cbn; by rewrite ?app_nil_r.
  - destruct qs as [|q1 [|q2 qs]]; cbn [length] in Hlen; [lia..|]. cbn [dealt].
    rewrite IH by lia. destruct (decide (c = j)) as [->|Hne].
    + rewrite list_lookup_alter_eq. rewrite Nat.sub_diag. destruct (ls !! j); [|done]. cbn [fmap option_fmap option_map].
      rewrite decide_False, decide_True, app_nil_r by lia. done.
    + rewrite list_lookup_alter_ne by done. destruct (ls !! j); [|done]. cbn [fmap option_fmap option_map].
      destruct (decide (S c ≤ j)%nat).
      * rewrite decide_True by lia. replace (2 * (j - c))%nat with (S (S (2 * (j - S c)))) by lia. done.
      * by rewrite decide_False by lia.
Qed.

Lemma all_pages_cons q qs fl : all_pages (q :: qs) ++ fl = pages_of q ++ all_pages qs ++ fl.
Proof using Type. cbn [fmap list_fmap concat]. by rewrite <- app_assoc. Qed.

(** The two threads of CPU [i]. *)
Lemma demo_pair_result s q1 q2 qs fl ls i l id (step := λ l, l ++ [item q1; item q2]) :
  unlocked s r → queues (sc_sys s) (all_pages (q1 :: q2 :: qs) ++ fl) ls → ls !! i = Some l →
  Z.of_nat i < ncpu (sc_sys s) → Z.of_nat i < 2 ^ 31 → 0 ≤ id < 2 ^ 32 - 2 →
  ∃ s', demo_pair 2 f (Z.of_nat i) id s = Ret (id + 2, s') ∧ unlocked s' r ∧
    queues (sc_sys s') (all_pages qs ++ fl) (alter step i ls) ∧ ncpu (sc_sys s') = ncpu (sc_sys s) ∧
    (∀ s2, made s' s2 qs (id + 2) (alter step i ls) → made s s2 (q1 :: q2 :: qs) id ls).
Proof using Hf.
  intros Hu Hq Hl Hi Hi31 Hid. pose proof (lookup_lt_Some _ _ _ Hl) as Hlt.
  pose proof Hq as Hq0. rewrite all_pages_cons in Hq0.
  destruct (demo_thread_made s q1 _ ls i l id Hu Hq0 Hl Hi Hi31) as (s1 & E1 & Hu1 & Hq1 & Hn1 & M1); [lia|].
  pose proof Hq1 as Hq1'. rewrite all_pages_cons in Hq1'.
  assert (<[i := l ++ [item q1]]> ls !! i = Some (l ++ [item q1])) as Hl1 by (by apply list_lookup_insert_eq).
  destruct (demo_thread_made s1 q2 _ _ i _ (id + 1) Hu1 Hq1' Hl1) as (s2 & E2 & Hu2 & Hq2 & Hn2 & M2); [lia..|].
  assert (alter step i ls = <[i := (l ++ [item q1]) ++ [item q2]]> (<[i := l ++ [item q1]]> ls)) as Ea.
  { rewrite list_insert_insert_eq, list_insert_alter. apply list_alter_ext; [|done].
    intros x Hx. rewrite Hl in Hx. injection Hx as <-. unfold step. by rewrite <- app_assoc. }
  exists s2. rewrite Ea. split; [|split; [exact Hu2|split; [exact Hq2|split; [lia|]]]].
  - cbn [demo_pair]. rewrite (bind_ret _ _ _ _ _ E1), (bind_ret _ _ _ _ _ E2). unfold ret. do 2 f_equal. lia.
  - intros s3 M3. eapply made_cons; [exact Hq|exact Hl|exact M1|].
    eapply made_cons; [exact Hq1|exact Hl1|exact M2|].
    by replace (id + 1 + 1) with (id + 2) by lia.
Qed.

Lemma demo_cpus_result fl n : ∀ fuel s c qs ls,
  unlocked s r → queues (sc_sys s) (all_pages qs ++ fl) ls → length qs = (2 * n)%nat →
  ncpu (sc_sys s) = Z.of_nat (c + n) → (c + n ≤ length ls)%nat → (c + n ≤ 64)%nat → (n < fuel)%nat →
  ∃ s', demo_cpus fuel f (Z.of_nat c) (2 * Z.of_nat c) s = Ret (2 * Z.of_nat (c + n), s') ∧ unlocked s' r ∧
    queues (sc_sys s') fl (dealt c qs ls) ∧ made s s' qs (2 * Z.of_nat c) ls.
Proof using Hf.
  induction n as [|n IH]; intros [|fuel] s c qs ls Hu Hq Hlen Hn Hls Hmax Hfuel; [lia| |lia|]; cbn [demo_cpus];
    rewrite bind_get.
  - apply nil_length_inv in Hlen as ->. exists s. destruct (Z.ltb_spec (Z.of_nat c) (ncpu (sc_sys s))); [lia|].
    rewrite Nat.add_0_r. split; [done|]. split; [exact Hu|]. split; [exact Hq|apply made_nil].
  - destruct qs as [|q1 [|q2 qs]]; cbn [length] in Hlen; [lia..|]. cbn [dealt].
    destruct (lookup_lt_is_Some_2 ls c) as [l Hl]; [lia|].
    destruct (Z.ltb_spec (Z.of_nat c) (ncpu (sc_sys s))); [|lia].
    destruct (demo_pair_result s q1 q2 qs fl ls c l (2 * Z.of_nat c) Hu Hq Hl) as (s1 & E1 & Hu1 & Hq1 & Hn1 & M1);
      [lia..|].
    destruct (IH fuel s1 (S c) qs _ Hu1 Hq1) as (s2 & E2 & Hu2 & Hq2 & M2);
      [lia|lia|rewrite length_alter; lia|lia|lia|].
    exists s2. replace (c + S n)%nat with (S c + n)%nat by lia. split; [|split; [exact Hu2|split; [exact Hq2|]]].
    + rewrite (bind_ret _ _ _ _ _ E1). rewrite u32_small by lia.
      replace (Z.of_nat c + 1) with (Z.of_nat (S c)) by lia.
      by replace (2 * Z.of_nat c + 2) with (2 * Z.of_nat (S c)) by lia.
    + apply M1. by replace (2 * Z.of_nat c + 2) with (2 * Z.of_nat (S c)) by lia.
Qed.

(** [create_demo_threads] with the scheduler unlocked and four free pages
    for each of two threads per CPU (the free list starts with the pages of
    [qs], in order): it returns with the scheduler unlocked, every CPU has its
    old queue followed by two new threads (CPU [j] the threads [2j] and
    [2j + 1]), the pages used are off the free list, and every thread [k] is
    runnable, with a context that starts [f] with [k] as its argument: making
    the later threads has not disturbed the earlier ones.  No other page than
    those of the new threads and the nodes of the queues has changed, and every CPU
    keeps its idle thread. *)
Theorem create_demo_threads_spec s qs fl ls :
  unlocked s r → queues (sc_sys s) (all_pages qs ++ fl) ls →
  0 ≤ ncpu (sc_sys s) ≤ Z.min MAX_CPUS (Z.of_nat (length (percpus (sc_sys s)))) →
  Z.of_nat (length qs) = 2 * ncpu (sc_sys s) →
  ∃ s' ls', create_demo_threads f s = Ret (2 * ncpu (sc_sys s), s') ∧ unlocked s' r ∧
    queues (sc_sys s') fl ls' ∧
    (∀ j, ls' !! j = (λ l, l ++ (item <$> take 2 (drop (2 * j) qs))) <$> ls !! j) ∧
    (∀ k q, qs !! k = Some q → ready (mem_of s') (Z.of_nat k) (tp_thread q) (tp_stack q)) ∧
    others_kept (mem_of s) (mem_of s') (all_pages qs ++ (concat ls).*1) ∧ same_roles (sc_sys s) (sc_sys s').
Proof using Hf.
  intros Hu Hq Hn Hlen. unfold MAX_CPUS in Hn.
  assert (length ls = length (percpus (sc_sys s))) as Hls.
  { destruct Hq as (_ & _ & _ & Hall). by rewrite (Forall2_length _ _ _ Hall). }
  set (n := Z.to_nat (ncpu (sc_sys s))).
  destruct (demo_cpus_result fl n 65 s 0 qs ls Hu Hq) as (s' & E & Hu' & Hq' & Ho & Hro & Hr); [lia..|].
  exists s', (dealt 0 qs ls). split; [|split; [exact Hu'|split; [exact Hq'|split; [|split; [exact Hr|split; [exact Ho|exact Hro]]]]]].
  - replace (ncpu (sc_sys s)) with (Z.of_nat (0 + n)) by lia. exact E.
  - intros j. rewrite (dealt_lookup n) by lia. rewrite decide_True by lia. by rewrite Nat.sub_0_r.
Qed.
End demo.

(** * Witness *)

(** One CPU, eight free pages. *)
Definition demo_quads : list thread_pages :=
  [ThreadPages 0x300000 0x301000 0x302000 0x303000; ThreadPages 0x304000 0x305000 0x306000 0x307000].
Definition demo_eight : kmem :=
  Kmem (foldr (λ p m, store64 m p (p + 0x1000)) ∅
          [0x300000; 0x301000; 0x302000; 0x303000; 0x304000; 0x305000; 0x306000]) 0x300000.
Definition demo_one : system :=
  System demo_eight [demo_smp_cpu 0] 1 [0] (demo_smp_cpu 0) true (demo_processor 0).

Lemma demo_one_queues :
  queues (LK := demo_linker) demo_one (concat (pages_of <$> demo_quads) ++ []) [[]].
Proof.
  split; [|split; [|split]].
  - split_and!; [vm_compute; done| |].
    + apply (bool_decide_unpack _). vm_compute. exact I.
    + repeat constructor; vm_compute; congruence.
  - apply (bool_decide_unpack _). vm_compute. exact I.
  - constructor.
  - repeat constructor.
Qed.

Lemma create_demo_threads_spec_witness :
  ∃ s', create_demo_threads 0x123456 (demo_sched demo_one) = Ret (2, s') ∧
    queues (LK := demo_linker) (sc_sys s') [] [[(0x303000, 0x300000); (0x307000, 0x304000)]] ∧
    ready 0x123456 (km_mem (sy_kmem (sc_sys s'))) 1 0x304000 0x305000.
Proof.
  destruct (create_demo_threads_spec (LK := demo_linker) 0x123456 ltac:(lia) (Cpu 0) (demo_sched demo_one)
    demo_quads [] [[]]) as (s' & ls' & E & _ & Hq & Hl & Hr & _).
  - apply (demo_unlocked _ (demo_smp_cpu 0)); [split; reflexivity|reflexivity].
  - exact demo_one_queues.
  - unfold MAX_CPUS. cbn. lia.
  - reflexivity.
  - exists s'. split; [exact E|]. split; [|exact (Hr 1%nat _ eq_refl)].
    assert (ls' = [[(0x303000, 0x300000); (0x307000, 0x304000)]]) as <-; [|exact Hq].
    apply list_eq. intros [|j]; rewrite Hl; reflexivity.
Defined.
