(* ===== verification/ProcInit.v ===== *)
(** * The first process ([kernel/sched/proc.c], [procinit])

    What [kernel_main] has after [procinit]: one process with two threads, made
    from ten pages of the allocator, with the locks free and the run queues of
    the other scheduler as they were. *)

From S2P Require Import Prelude Memory Kalloc Ring Threads Context Percpu Spinlock SmpSched Proc DemoThreads.

Section procinit.
Context {LK : Linker}.

(** ** Locks *)

(** What happens to a system between taking a free lock and releasing it. *)
Lemma lock_section s r c lk : cli_inv s r c → lk_word lk = 0 →
  ∃ lk1 s1, acquire_spinlock 1 lk s = Ret (lk1, s1) ∧ same_sched s s1 ∧
    ∀ s2, queues_only s1 s2 →
    ∃ s3 c3, release_spinlock lk1 s2 = Ret (lk, s3) ∧ same_sched s2 s3 ∧ cli_inv s3 r c3 ∧ ncli c3 = ncli c.
Proof using Type.
  intros Hc Hw. destruct (locked_section (Sched lk true s) r) as (lk1 & s1 & Ea & Hs1 & Hrel); [by split; [|exists c]|].
  exists lk1, s1. unfold with_sched_lock in Ea. cbn [sched_lock sched_initialized sc_sys] in Ea.
  destruct (acquire_spinlock 1 lk s) as [[lk' s']| | |]; try done. injection Ea as -> ->.
  split; [done|]. split; [exact Hs1|]. intros s2 Hs2. destruct (Hrel s2 Hs2) as (s3 & Er & Hs3 & _ & _ & Hn3).
  destruct (Hn3 c (proj1 Hc)) as (c3 & Hc3 & Ed).
  exists s3, c3. unfold with_sched_lock in Er. cbn [sched_lock sched_initialized sc_sys] in Er.
  destruct (release_spinlock lk1 s2) as [[lk' s']| | |]; try done. injection Er as -> ->. done.
Qed.

Lemma same_sched_refl s : same_sched s s.
Proof using Type. repeat split. apply Forall_Forall2_diag, Forall_forall. by intros. Qed.

Lemma same_sched_trans s1 s2 s3 : same_sched s1 s2 → same_sched s2 s3 → same_sched s1 s3.
Proof using Type.
  intros (A1 & A2 & A3) (B1 & B2 & B3). split; [congruence|]. split; [congruence|].
  eapply Forall2_trans; [|exact A3|exact B3]. unfold same_view. intuition congruence.
Qed.

Lemma same_sched_kmem s s' k : same_sched s s' → same_sched (set_kmem k s) (set_kmem k s').
Proof using Type. intros (_ & A2 & A3). by repeat split. Qed.

(** [s'] is [s] with the memory [k] and perhaps other interrupt bookkeeping of
    the executing processor [r], which has [d] sections open. *)
Definition moved (r : cpu_ref) (d : Z) (s s' : system) (k : kmem) : Prop :=
  same_sched (set_kmem k s) s' ∧ ∃ c, cli_inv s' r c ∧ ncli c = d.

Lemma moved_start r s c : cli_inv s r c → moved r (ncli c) s s (sy_kmem s).
Proof using Type. intros Hc. split; [|by exists c]. replace (set_kmem (sy_kmem s) s) with s by (by destruct s). apply same_sched_refl. Qed.

Lemma moved_kmem r d s s' k k' : moved r d s s' k → moved r d s (set_kmem k' s') k'.
Proof using Type.
  intros [Hs (c & Hc & Hd)]. split; [by apply (same_sched_kmem _ _ k') in Hs|].
  destruct (cli_inv_queues _ _ _ _ (queues_only_kmem s' k') Hc) as (q & n & Hc'). by eexists.
Qed.

Lemma moved_mem r d s s' k : moved r d s s' k → sy_kmem s' = k.
Proof using Type. by intros [(-> & _) _]. Qed.

(** A lock is taken, an operation changes the memory from [k] to [k'], and the
    lock is released. *)
Lemma moved_lock r d s s' k k' lk : moved r d s s' k → lk_word lk = 0 →
  ∃ lk1 s1 s3, acquire_spinlock 1 lk s' = Ret (lk1, s1) ∧ sy_kmem s1 = k ∧
    release_spinlock lk1 (set_kmem k' s1) = Ret (lk, s3) ∧ moved r d s s3 k'.
Proof using Type.
  intros [Hs (c & Hc & Hd)] Hw. destruct (lock_section s' r c lk Hc Hw) as (lk1 & s1 & Ea & Hs1 & Hrel).
  destruct (Hrel (set_kmem k' s1) (queues_only_kmem s1 k')) as (s3 & c3 & Er & Hs3 & Hc3 & Hd3).
  exists lk1, s1, s3. split; [exact Ea|]. split; [by rewrite (proj1 Hs1), (proj1 Hs)|]. split; [exact Er|].
  split; [|exists c3; split; [done|congruence]]. eapply same_sched_trans; [|exact Hs3].
  apply (same_sched_kmem _ _ k') in Hs. apply (same_sched_kmem _ _ k') in Hs1. by eapply same_sched_trans.
Qed.

(** ** Memory *)

(** Writing to a page that is not free. *)
Lemma write_used k p fl m' : free_list k fl → page_ok p → (p ∉ fl) → only_changes (km_mem k) m' p PGSIZE →
  free_list (set_mem m' k) fl ∧ others_kept (km_mem k) m' [p].
Proof using Type.
  intros Hf Hp Hn Hch. assert (others_kept (km_mem k) m' [p]) as Ho by (eapply others_kept_page; [done|left|done]).
  split; [|done]. eapply free_list_frame; [exact Hf|]. eapply others_kept_pages; [exact Ho|apply Hf|].
  intros q Hq ->%list_elem_of_singleton. exact (Hn Hq).
Qed.

(** Writing to the kernel's variables. *)
Lemma write_static k a v fl : free_list k fl → a + 8 ≤ KEND → apart a 8 p4_table (4 * PGSIZE) →
  free_list (set_mem (store64 (km_mem k) a v) k) fl ∧ others_kept (km_mem k) (store64 (km_mem k) a v) [].
Proof using Type.
  intros Hf Ha Hap. assert (others_kept (km_mem k) (store64 (km_mem k) a v) []) as Ho.
  { split; [intros q [_ Hq] _|]; (eapply only_changes_agree; [apply store64_changes|]); [lia|unfold apart in Hap; lia]. }
  split; [|done]. eapply free_list_frame; [exact Hf|]. eapply others_kept_pages; [exact Ho|apply Hf|].
  intros q _. apply not_elem_of_nil.
Qed.

(** The thread [t] will start [f] with [argc] and [args]. *)
Definition starts (m : mem) (f argc args t st : Z) : Prop :=
  load64 m (t + TH_CONTEXT) = st + PGSIZE - CTX_SIZE ∧ context_at m (st + PGSIZE - CTX_SIZE) (first_regs argc args) f.

Lemma starts_agree m m' f argc args t st :
  agree m m' t (TH_CONTEXT + 8) → agree m m' st PGSIZE → starts m f argc args t st → starts m' f argc args t st.
Proof using Type.
  intros Ht Hst (H2 & H3). split.
  - rewrite (load64_agree m m'); [done|]. eapply agree_sub; [exact Ht|unfold TH_CONTEXT; lia..].
  - eapply context_at_agree; [|done]. eapply agree_sub; [exact Hst|unfold CTX_SIZE, PGSIZE; lia..].
Qed.

Lemma thread_made k t st ks fl f argc args : free_list k (t :: st :: ks :: fl) →
  0 ≤ f < 2 ^ 64 → 0 ≤ argc < 2 ^ 31 → 0 ≤ args < 2 ^ 64 →
  ∃ k', create_thread f argc args k = Ret (t, k') ∧ free_list k' fl ∧
    others_kept (km_mem k) (km_mem k') [t; st; ks] ∧ starts (km_mem k') f argc args t st.
Proof using Type.
  intros Hfree Hf Hc Ha. destruct (create_thread_result k t st ks fl f argc args Hfree Hf Hc Ha) as (m & fr & E & Hf' & Ho).
  destruct Hfree as (_ & Hnd & Hpg). rewrite !Forall_cons in Hpg. destruct Hpg as (Pt & Pst & Pks & _).
  rewrite !NoDup_cons, !not_elem_of_cons in Hnd. destruct Hnd as ((N1 & N2 & _) & (N3 & _) & _).
  destruct (thread_mem_spec t st ks f argc args Pt Pst Pks N1 N2 N3 Hf Hc Ha m) as (T1 & _ & _ & _ & T5 & _).
  eexists. split; [exact E|]. split; [exact Hf'|]. split; [exact Ho|]. exact (conj T1 T5).
Qed.

(** ** [allocproc] *)

Lemma set_kmem_self s : set_kmem (sy_kmem s) s = s.
Proof using Type. by destruct s. Qed.

Lemma generate_pid_result r d s0 sys k l1 l2 pl pid ro kc : moved r d s0 sys k → lk_word l1 = 0 →
  ∃ sys', generate_pid (Procs sys l1 l2 pl pid ro kc) =
      Ret (u64 (s32 pid), Procs sys' l1 l2 pl (u64 (pid + 1)) ro kc) ∧ moved r d s0 sys' k.
Proof using Type.
  intros Hm Hw. destruct (moved_lock r d s0 sys k k l1 Hm Hw) as (lk1 & s1 & s3 & Ea & Hk & Er & Hm').
  exists s3. split; [|done]. rewrite <- Hk, set_kmem_self in Er.
  unfold generate_pid. rewrite (bind_ret _ _ _ () (Procs s1 lk1 l2 pl pid ro kc)).
  - rewrite bind_get. cbn [current_pid]. unfold set_current_pid. unfold bind at 1, modify at 1.
    rewrite (bind_ret _ _ _ () (Procs s3 l1 l2 pl (u64 (pid + 1)) ro kc)); [done|].
    unfold with_pid_lock. cbn [pid_lock pr_sys]. by rewrite Er.
  - unfold with_pid_lock. cbn [pid_lock pr_sys]. by rewrite Ea.
Qed.

(** The memory steps of [allocproc] after the page is allocated. *)
Lemma clear_proc k pr nd fl : free_list k (nd :: fl) → page_ok pr → (pr ∉ nd :: fl) →
  ∃ k1 k2 k3, wr64 (pr + PR_THREADS) 0 k = Ret ((), k1) ∧ wr32 (pr + PR_KILLED) 0 k1 = Ret ((), k2) ∧
    push_proc_list 0 pr k2 = Ret (nd, k3) ∧ free_list k3 fl ∧
    load64 (km_mem k3) (pr + PR_THREADS) = 0 ∧ load64 (km_mem k3) (nd + ND_DATA) = pr ∧
    others_kept (km_mem k) (km_mem k3) [pr; nd].
Proof using Type.
  intros Hf Hp Hn. set (m1 := store64 (km_mem k) (pr + PR_THREADS) 0).
  destruct (write_used k pr _ m1 Hf Hp Hn) as [Hf1 Ho1].
  { eapply only_changes_sub; [apply store64_changes|unfold PR_THREADS, PGSIZE; lia..]. }
  set (m2 := store32 m1 (pr + PR_KILLED) 0).
  destruct (write_used (set_mem m1 k) pr _ m2 Hf1 Hp Hn) as [Hf2 Ho2].
  { eapply only_changes_sub; [apply store_changes|unfold PR_KILLED, PGSIZE; cbn; lia..]. }
  set (k2 := set_mem m2 (set_mem m1 k)) in *.
  assert (queue_ok k2 (nd :: fl) 0 []) as Hq.
  { split; [exact Hf2|]. split; [apply Hf2|]. split; [apply Forall_nil_2|]. done. }
  destruct (push_list_result k2 fl nd 0 [] pr Hq) as (k3 & E & Hq3 & Ho3); [by apply page_ok_u64|].
  exists (set_mem m1 k), k2, k3. split; [done|]. split; [done|]. split; [exact E|]. split; [apply Hq3|].
  apply not_elem_of_cons in Hn as [Hne _]. cbn [fmap list_fmap] in Ho3. split; [|split].
  - rewrite (load64_agree (km_mem k2)).
    + change (km_mem k2) with m2. rewrite (load64_agree m1); [apply load64_store64; lia|].
      eapply only_changes_agree; [apply store_changes|]. unfold PR_THREADS, PR_KILLED. cbn. lia.
    + eapply agree_sub; [apply (proj1 Ho3 pr); [exact Hp|]|unfold PR_THREADS, PGSIZE; lia..].
      intros ->%list_elem_of_singleton; exact (Hne eq_refl).
  - destruct (queue_elem_ok _ _ _ _ nd pr Hq3) as [_ Hd]; [left|exact Hd].
  - eapply others_kept_trans; [eapply others_kept_sub; [|exact Ho1]; intros x ->%list_elem_of_singleton; left|].
    eapply others_kept_trans; [eapply others_kept_sub; [|exact Ho2]; intros x ->%list_elem_of_singleton; left|].
    eapply others_kept_sub; [|exact Ho3]. intros x Hx. by right.
Qed.

Lemma allocproc_result r d s0 sys k l1 l2 pid ro kc pr nd fl :
  moved r d s0 sys k → lk_word l1 = 0 → lk_word l2 = 0 → free_list k (pr :: nd :: fl) →
  ∃ sys' k', allocproc (Procs sys l1 l2 0 pid ro kc) = Ret (pr, Procs sys' l1 l2 nd (u64 (pid + 1)) ro kc) ∧
    moved r d s0 sys' k' ∧ free_list k' fl ∧
    load64 (km_mem k') (pr + PR_THREADS) = 0 ∧ load64 (km_mem k') (nd + ND_DATA) = pr ∧
    others_kept (km_mem k) (km_mem k') [pr; nd].
Proof using Type.
  intros Hm Hw1 Hw2 Hf. pose proof (moved_mem _ _ _ _ _ Hm) as Hk.
  destruct (kalloc_rep k pr _ Hf) as (k1 & E1 & Hf1 & Hch & _).
  pose proof Hf as (_ & [Hn _]%NoDup_cons & [Hp _]%Forall_cons).
  destruct (generate_pid_result r d s0 (set_kmem k1 sys) k1 l1 l2 0 pid ro kc) as (sys2 & E2 & Hm2); [by eapply moved_kmem|done|].
  destruct (clear_proc k1 pr nd fl Hf1 Hp Hn) as (k2 & k3 & k4 & F1 & F2 & F3 & Hf4 & L1 & L2 & Ho4).
  destruct (moved_lock r d s0 (set_kmem k3 sys2) k3 k4 l2) as (lk1 & s5 & s6 & Ea & Hk5 & Er & Hm6); [by eapply moved_kmem|done|].
  exists s6, k4. split; [|split; [exact Hm6|split; [exact Hf4|split; [exact L1|split; [exact L2|]]]]].
  - unfold allocproc. rewrite (bind_ret _ _ _ pr (Procs (set_kmem k1 sys) l1 l2 0 pid ro kc)).
    2: { rewrite <- Hk in E1. exact (kmem_of_ret _ (Procs sys l1 l2 0 pid ro kc) _ _ E1). }
    rewrite (proj2 (Z.eqb_neq pr 0)) by (by apply page_ok_nonzero). rewrite (bind_ret _ _ _ _ _ E2).
    rewrite <- (moved_mem _ _ _ _ _ Hm2) in F1.
    rewrite (bind_ret _ _ _ _ _ (kmem_of_ret _ (Procs sys2 l1 l2 0 (u64 (pid + 1)) ro kc) _ _ F1)).
    rewrite (bind_ret _ _ _ _ _ (kmem_of_ret _ (with_kmem k2 (Procs sys2 l1 l2 0 (u64 (pid + 1)) ro kc)) _ _ F2)).
    rewrite (bind_ret _ _ _ () (Procs s5 l1 lk1 0 (u64 (pid + 1)) ro kc)).
    2: { unfold with_proc_lock, with_kmem. cbn [proc_lock pr_sys]. change (set_kmem k3 (set_kmem k2 sys2)) with (set_kmem k3 sys2). by rewrite Ea. }
    rewrite bind_get. cbn [proc_list]. rewrite <- Hk5 in F3.
    rewrite (bind_ret _ _ _ _ _ (kmem_of_ret _ (Procs s5 l1 lk1 0 (u64 (pid + 1)) ro kc) _ _ F3)).
    unfold set_proc_list, with_kmem. unfold bind at 1, modify at 1. cbn [pr_sys pid_lock proc_lock proc_list current_pid current_proc_rounds kcontext_ptr].
    rewrite (bind_ret _ _ _ () (Procs s6 l1 l2 nd (u64 (pid + 1)) ro kc)); [done|].
    unfold with_proc_lock. cbn [proc_lock pr_sys]. by rewrite Er.
  - eapply others_kept_trans; [|exact Ho4]. eapply others_kept_page; [exact Hp|left|exact Hch].
Qed.

(** ** The threads *)

(** A thread is appended to those of a process. *)
Lemma proc_push_result k fl pr l n t : proc_ok k (n :: fl) pr l → page_ok t → t ≠ pr →
  ∃ k', proc_push_thread pr t k = Ret ((), k') ∧ proc_ok k' fl pr (l ++ [(n, t)]) ∧
    others_kept (km_mem k) (km_mem k') (pr :: n :: l.*1).
Proof using Type.
  intros (Hp & Hn & Hn2 & Hpt & Hq) Ht Hne.
  destruct (push_list_result k fl n _ l t Hq) as (k1 & E & Hq1 & Ho1); [by apply page_ok_u64|].
  set (h := default n (hd_error l.*1)) in *.
  assert (pr ∉ (l ++ [(n, t)]).*1 ++ fl) as Hn'.
  { rewrite fmap_fst_snoc, <- app_assoc. exact Hn. }
  assert (h = default 0 (hd_error (l ++ [(n, t)]).*1)) as Hh by (by destruct l as [|[] l]).
  assert (page_ok h) as Hph.
  { destruct Hq1 as (_ & _ & Hpg & _). rewrite Hh. destruct (l ++ [(n, t)]) as [|[a b] L] eqn:E1; [by destruct l|].
    cbn in Hpg. by apply Forall_cons in Hpg as [? _]. }
  pose proof (proc_store k1 fl pr (l ++ [(n, t)]) h h Hp Hn' (page_ok_u64 _ Hph) Hq1 Hh) as Hq2.
  eexists. split; [|split].
  - unfold proc_push_thread. unfold bind at 1, rd64. rewrite (bind_ret _ _ _ _ _ E). reflexivity.
  - split; [done|]. split; [exact Hn'|]. rewrite fmap_app. split; [|split].
    + rewrite not_elem_of_app. split; [done|]. intros ->%list_elem_of_singleton. exact (Hne eq_refl).
    + apply Forall_app. split; [done|]. by apply Forall_singleton.
    + exact Hq2.
  - eapply others_kept_trans; [eapply others_kept_sub; [|exact Ho1]; intros x Hx; by right|].
    eapply others_kept_page; [exact Hp|left|].
    eapply only_changes_sub; [apply store64_changes|unfold PR_THREADS, PGSIZE; lia..].
Qed.

(** ... and marked runnable. *)
Lemma mark_result k fl t : free_list k fl → page_ok t → (t ∉ fl) →
  ∃ k', change_thread_state t RUNNABLE k = Ret ((), k') ∧ free_list k' fl ∧ others_kept (km_mem k) (km_mem k') [t] ∧
    thread_runnable (km_mem k') t = true ∧ agree (km_mem k) (km_mem k') t (TH_CONTEXT + 8).
Proof using Type.
  intros Hf Ht Hn. destruct (write_used k t fl (store32 (km_mem k) (t + TH_STATE) (state_code RUNNABLE)) Hf Ht Hn) as [Hf' Ho].
  { eapply only_changes_sub; [apply store_changes|unfold TH_STATE, PGSIZE; cbn; lia..]. }
  eexists. split; [reflexivity|]. split; [exact Hf'|]. split; [exact Ho|]. split; [apply runnable_store|].
  eapply only_changes_agree; [apply (store_changes (km_mem k) (t + TH_STATE) 4)|]. unfold TH_STATE, TH_CONTEXT. lia.
Qed.

(** The part of [procinit] after [allocproc], on memory alone. *)
Definition init_threads (thread_function arg1 arg2 arg_value1 arg_value2 init_proc : Z) : M kmem () :=
  do* wr64 (arg1 + 8) 4 in
  do* wr64 arg1 arg_value1 in
  do* wr64 (arg2 + 8) 4 in
  do* wr64 arg2 arg_value2 in
  let* new_thread1 := create_thread thread_function 1 arg1 in
  let* new_thread2 := create_thread thread_function 1 arg2 in
  do* change_thread_state new_thread1 RUNNABLE in
  do* change_thread_state new_thread2 RUNNABLE in
  do* proc_push_thread init_proc new_thread1 in
  proc_push_thread init_proc new_thread2.

Lemma kmem_of_bind {A B} (c : M kmem A) (f : A → M kmem ()) (g : A → M procs B) (h : M procs B) s :
  (∀ a s', g a s' = bind (kmem_of (f a)) (λ _, h) s') → bind (kmem_of c) g s = bind (kmem_of (bind c f)) (λ _, h) s.
Proof using Type.
  intros Hg. unfold bind at 1 2, kmem_of at 1 2, in_sys, on_kmem at 1 2. unfold bind at 1.
  destruct (c (sy_kmem (pr_sys s))) as [[a k]| | |] eqn:E; [|done..]. apply Hg.
Qed.

Lemma procinit_threads tf a1 a2 v1 v2 sys l1 l2 pl pid ro kc s1 pr k' :
  allocproc (Procs sys (init_spinlock l1 "pid_lock") (init_spinlock l2 "proc_lock") pl pid ro kc) = Ret (pr, s1) →
  init_threads tf a1 a2 v1 v2 pr (sy_kmem (pr_sys s1)) = Ret ((), k') →
  procinit tf a1 a2 v1 v2 (Procs sys l1 l2 pl pid ro kc) = Ret (proc_list s1, with_kmem k' s1).
Proof using Type.
  intros E1 E2. unfold procinit. unfold bind at 1, modify at 1. cbn [pr_sys pid_lock proc_lock proc_list current_pid current_proc_rounds kcontext_ptr].
  rewrite (bind_ret _ _ _ _ _ E1).
  transitivity (bind (kmem_of (init_threads tf a1 a2 v1 v2 pr)) (λ _, let* s := get in ret (proc_list s)) s1).
  - unfold init_threads. repeat (apply kmem_of_bind; intros ? ?). done.
  - by rewrite (bind_ret _ _ _ _ _ (kmem_of_ret _ _ _ _ E2)).
Qed.

Lemma starts_kept m m' l f argc args t st : others_kept m m' l → page_ok t → page_ok st → (t ∉ l) → (st ∉ l) →
  starts m f argc args t st → starts m' f argc args t st.
Proof using Type.
  intros Ho Ht Hst Hn1 Hn2. apply starts_agree; [|by apply Ho].
  apply (agree_sub m m' t PGSIZE); [by apply Ho|unfold TH_CONTEXT, PGSIZE; lia..].
Qed.

Lemma runnable_kept m m' l t : others_kept m m' l → page_ok t → (t ∉ l) → thread_runnable m t = true → thread_runnable m' t = true.
Proof using Type. intros Ho Ht Hn Hr. rewrite (runnable_agree m m'); [done|by apply Ho]. Qed.

Lemma field_kept m m' l p off : others_kept m m' l → page_ok p → (p ∉ l) → 0 ≤ off → off + 8 ≤ PGSIZE →
  load64 m' (p + off) = load64 m (p + off).
Proof using Type. intros Ho Hp Hn H1 H2. apply load64_agree. apply (agree_sub m m' p PGSIZE); [by apply Ho|lia..]. Qed.

(** The arguments of the threads are variables of the kernel. *)
Definition static (a : Z) : Prop := KSTART ≤ a ∧ a + 16 ≤ KEND ∧ apart a 16 p4_table (4 * PGSIZE).

Lemma write_arg k a v fl : free_list k fl → static a →
  ∃ k1 k', wr64 (a + 8) 4 k = Ret ((), k1) ∧ wr64 a v k1 = Ret ((), k') ∧ free_list k' fl ∧
    others_kept (km_mem k) (km_mem k') [].
Proof using Type.
  intros Hf (Ha & Hb & Hap). unfold apart in Hap. destruct (write_static k (a + 8) 4 fl Hf) as [Hf1 Ho1]; [lia|unfold apart; lia|].
  destruct (write_static _ a v fl Hf1) as [Hf2 Ho2]; [lia|unfold apart; lia|]. eexists _, _. split; [reflexivity|]. split; [reflexivity|].
  split; [exact Hf2|]. by eapply others_kept_trans.
Qed.

(** [x ∉ l] for a list of pages that are pairwise different. *)
Ltac apart := rewrite ?not_elem_of_cons; repeat apply conj;
  first [assumption | apply not_eq_sym; assumption | apply not_elem_of_nil].

Lemma others_kept_nil m m' l : others_kept m m' [] → others_kept m m' l.
Proof using Type. intros Ho. eapply others_kept_sub; [|exact Ho]. intros x Hx. by apply elem_of_nil in Hx. Qed.

Lemma static_u64 a : static a → 0 ≤ a < 2 ^ 64.
Proof using Type. intros [H1 H2]. pose proof KEND_range. unfold KSTART, PHYSTOP in *. lia. Qed.

Lemma threads_kept m m' l p : others_kept m m' l → page_ok p → (p ∉ l) →
  load64 m (p + PR_THREADS) = 0 → load64 m' (p + PR_THREADS) = 0.
Proof using Type. intros Ho Hp Hn <-. apply (field_kept m m' l); [done..|unfold PR_THREADS, PGSIZE; lia|unfold PR_THREADS, PGSIZE; lia]. Qed.

Lemma proc_empty k fl pr : free_list k fl → page_ok pr → (pr ∉ fl) → load64 (km_mem k) (pr + PR_THREADS) = 0 → proc_ok k fl pr [].
Proof using Type.
  intros Hf Hp Hn Hl. split; [done|]. split; [done|]. split; [apply not_elem_of_nil|]. split; [apply Forall_nil_2|]. rewrite Hl.
  split; [exact Hf|]. split; [apply Hf|]. split; [apply Forall_nil_2|done].
Qed.

Lemma init_threads_result k tf a1 a2 v1 v2 pr t1 st1 ks1 t2 st2 ks2 n1 n2 fl
    (used := [pr; t1; st1; ks1; t2; st2; ks2; n1; n2]) :
  free_list k (t1 :: st1 :: ks1 :: t2 :: st2 :: ks2 :: n1 :: n2 :: fl) → NoDup (used ++ fl) → page_ok pr →
  static a1 → static a2 → 0 ≤ tf < 2 ^ 64 → load64 (km_mem k) (pr + PR_THREADS) = 0 →
  ∃ k', init_threads tf a1 a2 v1 v2 pr k = Ret ((), k') ∧ proc_ok k' fl pr [(n1, t1); (n2, t2)] ∧
    thread_runnable (km_mem k') t1 = true ∧ thread_runnable (km_mem k') t2 = true ∧
    starts (km_mem k') tf 1 a1 t1 st1 ∧ starts (km_mem k') tf 1 a2 t2 st2 ∧ others_kept (km_mem k) (km_mem k') used.
Proof using Type.
  intros Hf Hnd Hp Ha1 Ha2 Htf Hl0. pose proof Hf as (_ & _ & Hpg). rewrite !Forall_cons in Hpg.
  destruct Hpg as (Pt1 & Pst1 & Pks1 & Pt2 & Pst2 & Pks2 & Pn1 & Pn2 & Pfl).
  unfold used in Hnd. cbn [app] in Hnd. rewrite !NoDup_cons, !not_elem_of_cons in Hnd.
  destruct Hnd as ((?&?&?&?&?&?&?&?&?) & (?&?&?&?&?&?&?&?) & (?&?&?&?&?&?&?) & (?&?&?&?&?&?) & (?&?&?&?&?) & (?&?&?&?) & (?&?&?) & (?&?) & ? & Hndf).
  pose proof (static_u64 _ Ha1). pose proof (static_u64 _ Ha2).
  destruct (write_arg k a1 v1 _ Hf Ha1) as (k0 & k1 & E0 & E1 & Hf1 & Ho1).
  destruct (write_arg k1 a2 v2 _ Hf1 Ha2) as (k1' & k2 & E1' & E2 & Hf2 & Ho2).
  pose proof (others_kept_trans _ _ _ _ Ho1 Ho2) as Ho02.
  destruct (thread_made k2 t1 st1 ks1 _ tf 1 a1 Hf2 Htf) as (k3 & E3 & Hf3 & Ho3 & S3); [split; [discriminate|reflexivity]|assumption|].
  destruct (thread_made k3 t2 st2 ks2 _ tf 1 a2 Hf3 Htf) as (k4 & E4 & Hf4 & Ho4 & S4); [split; [discriminate|reflexivity]|assumption|].
  destruct (mark_result k4 _ t1 Hf4 Pt1) as (k5 & E5 & Hf5 & Ho5 & R5 & A5); [apart|].
  destruct (mark_result k5 _ t2 Hf5 Pt2) as (k6 & E6 & Hf6 & Ho6 & R6 & A6); [apart|].
  assert (load64 (km_mem k6) (pr + PR_THREADS) = 0) as Hl6.
  { eapply threads_kept; [exact Ho6|exact Hp|apart|]. eapply threads_kept; [exact Ho5|exact Hp|apart|].
    eapply threads_kept; [exact Ho4|exact Hp|apart|]. eapply threads_kept; [exact Ho3|exact Hp|apart|].
    eapply threads_kept; [exact Ho02|exact Hp|apart|exact Hl0]. }
  pose proof (proc_empty k6 _ pr Hf6 Hp ltac:(apart) Hl6) as P6.
  destruct (proc_push_result k6 _ pr [] n1 t1 P6 Pt1) as (k7 & E7 & P7 & Ho7); [apply not_eq_sym; assumption|]. cbn [app fmap list_fmap] in P7, Ho7.
  destruct (proc_push_result k7 _ pr _ n2 t2 P7 Pt2) as (k8 & E8 & P8 & Ho8); [apply not_eq_sym; assumption|]. cbn [app fmap list_fmap fst] in P8, Ho8.
  exists k8. split; [|split; [exact P8|split; [|split; [|split; [|split]]]]].
  - unfold init_threads. rewrite (bind_ret _ _ _ _ _ E0), (bind_ret _ _ _ _ _ E1), (bind_ret _ _ _ _ _ E1'), (bind_ret _ _ _ _ _ E2),
      (bind_ret _ _ _ _ _ E3), (bind_ret _ _ _ _ _ E4), (bind_ret _ _ _ _ _ E5), (bind_ret _ _ _ _ _ E6), (bind_ret _ _ _ _ _ E7). exact E8.
  - eapply runnable_kept; [exact Ho8|exact Pt1|apart|]. eapply runnable_kept; [exact Ho7|exact Pt1|apart|].
    eapply runnable_kept; [exact Ho6|exact Pt1|apart|exact R5].
  - eapply runnable_kept; [exact Ho8|exact Pt2|apart|]. eapply runnable_kept; [exact Ho7|exact Pt2|apart|exact R6].
  - eapply starts_kept; [exact Ho8|exact Pt1|exact Pst1|apart|apart|]. eapply starts_kept; [exact Ho7|exact Pt1|exact Pst1|apart|apart|].
    eapply starts_kept; [exact Ho6|exact Pt1|exact Pst1|apart|apart|].
    eapply starts_agree; [exact A5|apply Ho5; [exact Pst1|apart]|]. eapply starts_kept; [exact Ho4|exact Pt1|exact Pst1|apart|apart|exact S3].
  - eapply starts_kept; [exact Ho8|exact Pt2|exact Pst2|apart|apart|]. eapply starts_kept; [exact Ho7|exact Pt2|exact Pst2|apart|apart|].
    eapply starts_agree; [exact A6|apply Ho6; [exact Pst2|apart]|].
    eapply starts_kept; [exact Ho5|exact Pt2|exact Pst2|apart|apart|exact S4].
  - assert (∀ l m m', others_kept m m' l → (∀ x, x ∈ l → x ∈ used) → others_kept m m' used) as Hsub
      by (intros l m m' Ho Hx; by eapply others_kept_sub).
    eapply others_kept_trans; [by apply others_kept_nil|].
    eapply others_kept_trans; [apply (Hsub _ _ _ Ho3)|eapply others_kept_trans; [apply (Hsub _ _ _ Ho4)|
      eapply others_kept_trans; [apply (Hsub _ _ _ Ho5)|eapply others_kept_trans; [apply (Hsub _ _ _ Ho6)|
      eapply others_kept_trans; [apply (Hsub _ _ _ Ho7)|apply (Hsub _ _ _ Ho8)]]]]];
      unfold used; intros x; rewrite !elem_of_cons, elem_of_nil; clear; tauto.
Qed.

(** ** [procinit] *)

(** With ten free pages and the locks free, [procinit] makes one process with two
    runnable threads, which will start [thread_function] with one argument each,
    and leaves the process list on it; the locks are free again, and the queues of
    the SMP scheduler are as they were. *)
Theorem procinit_result r s c ls tf a1 a2 v1 v2 pr nd t1 st1 ks1 t2 st2 ks2 n1 n2 fl
    (used := [pr; nd; t1; st1; ks1; t2; st2; ks2; n1; n2]) :
  cli_inv (pr_sys s) r c → lk_word (pid_lock s) = 0 → lk_word (proc_lock s) = 0 →
  proc_list s = 0 → current_proc_rounds s < ROUNDS_PER_PROC →
  queues (pr_sys s) (used ++ fl) ls → static a1 → static a2 → 0 ≤ tf < 2 ^ 64 →
  ∃ s' k', procinit tf a1 a2 v1 v2 s = Ret (nd, s') ∧ moved r (ncli c) (pr_sys s) (pr_sys s') k' ∧
    queues (pr_sys s') fl ls ∧ lk_word (pid_lock s') = 0 ∧ lk_word (proc_lock s') = 0 ∧
    proc_list s' = nd ∧ first_proc_ok s' fl pr [(n1, t1); (n2, t2)] ∧
    thread_runnable (pr_mem s') t1 = true ∧ thread_runnable (pr_mem s') t2 = true ∧
    starts (pr_mem s') tf 1 a1 t1 st1 ∧ starts (pr_mem s') tf 1 a2 t2 st2 ∧
    others_kept (pr_mem s) (pr_mem s') used.
Proof using Type.
  intros Hc Hw1 Hw2 Hpl Hro Hq Ha1 Ha2 Htf. destruct s as [sys l1 l2 pl pid ro kc].
  cbn [pr_sys pid_lock proc_lock proc_list current_proc_rounds] in *. subst pl. unfold pr_mem. cbn [pr_sys].
  pose proof Hq as (Hf & _). pose proof Hf as (_ & Hnd & Hpg). unfold used in Hpg. cbn [app] in Hpg. rewrite !Forall_cons in Hpg.
  destruct Hpg as (Pp & Pn & _).
  destruct (allocproc_result r (ncli c) sys sys (sy_kmem sys) (init_spinlock l1 "pid_lock") (init_spinlock l2 "proc_lock") pid ro kc pr nd
    (t1 :: st1 :: ks1 :: t2 :: st2 :: ks2 :: n1 :: n2 :: fl)) as (sys1 & k1 & E1 & Hm1 & Hf1 & L1 & L2 & Ho1).
  { by eapply moved_start. } { unfold init_spinlock, is_locked. by rewrite Hw1. } { unfold init_spinlock, is_locked. by rewrite Hw2. }
  { exact Hf. }
  assert (NoDup (pr :: nd :: t1 :: st1 :: ks1 :: t2 :: st2 :: ks2 :: n1 :: n2 :: fl)) as Hnd' by exact Hnd.
  rewrite Permutation_swap in Hnd'. apply NoDup_cons in Hnd' as [Hndn Hnd'].
  destruct (init_threads_result k1 tf a1 a2 v1 v2 pr t1 st1 ks1 t2 st2 ks2 n1 n2 fl Hf1 Hnd' Pp Ha1 Ha2 Htf L1)
    as (k2 & E2 & Hok & R1 & R2 & S1 & S2 & Ho2).
  rewrite <- (moved_mem _ _ _ _ _ Hm1) in E2.
  pose proof (procinit_threads tf a1 a2 v1 v2 sys l1 l2 0 pid ro kc _ _ _ E1 E2) as E.
  assert (others_kept (km_mem (sy_kmem sys)) (km_mem k2) used) as Ho.
  { eapply others_kept_trans; (eapply others_kept_sub; [|first [exact Ho1|exact Ho2]]); unfold used; intros x;
      rewrite !elem_of_cons, elem_of_nil; clear; tauto. }
  pose proof (moved_kmem r (ncli c) sys sys1 k1 k2 Hm1) as Hm2.
  assert (queues (set_kmem k2 sys1) fl ls) as Hq2.
  { eapply queues_same; [exact (proj1 Hm2)|]. apply (queues_kmem sys k2 used); [exact Hq|apply Hok|exact Ho]. }
  eexists _, k2. split; [exact E|]. unfold with_kmem. cbn [pr_sys pid_lock proc_lock proc_list].
  split; [exact Hm2|]. split; [exact Hq2|]. split; [unfold init_spinlock, is_locked; by rewrite Hw1|].
  split; [unfold init_spinlock, is_locked; by rewrite Hw2|]. split; [reflexivity|].
  split; [|split; [exact R1|split; [exact R2|split; [exact S1|split; [exact S2|exact Ho]]]]].
  split; [exact Pn|]. unfold pr_mem. cbn [pr_sys proc_list sy_kmem set_kmem current_proc_rounds].
  assert (nd ∉ [pr; t1; st1; ks1; t2; st2; ks2; n1; n2]) as Hndn'.
  { intros Hx. apply Hndn. revert Hx. rewrite !elem_of_cons, elem_of_nil. clear; tauto. }
  split; [intros ->; apply Hndn'; left|]. split; [|split; [exact Hok|split; [|exact Hro]]].
  - rewrite (field_kept _ _ _ nd ND_DATA Ho2 Pn Hndn'); [exact L2|unfold ND_DATA, PGSIZE; lia..].
  - cbn. apply NoDup_cons. split; [|apply NoDup_singleton].
    rewrite !NoDup_cons in Hnd'. destruct Hnd' as (_ & Hx & _). intros E0%list_elem_of_singleton. apply Hx. rewrite E0. do 2 right. left.
Qed.
End procinit.
