(* ===== verification/KernelSched.v ===== *)
(** * The kernel's start ([kernel/main.c]): processors and scheduler

    The part of [kernel_main] that follows the set-up of memory: the per-CPU
    structures and stacks, the scheduler of the bootstrap processor, the first
    process, the first threads, and the first round of the scheduler. *)

From S2P Require Import Prelude Memory Kalloc Ring Threads Context Percpu Spinlock SmpSched SchedRound Proc DemoThreads ProcInit.

Section main.
Context {LK : Linker} {PS : PercpuSymbol}.

(** [kernel_main] from [percpu_init_bsp] to [sched_init_cpu]; [idle_thread_func]
    is the address of that function. *)
Definition init_cpus (cpu_count idle_thread_func : Z) : M sched () :=
  do* on_sys (percpu_init_bsp cpu_count) in
  do* on_sys percpu_alloc_stacks in
  do* sched_init in
  on_sys (sched_init_cpu idle_thread_func).

(** The state of the scheduler and that of the processes share the system. *)
Definition procs_of (s : sched) (p : procs) : procs :=
  Procs (sc_sys s) (pid_lock p) (proc_lock p) (proc_list p) (current_pid p) (current_proc_rounds p) (kcontext_ptr p).

(** [procinit] and [peek_thread_list(init_proc_node->data->threads)] *)
Definition init_process (thread_function arg1 arg2 arg_value1 arg_value2 : Z) : M procs Z :=
  let* init_proc_node := procinit thread_function arg1 arg2 arg_value1 arg_value2 in
  let* data := kmem_of (rd64 (init_proc_node + ND_DATA)) in
  let* threads := kmem_of (rd64 (data + PR_THREADS)) in
  kmem_of (peek_thread_list threads).

(** [mycpu()->scheduler_ready = true] *)
Definition mark_ready : M system () :=
  let* cpu := mycpu in
  update cpu (λ c, set_sched (idle_thread c) (scheduler_ctx c) true c).

(** [kernel_main] from [create_demo_threads] to the loop of [sched_run]. *)
Definition start_scheduler (demo_thread_func : Z) : M sched () :=
  let* _ := create_demo_threads demo_thread_func in
  do* on_sys mark_ready in
  on_sys sched_run_enter.

(** * Properties *)

(** ** The bootstrap processor *)

(** The executing processor is the one with the APIC identifier [id], and its
    structure is the first. *)
Definition bsp (s : system) (id : Z) : Prop :=
  percpu_fully_initialized s = true ∧ apic_to_cpu s !! Z.to_nat id = Some 0 ∧
  hw_apic_id (sy_hw s) = id ∧ 0 < ncpu s ≤ MAX_CPUS.

Lemma bsp_mycpu s id : bsp s id → mycpu s = Ret (Cpu 0, s).
Proof using Type.
  intros (Hf & Ha & Hid & Hn). unfold mycpu, bind, get, get_apic_id, gets, ret. rewrite Hf. cbn [negb].
  rewrite Hid, Ha. cbn [orb Z.ltb Z.compare]. replace (s32 (ncpu s) <=? 0) with false; [done|].
  symmetry. apply Z.leb_gt. unfold s32, MAX_CPUS in *. rewrite Z.mod_small; lia.
Qed.

(** What is the same in two states but the memory, the structures of the CPUs and
    the descriptor registers. *)
Definition same_boot (s s' : system) : Prop :=
  percpu_fully_initialized s' = percpu_fully_initialized s ∧ apic_to_cpu s' = apic_to_cpu s ∧
  ncpu s' = ncpu s ∧ hw_apic_id (sy_hw s') = hw_apic_id (sy_hw s) ∧ hw_if (sy_hw s') = hw_if (sy_hw s).

Lemma same_boot_trans s1 s2 s3 : same_boot s1 s2 → same_boot s2 s3 → same_boot s1 s3.
Proof using Type. unfold same_boot. intuition congruence. Qed.

Lemma bsp_same s s' id : same_boot s s' → bsp s id → bsp s' id.
Proof using Type. intros (E1 & E2 & E3 & E4 & _). unfold bsp. by rewrite E1, E2, E3, E4. Qed.

(** ** Memory and structures *)

(** A page is taken from the allocator. *)
Lemma alloc_page s p fl ls : queues s (p :: fl) ls →
  ∃ k', kalloc (sy_kmem s) = Ret (p, k') ∧ queues (set_kmem k' s) fl ls ∧
    others_kept (km_mem (sy_kmem s)) (km_mem k') [p] ∧ page_ok p ∧ (p ∉ (concat ls).*1 ++ fl).
Proof using Type.
  intros Hq. pose proof Hq as (Hf & Hnd & _). destruct (kalloc_rep _ _ _ Hf) as (k' & E & Hf' & Hch & _).
  pose proof Hf as (_ & _ & [Hp _]%Forall_cons).
  assert (others_kept (km_mem (sy_kmem s)) (km_mem k') [p]) as Ho by (eapply others_kept_page; [done|left|done]).
  exists k'. split; [done|]. split; [by apply (queues_kmem s k' [p])|]. split; [done|]. split; [done|].
  rewrite <- Permutation_middle in Hnd. by apply NoDup_cons in Hnd as [Hn _].
Qed.

(** A page in use, which is no node of a queue, is written. *)
Lemma write_page s m' p fl ls : queues s fl ls → page_ok p → (p ∉ (concat ls).*1 ++ fl) →
  only_changes (km_mem (sy_kmem s)) m' p PGSIZE →
  queues (set_kmem (set_mem m' (sy_kmem s)) s) fl ls ∧ others_kept (km_mem (sy_kmem s)) m' [p].
Proof using Type.
  intros Hq Hp Hn Hch. assert (others_kept (km_mem (sy_kmem s)) m' [p]) as Ho by (eapply others_kept_page; [done|left|done]).
  split; [|done]. eapply queues_other_page; [done|by split|done].
Qed.

(** ... as a stack that is cleared. *)
Lemma stack_page s p fl ls : queues s (p :: fl) ls →
  ∃ k1 k2, kalloc (sy_kmem s) = Ret (p, k1) ∧ kmemset p 0 PGSIZE k1 = Ret ((), k2) ∧
    queues (set_kmem k2 s) fl ls ∧ others_kept (km_mem (sy_kmem s)) (km_mem k2) [p] ∧
    page_ok p ∧ (p ∉ (concat ls).*1 ++ fl).
Proof using Type.
  intros Hq. destruct (alloc_page s p fl ls Hq) as (k1 & E1 & Hq1 & Ho1 & Hp & Hn).
  destruct (write_page (set_kmem k1 s) (memset (km_mem k1) p 0 PGSIZE) p fl ls Hq1 Hp Hn) as [Hq2 Ho2].
  { by apply memset_changes. }
  exists k1, (set_mem (memset (km_mem k1) p 0 PGSIZE) k1). split; [exact E1|]. split; [done|]. split; [exact Hq2|].
  split; [by eapply others_kept_trans|done].
Qed.

(** A state whose memory is [k] and whose [i]-th structure is [c]. *)
Definition at_cpu (i : nat) (c : percpu) (k : kmem) (s : system) : system := put_cpu (Cpu i) c (set_kmem k s).

Lemma at_cpu_start i c s : percpus s !! i = Some c → s = at_cpu i c (sy_kmem s) s.
Proof using Type. intros Hi. unfold at_cpu. rewrite put_same; [by destruct s|]. cbn [deref percpus set_kmem]. by rewrite Hi. Qed.

Lemma at_cpu_mem {A B} i c k s (f : M kmem A) a k' (g : A → M system B) :
  f k = Ret (a, k') → bind (on_kmem f) g (at_cpu i c k s) = g a (at_cpu i c k' s).
Proof using Type. intros E. rewrite (bind_ret _ _ _ _ _ (on_kmem_ret f (at_cpu i c k s) _ _ E)). done. Qed.

Lemma at_cpu_deref i c k s : (i < length (percpus s))%nat → deref (Cpu i) (at_cpu i c k s) = Ret (c, at_cpu i c k s).
Proof using Type. intros Hi. unfold at_cpu. cbn [deref put_cpu set_percpus percpus set_kmem]. by rewrite list_lookup_insert_eq. Qed.

Lemma at_cpu_update {B} i c k s f (g : () → M system B) : (i < length (percpus s))%nat →
  bind (update (Cpu i) f) g (at_cpu i c k s) = g () (at_cpu i (f c) k s).
Proof using Type. intros Hi. rewrite (bind_update _ _ _ _ _ (at_cpu_deref i c k s Hi)). unfold at_cpu. by rewrite put_put. Qed.

(** ** The stacks *)

(** The structure [c] with its two stacks, to whose ends its TSS points. *)
Definition stacked (st ks : Z) (c : percpu) : percpu :=
  set_tss (Tss64 (ks + 4096) 0 0 (st + 4096) 0 0 0 0 0 0 TSS_SIZE) (set_stacks st ks c).
Definition has_stacks (c c' : percpu) (st ks : Z) : Prop :=
  ∃ g p, c' = set_gdt g p (stacked st ks c).

Lemma set_gdt_same c : set_gdt (gdt c) (pc_gdt_ptr c) c = c.
Proof using Type. by destruct c. Qed.

(** What the loop has done from [s] to [s'] for the CPUs from [i] on, with the
    pages [ps]; the first CPU, the executing one, also loads its GDT. *)
Record stacks_done (s s' : system) (i : nat) (ps : list Z) : Prop := {
  sd_boot : same_boot s s';
  sd_kept : others_kept (km_mem (sy_kmem s)) (km_mem (sy_kmem s')) ps;
  sd_early : early_bsp_percpu s' = early_bsp_percpu s;
  sd_other j : (j < i)%nat ∨ (i + length ps / 2 ≤ j)%nat → percpus s' !! j = percpus s !! j;
  sd_stacks k st ks : ps !! (2 * k)%nat = Some st → ps !! (S (2 * k))%nat = Some ks →
    ∃ c c', percpus s !! (i + k)%nat = Some c ∧ percpus s' !! (i + k)%nat = Some c' ∧ has_stacks c c' st ks;
  sd_hw : i ≠ O → sy_hw s' = sy_hw s;
  sd_gdt : i = O → ps ≠ [] → gdt_loaded 0 s'
}.

Lemma stacks_turn i n s st ks fl ls c : queues s (st :: ks :: fl) ls → percpus s !! i = Some c →
  ∃ s', alloc_stacks_loop i (S n) s = alloc_stacks_loop (S i) n s' ∧ queues s' fl ls ∧ stacks_done s s' i [st; ks].
Proof using Type.
  intros Hq Hi. pose proof (lookup_lt_Some _ _ _ Hi) as Hlt.
  destruct (stack_page s st (ks :: fl) ls Hq) as (k1 & k2 & E1 & E2 & Hq2 & Ho2 & Hst & _).
  destruct (stack_page (set_kmem k2 s) ks fl ls Hq2) as (k3 & k4 & E3 & E4 & Hq4 & Ho4 & Hks & _).
  apply page_ok_nonzero in Hst as Hst0. apply page_ok_nonzero in Hks as Hks0.
  replace (alloc_stacks_loop i (S n) s) with (alloc_stacks_loop i (S n) (at_cpu i c (sy_kmem s) s))
    by (by rewrite <- (at_cpu_start i c s Hi)).
  cbn [alloc_stacks_loop]. rewrite (at_cpu_mem _ _ _ _ _ _ _ _ E1), at_cpu_update by done.
  unfold clear_page at 1. rewrite (proj2 (Z.eqb_neq st 0)), (at_cpu_mem _ _ _ _ _ _ _ _ E2) by done.
  rewrite (at_cpu_mem _ _ _ _ _ _ _ _ E3), at_cpu_update by done.
  unfold clear_page at 1. rewrite (proj2 (Z.eqb_neq ks 0)), (at_cpu_mem _ _ _ _ _ _ _ _ E4) by done.
  unfold setup_tss. rewrite at_cpu_update by done. cbn [kstack int_stack set_stacks].
  rewrite (proj2 (Z.eqb_neq st 0)), (proj2 (Z.eqb_neq ks 0)) by done. fold (stacked st ks c).
  assert (∀ g p h, (i ≠ O → h = sy_hw s) → hw_apic_id h = hw_apic_id (sy_hw s) → hw_if h = hw_if (sy_hw s) →
    let s' := set_hw h (at_cpu i (set_gdt g p (stacked st ks c)) k4 s) in
    (i = O → gdt_loaded 0 s') → queues s' fl ls ∧ stacks_done s s' i [st; ks]) as Hdone.
  { intros g p h Hh0 Hh1 Hh2 s' Hg. split.
    { apply (queues_put (set_kmem k4 s) fl ls i c); [exact Hq4|exact Hi|done|done]. }
    split; [by repeat split| | |intros j Hj|intros [|k] st' ks' H1 H2|exact Hh0|intros H0 _; exact (Hg H0)].
    - eapply others_kept_trans; (eapply others_kept_sub; [|eassumption]); intros x ->%list_elem_of_singleton; [left|right; left].
    - done.
    - cbn. rewrite list_lookup_insert_ne; [done|]. cbn in Hj. lia.
    - injection H1 as <-. injection H2 as <-. rewrite Nat.add_0_r. eexists _, _. split; [exact Hi|].
      split; [by apply list_lookup_insert_eq|]. by exists g, p.
    - apply lookup_lt_Some in H1. cbn [length] in H1. lia. }
  destruct i as [|i].
  - unfold percpu_setup_gdt. rewrite bind_assoc, at_cpu_update by done. unfold percpu_load_gdt.
    rewrite bind_assoc, (bind_ret _ _ _ _ _ (at_cpu_deref _ _ _ _ Hlt)). unfold bind at 1, modify at 1.
    eexists. split; [reflexivity|]. by apply Hdone.
  - eexists. split; [reflexivity|]. pose proof (Hdone (gdt c) (pc_gdt_ptr c) (sy_hw s) (λ _, eq_refl) eq_refl eq_refl) as H.
    cbv zeta in H. exact (H ltac:(done)).
Qed.

(** All CPUs. *)
Lemma stacks_loop n : ∀ i s ps fl ls, queues s (ps ++ fl) ls → length ps = (2 * n)%nat → (i + n ≤ length (percpus s))%nat →
  ∃ s', alloc_stacks_loop i n s = Ret ((), s') ∧ queues s' fl ls ∧ stacks_done s s' i ps.
Proof using Type.
  induction n as [|n IH]; intros i s ps fl ls Hq Hlen Hi.
  - apply nil_length_inv in Hlen as ->. exists s. split; [done|]. split; [done|].
    split; [by repeat split|apply others_kept_refl|done|done|by intros ? ? ? ?|done|done].
  - destruct ps as [|st [|ks ps]]; cbn [length] in Hlen; [lia..|].
    destruct (lookup_lt_is_Some_2 (percpus s) i) as [c Hc]; [lia|].
    destruct (stacks_turn i n s st ks _ ls c Hq Hc) as (s1 & E1 & Hq1 & D1).
    assert (length (percpus s1) = length (percpus s)) as Hl1.
    { destruct Hq as (_ & _ & _ & Ha%Forall2_length), Hq1 as (_ & _ & _ & Hb%Forall2_length). congruence. }
    destruct (IH (S i) s1 ps fl ls Hq1) as (s' & E & Hq' & D'); [lia|lia|].
    exists s'. rewrite E1. split; [exact E|]. split; [exact Hq'|].
    destruct D1 as [B1 K1 Y1 O1 S1 H1 G1], D' as [B2 K2 Y2 O2 S2 H2 G2]. split.
    + by eapply same_boot_trans.
    + eapply others_kept_trans; (eapply others_kept_sub; [|eassumption]); intros x; rewrite !elem_of_cons, ?elem_of_nil; tauto.
    + congruence.
    + intros j Hj. cbn [length] in Hj. replace (S (S (length ps)) / 2)%nat with (S (length ps / 2)) in Hj.
      * rewrite O2, O1; [done|cbn; lia|lia].
      * symmetry. apply (Nat.div_add_l 1 2 (length ps)). lia.
    + intros [|k] a b Ha Hb.
      * destruct (S1 0%nat a b Ha Hb) as (c0 & c' & A & B & C). rewrite Nat.add_0_r in *. exists c0, c'.
        rewrite O2 by lia. done.
      * destruct (S2 k a b) as (c0 & c' & A & B & C); [..|].
        { replace (2 * S k)%nat with (S (S (2 * k))) in Ha by lia. exact Ha. }
        { replace (S (2 * S k))%nat with (S (S (S (2 * k)))) in Hb by lia. exact Hb. }
        replace (i + S k)%nat with (S i + k)%nat by lia. exists c0, c'. split; [|done]. rewrite <- O1; [done|]. cbn. lia.
    + intros Hn. rewrite H2, H1 by lia. done.
    + intros -> _. unfold gdt_loaded. rewrite H2 by lia. by apply G1.
Qed.

(** ** The scheduler of the bootstrap processor *)

(** A thread with a context is ready once it is marked runnable. *)
Lemma marked_ready f m t st : page_ok t → page_ok st → t ≠ st →
  load64 m (t + TH_CONTEXT) = st + PGSIZE - CTX_SIZE → load64 m (t + TH_STACK) = st + PGSIZE →
  context_at m (st + PGSIZE - CTX_SIZE) (first_regs 0 0) f →
  ready f (store32 m (t + TH_STATE) (state_code RUNNABLE)) 0 t st.
Proof using Type.
  intros Ht Hst N T1 T2 T5. pose proof (pages_disjoint t st (proj1 Ht) (proj1 Hst) N) as Hd.
  split; [apply runnable_store|]. split; [|split].
  - rewrite (load64_agree m); [exact T1|]. eapply only_changes_agree; [apply (store_changes m (t + TH_STATE) 4)|].
    unfold TH_CONTEXT, TH_STATE. lia.
  - rewrite (load64_agree m); [exact T2|]. eapply only_changes_agree; [apply (store_changes m (t + TH_STATE) 4)|].
    unfold TH_STACK, TH_STATE. lia.
  - eapply context_at_agree; [|exact T5]. eapply only_changes_agree; [apply (store_changes m (t + TH_STATE) 4)|].
    unfold PGSIZE, CTX_SIZE, TH_STATE in *. lia.
Qed.

Lemma created_ready f m t st ks : 0 ≤ f < 2 ^ 64 → page_ok t → page_ok st → page_ok ks → t ≠ st → t ≠ ks → st ≠ ks →
  ready f (store32 (thread_mem m t st ks f 0 0) (t + TH_STATE) (state_code RUNNABLE)) 0 t st.
Proof using Type.
  intros Hf Ht Hst Hks N1 N2 N3.
  destruct (thread_mem_spec t st ks f 0 0 Ht Hst Hks N1 N2 N3 Hf ltac:(lia) ltac:(lia) m)
    as (T1 & T2 & _ & _ & T5 & _). exact (marked_ready f _ t st Ht Hst N1 T1 T2 T5).
Qed.

(** The idle thread. *)
Lemma create_idle_result f k t st ks fl : free_list k (t :: st :: ks :: fl) → 0 ≤ f < 2 ^ 64 →
  ∃ k', create_idle_thread f k = Ret (t, k') ∧ free_list k' fl ∧ others_kept (km_mem k) (km_mem k') [t; st; ks] ∧
    ready f (km_mem k') 0 t st.
Proof using Type.
  intros Hfree Hf. destruct (create_thread_result k t st ks fl f 0 0 Hfree Hf) as (m & fr & E & Hf' & Ho); [lia..|].
  pose proof Hfree as (_ & Hnd & Hpg). rewrite !Forall_cons in Hpg. destruct Hpg as (Pt & Pst & Pks & Pfl).
  rewrite !NoDup_cons, !not_elem_of_cons in Hnd. destruct Hnd as ((N1 & N2 & N3) & (N4 & N5) & N6 & _).
  pose proof (created_ready f m t st ks Hf Pt Pst Pks N1 N2 N4) as Hr.
  set (m1 := thread_mem m t st ks f 0 0) in *. clearbody m1.
  pose proof (change_state_others m1 t (state_code RUNNABLE) Pt) as Hs.
  exists (Kmem (store32 m1 (t + TH_STATE) (state_code RUNNABLE)) fr). split; [|split; [|split; [|exact Hr]]].
  - unfold create_idle_thread. rewrite (bind_ret _ _ _ _ _ E). rewrite (proj2 (Z.eqb_neq t 0)) by (by apply page_ok_nonzero). done.
  - eapply (free_list_frame (Kmem m1 fr)); [exact Hf'|]. eapply others_kept_pages; [exact Hs|exact Pfl|].
    intros q Hq ->%list_elem_of_singleton. exact (N3 Hq).
  - eapply others_kept_trans; [exact Ho|]. eapply others_kept_sub; [|exact Hs]. intros x ->%list_elem_of_singleton. left.
Qed.

(** The structure of the bootstrap processor with its scheduler set up: the
    page [sp] holds the scheduler's stack, [t] is the idle thread. *)
Definition with_scheduler (sp t : Z) (c : percpu) : percpu :=
  set_current 0 (set_sched t (sp + PGSIZE - CTX_SIZE) false (set_queue 0 0 c)).

Lemma sched_init_cpu_result f s id c sp t st ks fl ls :
  bsp s id → percpus s !! O = Some c → queues s (sp :: t :: st :: ks :: fl) ls → ls !! O = Some [] → 0 ≤ f < 2 ^ 64 →
  ∃ k', sched_init_cpu f s = Ret ((), at_cpu 0 (with_scheduler sp t c) k' s) ∧
    queues (at_cpu 0 (with_scheduler sp t c) k' s) fl ls ∧
    others_kept (km_mem (sy_kmem s)) (km_mem k') [sp; t; st; ks] ∧ ready f (km_mem k') 0 t st.
Proof using Type.
  intros Hb Hc Hq Hl Hf. pose proof (lookup_lt_Some _ _ _ Hc) as Hlt.
  destruct (stack_page s sp _ ls Hq) as (k1 & k2 & E1 & E2 & Hq2 & Ho2 & Psp & Hsp).
  destruct (write_page (set_kmem k2 s) (memset (km_mem k2) (sp + PGSIZE - CTX_SIZE) 0 CTX_SIZE) sp _ ls Hq2 Psp Hsp) as [Hq3 Ho3].
  { eapply only_changes_sub; [apply memset_changes; done|unfold PGSIZE, CTX_SIZE; lia..]. }
  set (k3 := set_mem (memset (km_mem k2) (sp + PGSIZE - CTX_SIZE) 0 CTX_SIZE) k2).
  change (queues (set_kmem k3 s) (t :: st :: ks :: fl) ls) in Hq3. pose proof Hq3 as (Hf3 & _).
  destruct (create_idle_result f k3 t st ks fl Hf3 Hf) as (k4 & E4 & Hf4 & Ho4 & Hr).
  assert (run_queue c = 0 ∧ num_threads c = 0) as [Hrq Hnt].
  { destruct (queues_lookup _ _ _ _ _ _ Hq Hc Hl) as [(_ & _ & _ & Hh & _) Hn]. done. }
  exists k4. split; [|split; [|split; [|exact Hr]]].
  - unfold sched_init_cpu. rewrite (bind_ret _ _ _ _ _ (bsp_mycpu s id Hb)).
    rewrite (at_cpu_start 0 c s Hc) at 1. rewrite at_cpu_update by exact Hlt.
    rewrite (at_cpu_mem _ _ _ _ _ _ _ _ E1). rewrite (proj2 (Z.eqb_neq sp 0)) by (by apply page_ok_nonzero).
    rewrite (at_cpu_mem _ _ _ _ _ _ _ _ E2), at_cpu_update by done.
    rewrite (at_cpu_mem _ _ _ _ (kmemset (sp + PGSIZE - CTX_SIZE) 0 CTX_SIZE) () k3) by reflexivity.
    rewrite (at_cpu_mem _ _ _ _ _ _ _ _ E4), at_cpu_update by done.
    rewrite (proj2 (Z.eqb_neq t 0)) by (apply page_ok_nonzero; destruct Hf3 as (_ & _ & Hx); by apply Forall_cons in Hx as [? _]).
    erewrite update_put; [|by apply at_cpu_deref]. unfold at_cpu. rewrite put_put. reflexivity.
  - apply (queues_put (set_kmem k4 s) fl ls 0 c); [|exact Hc|by rewrite Hrq|by rewrite Hnt].
    exact (queues_kmem (set_kmem k3 s) k4 [t; st; ks] fl ls Hq3 Hf4 Ho4).
  - eapply others_kept_trans; [eapply others_kept_sub; [|exact Ho2]; intros x ->%list_elem_of_singleton; left|].
    eapply others_kept_trans; [eapply others_kept_sub; [|exact Ho3]; intros x ->%list_elem_of_singleton; left|].
    eapply others_kept_sub; [|exact Ho4]. intros x Hx. by right.
Qed.

(** ** The per-CPU structures *)

Definition bsp_cpu (id : Z) : percpu :=
  Percpu (Some (Cpu 0)) id 0 true true 0 0 0 0 0 0 0 false 0 tss_zero 0 0 gdt_zero (GdtPtr 0 0).

Lemma init_bsp_result total s id :
  1 ≤ total → (0 < length (percpus s))%nat → hw_apic_id (sy_hw s) = id → 0 ≤ id < 256 →
  ∃ s', percpu_init_bsp total s = Ret ((), s') ∧ bsp s' id ∧ ncpu s' = Z.min total MAX_CPUS ∧
    sy_kmem s' = sy_kmem s ∧ sy_hw s' = sy_hw s ∧ percpus s' = <[O := bsp_cpu id]> (percpus s).
Proof using Type.
  intros Ht Hl Hid Hr. unfold percpu_init_bsp. unfold bind at 1, modify at 1.
  unfold bind at 1, get_apic_id, gets. cbn [sy_hw]. rewrite Hid.
  destruct (lookup_lt_is_Some_2 (percpus s) 0) as [c Hc]; [done|].
  erewrite bind_update; [|cbn [deref percpus]; by rewrite Hc].
  assert ((if MAX_CPUS <? total then MAX_CPUS else total) = Z.min total MAX_CPUS) as Hn by (case_test; lia).
  rewrite Hn. eexists. split; [reflexivity|]. split; [|by repeat split].
  split; [done|]. split; [apply (list_lookup_insert_eq (replicate 256 (-1))); rewrite length_replicate; lia|].
  split; [done|]. cbn. unfold MAX_CPUS. lia.
Qed.

(** ** From the first structure to the scheduler *)

(** No CPU has a thread. *)
Definition no_threads : list (list (Z * Z)) := replicate 64 [].

Lemma no_threads_concat : concat no_threads = [].
Proof using Type. done. Qed.

Lemma empty_queues s fl id : free_list (sy_kmem s) fl → percpus s = <[O := bsp_cpu id]> (replicate 64 percpu_zero) →
  queues s fl no_threads.
Proof using Type.
  intros Hf Hp. split; [done|]. rewrite no_threads_concat. split; [apply Hf|]. split; [apply Forall_nil_2|].
  rewrite Hp. apply Forall2_same_length_lookup_2; [done|]. intros i c l Hc Hl.
  apply lookup_replicate in Hl as [-> _].
  assert (run_queue c = 0 ∧ num_threads c = 0) as [-> ->]; [|done].
  destruct i as [|i]; [by injection Hc as <-|].
  rewrite list_lookup_insert_ne in Hc by done. by apply lookup_replicate in Hc as [-> _].
Qed.

(** The two stacks of CPU [i], of a page each, and its TSS. *)
Definition stacks_set (s : system) (i : nat) (st ks : Z) : Prop :=
  ∃ c, percpus s !! i = Some c ∧ int_stack c = st ∧ kstack c = ks ∧
    ist1 (tss c) = st + PGSIZE ∧ rsp0 (tss c) = ks + PGSIZE.

Lemma init_cpus_result total f s id ps sp t st ks fl :
  1 ≤ total → lk_word (sched_lock s) = 0 → percpus (sc_sys s) = replicate 64 percpu_zero → hw_apic_id (sy_hw (sc_sys s)) = id → 0 ≤ id < 256 →
  0 ≤ f < 2 ^ 64 → free_list (sy_kmem (sc_sys s)) (ps ++ sp :: t :: st :: ks :: fl) →
  Z.of_nat (length ps) = 2 * Z.min total MAX_CPUS →
  ∃ s' c, init_cpus total f s = Ret ((), s') ∧ unlocked s' (Cpu 0) ∧ sched_initialized s' = true ∧
    queues (sc_sys s') fl no_threads ∧ bsp (sc_sys s') id ∧ ncpu (sc_sys s') = Z.min total MAX_CPUS ∧
    hw_if (sy_hw (sc_sys s')) = hw_if (sy_hw (sc_sys s)) ∧
    (∀ i st' ks', ps !! (2 * i)%nat = Some st' → ps !! (S (2 * i))%nat = Some ks' → stacks_set (sc_sys s') i st' ks') ∧
    gdt_loaded 0 (sc_sys s') ∧
    percpus (sc_sys s') !! O = Some c ∧ cpu_booted 0 id c ∧ scheduler_ctx c = sp + PGSIZE - CTX_SIZE ∧
    idle_thread c = t ∧ current_thread c = 0 ∧ ready f (km_mem (sy_kmem (sc_sys s'))) 0 t st ∧
    others_kept (km_mem (sy_kmem (sc_sys s))) (km_mem (sy_kmem (sc_sys s'))) (ps ++ [sp; t; st; ks]).
Proof using Type.
  intros Ht Hw Hp Hid Hr Hf Hfree Hlen.
  destruct (init_bsp_result total (sc_sys s) id Ht) as (s1 & E1 & Hb1 & Hn1 & Hk1 & Hh1 & Hp1); [rewrite Hp; cbn; lia|done..|].
  rewrite Hp in Hp1. rewrite <- Hk1 in Hfree. pose proof (empty_queues s1 _ id Hfree Hp1) as Hq1.
  set (n := Z.to_nat (ncpu s1)). unfold MAX_CPUS in *.
  destruct (stacks_loop n 0 s1 ps (sp :: t :: st :: ks :: fl) no_threads Hq1) as (s2 & E2 & Hq2 & D2).
  { unfold n. lia. } { rewrite Hp1. cbn. unfold n. lia. }
  destruct ps as [|st0 [|ks0 ps0]] eqn:Eps; [cbn in Hlen; lia..|]. rewrite <- Eps in *.
  destruct (sd_stacks _ _ _ _ D2 0%nat st0 ks0) as (c1 & c2 & C1 & C2 & g & pt & Ec2); [by rewrite Eps..|].
  cbn [Nat.add] in C1, C2. rewrite Hp1 in C1. injection C1 as <-.
  pose proof (bsp_same _ _ _ (sd_boot _ _ _ _ D2) Hb1) as Hb2.
  destruct (sched_init_cpu_result f s2 id c2 sp t st ks fl no_threads Hb2 C2 Hq2) as (k' & E3 & Hq3 & Ho3 & Hrd); [done|done|].
  set (c3 := with_scheduler sp t c2) in *. set (s3 := at_cpu 0 c3 k' s2) in *.
  pose proof (lookup_lt_Some _ _ _ C2) as Hlt.
  assert (percpus s3 !! O = Some c3) as C3 by (by apply list_lookup_insert_eq).
  assert (bsp s3 id) as Hb3 by (eapply bsp_same; [|exact Hb2]; by repeat split).
  exists (Sched (init_spinlock (sched_lock s) "sched") true s3), c3. cbn [sc_sys sched_initialized].
  destruct (sd_boot _ _ _ _ D2) as (B1 & B2 & B3 & B4 & B5).
  split; [|split; [|split; [done|split; [exact Hq3|split; [exact Hb3|split; [exact (eq_trans B3 Hn1)|split; [|split; [|split; [|split; [exact C3|]]]]]]]]]].
  - unfold init_cpus. rewrite (bind_ret _ _ _ _ _ (on_sys_ret _ _ _ _ E1)).
    rewrite (bind_ret _ _ _ _ _ (on_sys_ret percpu_alloc_stacks (Sched _ _ s1) _ _ E2)).
    unfold bind, sched_init. exact (on_sys_ret _ (Sched _ _ s2) _ _ E3).
  - split; [unfold init_spinlock, is_locked; by rewrite Hw|]. exists c3. apply cli_inv_outside.
    + split; [by eapply bsp_mycpu|]. cbn [deref sc_sys]. by rewrite C3.
    + subst c3 c2. done.
  - cbn. rewrite B5. by rewrite Hh1.
  - intros i a b Ha Hb. destruct (sd_stacks _ _ _ _ D2 i a b Ha Hb) as (d & d' & Hd & Hd' & g' & p' & Ed).
    cbn [Nat.add] in Hd'. destruct i as [|i].
    + exists c3. split; [exact C3|]. rewrite C2 in Hd'. injection Hd' as <-. subst c3. rewrite Ed. done.
    + exists d'. split; [unfold s3; cbn; by rewrite list_lookup_insert_ne|]. rewrite Ed. done.
  - apply (sd_gdt _ _ _ _ D2 eq_refl). by rewrite Eps.
  - split; [|split; [done|split; [done|split; [done|split; [exact Hrd|]]]]].
    + subst c3 c2. by repeat split.
    + rewrite <- Hk1. eapply others_kept_trans; (eapply others_kept_sub; [|first [exact (sd_kept _ _ _ _ D2)|exact Ho3]]);
        intros x Hx; apply elem_of_app; tauto.
Qed.

(** ** The first round of the scheduler *)

(** The pages of two threads are different. *)
Lemma pages_distinct qs j k a b x : NoDup (concat (pages_of <$> qs)) → qs !! j = Some a → qs !! k = Some b → j ≠ k →
  x ∈ pages_of a → x ∉ pages_of b.
Proof using Type.
  revert j k. induction qs as [|q qs IH]; intros [|j] [|k] Hnd Ha Hb Hne Hx Hy; try done; cbn in Ha, Hb;
    cbn [fmap list_fmap concat] in Hnd; apply NoDup_app in Hnd as (_ & Hdis & Hnd).
  - injection Ha as <-. apply (Hdis x Hx). rewrite list_elem_of_In, in_concat. exists (pages_of b). rewrite <- !list_elem_of_In.
    split; [|done]. apply list_elem_of_fmap_2. by eapply list_elem_of_lookup_2.
  - injection Hb as <-. apply (Hdis x Hy). rewrite list_elem_of_In, in_concat. exists (pages_of a). rewrite <- !list_elem_of_In.
    split; [|done]. apply list_elem_of_fmap_2. by eapply list_elem_of_lookup_2.
  - apply (IH j k Hnd Ha Hb ltac:(lia) Hx Hy).
Qed.

(** The nodes and threads in the queues that [create_demo_threads] leaves. *)
Lemma dealt_items qs (ls' : list (list (Z * Z))) x :
  (∀ j, ls' !! j = (λ l, l ++ (item <$> take 2 (drop (2 * j) qs))) <$> no_threads !! j) →
  x ∈ concat ls' → ∃ q, q ∈ qs ∧ x = item q.
Proof using Type.
  intros Hls Hx. rewrite list_elem_of_In, in_concat in Hx. destruct Hx as (l & Hl & Hx). apply list_elem_of_In in Hl. apply list_elem_of_In in Hx.
  apply list_elem_of_lookup in Hl as [j Hj]. rewrite Hls in Hj. unfold no_threads in Hj.
  apply fmap_Some in Hj as (l0 & [-> _]%lookup_replicate & ->). cbn [app] in Hx.
  apply list_elem_of_fmap in Hx as (q & -> & Hq). exists q. split; [|done].
  rewrite <- (take_drop (2 * j) qs), <- (take_drop 2 (drop (2 * j) qs)), !elem_of_app. tauto.
Qed.

(** The pages of the threads are among those taken. *)
Lemma all_pages_in (all : list thread_pages) q x : q ∈ all → x ∈ pages_of q → x ∈ concat (pages_of <$> all).
Proof using Type.
  intros Hqa Hx. rewrite list_elem_of_In, in_concat. exists (pages_of q). rewrite <- !list_elem_of_In.
  split; [by apply list_elem_of_fmap_2|done].
Qed.

(** Every CPU has two threads in its queue when the scheduler's loop starts. *)
Lemma start_scheduler_result f s c all fl :
  0 ≤ f < 2 ^ 64 → unlocked s (Cpu 0) → on_cpu (sc_sys s) (Cpu 0) c →
  queues (sc_sys s) (concat (pages_of <$> all) ++ fl) no_threads →
  1 ≤ ncpu (sc_sys s) ≤ MAX_CPUS → Z.of_nat (length all) = 2 * ncpu (sc_sys s) →
  ∃ s' c' ls (m := km_mem (sy_kmem (sc_sys s'))), start_scheduler f s = Ret ((), s') ∧
    on_cpu (sc_sys s') (Cpu 0) c' ∧ idle_thread c' = idle_thread c ∧ cpu_index c' = cpu_index c ∧ scheduler_ready c' = true ∧
    queues (sc_sys s') fl ls ∧ (∀ j, ls !! j = (λ l, l ++ (item <$> take 2 (drop (2 * j) all))) <$> no_threads !! j) ∧
    (∀ k q, all !! k = Some q → ready f m (Z.of_nat k) (tp_thread q) (tp_stack q)) ∧
    others_kept (km_mem (sy_kmem (sc_sys s))) m (concat (pages_of <$> all)).
Proof using Type.
  intros Hf Hu Hc Hq Hn Hlen. pose proof Hq as (_ & _ & _ & Hall).
  pose proof (Forall2_length _ _ _ Hall) as Hl64. cbn [length no_threads replicate] in Hl64.
  destruct (create_demo_threads_spec f Hf (Cpu 0) s all fl no_threads Hu Hq) as (s1 & ls1 & E1 & Hu1 & Hq1 & Hls & Hr & Ho & Hro);
    [unfold MAX_CPUS in *; lia|done|].
  change ((concat no_threads).*1) with (@nil Z) in Ho. rewrite app_nil_r in Ho. destruct Hu1 as (_ & c1 & (Hc1 & _)).
  destruct (same_roles_lookup _ _ _ _ _ Hro (on_cpu_lookup _ _ _ Hc) (on_cpu_lookup _ _ _ Hc1)) as [R1 R2].
  set (c2 := set_sched (idle_thread c1) (scheduler_ctx c1) true c1).
  set (sys2 := put_cpu (Cpu 0) c2 (sc_sys s1)).
  assert (on_cpu sys2 (Cpu 0) c2) as Hc2 by (by apply (on_cpu_update _ _ c1)).
  exists (Sched (sched_lock s1) (sched_initialized s1) sys2), c2, ls1. cbn [sc_sys].
  split; [|split; [exact Hc2|split; [exact R1|split; [exact R2|split; [done|split; [|split; [exact Hls|split; [exact Hr|exact Ho]]]]]]]].
  - unfold start_scheduler. rewrite (bind_ret _ _ _ _ _ E1).
    assert (mark_ready (sc_sys s1) = Ret ((), sys2)) as Em.
    { unfold mark_ready. rewrite (bind_ret _ _ _ _ _ (proj1 Hc1)). exact (update_put _ _ _ _ (proj2 Hc1)). }
    rewrite (bind_ret _ _ _ _ _ (on_sys_ret _ _ _ _ Em)).
    assert (sched_run_enter sys2 = Ret ((), sys2)) as Ee.
    { unfold sched_run_enter. rewrite (bind_ret _ _ _ _ _ (proj1 Hc2)). erewrite update_put by apply Hc2.
      do 2 f_equal. by apply put_same, Hc2. }
    exact (on_sys_ret _ (Sched _ _ sys2) _ _ Ee).
  - eapply queues_put; [exact Hq1|by apply on_cpu_lookup|done|done].
Qed.

(** ** The first process *)

Lemma init_process_result r s c ls tf a1 a2 v1 v2 pr nd t1 st1 ks1 t2 st2 ks2 n1 n2 fl
    (used := [pr; nd; t1; st1; ks1; t2; st2; ks2; n1; n2]) :
  cli_inv (pr_sys s) r c → lk_word (pid_lock s) = 0 → lk_word (proc_lock s) = 0 →
  proc_list s = 0 → current_proc_rounds s < ROUNDS_PER_PROC →
  queues (pr_sys s) (used ++ fl) ls → static a1 → static a2 → 0 ≤ tf < 2 ^ 64 →
  ∃ s' k', init_process tf a1 a2 v1 v2 s = Ret (t1, s') ∧ moved r (ncli c) (pr_sys s) (pr_sys s') k' ∧
    queues (pr_sys s') fl ls ∧ first_proc_ok s' fl pr [(n1, t1); (n2, t2)] ∧
    thread_runnable (pr_mem s') t1 = true ∧ thread_runnable (pr_mem s') t2 = true ∧
    starts (pr_mem s') tf 1 a1 t1 st1 ∧ starts (pr_mem s') tf 1 a2 t2 st2 ∧ others_kept (pr_mem s) (pr_mem s') used.
Proof using Type.
  intros Hc Hw1 Hw2 Hpl Hro Hq Ha1 Ha2 Htf.
  destruct (procinit_result r s c ls tf a1 a2 v1 v2 pr nd t1 st1 ks1 t2 st2 ks2 n1 n2 fl Hc Hw1 Hw2 Hpl Hro Hq Ha1 Ha2 Htf)
    as (s' & k' & E & Hm & Hq' & _ & _ & Epl & Hok & R1 & R2 & S1 & S2 & Ho).
  exists s', k'. split; [|split; [exact Hm|split; [exact Hq'|split; [exact Hok|split; [exact R1|split; [exact R2|split; [exact S1|split; [exact S2|exact Ho]]]]]]]].
  destruct Hok as (_ & _ & Hd & Hp & _). rewrite Epl in Hd. destruct (proc_shift_result _ _ _ _ _ _ Hp) as [Epk _].
  unfold init_process. rewrite (bind_ret _ _ _ _ _ E).
  rewrite (bind_ret _ _ s' pr s'); [|by apply kmem_of_pure; unfold rd64; rewrite <- Hd].
  unfold proc_peek, bind at 1, rd64 at 1 in Epk.
  rewrite (bind_ret _ _ s' (load64 (pr_mem s') (pr + PR_THREADS)) s'); [|by apply kmem_of_pure].
  apply kmem_of_pure. exact Epk.
Qed.

(** ** All of it *)

(** Pages in groups of four. *)
Lemma quads n : ∀ l, (4 * n ≤ length l)%nat → ∃ qs fl, length qs = n ∧ l = concat (pages_of <$> qs) ++ fl.
Proof using Type.
  induction n as [|n IH]; intros l Hl; [by exists [], l|].
  destruct l as [|a [|b [|c [|d l]]]]; cbn [length] in Hl; [lia..|]. destruct (IH l) as (qs & fl & Hn & ->); [lia|].
  exists (ThreadPages a b c d :: qs), fl. cbn. split; [by rewrite Hn|done].
Qed.

(** The variables of the scheduler and of the processes before their first use. *)
Record fresh (s : sched) (p : procs) : Prop := {
  fr_lock : lk_word (sched_lock s) = 0;
  fr_cpus : percpus (sc_sys s) = replicate 64 percpu_zero;
  fr_id : 0 ≤ hw_apic_id (sy_hw (sc_sys s)) < 256;
  fr_locks : lk_word (pid_lock p) = 0 ∧ lk_word (proc_lock p) = 0;
  fr_list : proc_list p = 0 ∧ current_proc_rounds p < ROUNDS_PER_PROC
}.

Lemma take_pages n (l : list Z) : (2 * n + 14 ≤ length l)%nat →
  ∃ ps sp t st ks pr nd t1 st1 ks1 t2 st2 ks2 n1 n2 fl, length ps = (2 * n)%nat ∧
    l = ps ++ sp :: t :: st :: ks :: [pr; nd; t1; st1; ks1; t2; st2; ks2; n1; n2] ++ fl.
Proof using Type.
  intros Hl. exists (take (2 * n) l). pose proof (length_drop l (2 * n)) as Hd.
  destruct (drop (2 * n) l) as [|x1 [|x2 [|x3 [|x4 [|x5 [|x6 [|x7 [|x8 [|x9 [|x10 [|x11 [|x12 [|x13 [|x14 fl]]]]]]]]]]]]]] eqn:E;
    try (cbn [length] in Hd; lia).
  exists x1, x2, x3, x4, x5, x6, x7, x8, x9, x10, x11, x12, x13, x14, fl. split; [rewrite length_take; lia|].
  rewrite <- (take_drop (2 * n) l) at 1. by rewrite E.
Qed.

(** Before the scheduler starts: the idle thread [t] of the bootstrap processor
    waits on the stack [st] to start [idle], and the free pages begin with those of
    the threads to come. *)
Record prepared (idle : Z) (s : sched) (c : percpu) (all : list thread_pages) (fl : list Z) (t st : Z) : Prop := {
  pp_unlocked : unlocked s (Cpu 0);
  pp_cpu : on_cpu (sc_sys s) (Cpu 0) c;
  pp_queues : queues (sc_sys s) (concat (pages_of <$> all) ++ fl) no_threads;
  pp_ncpu : 1 ≤ ncpu (sc_sys s) ≤ MAX_CPUS;
  pp_enough : Z.of_nat (length all) = 2 * ncpu (sc_sys s);
  pp_idle : idle_thread c = t;
  pp_ready : ready idle (km_mem (sy_kmem (sc_sys s))) 0 t st;
  pp_pages : page_ok t ∧ page_ok st;
  pp_distinct : NoDup (t :: st :: concat (pages_of <$> all) ++ fl)
}.

(** Empty queues need no memory. *)
Lemma queues_empty s k' used fl : queues s (used ++ fl) no_threads → free_list k' fl → queues (set_kmem k' s) fl no_threads.
Proof using Type.
  intros (_ & _ & _ & Hall) Hf. split; [exact Hf|]. split; [apply Hf|]. split; [apply Forall_nil_2|].
  apply Forall2_lookup. intros i. pose proof (proj1 (Forall2_lookup _ _ _) Hall i) as Hi. cbn [percpus set_kmem].
  destruct (no_threads !! i) as [l|] eqn:El; inversion Hi as [c ? [Hq Hn]|]; constructor.
  unfold no_threads in El. apply lookup_replicate in El as [-> _]. split; [|done]. destruct Hq as [Hq _]. by split.
Qed.

(** The interrupt flag may change outside the sections of [pushcli]. *)
Lemma cli_inv_flag s r c b : cli_inv s r c → ncli c = 0 → cli_inv (set_if b s) r c.
Proof using Type.
  intros (Hc & _) Hn. apply cli_inv_outside; [|done]. pose proof (on_cpu_put s r c c b Hc eq_refl) as H.
  by rewrite put_same in H by apply Hc.
Qed.

(** [kernel_main] up to [create_demo_threads], with the memory that [start_all_aps]
    leaves and the interrupt flag that [setup_idt] leaves: as long as the pages in
    use are kept, the scheduler is ready to start. *)
Lemma kernel_main_prepares total idle tf a1 a2 v1 v2 s p l (n := Z.to_nat (Z.min total MAX_CPUS)) :
  1 ≤ total → fresh s p → 0 ≤ idle < 2 ^ 64 → 0 ≤ tf < 2 ^ 64 → static a1 → static a2 →
  free_list (sy_kmem (sc_sys s)) l → (2 * n + 14 ≤ length l)%nat →
  ∃ s1 p2 t1 st1 ps used l2,
    init_cpus total idle s = Ret ((), s1) ∧ gdt_loaded 0 (sc_sys s1) ∧ length ps = (2 * n)%nat ∧
    (∀ i st ks, ps !! (2 * i)%nat = Some st → ps !! (S (2 * i))%nat = Some ks → stacks_set (sc_sys s1) i st ks) ∧
    count_pages (sy_kmem (sc_sys s1)) = Ret (Z.of_nat (length l) - 2 * Z.of_nat n - 4) ∧
    init_process tf a1 a2 v1 v2 (procs_of s1 p) = Ret (t1, p2) ∧
    thread_runnable (pr_mem p2) t1 = true ∧ starts (pr_mem p2) tf 1 a1 t1 st1 ∧
    l = ps ++ used ++ l2 ∧ length used = 14%nat ∧ free_list (sy_kmem (pr_sys p2)) l2 ∧
    others_kept (km_mem (sy_kmem (sc_sys s))) (pr_mem p2) (ps ++ used) ∧
    ∀ k3 b used3 l3, l2 = used3 ++ l3 → free_list k3 l3 → pages_kept (pr_mem p2) (km_mem k3) (ps ++ used) →
      (8 * n ≤ length l3)%nat →
      ∃ c q0 q1 qs fl t st, length (q0 :: q1 :: qs) = (2 * n)%nat ∧ cpu_index c = 0 ∧
        prepared idle (Sched (sched_lock s1) (sched_initialized s1) (set_if b (set_kmem k3 (pr_sys p2)))) c (q0 :: q1 :: qs) fl t st.
Proof using Type.
  intros Ht [Fl Fc Fi [Fp1 Fp2] [Fpl Fro]] Hidle Htf Ha1 Ha2 Hfree Hlen.
  destruct (take_pages n l Hlen) as (ps & sp & t & st & ks & pr & nd & t1 & st1 & ks1 & t2 & st2 & ks2 & n1 & n2 & fl & Hps & El).
  rewrite El in Hfree. assert (Z.of_nat (length ps) = 2 * Z.min total MAX_CPUS) as Hps' by (unfold n, MAX_CPUS in *; lia).
  destruct (init_cpus_result total idle s _ ps sp t st ks _ Ht Fl Fc eq_refl Fi Hidle Hfree Hps')
    as (s1 & c1 & E1 & Hu1 & _ & Hq1 & Hb1 & Hn1 & _ & Hst1 & Hg1 & Hlk1 & Hbt1 & _ & Hid1 & _ & Hr1 & Ho1).
  destruct Hu1 as [Hw1 [c Hc1]]. assert (ncli c = 0) as Hn0.
  { pose proof (on_cpu_lookup _ _ _ (proj1 Hc1)) as Hlc. rewrite Hlk1 in Hlc. injection Hlc as <-. apply Hbt1. }
  destruct (init_process_result (Cpu 0) (procs_of s1 p) c no_threads tf a1 a2 v1 v2 pr nd t1 st1 ks1 t2 st2 ks2 n1 n2 fl)
    as (p2 & k2 & E2 & Hm2 & Hq2 & _ & R1 & _ & S1 & _ & Ho2); [done..|].
  exists s1, p2, t1, st1, ps, [sp; t; st; ks; pr; nd; t1; st1; ks1; t2; st2; ks2; n1; n2], fl.
  split; [exact E1|]. split; [exact Hg1|]. split; [exact Hps|]. split; [exact Hst1|].
  split; [rewrite (count_pages_spec _ _ (proj1 Hq1)), El, !length_app; cbn [length app]; rewrite Hps; f_equal; lia|].
  split; [exact E2|]. split; [exact R1|]. split; [exact S1|]. split; [exact El|]. split; [done|].
  split; [apply Hq2|]. split.
  { eapply others_kept_trans; (eapply others_kept_sub; [|first [exact Ho1|exact Ho2]]); intros x; rewrite ?elem_of_app.
    - intros [?|Hx]; [by left|]. right. revert Hx. rewrite !elem_of_cons, elem_of_nil. clear. tauto.
    - intros Hx. right. revert Hx. rewrite !elem_of_cons, elem_of_nil. clear. tauto. }
  intros k3 b used3 l3 -> Hf3 Ho3 Hl3.
  destruct (quads (2 * n) l3) as (qs & l4 & Hqn & El3); [lia|].
  destruct qs as [|q0 [|q1 qs]]; [unfold n, MAX_CPUS in *; cbn in Hqn; lia..|].
  pose proof (queues_empty (pr_sys p2) k3 used3 l3 Hq2 Hf3) as Hq3. rewrite El3 in Hq3.
  destruct Hm2 as [Hss2 (c2 & Hc2 & Hd2)]. rewrite Hn0 in Hd2. pose proof (same_sched_roles _ _ Hss2) as Hro. destruct Hss2 as (_ & Hn2 & _).
  cbn [set_kmem ncpu procs_of pr_sys] in Hn2.
  destruct (cli_inv_queues _ _ _ _ (queues_only_kmem (pr_sys p2) k3) Hc2) as (qa & qn & Hc3).
  apply (cli_inv_flag _ _ _ b) in Hc3; [|exact Hd2].
  destruct (same_roles_lookup _ _ 0%nat c1 c2 Hro Hlk1 (on_cpu_lookup _ _ _ (proj1 Hc2))) as [Ei Ex].
  destruct Hfree as (_ & Hnd & Hpg). apply NoDup_app in Hnd as (_ & _ & Hnd). apply Forall_app in Hpg as [_ Hpg].
  rewrite !Forall_cons in Hpg. destruct Hpg as (_ & Pt & Pst & _). apply NoDup_cons in Hnd as [_ Hnd].
  rewrite !NoDup_cons, !not_elem_of_cons, !not_elem_of_app in Hnd.
  destruct Hnd as ((N1 & _ & N2 & N3 & N4) & (_ & N5 & N6 & N7) & _ & Hnd).
  exists (set_queue qa qn c2), q0, q1, qs, l4, t, st. split; [exact Hqn|]. split; [cbn; rewrite Ex; apply Hbt1|]. split.
  - split; [exact Hw1|by eexists].
  - apply Hc3.
  - exact Hq3.
  - cbn [ncpu sc_sys set_kmem set_if set_hw]. rewrite Hn2, Hn1. unfold MAX_CPUS. lia.
  - rewrite Hqn. cbn [ncpu sc_sys set_kmem set_if set_hw]. rewrite Hn2, Hn1. unfold n, MAX_CPUS. lia.
  - cbn. by rewrite Ei.
  - unfold pages_kept in Ho3. rewrite Forall_forall in Ho3.
    eapply (ready_agree _ (pr_mem p2)); [apply Ho3, elem_of_app; right; right; left|apply Ho3, elem_of_app; right; do 2 right; left|].
    eapply ready_agree; [| |exact Hr1]; by apply Ho2.
  - done.
  - rewrite <- El3, !NoDup_cons, not_elem_of_cons. split; [done|]. split; [done|]. apply Hf3.
Qed.

End main.
