(* ===== verification/KernelRun.v ===== *)
(** * From the kernel's memory to its idle loop

    [kernel_main] ([kernel/main.c]) on the bootstrap processor from the per-CPU
    structures to [sched_run], call by call ([KernelSched.v], [Idt.v],
    [ApStartup.v]); and then the two demo threads in its queue, which run to their
    ends ([DemoRun.v]), and the idle loop. *)

From S2P Require Import Prelude Memory Kalloc Paging PageTree Ring Threads Context Percpu Spinlock SmpSched SchedRound Switching DemoRun.
From S2P Require Import Proc Acpi Madt Lapic Ioapic Idt Boot ApStartup DemoThreads ProcInit KernelSched.

(** ** [kernel_main] after the set-up of memory *)

(** The scheduler with the processors and the memory, the variables of the
    processes, and the interrupt controllers. *)
Record kernel (DL DI P : Type) := Kernel { kn_sched : sched; kn_procs : procs; kn_machine : machine DL DI P }.
#[global] Arguments Kernel {DL DI P}.
#[global] Arguments kn_sched {DL DI P}.
#[global] Arguments kn_procs {DL DI P}.
#[global] Arguments kn_machine {DL DI P}.

Section main.
Context {WS : WideShift} {PS : PercpuSymbol} {RS : RunSymbols} {IS : IdtSymbols} {AS : ApSymbols} {DL DI P : Type}.
Context {LB : LapicBus DL} {IB : IoapicBus DI} {PB : PortBus P}.
Abbreviation st := (kernel DL DI P).

Definition kn_sys (s : st) : system := sc_sys (kn_sched s).
Definition kn_mem (s : st) : mem := km_mem (sy_kmem (kn_sys s)).
Definition set_sys (sys : system) (s : sched) : sched := Sched (sched_lock s) (sched_initialized s) sys.

Definition in_sched {A} (c : M sched A) : M st A := λ s,
  match c (kn_sched s) with
  | Ret (a, x) => Ret (a, Kernel x (kn_procs s) (kn_machine s))
  | Panic msg => Panic msg
  | Undef => Undef
  | OutOfFuel => OutOfFuel
  end.
Definition in_procs {A} (c : M procs A) : M st A := λ s,
  match c (procs_of (kn_sched s) (kn_procs s)) with
  | Ret (a, p) => Ret (a, Kernel (set_sys (pr_sys p) (kn_sched s)) p (kn_machine s))
  | Panic msg => Panic msg
  | Undef => Undef
  | OutOfFuel => OutOfFuel
  end.
(** The interrupt flag is the processor's. *)
Definition in_machine {A} (c : M (machine DL DI P) A) : M st A := λ s,
  let m := kn_machine s in
  match c (Machine (shared_idt m) (idtr m) (m_lapic m) (m_ioapic m) (m_ports m) (hw_if (sy_hw (kn_sys s)))) with
  | Ret (a, m) => Ret (a, Kernel (set_sys (set_if (m_if m) (kn_sys s)) (kn_sched s)) (kn_procs s) m)
  | Panic msg => Panic msg
  | Undef => Undef
  | OutOfFuel => OutOfFuel
  end.
Definition in_boot {A} (c : M (boot DL) A) : M st A := λ s,
  let m := kn_machine s in
  match c (Boot (sy_kmem (kn_sys s)) (m_lapic m)) with
  | Ret (a, b) => Ret (a, Kernel (set_sys (set_kmem (b_kmem b) (kn_sys s)) (kn_sched s)) (kn_procs s)
      (Machine (shared_idt m) (idtr m) (b_lapic b) (m_ioapic m) (m_ports m) (m_if m)))
  | Panic msg => Panic msg
  | Undef => Undef
  | OutOfFuel => OutOfFuel
  end.

Definition in_count : M st Z := λ s,
  match count_pages (sy_kmem (kn_sys s)) with
  | Ret n => Ret (n, s)
  | Panic msg => Panic msg
  | Undef => Undef
  | OutOfFuel => OutOfFuel
  end.

(** From [percpu_init_bsp] to the loop of [sched_run], without the messages on the
    terminal and the serial port ([percpu_log_cpu_info] and [sched_log_state] do
    nothing else) and the empty loop that waits; [md] are the variables of [kernel/acpi/madt.c], [env] what the
    reads of the counter of started processors return.  Returns [pages], [init_thread]
    and [ap_count]. *)
Definition main_after_memory (fuel : nat) (env : nat → nat → Z) (md : madt)
    (kernel_table thread_function arg1 arg2 value1 value2 : Z) : M st (Z * Z * Z) :=
  do* in_sched (init_cpus (cpu_count md) idle_thread_func) in
  let* pages := in_count in
  let* init_thread := in_procs (init_process thread_function arg1 arg2 value1 value2) in
  let* m := gets kn_mem in
  do* in_machine (setup_idt fuel m (madt_ptr md) (lapic_address md)) in
  let* ap_count := in_boot (start_all_aps fuel env md kernel_table) in
  do* in_sched (start_scheduler demo_thread_func) in
  ret (pages, init_thread, ap_count).
End main.

(** * Properties *)

Section run.
Context {LK : Linker} {PS : PercpuSymbol} {RS : RunSymbols}.

(** ** The threads at the start *)

(** The thread [k] with the pages [q]. *)
Definition new_task (k : nat) (q : thread_pages) : task :=
  Task (tp_node q) (tp_thread q) (tp_stack q) (DemoStart (Z.of_nat k)).

Lemma own_distinct all k q : NoDup (concat (pages_of <$> all)) → all !! k = Some q → NoDup (pages_of q).
Proof using Type.
  revert k. induction all as [|q' all IH]; intros [|k] Hnd Hk; try done; cbn [fmap list_fmap concat] in Hnd;
    apply NoDup_app in Hnd as (Hq & _ & Hnd); [by injection Hk as <-|by eapply IH].
Qed.

(** The pages of a thread are not nodes. *)
Lemma not_nodes all q q' : NoDup (concat (pages_of <$> all)) → q ∈ all → q' ∈ all →
  tp_node q' ≠ tp_thread q ∧ tp_node q' ≠ tp_stack q.
Proof using Type.
  intros Hnd [j Hj]%list_elem_of_lookup [k Hk]%list_elem_of_lookup. destruct (decide (j = k)) as [<-|Hne].
  - rewrite Hj in Hk. injection Hk as <-. pose proof (own_distinct _ _ _ Hnd Hj) as H. unfold pages_of in H.
    rewrite !NoDup_cons, !not_elem_of_cons in H. destruct H as ((_ & _ & H1 & _) & (_ & H2 & _) & _). split; congruence.
  - split; intros E; apply (pages_distinct _ _ _ _ _ (tp_node q') Hnd Hk Hj); try done; try (do 3 right; left); rewrite E;
      [left|right; left].
Qed.

Lemma ready_suspended f m id t st n p : ready f m id t st → label p = f →
  match p with DemoStart arg => arg = id | IdleStart => True | _ => False end →
  suspended m ∅ (Task n t st p).
Proof using Type.
  intros (_ & Hctx & Hst & Hat) Hl Hp. unfold suspended, has_stack. cbn [tk_thread tk_stack tk_point]. rewrite Hctx.
  split; [exact Hst|]. split; [unfold CTX_SIZE, PGSIZE; lia|]. split; [lia|]. exists (first_regs id 0). rewrite Hl. split; [exact Hat|].
  destruct p; try done. by subst.
Qed.

(** The scheduler's loop starts with the threads 0 and 1 in its queue. *)
Lemma start_at_sched s c q0 q1 qs fl t st : prepared idle_thread_func s c (q0 :: q1 :: qs) fl t st →
  ∃ s1 c1 ls, start_scheduler demo_thread_func s = Ret ((), s1) ∧ cpu_index c1 = cpu_index c ∧
    at_sched 0 [] (Run (sc_sys s1) InSched ∅ []) c1 fl ls (Task 0 t st IdleStart) [new_task 0 q0; new_task 1 q1] [].
Proof using Type.
  intros [Hu Hc Hq Hn Hlen Hi Hr [Pt Pst] Hnd]. set (all := q0 :: q1 :: qs) in *.
  pose proof symbols_range as Hf. rewrite !Forall_cons in Hf. destruct Hf as (Hf & _).
  destruct (start_scheduler_result demo_thread_func s c all fl Hf Hu Hc Hq Hn Hlen)
    as (s1 & c1 & ls & E & Hc1 & Hi1 & Hx1 & _ & Hq1 & Hls & Hr1 & Ho).
  rewrite !NoDup_cons, not_elem_of_cons, !not_elem_of_app in Hnd. destruct Hnd as ((N1 & N2 & N3) & (N4 & N5) & Hnd).
  apply NoDup_app in Hnd as (Hnd & Hdis & _). destruct Hq as ((_ & _ & Hpg) & _). apply Forall_app in Hpg as [Hpg _].
  pose proof (all_pages_in all) as Hin. assert (q0 ∈ all ∧ q1 ∈ all) as [I0 I1] by (split; [left|right; left]).
  assert (∀ x, x ∈ (concat ls).*1 → ∃ q, q ∈ all ∧ x = tp_node q) as Hnodes.
  { intros x (y & -> & Hy)%list_elem_of_fmap. destruct (dealt_items _ _ _ Hls Hy) as (q & Hqa & ->). by exists q. }
  set (l := [tp_thread q0; tp_stack q0; tp_thread q1; tp_stack q1]).
  assert (∀ x, x ∈ l → x ∈ concat (pages_of <$> all) ∧ ∀ q, q ∈ all → x ≠ tp_node q) as Hl.
  { assert (∀ q x, q ∈ all → x = tp_thread q ∨ x = tp_stack q → x ∈ concat (pages_of <$> all) ∧ ∀ q', q' ∈ all → x ≠ tp_node q') as Hof.
    { intros q x Hqa Hx. split.
      - apply (Hin q); [done|]. destruct Hx as [-> | ->]; [left|right; left].
      - intros q' Hqa'. destruct (not_nodes all q q' Hnd Hqa Hqa'). destruct Hx; congruence. }
    intros x Hx. unfold l in Hx. rewrite !elem_of_cons, elem_of_nil in Hx. destruct Hx as [?|[?|[?|[?|[]]]]];
      [eapply (Hof q0)|eapply (Hof q0)|eapply (Hof q1)|eapply (Hof q1)]; auto. }
  assert (NoDup l) as Hndl.
  { eapply sublist_NoDup; [exact Hnd|]. unfold l, all. cbn [fmap list_fmap concat pages_of app].
    repeat first [apply sublist_skip | apply sublist_nil_l | apply sublist_cons]. }
  exists s1, c1, ls. split; [exact E|]. split; [exact Hx1|]. split; [done| | |by rewrite Hi1| | |done].
  - split.
    + exact Hc1.
    + exact Hq1.
    + change (NoDup (t :: st :: l)). rewrite !NoDup_cons, not_elem_of_cons. split; [split; [exact N1|]|split; [|exact Hndl]];
        intros Hx; [apply N2|apply N4]; by apply Hl.
    + change (Forall page_ok (t :: st :: l)). rewrite !Forall_cons. split; [exact Pt|]. split; [exact Pst|].
      apply Forall_forall. intros x Hx. apply (proj1 (Forall_forall _ _) Hpg). by apply Hl.
    + change (∀ p, p ∈ t :: st :: l → p ∉ (concat ls).*1 ++ fl). intros p. rewrite !elem_of_cons, not_elem_of_app.
      assert (∀ q, q ∈ all → tp_node q ∈ concat (pages_of <$> all)) as Hnode by (intros q Hqa; apply (Hin q); [done|do 3 right; left]).
      intros [-> |[-> |Hp]]; (split; [intros (q & Hqa & Eq)%Hnodes|]).
      * apply N2. rewrite Eq. by apply Hnode. * exact N3.
      * apply N4. rewrite Eq. by apply Hnode. * exact N5.
      * by apply (proj2 (Hl p Hp) q). * apply Hdis. by apply Hl.
    + intros p Hp. by apply not_elem_of_nil in Hp.
  - by rewrite Hls.
  - eapply ready_suspended; [|done|done]. eapply ready_agree; [| |exact Hr]; by apply Ho.
  - rewrite !Forall_cons. split; [|split; [|done]].
    + split; [apply (Hr1 0%nat q0 eq_refl)|]. eapply ready_suspended; [exact (Hr1 0%nat q0 eq_refl)|done|done].
    + split; [apply (Hr1 1%nat q1 eq_refl)|]. eapply ready_suspended; [exact (Hr1 1%nat q1 eq_refl)|done|done].
Qed.

(** ** The run *)

(** What the threads 0 and 1, with the structures [t0] and [t1], report on
    CPU 0. *)
Definition demo_log (t0 t1 : Z) : list event := reports 0 0 [0; 1] ++ endings 0 [t0; t1] [0; 1].

(** The CPU idles for ever, silently. *)
Definition idles_for_ever (lo hi : Z) (s : run) : Prop :=
  safe lo hi s ∧ ∀ s', executes lo hi s s' → idling 0 lo hi [] s' ∧ ru_log s' = ru_log s.

Lemma prepared_runs lo hi s c q0 q1 qs fl t st :
  0 ≤ lo → lo + 128 ≤ hi ≤ KEND → hi ≤ p4_table ∨ p4_table + 4 * PGSIZE ≤ lo →
  prepared idle_thread_func s c (q0 :: q1 :: qs) fl t st → cpu_index c = 0 →
  ∃ s1, start_scheduler demo_thread_func s = Ret ((), s1) ∧
    reaches lo hi (λ s', ru_log s' = demo_log (tp_thread q0) (tp_thread q1) ∧
      free_list (sy_kmem (ru_sys s')) (tp_node q1 :: tp_node q0 :: fl) ∧ idles_for_ever lo hi s')
      (Run (sc_sys s1) InSched ∅ []).
Proof using Type.
  intros Hlo Hhi Htab Hp Hx. destruct (start_at_sched s c q0 q1 qs fl t st Hp) as (s1 & c1 & ls & E & Hx1 & H).
  exists s1. split; [exact E|]. pose proof (pp_pages _ _ _ _ _ _ _ Hp) as [Pt _]. pose proof (page_ok_u64 _ Pt) as Rt.
  assert (0 ≤ lo ∧ lo + 128 ≤ hi < 2 ^ 64) as Hrange by (destruct Pt as [_ Pt]; lia).
  assert (∀ q, page_ok q → (q ∉ @nil Z) → hi ≤ q ∨ q + PGSIZE ≤ lo) as Hapart by (intros q [_ Hq] _; left; lia).
  eapply reaches_trans.
  - eapply (all_finish 0 lo hi [] Hrange Hapart Htab _ _ _ _ _ _ [0; 1]); [|exact H].
    constructor; [|constructor; [|constructor]]; left; eexists; (split; [reflexivity|]); split; reflexivity.
  - intros s' (c' & gone & Hs' & _ & Hlog). apply reaches_now.
    assert (idling 0 lo hi [] s') as Hi by (exists c', (reverse (tk_node <$> [new_task 0 q0; new_task 1 q1]) ++ fl), (<[0%nat := []]> ls),
      (Task 0 t st IdleStart), gone; split; [by left|by left]).
    split; [|split].
    + rewrite Hlog, Hx1, Hx. done.
    + destruct Hs' as [_ [_ (Hfr & _) _ _ _ _] _ _ _ _ _]. exact Hfr.
    + split; [|by intros s2 Hex; apply (idling_executes 0 lo hi [] Hrange Hapart Htab)].
      intros s2 Hex. destruct (idling_executes 0 lo hi [] Hrange Hapart Htab _ _ Hex Hi) as [Hi2 _].
      destruct (idling_step 0 lo hi [] Hrange Hapart Htab s2 Hi2) as [Hfr Hst]. split; [exact Hfr|].
      intros fr Hok. destruct (Hst fr Hok) as (s3 & E3 & _). by exists s3.
Qed.

(** The log, message by message. *)
Example demo_log_value t0 t1 : demo_log t0 t1 =
  [Running 0 0 0; Running 1 0 0; Running 0 0 1; Running 1 0 1; Running 0 0 2; Running 1 0 2; Running 0 0 3; Running 1 0 3;
   Running 0 0 4; Running 1 0 4; Finished 0; Exited t0 0; Finished 1; Exited t1 0].
Proof using Type. reflexivity. Qed.
End run.

(** ** The start, call by call *)

Section whole.
Context {LK : Linker} {WS : WideShift} {PS : PercpuSymbol} {RS : RunSymbols} {IS : IdtSymbols} {AS : ApSymbols} {DL DI P : Type}.
Context {LB : LapicBus DL} {LC : LapicChip DL} {IB : IoapicBus DI} {IC : IoapicChips DI} {PB : PortBus P} {KB : Ps2 P}.
Abbreviation st := (kernel DL DI P).

Lemma bind_in_sched {A B} (c : M sched A) (k : A → M st B) s a x :
  c (kn_sched s) = Ret (a, x) → bind (in_sched c) k s = k a (Kernel x (kn_procs s) (kn_machine s)).
Proof using Type. intros E. unfold bind, in_sched. by rewrite E. Qed.
Lemma bind_in_procs {A B} (c : M procs A) (k : A → M st B) s a p :
  c (procs_of (kn_sched s) (kn_procs s)) = Ret (a, p) →
  bind (in_procs c) k s = k a (Kernel (set_sys (pr_sys p) (kn_sched s)) p (kn_machine s)).
Proof using Type. intros E. unfold bind, in_procs. by rewrite E. Qed.

Lemma bind_gets {A B} (f : st → A) (k : A → M st B) s : bind (gets f) k s = k (f s) s.
Proof using Type. done. Qed.
Lemma bind_in_count {B} (k : Z → M st B) s n :
  count_pages (sy_kmem (kn_sys s)) = Ret n → bind in_count k s = k n s.
Proof using Type. intros E. unfold bind, in_count. by rewrite E. Qed.
Lemma bind_in_machine {A B} (c : M (machine DL DI P) A) (k : A → M st B) x p mc a mc' :
  c (Machine (shared_idt mc) (idtr mc) (m_lapic mc) (m_ioapic mc) (m_ports mc) (hw_if (sy_hw (sc_sys x)))) = Ret (a, mc') →
  bind (in_machine c) k (Kernel x p mc) = k a (Kernel (set_sys (set_if (m_if mc') (sc_sys x)) x) p mc').
Proof using Type. intros E. unfold bind, in_machine, kn_sys, kn_machine, kn_sched. by rewrite E. Qed.
Lemma bind_in_boot {A B} (c : M (boot DL) A) (k : A → M st B) x p mc a b :
  c (Boot (sy_kmem (sc_sys x)) (m_lapic mc)) = Ret (a, b) →
  bind (in_boot c) k (Kernel x p mc) = k a (Kernel (set_sys (set_kmem (b_kmem b) (sc_sys x)) x) p
    (Machine (shared_idt mc) (idtr mc) (b_lapic b) (m_ioapic mc) (m_ports mc) (m_if mc))).
Proof using Type. intros E. unfold bind, in_boot, kn_sys, kn_machine, kn_sched. by rewrite E. Qed.

(** The calls put together. *)
Lemma calls_compose fuel env md root tf a1 a2 v1 v2 (s : st) s1 t1 p2 mc d k3 l3 n s4 pages (m := kn_machine s) :
  init_cpus (cpu_count md) idle_thread_func (kn_sched s) = Ret ((), s1) →
  count_pages (sy_kmem (sc_sys s1)) = Ret pages →
  init_process tf a1 a2 v1 v2 (procs_of s1 (kn_procs s)) = Ret (t1, p2) →
  setup_idt fuel (pr_mem p2) (madt_ptr md) (lapic_address md)
    (Machine (shared_idt m) (idtr m) (m_lapic m) (m_ioapic m) (m_ports m) (hw_if (sy_hw (pr_sys p2)))) = Ret ((), mc) →
  m_lapic mc = LapicDriver lapic_base d → m_if mc = true →
  start_all_aps fuel env md root (Boot (sy_kmem (pr_sys p2)) (LapicDriver lapic_base d)) = Ret (n, Boot k3 l3) →
  start_scheduler demo_thread_func (Sched (sched_lock s1) (sched_initialized s1) (set_if true (set_kmem k3 (pr_sys p2)))) = Ret ((), s4) →
  main_after_memory fuel env md root tf a1 a2 v1 v2 s =
    Ret ((pages, t1, n), Kernel s4 p2 (Machine (shared_idt mc) (idtr mc) l3 (m_ioapic mc) (m_ports mc) true)).
Proof using Type.
  intros E1 Ec E2 E3 Ed Hif E4 E5. unfold main_after_memory. rewrite (bind_in_sched _ _ _ _ _ E1), (bind_in_count _ (Kernel s1 (kn_procs s) (kn_machine s)) _ Ec).
  rewrite (bind_in_procs _ _ (Kernel s1 (kn_procs s) (kn_machine s)) _ _ E2), bind_gets.
  rewrite (bind_in_machine _ _ (set_sys (pr_sys p2) s1) p2 m () mc E3), Hif.
  rewrite (bind_in_boot _ _ _ p2 mc n (Boot k3 l3)) by (rewrite Ed; exact E4). cbn [b_lapic b_kmem]. rewrite Hif.
  rewrite (bind_in_sched _ _ _ () s4); [done|exact E5].
Qed.

(** The kernel after the set-up of memory ([KernelMain.v]), on a machine without
    another enabled processor: the variables as they were loaded;
    [l] the free pages; the page tables among the boot tables and the pages of the
    allocator; the trampoline in the kernel's image; the MADT, with the entries
    [es], copied to a page of its own; and the I/O APIC [a] serving interrupt 1. *)
Record booted (fuel : nat) (md : madt) (es : list madt_entry) (a : IOAPICInfo) (root : Z) (l : list Z) (s : st)
    (n := Z.of_nat (length (concat (encode_entry <$> es)))) (ios := info_of <$> ioapic_infos es) : Prop := {
  bo_fresh : fresh (kn_sched s) (kn_procs s);
  bo_free : free_list (sy_kmem (kn_sys s)) l;
  bo_tree : tree_ok (kn_mem s) root l;
  bo_tables path t : path_ok path → table_at (kn_mem s) root path = Some t →
    page_ok t ∨ p4_table ≤ t ∧ t + PGSIZE ≤ p4_table + 4 * PGSIZE;
  bo_trampoline : KSTART ≤ ap_trampoline_start ∧ ap_trampoline_start + ap_trampoline_size ≤ KEND ∧
    apart ap_trampoline_start ap_trampoline_size p4_table (4 * PGSIZE);
  bo_madt : page_ok (madt_ptr md) ∧ (madt_ptr md ∉ l) ∧ MADT_SIZE + n ≤ PGSIZE;
  bo_length : load32 (kn_mem s) (madt_ptr md + SDT_LENGTH) = MADT_SIZE + n;
  bo_entries : Forall entry_wf es ∧ at_addr (kn_mem s) (madt_ptr md + MADT_SIZE) (concat (encode_entry <$> es));
  bo_ioapics : length (Ioapic.ioapics (m_ioapic (kn_machine s))) = 8%nat ∧ (length ios ≤ 8)%nat ∧ chips_ok ios;
  bo_keyboard : a ∈ ios ∧ gsi_base a ≤ 1 ≤ gsi_base a + max_redirect a ∧ out_buf (m_ports (kn_machine s)) = [];
  bo_fuel : (length es + 130 < fuel)%nat ∧ (max_wait < fuel)%nat;
  bo_cpus : lapic_address md = lapic_base ∧ 1 ≤ cpu_count md;
  bo_alone : to_start md (u8 (Z.shiftr (lreg (ldev (m_lapic (kn_machine s))) LAPIC_ID) 24)) (Z.to_nat (cpu_count md)) 0 = []
}.

(** The MADT in memory in which its page is the same. *)
Lemma madt_kept m m' p es (n := Z.of_nat (length (concat (encode_entry <$> es)))) :
  agree m m' p PGSIZE → MADT_SIZE + n ≤ PGSIZE → load32 m (p + SDT_LENGTH) = MADT_SIZE + n →
  at_addr m (p + MADT_SIZE) (concat (encode_entry <$> es)) →
  load32 m' (p + SDT_LENGTH) = MADT_SIZE + n ∧ at_addr m' (p + MADT_SIZE) (concat (encode_entry <$> es)).
Proof using Type.
  intros Hag Hfit Hlen Hat. split.
  - rewrite <- Hlen. unfold load32. apply load_agree. eapply agree_sub; [exact Hag|unfold SDT_LENGTH, PGSIZE; cbn; lia..].
  - unfold at_addr in *. rewrite <- Hat at 2. apply bytes_at_agree. eapply agree_sub; [exact Hag| |]; unfold MADT_SIZE, SDT_SIZE in *; lia.
Qed.

(** [setup_idt] in the kernel: it changes the controllers and switches interrupts on. *)
Lemma machine_ready fuel md es a root l s m b (mc := kn_machine s) : booted fuel md es a root l s → agree (kn_mem s) m (madt_ptr md) PGSIZE →
  ∃ mc' d, setup_idt fuel m (madt_ptr md) (lapic_address md)
      (Machine (shared_idt mc) (idtr mc) (m_lapic mc) (m_ioapic mc) (m_ports mc) b) = Ret ((), mc') ∧
    m_lapic mc' = LapicDriver lapic_base d ∧ lreg d LAPIC_ID = lreg (ldev (m_lapic mc)) LAPIC_ID ∧ m_if mc' = true.
Proof using KB.
  intros [_ _ _ _ _ (Pm & _ & Hfit) Hlen [Hwf Hat] (Hi8 & Hl8 & Hok) (Hin & Hg & Hout) [Hf Hfw] [Hla _] _] Hag.
  destruct (madt_kept _ _ _ _ Hag Hfit Hlen Hat) as [Hlen' Hat']. rewrite Hla.
  destruct (setup_idt_result fuel m (madt_ptr md) es
    (Machine (shared_idt mc) (idtr mc) (m_lapic mc) (m_ioapic mc) (m_ports mc) b) a (page_ok_nonzero _ Pm) Hlen' Hwf Hat' Hi8 Hl8 Hok Hf Hfw Hout Hin Hg)
    as (mc' & d & E & _ & _ & El & Hr & _ & _ & _ & _ & Hif).
  exists mc', d. split; [exact E|]. split; [exact El|]. split; [|exact Hif]. by rewrite Hr.
Qed.

(** The page tables and the trampoline in memory in which only pages that were
    free have changed. *)
Lemma tables_kept fuel md es a root l s m used l2 : booted fuel md es a root l s → l = used ++ l2 → others_kept (kn_mem s) m used →
  tree_ok m root l2 ∧
  (∀ b, ap_trampoline_start ≤ b < ap_trampoline_start + ap_trampoline_size → unowned m root l2 b) ∧
  (∀ q b, q ∈ used → q ≤ b < q + PGSIZE → unowned m root l2 b).
Proof using Type.
  intros [_ (_ & Hnd & Hpg) Ht Htab (Ha1 & Ha2 & Ha3) _ _ _ _ _ _ _ _] -> [Ho Hot].
  assert (∀ path t, path_ok path → table_at (kn_mem s) root path = Some t → agree (kn_mem s) m t PGSIZE) as Hag.
  { intros path t Hp Hat. destruct (Htab path t Hp Hat) as [Pt|Ht4].
    - apply Ho; [done|]. intros Hin. apply (tree_free _ _ _ Ht path t Hp Hat), elem_of_app. by left.
    - eapply agree_sub; [exact Hot|lia..]. }
  destruct (tree_kept (kn_mem s) m root _ Ht Hag) as (T3 & T1 & _). rewrite Forall_app, !Forall_forall in Hpg. destruct Hpg as [Hpu Hpl].
  apply NoDup_app in Hnd as (_ & Hdis & _). pose proof KEND_range as HK. pose proof p4_range as H4. unfold apart in Ha3.
  split; [|split].
  - destruct T1 as [A1 A2 A3]. split; [done|done|]. intros path t Hp Hat Hin. apply (A3 path t Hp Hat), elem_of_app. by right.
  - intros b Hb. split; [intros q Hq; destruct (Hpl q Hq) as [_ ?]; lia|]. intros path t Hp Hat. rewrite T3 in Hat by done.
    destruct (Htab path t Hp Hat) as [[_ ?]|?]; lia.
  - intros q b Hq Hb. destruct (Hpu q Hq) as [Hqm _]. split.
    + intros x Hx. destruct (Hpl x Hx) as [Hxm _]. pose proof (pages_disjoint x q Hxm Hqm ltac:(intros ->; by apply (Hdis q Hq))). lia.
    + intros path t Hp Hat. rewrite T3 in Hat by done. destruct (tree_pages _ _ _ Ht path t Hp Hat) as [_ Htm].
      assert (t ≠ q) as Hne by (intros ->; apply (tree_free _ _ _ Ht path q Hp Hat), elem_of_app; by left).
      pose proof (pages_disjoint t q Htm Hqm Hne). lia.
Qed.

End whole.

(** ** Witness *)

#[global] Instance demo_run_symbols : RunSymbols.
Proof.
  refine {| demo_thread_func := 0x103000; idle_thread_func := 0x101000; after_yield := 0x104000; after_exit := 0x105000;
    after_run := 0x106000; after_idle := 0x107000 |}.
  - repeat constructor; lia.
  - apply (bool_decide_unpack _). vm_compute. exact I.
Defined.

(** One processor; empty page tables at 0x100000, the MADT at 0x1F0000, 72 free
    pages from 0x200000 on. *)
Definition demo_one_cpu : madt := Madt 0x1F0000 0xFEE00000 [mkCPUInfo 0 0 1 true true] 1 [] 0.
Definition demo_image : mem :=
  place 0x1F0000 (replicate 4 0 ++ le 4 (44 + 32) ++ replicate 36 0 ++ concat (encode_entry <$> demo_io_entries)) ∅.
Definition demo_pages : list Z := demo_free 72.
Definition demo_start : kernel soft_lapic soft_chips soft_ps2 :=
  let sys := System (Kmem (chain_mem demo_pages demo_image) (default 0 (hd_error demo_pages)))
    (replicate 64 percpu_zero) 0 (replicate 256 0) percpu_zero false (demo_processor 0) in
  Kernel (Sched (Spinlock 0 "") false sys) (Procs sys (Spinlock 0 "") (Spinlock 0 "") 0 0 0 0) demo_machine.

Lemma demo_start_free : free_list (LK := demo_linker) (sy_kmem (kn_sys demo_start)) demo_pages.
Proof.
  split; [vm_compute; repeat split|]. split; [apply (bool_decide_unpack _); vm_compute; exact I|].
  apply (bool_decide_unpack _). vm_compute. exact I.
Qed.

Lemma demo_tables_zero i : index_ok i → load64 (kn_mem demo_start) (0x100000 + 8 * i) = 0.
Proof.
  intros Hi. apply load_zeros. intros b Hb. unfold index_ok in Hi.
  change (kn_mem demo_start) with (chain_mem demo_pages demo_image). rewrite chain_mem_other.
  - unfold demo_image. rewrite place_other; [done|lia].
  - assert (Forall (λ p, 0x200000 ≤ p) demo_pages) as Hall by (apply (bool_decide_unpack _); vm_compute; exact I).
    eapply Forall_impl; [exact Hall|]. cbn. lia.
Qed.

Lemma demo_booted : booted (LK := demo_linker) (AS := demo_ap_symbols) 134 demo_one_cpu demo_io_entries
  (mkIOAPICInfo 0 0xFEC00000 0 23 0xFEC00000) 0x100000 demo_pages demo_start.
Proof.
  split.
  - split; [reflexivity|reflexivity|vm_compute; split; congruence|split; reflexivity|split; reflexivity].
  - exact demo_start_free.
  - apply empty_root_ok; [vm_compute; done..|apply (bool_decide_unpack _); vm_compute; exact I|apply demo_tables_zero].
  - intros path t Hp Ht. destruct (empty_root_tables _ _ _ _ demo_tables_zero Hp Ht) as [_ ->]. right. vm_compute. split; discriminate.
  - split; [vm_compute; discriminate|]. split; [vm_compute; discriminate|]. right. vm_compute. discriminate.
  - split; [split; vm_compute; [reflexivity|split; [discriminate|reflexivity]]|]. split; [apply (bool_decide_unpack _); vm_compute; exact I|].
    vm_compute. discriminate.
  - vm_compute. reflexivity.
  - split; [repeat (constructor; [cbn; lia|]); constructor|vm_compute; reflexivity].
  - split; [reflexivity|]. split; [cbn; lia|]. split; [|split].
    + repeat (constructor; [split; [reflexivity|]; vm_compute; split_and!; (discriminate || reflexivity)|]).
      constructor.
    + apply (bool_decide_unpack _). vm_compute. exact I.
    + intros [|[|i]] [|[|j]] x y Hx Hy Hij; try done; injection Hx as <-; injection Hy as <-; vm_compute; auto.
  - split; [left|]. split; [cbn; lia|reflexivity].
  - split; cbn; lia.
  - split; [reflexivity|cbn; lia].
  - reflexivity.
Qed.

